(* ===== verification/_CoqProject ===== *)
-Q . S2P
Prelude.v
RlcPdu.v
RlcSdu.v
TimeStat.v
RlcEntity.v
RlcTm.v
RlcRx.v
RlcUm.v
RlcUmLink.v
RlcUmSafe.v
RlcAm.v
RlcAmControl.v
RlcAmStatus.v
RlcAmEntity.v
RlcAmReport.v
RlcAmData.v
RlcAmFaults.v
RlcAmWindow.v
RlcAmRecv.v
RlcAmFrame.v
RlcAmReceiver.v
RlcBearer.v
Snow3gTables.v
Snow3g.v
Snow3gSpec.v
Snow3gStream.v
Snow3gMac.v
Security.v
Pdcp.v
PdcpRx.v
PdcpLink.v
PdcpProps.v
Sdap.v
SdapProps.v
WorkQueue.v
F1Ids.v
RlcApi.v
RlcApiProps.v
RlcApiUm.v
PdcpApi.v
PdcpApiProps.v
Crc.v
CrcProps.v
Tbs.v
Segmentation.v
SegmentationProps.v
RateMatch.v
RateMatchProps.v
Dlsch.v
DlschTx.v
DlschRx.v
DlschLink.v
DlschToy.v
DlschProps.v
DlschSound.v
LdpcTables.v
Ldpc.v
LdpcSpec.v
LdpcEnc.v
LdpcWord.v
LdpcLink.v
LdpcProps.v
Mac.v
MacPdu.v
MacAny.v
MacBlock.v
MacRlc.v
MacProps.v
MacUm.v
MacAir.v
Stack.v
StackProps.v
