(* ===== verification/Prelude.v ===== *)
(** * NR user plane and transport channel coding: a verification library

    The program is the 5G stack of OpenAirInterface.  This library models the layer-2 user
    plane of its gNB and UE: the path of a packet from the SDAP entity of one side through
    PDCP and RLC to MAC, and back up on the other side; of MAC, the transport blocks from gNB
    to UE; and, of the physical layer below it, how a transport block becomes code blocks and
    coded bits.

    ** Parts and their interaction

    - SDAP ([src/openair2/SDAP/nr_sdap/]) maps QoS flows to data radio bearers, puts the
      one-byte SDAP header in front of an SDU and calls PDCP.
    - PDCP ([src/openair2/LAYER2/nr_pdcp/]) numbers, ciphers and authenticates SDUs, and on
      reception reorders them and hands them up in order.  A UE manager holds the entities of
      each UE under a lock; the API functions look an entity up and call it.  Two rings
      with one thread each decouple PDCP from RLC.
    - The security layer ([src/openair3/SECU/] and the PDCP front ends) selects SNOW 3G,
      AES-CTR or AES-CMAC; SNOW 3G is the repository's own code.
    - RLC ([src/openair2/LAYER2/nr_rlc/]) has three kinds of entity: transparent (TM),
      unacknowledged (UM: segmentation and reassembly) and acknowledged (AM: retransmission
      driven by STATUS PDUs).  MAC calls [generate_pdu] and [recv_pdu]; PDCP calls [recv_sdu].
    - MAC of the gNB ([src/openair2/LAYER2/NR_MAC_gNB/gNB_scheduler_dlsch.c]) fills a transport
      block with control elements, RLC PDUs and padding; MAC of the UE
      ([src/openair2/LAYER2/NR_MAC_UE/nr_ue_procedures.c]) takes it apart, applies the timing
      advance, ends the random access and hands the PDUs to RLC.
    - [src/common/utils/time_stat.c] keeps the sliding-window averages RLC reports.
    - Channel coding ([src/openair1/PHY/CODING/]) protects the transport blocks of MAC: a
      CRC, the cut into code blocks for the LDPC coder, rate matching to the allocated
      resources and bit interleaving, and the same backwards with soft values.  The size of
      a transport block and the base graph are chosen by MAC
      ([src/openair2/LAYER2/NR_MAC_COMMON/]) so that the cut is even.

    ** Files

    - [Prelude]: the result monad [res], record update, arrays ([rd], [wr], [slice], [blit]),
      machine-width arithmetic, tactics, generic lemmas.
    - [RlcPdu], [RlcSdu], [TimeStat], [RlcEntity]: [nr_rlc_pdu.c], [nr_rlc_sdu.c],
      [time_stat.c], [nr_rlc_entity.h].
    - [RlcTm] (Module [Tm]): [nr_rlc_entity_tm.c].
    - [RlcRx]: reassembly, the text UM and AM share; [RlcUm] (Module [Um]):
      [nr_rlc_entity_um.c]; [RlcUmLink], [RlcUmSafe]: its theorems.
    - [RlcAm], [RlcAmControl], [RlcAmStatus], [RlcAmEntity] (Modules [Am], [AmControl],
      [AmStatus], [AmEntity]): [nr_rlc_entity_am.c], split into state and reception, STATUS
      PDUs received, STATUS PDUs sent, entity operations; [RlcAmReport], [RlcAmData],
      [RlcAmFaults]: theorems; [RlcAmWindow], [RlcAmRecv], [RlcAmFrame], [RlcAmReceiver]: the
      receiving side against the numbered SDUs of a sender.
    - [RlcBearer]: the function pointers of [nr_rlc_entity_t] as the class [RlcOps], an entity
      of any mode; [RlcApi] (Module [RlcApi]): [nr_rlc_ue_manager.c], [nr_rlc_oai_api.c] and
      the RLC [asn1_utils.c]; [RlcApiProps], [RlcApiUm]: theorems.
    - [Snow3gTables], [Snow3g]: [snow3g.c]; [Snow3gSpec]: the generator as 3GPP specifies it;
      [Snow3gStream], [Snow3gMac]: the code implements it.
    - [Security]: [secu_defs.c], [nas_stream_e*.c], [aes_128_*.c], [nr_pdcp_security_nea*.c],
      [nr_pdcp_integrity_nia*.c].
    - [Pdcp]: [nr_pdcp_entity.c], [nr_pdcp_sdu.c]; [PdcpRx], [PdcpLink], [PdcpProps]: theorems.
    - [Sdap]: [nr_sdap_entity.c], [nr_sdap.c]; [SdapProps]: theorems.
    - [WorkQueue]: the rings of [nr_pdcp_oai_api.c].
    - [F1Ids]: [f1ap_ids.c].
    - [PdcpApi]: [nr_pdcp_ue_manager.c], the entry points of [nr_pdcp_oai_api.c], the PDCP
      [asn1_utils.c], [nr_pdcp_timer_thread.c]; [PdcpApiProps]: theorems.
    - [Crc] (Module [Crc]): [crc_byte.c]; [CrcProps]: theorems.
    - [Tbs] (Module [Tbs]): [nr_compute_tbs_common.c], [get_BG]; [Segmentation] (Module
      [Segmentation]): [nr_segmentation.c]; [SegmentationProps]: theorems of both.
    - [RateMatch] (Module [RateMatch]): [nr_rate_matching.c]; [RateMatchProps]: theorems.
    - [Dlsch] (Module [Dlsch]): [nr_dlsch_coding.c] at the gNB, [nr_dlsch_decoding.c] at the
      UE, [nr_tbs_tools.c], [task_ans.c]; [DlschTx], [DlschRx]: what is sent and what the
      decoder is given; [DlschLink], [DlschSound]: the decoder on the sent block and on any
      soft values; [DlschToy]: a coder that meets the laws of the LDPC interface;
      [DlschProps]: the end-to-end theorem.
    - [LdpcTables]: [Gen_shift_value.h] and the base graphs [BG1_I0] to [BG2_I7]; [Ldpc]
      (Module [Ldpc]): [ldpc_encoder_optim8segmulti.c] with [ldpc_generate_coefficient.c],
      [ldpc_encode_parity_check.c] and the kernels [ldpc_encoder.c] prints; [LdpcSpec]: the
      code words; [LdpcEnc], [LdpcWord]: the two parity computations, eight segments at a
      time; [LdpcLink]: the encoder behind the shared channel; [LdpcProps]: theorems.
    - [Mac] (Module [Mac]): the control elements and the filling of a block in
      [gNB_scheduler_dlsch.c], the UE's parser in [nr_ue_procedures.c] with [nr_ra_succeeded]
      and [get_mac_len]; [MacPdu]: a block as a sequence of subPDUs; [MacAny]: the parser on
      any octets; [MacBlock]: what the gNB writes; [MacRlc]: RLC as the [RlcMac] that MAC
      calls; [MacProps]: theorems; [MacUm]: a UM bearer over transport blocks; [MacAir]: a
      block from MAC to MAC over the shared channel.
    - [Stack]: two nodes with all their layers, the threads of the queues, and either plain
      grants or the transport blocks of [Mac]; [StackProps]: delivery from SDAP to SDAP.

    ** What the theorems show

    - End to end: through all layers of two nodes, from SDAP to SDAP over RLC in
      unacknowledged mode and MAC transport blocks, SDUs come out in order, once, byte for
      byte; two UM entities over an ordered link deliver exactly the accepted SDUs and
      drain; two PDCP entities over a network that loses, repeats and reorders deliver an
      ordered sub-sequence without duplicates, and everything when everything arrives; an
      SDU given to SDAP on one side comes out of SDAP on the other.
    - AM reception: PDUs of a window around RX_Next in any order, with losses and repetitions,
      give each SDU at most once, and once its bytes have come; a gap is always timed or
      below the status limit.
    - Invariants: the table of UEs of RLC and the isolation of UEs; reception state of PDCP; buffer accounting of the UM sender; the request
      queues under any interleaving.
    - Refinement and equivalence: TM as a bounded queue, the SDAP list as a finite map, the
      time-statistics ring as a window, the SNOW 3G ring and tables as the specified
      register and fields, the STATUS size computation as the size of the STATUS PDU.
    - Round trips of the bit codec, AM data PDUs, PDCP PDUs, SDAP PDUs and ciphering.
    - Channel coding against TS 38.212: the CRC tables as polynomial division, the detection
      of bursts, the segmentation parameters and their agreement with the transport block
      sizes of MAC, segmentation without loss, rate matching as the standard's bit
      selection, soft combining as its adjoint, the interleaver's inverse.
    - The downlink shared channel: a transport block encoded at the gNB and received without
      noise is what the UE decodes; on any soft values the UE returns, and what it accepts
      has passed the CRC; a retransmission on too few resources hangs it.
    - MAC: the UE takes from a transport block exactly the PDUs that the gNB's RLC gave, also
      when the block goes through the shared channel; on any octets the parser ends; a block
      with five octets left loses an SDU of a UM bearer, and the CSI-IM element, on which gNB
      and UE disagree, loses the block.
    - The LDPC encoder: for all base graphs and lifting sizes its words satisfy the parity
      checks; the vector kernels compute what the generator matrix says; encoding the blocks
      of a segmentation gives the code of the shared channel's theorems.
    - Behaviour on faulty or hostile inputs, where the code leaves its buffers, loses data,
      stops the process or becomes inconsistent.

    ** Modelling decisions

    - Integers are [Z].  Fields and counters of type [uint8_t], [uint32_t], [uint64_t] wrap
      with [u8], [u32], [u64]; an [int] is the mathematical integer, and the conditions of
      the theorems keep it in range.
    - A function that can fail returns [res]: [Exit] for assertions, [Null], [Oob], [Undef]
      for undefined behaviour, [Fuel] for a loop that does not end.  [malloc] does not fail
      and logging is left out.
    - Singly linked lists are lists; where the code keeps a tail pointer the model keeps the
      address it points to.  RLC SDUs are shared by their segments, so they live in a heap
      with reference counts.
    - Callbacks are recorded in the order they are called ([calls] of an RLC entity,
      [delivered] of a PDCP entity, [out], [p_out] and [r_out] of SDAP, PDCP and RLC).  Clock
      values are arguments.
    - A [generate] function takes the caller's buffer and returns it with the number of bytes
      written.  Local arrays that are not initialised hold [None] ([Snow3g]).
    - The AES functions of OpenSSL are the class [Openssl], with the laws used of them in
      [OpensslLaws]; SDAP is generic over the class [PdcpService], which the PDCP API
      instantiates.  PDCP relies on a cipher and an integrity algorithm through the classes
      [StreamCipher] and [StreamMac].
    - The LDPC library, loaded at run time behind [ldpc_interface], is the class [Ldpc]; what
      the shared channel relies on of the coder is in [LdpcCode] and [LdpcDecoder].  The jobs
      of the thread pool work on disjoint buffers and run one after the other.
    - The LDPC generator matrices of the smaller lifting sizes are those of the largest size
      of their set, reduced, as in the source; the generated kernels are what their
      generator prints; an uninitialised local array is an argument ([stack]).  The checks
      are the base graphs that the decoder [nrLDPC_decoder_LYC] holds.
    - MAC calls RLC through the class [RlcMac], with the bound it relies on in [RlcMacLaws];
      the scheduler's decisions (control elements, size, place) are arguments, and a bit that
      the gNB sends uninitialised is one as well ([R1]).  A bit field keeps the low bits of
      what is assigned to it ([pack]).
    - An API entry point holds the manager's lock throughout and is one step.  The producers'
      and the consumer's critical sections of the rings are separate steps, and the consumer
      reads its item between them.
    - ASN.1 structures are records of the fields the code reads; the hash tables of
      [f1ap_ids.c] are finite maps; the machine is little-endian.

    ** Fuel

    List loops recurse on the list.  Skipping delivered SNs in AM reception takes
    [sn_modulus] steps at most (a full turn means the C loop does not end); the NACK loops of
    a STATUS PDU take as many steps as the buffer has bits, each NACK consuming some.  The
    repetition loops of rate matching and the deinterleaver get one step per bit, as each
    round handles at least one.  A turn of the MAC loops consumes at least an octet of the
    block, and their fuel is its size.  [join_task_ans] is given a number of rounds: one is enough
    when the jobs have completed, none is when one has not.

    ** Not modelled

    The MAC scheduler besides the filling of a block, MAC in the uplink, the physical layer besides the files named above, RRC, NAS, the
    application protocols (F1AP, E1AP, NGAP, X2AP), GTP-U, the LTE stack, radio drivers: they
    are built on generated ASN.1 code, signal processing or I/O.  The LDPC decoders
    are SIMD and GPU code on saturating soft values; the CRC of whole octets on machines with carry-less
    multiplication ([crc.h]) is Intel's.
    Of the modelled parts: thread creation and the tun interfaces, the CU-CP and CU-UP
    handlers, key derivation (HMAC-SHA256 is OpenSSL's), the NAS security containers. *)

From Stdlib Require Export Lia ZArith.
From stdpp Require Export sorting gmap.
From stdpp Require Export prelude.
Export list_basics.list list_relations.list list_monad.list list_misc.list.

#[global] Open Scope Z_scope.

(** ** Faults and the result monad

    A C function that can stop the process or run into undefined behaviour
    returns a [res]. *)

Inductive fault : Set :=
| Exit    (** [exit(1)], [AssertFatal], [DevAssert] *)
| Null    (** a NULL pointer is dereferenced *)
| Oob     (** a read or write outside an object *)
| Undef   (** other undefined behaviour: dangling pointer, bad shift *)
| Fuel.   (** a loop that never ends *)

#[global] Instance fault_eq_dec : EqDecision fault.
Proof. solve_decision. Defined.

Inductive res (A : Type) : Type :=
| Ok (a : A)
| Err (f : fault).
Arguments Ok {A} a.
Arguments Err {A} f.

#[global] Instance res_ret : MRet res := fun A a => Ok a.
#[global] Instance res_bind : MBind res := fun A B k m =>
  match m with Ok a => k a | Err f => Err f end.

Definition is_ok {A} (m : res A) : Prop := exists a, m = Ok a.

(** Reading a pointer that may be NULL. *)
Definition deref {A} (o : option A) : res A :=
  match o with Some a => Ok a | None => Err Null end.

(** ** Record update

    [r <| f := v |>] is the C assignment [r->f = v];
    [r <| f ::= g |>] applies [g] to the field.  A record type declares its
    eta-expansion once as an instance of [Eta]; setters are then derived. *)

Class Eta (R : Type) := eta : R -> R.
Class Setter {R T : Type} (proj : R -> T) := setter : (T -> T) -> R -> R.
Arguments setter {R T} proj {_} _ _ /.

Ltac derive_setter :=
  match goal with
  | |- @Setter ?R ?T ?proj =>
      let e := constr:(ltac:(typeclasses eauto) : Eta R) in
      let e := eval red in e in
      let h := eval pattern proj in e in
      match h with
      | ?g _ => exact (fun (f : T -> T) (r : R) => g (fun r' => f (proj r')) r)
      end
  end.

#[export] Hint Extern 0 (@Setter _ _ _) => derive_setter : typeclass_instances.

Declare Scope upd_scope.
Notation "r <| f ::= g |>" := (setter f g r)
  (at level 1, left associativity, f at level 0, g at level 99) : upd_scope.
Notation "r <| f := v |>" := (setter f (fun _ => v) r)
  (at level 1, left associativity, f at level 0, v at level 99) : upd_scope.
#[global] Open Scope upd_scope.

#[global] Arguments Z.add : simpl never.
#[global] Arguments Z.sub : simpl never.
#[global] Arguments Z.opp : simpl never.
#[global] Arguments Z.mul : simpl never.
#[global] Arguments Z.pow : simpl never.
#[global] Arguments Z.div : simpl never.
#[global] Arguments Z.modulo : simpl never.
#[global] Arguments Z.succ : simpl never.
#[global] Arguments Z.pred : simpl never.
#[global] Arguments Z.land : simpl never.
#[global] Arguments Z.lor : simpl never.
#[global] Arguments Z.shiftl : simpl never.
#[global] Arguments Z.shiftr : simpl never.
#[global] Arguments Z.ltb : simpl never.
#[global] Arguments Z.leb : simpl never.
#[global] Arguments Z.gtb : simpl never.
#[global] Arguments Z.geb : simpl never.
#[global] Arguments Z.eqb : simpl never.

(** ** Machine integers

    [int] values stay far from their limits in the modelled code and are
    plain [Z]; the unsigned types wrap around. *)

Definition u8 (x : Z) : Z := x mod 2 ^ 8.
Definition u16 (x : Z) : Z := x mod 2 ^ 16.
Definition u32 (x : Z) : Z := x mod 2 ^ 32.
Definition u64 (x : Z) : Z := x mod 2 ^ 64.

(** Conversion to [int]. *)
Definition s32 (x : Z) : Z := (x + 2 ^ 31) mod 2 ^ 32 - 2 ^ 31.

(** Conversion to [int16_t]. *)
Definition s16 (x : Z) : Z := (x + 2 ^ 15) mod 2 ^ 16 - 2 ^ 15.

Definition b2z (b : bool) : Z := if b then 1 else 0.

(** ** Memory: byte buffers with checked accesses *)

Abbreviation bytes := (list Z).

Definition zlen {A} (l : list A) : Z := Z.of_nat (length l).

Definition is_byte (z : Z) : Prop := 0 <= z < 256.

(** [buf[i]] *)
Definition rd {A} (buf : list A) (i : Z) : res A :=
  if i <? 0 then Err Oob
  else match buf !! Z.to_nat i with Some v => Ok v | None => Err Oob end.

(** [buf[i] = v] *)
Definition wr {A} (buf : list A) (i : Z) (v : A) : res (list A) :=
  if (0 <=? i) && (i <? zlen buf) then Ok (<[Z.to_nat i := v]> buf) else Err Oob.

(** A decoding table of [asn1_utils.c]: values outside it stop the process. *)
Definition decode_table (tab : list Z) (v : Z) : res Z :=
  if (v <? 0) || (v >? zlen tab - 1) then Err Exit else rd tab v.

(** the source of [memcpy(_, buf + off, len)] *)
Definition slice {A} (buf : list A) (off len : Z) : res (list A) :=
  if (0 <=? off) && (0 <=? len) && (off + len <=? zlen buf)
  then Ok (take (Z.to_nat len) (drop (Z.to_nat off) buf)) else Err Oob.

(** [memcpy(buf + off, src, length src)] *)
Definition blit {A} (buf : list A) (off : Z) (src : list A) : res (list A) :=
  if (0 <=? off) && (off + zlen src <=? zlen buf)
  then Ok (take (Z.to_nat off) buf ++ src ++ drop (Z.to_nat (off + zlen src)) buf)
  else Err Oob.

(** ** Walking a linked list until a break condition holds and linking the new
    node there: the shape of every ordered insertion of the sources. *)

Fixpoint insert_when {A} (brk : A -> bool) (x : A) (l : list A) : list A :=
  match l with
  | [] => [x]
  | y :: l' => if brk y then x :: l else y :: insert_when brk x l'
  end.

(** ** Counted loops: [for (int i = lo; i < hi; i++)] *)

Fixpoint for_steps {S} (n : nat) (i : Z) (body : Z -> S -> res S) (s : S) : res S :=
  match n with
  | O => mret s
  | Datatypes.S n' => s' ← body i s; for_steps n' (i + 1) body s'
  end.

Definition for_loop {S} (lo hi : Z) (body : Z -> S -> res S) (s : S) : res S :=
  for_steps (Z.to_nat (hi - lo)) lo body s.

(** ** Automation *)

Create HintDb l2.
Create Rewrite HintDb l2.

Lemma bind_ok {A B} (m : res A) (k : A -> res B) b :
  m ≫= k = Ok b <-> exists a, m = Ok a /\ k a = Ok b.
Proof.
  destruct m; cbn; (split; [intros E | intros (? & E1 & E2)]); try discriminate.
  - eauto.
  - congruence.
Qed.

(** One step as an equation, where the conversion [mon] relies on is too expensive. *)
Lemma bind_Ok {A B} (a : A) (k : A -> res B) : Ok a ≫= k = k a.
Proof. reflexivity. Qed.

Lemma Ok_inj {A} (a b : A) : Ok a = Ok b -> a = b.
Proof. congruence. Qed.

Lemma mret_ok {A} (a b : A) : (mret a : res A) = Ok b -> a = b.
Proof. unfold mret, res_ret. congruence. Qed.

(** [inv_res]: take a successful monadic computation apart. *)
Ltac inv_res :=
  repeat match goal with
  | H : _ ≫= _ = Ok _ |- _ => apply bind_ok in H; destruct H as (? & ? & ?)
  | H : mret _ = Ok _ |- _ => apply mret_ok in H
  | H : Ok _ = Ok _ |- _ => injection H as H
  | H : Err _ = Ok _ |- _ => discriminate H
  | H : (_, _) = (_, _) |- _ => injection H as ? ?
  | p : _ * _ |- _ => destruct p
  end; subst.

(** [mon]: one monadic step in the goal. *)
Ltac mon := cbn [mret res_ret mbind res_bind].

(** [case_if]: split on every boolean test of the goal or of a hypothesis. *)
Ltac case_if :=
  match goal with
  | |- context [if ?b then _ else _] => let E := fresh "E" in destruct b eqn:E
  | H : context [if ?b then _ else _] |- _ => let E := fresh "E" in destruct b eqn:E
  end.

(** [case_if_in H]: split on the test at the head of an equation. *)
Ltac case_if_in H :=
  match type of H with
  | (if ?b then _ else _) = _ => let E := fresh "E" in destruct b eqn:E
  end.

(** [bool_prop]: boolean tests become propositions [lia] understands. *)
Ltac bool_prop :=
  repeat match goal with
  | H : _ && _ = true |- _ => apply andb_true_iff in H; destruct H
  | H : _ || _ = false |- _ => apply orb_false_iff in H; destruct H
  | H : _ || _ = true |- _ => apply orb_true_iff in H
  | H : _ && _ = false |- _ => apply andb_false_iff in H
  | H : negb _ = true |- _ => apply negb_true_iff in H
  | H : negb _ = false |- _ => apply negb_false_iff in H
  | H : (_ <? _) = true |- _ => apply Z.ltb_lt in H
  | H : (_ <? _) = false |- _ => apply Z.ltb_ge in H
  | H : (_ <=? _) = true |- _ => apply Z.leb_le in H
  | H : (_ <=? _) = false |- _ => apply Z.leb_gt in H
  | H : (_ >? _) = true |- _ => apply Z.gtb_gt in H
  | H : (_ >? _) = false |- _ => rewrite Z.gtb_ltb in H; apply Z.ltb_ge in H
  | H : (_ =? _) = true |- _ => apply Z.eqb_eq in H
  | H : (_ =? _) = false |- _ => apply Z.eqb_neq in H
  end.

(** The rule for counted loops: an invariant indexed by the loop counter. *)
Lemma for_steps_inv {S} (P : Z -> S -> Prop) (body : Z -> S -> res S) n i s :
  P i s ->
  (forall j s, i <= j < i + Z.of_nat n -> P j s -> exists s', body j s = Ok s' /\ P (j + 1) s') ->
  exists s', for_steps n i body s = Ok s' /\ P (i + Z.of_nat n) s'.
Proof.
  revert i s. induction n as [|n IH]; intros i s H0 Hb; cbn [for_steps].
  { exists s. split; [done|]. by replace (i + Z.of_nat 0) with i by lia. }
  destruct (Hb i s) as (s1 & E & H1); [lia|done|]. rewrite E. mon.
  destruct (IH (i + 1) s1 H1) as (s2 & E2 & H2).
  { intros j t Hj. apply Hb. lia. }
  exists s2. split; [done|]. by replace (i + Z.of_nat (Datatypes.S n)) with (i + 1 + Z.of_nat n) by lia.
Qed.

Lemma for_loop_inv {S} (P : Z -> S -> Prop) lo hi (body : Z -> S -> res S) s :
  lo <= hi -> P lo s ->
  (forall j s, lo <= j < hi -> P j s -> exists s', body j s = Ok s' /\ P (j + 1) s') ->
  exists s', for_loop lo hi body s = Ok s' /\ P hi s'.
Proof.
  intros Hle H0 Hb. unfold for_loop.
  destruct (for_steps_inv P body (Z.to_nat (hi - lo)) lo s H0) as (s' & E & H).
  { intros j t Hj. apply Hb. lia. }
  exists s'. split; [done|]. by replace hi with (lo + Z.of_nat (Z.to_nat (hi - lo))) by lia.
Qed.

(** ** Lists *)

Section Lists.
Context {A : Type}.
Implicit Types (l : list A) (x : A).

Lemma zlen_nil : zlen (@nil A) = 0.
Proof. reflexivity. Qed.

Lemma zlen_cons x l : zlen (x :: l) = 1 + zlen l.
Proof. unfold zlen. cbn [length]. lia. Qed.

Lemma zlen_app l1 l2 : zlen (l1 ++ l2) = zlen l1 + zlen l2.
Proof. unfold zlen. rewrite length_app. lia. Qed.

Lemma zlen_nonneg l : 0 <= zlen l.
Proof. unfold zlen. lia. Qed.

Lemma insert_when_split brk x l :
  exists l1 l2, l = l1 ++ l2 /\ insert_when brk x l = l1 ++ x :: l2 /\
    Forall (fun y => brk y = false) l1 /\
    (forall y, head l2 = Some y -> brk y = true).
Proof.
  induction l as [|y l (l1 & l2 & -> & E & F & G)]; cbn.
  - exists [], []. naive_solver.
  - destruct (brk y) eqn:B.
    + exists [], (y :: l1 ++ l2). naive_solver.
    + exists (y :: l1), l2. rewrite E. naive_solver.
Qed.

Lemma insert_when_perm brk x l : insert_when brk x l ≡ₚ x :: l.
Proof.
  destruct (insert_when_split brk x l) as (l1 & l2 & -> & -> & _).
  by rewrite Permutation_middle.
Qed.

Lemma insert_when_end brk x l : Forall (fun y => brk y = false) l ->
  insert_when brk x l = l ++ [x].
Proof. induction 1 as [|y l Hy _ IH]; cbn; [done|]. by rewrite Hy, IH. Qed.

(** Insertion keeps a list sorted when the break test is the strict part of
    the (total) order the list is sorted by. *)
Lemma insert_when_sorted (R : relation A) (brk : A -> bool) x l :
  Transitive R ->
  (forall y, y ∈ l -> brk y = true -> R x y) ->
  (forall y, y ∈ l -> brk y = false -> R y x) ->
  StronglySorted R l -> StronglySorted R (insert_when brk x l).
Proof.
  intros Ht H1 H2 Hs. induction Hs as [|y l Hs IH Hf]; cbn.
  { repeat constructor. }
  destruct (brk y) eqn:B.
  - constructor; [by constructor|]. constructor; [apply H1; set_solver|].
    apply (Forall_impl _ _ _ Hf). intros z Hz.
    transitivity y; [apply H1; set_solver | done].
  - constructor.
    + apply IH; intros; [apply H1 | apply H2]; set_solver.
    + rewrite Forall_forall in Hf |- *. intros z Hz.
      rewrite insert_when_perm in Hz. apply elem_of_cons in Hz as [->|Hz].
      * apply H2; set_solver.
      * by apply Hf.
Qed.

Lemma filter_all (P : A -> Prop) `{!forall x, Decision (P x)} l : Forall P l -> filter P l = l.
Proof. induction 1 as [|x l Hx _ IH]; [done|]. by rewrite filter_cons_True, IH. Qed.

(** A sub-sequence as long as the list is the list. *)
Lemma sublist_full l1 l2 : l1 `sublist_of` l2 -> (length l2 <= length l1)%nat -> l1 = l2.
Proof.
  induction 1 as [|x l1 l2 _ IH|x l1 l2 H _]; cbn; intros L; [done|f_equal; apply IH; lia|].
  apply sublist_length in H. lia.
Qed.
End Lists.

#[export] Hint Rewrite @zlen_nil @zlen_cons @zlen_app : l2.

(** ** Checked memory accesses *)

Section Memory.
Context {A : Type}.
Implicit Types (b src : list A).

Lemma rd_ok b i : 0 <= i < zlen b -> exists v, rd b i = Ok v /\ b !! Z.to_nat i = Some v.
Proof.
  intros H. unfold rd, zlen in *. rewrite (proj2 (Z.ltb_ge i 0)) by lia.
  destruct (lookup_lt_is_Some_2 b (Z.to_nat i)) as [v E]; [lia|].
  rewrite E. eauto.
Qed.

Lemma rd_Some b i v : 0 <= i -> b !! Z.to_nat i = Some v -> rd b i = Ok v.
Proof. intros H E. unfold rd. rewrite (proj2 (Z.ltb_ge i 0)) by lia. by rewrite E. Qed.

Lemma wr_ok b i v : 0 <= i < zlen b -> wr b i v = Ok (<[Z.to_nat i := v]> b).
Proof.
  intros H. unfold wr. rewrite (proj2 (Z.leb_le 0 i)), (proj2 (Z.ltb_lt i _)) by lia.
  reflexivity.
Qed.

Lemma slice_ok b off len :
  0 <= off -> 0 <= len -> off + len <= zlen b ->
  slice b off len = Ok (take (Z.to_nat len) (drop (Z.to_nat off) b)).
Proof.
  intros. unfold slice.
  rewrite (proj2 (Z.leb_le 0 off)), (proj2 (Z.leb_le 0 len)),
    (proj2 (Z.leb_le (off + len) _)) by lia.
  reflexivity.
Qed.

Lemma slice_inv b off len s :
  slice b off len = Ok s ->
  0 <= off /\ 0 <= len /\ off + len <= zlen b /\
  s = take (Z.to_nat len) (drop (Z.to_nat off) b).
Proof. unfold slice. case_if; intros; inv_res; bool_prop; lia || done. Qed.

Lemma slice_zlen b off len s : slice b off len = Ok s -> zlen s = len.
Proof.
  intros H. apply slice_inv in H as (? & ? & ? & ->).
  unfold zlen in *. rewrite length_take, length_drop. lia.
Qed.

Lemma slice_app_r b src : slice (b ++ src) (zlen b) (zlen src) = Ok src.
Proof.
  pose proof (zlen_nonneg b). pose proof (zlen_nonneg src).
  rewrite slice_ok by (rewrite ?zlen_app; lia). unfold zlen.
  by rewrite !Nat2Z.id, drop_app_length, firstn_all.
Qed.

Lemma slice_all b : slice b 0 (zlen b) = Ok b.
Proof. apply (slice_app_r [] b). Qed.

Lemma blit_ok b off src :
  0 <= off -> off + zlen src <= zlen b ->
  blit b off src =
    Ok (take (Z.to_nat off) b ++ src ++ drop (Z.to_nat (off + zlen src)) b).
Proof.
  intros. unfold blit.
  rewrite (proj2 (Z.leb_le 0 off)), (proj2 (Z.leb_le _ (zlen b))) by lia.
  reflexivity.
Qed.

Lemma blit_zlen b off src b' : blit b off src = Ok b' -> zlen b' = zlen b.
Proof.
  unfold blit. case_if; intros; inv_res; bool_prop.
  unfold zlen in *. rewrite !length_app, length_take, length_drop. lia.
Qed.

(** Reading and writing the middle part of a buffer. *)
Lemma slice_mid b1 b2 b3 : slice (b1 ++ b2 ++ b3) (zlen b1) (zlen b2) = Ok b2.
Proof.
  pose proof (zlen_nonneg b1). pose proof (zlen_nonneg b2). pose proof (zlen_nonneg b3).
  rewrite slice_ok by (rewrite ?zlen_app; lia). unfold zlen.
  by rewrite !Nat2Z.id, drop_app_length, take_app_length.
Qed.

Lemma blit_mid b1 b2 b3 src : zlen src = zlen b2 -> blit (b1 ++ b2 ++ b3) (zlen b1) src = Ok (b1 ++ src ++ b3).
Proof.
  intros E. pose proof (zlen_nonneg b1). pose proof (zlen_nonneg b2). pose proof (zlen_nonneg b3).
  rewrite blit_ok by (rewrite ?zlen_app; lia). rewrite E. unfold zlen. rewrite Nat2Z.id.
  rewrite take_app_length. do 3 f_equal. rewrite <- Nat2Z.inj_add, Nat2Z.id, <- length_app, app_assoc.
  apply drop_app_length.
Qed.

Lemma split_at b n : 0 <= n <= zlen b -> exists b1 b2, b = b1 ++ b2 /\ zlen b1 = n.
Proof.
  intros H. exists (take (Z.to_nat n) b), (drop (Z.to_nat n) b). unfold zlen in *.
  rewrite take_drop, length_take. split; [done|lia].
Qed.
End Memory.

(** ** Words: bounds from bits *)

Lemma bits_bound n x : 0 <= n -> (forall m, n <= m -> Z.testbit x m = false) -> 0 <= x < 2 ^ n.
Proof.
  intros Hn H. assert (E : x = x mod 2 ^ n).
  { rewrite <- Z.land_ones by done. apply Z.bits_inj'. intros m Hm. rewrite Z.land_spec.
    destruct (decide (m < n)); [by rewrite Z.ones_spec_low, andb_true_r by lia | by rewrite H by lia]. }
  rewrite E. apply Z.mod_pos_bound. by apply Z.pow_pos_nonneg.
Qed.

Lemma high_bits n x m : 0 <= x < 2 ^ n -> 0 <= n <= m -> Z.testbit x m = false.
Proof. intros Hx Hm. rewrite <- (Z.mod_small x (2 ^ n)) by done. by apply Z.mod_pow2_bits_high. Qed.

Lemma lxor_bound n a b : 0 <= n -> 0 <= a < 2 ^ n -> 0 <= b < 2 ^ n -> 0 <= Z.lxor a b < 2 ^ n.
Proof.
  intros Hn Ha Hb. apply bits_bound; [done|]. intros m Hm.
  by rewrite Z.lxor_spec, (high_bits n a), (high_bits n b) by lia.
Qed.

Lemma lor_bound n a b : 0 <= n -> 0 <= a < 2 ^ n -> 0 <= b < 2 ^ n -> 0 <= Z.lor a b < 2 ^ n.
Proof.
  intros Hn Ha Hb. apply bits_bound; [done|]. intros m Hm.
  by rewrite Z.lor_spec, (high_bits n a), (high_bits n b) by lia.
Qed.

Lemma s32_small x : 0 <= x < 2 ^ 31 -> s32 x = x.
Proof. intros H. unfold s32. rewrite Z.mod_small; lia. Qed.
