(* ===== verification/RlcPdu.v ===== *)
(** * RLC PDUs: reception list, bit decoder and bit encoder

    [nr_rlc_pdu.c] and [nr_rlc_pdu.h]: the received-PDU record and its ordered
    list, the MSB-first bit reader with its sticky error flag and the bit
    writer that shifts bits into the caller's buffer.  The theorems give both
    a denotation as a list of bits and derive the round trip. *)

From S2P Require Import Prelude.

(** ** Received PDUs *)

Record nr_rlc_pdu_t := mk_pdu {
  pdu_sn : Z;
  pdu_data : option bytes;     (** [None] is the NULL of a delivered SDU *)
  pdu_size : Z;
  pdu_so : Z;
  pdu_is_first : bool;
  pdu_is_last : bool }.

#[export] Instance eta_pdu : Eta nr_rlc_pdu_t := fun p =>
  mk_pdu (pdu_sn p) (pdu_data p) (pdu_size p) (pdu_so p) (pdu_is_first p) (pdu_is_last p).

#[export] Instance pdu_eq_dec : EqDecision nr_rlc_pdu_t.
Proof. solve_decision. Defined.

Definition nr_rlc_new_pdu (sn so : Z) (is_first is_last : bool) (data : bytes) (size : Z)
  : res nr_rlc_pdu_t :=
  d ← slice data 0 size;
  mret (mk_pdu sn (Some d) size so is_first is_last).

(** [sn_compare] is the callback [sn_compare(sn_compare_data, ., .)]. *)
Definition nr_rlc_pdu_list_add (sn_compare : Z -> Z -> Z)
    (l : list nr_rlc_pdu_t) (pdu : nr_rlc_pdu_t) : list nr_rlc_pdu_t :=
  insert_when
    (fun cur => (sn_compare (pdu_sn cur) (pdu_sn pdu) >? 0)
             || ((pdu_sn cur =? pdu_sn pdu) && (pdu_so cur >? pdu_so pdu)))
    pdu l.

(** ** Decoder *)

Record nr_rlc_pdu_decoder_t := mk_decoder {
  d_error : bool;
  d_byte : Z;
  d_bit : Z;
  d_buffer : bytes;
  d_size : Z }.

#[export] Instance eta_decoder : Eta nr_rlc_pdu_decoder_t := fun d =>
  mk_decoder (d_error d) (d_byte d) (d_bit d) (d_buffer d) (d_size d).

Definition nr_rlc_pdu_decoder_init (buffer : bytes) (size : Z) : nr_rlc_pdu_decoder_t :=
  mk_decoder false 0 0 buffer size.

Definition nr_rlc_pdu_decoder_in_error (d : nr_rlc_pdu_decoder_t) : bool := d_error d.

Definition get_bit (d : nr_rlc_pdu_decoder_t) : res (Z * nr_rlc_pdu_decoder_t) :=
  if d_byte d >=? d_size d then mret (0, d <| d_error := true |>)
  else
    v ← rd (d_buffer d) (d_byte d);
    let ret := Z.land (Z.shiftr v (7 - d_bit d)) 1 in
    let d := d <| d_bit ::= Z.succ |> in
    mret (ret, if d_bit d =? 8 then d <| d_bit := 0 |> <| d_byte ::= Z.succ |> else d).

Fixpoint get_bits_loop (n : nat) (ret : Z) (d : nr_rlc_pdu_decoder_t)
  : res (Z * nr_rlc_pdu_decoder_t) :=
  match n with
  | O => mret (ret, d)
  | S n =>
      '(b, d) ← get_bit d;
      let ret := Z.lor (Z.shiftl ret 1) b in
      if d_error d then mret (-1, d) else get_bits_loop n ret d
  end.

Definition nr_rlc_pdu_decoder_get_bits (d : nr_rlc_pdu_decoder_t) (count : Z)
  : res (Z * nr_rlc_pdu_decoder_t) :=
  if count >? 31 then Err Exit else get_bits_loop (Z.to_nat count) 0 d.

(** The [R(decoder)] macro: read [n] bits, jump to [err] on the error flag. *)
Notation "'READ' v , d '<-' d0 '@' n 'ERR' err ; k" :=
  (match nr_rlc_pdu_decoder_get_bits d0 n with
   | Err f => Err f
   | Ok (v, d) => if nr_rlc_pdu_decoder_in_error d then err else k
   end) (at level 199, v name, d name, d0 at level 9, n at level 9, err at level 9,
         k at level 200, right associativity).

(** ** Encoder *)

Record nr_rlc_pdu_encoder_t := mk_encoder {
  e_byte : Z;
  e_bit : Z;
  e_buffer : bytes;
  e_size : Z }.

#[export] Instance eta_encoder : Eta nr_rlc_pdu_encoder_t := fun e =>
  mk_encoder (e_byte e) (e_bit e) (e_buffer e) (e_size e).

Definition nr_rlc_pdu_encoder_init (buffer : bytes) (size : Z) : nr_rlc_pdu_encoder_t :=
  mk_encoder 0 0 buffer size.

(** [buffer] is [unsigned char *]: the shift drops the top bit. *)
Definition put_bit (e : nr_rlc_pdu_encoder_t) (bit : bool) : res nr_rlc_pdu_encoder_t :=
  if e_byte e =? e_size e then Err Exit
  else
    v ← rd (e_buffer e) (e_byte e);
    let v := u8 (Z.shiftl v 1) in
    let v := if bit then Z.lor v 1 else v in
    b ← wr (e_buffer e) (e_byte e) v;
    let e := e <| e_buffer := b |> <| e_bit ::= Z.succ |> in
    mret (if e_bit e =? 8 then e <| e_bit := 0 |> <| e_byte ::= Z.succ |> else e).

Fixpoint put_bits_loop (n : nat) (value x : Z) (e : nr_rlc_pdu_encoder_t)
  : res nr_rlc_pdu_encoder_t :=
  match n with
  | O => mret e
  | S n =>
      e ← put_bit e (negb (Z.land value x =? 0));
      put_bits_loop n value (Z.shiftr x 1) e
  end.

(** A [count] below 1 would make [1 << (count - 1)] undefined. *)
Definition nr_rlc_pdu_encoder_put_bits (e : nr_rlc_pdu_encoder_t) (value count : Z)
  : res nr_rlc_pdu_encoder_t :=
  if count >? 31 then Err Exit
  else if count <? 1 then Err Undef
  else put_bits_loop (Z.to_nat count) value (Z.shiftl 1 (count - 1)) e.

(** ** Bit lists: the denotation of both machines *)

(** The [n] low bits of [v], most significant first. *)
Fixpoint zbits (n : nat) (v : Z) : list bool :=
  match n with
  | O => []
  | S n => Z.testbit v (Z.of_nat n) :: zbits n v
  end.

(** The bits of a byte sequence, most significant first. *)
Definition bits (bs : bytes) : list bool := concat (zbits 8 <$> bs).

Definition of_bits (l : list bool) : Z := fold_left (fun acc b => 2 * acc + b2z b) l 0.

Lemma length_zbits n v : length (zbits n v) = n.
Proof. induction n; cbn; congruence. Qed.

Lemma length_bits bs : length (bits bs) = (8 * length bs)%nat.
Proof.
  induction bs as [|v bs IH]; [done|]. unfold bits in *. cbn [fmap list_fmap concat].
  rewrite length_app, length_zbits, IH. cbn [length]. lia.
Qed.

Lemma bits_app b1 b2 : bits (b1 ++ b2) = bits b1 ++ bits b2.
Proof. unfold bits. by rewrite fmap_app, concat_app. Qed.

Lemma bits_cons v bs : bits (v :: bs) = zbits 8 v ++ bits bs.
Proof. done. Qed.

Lemma zbits_ext n v w :
  (forall i, (i < n)%nat -> Z.testbit v (Z.of_nat i) = Z.testbit w (Z.of_nat i)) ->
  zbits n v = zbits n w.
Proof. induction n; intros H; cbn; [done|]. rewrite H by lia. rewrite IHn; auto. Qed.

Lemma fold_bits l acc :
  fold_left (fun acc b => 2 * acc + b2z b) l acc = acc * 2 ^ zlen l + of_bits l.
Proof.
  unfold of_bits. revert acc. induction l as [|b l IH]; intros acc; cbn [fold_left].
  - rewrite zlen_nil, Z.pow_0_r. lia.
  - rewrite IH, (IH (2 * 0 + b2z b)), zlen_cons, Z.pow_add_r by (pose proof (zlen_nonneg l); lia).
    change (2 ^ 1) with 2. ring.
Qed.

Lemma of_bits_cons b l : of_bits (b :: l) = b2z b * 2 ^ zlen l + of_bits l.
Proof. unfold of_bits at 1. cbn [fold_left]. rewrite fold_bits. lia. Qed.

Lemma of_bits_app l1 l2 : of_bits (l1 ++ l2) = of_bits l1 * 2 ^ zlen l2 + of_bits l2.
Proof. unfold of_bits at 1. rewrite fold_left_app. apply fold_bits. Qed.

Lemma of_bits_bound l : 0 <= of_bits l < 2 ^ zlen l.
Proof.
  induction l as [|b l IH]; [done|].
  rewrite of_bits_cons, zlen_cons, Z.pow_add_r by (pose proof (zlen_nonneg l); lia).
  destruct b; cbn [b2z]; lia.
Qed.

Lemma of_zbits n v : of_bits (zbits n v) = v mod 2 ^ Z.of_nat n.
Proof.
  induction n; cbn [zbits]; [by rewrite Z.mod_1_r|].
  rewrite of_bits_cons, IHn. unfold zlen. rewrite length_zbits.
  rewrite Nat2Z.inj_succ, Z.pow_succ_r, (Z.mul_comm 2) by lia.
  rewrite Z.rem_mul_r by lia.
  rewrite <- Z.shiftr_div_pow2, <- Z.bit0_mod, Z.shiftr_spec by lia.
  rewrite Z.add_0_l. unfold b2z, Z.b2z. destruct (Z.testbit v (Z.of_nat n)); lia.
Qed.

Lemma zbits_inj n v w : 0 <= v < 2 ^ Z.of_nat n -> 0 <= w < 2 ^ Z.of_nat n ->
  zbits n v = zbits n w -> v = w.
Proof.
  intros Hv Hw E. apply (f_equal of_bits) in E.
  rewrite !of_zbits, !Z.mod_small in E by lia. done.
Qed.

Lemma lookup_zbits n v i : (i < n)%nat ->
  zbits n v !! i = Some (Z.testbit v (Z.of_nat (n - 1 - i))).
Proof.
  revert i. induction n; intros i H; [lia|]. destruct i; cbn [zbits].
  - cbn. do 2 f_equal. lia.
  - cbn. rewrite IHn by lia. do 3 f_equal. lia.
Qed.

Lemma lookup_bits bs i j v : bs !! i = Some v -> (j < 8)%nat ->
  bits bs !! (8 * i + j)%nat = Some (Z.testbit v (Z.of_nat (7 - j))).
Proof.
  revert i. induction bs as [|w bs IH]; intros i E Hj; [done|].
  rewrite bits_cons. destruct i; cbn in E.
  - simplify_eq. rewrite lookup_app_l by (rewrite length_zbits; lia).
    rewrite lookup_zbits by lia. do 3 f_equal; lia.
  - rewrite lookup_app_r by (rewrite length_zbits; lia).
    rewrite length_zbits, <- (IH i) by done. f_equal. lia.
Qed.

(** ** The encoder appends bits *)

Definition e_pos (e : nr_rlc_pdu_encoder_t) : Z := 8 * e_byte e + e_bit e.

Definition e_bits (e : nr_rlc_pdu_encoder_t) : list bool :=
  bits (take (Z.to_nat (e_byte e)) (e_buffer e)) ++
  zbits (Z.to_nat (e_bit e)) (default 0 (e_buffer e !! Z.to_nat (e_byte e))).

Definition e_wf (e : nr_rlc_pdu_encoder_t) : Prop :=
  0 <= e_byte e <= e_size e /\ e_size e <= zlen (e_buffer e) /\ 0 <= e_bit e < 8.

(** [e'] is [e] after the bits [bs] were written. *)
Record appended (e : nr_rlc_pdu_encoder_t) (bs : list bool) (e' : nr_rlc_pdu_encoder_t) : Prop := {
  app_wf : e_wf e';
  app_bits : e_bits e' = e_bits e ++ bs;
  app_pos : e_pos e' = e_pos e + zlen bs;
  app_size : e_size e' = e_size e;
  app_len : zlen (e_buffer e') = zlen (e_buffer e) }.

Lemma appended_trans e b1 e1 b2 e2 :
  appended e b1 e1 -> appended e1 b2 e2 -> appended e (b1 ++ b2) e2.
Proof.
  intros [] []. split; try congruence.
  - rewrite app_bits1, app_bits0. by rewrite app_assoc.
  - rewrite zlen_app. lia.
Qed.

Lemma shift_in_bits (k : nat) v b : (k < 8)%nat ->
  zbits (S k) (if b : bool then Z.lor (u8 (Z.shiftl v 1)) 1 else u8 (Z.shiftl v 1))
  = zbits k v ++ [b].
Proof.
  set (w := if b then _ else _).
  assert (Hw : forall i, 0 <= i < 8 -> Z.testbit w i = if i =? 0 then b else Z.testbit v (i - 1)).
  { intros i Hi. unfold w, u8.
    assert (E : Z.testbit (Z.shiftl v 1 mod 2 ^ 8) i = Z.testbit v (i - 1)).
    { rewrite Z.mod_pow2_bits_low, Z.shiftl_spec by lia. done. }
    destruct (Z.eqb_spec i 0) as [->|Hi0]; destruct b;
      rewrite ?Z.lor_spec, E, ?(Z.bits_above_log2 1 i) by (cbn; lia);
      by rewrite ?orb_true_r, ?orb_false_r. }
  clearbody w. intros Hk. induction k; cbn [zbits app].
  - rewrite Hw by lia. done.
  - rewrite Hw, (proj2 (Z.eqb_neq _ _)) by lia. f_equal; [f_equal; lia|].
    apply IHk. lia.
Qed.

Lemma put_bit_spec e b :
  e_wf e -> e_pos e < 8 * e_size e ->
  exists e', put_bit e b = Ok e' /\ appended e [b] e'.
Proof.
  intros (H1 & H2 & H3) Hp. unfold e_pos in Hp.
  assert (Hlt : e_byte e < e_size e) by lia.
  unfold put_bit. rewrite (proj2 (Z.eqb_neq _ _)) by lia.
  destruct (rd_ok (e_buffer e) (e_byte e)) as (v & -> & Ev); [lia|]. cbn -[zbits Z.lor u8].
  set (w := if b then _ else _).
  rewrite wr_ok by lia. cbn [mbind res_bind].
  eexists. split; [reflexivity|].
  assert (Hl : (Z.to_nat (e_byte e) < length (e_buffer e))%nat) by (unfold zlen in *; lia).
  assert (Hpre : take (Z.to_nat (e_byte e)) (<[Z.to_nat (e_byte e):=w]> (e_buffer e))
               = take (Z.to_nat (e_byte e)) (e_buffer e)) by (by rewrite take_insert_ge by lia).
  assert (Hw : zbits (S (Z.to_nat (e_bit e))) w = zbits (Z.to_nat (e_bit e)) v ++ [b])
    by (apply shift_in_bits; lia).
  destruct (Z.succ (e_bit e) =? 8) eqn:E8; bool_prop; split; cbn -[zbits];
    unfold e_wf, e_pos, e_bits, zlen in *; cbn -[zbits]; rewrite ?length_insert; try lia.
  - replace (Z.to_nat (Z.succ (e_byte e))) with (S (Z.to_nat (e_byte e))) by lia.
    rewrite (take_S_r _ _ w) by (by apply list_lookup_insert_eq).
    assert (H8 : zbits 8 w = zbits (Z.to_nat (e_bit e)) v ++ [b])
      by (rewrite <- Hw; f_equal; lia).
    rewrite Hpre, bits_app, bits_cons, Ev, H8. unfold default, id.
    change (zbits (Z.to_nat 0) _) with (@nil bool). change (bits []) with (@nil bool).
    by rewrite !app_nil_r, app_assoc.
  - rewrite Hpre, Ev, list_lookup_insert_eq by lia. cbn -[zbits].
    replace (Z.to_nat (Z.succ (e_bit e))) with (S (Z.to_nat (e_bit e))) by lia.
    by rewrite Hw, app_assoc.
Qed.

Lemma put_bits_loop_spec n v e :
  e_wf e -> e_pos e + Z.of_nat n <= 8 * e_size e ->
  exists e', put_bits_loop n v (Z.shiftr (2 ^ Z.of_nat n) 1) e = Ok e' /\ appended e (zbits n v) e'.
Proof.
  revert e. induction n as [|n IH]; intros e Hw Hp; cbn [put_bits_loop zbits].
  - eexists. split; [done|]. split; rewrite ?zlen_nil, ?app_nil_r; lia || done.
  - replace (Z.shiftr (2 ^ Z.of_nat (S n)) 1) with (2 ^ Z.of_nat n).
    2: { rewrite Z.shiftr_div_pow2, Nat2Z.inj_succ, Z.pow_succ_r by lia.
         change (2 ^ 1) with 2. rewrite Z.mul_comm, Z.div_mul; lia. }
    replace (negb (Z.land v (2 ^ Z.of_nat n) =? 0)) with (Z.testbit v (Z.of_nat n)).
    2: { destruct (Z.testbit v (Z.of_nat n)) eqn:E; symmetry.
         - rewrite negb_true_iff, Z.eqb_neq. intros H0.
           apply (f_equal (fun x => Z.testbit x (Z.of_nat n))) in H0.
           rewrite Z.land_spec, Z.pow2_bits_true, E, Z.bits_0 in H0 by lia. done.
         - rewrite negb_false_iff, Z.eqb_eq. apply Z.bits_inj'. intros k Hk.
           rewrite Z.land_spec, Z.bits_0, Z.pow2_bits_eqb by lia.
           destruct (Z.eqb_spec (Z.of_nat n) k) as [<-|]; [by rewrite E|by rewrite andb_false_r]. }
    destruct (put_bit_spec e (Z.testbit v (Z.of_nat n))) as (e1 & -> & H1); [done|lia|].
    cbn [mbind res_bind].
    destruct (IH e1) as (e2 & -> & H2).
    { apply H1. }
    { rewrite (app_pos _ _ _ H1), (app_size _ _ _ H1), zlen_cons, zlen_nil. lia. }
    eexists. split; [done|]. change (?b :: ?l) with ([b] ++ l).
    by eapply appended_trans.
Qed.

Lemma put_bits_spec e v count :
  e_wf e -> 1 <= count <= 31 -> e_pos e + count <= 8 * e_size e ->
  exists e', nr_rlc_pdu_encoder_put_bits e v count = Ok e' /\
    appended e (zbits (Z.to_nat count) v) e'.
Proof.
  intros Hw Hc Hp. unfold nr_rlc_pdu_encoder_put_bits.
  rewrite Z.gtb_ltb, !(proj2 (Z.ltb_ge _ _)) by lia.
  destruct (put_bits_loop_spec (Z.to_nat count) v e) as (e' & E & H); [done|lia|].
  exists e'. split; [|done]. rewrite <- E. f_equal.
  rewrite Z2Nat.id, Z.shiftl_1_l, Z.shiftr_div_pow2 by lia.
  replace count with (count - 1 + 1) at 2 by lia.
  rewrite Z.pow_add_r, Z.div_mul by lia. done.
Qed.

Lemma encoder_init_wf buffer size : 0 <= size <= zlen buffer ->
  e_wf (nr_rlc_pdu_encoder_init buffer size).
Proof. unfold e_wf. cbn. lia. Qed.

(** On a byte boundary the written bits are the bits of the bytes written. *)
Lemma e_bits_aligned e : e_wf e -> e_bit e = 0 ->
  bits (take (Z.to_nat (e_byte e)) (e_buffer e)) = e_bits e.
Proof. intros Hw H. unfold e_bits. rewrite H. cbn. by rewrite app_nil_r. Qed.

(** ** The decoder consumes bits *)

Definition d_pos (d : nr_rlc_pdu_decoder_t) : Z := 8 * d_byte d + d_bit d.

Definition d_stream (d : nr_rlc_pdu_decoder_t) : list bool :=
  drop (Z.to_nat (d_pos d)) (bits (take (Z.to_nat (d_size d)) (d_buffer d))).

Definition d_wf (d : nr_rlc_pdu_decoder_t) : Prop :=
  d_error d = false /\ 0 <= d_byte d /\ 0 <= d_bit d < 8 /\
  d_pos d <= 8 * d_size d /\ d_size d <= zlen (d_buffer d).

(** [d'] is [d] after [n] bits were read. *)
Record consumed (d : nr_rlc_pdu_decoder_t) (n : nat) (d' : nr_rlc_pdu_decoder_t) : Prop := {
  con_wf : d_wf d';
  con_stream : d_stream d' = drop n (d_stream d);
  con_pos : d_pos d' = d_pos d + Z.of_nat n;
  con_size : d_size d' = d_size d;
  con_buffer : d_buffer d' = d_buffer d }.

Lemma consumed_trans d n d1 m d2 : consumed d n d1 -> consumed d1 m d2 -> consumed d (n + m) d2.
Proof.
  intros [] []. split; try congruence; [|lia].
  by rewrite con_stream1, con_stream0, drop_drop.
Qed.

Lemma length_d_stream d : d_wf d -> zlen (d_stream d) = 8 * d_size d - d_pos d.
Proof.
  intros (? & ? & ? & ? & ?). unfold zlen, d_stream, d_pos in *.
  rewrite length_drop, length_bits, length_take. lia.
Qed.

Lemma get_bit_spec d b s :
  d_wf d -> d_stream d = b :: s ->
  exists d', get_bit d = Ok (b2z b, d') /\ consumed d 1 d'.
Proof.
  intros Hw Hs. pose proof (length_d_stream d Hw) as Hl.
  rewrite Hs, zlen_cons in Hl. pose proof (zlen_nonneg s).
  destruct Hw as (H0 & H1 & H2 & H3 & H4). unfold d_pos in *.
  unfold get_bit. rewrite Z.geb_leb, (proj2 (Z.leb_gt _ _)) by lia.
  destruct (rd_ok (d_buffer d) (d_byte d)) as (v & -> & Ev); [lia|]. cbn -[Z.land Z.shiftr].
  assert (Hb : Z.testbit v (7 - d_bit d) = b).
  { assert (L : d_stream d !! 0%nat = Some b) by by rewrite Hs.
    unfold d_stream in L. rewrite lookup_drop, Nat.add_0_r in L. unfold d_pos in L.
    replace (Z.to_nat (8 * d_byte d + d_bit d))
      with (8 * Z.to_nat (d_byte d) + Z.to_nat (d_bit d))%nat in L by lia.
    rewrite (lookup_bits _ _ _ v) in L; [|rewrite lookup_take_lt by lia; done|lia].
    simplify_eq. f_equal. lia. }
  assert (Hv : Z.land (Z.shiftr v (7 - d_bit d)) 1 = b2z b).
  { change 1 with (Z.ones 1). rewrite Z.land_ones by lia. change (2 ^ 1) with 2.
    rewrite <- Z.bit0_mod, Z.shiftr_spec, Z.add_0_l, Hb by lia. by destruct b. }
  rewrite Hv. eexists. split; [done|].
  destruct (Z.succ (d_bit d) =? 8) eqn:E8; bool_prop; split; unfold d_wf, d_stream, d_pos;
    cbn -[Z.mul Z.add]; rewrite ?drop_drop; split_and?; try done; try lia; f_equal; lia.
Qed.

Lemma get_bit_end d : d_wf d -> d_stream d = [] ->
  get_bit d = Ok (0, d <| d_error := true |>).
Proof.
  intros Hw Hs. pose proof (length_d_stream d Hw) as Hl. rewrite Hs, zlen_nil in Hl.
  destruct Hw as (H0 & H1 & H2 & H3 & H4). unfold d_pos in *.
  unfold get_bit. rewrite Z.geb_leb, (proj2 (Z.leb_le _ _)) by lia. done.
Qed.

Lemma get_bits_loop_spec n ret d :
  d_wf d -> (n <= length (d_stream d))%nat ->
  exists d', get_bits_loop n ret d = Ok (ret * 2 ^ Z.of_nat n + of_bits (take n (d_stream d)), d')
    /\ consumed d n d'.
Proof.
  revert ret d. induction n as [|n IH]; intros ret d Hw Hl; cbn [get_bits_loop].
  - exists d. split; [rewrite take_0; do 2 f_equal; change (of_bits []) with 0; cbn; lia|]. split; rewrite ?drop_0; done || lia.
  - destruct (d_stream d) as [|b s] eqn:Hs; cbn [length] in Hl; [lia|].
    destruct (get_bit_spec d b s Hw Hs) as (d1 & -> & H1). cbn [mbind res_bind].
    rewrite (proj1 (con_wf _ _ _ H1)).
    assert (Hs1 : d_stream d1 = s) by (rewrite (con_stream _ _ _ H1), Hs; done).
    destruct (IH (Z.lor (Z.shiftl ret 1) (b2z b)) d1) as (d2 & -> & H2);
      [apply H1 | rewrite Hs1; lia|].
    exists d2. split.
    + rewrite Hs1. cbn [firstn]. rewrite of_bits_cons.
      replace (zlen (take n s)) with (Z.of_nat n) by (unfold zlen; rewrite length_take; lia).
      replace (Z.lor (Z.shiftl ret 1) (b2z b)) with (2 * ret + b2z b).
      * rewrite Nat2Z.inj_succ, Z.pow_succ_r by lia. do 2 f_equal. ring.
      * rewrite Z.shiftl_mul_pow2 by lia.
        rewrite <- Z.add_nocarry_lor; [change (2 ^ 1) with 2; lia|].
        apply Z.bits_inj'. intros k Hk. rewrite Z.land_spec, Z.bits_0.
        destruct (Z.eq_dec k 0) as [->|].
        -- rewrite Z.mul_pow2_bits_low by lia. done.
        -- rewrite (Z.bits_above_log2 (b2z b)); [by rewrite andb_false_r|destruct b; cbn; lia..].
    + by apply (consumed_trans d 1 d1 n).
Qed.

Lemma get_bits_loop_end n ret d :
  d_wf d -> (length (d_stream d) < n)%nat ->
  exists d', get_bits_loop n ret d = Ok (-1, d') /\ d_error d' = true.
Proof.
  revert ret d. induction n as [|n IH]; intros ret d Hw Hl; [lia|]. cbn [get_bits_loop].
  destruct (d_stream d) as [|b s] eqn:Hs.
  - rewrite get_bit_end by done. cbn. eauto.
  - destruct (get_bit_spec d b s Hw Hs) as (d1 & -> & H1). cbn [mbind res_bind].
    rewrite (proj1 (con_wf _ _ _ H1)). apply IH; [apply H1|].
    rewrite (con_stream _ _ _ H1), Hs. cbn in Hl |- *. rewrite drop_0. lia.
Qed.

Lemma get_bits_spec d count :
  d_wf d -> 0 <= count <= 31 -> count <= zlen (d_stream d) ->
  exists d', nr_rlc_pdu_decoder_get_bits d count =
      Ok (of_bits (take (Z.to_nat count) (d_stream d)), d') /\ consumed d (Z.to_nat count) d'.
Proof.
  intros Hw Hc Hl. unfold nr_rlc_pdu_decoder_get_bits, zlen in *.
  rewrite Z.gtb_ltb, (proj2 (Z.ltb_ge _ _)) by lia.
  destruct (get_bits_loop_spec (Z.to_nat count) 0 d Hw) as (d' & E & H); [lia|].
  exists d'. rewrite E. by rewrite Z.mul_0_l, Z.add_0_l.
Qed.

Lemma get_bits_end d count :
  d_wf d -> 0 <= count <= 31 -> zlen (d_stream d) < count ->
  exists d', nr_rlc_pdu_decoder_get_bits d count = Ok (-1, d') /\ d_error d' = true.
Proof.
  intros Hw Hc Hl. unfold nr_rlc_pdu_decoder_get_bits, zlen in *.
  rewrite Z.gtb_ltb, (proj2 (Z.ltb_ge _ _)) by lia.
  apply get_bits_loop_end; [done|lia].
Qed.

Lemma decoder_init_wf buffer size : 0 <= size <= zlen buffer ->
  d_wf (nr_rlc_pdu_decoder_init buffer size) /\
  d_stream (nr_rlc_pdu_decoder_init buffer size) = bits (take (Z.to_nat size) buffer).
Proof. intros. unfold d_wf, d_stream, d_pos. cbn. rewrite drop_0. split; [lia|done]. Qed.

(** ** Reading and writing whole headers *)

(** Successive [put_bits] calls for the fields [(value, count)]. *)
Fixpoint put_fields (e : nr_rlc_pdu_encoder_t) (fs : list (Z * Z)) : res nr_rlc_pdu_encoder_t :=
  match fs with
  | [] => mret e
  | (v, c) :: fs => e ← nr_rlc_pdu_encoder_put_bits e v c; put_fields e fs
  end.

(** Successive [get_bits] calls, each followed by the [R] macro; [None] is the
    jump to [err]. *)
Fixpoint get_fields (d : nr_rlc_pdu_decoder_t) (cs : list Z) : res (option (list Z * nr_rlc_pdu_decoder_t)) :=
  match cs with
  | [] => mret (Some ([], d))
  | c :: cs =>
      READ v, d <- d @ c ERR (mret None);
      r ← get_fields d cs;
      mret (match r with Some (vs, d) => Some (v :: vs, d) | None => None end)
  end.

Fixpoint total (cs : list Z) : Z :=
  match cs with [] => 0 | c :: cs => c + total cs end.

Definition field_bits (fs : list (Z * Z)) : list bool :=
  concat ((fun f => zbits (Z.to_nat f.2) f.1) <$> fs).

Lemma zlen_field_bits fs : Forall (fun f => 1 <= f.2 <= 31) fs ->
  zlen (field_bits fs) = total fs.*2.
Proof.
  induction 1 as [|[v c] fs H _ IH]; [done|]. cbn in H.
  change (total ((v, c) :: fs).*2) with (c + total fs.*2).
  change (field_bits ((v, c) :: fs)) with (zbits (Z.to_nat c) v ++ field_bits fs).
  rewrite zlen_app, IH. unfold zlen. rewrite length_zbits. lia.
Qed.

Lemma put_fields_spec fs e :
  e_wf e -> Forall (fun f => 1 <= f.2 <= 31) fs -> e_pos e + total fs.*2 <= 8 * e_size e ->
  exists e', put_fields e fs = Ok e' /\ appended e (field_bits fs) e'.
Proof.
  intros Hw HF. revert e Hw. induction HF as [|[v c] fs Hc HF IH]; intros e Hw Hp.
  - exists e. split; [done|]. change (field_bits []) with (@nil bool).
    split; rewrite ?zlen_nil, ?app_nil_r; lia || done.
  - change (total ((v, c) :: fs).*2) with (c + total fs.*2) in Hp. cbn [put_fields fst snd] in *.
    assert (0 <= total fs.*2) by (rewrite <- zlen_field_bits by done; apply zlen_nonneg).
    destruct (put_bits_spec e v c Hw) as (e1 & -> & H1); [done|lia|]. cbn [mbind res_bind].
    destruct (IH e1) as (e2 & -> & H2); [apply H1| |].
    + rewrite (app_pos _ _ _ H1), (app_size _ _ _ H1). unfold zlen. rewrite length_zbits. lia.
    + eexists. split; [done|]. by eapply appended_trans.
Qed.

Lemma get_fields_spec cs d :
  d_wf d -> Forall (fun c => 0 <= c <= 31) cs ->
  exists r, get_fields d cs = Ok r /\
    (total cs <= zlen (d_stream d) ->
       exists vs d', r = Some (vs, d') /\ consumed d (Z.to_nat (total cs)) d') /\
    (zlen (d_stream d) < total cs -> r = None).
Proof.
  intros Hw HF. revert d Hw. induction HF as [|c cs Hc HF IH]; intros d Hw; cbn [get_fields].
  - eexists. split; [done|]. change (total []) with 0.
    split; [|pose proof (zlen_nonneg (d_stream d)); lia].
    intros _. exists [], d. split; [done|]. split; rewrite ?drop_0; done || lia.
  - change (total (c :: cs)) with (c + total cs).
    assert (0 <= total cs).
    { clear -HF. induction HF; cbn; lia. }
    destruct (decide (c <= zlen (d_stream d))).
    + destruct (get_bits_spec d c Hw Hc) as (d1 & -> & H1); [done|].
      unfold nr_rlc_pdu_decoder_in_error. rewrite (proj1 (con_wf _ _ _ H1)).
      destruct (IH d1 (con_wf _ _ _ H1)) as (r & -> & Hge & Hlt). cbn [mbind res_bind].
      eexists. split; [done|].
      assert (E : zlen (d_stream d1) = zlen (d_stream d) - c).
      { rewrite (con_stream _ _ _ H1). unfold zlen in *. rewrite length_drop. lia. }
      rewrite E in *. split; intros Ht.
      * destruct Hge as (vs & d2 & -> & H2); [lia|]. do 2 eexists. split; [done|].
        rewrite Z2Nat.inj_add by lia. by eapply consumed_trans.
      * rewrite Hlt by lia. done.
    + destruct (get_bits_end d c Hw Hc) as (d1 & -> & H1); [lia|].
      unfold nr_rlc_pdu_decoder_in_error. rewrite H1.
      eexists. split; [done|]. split; [lia|done].
Qed.

(** Decoding the bits of a field list returns the fields, truncated to their
    widths. *)
Lemma get_fields_of_bits fs s d :
  d_wf d -> Forall (fun f => 1 <= f.2 <= 31) fs -> d_stream d = field_bits fs ++ s ->
  exists d', get_fields d fs.*2 = Ok (Some ((fun f => f.1 mod 2 ^ f.2) <$> fs, d')) /\
    consumed d (Z.to_nat (total fs.*2)) d' /\ d_stream d' = s.
Proof.
  intros Hw HF. revert d Hw. induction HF as [|[v c] fs Hc HF IH]; intros d Hw Hs.
  - cbn. exists d. split_and!; [done| |done]. split; rewrite ?drop_0; done || lia.
  - unfold field_bits in Hs. cbn in Hs. rewrite <- app_assoc in Hs. cbn in Hc.
    pose proof (zlen_field_bits fs HF) as Hz. pose proof (zlen_nonneg (field_bits fs)).
    assert (Hl : length (zbits (Z.to_nat c) v) = Z.to_nat c) by apply length_zbits.
    cbn [get_fields fmap list_fmap snd fst].
    destruct (get_bits_spec d c Hw) as (d1 & -> & H1); [lia| |].
    { rewrite Hs. unfold zlen. rewrite length_app, Hl. lia. }
    unfold nr_rlc_pdu_decoder_in_error. rewrite (proj1 (con_wf _ _ _ H1)).
    destruct (IH d1 (con_wf _ _ _ H1)) as (d2 & -> & H2 & H3).
    { rewrite (con_stream _ _ _ H1), Hs, drop_app_length'; done. }
    cbn [mbind res_bind]. exists d2. split_and!; [| |done].
    + rewrite Hs, take_app_length' by done. rewrite of_zbits, Z2Nat.id by lia. done.
    + change (total (c :: ?l)) with (c + total l). rewrite Z2Nat.inj_add by lia.
      by eapply consumed_trans.
Qed.

(** One read of a known field. *)
Lemma get_bits_field d n v s :
  d_wf d -> 1 <= n <= 31 -> d_stream d = zbits (Z.to_nat n) v ++ s ->
  exists d', nr_rlc_pdu_decoder_get_bits d n = Ok (v mod 2 ^ n, d') /\
    nr_rlc_pdu_decoder_in_error d' = false /\ d_wf d' /\ d_stream d' = s /\ d_pos d' = d_pos d + n.
Proof.
  intros Hw Hn Hs. destruct (get_bits_spec d n Hw) as (d1 & E & H1); [lia| |].
  { rewrite Hs, zlen_app. unfold zlen. rewrite length_zbits. lia. }
  rewrite Hs, take_app_length', of_zbits, Z2Nat.id in E by (rewrite ?length_zbits; lia).
  exists d1. destruct H1 as [W S P _ _]. split_and!; [done|apply W|done| |lia].
  by rewrite S, Hs, drop_app_length' by (rewrite length_zbits; lia).
Qed.

(** [read_field]: one [READ] whose bits are the head of the stream. *)
Ltac read_field :=
  match goal with
  | W : d_wf ?d, S : d_stream ?d = zbits ?k ?v ++ ?s |- context [nr_rlc_pdu_decoder_get_bits ?d ?n] =>
      let d' := fresh "d" in let E := fresh "E" in let W' := fresh "W" in let S' := fresh "S" in
      let P' := fresh "P" in
      destruct (get_bits_field d n v s W ltac:(lia) S) as (d' & -> & E & W' & S' & P');
      rewrite E; clear E W S
  end.

Lemma field_bits_cons v c fs : field_bits ((v, c) :: fs) = zbits (Z.to_nat c) v ++ field_bits fs.
Proof. done. Qed.

Lemma d_byte_aligned d n : d_wf d -> d_pos d = 8 * n -> d_byte d = n.
Proof. intros (_ & ? & ? & _) P. unfold d_pos in P. lia. Qed.

(** A header followed by data: what every [serialize] function writes. *)
Lemma encode_spec buffer size fs n src :
  Forall (fun f => 1 <= f.2 <= 31) fs -> total fs.*2 = 8 * n -> n + zlen src <= size <= zlen buffer ->
  exists enc b hdr, put_fields (nr_rlc_pdu_encoder_init buffer size) fs = Ok enc /\
    e_byte enc = n /\ blit (e_buffer enc) n src = Ok b /\
    take (Z.to_nat (n + zlen src)) b = hdr ++ src /\ bits hdr = field_bits fs /\ zlen hdr = n /\
    zlen b = zlen buffer.
Proof.
  intros HF Ht Hn. pose proof (zlen_field_bits fs HF) as Hz.
  pose proof (zlen_nonneg (field_bits fs)). pose proof (zlen_nonneg src).
  destruct (put_fields_spec fs (nr_rlc_pdu_encoder_init buffer size)) as (e & E & A);
    [apply encoder_init_wf; lia|done|unfold e_pos; cbn; lia|].
  assert (Hb : e_byte e = n /\ e_bit e = 0).
  { destruct A as [(? & ? & ?) _ P _ _]. unfold e_pos in P. cbn in P. lia. }
  destruct Hb as [Hb Hb0]. pose proof (app_len _ _ _ A) as L. cbn in L.
  assert (Hl : zlen (take (Z.to_nat n) (e_buffer e)) = n).
  { unfold zlen in *. rewrite length_take. lia. }
  exists e. rewrite blit_ok by lia. eexists. exists (take (Z.to_nat n) (e_buffer e)).
  split_and!; [done|done|reflexivity| | |done|].
  - rewrite app_assoc, take_app_length'; [done|]. rewrite length_app. unfold zlen in *. lia.
  - rewrite <- Hb, e_bits_aligned by (apply A || done). by rewrite (app_bits _ _ _ A).
  - rewrite !zlen_app, Hl. unfold zlen in *. rewrite length_drop. lia.
Qed.

(** Decoding what was encoded: the stream of a buffer that starts with a header. *)
Lemma decoder_header hdr data fs : bits hdr = field_bits fs ->
  let d := nr_rlc_pdu_decoder_init (hdr ++ data) (zlen hdr + zlen data) in
  d_wf d /\ d_stream d = field_bits fs ++ bits data /\ d_pos d = 0.
Proof.
  intros E d. pose proof (zlen_nonneg hdr). pose proof (zlen_nonneg data).
  destruct (decoder_init_wf (hdr ++ data) (zlen hdr + zlen data)) as [W S]; [rewrite zlen_app; lia|].
  split_and!; [done| |done]. unfold d. rewrite S, firstn_all2; [|unfold zlen; rewrite length_app; lia].
  by rewrite bits_app, E.
Qed.



(** Reading never faults and never leaves the buffer: on a PDU of [size]
    bytes any sequence of reads completes, and it fails with the error flag
    exactly when more bits are asked for than the PDU has. *)
Theorem pdu_decoder_bounds buffer cs :
  Forall (fun c => 0 <= c <= 31) cs ->
  exists r, get_fields (nr_rlc_pdu_decoder_init buffer (zlen buffer)) cs = Ok r /\
    (r = None <-> 8 * zlen buffer < total cs).
Proof.
  intros HF. pose proof (zlen_nonneg buffer).
  destruct (decoder_init_wf buffer (zlen buffer)) as [Dw Ds]; [lia|].
  destruct (get_fields_spec cs _ Dw HF) as (r & E & Hge & Hlt).
  exists r. split; [done|].
  rewrite (length_d_stream _ Dw) in *. unfold d_pos in *. cbn [d_size d_byte d_bit nr_rlc_pdu_decoder_init] in *.
  split; [|intros; apply Hlt; lia]. intros ->. apply Z.nle_gt. intros Hle.
  destruct Hge as (? & ? & ? & _); [lia|done].
Qed.

(** Witness: a two-byte PDU has no room for a 12-bit SN after 8 bits. *)
Lemma pdu_decoder_bounds_witness :
  exists r, get_fields (nr_rlc_pdu_decoder_init [128; 1] 2) [2; 6; 12] = Ok r /\
    (r = None <-> 16 < 20).
Proof. apply (pdu_decoder_bounds [128; 1] [2; 6; 12]). repeat constructor; cbn; lia. Defined.

(** ** The reception list *)

(** The order of the reception list, for a comparison that subtracts keys. *)
Definition pdu_le (key : Z -> Z) (p q : nr_rlc_pdu_t) : Prop :=
  key (pdu_sn p) < key (pdu_sn q) \/ (pdu_sn p = pdu_sn q /\ pdu_so p <= pdu_so q).

#[export] Instance pdu_le_trans key : Transitive (pdu_le key).
Proof. unfold pdu_le. intros p q r [?|[-> ?]] [?|[E ?]]; rewrite <- ?E in *; lia. Qed.

Lemma pdu_list_add_sorted key cmp l p :
  (forall a b, cmp a b = key a - key b) ->
  (forall q, q ∈ l -> key (pdu_sn q) = key (pdu_sn p) -> pdu_sn q = pdu_sn p) ->
  StronglySorted (pdu_le key) l ->
  StronglySorted (pdu_le key) (nr_rlc_pdu_list_add cmp l p).
Proof.
  intros Hc Hinj. apply insert_when_sorted; [apply _| |]; intros q Hq B;
    rewrite Hc in B; bool_prop; unfold pdu_le.
  - destruct B; bool_prop; lia.
  - specialize (Hinj q Hq). destruct (decide (key (pdu_sn q) = key (pdu_sn p))) as [E|]; [|lia].
    destruct H0; bool_prop; [lia|]. right. split; [auto|lia].
Qed.
