(* ===== verification/RlcSdu.v ===== *)
(** * RLC SDUs and SDU segments

    [nr_rlc_sdu.c] and [nr_rlc_sdu.h].  Several segments share one SDU object
    (its SN, retransmission count and reference counts), so SDUs live in a
    store indexed by address and segments hold the address.  A segment carries
    its own node address because the sources keep tail pointers to nodes. *)

From S2P Require Import Prelude.

Abbreviation addr := positive.

Record nr_rlc_sdu_t := mk_sdu {
  sdu_sn : Z;
  sdu_upper_layer_id : Z;
  sdu_data : bytes;
  sdu_size : Z;
  sdu_retx_count : Z;
  sdu_ref_count : Z;
  sdu_free_count : Z;
  sdu_time_of_arrival : Z }.

#[export] Instance eta_sdu : Eta nr_rlc_sdu_t := fun s =>
  mk_sdu (sdu_sn s) (sdu_upper_layer_id s) (sdu_data s) (sdu_size s) (sdu_retx_count s)
    (sdu_ref_count s) (sdu_free_count s) (sdu_time_of_arrival s).

Record nr_rlc_sdu_segment_t := mk_seg {
  seg_addr : addr;
  seg_sdu : addr;
  seg_size : Z;
  seg_so : Z;
  seg_is_first : bool;
  seg_is_last : bool }.

#[export] Instance eta_seg : Eta nr_rlc_sdu_segment_t := fun s =>
  mk_seg (seg_addr s) (seg_sdu s) (seg_size s) (seg_so s) (seg_is_first s) (seg_is_last s).

#[export] Instance seg_eq_dec : EqDecision nr_rlc_sdu_segment_t.
Proof. solve_decision. Defined.

(** The live SDUs and the next address of the allocator. *)
Record sdu_heap := mk_heap { h_sdus : gmap addr nr_rlc_sdu_t; h_next : addr }.

#[export] Instance eta_heap : Eta sdu_heap := fun h => mk_heap (h_sdus h) (h_next h).

Definition heap_empty : sdu_heap := mk_heap ∅ 1%positive.

(** [seg->sdu->...]: the SDU must be live. *)
Definition sdu_of (h : sdu_heap) (s : nr_rlc_sdu_segment_t) : res nr_rlc_sdu_t :=
  match h_sdus h !! seg_sdu s with Some d => Ok d | None => Err Undef end.

(** [seg->sdu->field = ...] *)
Definition sdu_upd (f : nr_rlc_sdu_t -> nr_rlc_sdu_t) (h : sdu_heap) (s : nr_rlc_sdu_segment_t)
  : res sdu_heap :=
  d ← sdu_of h s;
  mret (h <| h_sdus ::= <[seg_sdu s := f d]> |>).

(** A fresh node address (calloc). *)
Definition heap_alloc (h : sdu_heap) : addr * sdu_heap := (h_next h, h <| h_next ::= Pos.succ |>).

Definition nr_rlc_new_sdu (h : sdu_heap) (buffer : bytes) (size upper_layer_id : Z)
  : res (nr_rlc_sdu_segment_t * sdu_heap) :=
  data ← slice buffer 0 size;
  let '(a, h) := heap_alloc h in
  let '(n, h) := heap_alloc h in
  let sdu := mk_sdu (-1) upper_layer_id data size (-1) 1 0 0 in
  mret (mk_seg n a size 0 true true, h <| h_sdus ::= <[a := sdu]> |>).

(** The boolean is the C return value: the SDU was freed too. *)
Definition nr_rlc_free_sdu_segment (h : sdu_heap) (s : nr_rlc_sdu_segment_t)
  : res (bool * sdu_heap) :=
  d ← sdu_of h s;
  let d := d <| sdu_free_count ::= Z.succ |> in
  if sdu_free_count d =? sdu_ref_count d
  then mret (true, h <| h_sdus ::= delete (seg_sdu s) |>)
  else mret (false, h <| h_sdus ::= <[seg_sdu s := d]> |>).

(** [( *end)->next = sdu]: what followed the node [e] is cut off. *)
Fixpoint link_after (e : addr) (x : nr_rlc_sdu_segment_t) (l : list nr_rlc_sdu_segment_t)
  : res (list nr_rlc_sdu_segment_t) :=
  match l with
  | [] => Err Undef
  | s :: l' =>
      if Pos.eqb (seg_addr s) e then mret [s; x]
      else l' ← link_after e x l'; mret (s :: l')
  end.

Definition nr_rlc_sdu_segment_list_append (l : list nr_rlc_sdu_segment_t) (e : option addr)
    (sdu : nr_rlc_sdu_segment_t) : res (list nr_rlc_sdu_segment_t * option addr) :=
  match l with
  | [] => mret ([sdu], Some (seg_addr sdu))
  | _ =>
      a ← deref e;
      l ← link_after a sdu l;
      mret (l, Some (seg_addr sdu))
  end.

Fixpoint nr_rlc_free_sdu_segment_list (h : sdu_heap) (l : list nr_rlc_sdu_segment_t) : res sdu_heap :=
  match l with
  | [] => mret h
  | cur :: l =>
      '(_, h) ← nr_rlc_free_sdu_segment h cur;
      nr_rlc_free_sdu_segment_list h l
  end.

(** The search of the [discard_sdu] functions: the nodes before [cur] and from [cur] on. *)
Fixpoint find_sdu_id (h : sdu_heap) (sdu_id : Z) (prev : list nr_rlc_sdu_segment_t)
    (cur : list nr_rlc_sdu_segment_t)
  : res (list nr_rlc_sdu_segment_t * list nr_rlc_sdu_segment_t) :=
  match cur with
  | [] => mret (prev, [])
  | s :: cur' =>
      d ← sdu_of h s;
      if negb (sdu_upper_layer_id d =? sdu_id)
      then find_sdu_id h sdu_id (prev ++ [s]) cur' else mret (prev, cur)
  end.

(** ** Tail pointers *)

(** The end pointer designates the last node of a duplicate-free list. *)
Definition tail_ok (l : list nr_rlc_sdu_segment_t) (e : option addr) : Prop :=
  NoDup (seg_addr <$> l) /\ e = seg_addr <$> last l.

Lemma link_after_last l x y :
  NoDup (seg_addr <$> l ++ [y]) -> link_after (seg_addr y) x (l ++ [y]) = Ok (l ++ [y; x]).
Proof.
  induction l as [|s l IH]; intros Hn; cbn.
  - by rewrite Pos.eqb_refl.
  - cbn in Hn. apply NoDup_cons in Hn as [Hs Hn].
    rewrite (proj2 (Pos.eqb_neq _ _)), IH by (done || intros E; apply Hs; set_solver). done.
Qed.

Lemma append_ok l e x :
  tail_ok l e -> seg_addr x ∉ seg_addr <$> l ->
  nr_rlc_sdu_segment_list_append l e x = Ok (l ++ [x], Some (seg_addr x)) /\
  tail_ok (l ++ [x]) (Some (seg_addr x)).
Proof.
  intros [Hn ->] Hx. split.
  - destruct l as [|y l _] using rev_ind; [done|]. rewrite last_snoc.
    unfold nr_rlc_sdu_segment_list_append.
    destruct (l ++ [y]) eqn:E; [by destruct l|]. rewrite <- E in *. cbn.
    rewrite link_after_last by done. cbn. by rewrite <- app_assoc.
  - split; [|by rewrite last_snoc]. rewrite fmap_app. apply NoDup_app.
    split_and!; [done|set_solver|]. apply NoDup_singleton.
Qed.

Lemma tail_ok_cons s l e :
  tail_ok (s :: l) e -> tail_ok l (match l with [] => None | _ => e end).
Proof.
  intros [Hn ->]. apply NoDup_cons in Hn as [_ Hn]. split; [done|]. by destruct l.
Qed.

Lemma tail_ok_push s l e :
  tail_ok l e -> seg_addr s ∉ seg_addr <$> l ->
  tail_ok (s :: l) (match e with None => Some (seg_addr s) | Some _ => e end).
Proof.
  intros [Hn ->] Hs. split; [by apply NoDup_cons|].
  destruct l as [|y l]; [done|]. rewrite (last_cons s).
  destruct (last (y :: l)) eqn:E; [done|by apply last_None in E].
Qed.

Lemma tail_ok_Some s l e : tail_ok (s :: l) e -> exists a, e = Some a.
Proof.
  intros [_ ->]. destruct (last (s :: l)) eqn:E; [by eexists|by apply last_None in E].
Qed.

(** The head is taken off and another node put there. *)
Lemma tail_ok_replace s s2 l e :
  tail_ok (s :: l) e -> seg_addr s2 ∉ seg_addr <$> l ->
  tail_ok (s2 :: l) (match l with [] => Some (seg_addr s2) | _ => e end).
Proof.
  intros T Hs. destruct (tail_ok_Some _ _ _ T) as [a ->].
  apply tail_ok_cons, (tail_ok_push s2) in T; [|done]. by destruct l.
Qed.

(** ** Reference counts

    [heap_ok h segs]: the segments [segs] are exactly the references to the
    live SDUs of [h], and an SDU is live as long as one refers to it. *)

Definition refs (a : addr) (segs : list nr_rlc_sdu_segment_t) : Z :=
  zlen (filter (fun s => seg_sdu s = a) segs).

Record heap_ok (h : sdu_heap) (segs : list nr_rlc_sdu_segment_t) : Prop := {
  ho_count : forall a d, h_sdus h !! a = Some d ->
    sdu_ref_count d - sdu_free_count d = refs a segs /\ 0 < refs a segs;
  ho_live : forall s, s ∈ segs -> is_Some (h_sdus h !! seg_sdu s);
  ho_fresh : forall a, is_Some (h_sdus h !! a) -> (a < h_next h)%positive;
  ho_addr : Forall (fun s => (seg_addr s < h_next h)%positive) segs;
  ho_nodup : NoDup (seg_addr <$> segs) }.

Lemma refs_cons a s segs :
  refs a (s :: segs) = (if decide (seg_sdu s = a) then 1 else 0) + refs a segs.
Proof. unfold refs. rewrite filter_cons. case_decide; [by rewrite zlen_cons|lia]. Qed.

Lemma refs_nonneg a segs : 0 <= refs a segs.
Proof. apply zlen_nonneg. Qed.

Lemma refs_zero a segs : refs a segs = 0 <-> forall s, s ∈ segs -> seg_sdu s <> a.
Proof.
  induction segs as [|s segs IH]; [split; [set_solver|done]|].
  rewrite refs_cons. pose proof (refs_nonneg a segs). case_decide; split; intros Hx.
  - lia.
  - exfalso. by apply (Hx s); [set_solver|].
  - rewrite Z.add_0_l in Hx. intros t Ht. apply elem_of_cons in Ht as [->|Ht]; [done|].
    by apply IH.
  - rewrite Z.add_0_l. apply IH. intros t Ht. apply Hx. set_solver.
Qed.

#[export] Instance refs_perm : Proper ((=) ==> (≡ₚ) ==> (=)) refs.
Proof. intros a ? <- l1 l2 E. unfold refs, zlen. by rewrite E. Qed.

#[export] Instance heap_ok_perm : Proper ((=) ==> (≡ₚ) ==> iff) heap_ok.
Proof.
  intros h ? <- l1 l2 E. split; intros [H1 H2 H3 H4 H5]; split; try done.
  - intros a d Hd. rewrite <- E. auto.
  - intros s Hs. apply H2. by rewrite E.
  - by rewrite <- E.
  - by rewrite <- E.
  - intros a d Hd. rewrite E. auto.
  - intros s Hs. apply H2. by rewrite <- E.
  - by rewrite E.
  - by rewrite E.
Qed.

Lemma heap_ok_sdu_of h s segs : heap_ok h (s :: segs) ->
  exists d, sdu_of h s = Ok d /\ h_sdus h !! seg_sdu s = Some d.
Proof.
  intros H. destruct (ho_live _ _ H s) as [d E]; [set_solver|].
  exists d. unfold sdu_of. by rewrite E.
Qed.

(** The bytes held by the live SDUs. *)
Definition heap_bytes (h : sdu_heap) : Z :=
  map_fold (fun _ d acc => sdu_size d + acc) 0 (h_sdus h).

Lemma heap_bytes_insert h a d n : h_sdus h !! a = None ->
  heap_bytes (mk_heap (<[a := d]> (h_sdus h)) n) = sdu_size d + heap_bytes h.
Proof.
  intros E. unfold heap_bytes. cbn [h_sdus].
  rewrite map_fold_insert_L; [done|intros; lia|done].
Qed.

Lemma heap_bytes_delete h a d n : h_sdus h !! a = Some d ->
  heap_bytes (mk_heap (delete a (h_sdus h)) n) = heap_bytes h - sdu_size d.
Proof.
  intros E. unfold heap_bytes at 2. cbn [h_sdus].
  rewrite (map_fold_delete_L _ _ a d (h_sdus h)) by (done || (intros; lia)).
  unfold heap_bytes. cbn. lia.
Qed.

Lemma heap_bytes_update h a d d' n : h_sdus h !! a = Some d -> sdu_size d' = sdu_size d ->
  heap_bytes (mk_heap (<[a := d']> (h_sdus h)) n) = heap_bytes h.
Proof.
  intros E Hs. rewrite <- insert_delete_eq.
  pose proof (heap_bytes_insert (mk_heap (delete a (h_sdus h)) n) a d' n (lookup_delete_eq _ _)) as H.
  cbn [h_sdus] in H. rewrite H, Hs, (heap_bytes_delete h a d n E). lia.
Qed.

(** *** Allocation *)
Lemma new_sdu_ok h segs buffer size id :
  heap_ok h segs -> 0 <= size <= zlen buffer ->
  exists s h', nr_rlc_new_sdu h buffer size id = Ok (s, h') /\
    heap_ok h' (s :: segs) /\ heap_bytes h' = heap_bytes h + size /\
    seg_size s = size /\ seg_so s = 0 /\ seg_is_first s = true /\ seg_is_last s = true /\
    h_sdus h !! seg_sdu s = None /\
    h_sdus h' = <[seg_sdu s := mk_sdu (-1) id (take (Z.to_nat size) buffer) size (-1) 1 0 0]> (h_sdus h).
Proof.
  intros H Hs. unfold nr_rlc_new_sdu. rewrite slice_ok by lia. rewrite drop_0. cbn.
  set (a := h_next h). set (n := Pos.succ (h_next h)).
  assert (Ha : h_sdus h !! a = None).
  { destruct (h_sdus h !! a) eqn:E; [|done].
    assert (a < a)%positive by (apply (ho_fresh _ _ H); eauto). lia. }
  assert (Hr : refs a segs = 0).
  { apply refs_zero. intros s Hin <-. apply (ho_live _ _ H) in Hin. rewrite Ha in Hin. by destruct Hin. }
  do 2 eexists. split; [done|]. split_and!; try done; cbn.
  - split; cbn.
    + intros b d Hb. rewrite refs_cons. cbn. destruct (decide (a = b)) as [<-|Hne].
      * rewrite lookup_insert_eq in Hb. simplify_eq. cbn. lia.
      * rewrite lookup_insert_ne in Hb by done. rewrite Z.add_0_l. by apply (ho_count _ _ H).
    + intros s Hin. apply elem_of_cons in Hin as [->|Hin]; cbn.
      * rewrite lookup_insert_eq. eauto.
      * destruct (decide (a = seg_sdu s)) as [->|]; [rewrite lookup_insert_eq; eauto|].
        rewrite lookup_insert_ne by done. by apply (ho_live _ _ H).
    + intros b Hb. destruct (decide (a = b)) as [<-|]; [lia|].
      rewrite lookup_insert_ne in Hb by done. apply (ho_fresh _ _ H) in Hb. lia.
    + constructor; [cbn; lia|]. eapply Forall_impl; [apply (ho_addr _ _ H)|]. cbn. lia.
    + apply NoDup_cons. split; [|apply H]. intros Hin. apply list_elem_of_fmap in Hin as (t & E & Hin).
      pose proof (ho_addr _ _ H) as F. rewrite Forall_forall in F. apply F in Hin. lia.
  - rewrite heap_bytes_insert by done. cbn. lia.
Qed.

(** *** Release *)
Lemma free_sdu_segment_ok h s segs d :
  heap_ok h (s :: segs) -> h_sdus h !! seg_sdu s = Some d ->
  exists b h', nr_rlc_free_sdu_segment h s = Ok (b, h') /\ heap_ok h' segs /\
    heap_bytes h' = heap_bytes h - (if b then sdu_size d else 0) /\
    (b = true <-> forall t, t ∈ segs -> seg_sdu t <> seg_sdu s) /\
    (forall a, a <> seg_sdu s -> h_sdus h' !! a = h_sdus h !! a) /\
    (b = false -> h_sdus h' !! seg_sdu s = Some (d <| sdu_free_count ::= Z.succ |>)) /\
    h_next h' = h_next h.
Proof.
  intros H Hd. unfold nr_rlc_free_sdu_segment, sdu_of. rewrite Hd. cbn.
  destruct (ho_count _ _ H _ _ Hd) as [Hc _]. rewrite refs_cons, decide_True in Hc by done.
  pose proof (refs_zero (seg_sdu s) segs) as Hz. pose proof (refs_nonneg (seg_sdu s) segs).
  pose proof (ho_nodup _ _ H) as Hn. cbn in Hn. apply NoDup_cons in Hn as [_ Hn].
  pose proof (ho_addr _ _ H) as Hf. apply Forall_cons in Hf as [_ Hf].
  case_if; bool_prop; cbn in *; do 2 eexists; (split; [done|]); split_and!; try done; cbn.
  - split; cbn; try done.
    + intros a e Ha. destruct (decide (seg_sdu s = a)) as [<-|Hne];
        [by rewrite lookup_delete_eq in Ha|]. rewrite lookup_delete_ne in Ha by done.
      destruct (ho_count _ _ H _ _ Ha) as [? ?]. rewrite refs_cons, decide_False in * by done. lia.
    + intros t Ht. rewrite lookup_delete_ne; [apply (ho_live _ _ H); set_solver|].
      intros E'. apply (proj1 Hz ltac:(lia) t Ht). done.
    + intros a Ha. destruct (decide (seg_sdu s = a)) as [<-|Hne];
        [rewrite lookup_delete_eq in Ha; by destruct Ha|].
      rewrite lookup_delete_ne in Ha by done. by apply (ho_fresh _ _ H).
  - by apply heap_bytes_delete.
  - split; [|done]. intros _. apply Hz. lia.
  - intros a Ha. by rewrite lookup_delete_ne.
  - split; cbn; try done.
    + intros a e Ha. destruct (decide (seg_sdu s = a)) as [<-|Hne].
      * rewrite lookup_insert_eq in Ha. simplify_eq. cbn. lia.
      * rewrite lookup_insert_ne in Ha by done.
        destruct (ho_count _ _ H _ _ Ha) as [? ?]. rewrite refs_cons, decide_False in * by done. lia.
    + intros t Ht. destruct (decide (seg_sdu s = seg_sdu t)) as [->|];
        [rewrite lookup_insert_eq; eauto|]. rewrite lookup_insert_ne by done.
      apply (ho_live _ _ H). set_solver.
    + intros a Ha. apply (ho_fresh _ _ H).
      destruct (decide (seg_sdu s = a)) as [<-|Hne]; [rewrite Hd; eauto|].
      by rewrite lookup_insert_ne in Ha.
  - rewrite (heap_bytes_update _ _ d) by done. lia.
  - split; [done|]. intros Hall. exfalso. apply E. apply Hz in Hall. lia.
  - intros a Ha. by rewrite lookup_insert_ne.
  - intros _. by rewrite lookup_insert_eq.
Qed.

(** *** Writing an SDU field other than the counts *)
Lemma sdu_upd_ok f h s segs d :
  heap_ok h segs -> h_sdus h !! seg_sdu s = Some d ->
  (sdu_ref_count (f d) = sdu_ref_count d /\ sdu_free_count (f d) = sdu_free_count d /\
   sdu_size (f d) = sdu_size d) ->
  exists h', sdu_upd f h s = Ok h' /\ heap_ok h' segs /\ heap_bytes h' = heap_bytes h /\
    h' = mk_heap (<[seg_sdu s := f d]> (h_sdus h)) (h_next h).
Proof.
  intros H Hd (E1 & E2 & E3). unfold sdu_upd, sdu_of. rewrite Hd. cbn.
  eexists. split; [done|]. split_and!; [|by apply (heap_bytes_update _ _ d)|done].
  split; cbn; try apply H.
  - intros a e Ha. destruct (decide (seg_sdu s = a)) as [<-|Hne].
    + rewrite lookup_insert_eq in Ha. simplify_eq. rewrite E1, E2. by apply (ho_count _ _ H).
    + rewrite lookup_insert_ne in Ha by done. by apply (ho_count _ _ H).
  - intros t Ht. destruct (decide (seg_sdu s = seg_sdu t)) as [->|];
      [rewrite lookup_insert_eq; eauto|]. rewrite lookup_insert_ne by done. by apply (ho_live _ _ H).
  - intros a Ha. apply (ho_fresh _ _ H).
    destruct (decide (seg_sdu s = a)) as [<-|Hne]; [rewrite Hd; eauto|]. by rewrite lookup_insert_ne in Ha.
Qed.

(** *** Segmentation: one more reference to the same SDU *)
Lemma heap_ok_split h s segs d s1 s2 :
  heap_ok h (s :: segs) -> h_sdus h !! seg_sdu s = Some d ->
  seg_addr s1 = seg_addr s -> seg_sdu s1 = seg_sdu s ->
  seg_addr s2 = h_next h -> seg_sdu s2 = seg_sdu s ->
  let h' := mk_heap (<[seg_sdu s := d <| sdu_ref_count ::= Z.succ |>]> (h_sdus h)) (Pos.succ (h_next h)) in
  heap_ok h' (s1 :: s2 :: segs) /\ heap_bytes h' = heap_bytes h.
Proof.
  intros H Hd A1 D1 A2 D2 h'. split; [|by apply (heap_bytes_update _ _ d)].
  destruct (ho_count _ _ H _ _ Hd) as [Hc _]. rewrite refs_cons, decide_True in Hc by done.
  pose proof (ho_nodup _ _ H) as Hn. cbn in Hn. apply NoDup_cons in Hn as [Hin Hn].
  pose proof (ho_addr _ _ H) as Hf. apply Forall_cons in Hf as [Hs Hf].
  split; cbn.
  - intros a e Ha. rewrite !refs_cons, D1, D2. pose proof (refs_nonneg a segs).
    destruct (decide (seg_sdu s = a)) as [<-|Hne].
    + rewrite lookup_insert_eq in Ha. simplify_eq. cbn. lia.
    + rewrite lookup_insert_ne in Ha by done.
      destruct (ho_count _ _ H _ _ Ha). rewrite refs_cons, decide_False in * by done. lia.
  - intros t Ht. destruct (decide (seg_sdu s = seg_sdu t)) as [->|];
      [rewrite lookup_insert_eq; eauto|]. rewrite lookup_insert_ne by done.
    apply (ho_live _ _ H). set_solver.
  - intros a Ha. assert (is_Some (h_sdus h !! a)) as Hb.
    { destruct (decide (seg_sdu s = a)) as [<-|]; [rewrite Hd; eauto|]. by rewrite lookup_insert_ne in Ha. }
    apply (ho_fresh _ _ H) in Hb. lia.
  - constructor; [rewrite A1; lia|]. constructor; [rewrite A2; lia|].
    eapply Forall_impl; [apply Hf|]. cbn. lia.
  - rewrite A1, A2. apply NoDup_cons. split.
    + rewrite elem_of_cons. intros [E|E]; [lia|by apply Hin].
    + apply NoDup_cons. split; [|done]. intros E. apply list_elem_of_fmap in E as (t & E & Ht).
      rewrite Forall_forall in Hf. apply Hf in Ht. lia.
Qed.

(** *** Releasing a whole list *)
Lemma free_sdu_segment_list_ok l h segs :
  heap_ok h (l ++ segs) ->
  exists h', nr_rlc_free_sdu_segment_list h l = Ok h' /\ heap_ok h' segs.
Proof.
  revert h. induction l as [|s l IH]; intros h H; cbn in *; [eauto|].
  destruct (heap_ok_sdu_of _ _ _ H) as (d & _ & Hd).
  destruct (free_sdu_segment_ok _ _ _ _ H Hd) as (b & h1 & -> & H1 & _). cbn. by apply IH.
Qed.

Lemma heap_ok_empty : heap_ok heap_empty [].
Proof.
  split; cbn.
  - intros a d Hd. by rewrite lookup_empty in Hd.
  - intros s Hs. by apply elem_of_nil in Hs.
  - intros a [d Hd]. by rewrite lookup_empty in Hd.
  - constructor.
  - constructor.
Qed.

Lemma tail_ok_nil : tail_ok [] None.
Proof. split; [constructor|done]. Qed.

(** With no reference left no SDU is left: nothing leaks. *)
Lemma heap_ok_nil h : heap_ok h [] -> h_sdus h = ∅.
Proof.
  intros H. apply map_empty. intros a. destruct (h_sdus h !! a) eqn:E; [|done].
  destruct (ho_count _ _ H _ _ E) as [_ Hr]. change (0 < 0) in Hr. lia.
Qed.

(** *** Unlinking a node, as the [discard_sdu] functions do *)
Lemma find_sdu_id_ok h id prev cur segs :
  heap_ok h segs -> (forall s, s ∈ cur -> s ∈ segs) ->
  exists p c, find_sdu_id h id prev cur = Ok (p, c) /\ p ++ c = prev ++ cur /\
    match c with
    | s :: _ => exists d, h_sdus h !! seg_sdu s = Some d /\ sdu_upper_layer_id d = id
    | [] => True
    end.
Proof.
  intros H. revert prev. induction cur as [|s cur IH]; intros prev Hin; cbn.
  - by exists prev, [].
  - destruct (ho_live _ _ H s) as [d Hd]; [set_solver|]. unfold sdu_of. rewrite Hd. cbn.
    destruct (Z.eqb_spec (sdu_upper_layer_id d) id) as [E|E]; cbn.
    + exists prev, (s :: cur). eauto.
    + destruct (IH (prev ++ [s])) as (p & c & E1 & E2 & E3); [set_solver|].
      exists p, c. split; [done|]. split; [|done]. by rewrite E2, <- app_assoc.
Qed.

Lemma tail_ok_remove prev c next e :
  tail_ok (prev ++ c :: next) e ->
  tail_ok (prev ++ next) (if decide (e = Some (seg_addr c)) then seg_addr <$> last prev else e).
Proof.
  intros [Hn ->]. assert (Hp : (seg_addr <$> prev ++ c :: next) ≡ₚ (seg_addr <$> c :: prev ++ next))
    by (apply fmap_Permutation; by rewrite Permutation_middle).
  assert (Hn' : (seg_addr c ∉ seg_addr <$> (prev ++ next)) /\ NoDup (seg_addr <$> prev ++ next)).
  { rewrite Hp in Hn. cbn in Hn. by apply NoDup_cons in Hn. }
  split; [apply Hn'|]. destruct next as [|y next _] using rev_ind.
  - rewrite last_snoc, app_nil_r. cbn. by rewrite decide_True.
  - rewrite app_assoc, last_snoc. change (c :: next ++ [y]) with ((c :: next) ++ [y]).
    rewrite app_assoc, last_snoc. cbn. rewrite decide_False; [done|].
    intros E. apply (proj1 Hn'). injection E as <-. apply list_elem_of_fmap. exists y. set_solver.
Qed.

(** ** The data of the SDUs *)

Definition hdata (h : sdu_heap) (a : addr) : option bytes := sdu_data <$> h_sdus h !! a.

Lemma hdata_upd f h s d a :
  h_sdus h !! seg_sdu s = Some d -> sdu_data (f d) = sdu_data d ->
  hdata (mk_heap (<[seg_sdu s := f d]> (h_sdus h)) (h_next h)) a = hdata h a.
Proof.
  intros Hd Hf. unfold hdata. cbn. destruct (decide (seg_sdu s = a)) as [<-|].
  - rewrite lookup_insert_eq, Hd. cbn. by rewrite Hf.
  - by rewrite lookup_insert_ne.
Qed.

Lemma hdata_next h a n : hdata (mk_heap (h_sdus h) n) a = hdata h a.
Proof. done. Qed.

(** Freeing a segment leaves the SDUs of the others alone. *)
Lemma free_sdu_segment_data h s segs :
  heap_ok h (s :: segs) ->
  exists b h', nr_rlc_free_sdu_segment h s = Ok (b, h') /\ heap_ok h' segs /\
    (forall t, t ∈ segs -> hdata h' (seg_sdu t) = hdata h (seg_sdu t)).
Proof.
  intros H. destruct (heap_ok_sdu_of _ _ _ H) as (d & _ & Hd).
  destruct (free_sdu_segment_ok _ _ _ _ H Hd) as (b & h' & E & Hk & _ & Hb & Hne & Hsame & _).
  exists b, h'. split_and!; [done|done|]. intros t Ht. unfold hdata.
  destruct (decide (seg_sdu t = seg_sdu s)) as [Es|Es]; [|by rewrite Hne].
  destruct b; [by destruct (proj1 Hb eq_refl t Ht)|].
  rewrite Es, Hsame, Hd by done. done.
Qed.

Lemma new_sdu_data h segs buffer size id :
  heap_ok h segs -> 0 <= size <= zlen buffer ->
  exists s h', nr_rlc_new_sdu h buffer size id = Ok (s, h') /\ heap_ok h' (s :: segs) /\
    seg_size s = size /\ seg_so s = 0 /\ seg_is_first s = true /\ seg_is_last s = true /\
    hdata h' (seg_sdu s) = Some (take (Z.to_nat size) buffer) /\
    (forall t, t ∈ segs -> hdata h' (seg_sdu t) = hdata h (seg_sdu t)).
Proof.
  intros H Hs. destruct (new_sdu_ok h segs buffer size id H Hs) as
    (s & h' & E & Hk & _ & Z1 & Z2 & Z3 & Z4 & Z5 & Z6).
  exists s, h'. split_and!; try done; unfold hdata; rewrite Z6.
  - by rewrite lookup_insert_eq.
  - intros t Ht. rewrite lookup_insert_ne; [done|]. intros Es.
    destruct (ho_live _ _ H t Ht) as [x Hx]. rewrite Es in *. congruence.
Qed.

#[export] Hint Resolve heap_ok_empty tail_ok_nil : l2.
