(* ===== verification/TimeStat.v ===== *)
(** * Sliding-window averages

    [common/utils/time_stat.c]: the growable ring of time-stamped values that
    the RLC entities use for the SDU sojourn time.  The ring is shown to
    implement a queue. *)

From S2P Require Import Prelude.

(** [time_value_t]: (time, value), both [uint64_t] microseconds. *)
Abbreviation time_value_t := (Z * Z)%type.

Record time_ring_t := mk_ring {
  head_ : Z;
  tail_ : Z;
  buffer : list time_value_t;
  maxsize : Z;
  rsize : Z }.

#[export] Instance eta_ring : Eta time_ring_t := fun r =>
  mk_ring (head_ r) (tail_ r) (buffer r) (maxsize r) (rsize r).

Record time_average_t := mk_time_average {
  duration : Z;
  ring : time_ring_t;
  accumulated_value : Z }.

#[export] Instance eta_time_average : Eta time_average_t := fun t =>
  mk_time_average (duration t) (ring t) (accumulated_value t).

Definition time_average_new (dur initial_size : Z) : res time_average_t :=
  if negb (Z.land initial_size (initial_size - 1) =? 0) then Err Exit
  else mret (mk_time_average dur
    (mk_ring (initial_size - 1) 0 (replicate (Z.to_nat initial_size) (0, 0)) initial_size 0) 0).

Definition time_average_reset (t : time_average_t) : time_average_t :=
  t <| ring ::= fun r => r <| head_ := maxsize r - 1 |> <| tail_ := 0 |> <| rsize := 0 |> |>
    <| accumulated_value := 0 |>.

(** The [while] of [remove_old]; [size] decreases, so [size] rounds are enough. *)
Fixpoint remove_old_loop (fuel : nat) (t : time_average_t) (time : Z) : res time_average_t :=
  let r := ring t in
  if rsize r =? 0 then mret t
  else
    '(tm, v) ← rd (buffer r) (tail_ r);
    if tm <? u64 (time - duration t) then
      match fuel with
      | O => Err Fuel
      | S fuel =>
          remove_old_loop fuel
            (t <| accumulated_value ::= fun a => u64 (a - v) |>
               <| ring := r <| rsize ::= Z.pred |>
                            <| tail_ := Z.succ (tail_ r) mod maxsize r |> |>) time
      end
    else mret t.

Definition remove_old (t : time_average_t) (time : Z) : res time_average_t :=
  remove_old_loop (Z.to_nat (rsize (ring t))) t time.

(** The growth step of [time_average_add]: [realloc] and moving the wrapped part.
    The fresh cells hold [(0, 0)] here; they are written before they are read. *)
Definition grow (r : time_ring_t) : res time_ring_t :=
  let r := r <| buffer ::= fun b => b ++ replicate (length b) (0, 0) |>
             <| maxsize ::= Z.mul 2 |> in
  if head_ r <? tail_ r then
    moved ← slice (buffer r) 0 (head_ r + 1);
    b ← blit (buffer r) (rsize r) moved;
    mret (r <| buffer := b |> <| head_ ::= Z.add (rsize r) |>)
  else mret r.

Definition time_average_add (t : time_average_t) (time value : Z) : res time_average_t :=
  t ← remove_old t time;
  r ← (if rsize (ring t) =? maxsize (ring t) then grow (ring t) else mret (ring t));
  let h := Z.succ (head_ r) mod maxsize r in
  b ← wr (buffer r) h (time, value);
  mret (t <| ring := r <| head_ := h |> <| buffer := b |> <| rsize ::= Z.succ |> |>
          <| accumulated_value ::= fun a => u64 (a + value) |>).

(** The average as numerator and denominator ([None] is the [0] of an empty ring). *)
Definition time_average_get_average (t : time_average_t) (time : Z)
  : res (option (Z * Z) * time_average_t) :=
  t ← remove_old t time;
  mret (if rsize (ring t) =? 0 then None
        else Some (accumulated_value t, rsize (ring t)), t).

(** [clock_gettime] is the environment's: its seconds and nanoseconds are arguments. *)
Definition time_average_now (tv_sec tv_nsec : Z) : Z :=
  let ret := u64 (u64 tv_sec * 1000000 + tv_nsec / 1000) in
  if tv_nsec mod 1000 >=? 500 then u64 (ret + 1) else ret.

(** ** The ring as a queue *)

(** The values from the oldest to the newest. *)
Definition content (r : time_ring_t) : list time_value_t :=
  (fun i => default (0, 0) (buffer r !! Z.to_nat ((tail_ r + Z.of_nat i) mod maxsize r)))
    <$> seq 0 (Z.to_nat (rsize r)).

Record ring_wf (r : time_ring_t) : Prop := {
  rw_max : 0 < maxsize r;
  rw_buf : zlen (buffer r) = maxsize r;
  rw_size : 0 <= rsize r <= maxsize r;
  rw_tail : 0 <= tail_ r < maxsize r;
  rw_head : head_ r = (tail_ r + rsize r - 1) mod maxsize r }.

Fixpoint sum_values (l : list time_value_t) : Z :=
  match l with [] => 0 | e :: l => e.2 + sum_values l end.

Definition avg_wf (t : time_average_t) : Prop :=
  ring_wf (ring t) /\ accumulated_value t = u64 (sum_values (content (ring t))).

(** Entries older than the window, dropped from the front. *)
Fixpoint drop_old (limit : Z) (l : list time_value_t) : list time_value_t :=
  match l with
  | [] => []
  | e :: l' => if e.1 <? limit then drop_old limit l' else l
  end.

Lemma length_content r : length (content r) = Z.to_nat (rsize r).
Proof. unfold content. by rewrite length_fmap, length_seq. Qed.

Lemma lookup_content r i : (i < Z.to_nat (rsize r))%nat ->
  content r !! i = Some (default (0, 0) (buffer r !! Z.to_nat ((tail_ r + Z.of_nat i) mod maxsize r))).
Proof. intros H. unfold content. rewrite list_lookup_fmap, lookup_seq_lt by done. done. Qed.

(** Rings with the same cells from the tail on have the same content. *)
Lemma content_ext r r' :
  rsize r = rsize r' ->
  (forall i, 0 <= i < rsize r ->
     buffer r !! Z.to_nat ((tail_ r + i) mod maxsize r) =
     buffer r' !! Z.to_nat ((tail_ r' + i) mod maxsize r')) ->
  content r = content r'.
Proof.
  intros Hs H. unfold content. rewrite <- Hs. apply list_fmap_ext. intros j i Hi.
  apply lookup_seq in Hi. rewrite H by lia. done.
Qed.

Lemma content_cons r : ring_wf r -> 0 < rsize r ->
  exists e, rd (buffer r) (tail_ r) = Ok e /\
    content r = e :: content (r <| rsize ::= Z.pred |> <| tail_ := Z.succ (tail_ r) mod maxsize r |>).
Proof.
  intros [] Hs. destruct (rd_ok (buffer r) (tail_ r)) as (e & E & L); [lia|].
  exists e. split; [done|]. unfold content. cbn [rsize tail_ buffer maxsize eta_ring setter].
  replace (Z.to_nat (rsize r)) with (S (Z.to_nat (Z.pred (rsize r)))) by lia.
  rewrite <- cons_seq, fmap_cons. f_equal.
  - rewrite Z.add_0_r, Z.mod_small, L by lia. done.
  - rewrite <- fmap_S_seq, <- list_fmap_compose. apply list_fmap_ext. intros j i _. cbn.
    rewrite Zplus_mod_idemp_l. do 4 f_equal. lia.
Qed.

Lemma u64_idem x y : u64 (u64 x + y) = u64 (x + y).
Proof. unfold u64. apply Zplus_mod_idemp_l. Qed.

Lemma pop_wf r : ring_wf r -> 0 < rsize r ->
  ring_wf (r <| rsize ::= Z.pred |> <| tail_ := Z.succ (tail_ r) mod maxsize r |>).
Proof.
  intros [] Hs. split; cbn; try lia.
  - apply Z.mod_pos_bound. lia.
  - rewrite <- (Z.add_sub_assoc (_ mod _)), Zplus_mod_idemp_l, rw_head0. f_equal. lia.
Qed.

Lemma remove_old_spec t time :
  avg_wf t ->
  exists t', remove_old t time = Ok t' /\ avg_wf t' /\ duration t' = duration t /\
    maxsize (ring t') = maxsize (ring t) /\
    content (ring t') = drop_old (u64 (time - duration t)) (content (ring t)).
Proof.
  unfold remove_old. remember (Z.to_nat (rsize (ring t))) as n eqn:Hn.
  revert t Hn. induction n as [|n IH]; intros t Hn [Hr Ha]; cbn [remove_old_loop].
  - pose proof (rw_size _ Hr). rewrite (proj2 (Z.eqb_eq _ _)) by lia.
    exists t. split; [done|]. split_and!; try done.
    assert (E : content (ring t) = []) by (apply length_zero_iff_nil; rewrite length_content; lia).
    by rewrite E.
  - rewrite (proj2 (Z.eqb_neq _ _)) by lia.
    destruct (content_cons (ring t)) as ([tm v] & -> & Hc); [done|lia|]. cbn [mbind res_bind].
    rewrite Hc. cbn [drop_old fst]. case_if.
    + set (t1 := _ <| ring := _ |>).
      destruct (IH t1) as (t' & E1 & E2 & E3 & E4 & E5).
      * cbn. lia.
      * split; [apply pop_wf; [done|lia]|]. cbn. rewrite Ha, Hc. cbn.
        unfold Z.sub. rewrite u64_idem. f_equal. lia.
      * exists t'. rewrite E1. split_and!; done.
    + exists t. split; [done|]. rewrite Hc. done.
Qed.

Lemma grow_spec r : ring_wf r -> rsize r = maxsize r ->
  exists r', grow r = Ok r' /\ ring_wf r' /\ content r' = content r /\
    rsize r' = rsize r /\ maxsize r' = 2 * maxsize r.
Proof.
  intros [] Hf. unfold grow. cbn [head_ tail_ buffer rsize maxsize eta_ring setter].
  assert (Hl : length (buffer r) = Z.to_nat (maxsize r)) by (unfold zlen in *; lia).
  assert (Hz : zlen (buffer r ++ replicate (length (buffer r)) (0, 0)) = 2 * maxsize r).
  { unfold zlen. rewrite length_app, length_replicate. lia. }
  destruct (Z.eq_dec (tail_ r) 0) as [Et|Et].
  - assert (Eh : head_ r = maxsize r - 1).
    { rewrite rw_head0, Et, Hf. rewrite Z.mod_small by lia. lia. }
    rewrite (proj2 (Z.ltb_ge _ _)) by lia. eexists. split; [done|].
    split_and!; try done; [split; cbn; try lia|].
    + rewrite Z.mod_small by lia. lia.
    + symmetry. apply content_ext; [done|]. cbn. intros i Hi. rewrite !Z.mod_small by lia.
      rewrite lookup_app_l by lia. done.
  - assert (Eh : head_ r = tail_ r - 1).
    { rewrite rw_head0, Hf. replace (tail_ r + maxsize r - 1) with (tail_ r - 1 + 1 * maxsize r) by lia.
      rewrite Z.mod_add, Z.mod_small by lia. done. }
    rewrite (proj2 (Z.ltb_lt _ _)) by lia.
    rewrite slice_ok by lia. cbn [mbind res_bind].
    set (mv := take _ _). assert (Hm : zlen mv = tail_ r).
    { unfold mv, zlen in *. rewrite length_take, length_drop. lia. }
    rewrite blit_ok by lia. cbn [mbind res_bind]. eexists. split; [done|].
    split_and!; try done; [split; cbn; try lia|].
    + clearbody mv. unfold zlen in *.
      rewrite !length_app, length_take, length_drop, !length_app, length_replicate. lia.
    + rewrite Z.mod_small by lia. lia.
    + symmetry. apply content_ext; [done|]. cbn. intros i Hi.
      rewrite (Z.mod_small _ (2 * maxsize r)) by lia.
      destruct (Z.lt_ge_cases (tail_ r + i) (maxsize r)) as [Hlt|Hge].
      * rewrite Z.mod_small, lookup_app_l, lookup_take_lt, lookup_app_l; try lia; [done|].
        rewrite length_take, length_app. lia.
      * replace ((tail_ r + i) mod maxsize r) with (tail_ r + i - maxsize r).
        2: { replace (tail_ r + i) with (tail_ r + i - maxsize r + 1 * maxsize r) at 2 by lia.
             rewrite Z.mod_add, Z.mod_small by lia. done. }
        rewrite lookup_app_r by (rewrite length_take, length_app; lia).
        rewrite length_take, length_app, length_replicate.
        rewrite lookup_app_l by (unfold zlen in *; lia).
        unfold mv. rewrite lookup_take_lt, drop_0, lookup_app_l by lia. f_equal. lia.
Qed.

Lemma push_content r h b e : ring_wf r -> rsize r < maxsize r ->
  h = Z.succ (head_ r) mod maxsize r -> wr (buffer r) h e = Ok b ->
  let r' := r <| head_ := h |> <| buffer := b |> <| rsize ::= Z.succ |> in
  ring_wf r' /\ content r' = content r ++ [e].
Proof.
  intros [] Hs Hh Hb r'.
  assert (Eh : h = (tail_ r + rsize r) mod maxsize r).
  { rewrite Hh, rw_head0. unfold Z.succ. rewrite Zplus_mod_idemp_l. f_equal. lia. }
  assert (Hr : 0 <= h < maxsize r) by (rewrite Hh; apply Z.mod_pos_bound; lia).
  rewrite wr_ok in Hb by lia. injection Hb as <-. subst r'. split.
  - split; cbn; try lia.
    + unfold zlen in *. by rewrite length_insert.
    + rewrite Eh. f_equal. lia.
  - unfold content. cbn [rsize tail_ buffer maxsize eta_ring setter].
    replace (Z.to_nat (Z.succ (rsize r))) with (S (Z.to_nat (rsize r))) by lia.
    rewrite seq_S, fmap_app. cbn. f_equal.
    + apply list_fmap_ext. intros j i Hi. apply lookup_seq in Hi.
      rewrite list_lookup_insert_ne; [done|]. intros E.
      assert (E' : h = (tail_ r + Z.of_nat i) mod maxsize r)
        by (pose proof (Z.mod_pos_bound (tail_ r + Z.of_nat i) (maxsize r)); lia).
      rewrite Eh in E'.
      assert (D : (rsize r - Z.of_nat i) mod maxsize r = 0).
      { replace (rsize r - Z.of_nat i) with ((tail_ r + rsize r) - (tail_ r + Z.of_nat i)) by lia.
        rewrite Zminus_mod, E', Z.sub_diag. by rewrite Z.mod_0_l by lia. }
      rewrite Z.mod_small in D by lia. lia.
    + replace (tail_ r + Z.of_nat (Z.to_nat (rsize r))) with (tail_ r + rsize r) by lia.
      rewrite <- Eh, list_lookup_insert_eq by (unfold zlen in *; lia). done.
Qed.

Lemma sum_values_app l1 l2 : sum_values (l1 ++ l2) = sum_values l1 + sum_values l2.
Proof. induction l1 as [|e l1 IH]; cbn; lia. Qed.

Lemma time_average_add_spec t time value :
  avg_wf t ->
  exists t', time_average_add t time value = Ok t' /\ avg_wf t' /\
    duration t' = duration t /\
    content (ring t') = drop_old (u64 (time - duration t)) (content (ring t)) ++ [(time, value)].
Proof.
  intros Hw. unfold time_average_add.
  destruct (remove_old_spec t time Hw) as (t1 & -> & [Hr Ha] & Hd & _ & Hc). cbn [mbind res_bind].
  assert (exists r, (if rsize (ring t1) =? maxsize (ring t1) then grow (ring t1) else mret (ring t1)) = Ok r
    /\ ring_wf r /\ content r = content (ring t1) /\ rsize r < maxsize r) as (r & -> & Hr1 & Hc1 & Hs1).
  { case_if; bool_prop.
    - destruct (grow_spec _ Hr E) as (r & ? & ? & ? & ? & ?). exists r. split_and!; try done.
      pose proof (rw_max _ Hr). lia.
    - exists (ring t1). pose proof (rw_size _ Hr). split_and!; done || lia. }
  cbn [mbind res_bind].
  assert (Hh : 0 <= Z.succ (head_ r) mod maxsize r < zlen (buffer r)).
  { rewrite (rw_buf _ Hr1). apply Z.mod_pos_bound. apply (rw_max _ Hr1). }
  rewrite wr_ok by done. cbn [mbind res_bind].
  destruct (push_content r _ _ (time, value) Hr1 Hs1 eq_refl (wr_ok _ _ _ Hh)) as [Hp1 Hp2].
  set (r1 := _ <| rsize ::= Z.succ |>) in *. clearbody r1.
  eexists. split; [reflexivity|]. unfold avg_wf. cbn.
  split_and!; [done| |done|].
  - rewrite Hp2, Hc1, Ha, u64_idem, sum_values_app. cbn. f_equal. lia.
  - rewrite Hp2, Hc1, Hc. done.
Qed.

(** The ring implements a sliding window: adding a value succeeds in every
    well-formed state (growing the ring when it is full), drops exactly the
    leading entries older than the window, appends the new entry, and keeps the
    accumulated value equal to the sum of the entries kept. *)
Theorem time_average_add_refines t time value :
  avg_wf t ->
  exists t', time_average_add t time value = Ok t' /\
    content (ring t') = drop_old (u64 (time - duration t)) (content (ring t)) ++ [(time, value)] /\
    accumulated_value t' = u64 (sum_values (content (ring t'))) /\ avg_wf t'.
Proof.
  intros H. destruct (time_average_add_spec t time value H) as (t' & ? & [? ?] & ? & ?).
  exists t'. by split_and!.
Qed.

Lemma time_average_new_wf dur n t : 0 < n -> time_average_new dur n = Ok t -> avg_wf t /\ content (ring t) = [].
Proof.
  unfold time_average_new. intros Hn E. destruct (negb _); [discriminate|].
  apply mret_ok in E as <-. split; [split|reflexivity].
  - split; cbn; try lia.
    + unfold zlen. rewrite length_replicate. lia.
    + apply (Z.mod_unique _ _ (-1)); lia.
  - reflexivity.
Qed.

(** Witness: a full ring of two entries, wrapped around, grows. *)
Lemma time_average_add_refines_witness :
  let t := mk_time_average 100 (mk_ring 0 1 [(60, 5); (50, 7)] 2 2) 12 in
  avg_wf t /\ (exists t', time_average_add t 120 9 = Ok t' /\
    content (ring t') = [(50, 7); (60, 5); (120, 9)] /\ accumulated_value t' = 21 /\ avg_wf t').
Proof.
  set (t := mk_time_average 100 _ 12). assert (Hw : avg_wf t).
  { split; [|done]. by split. }
  split; [exact Hw|].
  destruct (time_average_add_refines t 120 9 Hw) as (t' & E & Hc & Ha & W).
  exists t'. split; [exact E|]. split; [exact Hc|]. split; [|exact W].
  rewrite Ha, Hc. reflexivity.
Defined.
