(* ===== verification/RlcEntity.v ===== *)
(** * The part common to the three RLC entities

    [nr_rlc_entity.h]: statistics, buffer status and the common header of an
    entity.  The upper-layer callbacks ([deliver_sdu],
    [sdu_successful_delivery], [max_retx_reached]) are recorded in the order
    they are called. *)

From S2P Require Import Prelude RlcPdu RlcSdu TimeStat.

Definition NR_SDU_MAX : Z := 16000.

Inductive nr_rlc_mode_t := NR_RLC_AM | NR_RLC_UM | NR_RLC_TM.

(** The counters the entities maintain ([uint32_t] unless noted). *)
Record nr_rlc_statistics_t := mk_stats {
  mode : nr_rlc_mode_t;
  txpdu_pkts : Z;
  txpdu_bytes : Z;
  txpdu_retx_pkts : Z;
  txpdu_retx_bytes : Z;
  txpdu_segmented : Z;
  txpdu_status_pkts : Z;
  txpdu_status_bytes : Z;
  rxpdu_pkts : Z;
  rxpdu_bytes : Z;
  rxpdu_dup_pkts : Z;
  rxpdu_dup_bytes : Z;
  rxpdu_dd_pkts : Z;
  rxpdu_dd_bytes : Z;
  rxpdu_ow_pkts : Z;
  rxpdu_ow_bytes : Z;
  txsdu_pkts : Z;
  txsdu_bytes : Z;             (** [uint64_t] *)
  txsdu_wt_us : Z;
  rxsdu_pkts : Z;
  rxsdu_bytes : Z;             (** [uint64_t] *)
  rxsdu_dd_pkts : Z;
  rxsdu_dd_bytes : Z }.

#[export] Instance eta_stats : Eta nr_rlc_statistics_t := fun s =>
  mk_stats (mode s) (txpdu_pkts s) (txpdu_bytes s) (txpdu_retx_pkts s) (txpdu_retx_bytes s)
    (txpdu_segmented s) (txpdu_status_pkts s) (txpdu_status_bytes s) (rxpdu_pkts s) (rxpdu_bytes s)
    (rxpdu_dup_pkts s) (rxpdu_dup_bytes s) (rxpdu_dd_pkts s) (rxpdu_dd_bytes s) (rxpdu_ow_pkts s)
    (rxpdu_ow_bytes s) (txsdu_pkts s) (txsdu_bytes s) (txsdu_wt_us s) (rxsdu_pkts s) (rxsdu_bytes s)
    (rxsdu_dd_pkts s) (rxsdu_dd_bytes s).

Definition stats_zero (m : nr_rlc_mode_t) : nr_rlc_statistics_t :=
  mk_stats m 0 0 0 0 0 0 0 0 0 0 0 0 0 0 0 0 0 0 0 0 0 0.

(** [counter += n] on the unsigned counters. *)
Definition add32 (n x : Z) : Z := u32 (x + n).
Definition add64 (n x : Z) : Z := u64 (x + n).

Record nr_rlc_entity_buffer_status_t := mk_bstatus {
  status_size : Z;
  tx_size_ : Z;
  retx_size : Z }.

#[export] Instance eta_bstatus : Eta nr_rlc_entity_buffer_status_t := fun b =>
  mk_bstatus (status_size b) (tx_size_ b) (retx_size b).

Inductive rlc_call :=
| DeliverSdu (sdu : bytes)
| SduSuccessfulDelivery (sdu_id : Z)
| MaxRetxReached.

#[export] Instance rlc_call_eq_dec : EqDecision rlc_call.
Proof. solve_decision. Defined.

Record nr_rlc_entity_t := mk_common {
  bstatus : nr_rlc_entity_buffer_status_t;
  stats : nr_rlc_statistics_t;
  txsdu_avg_time_to_tx : time_average_t;
  avg_time_is_on : bool;
  calls : list rlc_call }.

#[export] Instance eta_common : Eta nr_rlc_entity_t := fun c =>
  mk_common (bstatus c) (stats c) (txsdu_avg_time_to_tx c) (avg_time_is_on c) (calls c).

(** [common.bstatus.tx_size += n], [common.bstatus.retx_size += n] *)
Definition bstatus_tx (n : Z) (c : nr_rlc_entity_t) : nr_rlc_entity_t :=
  c <| bstatus ::= fun b => b <| tx_size_ ::= Z.add n |> |>.
Definition bstatus_retx (n : Z) (c : nr_rlc_entity_t) : nr_rlc_entity_t :=
  c <| bstatus ::= fun b => b <| retx_size ::= Z.add n |> |>.

Definition call (ev : rlc_call) (c : nr_rlc_entity_t) : nr_rlc_entity_t :=
  c <| calls ::= fun l => l ++ [ev] |>.

(** The sojourn-time block of every [generate_tx_pdu]. *)
Definition time_average_tx (c : nr_rlc_entity_t) (sdu : nr_rlc_sdu_t) (time_now : Z)
  : res nr_rlc_entity_t :=
  if avg_time_is_on c then
    let waited_time := u64 (time_now - sdu_time_of_arrival sdu) in
    t ← time_average_add (txsdu_avg_time_to_tx c) time_now waited_time;
    mret (c <| txsdu_avg_time_to_tx := t |>)
  else mret c.

(** The header zeroed by [calloc] and the 100 ms window set by the constructors. *)
Definition new_common (m : nr_rlc_mode_t) : res nr_rlc_entity_t :=
  t ← time_average_new (100 * 1000) 1024;
  mret (mk_common (mk_bstatus 0 0 0) (stats_zero m) t false []).

Lemma time_average_tx_ok c sdu now : avg_wf (txsdu_avg_time_to_tx c) ->
  exists c', time_average_tx c sdu now = Ok c' /\ bstatus c' = bstatus c /\ calls c' = calls c /\
    stats c' = stats c /\ avg_time_is_on c' = avg_time_is_on c /\ avg_wf (txsdu_avg_time_to_tx c').
Proof.
  intros H. unfold time_average_tx. destruct (avg_time_is_on c) eqn:E.
  - destruct (time_average_add_spec _ now (u64 (now - sdu_time_of_arrival sdu)) H) as (t & -> & Hw & _).
    cbn. eexists. split; [done|]. cbn. by split_and!.
  - exists c. by split_and!.
Qed.

Lemma new_common_ok m : exists c, new_common m = Ok c /\ avg_wf (txsdu_avg_time_to_tx c) /\
  bstatus c = mk_bstatus 0 0 0 /\ calls c = [] /\ avg_time_is_on c = false.
Proof.
  unfold new_common. destruct (time_average_new (100 * 1000) 1024) as [t|f] eqn:E; [|discriminate E].
  cbn. eexists. split; [done|]. cbn. split_and!; try done.
  by apply (time_average_new_wf _ 1024) in E as [? _].
Qed.
