(* ===== verification/RlcTm.v ===== *)
(** * RLC transparent mode

    [nr_rlc_entity_tm.c] and its constructor in [nr_rlc_entity.c].  The
    transmitting side is a bounded queue of SDUs, the receiving side passes
    PDUs up. *)

From S2P Require Import Prelude RlcPdu RlcSdu TimeStat RlcEntity.

Module Tm.

Record nr_rlc_entity_tm_t := mk_tm {
  common : nr_rlc_entity_t;
  t_current : Z;
  t_log_buffer_full : Z;
  sdu_rejected : Z;
  heap : sdu_heap;
  tx_list : list nr_rlc_sdu_segment_t;
  tx_end : option addr;
  tx_size : Z;
  tx_maxsize : Z }.

#[export] Instance eta_tm : Eta nr_rlc_entity_tm_t := fun e =>
  mk_tm (common e) (t_current e) (t_log_buffer_full e) (sdu_rejected e) (heap e)
    (tx_list e) (tx_end e) (tx_size e) (tx_maxsize e).

Definition stat (f : nr_rlc_statistics_t -> nr_rlc_statistics_t) (e : nr_rlc_entity_tm_t) :=
  e <| common ::= fun c => c <| stats ::= f |> |>.

Definition nr_rlc_entity_tm_recv_pdu (e : nr_rlc_entity_tm_t) (buffer : bytes) (size : Z)
  : res nr_rlc_entity_tm_t :=
  let e := stat (fun s => s <| rxpdu_pkts ::= add32 1 |> <| rxpdu_bytes ::= add32 size |>) e in
  sdu ← slice buffer 0 size;
  let e := e <| common ::= call (DeliverSdu sdu) |> in
  mret (stat (fun s => s <| txsdu_pkts ::= add32 1 |> <| txsdu_bytes ::= add64 size |>) e).

Definition generate_tx_pdu (e : nr_rlc_entity_tm_t) (buffer : bytes) (size time_now : Z)
  : res (Z * bytes * nr_rlc_entity_tm_t) :=
  match tx_list e with
  | [] => mret (0, buffer, e)
  | sdu :: rest =>
      if seg_size sdu >? size then mret (0, buffer, e)
      else
        let e := e <| tx_list := rest |> in
        let e := match rest with [] => e <| tx_end := None |> | _ => e end in
        let ret := seg_size sdu in
        d ← sdu_of (heap e) sdu;
        src ← slice (sdu_data d) 0 (seg_size sdu);
        buffer ← blit buffer 0 src;
        let e := e <| tx_size ::= fun n => n - seg_size sdu |> in
        let e := stat (fun s => s <| txpdu_pkts ::= add32 1 |> <| txpdu_bytes ::= add32 size |>) e in
        c ← time_average_tx (common e) d time_now;
        let e := e <| common := bstatus_tx (- seg_size sdu) c |> in
        '(_, h) ← nr_rlc_free_sdu_segment (heap e) sdu;
        mret (ret, buffer, e <| heap := h |>)
  end.

Definition nr_rlc_entity_tm_buffer_status (e : nr_rlc_entity_tm_t) (maxsize : Z)
  : nr_rlc_entity_buffer_status_t :=
  mk_bstatus 0 (tx_size_ (bstatus (common e))) 0.

Definition nr_rlc_entity_tm_generate_pdu (e : nr_rlc_entity_tm_t) (buffer : bytes) (size time_now : Z)
  : res (Z * bytes * nr_rlc_entity_tm_t) :=
  generate_tx_pdu e buffer size time_now.

Definition nr_rlc_entity_tm_recv_sdu (e : nr_rlc_entity_tm_t) (buffer : bytes) (size sdu_id time_now : Z)
  : res nr_rlc_entity_tm_t :=
  let e := stat (fun s => s <| rxsdu_pkts ::= add32 1 |> <| rxsdu_bytes ::= add64 size |>) e in
  if size >? NR_SDU_MAX then Err Exit
  else
    let e :=
      if negb (sdu_rejected e =? 0) && (t_current e >? u64 (t_log_buffer_full e + 1000))
      then e <| sdu_rejected := 0 |> <| t_log_buffer_full := t_current e |> else e in
    if tx_size e + size >? tx_maxsize e then
      let e := e <| sdu_rejected ::= Z.succ |> in
      mret (stat (fun s => s <| rxsdu_dd_pkts ::= add32 1 |> <| rxsdu_dd_bytes ::= add32 size |>) e)
    else
      let e := e <| tx_size ::= Z.add size |> in
      '(sdu, h) ← nr_rlc_new_sdu (heap e) buffer size sdu_id;
      '(l, en) ← nr_rlc_sdu_segment_list_append (tx_list e) (tx_end e) sdu;
      let e := e <| heap := h |> <| tx_list := l |> <| tx_end := en |> in
      let e := e <| common ::= bstatus_tx (seg_size sdu) |> in
      if avg_time_is_on (common e) then
        h ← sdu_upd (fun d => d <| sdu_time_of_arrival := time_now |>) (heap e) sdu;
        mret (e <| heap := h |>)
      else mret e.

Definition nr_rlc_entity_tm_set_time (e : nr_rlc_entity_tm_t) (now : Z) : nr_rlc_entity_tm_t :=
  e <| t_current := now |>.

Definition nr_rlc_entity_tm_discard_sdu (e : nr_rlc_entity_tm_t) (sdu_id : Z) : nr_rlc_entity_tm_t := e.

Definition clear_entity (e : nr_rlc_entity_tm_t) : res nr_rlc_entity_tm_t :=
  let e := e <| t_current := 0 |> <| t_log_buffer_full := 0 |> <| sdu_rejected := 0 |> in
  h ← nr_rlc_free_sdu_segment_list (heap e) (tx_list e);
  let e := e <| heap := h |> <| tx_list := [] |> <| tx_end := None |> <| tx_size := 0 |> in
  mret (e <| common ::= fun c => c <| bstatus ::= fun b => b <| tx_size_ := 0 |> |> |>).

Definition nr_rlc_entity_tm_reestablishment (e : nr_rlc_entity_tm_t) : res nr_rlc_entity_tm_t :=
  clear_entity e.

(** What is still allocated when the entity itself is freed. *)
Definition nr_rlc_entity_tm_delete (e : nr_rlc_entity_tm_t) : res sdu_heap :=
  e ← clear_entity e; mret (heap e).

Definition nr_rlc_entity_tm_available_tx_space (e : nr_rlc_entity_tm_t) : Z :=
  tx_maxsize e - tx_size e.

Definition new_nr_rlc_entity_tm (tx_maxsize : Z) : res nr_rlc_entity_tm_t :=
  c ← new_common NR_RLC_TM;
  mret (mk_tm c 0 0 0 heap_empty [] None 0 tx_maxsize).

(** ** The queue the entity implements *)

(** Sum of the sizes of the queued segments. *)
Fixpoint seg_bytes (l : list nr_rlc_sdu_segment_t) : Z :=
  match l with [] => 0 | s :: l => seg_size s + seg_bytes l end.

Lemma seg_bytes_app l1 l2 : seg_bytes (l1 ++ l2) = seg_bytes l1 + seg_bytes l2.
Proof. induction l1; cbn; lia. Qed.

(** A queued segment is a whole live SDU; [whole h s q] relates it to its bytes. *)
Definition whole (h : sdu_heap) (s : nr_rlc_sdu_segment_t) (q : bytes) : Prop :=
  exists d, h_sdus h !! seg_sdu s = Some d /\ sdu_data d = q /\ seg_size s = zlen q /\
    sdu_ref_count d = 1 /\ sdu_free_count d = 0.

(** [tm_queue e q]: the entity is well formed and its queue holds the SDUs [q]. *)
Record tm_queue (e : nr_rlc_entity_tm_t) (q : list bytes) : Prop := {
  tq_heap : heap_ok (heap e) (tx_list e);
  tq_tail : tail_ok (tx_list e) (tx_end e);
  tq_data : Forall2 (whole (heap e)) (tx_list e) q;
  tq_size : tx_size e = seg_bytes (tx_list e);
  tq_bst : tx_size_ (bstatus (common e)) = tx_size e;
  tq_max : 0 <= tx_size e <= tx_maxsize e;
  tq_avg : avg_wf (txsdu_avg_time_to_tx (common e)) }.

Definition queue_bytes (q : list bytes) : Z := seg_bytes ((fun d => mk_seg 1 1 (zlen d) 0 true true) <$> q).

Lemma queue_bytes_cons d q : queue_bytes (d :: q) = zlen d + queue_bytes q.
Proof. done. Qed.

Lemma tm_queue_bytes e q : tm_queue e q -> tx_size e = queue_bytes q.
Proof.
  intros H. rewrite (tq_size _ _ H). pose proof (tq_data _ _ H) as F. clear H.
  induction F as [|s d l q (? & _ & _ & E & _) F IH]; [done|].
  rewrite queue_bytes_cons. cbn [seg_bytes]. lia.
Qed.

(** *** The operations on the queue *)

Lemma whole_frame h h' l q :
  Forall2 (whole h) l q ->
  (forall s, s ∈ l -> h_sdus h' !! seg_sdu s = h_sdus h !! seg_sdu s) ->
  Forall2 (whole h') l q.
Proof.
  induction 1 as [|s d l q (x & Hx & Hr) F IH]; intros Hf; constructor.
  - exists x. split; [|done]. rewrite Hf by set_solver. done.
  - apply IH. intros t Ht. apply Hf. set_solver.
Qed.

Lemma recv_sdu_queue e q buffer sdu_id now :
  tm_queue e q -> zlen buffer <= NR_SDU_MAX ->
  exists e', nr_rlc_entity_tm_recv_sdu e buffer (zlen buffer) sdu_id now = Ok e' /\
    tx_maxsize e' = tx_maxsize e /\
    tm_queue e' (if queue_bytes q + zlen buffer <=? tx_maxsize e then q ++ [buffer] else q).
Proof.
  intros H Hs. rewrite <- (tm_queue_bytes _ _ H). destruct H. pose proof (zlen_nonneg buffer).
  unfold nr_rlc_entity_tm_recv_sdu. rewrite Z.gtb_ltb, (proj2 (Z.ltb_ge _ _)) by lia.
  set (e1 := if _ && _ then _ else _).
  assert (F : common e1 = common (stat (fun s => s <| rxsdu_pkts ::= add32 1 |>
      <| rxsdu_bytes ::= add64 (zlen buffer) |>) e) /\ heap e1 = heap e /\ tx_list e1 = tx_list e /\
      tx_end e1 = tx_end e /\ tx_size e1 = tx_size e /\ tx_maxsize e1 = tx_maxsize e)
    by (unfold e1; case_if; done).
  clearbody e1. destruct F as (F1 & F2 & F3 & F4 & F5 & F6). rewrite F5, F6, Z.gtb_ltb.
  destruct (Z.leb_spec (tx_size e + zlen buffer) (tx_maxsize e)).
  - rewrite (proj2 (Z.ltb_ge _ _)) by lia. cbn.
    rewrite F2, F3, F4.
    destruct (new_sdu_ok (heap e) (tx_list e) buffer (zlen buffer) sdu_id) as
      (s & h & -> & Hk & _ & Z1 & Z2 & Z3 & Z4 & Z5 & Z6); [done|lia|]. cbn [mbind res_bind].
    destruct (append_ok (tx_list e) (tx_end e) s tq_tail0) as [-> Ht].
    { pose proof (ho_nodup _ _ Hk) as Hn. by apply NoDup_cons in Hn as [? _]. }
    cbn.
    assert (Hk' : heap_ok h (tx_list e ++ [s])) by (by rewrite <- Permutation_cons_append).
    set (d := mk_sdu (-1) sdu_id _ _ _ _ _ _) in Z6.
    assert (Hd : h_sdus h !! seg_sdu s = Some d) by (by rewrite Z6, lookup_insert_eq).
    assert (Hw : Forall2 (whole h) (tx_list e ++ [s]) (q ++ [buffer])).
    { apply Forall2_app.
      - eapply whole_frame; [done|]. intros t Hin. rewrite Z6, lookup_insert_ne; [done|].
        intros E. destruct (ho_live _ _ tq_heap0 t Hin) as [x Hx]. congruence.
      - constructor; [|done]. exists d. cbn. split_and!; try done.
        rewrite firstn_all2; [done|unfold zlen; lia]. }
    assert (Q : forall h', heap_ok h' (tx_list e ++ [s]) -> Forall2 (whole h') (tx_list e ++ [s]) (q ++ [buffer]) ->
      tm_queue (e1 <| tx_size ::= Z.add (zlen buffer) |> <| heap := h' |> <| tx_list := tx_list e ++ [s] |>
        <| tx_end := Some (seg_addr s) |> <| common ::= bstatus_tx (seg_size s) |>) (q ++ [buffer])).
    { intros h' K1 K2. split; cbn; rewrite ?F1, ?F5, ?F6, ?seg_bytes_app; cbn; try done; try lia. }
    case_if.
    + destruct (sdu_upd_ok (fun d => d <| sdu_time_of_arrival := now |>) h s (tx_list e ++ [s]) d Hk' Hd)
        as (h' & E' & Hk2 & _ & ->); [by cbn|].
      cbn in E'. rewrite E'. cbn.
      eexists. split; [reflexivity|]. split; [done|]. apply (Q _ Hk2).
      apply Forall2_app; [|constructor; [|done]].
      * apply Forall2_app_inv in Hw as [Hw _]; [|by apply Forall2_length in tq_data0].
        eapply whole_frame; [exact Hw|]. intros t Hin. cbn. rewrite lookup_insert_ne; [done|].
        intros E2. destruct (ho_live _ _ tq_heap0 t Hin) as [x Hx]. congruence.
      * eexists. cbn. rewrite lookup_insert_eq. split_and!; try done. cbn.
        rewrite firstn_all2; [done|unfold zlen; lia].
    + eexists. split; [reflexivity|]. split; [done|]. by apply (Q h).
  - rewrite (proj2 (Z.ltb_lt _ _)) by lia. eexists. split; [reflexivity|]. split; [done|].
    split; cbn; rewrite ?F1, ?F2, ?F3, ?F4, ?F5, ?F6; try done; lia.
Qed.

Lemma generate_queue e q buffer size now :
  tm_queue e q -> 0 <= size <= zlen buffer ->
  exists ret buffer' e', nr_rlc_entity_tm_generate_pdu e buffer size now = Ok (ret, buffer', e') /\
    tx_maxsize e' = tx_maxsize e /\
    match q with
    | d :: q' =>
        if zlen d <=? size
        then ret = zlen d /\ take (Z.to_nat ret) buffer' = d /\ tm_queue e' q'
        else ret = 0 /\ buffer' = buffer /\ e' = e
    | [] => ret = 0 /\ buffer' = buffer /\ e' = e
    end.
Proof.
  intros [] Hz. unfold nr_rlc_entity_tm_generate_pdu, generate_tx_pdu.
  destruct tq_data0 as [|s d l q (x & Hx & Hd & Hs & Hr & Hf) F].
  { do 3 eexists. split; [reflexivity|]. done. }
  pose proof (zlen_nonneg d). rewrite Z.gtb_ltb, Hs.
  destruct (Z.leb_spec (zlen d) size).
  2: { rewrite (proj2 (Z.ltb_lt _ _)) by lia. do 3 eexists. split; [reflexivity|]. done. }
  rewrite (proj2 (Z.ltb_ge _ _)) by lia.
  set (e1 := match l with [] => _ | _ => _ end).
  assert (E1 : e1 = e <| tx_list := l |> <| tx_end := match l with [] => None | _ => tx_end e end |>)
    by (unfold e1; destruct e, l; done).
  clearbody e1. subst e1. cbn. unfold sdu_of. rewrite Hx. cbn.
  rewrite Hd, slice_ok by lia. rewrite drop_0, firstn_all2 by (unfold zlen; lia). cbn.
  rewrite blit_ok by lia. cbn.
  match goal with |- context [time_average_tx ?c ?x ?n] =>
    destruct (time_average_tx_ok c x n) as (c' & -> & C1 & C2 & C3 & C4 & C5); [done|] end.
  cbn in C1 |- *.
  destruct (free_sdu_segment_ok _ _ _ _ tq_heap0 Hx) as (b & h & -> & Hk & _ & Hb & Hfr & _). cbn.
  do 3 eexists. split; [reflexivity|]. split; [done|]. split_and!; [done| |].
  - unfold zlen. rewrite Nat2Z.id. change (Z.to_nat 0) with O. rewrite take_0, app_nil_l.
    apply take_app_length.
  - split; cbn; try done.
    + by apply tail_ok_cons in tq_tail0.
    + eapply whole_frame; [exact F|]. intros t Ht. apply Hfr. intros E.
      pose proof (ho_count _ _ tq_heap0 _ _ Hx) as [Hc _]. rewrite refs_cons, decide_True in Hc by done.
      assert (refs (seg_sdu s) l = 0) as Hz0 by lia.
      by apply (proj1 (refs_zero _ _) Hz0 t Ht).
    + cbn in tq_size0. lia.
    + rewrite C1. lia.
    + cbn in tq_size0. assert (0 <= seg_bytes l); [|lia].
      clear -F. induction F as [|t d l q (? & _ & _ & E & _) F IH]; cbn; [lia|].
      pose proof (zlen_nonneg d). lia.
Qed.

Lemma clear_queue e q : tm_queue e q ->
  exists e', clear_entity e = Ok e' /\ tx_maxsize e' = tx_maxsize e /\ tm_queue e' [] /\ h_sdus (heap e') = ∅.
Proof.
  intros []. unfold clear_entity. cbn.
  destruct (free_sdu_segment_list_ok (tx_list e) (heap e) []) as (h & -> & Hk).
  { by rewrite app_nil_r. }
  cbn. eexists. split; [reflexivity|]. split_and!; [done| |by apply heap_ok_nil].
  split; cbn; auto with l2; try done; lia.
Qed.

(** ** Refinement of a bounded queue *)

Inductive tm_op :=
| Send (sdu : bytes) (sdu_id now : Z)
| Grant (size now : Z)
| Time (now : Z)
| Discard (sdu_id : Z)
| Reestablish.

(** What the specification does: accept an SDU that fits, hand out the oldest
    SDU that fits the grant, drop everything on re-establishment. *)
Definition spec_step (maxsize : Z) (q : list bytes) (op : tm_op) : list bytes * option bytes :=
  match op with
  | Send sdu _ _ => (if queue_bytes q + zlen sdu <=? maxsize then q ++ [sdu] else q, None)
  | Grant size _ =>
      match q with
      | d :: q' => if zlen d <=? size then (q', Some d) else (q, Some [])
      | [] => ([], Some [])
      end
  | Time _ | Discard _ => (q, None)
  | Reestablish => ([], None)
  end.

(** The entity run on the same operations; a grant comes with a transport
    block of its size, and the PDU is what the entity wrote to it. *)
Definition impl_step (e : nr_rlc_entity_tm_t) (op : tm_op) : res (nr_rlc_entity_tm_t * option bytes) :=
  match op with
  | Send sdu id now => e ← nr_rlc_entity_tm_recv_sdu e sdu (zlen sdu) id now; mret (e, None)
  | Grant size now =>
      '(ret, b, e) ← nr_rlc_entity_tm_generate_pdu e (replicate (Z.to_nat size) 0) size now;
      mret (e, Some (take (Z.to_nat ret) b))
  | Time now => mret (nr_rlc_entity_tm_set_time e now, None)
  | Discard id => mret (nr_rlc_entity_tm_discard_sdu e id, None)
  | Reestablish => e ← nr_rlc_entity_tm_reestablishment e; mret (e, None)
  end.

Fixpoint spec_run (maxsize : Z) (q : list bytes) (ops : list tm_op) : list (option bytes) :=
  match ops with
  | [] => []
  | op :: ops => let '(q, o) := spec_step maxsize q op in o :: spec_run maxsize q ops
  end.

Fixpoint impl_run (e : nr_rlc_entity_tm_t) (ops : list tm_op) : res (list (option bytes)) :=
  match ops with
  | [] => mret []
  | op :: ops => '(e, o) ← impl_step e op; os ← impl_run e ops; mret (o :: os)
  end.

Definition op_ok (op : tm_op) : Prop :=
  match op with
  | Send sdu _ _ => zlen sdu <= NR_SDU_MAX
  | Grant size _ => 0 <= size
  | _ => True
  end.

Lemma impl_step_sim e q op :
  tm_queue e q -> op_ok op ->
  exists e', impl_step e op = Ok (e', (spec_step (tx_maxsize e) q op).2) /\
    tm_queue e' (spec_step (tx_maxsize e) q op).1 /\ tx_maxsize e' = tx_maxsize e.
Proof.
  intros H Hop. destruct op as [sdu id now|size now|now|id|]; cbn [impl_step spec_step op_ok] in *.
  - destruct (recv_sdu_queue e q sdu id now H Hop) as (e' & -> & ? & ?). cbn. eauto.
  - set (b := replicate (Z.to_nat size) 0).
    destruct (generate_queue e q b size now H) as (r & b' & e' & -> & Hm & G).
    { unfold b, zlen. rewrite length_replicate. lia. }
    cbn [mbind res_bind]. destruct q as [|d q].
    + destruct G as (-> & -> & ->). eauto.
    + destruct (zlen d <=? size).
      * destruct G as (-> & E & ?). exists e'. cbn. rewrite E. done.
      * destruct G as (-> & -> & ->). eauto.
  - eexists. split; [done|]. destruct H. by split.
  - eexists. split; [done|]. by split.
  - destruct (clear_queue e q H) as (e' & E & ? & ? & _).
    unfold nr_rlc_entity_tm_reestablishment. rewrite E. cbn. eauto.
Qed.

Lemma new_queue maxsize : 0 <= maxsize ->
  exists e, new_nr_rlc_entity_tm maxsize = Ok e /\ tm_queue e [] /\ tx_maxsize e = maxsize.
Proof.
  intros Hm. unfold new_nr_rlc_entity_tm. destruct (new_common_ok NR_RLC_TM) as (c & -> & Hw & Hb & _).
  cbn. eexists. split; [reflexivity|]. split; [|done].
  split; cbn; rewrite ?Hb; auto with l2; try done; lia.
Qed.

(** A transparent-mode entity is a bounded FIFO of SDUs: from its creation,
    for every sequence of SDUs (of at most NR_SDU_MAX bytes), grants, time
    ticks, discards and re-establishments, no step faults and the PDUs handed to
    the MAC are exactly those of the queue. *)
Theorem tm_refines_bounded_queue maxsize ops :
  0 <= maxsize -> Forall op_ok ops ->
  exists e, new_nr_rlc_entity_tm maxsize = Ok e /\ impl_run e ops = Ok (spec_run maxsize [] ops).
Proof.
  intros Hm Hops. destruct (new_queue maxsize Hm) as (e & -> & Hq & <-).
  exists e. split; [done|]. revert e Hq Hm. generalize (@nil bytes) as q.
  induction Hops as [|op ops Hop Hops IH]; intros q e Hq Hm; [done|]. cbn [impl_run spec_run].
  destruct (impl_step_sim e q op Hq Hop) as (e' & -> & Hq' & Hm'). cbn [mbind res_bind].
  rewrite <- Hm' in *. destruct (spec_step (tx_maxsize e') q op) as [q' o].
  cbn in *. rewrite (IH q' e') by done. done.
Qed.

(** Witness: the second SDU does not fit the buffer, the first grant is too small. *)
Lemma tm_refines_bounded_queue_witness :
  exists e, new_nr_rlc_entity_tm 4 = Ok e /\
    impl_run e [Send [1; 2; 3] 7 0; Send [4; 5] 8 0; Grant 2 0; Grant 8 0; Grant 8 0]
      = Ok [None; None; Some []; Some [1; 2; 3]; Some []].
Proof.
  apply (tm_refines_bounded_queue 4
    [Send [1; 2; 3] 7 0; Send [4; 5] 8 0; Grant 2 0; Grant 8 0; Grant 8 0]).
  - lia.
  - repeat constructor; cbn; unfold zlen, NR_SDU_MAX; cbn; lia.
Defined.

End Tm.
