(* ===== verification/RlcRx.v ===== *)
(** * Reassembly on a reception list

    The functions that [nr_rlc_entity_am.c] and [nr_rlc_entity_um.c] both have
    (same text): search for an SN, completeness tests and reassembly.  They
    work on the ordered list of received segments. *)

From S2P Require Import Prelude RlcPdu RlcEntity.

Module Rx.

(** [while (l != NULL) { if (l->sn == sn) break; l = l->next; }] *)
Fixpoint find_sn (sn : Z) (l : list nr_rlc_pdu_t) : list nr_rlc_pdu_t :=
  match l with
  | [] => []
  | p :: l' => if pdu_sn p =? sn then l else find_sn sn l'
  end.

Fixpoint full_from (sn last_byte : Z) (l : list nr_rlc_pdu_t) : bool :=
  match l with
  | [] => false
  | p :: l' =>
      if negb (pdu_sn p =? sn) then false
      else if pdu_so p >? last_byte + 1 then false
      else if pdu_is_last p then true
      else
        let new_last_byte := pdu_so p + pdu_size p - 1 in
        full_from sn (if new_last_byte >? last_byte then new_last_byte else last_byte) l'
  end.

Definition sdu_full (rx_list : list nr_rlc_pdu_t) (sn : Z) : bool :=
  match find_sn sn rx_list with
  | [] => false
  | p :: l => match pdu_data p with None => false | Some _ => full_from sn (-1) (p :: l) end
  end.

Definition sdu_delivered (rx_list : list nr_rlc_pdu_t) (sn : Z) : bool :=
  match find_sn sn rx_list with
  | [] => false
  | p :: _ => match pdu_data p with None => true | Some _ => false end
  end.

Fixpoint missing_from (sn last_byte : Z) (l : list nr_rlc_pdu_t) : bool :=
  match l with
  | [] => false
  | p :: l' =>
      if negb (pdu_sn p =? sn) then false
      else if pdu_so p >? last_byte + 1 then true
      else
        let new_last_byte := pdu_so p + pdu_size p - 1 in
        missing_from sn (if new_last_byte >? last_byte then new_last_byte else last_byte) l'
  end.

Definition sdu_has_missing_bytes (rx_list : list nr_rlc_pdu_t) (sn : Z) : bool :=
  match find_sn sn rx_list with
  | [] => false
  | p :: l => match pdu_data p with None => false | Some _ => missing_from sn (-1) (p :: l) end
  end.

(** The reassembly loop from the first segment of [sn] on.  [acc] is the part of
    [char sdu[NR_SDU_MAX]] written so far (its length is the variable [so]),
    [mark] what the entity does to a processed segment. *)
Fixpoint reassemble_loop (mark : nr_rlc_pdu_t -> nr_rlc_pdu_t) (sn : Z)
    (l : list nr_rlc_pdu_t) (acc : bytes) (bad_sdu : bool) (rx_size : Z)
  : res (list nr_rlc_pdu_t * bytes * bool * Z) :=
  match l with
  | [] => mret ([], acc, bad_sdu, rx_size)
  | pdu :: l' =>
      if negb (pdu_sn pdu =? sn) then mret (l, acc, bad_sdu, rx_size)
      else
        let so := zlen acc in
        let len := pdu_size pdu - (so - pdu_so pdu) in
        let bad_sdu := bad_sdu || (so + len >? NR_SDU_MAX) in
        acc ← (if negb bad_sdu && (len >? 0) then
                 data ← deref (pdu_data pdu);
                 s ← slice data (so - pdu_so pdu) len;
                 mret (acc ++ s)
               else mret acc);
        '(l', acc, bad_sdu, rx_size) ←
           reassemble_loop mark sn l' acc bad_sdu (rx_size - pdu_size pdu);
        mret (mark pdu :: l', acc, bad_sdu, rx_size)
  end.

(** [while (pdu->sn != sn) pdu = pdu->next;] then the loop. *)
Fixpoint reassemble (mark : nr_rlc_pdu_t -> nr_rlc_pdu_t) (sn : Z)
    (l : list nr_rlc_pdu_t) (rx_size : Z)
  : res (list nr_rlc_pdu_t * bytes * bool * Z) :=
  match l with
  | [] => Err Null
  | pdu :: l' =>
      if pdu_sn pdu =? sn then reassemble_loop mark sn l [] false rx_size
      else
        '(l', acc, bad_sdu, rx_size) ← reassemble mark sn l' rx_size;
        mret (pdu :: l', acc, bad_sdu, rx_size)
  end.

(** ** Segments of an SDU *)

(** [p] holds a segment of the SDU [D]. *)
Definition seg_of (D : bytes) (p : nr_rlc_pdu_t) : Prop :=
  0 <= pdu_so p /\ 0 < pdu_size p /\ pdu_so p + pdu_size p <= zlen D /\
  pdu_data p = Some (take (Z.to_nat (pdu_size p)) (drop (Z.to_nat (pdu_so p)) D)) /\
  (pdu_is_last p = true <-> pdu_so p + pdu_size p = zlen D).

(** [segs] are the segments of one SDU, [rest] starts with another SN. *)
Definition run_of (sn : Z) (segs rest : list nr_rlc_pdu_t) : Prop :=
  Forall (fun p => pdu_sn p = sn) segs /\ (forall q, head rest = Some q -> pdu_sn q <> sn).

Definition sum_size (l : list nr_rlc_pdu_t) : Z := total (pdu_size <$> l).

Lemma sum_size_cons p l : sum_size (p :: l) = pdu_size p + sum_size l.
Proof. done. Qed.

Lemma sum_size_app l1 l2 : sum_size (l1 ++ l2) = sum_size l1 + sum_size l2.
Proof. induction l1; [done|]. cbn [app]. rewrite !sum_size_cons. lia. Qed.

#[export] Instance sum_size_perm : Proper ((≡ₚ) ==> (=)) sum_size.
Proof. intros l1 l2 E. induction E; rewrite ?sum_size_cons; lia || done. Qed.

Lemma take_slice {A} (D : list A) (a b so : nat) : (so <= a <= b)%nat -> (b <= length D)%nat ->
  take a D ++ take (b - a) (drop (a - so) (take (b - so) (drop so D))) = take b D.
Proof.
  intros H Hb. rewrite skipn_firstn_comm, drop_drop, take_take.
  replace (so + (a - so))%nat with a by lia.
  replace ((b - a) `min` (b - so - (a - so)))%nat with (b - a)%nat by lia.
  rewrite <- (firstn_skipn a (take b D)), take_take, skipn_firstn_comm.
  by replace (a `min` b)%nat with a by lia.
Qed.

(** After the whole SDU is there, the remaining segments change nothing. *)
Lemma reassemble_loop_done mark sn D segs rest rx :
  run_of sn segs rest -> Forall (seg_of D) segs -> zlen D <= NR_SDU_MAX ->
  reassemble_loop mark sn (segs ++ rest) D false rx =
    Ok ((mark <$> segs) ++ rest, D, false, rx - sum_size segs).
Proof.
  intros [Hsn Hrest] HF HD. revert rx Hsn. induction HF as [|p segs Hp HF IH]; intros rx Hsn; cbn [app fmap list_fmap].
  - change (sum_size []) with 0. rewrite Z.sub_0_r. destruct rest as [|q rest]; [done|]. cbn [reassemble_loop].
    rewrite (proj2 (Z.eqb_neq _ _)) by (by apply Hrest). done.
  - apply Forall_cons in Hsn as [E Hsn']. cbn [reassemble_loop].
    rewrite E, Z.eqb_refl. cbn [negb orb]. destruct Hp as (H1 & H2 & H3 & H4 & H5).
    rewrite Z.gtb_ltb, (proj2 (Z.ltb_ge NR_SDU_MAX _)) by lia. cbn [negb andb].
    rewrite Z.gtb_ltb, (proj2 (Z.ltb_ge 0 _)) by lia. mon. rewrite IH by done. mon. by rewrite sum_size_cons, Z.sub_add_distr.
Qed.

(** The loop of a full SDU rebuilds it. *)
Lemma reassemble_loop_full mark sn D segs rest last rx :
  run_of sn segs rest -> Forall (seg_of D) segs -> zlen D <= NR_SDU_MAX ->
  -1 <= last < zlen D -> full_from sn last (segs ++ rest) = true ->
  reassemble_loop mark sn (segs ++ rest) (take (Z.to_nat (last + 1)) D) false rx =
    Ok ((mark <$> segs) ++ rest, D, false, rx - sum_size segs).
Proof.
  intros [Hsn Hrest] HF HD. revert last rx Hsn.
  induction HF as [|p segs Hp HF IH]; intros last rx Hsn Hlast Hfull.
  { cbn in Hfull. destruct rest as [|q rest]; [done|]. cbn in Hfull.
    rewrite (proj2 (Z.eqb_neq _ _)) in Hfull by (by apply Hrest). done. }
  apply Forall_cons in Hsn as [E Hsn'].
  destruct Hp as (H1 & H2 & H3 & H4 & H5).
  cbn [app full_from] in Hfull. rewrite E, Z.eqb_refl in Hfull. cbn [negb] in Hfull.
  destruct (pdu_so p >? last + 1) eqn:Eso; [done|]. bool_prop.
  cbn [app reassemble_loop fmap list_fmap]. rewrite E, Z.eqb_refl. cbn [negb orb].
  assert (Hacc : zlen (take (Z.to_nat (last + 1)) D) = last + 1)
    by (unfold zlen in *; rewrite length_take; lia).
  rewrite Hacc. rewrite Z.gtb_ltb, (proj2 (Z.ltb_ge NR_SDU_MAX _)) by lia. cbn [negb andb].
  set (acc' := if pdu_size p - (last + 1 - pdu_so p) >? 0 then _ else _).
  set (last' := if pdu_so p + pdu_size p - 1 >? last then pdu_so p + pdu_size p - 1 else last) in *.
  assert (Hl' : last' = Z.max last (pdu_so p + pdu_size p - 1)) by (unfold last'; case_if; bool_prop; lia).
  assert (Ea : acc' = Ok (take (Z.to_nat (last' + 1)) D)).
  { unfold acc'. case_if; bool_prop.
    - rewrite H4. cbn [deref]; mon.
      rewrite slice_ok by (unfold zlen in *; rewrite ?length_take, ?length_drop; lia).
      mon. f_equal. rewrite Hl'.
      pose proof (take_slice D (Z.to_nat (last + 1)) (Z.to_nat (pdu_so p + pdu_size p)) (Z.to_nat (pdu_so p))) as T.
      replace (Z.to_nat (Z.max last (pdu_so p + pdu_size p - 1) + 1)) with (Z.to_nat (pdu_so p + pdu_size p)) by lia.
      rewrite <- T by (unfold zlen in *; lia). f_equal. f_equal; [lia|]. f_equal; [lia|]. f_equal. lia.
    - unfold mret, res_ret. f_equal. f_equal. lia. }
  rewrite Ea. mon.
  assert (R : reassemble_loop mark sn (segs ++ rest) (take (Z.to_nat (last' + 1)) D) false (rx - pdu_size p)
     = Ok ((mark <$> segs) ++ rest, D, false, rx - pdu_size p - sum_size segs)).
  { destruct (pdu_is_last p) eqn:Elast.
    - replace (take (Z.to_nat (last' + 1)) D) with D; [by apply reassemble_loop_done|].
      apply proj1 in H5. specialize (H5 eq_refl). symmetry. apply firstn_all2. unfold zlen in *. lia.
    - apply IH; [done|lia|done]. }
  rewrite R. mon. by rewrite sum_size_cons, Z.sub_add_distr.
Qed.

(** ** The list around a run of segments *)

(** [l] holds, for [sn], the segments [segs] of [D], in the order of their offsets. *)
Record holds (l : list nr_rlc_pdu_t) (sn : Z) (D : bytes)
    (pre segs rest : list nr_rlc_pdu_t) : Prop := {
  h_split : l = pre ++ segs ++ rest;
  h_pre : Forall (fun p => pdu_sn p <> sn) pre;
  h_run : Forall (fun p => pdu_sn p = sn) segs;
  h_rest : Forall (fun p => pdu_sn p <> sn) rest;
  h_segs : Forall (seg_of D) segs;
  h_sorted : StronglySorted (fun p q => pdu_so p <= pdu_so q) segs;
  h_data : 0 < zlen D <= NR_SDU_MAX }.

Lemma holds_run l sn D pre segs rest : holds l sn D pre segs rest -> run_of sn segs rest.
Proof.
  intros []. split; [done|]. intros q Hq. rewrite Forall_forall in h_rest0. apply h_rest0.
  destruct rest; [done|]. cbn in Hq. simplify_eq. set_solver.
Qed.

Lemma find_sn_skip sn pre l : Forall (fun p => pdu_sn p <> sn) pre ->
  find_sn sn (pre ++ l) = find_sn sn l.
Proof.
  induction 1 as [|p pre Hp _ IH]; [done|]. cbn. by rewrite (proj2 (Z.eqb_neq _ _)).
Qed.

Lemma find_sn_none sn l : Forall (fun p => pdu_sn p <> sn) l -> find_sn sn l = [].
Proof. intros H. rewrite <- (app_nil_r l). by rewrite find_sn_skip. Qed.

Lemma find_sn_holds l sn D pre segs rest : holds l sn D pre segs rest ->
  find_sn sn l = match segs with [] => [] | _ => segs ++ rest end.
Proof.
  intros []. subst. rewrite find_sn_skip by done. destruct segs as [|p segs].
  - by apply find_sn_none.
  - apply Forall_cons in h_run0 as [E _]. cbn. by rewrite E, Z.eqb_refl.
Qed.

Lemma reassemble_skip mark sn pre l rx :
  Forall (fun p => pdu_sn p <> sn) pre ->
  reassemble mark sn (pre ++ l) rx =
    ('(l', acc, bad, rx) ← reassemble mark sn l rx; mret (pre ++ l', acc, bad, rx)).
Proof.
  induction 1 as [|p pre Hp _ IH].
  - cbn [app]. by destruct (reassemble mark sn l rx) as [[[[]]]|].
  - cbn [app reassemble]. rewrite (proj2 (Z.eqb_neq _ _)), IH by done.
    by destruct (reassemble mark sn l rx) as [[[[]]]|].
Qed.

(** Some segment has byte [b]. *)
Definition covered (segs : list nr_rlc_pdu_t) (b : Z) : Prop :=
  exists p, p ∈ segs /\ pdu_so p <= b < pdu_so p + pdu_size p.

Lemma covered_cons p segs b :
  covered (p :: segs) b <-> pdu_so p <= b < pdu_so p + pdu_size p \/ covered segs b.
Proof. unfold covered. set_solver. Qed.

Lemma full_from_covered sn D segs rest last :
  run_of sn segs rest -> Forall (seg_of D) segs ->
  StronglySorted (fun p q => pdu_so p <= pdu_so q) segs -> -1 <= last < zlen D - 1 ->
  full_from sn last (segs ++ rest) = true <-> forall b, last < b < zlen D -> covered segs b.
Proof.
  intros [Hsn Hrest] HF HS. revert last Hsn.
  induction HS as [|p segs HS IH Hle]; intros last Hsn Hl.
  - split; [|intros H; destruct (H (last + 1)) as (? & []%not_elem_of_nil & _); lia].
    destruct rest as [|q rest]; [done|]. cbn.
    rewrite (proj2 (Z.eqb_neq _ _)); [done|by apply Hrest].
  - apply Forall_cons in Hsn as [E Hsn]. apply Forall_cons in HF as [Hp HF].
    destruct Hp as (H1 & H2 & H3 & _ & H5).
    cbn [app full_from]. rewrite E, Z.eqb_refl. cbn [negb].
    destruct (pdu_so p >? last + 1) eqn:Eso; bool_prop.
    { split; [done|]. intros H. destruct (H (last + 1)) as (q & Hq & Hb); [lia|].
      apply elem_of_cons in Hq as [->|Hq]; [lia|]. rewrite Forall_forall in Hle.
      specialize (Hle q Hq). lia. }
    destruct (pdu_is_last p) eqn:El.
    { split; [|done]. intros _ b Hb. apply covered_cons. left. pose proof (proj1 H5 eq_refl). lia. }
    assert (pdu_so p + pdu_size p <> zlen D) by (intros Eq; apply H5 in Eq; done).
    set (last' := if _ >? _ then _ else _).
    assert (Hl' : last' = Z.max last (pdu_so p + pdu_size p - 1)) by (unfold last'; case_if; bool_prop; lia).
    rewrite (IH HF last') by (done || lia). setoid_rewrite covered_cons.
    split; intros Hc b Hb.
    + destruct (Z.le_gt_cases b last'); [left; lia|]. right. apply Hc. lia.
    + destruct (Hc b) as [|]; [lia|lia|done].
Qed.

Lemma missing_from_gap sn D segs rest last :
  run_of sn segs rest -> Forall (seg_of D) segs ->
  StronglySorted (fun p q => pdu_so p <= pdu_so q) segs ->
  missing_from sn last (segs ++ rest) = true <->
    exists b q, q ∈ segs /\ last < b < pdu_so q /\ ~ covered segs b.
Proof.
  intros [Hsn Hrest] HF HS. revert last Hsn.
  induction HS as [|p segs HS IH Hle]; intros last Hsn.
  - split; [|intros (? & ? & []%not_elem_of_nil & _)]. destruct rest as [|q rest]; [done|]. cbn.
    rewrite (proj2 (Z.eqb_neq _ _)); [done|by apply Hrest].
  - apply Forall_cons in Hsn as [E Hsn]. apply Forall_cons in HF as [Hp HF].
    destruct Hp as (H1 & H2 & H3 & _ & H5). rewrite Forall_forall in Hle.
    cbn [app missing_from]. rewrite E, Z.eqb_refl. cbn [negb].
    destruct (pdu_so p >? last + 1) eqn:Eso; bool_prop.
    { split; [intros _|done]. exists (last + 1), p. split; [set_solver|]. split; [lia|].
      intros (q & Hq & Hb). apply elem_of_cons in Hq as [->|Hq]; [lia|]. specialize (Hle q Hq). lia. }
    set (last' := if _ >? _ then _ else _).
    assert (Hl' : last' = Z.max last (pdu_so p + pdu_size p - 1)) by (unfold last'; case_if; bool_prop; lia).
    rewrite (IH HF last') by done. setoid_rewrite covered_cons. split; intros (b & q & Hq & Hb & Hc).
    + exists b, q. split; [set_solver|]. split; [lia|]. intros [?|?]; [lia|done].
    + exists b, q. apply elem_of_cons in Hq as [->|Hq]; [lia|].
      split; [done|]. split; [|tauto]. split; [|lia].
      destruct (Z.le_gt_cases b last'); [|done]. exfalso. apply Hc. left. lia.
Qed.

Lemma sdu_full_covered l sn D pre segs rest : holds l sn D pre segs rest ->
  sdu_full l sn = true <-> forall b, 0 <= b < zlen D -> covered segs b.
Proof.
  intros H. unfold sdu_full. rewrite (find_sn_holds _ _ _ _ _ _ H).
  pose proof (holds_run _ _ _ _ _ _ H) as Hrun. destruct H.
  pose proof (full_from_covered sn D segs rest (-1) Hrun h_segs0 h_sorted0) as Hiff.
  destruct segs as [|p segs].
  - split; [done|]. intros Hc. destruct (Hc 0) as (? & []%not_elem_of_nil & _); lia.
  - pose proof h_segs0 as HF. apply Forall_cons in HF as [(P1 & P2 & P3 & P4 & P5) _].
    cbn [app]. rewrite P4. cbn [app] in Hiff.
    destruct (Z.eq_dec (zlen D) 1) as [E1|E1].
    2: { rewrite Hiff by lia. split; intros Hc b Hb; apply Hc; lia. }
    clear Hiff. assert (El : pdu_is_last p = true) by (apply P5; lia).
    apply Forall_cons in h_run0 as [E _]. cbn [full_from]. rewrite E, Z.eqb_refl, El. cbn [negb].
    rewrite Z.gtb_ltb, (proj2 (Z.ltb_ge _ _)) by lia. split; [|done].
    intros _ b Hb. apply covered_cons. left. lia.
Qed.

Lemma sdu_has_missing_gap l sn D pre segs rest : holds l sn D pre segs rest ->
  sdu_has_missing_bytes l sn = true <->
    exists b q, q ∈ segs /\ 0 <= b < pdu_so q /\ ~ covered segs b.
Proof.
  intros H. unfold sdu_has_missing_bytes. rewrite (find_sn_holds _ _ _ _ _ _ H).
  pose proof (holds_run _ _ _ _ _ _ H) as Hrun. destruct H.
  pose proof (missing_from_gap sn D segs rest (-1) Hrun h_segs0 h_sorted0) as Hiff.
  destruct segs as [|p segs]; [split; [done|intros (? & ? & []%not_elem_of_nil & _)]|].
  apply Forall_cons in h_segs0 as [(_ & _ & _ & P4 & _) _]. cbn [app] in *. rewrite P4, Hiff.
  split; intros (b & q & Hq & Hb & Hc); exists b, q; (split; [done|]); (split; [lia|done]).
Qed.

(** A complete SDU is rebuilt, whatever the overlaps of its segments. *)
Lemma reassemble_full mark l sn D pre segs rest rx :
  holds l sn D pre segs rest -> sdu_full l sn = true ->
  reassemble mark sn l rx =
    Ok (pre ++ (mark <$> segs) ++ rest, D, false, rx - sum_size segs).
Proof.
  intros H Hf. pose proof (holds_run _ _ _ _ _ _ H) as Hrun. unfold sdu_full in Hf.
  rewrite (find_sn_holds _ _ _ _ _ _ H) in Hf. destruct H. subst.
  rewrite reassemble_skip by done. destruct segs as [|p segs]; [done|].
  cbn [app reassemble]. pose proof h_run0 as HR. apply Forall_cons in HR as [E _].
  rewrite E, Z.eqb_refl.
  pose proof (reassemble_loop_full mark sn D (p :: segs) rest (-1) rx Hrun h_segs0) as R.
  cbn [app] in R, Hf. change (Z.to_nat (-1 + 1)) with O in R. rewrite take_0 in R.
  rewrite R; [done|lia|lia|]. by destruct (pdu_data p).
Qed.

End Rx.
