(* ===== verification/RlcUm.v ===== *)
(** * RLC unacknowledged mode

    [nr_rlc_entity_um.c], its struct in [nr_rlc_entity_um.h] and its
    constructor and reconfiguration in [nr_rlc_entity.c]. *)

From S2P Require Import Prelude RlcPdu RlcSdu TimeStat RlcEntity RlcRx.

Module Um.

Record nr_rlc_entity_um_t := mk_um {
  common : nr_rlc_entity_t;
  t_reassembly : Z;
  sn_field_length : Z;
  sn_modulus : Z;
  window_size : Z;
  rx_next_highest : Z;
  rx_next_reassembly : Z;
  rx_timer_trigger : Z;
  tx_next : Z;
  t_current : Z;
  t_log_buffer_full : Z;
  sdu_rejected : Z;
  t_reassembly_start : Z;
  rx_list : list nr_rlc_pdu_t;
  rx_size : Z;
  rx_maxsize : Z;
  heap : sdu_heap;
  tx_list : list nr_rlc_sdu_segment_t;
  tx_end : option addr;
  tx_size : Z;
  tx_maxsize : Z }.

#[export] Instance eta_um : Eta nr_rlc_entity_um_t := fun e =>
  mk_um (common e) (t_reassembly e) (sn_field_length e) (sn_modulus e) (window_size e)
    (rx_next_highest e) (rx_next_reassembly e) (rx_timer_trigger e) (tx_next e) (t_current e)
    (t_log_buffer_full e) (sdu_rejected e) (t_reassembly_start e) (rx_list e) (rx_size e)
    (rx_maxsize e) (heap e) (tx_list e) (tx_end e) (tx_size e) (tx_maxsize e).

Definition stat (f : nr_rlc_statistics_t -> nr_rlc_statistics_t) (e : nr_rlc_entity_um_t) :=
  e <| common ::= fun c => c <| stats ::= f |> |>.

(** The header of a PDU that carries [sdu], by [entity->sn_field_length]. *)
Definition header_size (sn_field_length : Z) (sdu : nr_rlc_sdu_segment_t) : Z :=
  1 + (if negb (seg_is_first sdu && seg_is_last sdu) && (sn_field_length =? 12) then 1 else 0)
    + (if negb (seg_is_first sdu) then 2 else 0).

Definition compute_pdu_header_size (e : nr_rlc_entity_um_t) (sdu : nr_rlc_sdu_segment_t) : Z :=
  header_size (sn_field_length e) sdu.

(** ** PDU RX functions *)

Definition modulus_rx (e : nr_rlc_entity_um_t) (a : Z) : Z :=
  let r := a - (rx_next_highest e - window_size e) in
  let r := if r <? 0 then r + sn_modulus e else r in
  Z.rem r (sn_modulus e).

Definition sn_compare_rx (e : nr_rlc_entity_um_t) (a b : Z) : Z :=
  modulus_rx e a - modulus_rx e b.

Definition sdu_full (e : nr_rlc_entity_um_t) (sn : Z) : bool := Rx.sdu_full (rx_list e) sn.
Definition sdu_delivered (e : nr_rlc_entity_um_t) (sn : Z) : bool := Rx.sdu_delivered (rx_list e) sn.
Definition sdu_has_missing_bytes (e : nr_rlc_entity_um_t) (sn : Z) : bool :=
  Rx.sdu_has_missing_bytes (rx_list e) sn.

(** [free(pdu->data); pdu->data = NULL; pdu->size = 0] *)
Definition consume (p : nr_rlc_pdu_t) : nr_rlc_pdu_t := p <| pdu_data := None |> <| pdu_size := 0 |>.

Definition reassemble_and_deliver (e : nr_rlc_entity_um_t) (sn : Z) : res nr_rlc_entity_um_t :=
  '(l, sdu, bad_sdu, rx) ← Rx.reassemble consume sn (rx_list e) (rx_size e);
  let e := e <| rx_list := l |> <| rx_size := rx |> in
  if bad_sdu : bool then mret e
  else
    let e := e <| common ::= call (DeliverSdu sdu) |> in
    mret (stat (fun s => s <| txsdu_pkts ::= add32 1 |> <| txsdu_bytes ::= add64 (zlen sdu) |>) e).

(** [while (sdu_delivered(entity, sn)) sn = (sn + 1) % entity->sn_modulus;]
    Not stopping within [sn_modulus] rounds is never stopping. *)
Fixpoint skip_delivered (fuel : nat) (e : nr_rlc_entity_um_t) (sn : Z) : res Z :=
  if sdu_delivered e sn then
    match fuel with
    | O => Err Fuel
    | S fuel => skip_delivered fuel e (Z.rem (sn + 1) (sn_modulus e))
    end
  else mret sn.

Definition first_not_delivered (e : nr_rlc_entity_um_t) (sn : Z) : res Z :=
  skip_delivered (Z.to_nat (sn_modulus e)) e sn.

(** The discard loop of [reception_actions] on the head of the list. *)
Fixpoint discard_out_of_window (e : nr_rlc_entity_um_t) (l : list nr_rlc_pdu_t) : nr_rlc_entity_um_t :=
  match l with
  | p :: l' =>
      if 0 <=? sn_compare_rx e (pdu_sn p) (rx_next_highest e) then
        let e := e <| rx_size ::= fun n => n - pdu_size p |> in
        let e := stat (fun s => s
          <| rxpdu_dd_pkts ::= add32 1 |> <| rxpdu_dd_bytes ::= add32 (pdu_size p) |>
          <| rxpdu_ow_pkts ::= add32 1 |> <| rxpdu_ow_bytes ::= add32 (pdu_size p) |>) e in
        discard_out_of_window e l'
      else e <| rx_list := l |>
  | [] => e <| rx_list := [] |>
  end.

(** The first part of [reception_actions]: delivery or window update. *)
Definition update_window (e : nr_rlc_entity_um_t) (x : Z) : res nr_rlc_entity_um_t :=
  if sdu_full e x then
    e ← reassemble_and_deliver e x;
    if x =? rx_next_reassembly e then
      n ← first_not_delivered e (rx_next_reassembly e);
      mret (e <| rx_next_reassembly := n |>)
    else mret e
  else if 0 <=? sn_compare_rx e x (rx_next_highest e) then
    let e := e <| rx_next_highest := Z.rem (x + 1) (sn_modulus e) |> in
    let e := discard_out_of_window e (rx_list e) in
    if 0 <=? sn_compare_rx e (rx_next_reassembly e) (rx_next_highest e) then
      n ← first_not_delivered e
            (Z.rem (rx_next_highest e - window_size e + sn_modulus e) (sn_modulus e));
      mret (e <| rx_next_reassembly := n |>)
    else mret e
  else mret e.

(** The two timer blocks of [reception_actions]. *)
Definition update_t_reassembly (e : nr_rlc_entity_um_t) : nr_rlc_entity_um_t :=
  let next := Z.rem (rx_next_reassembly e + 1) (sn_modulus e) in
  let e :=
    if negb (t_reassembly_start e =? 0) then
      if (sn_compare_rx e (rx_timer_trigger e) (rx_next_reassembly e) <=? 0)
         || (sn_compare_rx e (rx_timer_trigger e) (rx_next_highest e) >? 0)
         || ((rx_next_highest e =? next)
             && negb (sdu_has_missing_bytes e (rx_next_reassembly e)))
      then e <| t_reassembly_start := 0 |> else e
    else e in
  if t_reassembly_start e =? 0 then
    if (sn_compare_rx e (rx_next_highest e) next >? 0)
       || ((rx_next_highest e =? next) && sdu_has_missing_bytes e (rx_next_reassembly e))
    then e <| t_reassembly_start := t_current e |> <| rx_timer_trigger := rx_next_highest e |>
    else e
  else e.

Definition reception_actions (e : nr_rlc_entity_um_t) (pdu : nr_rlc_pdu_t) : res nr_rlc_entity_um_t :=
  e ← update_window e (pdu_sn pdu);
  mret (update_t_reassembly e).

(** The [discard] label. *)
Definition discard_pdu (e : nr_rlc_entity_um_t) (size : Z) : nr_rlc_entity_um_t :=
  stat (fun s => s <| rxpdu_dd_pkts ::= add32 1 |> <| rxpdu_dd_bytes ::= add32 size |>) e.

(** From [data_size = size - decoder.byte] on. *)
Definition recv_segment (e : nr_rlc_entity_um_t) (buffer : bytes) (size sn so : Z)
    (is_first is_last : bool) (header : Z) : res nr_rlc_entity_um_t :=
  let data_size := size - header in
  if data_size <=? 0 then mret (discard_pdu e size)
  else if rx_size e + data_size >? rx_maxsize e then mret (discard_pdu e size)
  else if sn_compare_rx e sn (rx_next_reassembly e) <? 0 then mret (discard_pdu e size)
  else
    let e := e <| rx_size ::= Z.add data_size |> in
    data ← slice buffer (size - data_size) data_size;
    pdu ← nr_rlc_new_pdu sn so is_first is_last data data_size;
    let e := e <| rx_list := nr_rlc_pdu_list_add (sn_compare_rx e) (rx_list e) pdu |> in
    reception_actions e pdu.

Definition nr_rlc_entity_um_recv_pdu (e : nr_rlc_entity_um_t) (buffer : bytes) (size : Z)
  : res nr_rlc_entity_um_t :=
  let e := stat (fun s => s <| rxpdu_pkts ::= add32 1 |> <| rxpdu_bytes ::= add32 size |>) e in
  let decoder := nr_rlc_pdu_decoder_init buffer size in
  READ si, decoder <- decoder @ 2 ERR (mret (discard_pdu e size));
  let is_first := Z.land si 2 =? 0 in
  let is_last := Z.land si 1 =? 0 in
  if is_first && is_last then
    if size <? 2 then mret (discard_pdu e size)
    else
      sdu ← slice buffer 1 (size - 1);
      let e := e <| common ::= call (DeliverSdu sdu) |> in
      mret (stat (fun s => s <| txsdu_pkts ::= add32 1 |> <| txsdu_bytes ::= add64 (size - 1) |>) e)
  else
    let read_sn decoder :=
      READ sn, decoder <- decoder @ (sn_field_length e) ERR (mret (discard_pdu e size));
      if is_first then recv_segment e buffer size sn 0 is_first is_last (d_byte decoder)
      else
        READ so, decoder <- decoder @ 16 ERR (mret (discard_pdu e size));
        if so =? 0 then mret (discard_pdu e size)
        else recv_segment e buffer size sn so is_first is_last (d_byte decoder) in
    if sn_field_length e =? 12 then
      READ r, decoder <- decoder @ 2 ERR (mret (discard_pdu e size));
      read_sn decoder
    else read_sn decoder.

(** ** TX functions *)

Definition serialize_sdu (e : nr_rlc_entity_um_t) (sdu : nr_rlc_sdu_segment_t)
    (buffer : bytes) (bufsize : Z) : res (Z * bytes) :=
  let encoder := nr_rlc_pdu_encoder_init buffer bufsize in
  encoder ← nr_rlc_pdu_encoder_put_bits encoder (1 - b2z (seg_is_first sdu)) 1;
  encoder ← nr_rlc_pdu_encoder_put_bits encoder (1 - b2z (seg_is_last sdu)) 1;
  d ← sdu_of (heap e) sdu;
  encoder ← (if seg_is_first sdu && seg_is_last sdu
             then nr_rlc_pdu_encoder_put_bits encoder 0 6
             else
               encoder ← (if sn_field_length e =? 12
                          then nr_rlc_pdu_encoder_put_bits encoder 0 2 else mret encoder);
               nr_rlc_pdu_encoder_put_bits encoder (sdu_sn d) (sn_field_length e));
  encoder ← (if negb (seg_is_first sdu)
             then nr_rlc_pdu_encoder_put_bits encoder (seg_so sdu) 16 else mret encoder);
  src ← slice (sdu_data d) (seg_so sdu) (seg_size sdu);
  buffer ← blit (e_buffer encoder) (e_byte encoder) src;
  mret (e_byte encoder + seg_size sdu, buffer).

(** Returns the two segments, or [None] for the NULL of the source; the
    reference count is incremented in both cases. *)
Definition resegment (sdu : nr_rlc_sdu_segment_t) (e : nr_rlc_entity_um_t) (pdu_size : Z)
  : res (option (nr_rlc_sdu_segment_t * nr_rlc_sdu_segment_t) * nr_rlc_entity_um_t) :=
  h ← sdu_upd (fun d => d <| sdu_ref_count ::= Z.succ |>) (heap e) sdu;
  let e := e <| heap := h |> in
  let pdu_header_size := compute_pdu_header_size e (sdu <| seg_is_last := false |>) in
  if pdu_header_size + 1 >? pdu_size then mret (None, e)
  else
    let '(a, h) := heap_alloc (heap e) in
    let e := e <| heap := h |> in
    let next := sdu <| seg_addr := a |> in
    let over_size := pdu_header_size + seg_size sdu - pdu_size in
    let sdu := sdu <| seg_size ::= fun n => n - over_size |> <| seg_is_last := false |> in
    let next := next <| seg_size := over_size |> <| seg_so := seg_so sdu + seg_size sdu |>
                     <| seg_is_first := false |> in
    let e := stat (fun s => s <| txpdu_segmented ::= add32 1 |>) e in
    mret (Some (sdu, next), e).

(** From the assignment of [tx_next] on: send [sdu], already off the list. *)
Definition send_segment (e : nr_rlc_entity_um_t) (sdu : nr_rlc_sdu_segment_t)
    (buffer : bytes) (size time_now : Z) : res (Z * bytes * nr_rlc_entity_um_t) :=
  let e := if negb (seg_is_first sdu) && seg_is_last sdu
           then e <| tx_next := Z.rem (tx_next e + 1) (sn_modulus e) |> else e in
  '(ret, buffer) ← serialize_sdu e sdu buffer size;
  let e := e <| tx_size ::= fun n => n - seg_size sdu |> in
  let e := stat (fun s => s <| txpdu_pkts ::= add32 1 |> <| txpdu_bytes ::= add32 size |>) e in
  d ← sdu_of (heap e) sdu;
  c ← time_average_tx (common e) d time_now;
  let e := e <| common := c |> in
  '(_, h) ← nr_rlc_free_sdu_segment (heap e) sdu;
  mret (ret, buffer, e <| heap := h |>).

Definition generate_tx_pdu (e : nr_rlc_entity_um_t) (buffer : bytes) (size time_now : Z)
  : res (Z * bytes * nr_rlc_entity_um_t) :=
  match tx_list e with
  | [] => mret (0, buffer, e)
  | sdu :: rest =>
      let pdu_header_size := compute_pdu_header_size e sdu in
      if pdu_header_size + 1 >? size then mret (0, buffer, e)
      else
        let e := e <| tx_list := rest |> in
        let e := match rest with [] => e <| tx_end := None |> | _ => e end in
        h ← sdu_upd (fun d => d <| sdu_sn := tx_next e |>) (heap e) sdu;
        let e := e <| heap := h |> in
        let pdu_size := pdu_header_size + seg_size sdu in
        let e := e <| common ::= bstatus_tx (- pdu_size) |> in
        if pdu_size >? size then
          '(r, e) ← resegment sdu e size;
          match r with
          | None => mret (0, buffer, e)
          | Some (sdu, next_sdu) =>
              let e := e <| tx_list ::= cons next_sdu |> in
              let e := match tx_end e with
                       | None => e <| tx_end := Some (seg_addr next_sdu) |>
                       | Some _ => e end in
              let e := stat (fun s => s <| txpdu_segmented ::= add32 1 |>) e in
              let e := e <| common ::=
                         bstatus_tx (compute_pdu_header_size e next_sdu + seg_size next_sdu) |> in
              send_segment e sdu buffer size time_now
          end
        else send_segment e sdu buffer size time_now
  end.

Definition nr_rlc_entity_um_buffer_status (e : nr_rlc_entity_um_t) (maxsize : Z)
  : nr_rlc_entity_buffer_status_t :=
  mk_bstatus 0 (tx_size_ (bstatus (common e))) 0.

Definition nr_rlc_entity_um_generate_pdu (e : nr_rlc_entity_um_t) (buffer : bytes) (size time_now : Z)
  : res (Z * bytes * nr_rlc_entity_um_t) :=
  generate_tx_pdu e buffer size time_now.

(** ** SDU RX functions *)

Definition nr_rlc_entity_um_recv_sdu (e : nr_rlc_entity_um_t) (buffer : bytes) (size sdu_id time_now : Z)
  : res nr_rlc_entity_um_t :=
  let e := stat (fun s => s <| rxsdu_pkts ::= add32 1 |> <| rxsdu_bytes ::= add64 size |>) e in
  if size >? NR_SDU_MAX then Err Exit
  else
    let e :=
      if negb (sdu_rejected e =? 0) && (t_current e >? u64 (t_log_buffer_full e + 1000))
      then e <| sdu_rejected := 0 |> <| t_log_buffer_full := t_current e |> else e in
    if tx_size e + size >? tx_maxsize e then
      let e := e <| sdu_rejected ::= Z.succ |> in
      mret (stat (fun s => s <| rxsdu_dd_pkts ::= add32 1 |> <| rxsdu_dd_bytes ::= add32 size |>) e)
    else
      let e := e <| tx_size ::= Z.add size |> in
      '(sdu, h) ← nr_rlc_new_sdu (heap e) buffer size sdu_id;
      '(l, en) ← nr_rlc_sdu_segment_list_append (tx_list e) (tx_end e) sdu;
      let e := e <| heap := h |> <| tx_list := l |> <| tx_end := en |> in
      let e := e <| common ::= bstatus_tx (compute_pdu_header_size e sdu + seg_size sdu) |> in
      if avg_time_is_on (common e) then
        h ← sdu_upd (fun d => d <| sdu_time_of_arrival := time_now |>) (heap e) sdu;
        mret (e <| heap := h |>)
      else mret e.

(** ** Time and timers *)

(** The discard loop of [check_t_reassembly]. *)
Fixpoint discard_old_segments (e : nr_rlc_entity_um_t) (cur : list nr_rlc_pdu_t) : nr_rlc_entity_um_t :=
  match cur with
  | p :: cur' =>
      if sn_compare_rx e (pdu_sn p) (rx_next_reassembly e) <? 0 then
        let e := stat (fun s => s
          <| rxpdu_dd_pkts ::= add32 1 |> <| rxpdu_dd_bytes ::= add32 (pdu_size p) |>) e in
        discard_old_segments (e <| rx_list := cur' |>) cur'
      else e
  | [] => e
  end.

Definition check_t_reassembly (e : nr_rlc_entity_um_t) : res nr_rlc_entity_um_t :=
  if (t_reassembly_start e =? 0)
     || (t_current e <=? u64 (t_reassembly_start e + t_reassembly e)) then mret e
  else
    let e := e <| t_reassembly_start := 0 |> in
    n ← first_not_delivered e (rx_timer_trigger e);
    let e := e <| rx_next_reassembly := n |> in
    let e := discard_old_segments e (rx_list e) in
    if (sn_compare_rx e (rx_next_highest e) (Z.rem (rx_next_reassembly e + 1) (sn_modulus e)) >? 0)
       || ((rx_next_highest e =? rx_next_reassembly e + 1)
           && sdu_has_missing_bytes e (rx_next_reassembly e))
    then mret (e <| t_reassembly_start := t_current e |> <| rx_timer_trigger := rx_next_highest e |>)
    else mret e.

Definition nr_rlc_entity_um_set_time (e : nr_rlc_entity_um_t) (now : Z) : res nr_rlc_entity_um_t :=
  check_t_reassembly (e <| t_current := now |>).

(** ** Discard, re-establishment, delete *)

Definition nr_rlc_entity_um_discard_sdu (e : nr_rlc_entity_um_t) (sdu_id : Z) : res nr_rlc_entity_um_t :=
  '(prev, cur) ← find_sdu_id (heap e) sdu_id [] (tx_list e);
  match cur with
  | [] => mret e
  | c :: next =>
      if negb (seg_is_first c) || negb (seg_is_last c) then mret e
      else
        let e := e <| tx_list := prev ++ next |> in
        let e := if decide (tx_end e = Some (seg_addr c))
                 then e <| tx_end := seg_addr <$> last prev |> else e in
        let e := e <| common ::= bstatus_tx (- (compute_pdu_header_size e c + seg_size c)) |> in
        '(_, h) ← nr_rlc_free_sdu_segment (heap e) c;
        mret (e <| heap := h |>)
  end.

Definition clear_entity (e : nr_rlc_entity_um_t) : res nr_rlc_entity_um_t :=
  let e := e <| rx_next_highest := 0 |> <| rx_next_reassembly := 0 |> <| rx_timer_trigger := 0 |>
             <| tx_next := 0 |> <| t_current := 0 |> <| t_log_buffer_full := 0 |>
             <| sdu_rejected := 0 |> <| t_reassembly_start := 0 |>
             <| rx_list := [] |> <| rx_size := 0 |> in
  h ← nr_rlc_free_sdu_segment_list (heap e) (tx_list e);
  let e := e <| heap := h |> <| tx_list := [] |> <| tx_end := None |> <| tx_size := 0 |> in
  mret (e <| common ::= fun c => c <| bstatus ::= fun b => b <| tx_size_ := 0 |> |> |>).

Definition nr_rlc_entity_um_reestablishment (e : nr_rlc_entity_um_t) : res nr_rlc_entity_um_t :=
  clear_entity e.

(** What is still allocated when the entity itself is freed. *)
Definition nr_rlc_entity_um_delete (e : nr_rlc_entity_um_t) : res sdu_heap :=
  e ← clear_entity e; mret (heap e).

Definition nr_rlc_entity_um_available_tx_space (e : nr_rlc_entity_um_t) : Z :=
  tx_maxsize e - tx_size e.

Definition new_nr_rlc_entity_um (rx_maxsize tx_maxsize t_reassembly sn_field_length : Z)
  : res nr_rlc_entity_um_t :=
  if negb ((sn_field_length =? 6) || (sn_field_length =? 12)) then Err Exit
  else
    c ← new_common NR_RLC_UM;
    let m := Z.shiftl 1 sn_field_length in
    mret (mk_um c t_reassembly sn_field_length m (Z.quot m 2) 0 0 0 0 0 0 0 0
            [] 0 rx_maxsize heap_empty [] None 0 tx_maxsize).

Definition nr_rlc_entity_um_reconfigure (e : nr_rlc_entity_um_t) (t : Z) (sn_length : option Z)
  : nr_rlc_entity_um_t :=
  let e := e <| t_reassembly := t |> in
  match sn_length with Some n => e <| sn_field_length := n |> | None => e end.

End Um.
