(* ===== verification/RlcUmLink.v ===== *)
(** * UM end to end

    A sending and a receiving UM entity joined by a link that keeps order and
    loses nothing: whatever the grants, the receiver delivers the accepted SDUs,
    whole, once and in order, and enough grants drain the sender. *)

From S2P Require Import Prelude RlcPdu RlcSdu TimeStat RlcEntity RlcRx RlcUm.

Import Um.

(** ** The header on the wire *)

Definition um_fields (len sn so : Z) (is_first is_last : bool) : list (Z * Z) :=
  [(1 - b2z is_first, 1); (1 - b2z is_last, 1)] ++
  (if is_first && is_last then [(0, 6)]
   else (if len =? 12 then [(0, 2)] else []) ++ [(sn, len)]) ++
  (if is_first then [] else [(so, 16)]).

Definition um_header_size (len : Z) (is_first is_last : bool) : Z :=
  header_size len (mk_seg 1 1 0 0 is_first is_last).

Definition len_ok (len : Z) : Prop := len = 6 \/ len = 12.

Lemma um_fields_ok len sn so f l : len_ok len ->
  Forall (fun f => 1 <= f.2 <= 31) (um_fields len sn so f l) /\
  total (um_fields len sn so f l).*2 = 8 * um_header_size len f l.
Proof.
  intros [->| ->]; destruct f, l; (split; [repeat constructor; cbn; lia|reflexivity]).
Qed.

(** The bytes of one PDU: a header for these values, then [data]. *)
Definition um_pdu (len sn so : Z) (is_first is_last : bool) (data pdu : bytes) : Prop :=
  exists hdr, pdu = hdr ++ data /\ zlen hdr = um_header_size len is_first is_last /\
    bits hdr = field_bits (um_fields len sn so is_first is_last).

Lemma serialize_ok e s d buffer size :
  h_sdus (heap e) !! seg_sdu s = Some d -> len_ok (sn_field_length e) ->
  0 <= seg_so s -> 0 <= seg_size s -> seg_so s + seg_size s <= zlen (sdu_data d) ->
  compute_pdu_header_size e s + seg_size s <= size <= zlen buffer ->
  exists b, serialize_sdu e s buffer size = Ok (compute_pdu_header_size e s + seg_size s, b) /\
    zlen b = zlen buffer /\
    um_pdu (sn_field_length e) (sdu_sn d) (seg_so s) (seg_is_first s) (seg_is_last s)
      (take (Z.to_nat (seg_size s)) (drop (Z.to_nat (seg_so s)) (sdu_data d)))
      (take (Z.to_nat (compute_pdu_header_size e s + seg_size s)) b).
Proof.
  intros Hd Hlen H1 H2 H3 H4.
  set (src := take _ (drop _ (sdu_data d))).
  assert (Hsrc : slice (sdu_data d) (seg_so s) (seg_size s) = Ok src) by (apply slice_ok; lia).
  pose proof (slice_zlen _ _ _ _ Hsrc) as Hz.
  destruct (um_fields_ok (sn_field_length e) (sdu_sn d) (seg_so s) (seg_is_first s) (seg_is_last s) Hlen) as [F T].
  change (um_header_size _ _ _) with (compute_pdu_header_size e s) in T.
  destruct (encode_spec buffer size _ (compute_pdu_header_size e s) src F T) as
    (enc & b & hdr & P & E & B & Tk & Bi & Zh & Zb); [lia|].
  exists b. split; [|split; [done|]].
  2: { exists hdr. split_and!; [|done|done]. by rewrite <- Tk, Hz. }
  unfold serialize_sdu, sdu_of. rewrite Hd.
  clear F T Tk Bi. unfold um_fields in P.
  destruct (seg_is_first s), (seg_is_last s), (sn_field_length e =? 12);
    cbn [put_fields app andb negb] in P |- *; inv_res;
    repeat match goal with H : nr_rlc_pdu_encoder_put_bits _ _ _ = Ok _ |- _ =>
      rewrite H; clear H; mon end; rewrite Hsrc; mon; rewrite E, B; done.
Qed.

(** [recv_pdu] on a PDU with a known header. *)
Lemma recv_pdu_ok e pdu sn so f l data :
  len_ok (sn_field_length e) -> 0 <= sn < 2 ^ sn_field_length e -> 0 <= so < 2 ^ 16 ->
  (f = false -> so <> 0) -> 0 < zlen data ->
  um_pdu (sn_field_length e) sn so f l data pdu ->
  let e1 := stat (fun s => s <| rxpdu_pkts ::= add32 1 |> <| rxpdu_bytes ::= add32 (zlen pdu) |>) e in
  nr_rlc_entity_um_recv_pdu e pdu (zlen pdu) =
    if f && l then
      Ok (stat (fun s => s <| txsdu_pkts ::= add32 1 |> <| txsdu_bytes ::= add64 (zlen data) |>)
            (e1 <| common ::= call (DeliverSdu data) |>))
    else recv_segment e1 pdu (zlen pdu) sn (if f then 0 else so) f l
           (um_header_size (sn_field_length e) f l).
Proof.
  intros Hlen Hsn Hso Hf Hdata (hdr & -> & Hz & Hb). remember (zlen (hdr ++ data)) as size eqn:Hsize.
  rewrite zlen_app in Hsize. subst size. intros e1.
  destruct (decoder_header hdr data _ Hb) as (W & S & P).
  unfold nr_rlc_entity_um_recv_pdu. cbv zeta. fold e1. unfold um_fields in S.
  set (d := nr_rlc_pdu_decoder_init _ _) in *. clearbody d.
  assert (Hlen1 : sn_field_length e1 = sn_field_length e) by done. rewrite Hlen1.
  assert (S' : d_stream d = zbits (Z.to_nat 2) (2 * (1 - b2z f) + (1 - b2z l)) ++
     field_bits ((if f && l then [(0, 6)] else (if sn_field_length e =? 12 then [(0, 2)] else [])
        ++ [(sn, sn_field_length e)]) ++ (if f then [] else [(so, 16)])) ++ bits data).
  { rewrite S. destruct f, l; reflexivity. }
  clear S. read_field.
  assert (F2 : (Z.land ((2 * (1 - b2z f) + (1 - b2z l)) mod 2 ^ 2) 2 =? 0) = f) by (by destruct f, l).
  assert (F1 : (Z.land ((2 * (1 - b2z f) + (1 - b2z l)) mod 2 ^ 2) 1 =? 0) = l) by (by destruct f, l).
  rewrite F2, F1. clear F2 F1. destruct (f && l) eqn:Efl.
  - apply andb_true_iff in Efl as [-> ->]. change (zlen hdr = 1) in Hz.
    rewrite (proj2 (Z.ltb_ge _ _)) by lia.
    rewrite Hz, slice_ok by (rewrite ?zlen_app; lia).
    replace (1 + zlen data - 1) with (zlen data) by lia. mon.
    destruct hdr as [|h [|? ?]]; [done| |unfold zlen in Hz; cbn in Hz; lia].
    change (Z.to_nat 1) with 1%nat. cbn [app drop]. unfold zlen at 2. by rewrite Nat2Z.id, firstn_all.
  - assert (Hsn' : sn mod 2 ^ sn_field_length e = sn) by (apply Z.mod_small; lia).
    assert (Hso' : so mod 2 ^ 16 = so) by (apply Z.mod_small; lia).
    unfold um_header_size, header_size. cbn [seg_is_first seg_is_last]. rewrite Efl. cbn [negb andb].
    destruct Hlen as [L|L]; rewrite L in *.
    all: rewrite ?Z.eqb_refl in *; try change (6 =? 12) with false in *; cbn [app] in S;
      rewrite ?field_bits_cons, <- ?app_assoc in S.
    all: repeat read_field; rewrite Hsn'; destruct f; cbn [negb];
      rewrite ?field_bits_cons, <- ?app_assoc in *; repeat read_field.
    all: rewrite ?Hso', ?(proj2 (Z.eqb_neq so 0)) by auto; f_equal; apply d_byte_aligned; [done|lia].
Qed.

(** ** The sender *)

(** What is left of the SDU [D] in segment [s], [k] bytes being sent. *)
Definition seg_at (h : sdu_heap) (k : Z) (s : nr_rlc_sdu_segment_t) (D : bytes) : Prop :=
  hdata h (seg_sdu s) = Some D /\ seg_so s = k /\ seg_size s = zlen D - k /\
  0 <= k < zlen D /\ zlen D <= NR_SDU_MAX /\ seg_is_first s = (k =? 0) /\ seg_is_last s = true.

(** The list holds the queue [q]; [k] bytes of its head are sent. *)
Definition queue_at (h : sdu_heap) (l : list nr_rlc_sdu_segment_t) (q : list bytes) (k : Z) : Prop :=
  match l, q with
  | [], [] => k = 0
  | s :: l, D :: q => seg_at h k s D /\ Forall2 (seg_at h 0) l q
  | _, _ => False
  end.

(** Pending bytes, without and with the PDU headers. *)
Fixpoint pending_bytes (l : list nr_rlc_sdu_segment_t) : Z :=
  match l with [] => 0 | s :: l => seg_size s + pending_bytes l end.
Fixpoint pending_pdus (len : Z) (l : list nr_rlc_sdu_segment_t) : Z :=
  match l with [] => 0 | s :: l => header_size len s + seg_size s + pending_pdus len l end.

Lemma pending_bytes_app l1 l2 : pending_bytes (l1 ++ l2) = pending_bytes l1 + pending_bytes l2.
Proof. induction l1; cbn; lia. Qed.
Lemma pending_pdus_app len l1 l2 : pending_pdus len (l1 ++ l2) = pending_pdus len l1 + pending_pdus len l2.
Proof. induction l1; cbn; lia. Qed.

Record tx_inv (len : Z) (e : nr_rlc_entity_um_t) (q : list bytes) (k : Z) : Prop := {
  ti_len : sn_field_length e = len;
  ti_mod : sn_modulus e = 2 ^ len;
  ti_next : 0 <= tx_next e < 2 ^ len;
  ti_heap : heap_ok (heap e) (tx_list e);
  ti_tail : tail_ok (tx_list e) (tx_end e);
  ti_queue : queue_at (heap e) (tx_list e) q k;
  ti_size : pending_bytes (tx_list e) <= tx_size e <= tx_maxsize e;
  ti_bst : tx_size_ (bstatus (common e)) = pending_pdus len (tx_list e);
  ti_avg : avg_wf (txsdu_avg_time_to_tx (common e));
  ti_idle : t_reassembly_start e = 0 }.

Lemma seg_at_frame h h' k l q :
  Forall2 (seg_at h k) l q ->
  (forall t, t ∈ l -> hdata h' (seg_sdu t) = hdata h (seg_sdu t)) -> Forall2 (seg_at h' k) l q.
Proof.
  induction 1 as [|s D l q (Hd & Hr) _ IH]; intros Hf; constructor.
  - split; [|done]. rewrite Hf by set_solver. done.
  - apply IH. intros t Ht. apply Hf. set_solver.
Qed.

Lemma send_segment_ok e s l d buffer size now :
  heap_ok (heap e) (s :: l) -> h_sdus (heap e) !! seg_sdu s = Some d ->
  len_ok (sn_field_length e) -> avg_wf (txsdu_avg_time_to_tx (common e)) ->
  0 <= seg_so s -> 0 <= seg_size s -> seg_so s + seg_size s <= zlen (sdu_data d) ->
  compute_pdu_header_size e s + seg_size s <= size <= zlen buffer ->
  exists b c h,
    send_segment e s buffer size now =
      Ok (compute_pdu_header_size e s + seg_size s, b,
          (if negb (seg_is_first s) && seg_is_last s
           then e <| tx_next := Z.rem (tx_next e + 1) (sn_modulus e) |> else e)
            <| tx_size ::= fun n => n - seg_size s |> <| common := c |> <| heap := h |>) /\
    um_pdu (sn_field_length e) (sdu_sn d) (seg_so s) (seg_is_first s) (seg_is_last s)
      (take (Z.to_nat (seg_size s)) (drop (Z.to_nat (seg_so s)) (sdu_data d)))
      (take (Z.to_nat (compute_pdu_header_size e s + seg_size s)) b) /\
    bstatus c = bstatus (common e) /\ avg_wf (txsdu_avg_time_to_tx c) /\
    heap_ok h l /\ (forall t, t ∈ l -> hdata h (seg_sdu t) = hdata (heap e) (seg_sdu t)).
Proof.
  intros H Hd Hlen Ha H1 H2 H3 H4. unfold send_segment.
  set (e1 := if _ && _ then _ else _).
  assert (F : heap e1 = heap e /\ sn_field_length e1 = sn_field_length e /\ common e1 = common e)
    by (unfold e1; case_if; done).
  destruct F as (F1 & F2 & F3).
  destruct (serialize_ok e1 s d buffer size) as (b & E & _ & Hp); unfold compute_pdu_header_size in *;
    rewrite ?F1, ?F2 in *; try done.
  rewrite E. mon. cbn. unfold sdu_of. rewrite F1, Hd. mon. cbn.
  match goal with |- context [time_average_tx ?c ?x ?n] =>
    destruct (time_average_tx_ok c x n) as (c' & -> & C1 & C2 & C3 & C4 & C5); [cbn; by rewrite F3|] end.
  cbn in C1. rewrite F3 in C1. cbn.
  destruct (free_sdu_segment_data _ _ _ H) as (fb & h & -> & Hk & Hfr). mon.
  exists b, c', h. split_and!; done.
Qed.

(** The state of [generate_tx_pdu] once the head of the list is taken off. *)
Definition popped (e : nr_rlc_entity_um_t) (s : nr_rlc_sdu_segment_t)
    (l : list nr_rlc_sdu_segment_t) (d : nr_rlc_sdu_t) : nr_rlc_entity_um_t :=
  e <| tx_list := l |> <| tx_end := match l with [] => None | _ => tx_end e end |>
    <| heap := mk_heap (<[seg_sdu s := d <| sdu_sn := tx_next e |>]> (h_sdus (heap e))) (h_next (heap e)) |>
    <| common ::= bstatus_tx (- (compute_pdu_header_size e s + seg_size s)) |>.

Lemma generate_popped e s l d buffer size now :
  tx_list e = s :: l -> h_sdus (heap e) !! seg_sdu s = Some d ->
  compute_pdu_header_size e s + 1 <= size ->
  generate_tx_pdu e buffer size now =
    let e1 := popped e s l d in
    if compute_pdu_header_size e s + seg_size s >? size then
      '(r, e) ← resegment s e1 size;
      match r with
      | None => mret (0, buffer, e)
      | Some (sdu, next_sdu) =>
          let e := e <| tx_list ::= cons next_sdu |> in
          let e := match tx_end e with
                   | None => e <| tx_end := Some (seg_addr next_sdu) |> | Some _ => e end in
          let e := stat (fun s => s <| txpdu_segmented ::= add32 1 |>) e in
          let e := e <| common ::=
                     bstatus_tx (compute_pdu_header_size e next_sdu + seg_size next_sdu) |> in
          send_segment e sdu buffer size now
      end
    else send_segment e1 s buffer size now.
Proof.
  intros El Hd Hs. unfold generate_tx_pdu. rewrite El, Z.gtb_ltb, (proj2 (Z.ltb_ge _ _)) by lia.
  set (e1 := match l with [] => _ | _ => _ end).
  assert (E1 : e1 = e <| tx_list := l |> <| tx_end := match l with [] => None | _ => tx_end e end |>)
    by (unfold e1; destruct e, l; done).
  rewrite E1. unfold sdu_upd, sdu_of. cbn. rewrite Hd. cbn. reflexivity.
Qed.

Lemma queue_pop h s l D q k : queue_at h (s :: l) (D :: q) k -> queue_at h l q 0.
Proof. intros [_ F]. destruct F; [done|]. by split. Qed.

Lemma queue_frame h h' l q k : queue_at h l q k ->
  (forall t, t ∈ l -> hdata h' (seg_sdu t) = hdata h (seg_sdu t)) -> queue_at h' l q k.
Proof.
  destruct l as [|s l], q as [|D q]; try done. intros [(Hd & Hr) HF] Hf. split.
  - split; [|done]. rewrite Hf by set_solver. done.
  - eapply seg_at_frame; [done|]. intros t Ht. apply Hf. set_solver.
Qed.

Lemma generate_none len e q k buffer size now :
  tx_inv len e q k ->
  match tx_list e with [] => True | s :: _ => size < compute_pdu_header_size e s + 1 end ->
  nr_rlc_entity_um_generate_pdu e buffer size now = Ok (0, buffer, e).
Proof.
  intros _ H. unfold nr_rlc_entity_um_generate_pdu, generate_tx_pdu.
  destruct (tx_list e); [done|]. by rewrite Z.gtb_ltb, (proj2 (Z.ltb_lt _ _)) by lia.
Qed.

(** The rest of the head SDU fits the grant. *)
Lemma generate_last len e D q k buffer size now :
  len_ok len -> tx_inv len e (D :: q) k ->
  let f := k =? 0 in
  let ret := um_header_size len f true + (zlen D - k) in
  ret <= size <= zlen buffer ->
  exists b e', nr_rlc_entity_um_generate_pdu e buffer size now = Ok (ret, b, e') /\
    um_pdu len (tx_next e) k f true (drop (Z.to_nat k) D) (take (Z.to_nat ret) b) /\
    tx_inv len e' q 0 /\
    tx_next e' = (if f then tx_next e else (tx_next e + 1) mod 2 ^ len) /\
    tx_maxsize e' = tx_maxsize e /\ tx_size e' = tx_size e - (zlen D - k).
Proof.
  intros Hlen [] f ret Hret. destruct (tx_list e) as [|s l] eqn:El; [done|].
  destruct ti_queue0 as [Hs HF]. pose proof Hs as (Hd & So & Sz & Hk & Hm & Sf & Sl).
  unfold hdata in Hd. apply fmap_Some in Hd as (d & Hd & ->).
  assert (Hh : compute_pdu_header_size e s = um_header_size len f true).
  { unfold compute_pdu_header_size, um_header_size, header_size. by rewrite Sf, Sl, ti_len0. }
  unfold nr_rlc_entity_um_generate_pdu. rewrite (generate_popped e s l d) by (done || lia). cbv zeta.
  rewrite Z.gtb_ltb, (proj2 (Z.ltb_ge _ _)) by lia.
  set (e1 := popped e s l d). set (d1 := d <| sdu_sn := tx_next e |>).
  assert (Hh1 : compute_pdu_header_size e1 s = um_header_size len f true) by done.
  assert (Hk1 : heap_ok (heap e1) (s :: l)).
  { destruct (sdu_upd_ok (fun d => d <| sdu_sn := tx_next e |>) (heap e) s (s :: l) d ti_heap0 Hd)
      as (h' & _ & Hok & _ & ->); [done|]. exact Hok. }
  assert (Hd1 : h_sdus (heap e1) !! seg_sdu s = Some d1) by (cbn; by rewrite lookup_insert_eq).
  destruct (send_segment_ok e1 s l d1 buffer size now Hk1 Hd1) as (b & c & h & -> & Hp & Cb & Ca & Hok & Hfr);
    [cbn; by rewrite ti_len0|done|lia|lia|cbn; lia|lia|].
  rewrite Hh1, Sz. exists b. eexists. split; [reflexivity|].
  cbn [sdu_data d1 sdu_sn] in Hp. cbn in Hp. rewrite Hh1, So, Sz, Sf, Sl, ti_len0 in Hp.
  rewrite firstn_all2 in Hp by (unfold zlen; rewrite length_drop; lia).
  rewrite Sf, Sl, andb_true_r. fold f. split_and!; [done| |destruct f; cbn|by destruct f|by destruct f].
  2: done.
  2: { cbn in ti_mod0. rewrite ti_mod0. apply Z.rem_mod_nonneg; lia. }
  assert (Hnx : 0 <= Z.rem (tx_next e + 1) (sn_modulus e) < 2 ^ len).
  { rewrite ti_mod0, Z.rem_mod_nonneg by lia. apply Z.mod_pos_bound. lia. }
  assert (Hq : queue_at h l q 0).
  { eapply queue_frame; [by eapply queue_pop; split|]. intros t Ht. rewrite Hfr by done.
    by apply (hdata_upd (fun d => d <| sdu_sn := tx_next e |>) (heap e) s d). }
  destruct f; split; cbn; try done; try lia.
  all: try (by apply tail_ok_cons in ti_tail0).
  all: try (cbn in ti_size0; lia).
  all: try (rewrite Cb; cbn in ti_bst0 |- *; unfold compute_pdu_header_size; rewrite ti_bst0, ti_len0; lia).
Qed.

(** The segments cut by [resegment]. *)
Definition cut (s : nr_rlc_sdu_segment_t) (m : Z) : nr_rlc_sdu_segment_t :=
  s <| seg_size := m |> <| seg_is_last := false |>.
Definition remainder (s : nr_rlc_sdu_segment_t) (a : addr) (m : Z) : nr_rlc_sdu_segment_t :=
  mk_seg a (seg_sdu s) (seg_size s - m) (seg_so s + m) false (seg_is_last s).

Lemma resegment_ok s e d size :
  h_sdus (heap e) !! seg_sdu s = Some d ->
  let hs := compute_pdu_header_size e (s <| seg_is_last := false |>) in
  hs + 1 <= size ->
  resegment s e size =
    Ok (Some (cut s (size - hs), remainder s (h_next (heap e)) (size - hs)),
        stat (fun s => s <| txpdu_segmented ::= add32 1 |>)
          (e <| heap := mk_heap (<[seg_sdu s := d <| sdu_ref_count ::= Z.succ |>]> (h_sdus (heap e)))
                          (Pos.succ (h_next (heap e))) |>)).
Proof.
  intros Hd hs Hs. unfold resegment, sdu_upd, sdu_of. rewrite Hd. mon.
  match goal with |- context [?x + 1 >? size] => change x with hs end.
  rewrite Z.gtb_ltb, (proj2 (Z.ltb_ge _ _)) by lia.
  unfold cut, remainder, heap_alloc. cbn.
  replace (hs + seg_size s - size) with (seg_size s - (size - hs)) by lia.
  replace (seg_size s - (seg_size s - (size - hs))) with (size - hs) by lia. reflexivity.
Qed.

(** The head SDU is cut to the grant. *)
Lemma generate_split len e D q k buffer size now :
  len_ok len -> tx_inv len e (D :: q) k ->
  let f := k =? 0 in
  let m := size - um_header_size len f false in
  0 < m < zlen D - k -> size <= zlen buffer -> size < um_header_size len f true + (zlen D - k) ->
  exists b e', nr_rlc_entity_um_generate_pdu e buffer size now = Ok (size, b, e') /\
    um_pdu len (tx_next e) k f false (take (Z.to_nat m) (drop (Z.to_nat k) D)) (take (Z.to_nat size) b) /\
    tx_inv len e' (D :: q) (k + m) /\ tx_next e' = tx_next e /\ tx_maxsize e' = tx_maxsize e /\
    tx_size e' = tx_size e - m.
Proof.
  intros Hlen [] f m Hm Hb Hbig. destruct (tx_list e) as [|s l] eqn:El; [done|].
  destruct ti_queue0 as [Hs HF]. pose proof Hs as (Hd & So & Sz & Hk & HM & Sf & Sl).
  unfold hdata in Hd. apply fmap_Some in Hd as (d & Hd & ->).
  assert (Hh : compute_pdu_header_size e s = um_header_size len f true).
  { unfold compute_pdu_header_size, um_header_size, header_size. by rewrite Sf, Sl, ti_len0. }
  assert (Hle : um_header_size len f true <= um_header_size len f false).
  { unfold um_header_size, header_size. cbn. destruct f; cbn; repeat case_if; lia. }
  unfold nr_rlc_entity_um_generate_pdu. rewrite (generate_popped e s l d) by (done || lia). cbv zeta.
  rewrite Z.gtb_ltb, (proj2 (Z.ltb_lt _ _)) by lia.
  set (e1 := popped e s l d). set (d1 := d <| sdu_sn := tx_next e |>).
  assert (Hh1 : compute_pdu_header_size e1 (s <| seg_is_last := false |>) = um_header_size len f false).
  { unfold compute_pdu_header_size, um_header_size, header_size. cbn. by rewrite Sf, ti_len0. }
  assert (Hk1 : heap_ok (heap e1) (s :: l)).
  { destruct (sdu_upd_ok (fun d => d <| sdu_sn := tx_next e |>) (heap e) s (s :: l) d ti_heap0 Hd)
      as (h' & _ & Hok & _ & ->); [done|]. exact Hok. }
  assert (Hd1 : h_sdus (heap e1) !! seg_sdu s = Some d1) by (cbn; by rewrite lookup_insert_eq).
  rewrite (resegment_ok s e1 d1 size Hd1) by (rewrite Hh1; lia). mon. rewrite Hh1.
  change (size - um_header_size len f false) with m.
  set (h1 := mk_heap _ _). set (s1 := cut s m). set (s2 := remainder s (h_next (heap e1)) m).
  destruct (heap_ok_split (heap e1) s l d1 s1 s2 Hk1 Hd1) as [Hk2 _]; [done..|].
  assert (Hp2 : tail_ok (s2 :: l) (match l with [] => Some (seg_addr s2) | _ => tx_end e end)).
  { apply (tail_ok_replace s); [done|].
    pose proof (ho_nodup _ _ Hk2) as N. cbn in N. apply NoDup_cons in N as [_ N].
    by apply NoDup_cons in N as [? _]. }
  set (e2 := stat _ (match tx_end _ with Some _ => _ | None => _ end)).
  assert (E2 : e2 = stat (fun s => s <| txpdu_segmented ::= add32 1 |>)
      (stat (fun s => s <| txpdu_segmented ::= add32 1 |>)
        (e1 <| heap := h1 |> <| tx_list := s2 :: l |>
            <| tx_end := match l with [] => Some (seg_addr s2) | _ => tx_end e end |>))).
  { unfold e2. cbn. destruct (tail_ok_Some _ _ _ ti_tail0) as [a ->]. by destruct l. }
  clearbody e2. subst e2. match goal with |- context [send_segment ?x s1] => set (e2 := x) end.
  assert (Hd2 : h_sdus (heap e2) !! seg_sdu s1 = Some (d1 <| sdu_ref_count ::= Z.succ |>))
    by (cbn; by rewrite lookup_insert_eq).
  assert (Hh2 : compute_pdu_header_size e2 s1 = um_header_size len f false) by exact Hh1.
  destruct (send_segment_ok e2 s1 (s2 :: l) _ buffer size now Hk2 Hd2) as
    (b & c & h & -> & Hp & Cb & Ca & Hok & Hfr);
    [cbn; by rewrite ti_len0|done|cbn; lia|cbn; lia|cbn; lia|rewrite Hh2; cbn; lia|].
  rewrite Hh2. change (seg_size s1) with m. replace (um_header_size len f false + m) with size by lia.
  exists b. eexists. split; [reflexivity|]. cbn in Hp. rewrite Hh2, So, Sf, ti_len0 in Hp.
  replace (um_header_size len f false + m) with size in Hp by lia.
  cbn [seg_is_last s1 cut]. cbn. rewrite andb_false_r. split_and!; try done.
  assert (Hq : queue_at h (s2 :: l) (sdu_data d :: q) (k + m)).
  { apply (queue_frame (heap e2)); [|exact Hfr].
    assert (Hd' : forall a, hdata (heap e2) a = hdata (heap e) a).
    { intros a. cbn. unfold hdata. cbn. destruct (decide (seg_sdu s = a)) as [<-|].
      - rewrite lookup_insert_eq, Hd. done.
      - by rewrite !lookup_insert_ne by done. }
    split; [|by eapply seg_at_frame]. split; [rewrite Hd'; unfold hdata; cbn; by rewrite Hd|].
    cbn. rewrite So, Sz. split_and!; try done; lia. }
  split; cbn; try done.
  - cbn in ti_size0. lia.
  - rewrite Cb. cbn. cbn in ti_bst0. unfold compute_pdu_header_size. cbn. rewrite ti_bst0, ti_len0. lia.
Qed.

Lemma queue_snoc h l q k s D : queue_at h l q k -> seg_at h 0 s D -> queue_at h (l ++ [s]) (q ++ [D]) k.
Proof.
  intros Hq Hs. destruct l as [|t l], q as [|E q]; try done; cbn in *.
  - by subst.
  - destruct Hq as [H1 H2]. split; [done|]. apply Forall2_app; [done|]. by constructor.
Qed.

(** An SDU enters the queue exactly when it fits [available_tx_space]. *)
Lemma recv_sdu_tx len e q k D id now :
  tx_inv len e q k -> 0 < zlen D <= NR_SDU_MAX ->
  exists e', nr_rlc_entity_um_recv_sdu e D (zlen D) id now = Ok e' /\
    tx_next e' = tx_next e /\ tx_maxsize e' = tx_maxsize e /\
    tx_inv len e' (if zlen D <=? nr_rlc_entity_um_available_tx_space e then q ++ [D] else q) k.
Proof.
  intros [] HD. unfold nr_rlc_entity_um_recv_sdu, nr_rlc_entity_um_available_tx_space.
  rewrite Z.gtb_ltb, (proj2 (Z.ltb_ge _ _)) by lia.
  set (e1 := if _ && _ then _ else _).
  assert (F : exists a b, e1 = (stat (fun s => s <| rxsdu_pkts ::= add32 1 |>
      <| rxsdu_bytes ::= add64 (zlen D) |>) e) <| sdu_rejected := a |> <| t_log_buffer_full := b |>).
  { unfold e1. case_if; do 2 eexists; [reflexivity|]. by destruct e. }
  destruct F as (ra & tb & F). clearbody e1. subst e1. cbn. rewrite Z.gtb_ltb.
  destruct (Z.leb_spec (zlen D) (tx_maxsize e - tx_size e)).
  2: { rewrite (proj2 (Z.ltb_lt _ _)) by lia. eexists. split; [reflexivity|]. split_and!; [done..|].
       split; cbn; done. }
  rewrite (proj2 (Z.ltb_ge _ _)) by lia.
  destruct (new_sdu_data (heap e) (tx_list e) D (zlen D) id ti_heap0) as
    (s & h & -> & Hk & Z1 & Z2 & Z3 & Z4 & Z5 & Z6); [lia|]. mon.
  destruct (append_ok (tx_list e) (tx_end e) s ti_tail0) as [-> Ht].
  { pose proof (ho_nodup _ _ Hk) as Hn. by apply NoDup_cons in Hn as [? _]. }
  cbn. rewrite firstn_all2 in Z5 by (unfold zlen; lia).
  assert (Hk' : heap_ok h (tx_list e ++ [s])) by (by rewrite <- Permutation_cons_append).
  assert (Hq : queue_at h (tx_list e ++ [s]) (q ++ [D]) k).
  { apply queue_snoc; [by eapply queue_frame|]. unfold seg_at. rewrite Z5, Z1, Z2, Z3, Z4.
    split_and!; try done; lia. }
  assert (Hb : tx_size_ (bstatus (common e)) + (header_size len s + seg_size s) =
      pending_pdus len (tx_list e ++ [s])) by (rewrite pending_pdus_app; cbn; lia).
  assert (Hs : pending_bytes (tx_list e ++ [s]) <= zlen D + tx_size e <= tx_maxsize e)
    by (rewrite pending_bytes_app; cbn; lia).
  case_if.
  - destruct (heap_ok_sdu_of _ _ _ Hk) as (d & _ & Hd).
    destruct (sdu_upd_ok (fun d => d <| sdu_time_of_arrival := now |>) h s (tx_list e ++ [s]) d Hk' Hd)
        as (h' & E' & Hk2 & _ & ->); [by cbn|].
    cbn in E'. rewrite E'. cbn. eexists. split; [reflexivity|]. split_and!; [done..|].
    split; cbn; try done; [|rewrite <- Hb; unfold compute_pdu_header_size; cbn; rewrite ti_len0; lia].
    eapply queue_frame; [exact Hq|]. intros t _.
    pose proof (hdata_upd (fun d => d <| sdu_time_of_arrival := now |>) h s d (seg_sdu t) Hd) as U.
    cbn in U. by apply U.
  - eexists. split; [reflexivity|]. split_and!; [done..|].
    split; cbn; try done. rewrite <- Hb. unfold compute_pdu_header_size. cbn. rewrite ti_len0. lia.
Qed.

(** ** The receiver *)

Lemma recv_segment_add e hdr data sn so f l :
  0 < zlen data -> rx_size e + zlen data <= rx_maxsize e -> 0 <= sn_compare_rx e sn (rx_next_reassembly e) ->
  let p := mk_pdu sn (Some data) (zlen data) so f l in
  recv_segment e (hdr ++ data) (zlen hdr + zlen data) sn so f l (zlen hdr) =
    reception_actions (e <| rx_size ::= Z.add (zlen data) |>
      <| rx_list := nr_rlc_pdu_list_add (sn_compare_rx e) (rx_list e) p |>) p.
Proof.
  intros Hd Hr Hc p. unfold recv_segment.
  replace (zlen hdr + zlen data - zlen hdr) with (zlen data) by lia.
  rewrite (proj2 (Z.leb_gt _ _)), Z.gtb_ltb, !(proj2 (Z.ltb_ge _ _)) by lia.
  replace (zlen hdr + zlen data - zlen data) with (zlen hdr) by lia.
  rewrite slice_app_r. mon. unfold nr_rlc_new_pdu. by rewrite slice_all.
Qed.

Section Receiver.
Variables (len W : Z).
Hypothesis (Hlen : len_ok len) (HW : 2 ^ len = 2 * W).

Let M : Z := 2 ^ len.

Lemma W_big : 2 < W.
Proof using Hlen HW. destruct Hlen as [->| ->]; cbn in HW; lia. Qed.

Definition rx_cfg (e : nr_rlc_entity_um_t) : Prop :=
  sn_field_length e = len /\ sn_modulus e = M /\ window_size e = W.

(** The place of [sn] in the window that ends at [b]. *)
Definition key (b sn : Z) : Z := (sn - b + W) mod M.

Lemma modulus_rx_key e a : rx_cfg e -> 0 <= a < M -> 0 <= rx_next_highest e < M ->
  modulus_rx e a = key (rx_next_highest e) a.
Proof using Hlen HW.
  intros (_ & E1 & E2) Ha Hb. unfold modulus_rx, key. rewrite E1, E2. pose proof W_big.
  replace (a - (rx_next_highest e - W)) with (a - rx_next_highest e + W) by lia.
  destruct (Z.ltb_spec (a - rx_next_highest e + W) 0).
  - rewrite Z.rem_mod_nonneg by (unfold M in *; lia).
    replace (a - rx_next_highest e + W + M) with (a - rx_next_highest e + W + 1 * M) by lia.
    by rewrite Z_mod_plus_full.
  - apply Z.rem_mod_nonneg; unfold M in *; lia.
Qed.

Lemma key_at b d : - W <= d < W -> key b ((b + d) mod M) = d + W.
Proof using Hlen HW.
  intros Hd. pose proof W_big. unfold key, M in *.
  replace ((b + d) mod 2 ^ len - b + W) with ((b + d) mod 2 ^ len + (W - b)) by lia.
  rewrite Zplus_mod_idemp_l, Z.mod_small; lia.
Qed.

Lemma key_shift b sn : key ((b + 1) mod M) sn = (key b sn - 1) mod M.
Proof using Hlen HW. 
  unfold key. rewrite Zminus_mod_idemp_l.
  replace (sn - (b + 1) mod M + W) with (sn + W - (b + 1) mod M) by lia.
  rewrite Zminus_mod_idemp_r. f_equal. lia.
Qed.

Lemma key_shift_pos b sn : 1 <= key b sn -> key ((b + 1) mod M) sn = key b sn - 1.
Proof using Hlen HW.
  intros H. rewrite key_shift. apply Z.mod_small.
  assert (key b sn < M) by (apply Z.mod_pos_bound; pose proof W_big; unfold M; lia). lia.
Qed.

Lemma key_shift_zero b sn : key b sn = 0 -> key ((b + 1) mod M) sn = M - 1.
Proof using Hlen HW.
  intros H. rewrite key_shift, H. symmetry. apply Z.mod_unique with (q := -1); pose proof W_big; unfold M; lia.
Qed.

(** Delivered segments, still on the list, in a window that ends at [b]. *)
Definition stale (b lim : Z) (l : list nr_rlc_pdu_t) : Prop :=
  StronglySorted (fun p q => key b (pdu_sn p) <= key b (pdu_sn q)) l /\
  Forall (fun p => 0 <= pdu_sn p < M /\ key b (pdu_sn p) < lim /\ pdu_data p = None /\ pdu_size p = 0) l.

Lemma stale_shift b lim l :
  stale b lim l -> Forall (fun p => 1 <= key b (pdu_sn p)) l -> stale ((b + 1) mod M) (lim - 1) l.
Proof using Hlen HW.
  intros [HS HF] H1. split.
  - clear HF. induction HS as [|p l HS IH Hle]; [constructor|]. apply Forall_cons in H1 as [Hp H1].
    constructor; [by apply IH|]. rewrite Forall_forall in *. intros q Hq.
    specialize (Hle q Hq). specialize (H1 q Hq). rewrite !key_shift_pos; lia.
  - rewrite Forall_forall in *. intros p Hp. specialize (HF p Hp). specialize (H1 p Hp).
    rewrite key_shift_pos; naive_solver lia.
Qed.

Lemma stale_ne b lim l sn : stale b lim l -> lim <= key b sn -> Forall (fun p => pdu_sn p <> sn) l.
Proof using Hlen HW. 
  intros [_ HF] Hk. rewrite Forall_forall in *. intros p Hp E. specialize (HF p Hp).
  rewrite E in HF. lia.
Qed.

(** When the window advances by one, the segments that leave it are dropped. *)
Lemma stale_discard n st p e :
  rx_cfg e -> 0 <= n < M -> rx_next_highest e = (n + 1) mod M -> pdu_sn p = n -> stale n W st ->
  exists c st', discard_out_of_window e (st ++ [p]) = e <| common := c |> <| rx_list := st' ++ [p] |> /\
    calls c = calls (common e) /\ stale ((n + 1) mod M) (W - 1) st'.
Proof using Hlen HW.
  intros Hc Hn Eb Ep. pose proof W_big as HW2.
  assert (Hb : 0 <= rx_next_highest e < M) by (rewrite Eb; apply Z.mod_pos_bound; unfold M; lia).
  assert (Kb : key (rx_next_highest e) (rx_next_highest e) = W).
  { pose proof (key_at (rx_next_highest e) 0 ltac:(lia)) as K. rewrite Z.add_0_r, Z.mod_small in K; lia. }
  revert e Hc Eb Hb Kb. induction st as [|q st IH]; intros e Hc Eb Hb Kb [HS HF]; cbn [app discard_out_of_window].
  - unfold sn_compare_rx. rewrite !modulus_rx_key, Kb, Ep, Eb by (done || lia).
    assert (Kn : key n n = W).
    { pose proof (key_at n 0 ltac:(lia)) as K. rewrite Z.add_0_r, Z.mod_small in K; lia. }
    rewrite key_shift_pos, Kn by lia. rewrite (proj2 (Z.leb_gt _ _)) by lia.
    exists (common e), []. split_and!; [by destruct e|done|split; constructor].
  - apply Forall_cons in HF as [(Q1 & Q2 & Q3 & Q4) HF].
    apply StronglySorted_inv in HS as [HS Hle].
    unfold sn_compare_rx. rewrite !modulus_rx_key, Kb by (done || lia).
    destruct (Z.eq_dec (key n (pdu_sn q)) 0) as [K0|K0].
    + assert (Kq : key (rx_next_highest e) (pdu_sn q) = M - 1) by (rewrite Eb; by apply key_shift_zero).
      rewrite Kq, (proj2 (Z.leb_le _ _)) by (unfold M; lia).
      match goal with |- context [discard_out_of_window ?x _] => set (e1 := x) end.
      destruct (IH e1) as (c & st' & -> & C & S); try done.
      exists c, st'. split_and!; [|done|done]. unfold e1. rewrite Q4. cbn. by rewrite Z.sub_0_r.
    + assert (Kp : 1 <= key n (pdu_sn q)).
      { pose proof (Z.mod_pos_bound (pdu_sn q - n + W) M ltac:(unfold M; lia)). unfold key in *. lia. }
      assert (Kq : key (rx_next_highest e) (pdu_sn q) = key n (pdu_sn q) - 1)
        by (rewrite Eb; by apply key_shift_pos).
      rewrite Kq, (proj2 (Z.leb_gt _ _)) by lia.
      exists (common e), (q :: st). split_and!; [by destruct e|done|].
      apply stale_shift.
      * split; [by constructor|]. by constructor.
      * constructor; [done|]. rewrite Forall_forall in *. intros r Hr. specialize (Hle r Hr). lia.
Qed.
(** The receiver expects SN [n]; it holds the first [k] bytes of [D]. *)
Record partial (e : nr_rlc_entity_um_t) (n : Z) (D : bytes) (k : Z)
    (st segs : list nr_rlc_pdu_t) : Prop := {
  pa_holds : Rx.holds (rx_list e) n D st segs [];
  pa_stale : stale ((n + 1) mod M) (W - 1) st;
  pa_sum : Rx.sum_size segs = k;
  pa_end : Forall (fun p => pdu_so p + pdu_size p <= k) segs;
  pa_cov : forall b, 0 <= b < k -> Rx.covered segs b }.

Record rx_inv (e : nr_rlc_entity_um_t) (n : Z) (D : bytes) (k : Z) : Prop := {
  ri_cfg : rx_cfg e;
  ri_n : 0 <= n < M;
  ri_next : rx_next_reassembly e = n;
  ri_timer : t_reassembly_start e = 0;
  ri_size : rx_size e = k;
  ri_max : NR_SDU_MAX <= rx_maxsize e;
  ri_state : (k = 0 /\ rx_next_highest e = n /\ stale n W (rx_list e)) \/
    (0 < k < zlen D /\ rx_next_highest e = (n + 1) mod M /\ exists st segs, partial e n D k st segs) }.

Lemma key_self n : 0 <= n < M -> key n n = W.
Proof using Hlen HW.
  intros Hn. pose proof W_big. pose proof (key_at n 0 ltac:(lia)) as K.
  rewrite Z.add_0_r, Z.mod_small in K; lia.
Qed.

Lemma key_next n : key n ((n + 1) mod M) = W + 1.
Proof using Hlen HW. pose proof W_big. rewrite key_at; lia. Qed.

Lemma key_prev n : 0 <= n < M -> key ((n + 1) mod M) n = W - 1.
Proof using Hlen HW. intros Hn. pose proof W_big. rewrite key_shift_pos; rewrite key_self; lia. Qed.

Lemma next_bound n : 0 <= (n + 1) mod M < M.
Proof using Hlen HW. pose proof W_big. apply Z.mod_pos_bound. unfold M. lia. Qed.

Lemma rem_next n : 0 <= n -> Z.rem (n + 1) M = (n + 1) mod M.
Proof using Hlen HW. intros. pose proof W_big. apply Z.rem_mod_nonneg; unfold M; lia. Qed.

(** In such a state the reassembly timer stays off. *)
Lemma timer_idle e n D k : rx_inv e n D k -> update_t_reassembly e = e.
Proof using Hlen HW.
  intros []. pose proof W_big. pose proof (next_bound n). unfold update_t_reassembly.
  destruct (ri_cfg0) as (C1 & C2 & C3). rewrite ri_timer0, Z.eqb_refl. cbn [negb]. rewrite ri_timer0, Z.eqb_refl.
  rewrite C2, ri_next0, rem_next by lia. unfold sn_compare_rx.
  destruct ri_state0 as [(-> & Eh & _)|(Hk & Eh & st & segs & [])]; rewrite Eh.
  - rewrite !modulus_rx_key, Eh, key_self, key_next by (done || rewrite ?Eh; lia).
    rewrite Z.gtb_ltb, (proj2 (Z.ltb_ge _ _)) by lia. cbn [orb].
    destruct (Z.eqb_spec n ((n + 1) mod M)) as [E|]; [|done].
    pose proof (key_next n) as K. rewrite <- E, key_self in K by lia. lia.
  - rewrite Z.sub_diag. cbn [orb Z.gtb Z.compare]. rewrite Z.eqb_refl. cbn [andb].
    unfold sdu_has_missing_bytes.
    destruct (Rx.sdu_has_missing_bytes (rx_list e) n) eqn:E; [|done].
    apply (Rx.sdu_has_missing_gap _ _ _ _ _ _ pa_holds0) in E as (b & q & Hq & Hb & Hc).
    exfalso. apply Hc, pa_cov0. rewrite Forall_forall in pa_end0. specialize (pa_end0 q Hq).
    pose proof (Rx.h_segs _ _ _ _ _ _ pa_holds0) as HF. rewrite Forall_forall in HF.
    destruct (HF q Hq) as (? & ? & _). lia.
Qed.

(** The next segment goes to the end of the list. *)
Lemma add_end e n p pre :
  rx_cfg e -> 0 <= n < M -> 0 <= rx_next_highest e < M -> pdu_sn p = n -> rx_list e = pre ->
  Forall (fun q => 0 <= pdu_sn q < M /\
    (key (rx_next_highest e) (pdu_sn q) < key (rx_next_highest e) n \/
     pdu_sn q = n /\ pdu_so q <= pdu_so p)) pre ->
  nr_rlc_pdu_list_add (sn_compare_rx e) (rx_list e) p = pre ++ [p].
Proof using Hlen HW.
  intros Hc Hn Hb Hp -> HF. apply insert_when_end. eapply Forall_impl; [exact HF|]. cbn.
  intros q (Hq & H). unfold sn_compare_rx. rewrite Hp, !modulus_rx_key by done.
  destruct H as [H|[H1 H2]].
  - rewrite Z.gtb_ltb, (proj2 (Z.ltb_ge _ _)) by lia. cbn.
    destruct (Z.eqb_spec (pdu_sn q) n) as [E|]; [rewrite E in H; lia|done].
  - rewrite H1, Z.sub_diag, Z.eqb_refl. change (0 >? 0) with false. cbn [orb andb].
    rewrite Z.gtb_ltb. apply Z.ltb_ge. lia.
Qed.

(** The segment [k .. k + m) of [D]. *)
Definition seg_pdu (n : Z) (D : bytes) (k m : Z) : nr_rlc_pdu_t :=
  mk_pdu n (Some (take (Z.to_nat m) (drop (Z.to_nat k) D))) m k (k =? 0) (k + m =? zlen D).

Lemma seg_pdu_of n D k m : 0 <= k -> 0 < m -> k + m <= zlen D -> Rx.seg_of D (seg_pdu n D k m).
Proof using Hlen HW. intros. unfold Rx.seg_of. cbn. split_and!; try done; lia. Qed.

Lemma holds_snoc n D st segs k m :
  Rx.holds (st ++ segs) n D st segs [] -> Forall (fun p => pdu_so p + pdu_size p <= k) segs ->
  0 <= k -> 0 < m -> k + m <= zlen D ->
  Rx.holds (st ++ segs ++ [seg_pdu n D k m]) n D st (segs ++ [seg_pdu n D k m]) [].
Proof using Hlen HW. 
  intros [] He H1 H2 H3. split; try done.
  - by rewrite app_nil_r.
  - apply Forall_app. split; [done|]. by constructor.
  - apply Forall_app. split; [done|]. constructor; [by apply seg_pdu_of|done].
  - apply StronglySorted_app. split_and!; [|done|repeat constructor].
    intros p q Hp Hq. apply list_elem_of_singleton in Hq as ->. cbn. rewrite Forall_forall in *.
    specialize (He p Hp). destruct (h_segs p Hp) as (_ & ? & _). lia.
Qed.

(** A run that stops before the end is not full. *)
Lemma not_full l n D st segs k :
  Rx.holds l n D st segs [] -> Forall (fun p => pdu_so p + pdu_size p <= k) segs -> k < zlen D ->
  Rx.sdu_full l n = false.
Proof using Hlen HW. 
  intros H He Hk. destruct (Rx.sdu_full l n) eqn:E; [|done]. exfalso.
  rewrite (Rx.sdu_full_covered _ _ _ _ _ _ H) in E. destruct (Rx.h_data _ _ _ _ _ _ H).
  destruct (E (zlen D - 1)) as (p & Hp & Hb); [lia|]. rewrite Forall_forall in He.
  specialize (He p Hp). lia.
Qed.

(** First segment of an SDU: the window moves. *)
Lemma recv_first e n D m :
  rx_inv e n [] 0 -> 0 < m < zlen D -> zlen D <= NR_SDU_MAX ->
  let p := seg_pdu n D 0 m in
  exists e', reception_actions (e <| rx_size ::= Z.add m |>
      <| rx_list := nr_rlc_pdu_list_add (sn_compare_rx e) (rx_list e) p |>) p = Ok e' /\
    calls (common e') = calls (common e) /\ rx_inv e' n D m.
Proof using Hlen HW.
  intros [] Hm HD p. pose proof W_big as HW2. pose proof (next_bound n) as Hnb.
  destruct ri_state0 as [(_ & Eh & Hst)|(Hk & _)]; [|lia]. pose proof ri_cfg0 as (C1 & C2 & C3).
  rewrite (add_end e n p (rx_list e)); try done; [|rewrite Eh; lia|].
  2: { destruct Hst as [_ HF]. eapply Forall_impl; [exact HF|]. cbn. intros q (? & ? & _).
       split; [done|]. left. rewrite Eh, key_self by lia. lia. }
  set (e1 := e <| rx_size ::= _ |> <| rx_list := _ |>).
  assert (H1 : forall st, stale n W st \/ stale ((n + 1) mod M) (W - 1) st ->
      Rx.holds (st ++ [p]) n D st [p] []).
  { intros st Hs. apply (holds_snoc n D st [] 0 m); try done; try lia.
    split; try done; [|constructor|lia].
    destruct Hs as [Hs|Hs]; eapply stale_ne; try exact Hs; [rewrite key_self|rewrite key_prev]; lia. }
  assert (Hp : forall st, stale ((n + 1) mod M) (W - 1) st -> forall e', rx_list e' = st ++ [p] ->
      partial e' n D m st [p]).
  { intros st Hs e' E. split; try done; [rewrite E; auto| | |].
    - unfold Rx.sum_size. cbn. lia.
    - constructor; [cbn; lia|done].
    - intros b Hb. exists p. cbn. split; [set_solver|lia]. }
  unfold reception_actions, update_window, sdu_full. cbn [pdu_sn p seg_pdu].
  rewrite (not_full (rx_list e1) n D (rx_list e) [p] m); [|by apply H1; left|constructor; [cbn; lia|done]|lia].
  unfold sn_compare_rx at 1. rewrite (modulus_rx_key e1 n), (modulus_rx_key e1 (rx_next_highest e1)) by
    (done || (cbn; rewrite ?Eh; lia)).
  change (rx_next_highest e1) with (rx_next_highest e). rewrite Eh, Z.sub_diag, Z.leb_refl.
  change (sn_modulus e1) with (sn_modulus e). rewrite C2, rem_next by lia.
  set (e2 := e1 <| rx_next_highest := _ |>).
  destruct (stale_discard n (rx_list e) p e2) as (c & st' & E & Cc & Cs); try done.
  change (rx_list e2) with (rx_list e ++ [p]). rewrite E. set (e3 := e2 <| common := c |> <| rx_list := _ |>).
  assert (I : rx_inv e3 n D m).
  { split; try done; [cbn; lia|]. right. split; [lia|]. split; [done|]. exists st', [p]. by apply Hp. }
  unfold sn_compare_rx. rewrite !modulus_rx_key by (done || exact Hnb || (change (0 <= rx_next_reassembly e < M); lia)).
  change (rx_next_highest e3) with ((n + 1) mod M). change (rx_next_reassembly e3) with (rx_next_reassembly e).
  rewrite ri_next0, key_prev, key_self, (proj2 (Z.leb_gt _ _)) by lia. mon.
  rewrite (timer_idle e3 n D m I). exists e3. split_and!; done.
Qed.

(** What the list of a partial SDU looks like when a segment comes. *)
Lemma partial_add e n D k m st segs :
  rx_inv e n D k -> partial e n D k st segs -> 0 < k -> rx_next_highest e = (n + 1) mod M ->
  0 < m -> k + m <= zlen D ->
  nr_rlc_pdu_list_add (sn_compare_rx e) (rx_list e) (seg_pdu n D k m) = st ++ segs ++ [seg_pdu n D k m].
Proof using Hlen HW.
  intros [] [] Hk Eh Hm Hkm. pose proof W_big. pose proof (next_bound n).
  pose proof (Rx.h_split _ _ _ _ _ _ pa_holds0) as El. rewrite app_nil_r in El.
  rewrite (add_end e n _ (rx_list e)); try done; [by rewrite El, <- app_assoc|by rewrite Eh|].
  rewrite El, Eh. apply Forall_app. split.
  - destruct pa_stale0 as [_ HF]. eapply Forall_impl; [exact HF|]. cbn. intros q (? & ? & _).
    split; [done|]. left. rewrite key_prev; lia.
  - pose proof (Rx.h_run _ _ _ _ _ _ pa_holds0) as HR. pose proof (Rx.h_segs _ _ _ _ _ _ pa_holds0) as HS.
    rewrite Forall_forall in *. intros q Hq. specialize (HR q Hq). specialize (pa_end0 q Hq).
    destruct (HS q Hq) as (_ & ? & _). split; [lia|]. right. cbn. lia.
Qed.

Lemma partial_snoc n D k m st segs e e' :
  partial e n D k st segs -> 0 < k -> 0 < m -> k + m <= zlen D ->
  rx_list e' = st ++ segs ++ [seg_pdu n D k m] ->
  partial e' n D (k + m) st (segs ++ [seg_pdu n D k m]).
Proof using Hlen HW.
  intros [] Hk Hm Hkm El. split; try done.
  - rewrite El. apply holds_snoc; try done; [|lia].
    pose proof (Rx.h_split _ _ _ _ _ _ pa_holds0) as E. rewrite app_nil_r in E. by rewrite <- E.
  - rewrite Rx.sum_size_app, pa_sum0. unfold Rx.sum_size. cbn. lia.
  - apply Forall_app. split; [eapply Forall_impl; [exact pa_end0|]; cbn; lia|]. constructor; [cbn; lia|done].
  - intros b Hb. destruct (Z.lt_ge_cases b k) as [Hl|Hl].
    + destruct (pa_cov0 b) as (p & Hp & ?); [lia|]. exists p. set_solver.
    + exists (seg_pdu n D k m). cbn. set_solver by lia.
Qed.

(** A middle segment is stored. *)
Lemma recv_middle e n D k m :
  rx_inv e n D k -> 0 < k -> 0 < m -> k + m < zlen D ->
  let p := seg_pdu n D k m in
  exists e', reception_actions (e <| rx_size ::= Z.add m |>
      <| rx_list := nr_rlc_pdu_list_add (sn_compare_rx e) (rx_list e) p |>) p = Ok e' /\
    calls (common e') = calls (common e) /\ rx_inv e' n D (k + m).
Proof using Hlen HW.
  intros I Hk Hm Hkm p. pose proof I as []. pose proof W_big. pose proof (next_bound n).
  destruct ri_state0 as [(? & _)|(_ & Eh & st & segs & Pa)]; [lia|].
  unfold p. rewrite (partial_add e n D k m st segs) by (done || lia). fold p.
  set (e1 := e <| rx_size ::= _ |> <| rx_list := _ |>).
  pose proof (partial_snoc n D k m st segs e e1 Pa Hk Hm ltac:(lia) eq_refl) as Pa'. fold p in Pa'.
  assert (I1 : rx_inv e1 n D (k + m)).
  { split; try done; [cbn; lia|]. right. split; [lia|]. split; [done|]. eauto. }
  unfold reception_actions, update_window, sdu_full. change (pdu_sn p) with n.
  rewrite (not_full (rx_list e1) n D st (segs ++ [p]) (k + m)) by (apply Pa' || lia).
  unfold sn_compare_rx at 1. rewrite !modulus_rx_key by (done || (change (rx_next_highest e1) with (rx_next_highest e); rewrite Eh; lia)).
  change (rx_next_highest e1) with (rx_next_highest e). rewrite Eh, key_prev, key_self by lia.
  rewrite (proj2 (Z.leb_gt _ _)) by lia. mon.
  rewrite (timer_idle e1 n D (k + m) I1). exists e1. by split_and!.
Qed.

Lemma stale_delivered n st sg :
  0 <= n < M -> stale ((n + 1) mod M) (W - 1) st ->
  Forall (fun q => pdu_sn q = n /\ pdu_data q = None /\ pdu_size q = 0) sg ->
  stale ((n + 1) mod M) W (st ++ sg).
Proof using Hlen HW.
  intros Hn [HS HF] Hsg. pose proof (key_prev n Hn) as K. rewrite Forall_forall in HF, Hsg. split.
  - apply StronglySorted_app. split_and!; [|done|].
    + intros p q Hp Hq. destruct (Hsg q Hq) as (-> & _). destruct (HF p Hp) as (_ & ? & _). lia.
    + clear HF. induction sg as [|q sg IH]; [constructor|]. constructor; [apply IH; set_solver|].
      apply Forall_forall. intros r Hr. destruct (Hsg q ltac:(set_solver)) as (-> & _).
      destruct (Hsg r ltac:(set_solver)) as (-> & _). lia.
  - apply Forall_forall. intros p Hp. apply elem_of_app in Hp as [Hp|Hp].
    + destruct (HF p Hp) as (? & ? & ? & ?). split_and!; try done; lia.
    + destruct (Hsg p Hp) as (-> & ? & ?). split_and!; try done; lia.
Qed.

(** After the delivery of [n], [n + 1] is the next SN to reassemble. *)
Lemma skip_one e n st sg :
  sn_modulus e = M -> 0 <= n -> rx_list e = st ++ sg -> sg <> [] ->
  Forall (fun p => pdu_sn p <> n) st ->
  Forall (fun q => pdu_sn q = n /\ pdu_data q = None /\ pdu_size q = 0) sg ->
  Forall (fun p => pdu_sn p <> (n + 1) mod M) (st ++ sg) ->
  first_not_delivered e n = Ok ((n + 1) mod M).
Proof using Hlen HW.
  intros Em Hn El Hne Hst Hsg Hnx. pose proof W_big. unfold first_not_delivered. rewrite Em.
  destruct (Z.to_nat M) as [|fuel] eqn:Ef; [unfold M in *; lia|]. cbn [skip_delivered].
  assert (D1 : sdu_delivered e n = true).
  { unfold sdu_delivered, Rx.sdu_delivered. rewrite El, Rx.find_sn_skip by done.
    destruct sg as [|q sg]; [done|]. apply Forall_cons in Hsg as [(E & Ed & _) _]. cbn.
    by rewrite E, Z.eqb_refl, Ed. }
  assert (D2 : sdu_delivered e ((n + 1) mod M) = false).
  { unfold sdu_delivered, Rx.sdu_delivered. by rewrite El, Rx.find_sn_none. }
  rewrite D1, Em, rem_next by done. destruct fuel; cbn [skip_delivered]; by rewrite D2.
Qed.

(** The last segment completes the SDU, which is delivered. *)
Lemma recv_last e n D k :
  rx_inv e n D k -> 0 < k -> k < zlen D ->
  let m := zlen D - k in
  let p := seg_pdu n D k m in
  exists e', reception_actions (e <| rx_size ::= Z.add m |>
      <| rx_list := nr_rlc_pdu_list_add (sn_compare_rx e) (rx_list e) p |>) p = Ok e' /\
    calls (common e') = calls (common e) ++ [DeliverSdu D] /\ rx_inv e' ((n + 1) mod M) [] 0.
Proof using Hlen HW.
  intros I Hk HkD m p. pose proof I as []. pose proof W_big. pose proof (next_bound n) as Hnb.
  destruct ri_state0 as [(? & _)|(_ & Eh & st & segs & Pa)]; [lia|].
  unfold p. rewrite (partial_add e n D k m st segs) by (done || lia). fold p.
  set (e1 := e <| rx_size ::= _ |> <| rx_list := _ |>).
  pose proof (partial_snoc n D k m st segs e e1 Pa Hk ltac:(lia) ltac:(lia) eq_refl) as Pa'. fold p in Pa'.
  destruct Pa'. set (sg := segs ++ [p]) in *. unfold reception_actions, update_window, sdu_full. change (pdu_sn p) with n.
  assert (Hfull : Rx.sdu_full (rx_list e1) n = true).
  { apply (Rx.sdu_full_covered _ _ _ _ _ _ pa_holds0). intros b Hb. apply pa_cov0. lia. }
  rewrite Hfull. unfold reassemble_and_deliver.
  rewrite (Rx.reassemble_full consume _ _ _ _ _ _ (rx_size e1) pa_holds0 Hfull). mon.
  rewrite app_nil_r, pa_sum0. change (rx_size e1) with (m + rx_size e). rewrite ri_size0.
  replace (m + k - (k + m)) with 0 by lia.
  match goal with |- context [if n =? rx_next_reassembly ?x then _ else _] => set (e2 := x) end.
  change (rx_next_reassembly e2) with (rx_next_reassembly e). rewrite ri_next0, Z.eqb_refl.
  assert (Hrun : Forall (fun q => pdu_sn q = n /\ pdu_data q = None /\ pdu_size q = 0) (consume <$> sg)).
  { pose proof (Rx.h_run _ _ _ _ _ _ pa_holds0) as HR. rewrite Forall_forall in *. intros q Hq.
    apply list_elem_of_fmap in Hq as (r & -> & Hr). cbn. auto. }
  assert (Hst : stale ((n + 1) mod M) W (st ++ (consume <$> sg))) by (by apply stale_delivered).
  assert (Hd : first_not_delivered e2 n = Ok ((n + 1) mod M)).
  { apply (skip_one e2 n st (consume <$> sg)); try done; [apply ri_cfg0|lia| |by eapply stale_ne; [exact pa_stale0|rewrite key_prev; lia]|].
    - intros E. apply fmap_nil_inv in E. unfold sg in E. by apply app_eq_nil in E as [_ ?].
    - eapply stale_ne; [exact Hst|]. rewrite key_self; lia. }
  rewrite Hd. mon. set (e3 := e2 <| rx_next_reassembly := _ |>).
  assert (I3 : rx_inv e3 ((n + 1) mod M) [] 0) by (split; try done; by left).
  rewrite (timer_idle e3 _ _ _ I3). exists e3. by split_and!.
Qed.

Lemma rx_inv_common e n D k c : rx_inv e n D k -> rx_inv (e <| common := c |>) n D k.
Proof using Hlen HW.
  intros []. split; try done. destruct ri_state0 as [?|(? & ? & st & segs & [])]; [by left|].
  right. split; [done|]. split; [done|]. exists st, segs. by split.
Qed.

Lemma rx_inv_time e n D k t : rx_inv e n D k -> rx_inv (e <| t_current := t |>) n D k.
Proof using Hlen HW.
  intros []. split; try done. destruct ri_state0 as [?|(? & ? & st & segs & [])]; [by left|].
  right. split; [done|]. split; [done|]. exists st, segs. by split.
Qed.

Lemma rx_inv_zero e n D D' : rx_inv e n D 0 -> rx_inv e n D' 0.
Proof using Hlen HW. intros []. split; try done. left. destruct ri_state0 as [?|(? & _)]; [done|lia]. Qed.

(** One PDU of the sender, received. *)
Lemma recv_piece e n D k m pdu :
  rx_inv e n D k -> 0 <= k -> 0 < m -> k + m <= zlen D -> zlen D <= NR_SDU_MAX ->
  um_pdu len n k (k =? 0) (k + m =? zlen D) (take (Z.to_nat m) (drop (Z.to_nat k) D)) pdu ->
  exists e', nr_rlc_entity_um_recv_pdu e pdu (zlen pdu) = Ok e' /\
    if k + m =? zlen D
    then calls (common e') = calls (common e) ++ [DeliverSdu D] /\
         rx_inv e' (if k =? 0 then n else (n + 1) mod M) [] 0
    else calls (common e') = calls (common e) /\ rx_inv e' n D (k + m).
Proof using Hlen HW.
  intros I Hk Hm Hkm HD Hp. pose proof (ri_cfg _ _ _ _ I) as (C1 & C2 & C3).
  assert (Hz : zlen (take (Z.to_nat m) (drop (Z.to_nat k) D)) = m).
  { unfold zlen in *. rewrite length_take, length_drop. lia. }
  rewrite (recv_pdu_ok e pdu n k (k =? 0) (k + m =? zlen D) (take (Z.to_nat m) (drop (Z.to_nat k) D)));
    rewrite ?C1, ?Hz; try done; [|apply I|unfold NR_SDU_MAX in *; lia|intros E; bool_prop; lia].
  set (e1 := stat _ e).
  assert (I1 : rx_inv e1 n D k) by (by apply rx_inv_common).
  assert (Hf : (if k =? 0 then 0 else k) = k) by (destruct (Z.eqb_spec k 0); lia).
  destruct ((k =? 0) && (k + m =? zlen D)) eqn:Efl.
  - apply andb_true_iff in Efl as [Ef El]. rewrite El, Ef. bool_prop. subst k.
    eexists. split; [reflexivity|]. change (Z.to_nat 0) with O. rewrite drop_0, firstn_all2 by (unfold zlen in *; lia).
    split; [done|]. apply (rx_inv_zero _ _ D). by apply rx_inv_common, rx_inv_common.
  - rewrite Hf. destruct Hp as (hdr & -> & Hh & _). rewrite <- Hh, zlen_app.
    rewrite recv_segment_add; rewrite ?Hz; [|lia| |].
    2: { rewrite (ri_size _ _ _ _ I1). pose proof (ri_max _ _ _ _ I1). lia. }
    2: { rewrite (ri_next _ _ _ _ I1). unfold sn_compare_rx. lia. }
    change (mk_pdu _ _ _ _ _ _) with (seg_pdu n D k m). cbv zeta.
    destruct (Z.eqb_spec (k + m) (zlen D)) as [El|El]; destruct (Z.eqb_spec k 0) as [Ek|Ek]; try done.
    + assert (m = zlen D - k) as -> by lia. exact (recv_last e1 n D k I1 ltac:(lia) ltac:(lia)).
    + subst k. exact (recv_first e1 n D m (rx_inv_zero _ _ _ _ I1) ltac:(lia) HD).
    + exact (recv_middle e1 n D k m I1 ltac:(lia) Hm ltac:(lia)).
Qed.

Lemma rx_set_time e n D k now : rx_inv e n D k ->
  exists e', nr_rlc_entity_um_set_time e now = Ok e' /\ common e' = common e /\ rx_inv e' n D k.
Proof using Hlen HW.
  intros I. unfold nr_rlc_entity_um_set_time, check_t_reassembly.
  change (t_reassembly_start _) with (t_reassembly_start e) at 1. rewrite (ri_timer _ _ _ _ I). cbn [orb Z.eqb].
  eexists. split; [reflexivity|]. split; [done|]. by apply rx_inv_time.
Qed.
End Receiver.

(** ** The link *)

Record link := mk_link {
  l_tx : nr_rlc_entity_um_t;
  l_rx : nr_rlc_entity_um_t;
  l_sent : list bytes       (** the SDUs the sender accepted *) }.

Inductive link_op :=
| Send (sdu : bytes) (sdu_id now : Z)
| Grant (size now : Z)
| Tick (now : Z).

(** The sender puts a PDU into [buf], the receiver gets it. *)
Definition exchange (st : link) (buf : bytes) (size now : Z) : res link :=
  '(ret, b, tx) ← nr_rlc_entity_um_generate_pdu (l_tx st) buf size now;
  if ret =? 0 then mret (mk_link tx (l_rx st) (l_sent st))
  else
    rx ← nr_rlc_entity_um_recv_pdu (l_rx st) (take (Z.to_nat ret) b) ret;
    mret (mk_link tx rx (l_sent st)).

(** A grant of [size] bytes comes with a transport block of that size; what the
    sender put into it is received. *)
Definition link_step (st : link) (op : link_op) : res link :=
  match op with
  | Send sdu sdu_id now =>
      tx ← nr_rlc_entity_um_recv_sdu (l_tx st) sdu (zlen sdu) sdu_id now;
      mret (mk_link tx (l_rx st)
        (if zlen sdu <=? nr_rlc_entity_um_available_tx_space (l_tx st)
         then l_sent st ++ [sdu] else l_sent st))
  | Grant size now => exchange st (replicate (Z.to_nat size) 0) size now
  | Tick now =>
      tx ← nr_rlc_entity_um_set_time (l_tx st) now;
      rx ← nr_rlc_entity_um_set_time (l_rx st) now;
      mret (mk_link tx rx (l_sent st))
  end.

Fixpoint link_run (st : link) (ops : list link_op) : res link :=
  match ops with
  | [] => mret st
  | op :: ops => st ← link_step st op; link_run st ops
  end.

(** With a 12-bit SN a grant of 2 bytes makes the sender lose an SDU (see
    [um_two_byte_grant_loses_sdu]). *)
Definition op_ok (len : Z) (op : link_op) : Prop :=
  match op with
  | Send sdu _ _ => 0 < zlen sdu <= NR_SDU_MAX
  | Grant size _ => 0 <= size /\ (len = 12 -> size <> 2)
  | Tick _ => True
  end.

Definition link_inv (len : Z) (st : link) : Prop :=
  exists q k delivered, tx_inv len (l_tx st) q k /\
    rx_inv len (2 ^ len / 2) (l_rx st) (tx_next (l_tx st)) (default [] (head q)) k /\
    calls (common (l_rx st)) = DeliverSdu <$> delivered /\ l_sent st = delivered ++ q.

Lemma half_window len : len_ok len -> 2 ^ len = 2 * (2 ^ len / 2).
Proof. intros [->| ->]; reflexivity. Qed.

Lemma queue_at_nil h l k : queue_at h l [] k -> l = [] /\ k = 0.
Proof. by destruct l. Qed.

Lemma queue_at_cons h l D q k : queue_at h l (D :: q) k -> 0 <= k < zlen D /\ zlen D <= NR_SDU_MAX.
Proof. destruct l; [done|]. intros [(_ & _ & _ & ? & ? & _) _]. done. Qed.

Lemma head_too_big len e D q k size : tx_inv len e (D :: q) k ->
  size < um_header_size len (k =? 0) true + 1 ->
  match tx_list e with [] => True | s :: _ => size < compute_pdu_header_size e s + 1 end.
Proof.
  intros T Hlt. pose proof (ti_queue _ _ _ _ T) as Q. destruct (tx_list e) as [|s l]; [done|].
  destruct Q as [(_ & _ & _ & _ & _ & Sf & Sl) _].
  unfold compute_pdu_header_size, header_size. by rewrite Sf, Sl, (ti_len _ _ _ _ T).
Qed.

(** One grant on a queue whose head is [D], from byte [k] on. *)
Lemma grant_step len st D q k delivered buf size now :
  len_ok len -> tx_inv len (l_tx st) (D :: q) k ->
  rx_inv len (2 ^ len / 2) (l_rx st) (tx_next (l_tx st)) D k ->
  calls (common (l_rx st)) = DeliverSdu <$> delivered -> l_sent st = delivered ++ D :: q ->
  op_ok len (Grant size now) -> zlen buf = size ->
  exists st', exchange st buf size now = Ok st' /\ link_inv len st' /\
    (5 <= size -> tx_size (l_tx st') < tx_size (l_tx st)) /\
    calls (common (l_rx st)) `prefix_of` calls (common (l_rx st')).
Proof.
  intros Hlen T R C S [Hs H2] Hbuf. pose proof (half_window len Hlen) as HW.
  pose proof (queue_at_cons _ _ _ _ _ (ti_queue _ _ _ _ T)) as [Hk HD].
  unfold exchange.
  set (h := um_header_size len (k =? 0) true). set (h' := um_header_size len (k =? 0) false).
  assert (Hh : 1 <= h <= h' /\ h' <= 4 /\ (2 <= size -> h + 1 <= size -> h' + 1 <= size)).
  { unfold h, h', um_header_size, header_size. clear -Hlen H2.
    destruct Hlen as [->| ->]; [|specialize (H2 eq_refl)];
      change (12 =? 12) with true; change (6 =? 12) with false; destruct (k =? 0); cbn; lia. }
  destruct (Z.lt_ge_cases size (h + 1)) as [Hlt|Hge].
  { rewrite (generate_none len _ (D :: q) k) by (done || by eapply head_too_big).
    mon. eexists. split; [reflexivity|]. split; [|split; [lia|done]]. exists (D :: q), k, delivered. by destruct st. }
  destruct (Z.le_gt_cases (h + (zlen D - k)) size) as [Hfit|Hbig].
  - destruct (generate_last len (l_tx st) D q k buf size now Hlen T) as (b & tx & -> & Hp & T' & Nx & Mx & Sx);
      [fold h; lia|]. fold h in Hp |- *. mon. rewrite (proj2 (Z.eqb_neq _ _)) by lia.
    set (ret := h + (zlen D - k)) in *.
    assert (Hz : zlen (take (Z.to_nat ret) b) = ret).
    { destruct Hp as (hdr & -> & Zh & _). rewrite zlen_app, Zh. fold h. unfold ret, zlen in *. rewrite length_drop. lia. }
    destruct (recv_piece len (2 ^ len / 2) Hlen HW (l_rx st) (tx_next (l_tx st)) D k (zlen D - k)
      (take (Z.to_nat ret) b) R) as (rx & E & P); try lia.
    { replace (k + (zlen D - k)) with (zlen D) by lia. rewrite Z.eqb_refl.
      rewrite firstn_all2 by (unfold zlen; rewrite length_drop; lia). done. }
    rewrite Hz in E. rewrite E. mon. replace (k + (zlen D - k)) with (zlen D) in P by lia.
    rewrite Z.eqb_refl in P. destruct P as [P1 P2].
    eexists. split; [reflexivity|]. split; [|cbn; split; [lia|rewrite P1; by eexists]].
    exists q, 0, (delivered ++ [D]). cbn. split_and!; [done| | |by rewrite <- app_assoc].
    + rewrite Nx. by eapply rx_inv_zero.
    + by rewrite P1, C, fmap_app.
  - set (m := size - h').
    assert (Hm : 0 < m < zlen D - k) by (unfold m; lia).
    destruct (generate_split len (l_tx st) D q k buf size now Hlen T) as (b & tx & -> & Hp & T' & Nx & Mx & Sx);
      [exact Hm|lia|fold h; lia|]. fold h' in Hp, T', Sx. fold m in Hp, T', Sx. mon. rewrite (proj2 (Z.eqb_neq _ _)) by lia.
    assert (Hz : zlen (take (Z.to_nat size) b) = size).
    { destruct Hp as (hdr & -> & Zh & _). rewrite zlen_app, Zh. fold h'. unfold m, zlen in *.
      rewrite length_take, length_drop. lia. }
    destruct (recv_piece len (2 ^ len / 2) Hlen HW (l_rx st) (tx_next (l_tx st)) D k m
      (take (Z.to_nat size) b) R) as (rx & E & P); try lia.
    { by rewrite (proj2 (Z.eqb_neq (k + m) _)) by lia. }
    rewrite Hz in E. rewrite E. mon. rewrite (proj2 (Z.eqb_neq (k + m) _)) in P by lia. destruct P as [P1 P2].
    eexists. split; [reflexivity|]. split; [|cbn; split; [lia|by rewrite P1]].
    exists (D :: q), (k + m), delivered. cbn. rewrite Nx, P1. by split_and!.
Qed.

Lemma tx_set_time len e q k now : tx_inv len e q k ->
  exists e', nr_rlc_entity_um_set_time e now = Ok e' /\ tx_next e' = tx_next e /\
    tx_size e' = tx_size e /\ tx_inv len e' q k.
Proof.
  intros []. unfold nr_rlc_entity_um_set_time, check_t_reassembly. cbn. rewrite ti_idle0. cbn [orb Z.eqb].
  eexists. split; [reflexivity|]. split_and!; [done|done|]. by split.
Qed.

(** One exchange; it only adds to what was delivered. *)
Lemma exchange_inv len st buf size now : len_ok len -> link_inv len st -> op_ok len (Grant size now) -> zlen buf = size ->
  exists st', exchange st buf size now = Ok st' /\ link_inv len st' /\ calls (common (l_rx st)) `prefix_of` calls (common (l_rx st')).
Proof.
  intros Hlen (q & k & dl & T & R & C & S) Hop Hbuf. destruct q as [|D q].
  - destruct (queue_at_nil _ _ _ (ti_queue _ _ _ _ T)) as [El ->]. unfold exchange. rewrite (generate_none len _ [] 0); [|done|by rewrite El]. mon.
    eexists. split; [reflexivity|]. split; [|done]. exists [], 0, dl. by destruct st.
  - destruct (grant_step len st D q k dl buf size now) as (st' & ? & ? & _ & ?); eauto.
Qed.

Lemma zlen_grant size : 0 <= size -> zlen (replicate (Z.to_nat size) 0) = size.
Proof. intros H. unfold zlen. rewrite length_replicate. lia. Qed.

Lemma link_step_inv len st op : len_ok len -> link_inv len st -> op_ok len op ->
  exists st', link_step st op = Ok st' /\ link_inv len st'.
Proof.
  intros Hlen (q & k & dl & T & R & C & S) Hop. pose proof (half_window len Hlen) as HW.
  destruct op as [sdu id now|size now|now].
  - cbn [link_step]. destruct (recv_sdu_tx len (l_tx st) q k sdu id now T Hop) as (e' & -> & Nx & _ & T').
    mon. eexists. split; [reflexivity|].
    exists (if zlen sdu <=? nr_rlc_entity_um_available_tx_space (l_tx st) then q ++ [sdu] else q), k, dl.
    cbn. rewrite Nx, S. split_and!; [done| |done|case_if; by rewrite ?app_assoc].
    case_if; [|done]. destruct q as [|D q]; [|done]. cbn.
    destruct (queue_at_nil _ _ _ (ti_queue _ _ _ _ T)) as [_ ->]. by eapply rx_inv_zero.
  - destruct (exchange_inv len st (replicate (Z.to_nat size) 0) size now Hlen) as (st' & E & I & _); [by exists q, k, dl|done|by apply zlen_grant, Hop|]. by exists st'.
  - cbn [link_step]. destruct (tx_set_time len _ _ _ now T) as (tx & -> & Nx & _ & T').
    destruct (rx_set_time len _ Hlen HW _ _ _ _ now R) as (rx & -> & Cx & R'). mon.
    eexists. split; [reflexivity|]. exists q, k, dl. cbn. rewrite Nx, Cx. by split_and!.
Qed.

(** A grant only adds to what was delivered. *)
Lemma link_grant len st size now : len_ok len -> link_inv len st -> op_ok len (Grant size now) ->
  exists st', link_step st (Grant size now) = Ok st' /\ link_inv len st' /\
    calls (common (l_rx st)) `prefix_of` calls (common (l_rx st')).
Proof.
  intros Hlen I Hop. apply exchange_inv; [done|done|done|]. by apply zlen_grant, Hop.
Qed.

(** The clocks of the two ends are independent. *)
Lemma link_time len tx rx sent now now' : len_ok len -> link_inv len (mk_link tx rx sent) ->
  exists tx' rx', nr_rlc_entity_um_set_time tx now = Ok tx' /\ nr_rlc_entity_um_set_time rx now' = Ok rx' /\
    link_inv len (mk_link tx' rx sent) /\ link_inv len (mk_link tx' rx' sent) /\
    calls (common rx') = calls (common rx) /\ calls (common tx') = calls (common tx) /\
    nr_rlc_entity_um_available_tx_space tx' = nr_rlc_entity_um_available_tx_space tx.
Proof.
  intros Hlen (q & k & dl & T & R & C & S). cbn in *. pose proof (half_window len Hlen) as HW.
  destruct (tx_set_time len _ _ _ now T) as (tx' & E & Nx & Sx & T').
  destruct (rx_set_time len _ Hlen HW _ _ _ _ now' R) as (rx' & E' & Cx & R').
  assert (Et : common tx' = common tx /\ tx_maxsize tx' = tx_maxsize tx).
  { unfold nr_rlc_entity_um_set_time, check_t_reassembly in E. cbn in E. rewrite (ti_idle _ _ _ _ T) in E.
    change (0 =? 0) with true in E. cbn [orb] in E. by apply mret_ok in E as <-. }
  destruct Et as [Ec Em]. unfold nr_rlc_entity_um_available_tx_space.
  exists tx', rx'. split; [done|]. split; [done|]. split; [|split; [|by rewrite Cx, Ec, Em, Sx]].
  all: exists q, k, dl; cbn; rewrite Nx, ?Cx; by split_and!.
Qed.

Lemma link_run_inv len ops st : len_ok len -> link_inv len st -> Forall (op_ok len) ops ->
  exists st', link_run st ops = Ok st' /\ link_inv len st'.
Proof.
  intros Hlen I Hops. revert st I. induction Hops as [|op ops Hop _ IH]; intros st I; [by exists st|].
  cbn [link_run]. destruct (link_step_inv len st op Hlen I Hop) as (st1 & -> & I1). mon. by apply IH.
Qed.

(** Enough grants of five bytes empty the queue. *)
Lemma link_drain len n g now st : len_ok len -> link_inv len st -> 5 <= g ->
  tx_list (l_tx st) = [] \/ tx_size (l_tx st) <= Z.of_nat n ->
  exists st', link_run st (replicate n (Grant g now)) = Ok st' /\ link_inv len st' /\
    tx_list (l_tx st') = [] /\ l_sent st' = l_sent st.
Proof.
  intros Hlen I Hg. revert st I. induction n as [|n IH]; intros st I Hn; cbn [replicate link_run].
  - exists st. split_and!; [done|done| |done]. destruct Hn as [|Hn]; [done|].
    destruct I as (q & k & dl & T & _). destruct q as [|D q]; [by apply (queue_at_nil _ _ _ (ti_queue _ _ _ _ T))|].
    pose proof (ti_size _ _ _ _ T) as Sz. pose proof (ti_queue _ _ _ _ T) as Q.
    destruct (tx_list (l_tx st)) as [|s l]; [done|]. destruct Q as [(_ & _ & E & ? & _) HF].
    cbn in Sz. assert (0 <= pending_bytes l); [|lia].
    clear -HF. induction HF as [|t D' l q (_ & _ & E & ? & _) _ IH]; cbn; lia.
  - assert (Hop : op_ok len (Grant g now)) by (cbn; lia).
    pose proof I as (q & k & dl & T & R & C & S). destruct q as [|D q].
    + destruct (queue_at_nil _ _ _ (ti_queue _ _ _ _ T)) as [El Ek].
      assert (Es : link_step st (Grant g now) = Ok st).
      { cbn [link_step]. unfold exchange. rewrite (generate_none len _ [] k); [|done|by rewrite El]. mon. by destruct st. }
      rewrite Es. mon. apply IH; [done|by left].
    + destruct (grant_step len st D q k dl (replicate (Z.to_nat g) 0) g now Hlen T R C S Hop ltac:(apply zlen_grant; lia)) as (st1 & E & I1 & Hlt & _).
      assert (Se : l_sent st1 = l_sent st).
      { unfold exchange in E. inv_res. repeat case_if; inv_res; done. }
      cbn [link_step]. rewrite E. mon. rewrite <- Se. apply IH; [done|]. right.
      destruct Hn as [Hn|Hn]; [|lia]. pose proof (ti_queue _ _ _ _ T) as Q. by rewrite Hn in Q.
Qed.

Lemma new_link len rxmax txmax t : len_ok len -> NR_SDU_MAX <= rxmax -> 0 <= txmax ->
  exists e, new_nr_rlc_entity_um rxmax txmax t len = Ok e /\ link_inv len (mk_link e e []) /\
    nr_rlc_entity_um_available_tx_space e = txmax.
Proof.
  intros Hlen Hr Ht. unfold new_nr_rlc_entity_um.
  destruct (new_common_ok NR_RLC_UM) as (c & -> & Hw & Hb & Hc & _).
  assert (E : negb ((len =? 6) || (len =? 12)) = false) by (by destruct Hlen as [->| ->]).
  rewrite E. mon. eexists. split; [reflexivity|]. split; [|cbn; apply Z.sub_0_r].
  assert (Hq : Z.shiftl 1 len = 2 ^ len /\ Z.quot (Z.shiftl 1 len) 2 = 2 ^ len / 2 /\ 0 < 2 ^ len)
    by (by destruct Hlen as [->| ->]).
  destruct Hq as (Hq1 & Hq2 & Hq3). rewrite Hq1 in *.
  exists [], 0, []. cbn. split_and!; try done.
  - split; cbn; rewrite ?Hb; auto with l2; done.
  - split; cbn; try done. left. split_and!; [done|done|]. split; constructor.
Qed.




