(* ===== verification/RlcUmSafe.v ===== *)
(** * UM: buffer accounting and the limits of the receiver

    Every operation of the sender keeps its queue, buffer status and SDU
    references consistent; deleting the entity then frees every SDU.  The
    second part records what the code does outside those conditions. *)

From S2P Require Import Prelude RlcPdu RlcSdu TimeStat RlcEntity RlcRx RlcUm RlcUmLink.

Import Um.

(** ** Discard and re-establishment *)

Lemma queue_remove h prev c next q k :
  queue_at h (prev ++ c :: next) q k -> seg_is_first c = true ->
  exists q' k', queue_at h (prev ++ next) q' k'.
Proof.
  destruct prev as [|s prev]; cbn [app].
  - destruct q as [|D q]; [done|]. intros [_ HF] _. exists q, 0. by destruct HF.
  - destruct q as [|D q]; [done|]. intros [Hs HF] _.
    apply Forall2_app_inv_l in HF as (q1 & q2 & F1 & F2 & ->).
    apply Forall2_cons_inv_l in F2 as (D' & q3 & _ & F3 & ->).
    exists (D :: q1 ++ q3), k. split; [done|]. by apply Forall2_app.
Qed.

Lemma discard_tx len e q k id : tx_inv len e q k ->
  exists e' q' k', nr_rlc_entity_um_discard_sdu e id = Ok e' /\ tx_inv len e' q' k'.
Proof.
  intros T. pose proof T as []. unfold nr_rlc_entity_um_discard_sdu.
  destruct (find_sdu_id_ok (heap e) id [] (tx_list e) (tx_list e) ti_heap) as (prev & cur & -> & E & _);
    [done|]. mon. cbn [app] in E. destruct cur as [|c next]; [by exists e, q, k|].
  destruct (seg_is_first c) eqn:Ef; [|by exists e, q, k].
  destruct (seg_is_last c) eqn:El; [|by exists e, q, k]. cbn [negb orb].
  set (e1 := if decide _ then _ else _).
  assert (E1 : e1 = e <| tx_list := prev ++ next |> <| tx_end :=
    if decide (tx_end e = Some (seg_addr c)) then seg_addr <$> last prev else tx_end e |>).
  { unfold e1. cbn. case_decide; [done|]. by destruct e. }
  rewrite E1. clear E1 e1. cbn. rewrite <- E in *.
  assert (Hk : heap_ok (heap e) (c :: prev ++ next)) by (by rewrite Permutation_middle).
  destruct (free_sdu_segment_data _ _ _ Hk) as (b & h & -> & Hok & Hfr). mon.
  destruct (queue_remove _ _ _ _ _ _ ti_queue Ef) as (q' & k' & Hq).
  assert (0 < seg_size c).
  { destruct prev as [|s prev], q as [|D q]; try done; cbn in ti_queue.
    - destruct ti_queue as [(_ & _ & ? & ? & _) _]. lia.
    - destruct ti_queue as [_ HF]. apply Forall2_app_inv_l in HF as (q1 & q2 & _ & F2 & _).
      apply Forall2_cons_inv_l in F2 as (D' & q3 & (_ & _ & ? & ? & _) & _). lia. }
  eexists _, q', k'. split; [reflexivity|].
  rewrite pending_bytes_app, pending_pdus_app in *. cbn in *.
  split; cbn; rewrite ?pending_bytes_app, ?pending_pdus_app; try done; try lia.
  - by apply tail_ok_remove.
  - by eapply queue_frame.
  - unfold compute_pdu_header_size. cbn. rewrite ti_len. lia.
Qed.

Lemma clear_tx len e q k : tx_inv len e q k ->
  exists e', clear_entity e = Ok e' /\ tx_inv len e' [] 0 /\ h_sdus (heap e') = ∅.
Proof.
  intros []. unfold clear_entity. cbn.
  destruct (free_sdu_segment_list_ok (tx_list e) (heap e) []) as (h & -> & Hk); [by rewrite app_nil_r|].
  cbn. eexists. split; [reflexivity|]. split; [|by apply heap_ok_nil].
  assert (0 <= pending_bytes (tx_list e)).
  { clear -ti_queue. revert ti_queue. generalize (tx_list e) as l. intros l.
    destruct l as [|s l], q as [|D q]; try done. intros [(_ & _ & E & ? & _) HF]. cbn.
    assert (0 <= pending_bytes l); [|lia]. clear -HF.
    induction HF as [|t D l q (_ & _ & E & ? & _) _ IH]; cbn; lia. }
  split; cbn; auto with l2; try done; lia.
Qed.

(** ** Every operation of the sender *)

Lemma generate_tx_inv len e q k buffer size now :
  len_ok len -> tx_inv len e q k -> 0 <= size <= zlen buffer -> (len = 12 -> size <> 2) ->
  exists ret b e' q' k', nr_rlc_entity_um_generate_pdu e buffer size now = Ok (ret, b, e') /\
    tx_inv len e' q' k'.
Proof.
  intros Hlen T Hs H2. destruct q as [|D q].
  { destruct (queue_at_nil _ _ _ (ti_queue _ _ _ _ T)) as [El _].
    rewrite (generate_none len e [] k) by (done || by rewrite El). by eexists _, _, e, [], k. }
  pose proof (queue_at_cons _ _ _ _ _ (ti_queue _ _ _ _ T)) as [Hk HD].
  set (h := um_header_size len (k =? 0) true). set (h' := um_header_size len (k =? 0) false).
  assert (Hh : 1 <= h <= h' /\ (2 <= size -> h + 1 <= size -> h' + 1 <= size)).
  { unfold h, h', um_header_size, header_size. clear -Hlen H2.
    destruct Hlen as [->| ->]; [|specialize (H2 eq_refl)];
      change (12 =? 12) with true; change (6 =? 12) with false; destruct (k =? 0); cbn; lia. }
  destruct (Z.lt_ge_cases size (h + 1)) as [Hlt|Hge].
  { rewrite (generate_none len e (D :: q) k) by (done || by eapply head_too_big).
    by eexists _, _, e, (D :: q), k. }
  destruct (Z.le_gt_cases (h + (zlen D - k)) size) as [Hfit|Hbig].
  - destruct (generate_last len e D q k buffer size now Hlen T) as (b & e' & -> & _ & T' & _); [fold h; lia|].
    by eexists _, _, e', q, 0.
  - destruct (generate_split len e D q k buffer size now Hlen T) as (b & e' & -> & _ & T' & _);
      [fold h'; lia|lia|fold h; lia|]. by eexists _, _, e', (D :: q), _.
Qed.

Inductive sender_op :=
| SendSdu (sdu : bytes) (sdu_id now : Z)
| SendGrant (buffer : bytes) (size now : Z)
| SendTick (now : Z)
| SendDiscard (sdu_id : Z)
| SendReestablish.

Definition sender_step (e : nr_rlc_entity_um_t) (op : sender_op) : res nr_rlc_entity_um_t :=
  match op with
  | SendSdu sdu id now => nr_rlc_entity_um_recv_sdu e sdu (zlen sdu) id now
  | SendGrant buffer size now => '(_, _, e) ← nr_rlc_entity_um_generate_pdu e buffer size now; mret e
  | SendTick now => nr_rlc_entity_um_set_time e now
  | SendDiscard id => nr_rlc_entity_um_discard_sdu e id
  | SendReestablish => nr_rlc_entity_um_reestablishment e
  end.

Fixpoint sender_run (e : nr_rlc_entity_um_t) (ops : list sender_op) : res nr_rlc_entity_um_t :=
  match ops with [] => mret e | op :: ops => e ← sender_step e op; sender_run e ops end.

Definition sender_op_ok (len : Z) (op : sender_op) : Prop :=
  match op with
  | SendSdu sdu _ _ => 0 < zlen sdu <= NR_SDU_MAX
  | SendGrant buffer size _ => 0 <= size <= zlen buffer /\ (len = 12 -> size <> 2)
  | _ => True
  end.

Lemma sender_step_inv len e q k op :
  len_ok len -> tx_inv len e q k -> sender_op_ok len op ->
  exists e' q' k', sender_step e op = Ok e' /\ tx_inv len e' q' k'.
Proof.
  intros Hlen T Hop. destruct op as [sdu id now|buffer size now|now|id|]; cbn in *.
  - destruct (recv_sdu_tx len e q k sdu id now T Hop) as (e' & -> & _ & _ & T'). eauto.
  - destruct (generate_tx_inv len e q k buffer size now Hlen T) as (? & ? & e' & q' & k' & -> & T');
      [apply Hop..|]. cbn. eauto.
  - destruct (tx_set_time len e q k now T) as (e' & -> & _ & _ & T'). eauto.
  - by eapply discard_tx.
  - destruct (clear_tx len e q k T) as (e' & E & T' & _). unfold nr_rlc_entity_um_reestablishment. eauto.
Qed.

(** The UM sender's accounting: after any sequence of SDUs, grants, ticks,
    discards and re-establishments (none of which faults) the buffer status
    reported to the MAC is the size of the PDUs that would carry the queued
    segments, the queued bytes fit the buffer limit, the tail pointer designates
    the last queued segment, and deleting the entity leaves no SDU allocated. *)
Theorem um_sender_accounting len rxmax txmax t ops maxsize :
  len_ok len -> NR_SDU_MAX <= rxmax -> 0 <= txmax -> Forall (sender_op_ok len) ops ->
  exists e0 e, new_nr_rlc_entity_um rxmax txmax t len = Ok e0 /\ sender_run e0 ops = Ok e /\
    nr_rlc_entity_um_buffer_status e maxsize = mk_bstatus 0 (pending_pdus len (tx_list e)) 0 /\
    pending_bytes (tx_list e) <= tx_maxsize e /\ tail_ok (tx_list e) (tx_end e) /\
    exists h, nr_rlc_entity_um_delete e = Ok h /\ h_sdus h = ∅.
Proof.
  intros Hlen Hr Ht Hops. destruct (new_link len rxmax txmax t Hlen Hr Ht) as (e0 & -> & (q & k & dl & T & _) & _).
  cbn in T. exists e0. assert (R : exists e q' k', sender_run e0 ops = Ok e /\ tx_inv len e q' k').
  { clear Hr Ht. revert e0 q k T. induction Hops as [|op ops Hop _ IH]; intros e0 q k T; [cbn; eauto|].
    cbn. destruct (sender_step_inv len e0 q k op Hlen T Hop) as (e1 & q1 & k1 & -> & T1). mon. by eapply IH. }
  destruct R as (e & q' & k' & R & T'). exists e. destruct (clear_tx len e q' k' T') as (e2 & E & _ & Hh).
  destruct T'. split_and!; try done; [|lia|].
  - unfold nr_rlc_entity_um_buffer_status. by rewrite ti_bst.
  - exists (heap e2). unfold nr_rlc_entity_um_delete. rewrite E. done.
Qed.

Lemma um_sender_accounting_witness :
  exists e0 e, new_nr_rlc_entity_um 20000 100 35 12 = Ok e0 /\
    sender_run e0 [SendSdu [1; 2; 3; 4] 7 0; SendSdu [5; 6] 8 0; SendGrant (replicate 4 0) 4 0;
                   SendDiscard 8; SendTick 3] = Ok e /\
    nr_rlc_entity_um_buffer_status e 0 = mk_bstatus 0 (pending_pdus 12 (tx_list e)) 0 /\
    pending_bytes (tx_list e) <= tx_maxsize e /\ tail_ok (tx_list e) (tx_end e) /\
    exists h, nr_rlc_entity_um_delete e = Ok h /\ h_sdus h = ∅.
Proof.
  apply (um_sender_accounting 12 20000 100 35 [SendSdu [1; 2; 3; 4] 7 0; SendSdu [5; 6] 8 0;
    SendGrant (replicate 4 0) 4 0; SendDiscard 8; SendTick 3] 0).
  - by right.
  - unfold NR_SDU_MAX. lia.
  - lia.
  - repeat constructor; cbn; unfold zlen, NR_SDU_MAX; cbn; lia.
Defined.

(** ** What happens outside those conditions *)

(** With a 12-bit SN a grant of exactly two bytes destroys the SDU at the head
    of the queue: nothing is sent, the SDU is off the list, and neither its bytes
    nor its buffer space are ever released. *)
Theorem um_two_byte_grant_loses_sdu e D q buffer now :
  tx_inv 12 e (D :: q) 0 -> 2 <= zlen D ->
  exists e' s, nr_rlc_entity_um_generate_pdu e buffer 2 now = Ok (0, buffer, e') /\
    tx_list e = s :: tx_list e' /\ tx_size e' = tx_size e /\
    hdata (heap e') (seg_sdu s) = Some D.
Proof.
  intros [] HD. destruct (tx_list e) as [|s l] eqn:El; [done|].
  destruct ti_queue as [(Hd & So & Sz & _ & _ & Sf & Sl) _].
  pose proof Hd as Hd'. unfold hdata in Hd'. apply fmap_Some in Hd' as (d & Hl & Ed).
  assert (Hh : compute_pdu_header_size e s = 1).
  { unfold compute_pdu_header_size, header_size. by rewrite Sf, Sl. }
  unfold nr_rlc_entity_um_generate_pdu. rewrite (generate_popped e s l d) by (done || lia). cbv zeta.
  rewrite Hh, Z.gtb_ltb, (proj2 (Z.ltb_lt _ _)) by lia. unfold resegment, sdu_upd, sdu_of. cbn.
  rewrite lookup_insert_eq. mon. unfold compute_pdu_header_size, header_size. cbn. rewrite Sf, ti_len. cbn.
  eexists _, s. split; [reflexivity|]. cbn. split_and!; try done.
  unfold hdata. cbn. rewrite insert_insert_eq, lookup_insert_eq. cbn. by rewrite Ed.
Qed.

Lemma um_two_byte_grant_loses_sdu_witness :
  exists e0 e, new_nr_rlc_entity_um 20000 100 35 12 = Ok e0 /\
    nr_rlc_entity_um_recv_sdu e0 [1; 2; 3] 3 7 0 = Ok e /\
    exists e' s, nr_rlc_entity_um_generate_pdu e [0; 0] 2 0 = Ok (0, [0; 0], e') /\
      tx_list e = s :: tx_list e' /\ tx_size e' = tx_size e /\ hdata (heap e') (seg_sdu s) = Some [1; 2; 3].
Proof.
  assert (Hm : NR_SDU_MAX <= 20000) by (unfold NR_SDU_MAX; lia).
  destruct (new_link 12 20000 100 35 (or_intror eq_refl) Hm ltac:(lia)) as
    (e0 & -> & (q & k & dl & T & _ & _ & S) & Ha).
  cbn in T, S. destruct dl; [|discriminate S]. destruct q; [|discriminate S].
  destruct (queue_at_nil _ _ _ (ti_queue _ _ _ _ T)) as [_ ->].
  exists e0. destruct (recv_sdu_tx 12 e0 [] 0 [1; 2; 3] 7 0 T) as (e & E & _ & _ & T').
  { unfold zlen, NR_SDU_MAX. cbn. lia. }
  rewrite Ha in T'. exists e. split; [done|]. split; [exact E|].
  apply (um_two_byte_grant_loses_sdu e [1; 2; 3] [] [0; 0] 0 T'). unfold zlen. cbn. lia.
Defined.

(** Discarding an SDU does not give its buffer space back: here the queue is
    empty again and the buffer still full, so that every further SDU is refused. *)
Theorem um_discard_keeps_space :
  exists e, (e ← new_nr_rlc_entity_um 1000 3 35 12;
             e ← nr_rlc_entity_um_recv_sdu e [1; 2; 3] 3 7 0;
             nr_rlc_entity_um_discard_sdu e 7) = Ok e /\
    tx_list e = [] /\ h_sdus (heap e) = ∅ /\ nr_rlc_entity_um_available_tx_space e = 0.
Proof. eexists. split; [vm_compute; reflexivity|]. split_and!; reflexivity. Qed.

(** The expiry of t-Reassembly discards segments without releasing their
    bytes: here the reception list is empty and 2 bytes still count as buffered. *)
Theorem um_t_reassembly_keeps_space :
  exists e, (e ← new_nr_rlc_entity_um 1000 1000 35 6;
             e ← nr_rlc_entity_um_set_time e 1;
             e ← nr_rlc_entity_um_recv_pdu e [64; 9] 2;
             e ← nr_rlc_entity_um_recv_pdu e [65; 8] 2;
             nr_rlc_entity_um_set_time e 37) = Ok e /\
    rx_list e = [] /\ rx_size e = 2.
Proof. eexists. split; [vm_compute; reflexivity|]. split; reflexivity. Qed.

(** A segment beyond the last one: three well-formed PDUs (a middle segment
    at offset 50, bytes 0 to 9, then the last segment at offset 10) make
    [reassemble_and_deliver] read before the start of a segment's data. *)
Theorem um_segment_beyond_last_reads_out_of_bounds :
  (e ← new_nr_rlc_entity_um 1000 1000 35 6;
   e ← nr_rlc_entity_um_recv_pdu e [192; 0; 50; 1] 4;
   e ← nr_rlc_entity_um_recv_pdu e ([64] ++ replicate 10 7) 11;
   nr_rlc_entity_um_recv_pdu e [128; 0; 10; 5] 4) = Err Oob.
Proof. vm_compute. reflexivity. Qed.
