(* ===== verification/RlcAm.v ===== *)
(** * RLC acknowledged mode: state, reception and PDU assembly

    The struct of [nr_rlc_entity_am.h] and, from [nr_rlc_entity_am.c], SN
    arithmetic, ordered segment lists, reassembly and reception actions, poll
    handling, serialization and segmentation. *)

From S2P Require Import Prelude RlcPdu RlcSdu TimeStat RlcEntity RlcRx.

Module Am.

Record nr_rlc_entity_am_t := mk_am {
  common : nr_rlc_entity_t;
  t_poll_retransmit : Z;
  t_reassembly : Z;
  t_status_prohibit : Z;
  poll_pdu : Z;
  poll_byte : Z;
  max_retx_threshold : Z;
  sn_field_length : Z;
  sn_modulus : Z;
  window_size : Z;
  rx_next : Z;
  rx_next_status_trigger : Z;
  rx_highest_status : Z;
  rx_next_highest : Z;
  status_triggered : bool;
  tx_next : Z;
  tx_next_ack : Z;
  poll_sn : Z;
  pdu_without_poll : Z;
  byte_without_poll : Z;
  force_poll : bool;
  t_current : Z;
  t_log_buffer_full : Z;
  sdu_rejected : Z;
  t_poll_retransmit_start : Z;
  t_reassembly_start : Z;
  t_status_prohibit_start : Z;
  rx_list : list nr_rlc_pdu_t;
  rx_size : Z;
  rx_maxsize : Z;
  heap : sdu_heap;
  tx_list : list nr_rlc_sdu_segment_t;
  tx_end : option addr;
  tx_size : Z;
  tx_maxsize : Z;
  wait_list : list nr_rlc_sdu_segment_t;
  wait_end : option addr;
  retransmit_list : list nr_rlc_sdu_segment_t }.

#[export] Instance eta_am : Eta nr_rlc_entity_am_t := fun e =>
  mk_am (common e) (t_poll_retransmit e) (t_reassembly e) (t_status_prohibit e) (poll_pdu e) (poll_byte e)
    (max_retx_threshold e) (sn_field_length e) (sn_modulus e) (window_size e) (rx_next e)
    (rx_next_status_trigger e) (rx_highest_status e) (rx_next_highest e) (status_triggered e) (tx_next e)
    (tx_next_ack e) (poll_sn e) (pdu_without_poll e) (byte_without_poll e) (force_poll e) (t_current e)
    (t_log_buffer_full e) (sdu_rejected e) (t_poll_retransmit_start e) (t_reassembly_start e)
    (t_status_prohibit_start e) (rx_list e) (rx_size e) (rx_maxsize e) (heap e) (tx_list e) (tx_end e)
    (tx_size e) (tx_maxsize e) (wait_list e) (wait_end e) (retransmit_list e).

Definition stat (f : nr_rlc_statistics_t -> nr_rlc_statistics_t) (e : nr_rlc_entity_am_t) :=
  e <| common ::= fun c => c <| stats ::= f |> |>.

Definition header_size (sn_field_length : Z) (sdu : nr_rlc_sdu_segment_t) : Z :=
  2 + (if sn_field_length =? 18 then 1 else 0) + (if negb (seg_is_first sdu) then 2 else 0).

Definition compute_pdu_header_size (e : nr_rlc_entity_am_t) (sdu : nr_rlc_sdu_segment_t) : Z :=
  header_size (sn_field_length e) sdu.

(** ** SN arithmetic *)

Definition modulus_rx (e : nr_rlc_entity_am_t) (a : Z) : Z :=
  let r := a - rx_next e in if r <? 0 then r + sn_modulus e else r.

Definition modulus_tx (e : nr_rlc_entity_am_t) (a : Z) : Z :=
  let r := a - tx_next_ack e in if r <? 0 then r + sn_modulus e else r.

Definition sn_in_recv_window (e : nr_rlc_entity_am_t) (sn : Z) : bool := modulus_rx e sn <? window_size e.

Definition sn_compare_rx (e : nr_rlc_entity_am_t) (a b : Z) : Z := modulus_rx e a - modulus_rx e b.
Definition sn_compare_tx (e : nr_rlc_entity_am_t) (a b : Z) : Z := modulus_tx e a - modulus_tx e b.

(** ** The ordered transmission lists *)

Fixpoint tx_list_add_loop (e : nr_rlc_entity_am_t) (l : list nr_rlc_sdu_segment_t)
    (sdu_segment : nr_rlc_sdu_segment_t) (sn : Z) : res (list nr_rlc_sdu_segment_t) :=
  match l with
  | [] => mret [sdu_segment]
  | cur :: l' =>
      d ← sdu_of (heap e) cur;
      if (sn_compare_tx e (sdu_sn d) sn >? 0)
         || ((sdu_sn d =? sn) && (seg_so cur >? seg_so sdu_segment))
      then mret (sdu_segment :: l)
      else l' ← tx_list_add_loop e l' sdu_segment sn; mret (cur :: l')
  end.

Definition nr_rlc_tx_sdu_segment_list_add (e : nr_rlc_entity_am_t) (l : list nr_rlc_sdu_segment_t)
    (sdu_segment : nr_rlc_sdu_segment_t) : res (list nr_rlc_sdu_segment_t) :=
  d ← sdu_of (heap e) sdu_segment;
  tx_list_add_loop e l sdu_segment (sdu_sn d).

(** ** PDU RX functions *)

Fixpoint already_received_loop (sn : Z) (l : list nr_rlc_pdu_t) (so size : Z) : bool :=
  match l with
  | [] => size <=? 0
  | p :: l' =>
      if size <=? 0 then true
      else if pdu_sn p =? sn then
        if (pdu_so p <=? so) && (so <? pdu_so p + pdu_size p) then
          let covered := pdu_size p - (so - pdu_so p) in
          already_received_loop sn l' (so + covered) (size - covered)
        else if (pdu_so p <=? so + size - 1) && (so + size - 1 <? pdu_so p + pdu_size p) then
          let covered := size - (pdu_so p - so) in
          already_received_loop sn l' so (size - covered)
        else already_received_loop sn l' so size
      else already_received_loop sn l' so size
  end.

Definition segment_already_received (e : nr_rlc_entity_am_t) (sn so size : Z) : bool :=
  already_received_loop sn (rx_list e) so size.

Definition sdu_full (e : nr_rlc_entity_am_t) (sn : Z) : bool := Rx.sdu_full (rx_list e) sn.
Definition sdu_delivered (e : nr_rlc_entity_am_t) (sn : Z) : bool := Rx.sdu_delivered (rx_list e) sn.
Definition sdu_has_missing_bytes (e : nr_rlc_entity_am_t) (sn : Z) : bool :=
  Rx.sdu_has_missing_bytes (rx_list e) sn.

(** [free(pdu->data); pdu->data = NULL]: the size stays. *)
Definition consume (p : nr_rlc_pdu_t) : nr_rlc_pdu_t := p <| pdu_data := None |>.

Definition reassemble_and_deliver (e : nr_rlc_entity_am_t) (sn : Z) : res nr_rlc_entity_am_t :=
  '(l, sdu, bad_sdu, rx) ← Rx.reassemble consume sn (rx_list e) (rx_size e);
  let e := e <| rx_list := l |> <| rx_size := rx |> in
  if bad_sdu : bool then mret e
  else
    let e := e <| common ::= call (DeliverSdu sdu) |> in
    mret (stat (fun s => s <| txsdu_pkts ::= add32 1 |>) e).

(** [while (sdu_delivered(entity, sn)) sn = (sn + 1) % entity->sn_modulus;] *)
Fixpoint skip_delivered (fuel : nat) (e : nr_rlc_entity_am_t) (sn : Z) : res Z :=
  if sdu_delivered e sn then
    match fuel with
    | O => Err Fuel
    | S fuel => skip_delivered fuel e (Z.rem (sn + 1) (sn_modulus e))
    end
  else mret sn.

Definition first_not_delivered (e : nr_rlc_entity_am_t) (sn : Z) : res Z :=
  skip_delivered (Z.to_nat (sn_modulus e)) e sn.

(** The inner [do { } while] that frees the segments of one delivered SDU. *)
Fixpoint drop_run (sn : Z) (l : list nr_rlc_pdu_t) : list nr_rlc_pdu_t :=
  match l with
  | p :: l' => if pdu_sn p =? sn then drop_run sn l' else l
  | [] => []
  end.

(** The loop that frees the delivered SDUs at the head of the list.  Each round
    removes a node, so the list length bounds the rounds. *)
Fixpoint free_delivered (fuel : nat) (modulus rx_next : Z) (l : list nr_rlc_pdu_t)
  : list nr_rlc_pdu_t * Z :=
  match fuel, l with
  | S fuel, p :: l' =>
      match pdu_data p with
      | None =>
          if pdu_sn p =? rx_next
          then free_delivered fuel modulus (Z.rem (rx_next + 1) modulus) (drop_run rx_next l')
          else (l, rx_next)
      | Some _ => (l, rx_next)
      end
  | _, _ => (l, rx_next)
  end.

(** Delivery and the update of the receive window ([x] is [pdu->sn]). *)
Definition update_window (e : nr_rlc_entity_am_t) (x : Z) : res nr_rlc_entity_am_t :=
  let e := if 0 <=? sn_compare_rx e x (rx_next_highest e)
           then e <| rx_next_highest := Z.rem (x + 1) (sn_modulus e) |> else e in
  if sdu_full e x then
    e ← reassemble_and_deliver e x;
    e ← (if x =? rx_highest_status e then
           n ← first_not_delivered e (rx_highest_status e);
           mret (e <| rx_highest_status := n |>)
         else mret e);
    if x =? rx_next e then
      let '(l, n) := free_delivered (length (rx_list e)) (sn_modulus e) (rx_next e) (rx_list e) in
      mret (e <| rx_list := l |> <| rx_next := n |>)
    else mret e
  else mret e.

(** The two timer blocks of [reception_actions]. *)
Definition update_t_reassembly (e : nr_rlc_entity_am_t) : nr_rlc_entity_am_t :=
  let next := Z.rem (rx_next e + 1) (sn_modulus e) in
  let e :=
    if negb (t_reassembly_start e =? 0) then
      if (rx_next_status_trigger e =? rx_next e)
         || ((rx_next_status_trigger e =? next) && negb (sdu_has_missing_bytes e (rx_next e)))
         || (negb (sn_in_recv_window e (rx_next_status_trigger e))
             && negb (rx_next_status_trigger e =? Z.rem (rx_next e + window_size e) (sn_modulus e)))
      then e <| t_reassembly_start := 0 |> else e
    else e in
  if t_reassembly_start e =? 0 then
    if (sn_compare_rx e (rx_next_highest e) next >? 0)
       || ((rx_next_highest e =? next) && sdu_has_missing_bytes e (rx_next e))
    then e <| t_reassembly_start := t_current e |> <| rx_next_status_trigger := rx_next_highest e |>
    else e
  else e.

Definition reception_actions (e : nr_rlc_entity_am_t) (pdu : nr_rlc_pdu_t) : res nr_rlc_entity_am_t :=
  e ← update_window e (pdu_sn pdu);
  mret (update_t_reassembly e).

(** ** PDU assembly *)

Definition is_window_stalling (e : nr_rlc_entity_am_t) : bool :=
  negb ((sn_compare_tx e (tx_next_ack e) (tx_next e) <=? 0)
        && (sn_compare_tx e (tx_next e) (Z.rem (tx_next_ack e + window_size e) (sn_modulus e)) <? 0)).

Definition include_poll (e : nr_rlc_entity_am_t) (buffer : bytes) : res (nr_rlc_entity_am_t * bytes) :=
  v ← rd buffer 0;
  buffer ← wr buffer 0 (Z.lor v 64);
  mret (e <| pdu_without_poll := 0 |> <| byte_without_poll := 0 |>
          <| poll_sn := Z.rem (tx_next e - 1 + sn_modulus e) (sn_modulus e) |>
          <| t_poll_retransmit_start := t_current e |>, buffer).

Definition check_poll_after_pdu_assembly (e : nr_rlc_entity_am_t) : bool :=
  let transmission_buffer_empty := match tx_list e with [] => true | _ => false end in
  let retransmission_buffer_empty := match retransmit_list e with [] => true | _ => false end in
  (transmission_buffer_empty && retransmission_buffer_empty) || is_window_stalling e.

Definition serialize_sdu (e : nr_rlc_entity_am_t) (sdu : nr_rlc_sdu_segment_t)
    (buffer : bytes) (bufsize : Z) (p : bool) : res (Z * bytes * nr_rlc_entity_am_t) :=
  let encoder := nr_rlc_pdu_encoder_init buffer bufsize in
  encoder ← nr_rlc_pdu_encoder_put_bits encoder 1 1;
  encoder ← nr_rlc_pdu_encoder_put_bits encoder 0 1;
  encoder ← nr_rlc_pdu_encoder_put_bits encoder (1 - b2z (seg_is_first sdu)) 1;
  encoder ← nr_rlc_pdu_encoder_put_bits encoder (1 - b2z (seg_is_last sdu)) 1;
  encoder ← (if sn_field_length e =? 18
             then nr_rlc_pdu_encoder_put_bits encoder 0 2 else mret encoder);
  d ← sdu_of (heap e) sdu;
  encoder ← nr_rlc_pdu_encoder_put_bits encoder (sdu_sn d) (sn_field_length e);
  encoder ← (if negb (seg_is_first sdu)
             then nr_rlc_pdu_encoder_put_bits encoder (seg_so sdu) 16 else mret encoder);
  src ← slice (sdu_data d) (seg_so sdu) (seg_size sdu);
  buffer ← blit (e_buffer encoder) (e_byte encoder) src;
  '(e, buffer) ← (if p then include_poll e buffer else mret (e, buffer));
  mret (e_byte encoder + seg_size sdu, buffer, e).

Definition resegment (sdu : nr_rlc_sdu_segment_t) (e : nr_rlc_entity_am_t) (pdu_size : Z)
  : res (nr_rlc_sdu_segment_t * nr_rlc_sdu_segment_t * nr_rlc_entity_am_t) :=
  h ← sdu_upd (fun d => d <| sdu_ref_count ::= Z.succ |>) (heap e) sdu;
  let e := e <| heap := h |> in
  let pdu_header_size := compute_pdu_header_size e sdu in
  let '(a, h) := heap_alloc (heap e) in
  let e := e <| heap := h |> in
  let next := sdu <| seg_addr := a |> in
  let over_size := pdu_header_size + seg_size sdu - pdu_size in
  let sdu := sdu <| seg_size ::= fun n => n - over_size |> <| seg_is_last := false |> in
  let next := next <| seg_size := over_size |> <| seg_so := seg_so sdu + seg_size sdu |>
                   <| seg_is_first := false |> in
  mret (sdu, next, e).

(** [entity->wait_end->sdu]: the tail pointer must designate a node. *)
Definition node_at (l : list nr_rlc_sdu_segment_t) (a : addr) : res nr_rlc_sdu_segment_t :=
  match List.find (fun s => Pos.eqb (seg_addr s) a) l with Some s => Ok s | None => Err Undef end.

(** The block that puts a sent segment in the wait list, at its end if possible. *)
Definition put_in_wait_list (e : nr_rlc_entity_am_t) (sdu : nr_rlc_sdu_segment_t)
  : res nr_rlc_entity_am_t :=
  d ← sdu_of (heap e) sdu;
  at_end ← match wait_end e with
           | None => mret true
           | Some a =>
               w ← node_at (wait_list e) a;
               dw ← sdu_of (heap e) w;
               let cmp := sn_compare_tx e (sdu_sn d) (sdu_sn dw) in
               mret ((cmp >? 0) || ((cmp =? 0) && (seg_so sdu >? seg_so w)))
           end;
  if at_end : bool then
    '(l, en) ← nr_rlc_sdu_segment_list_append (wait_list e) (wait_end e) sdu;
    mret (e <| wait_list := l |> <| wait_end := en |>)
  else
    l ← nr_rlc_tx_sdu_segment_list_add e (wait_list e) sdu;
    let e := e <| wait_list := l |> in
    match l with
    | [s] => mret (e <| wait_end := Some (seg_addr s) |>)
    | _ => mret e
    end.

End Am.
