(* ===== verification/RlcAmControl.v ===== *)
(** * RLC acknowledged mode: STATUS PDUs received

    [process_control_pdu] of [nr_rlc_entity_am.c]: validation, then the walk
    over the wait and retransmission lists for each NACK, then the ACK.

    The wait list is walked with a pointer [cur_wait_list] and the node before
    it; the model keeps the nodes before it in reverse ([c_prev]), the nodes
    from it on ([c_cur]), and, once the code sets [cur_wait_list = NULL] without
    unlinking anything, the nodes that stay linked behind ([c_tail]).  The new
    retransmission list is kept in reverse ([c_new]). *)

From S2P Require Import Prelude RlcPdu RlcSdu TimeStat RlcEntity RlcRx RlcAm.

Module AmControl.
Import Am.

Definition so_overlap (s1 e1 s2 e2 : Z) : bool :=
  if s1 <? s2 then (e1 =? -1) || (e1 >=? s2)
  else (e2 =? -1) || (s1 <=? e2).

(** One NACK block of the STATUS PDU; [n_so_end] is -1 for "to the end". *)
Record nack := mk_nack { n_sn : Z; n_so_start : Z; n_so_end : Z; n_range : Z }.

Definition mk_nack_of (nack_sn so_start so_end range : Z) : nack :=
  mk_nack nack_sn so_start (if so_end =? 65535 then -1 else so_end) range.

(** The SN, SO range of the [i]-th SDU of a NACK block. *)
Definition cur_nack_sn (e : nr_rlc_entity_am_t) (n : nack) (i : Z) : Z := Z.rem (n_sn n + i) (sn_modulus e).
Definition cur_so_start (n : nack) (i : Z) : Z := if i =? 0 then n_so_start n else 0.
Definition cur_so_end (n : nack) (i : Z) : Z := if i =? n_range n - 1 then n_so_end n else -1.

(** ** Validation *)

(** Read one NACK block; [None] is the jump to [err].  Returns the next E1. *)
Definition read_nack (e : nr_rlc_entity_am_t) (decoder : nr_rlc_pdu_decoder_t)
  : res (option (nack * Z * nr_rlc_pdu_decoder_t)) :=
  READ nack_sn, decoder <- decoder @ (sn_field_length e) ERR (mret None);
  READ e1, decoder <- decoder @ 1 ERR (mret None);
  READ e2, decoder <- decoder @ 1 ERR (mret None);
  READ e3, decoder <- decoder @ 1 ERR (mret None);
  READ r, decoder <- decoder @ (if sn_field_length e =? 18 then 3 else 1) ERR (mret None);
  let read_range so_start so_end decoder :=
    if negb (e3 =? 0) then
      READ range, decoder <- decoder @ 8 ERR (mret None);
      mret (Some (mk_nack_of nack_sn so_start so_end range, e1, decoder))
    else mret (Some (mk_nack_of nack_sn so_start so_end 1, e1, decoder)) in
  if negb (e2 =? 0) then
    READ so_start, decoder <- decoder @ 16 ERR (mret None);
    READ so_end, decoder <- decoder @ 16 ERR (mret None);
    read_range so_start so_end decoder
  else read_range 0 65535 decoder.

(** The checks on the [n_range] SDUs of one block.  [prev] is [prev_nack_sn]
    with its SO end; the validation loop never changes it. *)
Fixpoint check_range (e : nr_rlc_entity_am_t) (ack_sn : Z) (n : nack) (prev : Z * Z)
    (count : nat) (i : Z) : bool :=
  match count with
  | O => true
  | S count =>
      let sn := cur_nack_sn e n i in
      let bad_order :=
        negb (fst prev =? -1) &&
        (let cmp := sn_compare_tx e sn (fst prev) in
         (cmp <? 0) || ((cmp =? 0) && ((snd prev =? -1) || (cur_so_start n i <=? snd prev)))) in
      if bad_order then false
      else if sn_compare_tx e sn ack_sn >? 0 then false
      else check_range e ack_sn n prev count (i + 1)
  end.

(** [while (e1)]: [false] is the jump to [err].  Every round consumes bits. *)
Fixpoint validate_nacks (fuel : nat) (e : nr_rlc_entity_am_t) (ack_sn e1 : Z)
    (decoder : nr_rlc_pdu_decoder_t) : res bool :=
  if e1 =? 0 then mret true
  else
    match fuel with
    | O => Err Fuel
    | S fuel =>
        r ← read_nack e decoder;
        match r with
        | None => mret false
        | Some (n, e1, decoder) =>
            if check_range e ack_sn n (-1, 0) (Z.to_nat (n_range n)) 0
            then validate_nacks fuel e ack_sn e1 decoder else mret false
        end
    end.

(** Lines 362 to 446; [true] when the PDU is to be processed. *)
Definition validate (e : nr_rlc_entity_am_t) (buffer : bytes) (size : Z) : res bool :=
  let decoder := nr_rlc_pdu_decoder_init buffer size in
  READ dc, decoder <- decoder @ 1 ERR (mret false);
  READ cpt, decoder <- decoder @ 3 ERR (mret false);
  if negb (cpt =? 0) then mret false
  else
    READ ack_sn, decoder <- decoder @ (sn_field_length e) ERR (mret false);
    READ e1, decoder <- decoder @ 1 ERR (mret false);
    READ r, decoder <- decoder @ (if sn_field_length e =? 18 then 1 else 7) ERR (mret false);
    if sn_compare_tx e ack_sn (tx_next e) >? 0 then mret false
    else validate_nacks (Z.to_nat (8 * size)) e ack_sn e1 decoder.

(** ** The walk *)

Record ctl := mk_ctl {
  c_ent : nr_rlc_entity_am_t;
  c_prev : list nr_rlc_sdu_segment_t;
  c_cur : list nr_rlc_sdu_segment_t;
  c_tail : list nr_rlc_sdu_segment_t;
  c_end : option (option addr);        (** [end_wait_list]; the inner [None] is the list head *)
  c_new : list nr_rlc_sdu_segment_t;
  c_retx : list nr_rlc_sdu_segment_t }.

#[export] Instance eta_ctl : Eta ctl := fun c =>
  mk_ctl (c_ent c) (c_prev c) (c_cur c) (c_tail c) (c_end c) (c_new c) (c_retx c).

(** Free an acknowledged segment and report the SDU when it was the last one. *)
Definition free_acked (e : nr_rlc_entity_am_t) (cur : nr_rlc_sdu_segment_t) : res nr_rlc_entity_am_t :=
  d ← sdu_of (heap e) cur;
  '(freed, h) ← nr_rlc_free_sdu_segment (heap e) cur;
  let e := e <| heap := h |> in
  if freed : bool then
    let e := e <| tx_size ::= fun n => n - sdu_size d |> in
    let e := stat (fun s => s <| txsdu_bytes ::= add64 (sdu_size d) |>) e in
    mret (e <| common ::= call (SduSuccessfulDelivery (sdu_upper_layer_id d)) |>)
  else mret e.

(** [if (cur_wait_list == entity->wait_end) end_wait_list = prev_wait_list;] *)
Definition note_end (c : ctl) (cur : nr_rlc_sdu_segment_t) : ctl :=
  if decide (wait_end (c_ent c) = Some (seg_addr cur))
  then c <| c_end := Some (seg_addr <$> head (c_prev c)) |> else c.

(** Where [goto] leads. *)
Inductive goto := ProcessNextPdu (c : ctl) | DoneNack (c : ctl) | ListsOver (c : ctl).

Definition process_wait_list_head (ack_sn sn so_start so_end : Z)
    (cur : nr_rlc_sdu_segment_t) (rest : list nr_rlc_sdu_segment_t) (c : ctl) : res goto :=
  let e := c_ent c in
  d ← sdu_of (heap e) cur;
  if (sdu_sn d =? sn) && so_overlap so_start so_end (seg_so cur) (seg_so cur + seg_size cur - 1) then
    let c := note_end c cur in
    let c := c <| c_cur := rest |> <| c_new ::= cons cur |> in
    h ← sdu_upd (fun d => d <| sdu_retx_count ::= Z.succ |>) (heap e) cur;
    let e := e <| heap := h |> in
    let e := if sdu_retx_count d + 1 >=? max_retx_threshold e * sdu_ref_count d
             then e <| common ::= call MaxRetxReached |> else e in
    let e := e <| common ::= bstatus_retx (compute_pdu_header_size e cur + seg_size cur) |> in
    mret (ProcessNextPdu (c <| c_ent := e |>))
  else
    let cmp := sn_compare_tx e (sdu_sn d) sn in
    if (cmp >? 0) || ((cmp =? 0) && (seg_so cur >? so_start)) then mret (DoneNack c)
    else if sn_compare_tx e (sdu_sn d) ack_sn <? 0 then
      let c := note_end c cur in
      e ← free_acked e cur;
      mret (ProcessNextPdu (c <| c_cur := rest |> <| c_ent := e |>))
    else if sn_compare_tx e (sdu_sn d) ack_sn >? 0 then
      mret (ProcessNextPdu (c <| c_tail := cur :: rest |> <| c_cur := [] |>))
    else
      mret (ProcessNextPdu (c <| c_prev ::= cons cur |> <| c_cur := rest |>)).

(** In the speedup branch the rest of the list is linked behind
    [new_retransmit_list], which does not move: the final
    [new_retransmit_list->next = cur_retransmit_list] cuts it off again. *)
Definition process_retransmit_list_head (ack_sn sn so_start so_end : Z)
    (cur : nr_rlc_sdu_segment_t) (rest : list nr_rlc_sdu_segment_t) (c : ctl) : res goto :=
  let e := c_ent c in
  d ← sdu_of (heap e) cur;
  if (sdu_sn d =? sn) && so_overlap so_start so_end (seg_so cur) (seg_so cur + seg_size cur - 1) then
    mret (ProcessNextPdu (c <| c_new ::= cons cur |> <| c_retx := rest |>))
  else
    let cmp := sn_compare_tx e (sdu_sn d) sn in
    if (cmp >? 0) || ((cmp =? 0) && (seg_so cur >? so_start)) then mret (DoneNack c)
    else if sn_compare_tx e (sdu_sn d) ack_sn <? 0 then
      let e := e <| common ::= bstatus_retx (- (compute_pdu_header_size e cur + seg_size cur)) |> in
      e ← free_acked e cur;
      mret (ProcessNextPdu (c <| c_retx := rest |> <| c_ent := e |>))
    else
      match c_cur c with
      | [] => mret (ListsOver (c <| c_retx := [] |>))
      | _ => mret (ProcessNextPdu (c <| c_new ::= cons cur |> <| c_retx := rest |>))
      end.

Definition process_next_pdu (ack_sn sn so_start so_end : Z) (c : ctl) : res goto :=
  match c_cur c, c_retx c with
  | [], [] => mret (ListsOver c)
  | [], r :: rr => process_retransmit_list_head ack_sn sn so_start so_end r rr c
  | w :: ww, [] => process_wait_list_head ack_sn sn so_start so_end w ww c
  | w :: ww, r :: rr =>
      dw ← sdu_of (heap (c_ent c)) w;
      dr ← sdu_of (heap (c_ent c)) r;
      let cmp := sn_compare_tx (c_ent c) (sdu_sn dw) (sdu_sn dr) in
      if (cmp <? 0) || ((cmp =? 0) && (seg_so w <? seg_so r))
      then process_wait_list_head ack_sn sn so_start so_end w ww c
      else process_retransmit_list_head ack_sn sn so_start so_end r rr c
  end.

(** One SDU of a NACK block, until [done_nack] ([false]) or [lists_over] ([true]).
    Every [goto process_next_pdu] shortens one of the two lists. *)
Fixpoint process_one_nack (fuel : nat) (ack_sn sn so_start so_end : Z) (c : ctl) : res (ctl * bool) :=
  match fuel with
  | O => Err Fuel
  | S fuel =>
      g ← process_next_pdu ack_sn sn so_start so_end c;
      match g with
      | ProcessNextPdu c => process_one_nack fuel ack_sn sn so_start so_end c
      | DoneNack c => mret (c, false)
      | ListsOver c => mret (c, true)
      end
  end.

Definition list_fuel (c : ctl) : nat := S (length (c_cur c) + length (c_retx c)).

(** [for (i = 0; i < range; i++)] *)
Fixpoint process_range (ack_sn : Z) (n : nack) (count : nat) (i : Z) (c : ctl) : res ctl :=
  match count with
  | O => mret c
  | S count =>
      '(c, over) ← process_one_nack (list_fuel c) ack_sn (cur_nack_sn (c_ent c) n i)
                     (cur_so_start n i) (cur_so_end n i) c;
      if over : bool then mret c else process_range ack_sn n count (i + 1) c
  end.

(** [lists_over:] stop t_poll_retransmit if the block NACKs [poll_sn]. *)
Definition nack_poll_sn (n : nack) (e : nr_rlc_entity_am_t) : nr_rlc_entity_am_t :=
  if (sn_compare_tx e (n_sn n) (poll_sn e) <=? 0)
     && (sn_compare_tx e (poll_sn e) (Z.rem (n_sn n + n_range n) (sn_modulus e)) <? 0)
  then e <| t_poll_retransmit_start := 0 |> else e.

(** Read one NACK block again, without the checks. *)
Definition get_nack (e : nr_rlc_entity_am_t) (decoder : nr_rlc_pdu_decoder_t)
  : res (nack * Z * nr_rlc_pdu_decoder_t) :=
  '(nack_sn, decoder) ← nr_rlc_pdu_decoder_get_bits decoder (sn_field_length e);
  '(e1, decoder) ← nr_rlc_pdu_decoder_get_bits decoder 1;
  '(e2, decoder) ← nr_rlc_pdu_decoder_get_bits decoder 1;
  '(e3, decoder) ← nr_rlc_pdu_decoder_get_bits decoder 1;
  '(_, decoder) ← nr_rlc_pdu_decoder_get_bits decoder (if sn_field_length e =? 18 then 3 else 1);
  '(so_start, so_end, decoder) ←
    (if negb (e2 =? 0) then
       '(so_start, decoder) ← nr_rlc_pdu_decoder_get_bits decoder 16;
       '(so_end, decoder) ← nr_rlc_pdu_decoder_get_bits decoder 16;
       mret (so_start, so_end, decoder)
     else mret (0, 65535, decoder));
  '(range, decoder) ←
    (if negb (e3 =? 0) then nr_rlc_pdu_decoder_get_bits decoder 8 else mret (1, decoder));
  mret (mk_nack_of nack_sn so_start so_end range, e1, decoder).

(** [while (e1)] of the second pass. *)
Fixpoint process_nacks (fuel : nat) (ack_sn e1 : Z) (decoder : nr_rlc_pdu_decoder_t) (c : ctl) : res ctl :=
  if e1 =? 0 then mret c
  else
    match fuel with
    | O => Err Fuel
    | S fuel =>
        '(n, e1, decoder) ← get_nack (c_ent c) decoder;
        c ← process_range ack_sn n (Z.to_nat (n_range n)) 0 c;
        process_nacks fuel ack_sn e1 decoder (c <| c_ent ::= nack_poll_sn n |>)
    end.

(** ** The ACK *)

(** Lines 694 to 713, on [cur_wait_list]. *)
Fixpoint ack_wait_list (ack_sn : Z) (cur : list nr_rlc_sdu_segment_t) (c : ctl) : res ctl :=
  match cur with
  | [] => mret c
  | s :: rest =>
      d ← sdu_of (heap (c_ent c)) s;
      if sn_compare_tx (c_ent c) (sdu_sn d) ack_sn <? 0 then
        let c := note_end c s in
        e ← free_acked (c_ent c) s;
        ack_wait_list ack_sn rest (c <| c_cur := rest |> <| c_ent := e |>)
      else mret c
  end.

(** Lines 715 to 735, on [cur_retransmit_list]. *)
Fixpoint ack_retransmit_list (ack_sn : Z) (cur : list nr_rlc_sdu_segment_t) (c : ctl) : res ctl :=
  match cur with
  | [] => mret c
  | s :: rest =>
      let e := c_ent c in
      d ← sdu_of (heap e) s;
      if sn_compare_tx e (sdu_sn d) ack_sn <? 0 then
        let e := e <| common ::= bstatus_retx (- (compute_pdu_header_size e s + seg_size s)) |> in
        e ← free_acked e s;
        ack_retransmit_list ack_sn rest (c <| c_retx := rest |> <| c_ent := e |>)
      else mret c
  end.

(** Lines 749 to 765. *)
Definition update_tx_next_ack (e : nr_rlc_entity_am_t) (ack_sn : Z) : res nr_rlc_entity_am_t :=
  let min_sn (l : list nr_rlc_sdu_segment_t) (sn : Z) : res Z :=
    match l with
    | [] => mret sn
    | s :: _ => d ← sdu_of (heap e) s;
                mret (if sn_compare_tx e (sdu_sn d) sn <? 0 then sdu_sn d else sn)
    end in
  sn ← min_sn (wait_list e) (tx_next e);
  sn ← min_sn (retransmit_list e) sn;
  mret (e <| tx_next_ack := if sn_compare_tx e ack_sn sn <? 0 then ack_sn else sn |>).

(** Lines 737 to 767: write the lists back. *)
Definition finish_control (ack_sn : Z) (c : ctl) : res nr_rlc_entity_am_t :=
  let e := c_ent c in
  let e := e <| wait_list := rev (c_prev c) ++ c_cur c ++ c_tail c |>
             <| retransmit_list := rev (c_new c) ++ c_retx c |> in
  let e := match c_end c with
           | None => e
           | Some en => e <| wait_end := en |>
           end in
  update_tx_next_ack e ack_sn.

(** The second pass, lines 452 to 767. *)
Definition process_valid (e : nr_rlc_entity_am_t) (buffer : bytes) (size : Z) : res nr_rlc_entity_am_t :=
  let decoder := nr_rlc_pdu_decoder_init buffer size in
  '(_, decoder) ← nr_rlc_pdu_decoder_get_bits decoder 1;
  '(_, decoder) ← nr_rlc_pdu_decoder_get_bits decoder 3;
  '(ack_sn, decoder) ← nr_rlc_pdu_decoder_get_bits decoder (sn_field_length e);
  '(e1, decoder) ← nr_rlc_pdu_decoder_get_bits decoder 1;
  '(_, decoder) ← nr_rlc_pdu_decoder_get_bits decoder (if sn_field_length e =? 18 then 1 else 7);
  let e := if sn_compare_tx e (poll_sn e) ack_sn <? 0
           then e <| t_poll_retransmit_start := 0 |> else e in
  let c := mk_ctl e [] (wait_list e) [] None [] (retransmit_list e) in
  c ← process_nacks (Z.to_nat (8 * size)) ack_sn e1 decoder c;
  c ← ack_wait_list ack_sn (c_cur c) c;
  c ← ack_retransmit_list ack_sn (c_retx c) c;
  finish_control ack_sn c.

Definition process_control_pdu (e : nr_rlc_entity_am_t) (buffer : bytes) (size : Z)
  : res nr_rlc_entity_am_t :=
  ok ← validate e buffer size;
  if ok : bool then process_valid e buffer size else mret e.

End AmControl.
