(* ===== verification/RlcAmStatus.v ===== *)
(** * RLC acknowledged mode: STATUS PDUs sent

    The status reporting functions of [nr_rlc_entity_am.c]: the search for
    missing parts of the reception list, their encoding as NACK blocks and the
    computation of the STATUS PDU's size for the buffer status. *)

From S2P Require Import Prelude RlcPdu RlcSdu TimeStat RlcEntity RlcRx RlcAm.

Module AmStatus.
Import Am.

(** [m_next]: the list from the PDU [next] on ([] for NULL). *)
Record missing_data_t := mk_missing {
  m_sn_start : Z;
  m_so_start : Z;
  m_sn_end : Z;
  m_so_end : Z;
  m_next : list nr_rlc_pdu_t }.

#[export] Instance eta_missing : Eta missing_data_t := fun m =>
  mk_missing (m_sn_start m) (m_so_start m) (m_sn_end m) (m_so_end m) (m_next m).

(** [ret.sn_start = -1; return ret;]: the callers read no other field. *)
Definition no_missing : missing_data_t := mk_missing (-1) 0 0 0 [].

Definition status_last_sn (e : nr_rlc_entity_am_t) : Z :=
  Z.rem (rx_highest_status e - 1 + sn_modulus e) (sn_modulus e).

Definition out_of_report (e : nr_rlc_entity_am_t) (sn : Z) : bool :=
  sn_compare_rx e (rx_highest_status e) sn <=? 0.

(** The label [set_end_different_sdu], with [ret.next = cur] already set. *)
Definition set_end_different_sdu (e : nr_rlc_entity_am_t) (sn_start so_start : Z)
    (cur : nr_rlc_pdu_t) (l : list nr_rlc_pdu_t) : missing_data_t :=
  let '(sn_end, so_end) :=
    if pdu_is_first cur
    then (Z.rem (pdu_sn cur - 1 + sn_modulus e) (sn_modulus e), 65535)
    else (pdu_sn cur, pdu_so cur - 1) in
  if out_of_report e sn_end
  then mk_missing sn_start so_start (status_last_sn e) 65535 []
  else mk_missing sn_start so_start sn_end so_end (cur :: l).

(** From the label [next_pdu] on; [l] is the list behind [cur]. *)
Fixpoint next_pdu (e : nr_rlc_entity_am_t) (cur : nr_rlc_pdu_t) (l : list nr_rlc_pdu_t)
    (max_so : Z) (last_reached : bool) : missing_data_t :=
  let sn := pdu_sn cur in
  let cur_max_so := pdu_so cur + pdu_size cur - 1 in
  let max_so := if cur_max_so >? max_so then cur_max_so else max_so in
  let last_reached := last_reached || pdu_is_last cur in
  let next_sn := Z.rem (sn + 1) (sn_modulus e) in
  match l with
  | [] =>
      match pdu_data cur with
      | None =>
          if out_of_report e next_sn then no_missing
          else mk_missing next_sn 0 (status_last_sn e) 65535 []
      | Some _ =>
          let '(sn_start, so_start) := if last_reached then (next_sn, 0) else (sn, max_so + 1) in
          if out_of_report e sn_start then no_missing
          else mk_missing sn_start so_start (status_last_sn e) 65535 []
      end
  | cur :: l' =>
      if (pdu_sn cur =? sn) && (max_so >=? pdu_so cur - 1) then next_pdu e cur l' max_so last_reached
      else if (pdu_sn cur =? next_sn) && last_reached && pdu_is_first cur
      then next_pdu e cur l' 0 false
      else if pdu_sn cur =? sn then
        if out_of_report e sn then no_missing
        else mk_missing sn (max_so + 1) sn (pdu_so cur - 1) (cur :: l')
      else
        let '(sn_start, so_start) := if last_reached then (next_sn, 0) else (sn, max_so + 1) in
        if out_of_report e sn_start then no_missing
        else set_end_different_sdu e sn_start so_start cur l'
  end.

(** [cur] is not NULL: the callers test it. *)
Definition next_missing (e : nr_rlc_entity_am_t) (cur : nr_rlc_pdu_t) (l : list nr_rlc_pdu_t)
    (check_head : bool) : missing_data_t :=
  if check_head && (negb (pdu_sn cur =? rx_next e) || negb (pdu_is_first cur)) then
    if out_of_report e (rx_next e) then no_missing
    else set_end_different_sdu e (rx_next e) 0 cur l
  else next_pdu e cur l 0 false.

Definition nack_size (e : nr_rlc_entity_am_t) (m : missing_data_t) : Z :=
  let nack_length := 2 + b2z (sn_field_length e =? 18) in
  if m_sn_start m =? m_sn_end m then
    if (m_so_start m =? 0) && (m_so_end m =? 65535) then nack_length else nack_length + 4
  else if (m_so_start m =? 0) && (m_so_end m =? 65535) then nack_length + 1
  else nack_length + 5.

(** Byte and bit of E1 of the NACK block that starts at the encoder's position. *)
Definition get_e1_position (e : nr_rlc_entity_am_t) (encoder : nr_rlc_pdu_encoder_t) : Z * Z :=
  if sn_field_length e =? 18 then (e_byte encoder + 2, 5) else (e_byte encoder + 1, 3).

(** The SNs of [m]: a range is cut into blocks of at most 255 SNs. *)
Definition missing_count (e : nr_rlc_entity_am_t) (m : missing_data_t) : Z :=
  Z.rem (m_sn_end m - m_sn_start m + sn_modulus e) (sn_modulus e) + 1.

(** The block of [m] that starts at [sn_start] with [sn_count] SNs left. *)
Definition nack_block (e : nr_rlc_entity_am_t) (m : missing_data_t) (sn_start sn_count : Z)
  : Z * missing_data_t :=
  let cur_sn_count := if sn_count >? 255 then 255 else sn_count in
  let so_start := if sn_start =? m_sn_start m then m_so_start m else 0 in
  let '(sn_end, so_end) :=
    if cur_sn_count =? sn_count then (m_sn_end m, m_so_end m)
    else (Z.rem (sn_start + 254) (sn_modulus e), 65535) in
  (cur_sn_count, mk_missing sn_start so_start sn_end so_end []).

(** What the generation of NACK blocks updates through pointers. *)
Record gen := mk_gen {
  g_encoder : nr_rlc_pdu_encoder_t;
  g_e1_byte : Z;
  g_e1_bit : Z;
  g_truncated : bool;
  g_so_end_address : option Z }.

#[export] Instance eta_gen : Eta gen := fun g =>
  mk_gen (g_encoder g) (g_e1_byte g) (g_e1_bit g) (g_truncated g) (g_so_end_address g).

(** One NACK block written at the encoder's position: lines 1292 to 1342. *)
Definition put_nack (e : nr_rlc_entity_am_t) (b : missing_data_t) (cur_sn_count : Z) (g : gen)
  : res (gen * Z) :=
  let encoder := g_encoder g in
  v ← rd (e_buffer encoder) (g_e1_byte g);
  buf ← wr (e_buffer encoder) (g_e1_byte g) (u8 (Z.lor v (Z.shiftl 1 (g_e1_bit g))));
  let encoder := encoder <| e_buffer := buf |> in
  let '(e1_byte, e1_bit) := get_e1_position e encoder in
  let e2 := negb ((m_so_start b =? 0) && (m_so_end b =? 65535)) in
  let e3 := negb (m_sn_start b =? m_sn_end b) in
  encoder ← nr_rlc_pdu_encoder_put_bits encoder (m_sn_start b) (sn_field_length e);
  encoder ← nr_rlc_pdu_encoder_put_bits encoder 0 1;
  encoder ← nr_rlc_pdu_encoder_put_bits encoder (b2z e2) 1;
  encoder ← nr_rlc_pdu_encoder_put_bits encoder (b2z e3) 1;
  encoder ← nr_rlc_pdu_encoder_put_bits encoder 0 (if sn_field_length e =? 18 then 3 else 1);
  '(encoder, so_end_address) ←
    (if e2 then
       encoder ← nr_rlc_pdu_encoder_put_bits encoder (m_so_start b) 16;
       let so_end_address := e_byte encoder in
       encoder ← nr_rlc_pdu_encoder_put_bits encoder (m_so_end b) 16;
       mret (encoder, Some so_end_address)
     else mret (encoder, None));
  '(encoder, last) ←
    (if e3 then
       encoder ← nr_rlc_pdu_encoder_put_bits encoder cur_sn_count 8;
       mret (encoder, m_sn_start b + (cur_sn_count - 1))
     else mret (encoder, m_sn_start b));
  mret (mk_gen encoder e1_byte e1_bit (g_truncated g) so_end_address, last).

(** [while (sn_count)]; returns [last_nack_generated] and [m->next].  Every round
    takes at least one SN. *)
Fixpoint generate_missing_loop (fuel : nat) (e : nr_rlc_entity_am_t) (m : missing_data_t)
    (sn_start sn_count last : Z) (g : gen) : res (gen * Z * list nr_rlc_pdu_t) :=
  if sn_count =? 0 then mret (g, last, m_next m)
  else
    match fuel with
    | O => Err Fuel
    | S fuel =>
        let '(cur_sn_count, b) := nack_block e m sn_start sn_count in
        if e_byte (g_encoder g) + nack_size e b >? e_size (g_encoder g)
        then mret (g <| g_truncated := true |>, last, [])
        else
          '(g, last) ← put_nack e b cur_sn_count g;
          generate_missing_loop fuel e m (Z.rem (sn_start + cur_sn_count) (sn_modulus e))
            (sn_count - cur_sn_count) last g
    end.

Definition generate_missing (e : nr_rlc_entity_am_t) (m : missing_data_t) (g : gen)
  : res (gen * Z * list nr_rlc_pdu_t) :=
  generate_missing_loop (Z.to_nat (missing_count e m)) e m (m_sn_start m) (missing_count e m) (-1) g.

(** [so_end_address[0] = 0xff; so_end_address[1] = 0xff;] *)
Definition force_so_end (g : gen) : res gen :=
  match g_truncated g, g_so_end_address g with
  | true, Some a =>
      buf ← wr (e_buffer (g_encoder g)) a 255;
      buf ← wr buf (a + 1) 255;
      mret (g <| g_encoder ::= fun en => en <| e_buffer := buf |> |>)
  | _, _ => mret g
  end.

(** [while (cur != NULL)] of [generate_status].  Only the first call checks the
    head, so the list shortens from the second round on. *)
Fixpoint generate_nacks (fuel : nat) (e : nr_rlc_entity_am_t) (cur : list nr_rlc_pdu_t)
    (check_head : bool) (last_nack : Z) (g : gen) : res (gen * Z) :=
  match cur with
  | [] => mret (g, last_nack)
  | p :: l =>
      match fuel with
      | O => Err Fuel
      | S fuel =>
          let m := next_missing e p l check_head in
          if m_sn_start m =? -1 then mret (g, last_nack)
          else
            '(g, ln, next) ← generate_missing e m (g <| g_truncated := false |>);
            let last_nack := if negb (ln =? -1) then ln else last_nack in
            g ← force_so_end g;
            generate_nacks fuel e next false last_nack g
      end
  end.

(** [buffer[0] = ack_sn >> 8; ...] *)
Definition put_ack_sn (e : nr_rlc_entity_am_t) (buffer : bytes) (ack_sn : Z) : res bytes :=
  if sn_field_length e =? 12 then
    buffer ← wr buffer 0 (u8 (Z.shiftr ack_sn 8));
    wr buffer 1 (Z.land ack_sn 255)
  else
    buffer ← wr buffer 0 (u8 (Z.shiftr ack_sn 14));
    buffer ← wr buffer 1 (Z.land (Z.shiftr ack_sn 6) 255);
    v ← rd buffer 2;
    wr buffer 2 (u8 (Z.lor v (Z.shiftl (Z.land ack_sn 63) 2))).

Definition generate_status (e : nr_rlc_entity_am_t) (buffer : bytes) (size : Z)
  : res (Z * bytes * nr_rlc_entity_am_t) :=
  if size <? 3 then mret (0, buffer, e)
  else
    let last_nack := Z.rem (rx_next e - 1 + sn_modulus e) (sn_modulus e) in
    encoder ← nr_rlc_pdu_encoder_put_bits (nr_rlc_pdu_encoder_init buffer size) 0 (8 * 3);
    let g := mk_gen encoder 2 (if sn_field_length e =? 18 then 1 else 7) false None in
    '(g, last_nack) ← generate_nacks (S (length (rx_list e))) e (rx_list e) true last_nack g;
    let ack_sn := Z.rem (last_nack + 1) (sn_modulus e) in
    buffer ← put_ack_sn e (e_buffer (g_encoder g)) ack_sn;
    let n := e_byte (g_encoder g) in
    let e := e <| status_triggered := false |> <| t_status_prohibit_start := t_current e |> in
    let e := stat (fun s => s <| txpdu_pkts ::= add32 1 |> <| txpdu_bytes ::= add32 n |>
      <| txpdu_status_pkts ::= add32 1 |> <| txpdu_status_bytes ::= add32 n |>) e in
    mret (n, buffer, e).

Definition status_to_report (e : nr_rlc_entity_am_t) : bool :=
  status_triggered e &&
  ((t_status_prohibit_start e =? 0)
   || (u64 (t_current e - t_status_prohibit_start e) >? u64 (t_status_prohibit e))).

(** [while (sn_count)] of [missing_size]; returns the size, the number of blocks
    and [m->next]. *)
Fixpoint missing_size_loop (fuel : nat) (e : nr_rlc_entity_am_t) (m : missing_data_t)
    (sn_start sn_count size range_count maxsize : Z) : res (Z * Z * list nr_rlc_pdu_t) :=
  if sn_count =? 0 then mret (size, range_count, m_next m)
  else
    match fuel with
    | O => Err Fuel
    | S fuel =>
        let r_bits := if sn_field_length e =? 18 then 3 else 1 in
        let '(cur_sn_count, b) := nack_block e m sn_start sn_count in
        if size + nack_size e b >? maxsize then mret (size, range_count, [])
        else
          let whole := (m_so_start b =? 0) && (m_so_end b =? 65535) in
          let n :=
            if m_sn_start b =? m_sn_end b then
              if whole then Z.quot (sn_field_length e + 3 + r_bits) 8
              else Z.quot (sn_field_length e + 3 + r_bits + 16 * 2) 8
            else if whole then Z.quot (sn_field_length e + 3 + r_bits + 8) 8
            else Z.quot (sn_field_length e + 3 + r_bits + 16 * 2 + 8) 8 in
          missing_size_loop fuel e m (Z.rem (sn_start + cur_sn_count) (sn_modulus e))
            (sn_count - cur_sn_count) (size + n) (range_count + 1) maxsize
    end.

Definition missing_size (e : nr_rlc_entity_am_t) (m : missing_data_t) (size maxsize : Z)
  : res (Z * Z * list nr_rlc_pdu_t) :=
  missing_size_loop (Z.to_nat (missing_count e m)) e m (m_sn_start m) (missing_count e m) size 0 maxsize.

(** [while (cur != NULL)] of [status_size]. *)
Fixpoint status_size_loop (fuel : nat) (e : nr_rlc_entity_am_t) (cur : list nr_rlc_pdu_t)
    (nack_count size maxsize : Z) : res Z :=
  match cur with
  | [] => mret size
  | p :: l =>
      match fuel with
      | O => Err Fuel
      | S fuel =>
          let m := next_missing e p l (nack_count =? 0) in
          if m_sn_start m =? -1 then mret size
          else
            '(size, n, next) ← missing_size e m size maxsize;
            status_size_loop fuel e next (nack_count + n) size maxsize
      end
  end.

Definition status_size (e : nr_rlc_entity_am_t) (maxsize : Z) : res Z :=
  if maxsize <? 3 then mret 0
  else status_size_loop (S (length (rx_list e))) e (rx_list e) 0 3 maxsize.

End AmStatus.
