(* ===== verification/RlcAmEntity.v ===== *)
(** * RLC acknowledged mode: the operations of the entity

    [recv_pdu], [generate_pdu] and its three cases, [recv_sdu], the timers,
    discard, re-establishment and deletion of [nr_rlc_entity_am.c], and the
    constructor and reconfiguration of [nr_rlc_entity.c]. *)

From S2P Require Import Prelude RlcPdu RlcSdu TimeStat RlcEntity RlcRx RlcAm RlcAmControl RlcAmStatus.

Module AmEntity.
Import Am AmControl AmStatus.

(** ** Reception *)

(** The [discard] label; [p] is the poll bit read so far. *)
Definition discard_pdu (e : nr_rlc_entity_am_t) (p : bool) (size : Z) : nr_rlc_entity_am_t :=
  let e := if p then e <| status_triggered := true |> else e in
  stat (fun s => s <| rxpdu_dd_pkts ::= add32 1 |> <| rxpdu_dd_bytes ::= add32 size |>) e.

(** From [data_size = size - decoder.byte] on. *)
Definition recv_segment (e : nr_rlc_entity_am_t) (buffer : bytes) (size : Z) (p : bool) (sn so : Z)
    (is_first is_last : bool) (header : Z) : res nr_rlc_entity_am_t :=
  let data_size := size - header in
  if data_size <=? 0 then mret (discard_pdu e p size)
  else if rx_size e + data_size >? rx_maxsize e then mret (discard_pdu e p size)
  else if negb (sn_in_recv_window e sn) then
    let e := stat (fun s => s <| rxpdu_ow_pkts ::= add32 1 |> <| rxpdu_ow_bytes ::= add32 size |>) e in
    mret (discard_pdu e p size)
  else if segment_already_received e sn so data_size then
    let e := stat (fun s => s <| rxpdu_dup_pkts ::= add32 1 |> <| rxpdu_dup_bytes ::= add32 size |>) e in
    mret (discard_pdu e p size)
  else
    let e := e <| rx_size ::= Z.add data_size |> in
    data ← slice buffer (size - data_size) data_size;
    pdu ← nr_rlc_new_pdu sn so is_first is_last data data_size;
    let e := e <| rx_list := nr_rlc_pdu_list_add (sn_compare_rx e) (rx_list e) pdu |> in
    e ← reception_actions e pdu;
    mret (if p then e <| status_triggered := true |> else e).

Definition nr_rlc_entity_am_recv_pdu (e : nr_rlc_entity_am_t) (buffer : bytes) (size : Z)
  : res nr_rlc_entity_am_t :=
  let e := stat (fun s => s <| rxpdu_pkts ::= add32 1 |> <| rxpdu_bytes ::= add32 size |>) e in
  let decoder := nr_rlc_pdu_decoder_init buffer size in
  READ dc, decoder <- decoder @ 1 ERR (mret (discard_pdu e false size));
  if dc =? 0 then process_control_pdu e buffer size
  else
    READ p, decoder <- decoder @ 1 ERR (mret (discard_pdu e true size));
    let p := negb (p =? 0) in
    READ si, decoder <- decoder @ 2 ERR (mret (discard_pdu e p size));
    let is_first := Z.land si 2 =? 0 in
    let is_last := Z.land si 1 =? 0 in
    let read_sn decoder :=
      READ sn, decoder <- decoder @ (sn_field_length e) ERR (mret (discard_pdu e p size));
      if is_first then recv_segment e buffer size p sn 0 is_first is_last (d_byte decoder)
      else
        READ so, decoder <- decoder @ 16 ERR (mret (discard_pdu e p size));
        if so =? 0 then mret (discard_pdu e p size)
        else recv_segment e buffer size p sn so is_first is_last (d_byte decoder) in
    if sn_field_length e =? 18 then
      READ r, decoder <- decoder @ 2 ERR (mret (discard_pdu e p size));
      read_sn decoder
    else read_sn decoder.

(** ** Transmission *)

(** [if (entity->force_poll) { p = 1; entity->force_poll = 0; }] *)
Definition apply_force_poll (e : nr_rlc_entity_am_t) (p : bool) : nr_rlc_entity_am_t * bool :=
  if force_poll e then (e <| force_poll := false |>, true) else (e, p).

(** Lines 1601 to 1630: the segment is off the list, cut to size. *)
Definition retx_segment (e : nr_rlc_entity_am_t) (sdu : nr_rlc_sdu_segment_t) (buffer : bytes) (size : Z)
  : res (Z * bytes * nr_rlc_entity_am_t) :=
  e ← put_in_wait_list e sdu;
  let '(e, p) := apply_force_poll e (check_poll_after_pdu_assembly e) in
  '(ret_size, buffer, e) ← serialize_sdu e sdu buffer size p;
  let e := stat (fun s => s <| txpdu_pkts ::= add32 1 |> <| txpdu_bytes ::= add32 ret_size |>
    <| txpdu_retx_pkts ::= add32 1 |> <| txpdu_retx_bytes ::= add32 ret_size |>) e in
  mret (ret_size, buffer, e).

Definition generate_retx_pdu (e : nr_rlc_entity_am_t) (buffer : bytes) (size : Z)
  : res (Z * bytes * nr_rlc_entity_am_t) :=
  match retransmit_list e with
  | [] => Err Null
  | sdu :: rest =>
      let pdu_header_size := compute_pdu_header_size e sdu in
      if pdu_header_size + 1 >? size then mret (0, buffer, e)
      else
        let e := e <| retransmit_list := rest |> in
        let pdu_size := pdu_header_size + seg_size sdu in
        let e := e <| common ::= bstatus_retx (- pdu_size) |> in
        if pdu_size >? size then
          '(sdu, next_sdu, e) ← resegment sdu e size;
          let e := e <| retransmit_list ::= cons next_sdu |> in
          let e := e <| common ::=
                     bstatus_retx (compute_pdu_header_size e next_sdu + seg_size next_sdu) |> in
          let e := stat (fun s => s <| txpdu_segmented ::= add32 1 |>) e in
          retx_segment e sdu buffer size
        else retx_segment e sdu buffer size
  end.

(** Lines 1693 to 1743. *)
Definition tx_segment (e : nr_rlc_entity_am_t) (sdu : nr_rlc_sdu_segment_t) (buffer : bytes)
    (size time_now : Z) : res (Z * bytes * nr_rlc_entity_am_t) :=
  e ← put_in_wait_list e sdu;
  let e := e <| pdu_without_poll ::= Z.succ |> <| byte_without_poll ::= Z.add (seg_size sdu) |> in
  let p :=
    if (negb (poll_pdu e =? -1) && (pdu_without_poll e >=? poll_pdu e))
       || (negb (poll_byte e =? -1) && (byte_without_poll e >=? poll_byte e))
    then true else check_poll_after_pdu_assembly e in
  let '(e, p) := apply_force_poll e p in
  '(ret_size, buffer, e) ← serialize_sdu e sdu buffer size p;
  let e := stat (fun s => s <| txpdu_pkts ::= add32 1 |> <| txpdu_bytes ::= add32 ret_size |>) e in
  d ← sdu_of (heap e) sdu;
  c ← time_average_tx (common e) d time_now;
  mret (ret_size, buffer, e <| common := c |>).

Definition generate_tx_pdu (e : nr_rlc_entity_am_t) (buffer : bytes) (size time_now : Z)
  : res (Z * bytes * nr_rlc_entity_am_t) :=
  if is_window_stalling e then mret (0, buffer, e)
  else
    match tx_list e with
    | [] => mret (0, buffer, e)
    | sdu :: rest =>
        let pdu_header_size := compute_pdu_header_size e sdu in
        if pdu_header_size + 1 >? size then mret (0, buffer, e)
        else
          let e := e <| tx_list := rest |> in
          let e := match rest with [] => e <| tx_end := None |> | _ => e end in
          let pdu_size := pdu_header_size + seg_size sdu in
          let e := e <| common ::= bstatus_tx (- pdu_size) |> in
          d ← sdu_of (heap e) sdu;
          e ← (if sdu_sn d =? -1 then
                 h ← sdu_upd (fun d => d <| sdu_sn := tx_next e |>) (heap e) sdu;
                 mret (e <| heap := h |> <| tx_next := Z.rem (tx_next e + 1) (sn_modulus e) |>)
               else mret e);
          if pdu_size >? size then
            '(sdu, next_sdu, e) ← resegment sdu e size;
            let e := e <| tx_list ::= cons next_sdu |> in
            let e := match tx_end e with
                     | None => e <| tx_end := Some (seg_addr next_sdu) |>
                     | Some _ => e end in
            let e := stat (fun s => s <| txpdu_segmented ::= add32 1 |>) e in
            let e := e <| common ::=
                       bstatus_tx (compute_pdu_header_size e next_sdu + seg_size next_sdu) |> in
            tx_segment e sdu buffer size time_now
          else tx_segment e sdu buffer size time_now
    end.

Definition nr_rlc_entity_am_buffer_status (e : nr_rlc_entity_am_t) (maxsize : Z)
  : res nr_rlc_entity_buffer_status_t :=
  n ← (if status_to_report e then status_size e maxsize else mret 0);
  mret (mk_bstatus n (tx_size_ (bstatus (common e))) (retx_size (bstatus (common e)))).

Definition nr_rlc_entity_am_generate_pdu (e : nr_rlc_entity_am_t) (buffer : bytes) (size time_now : Z)
  : res (Z * bytes * nr_rlc_entity_am_t) :=
  '(ret, buffer, e) ← (if status_to_report e then generate_status e buffer size else mret (0, buffer, e));
  if negb (ret =? 0) then mret (ret, buffer, e)
  else
    '(ret, buffer, e) ← match retransmit_list e with
                        | [] => mret (0, buffer, e)
                        | _ => generate_retx_pdu e buffer size
                        end;
    if negb (ret =? 0) then mret (ret, buffer, e)
    else generate_tx_pdu e buffer size time_now.

Definition nr_rlc_entity_am_recv_sdu (e : nr_rlc_entity_am_t) (buffer : bytes) (size sdu_id time_now : Z)
  : res nr_rlc_entity_am_t :=
  let e := stat (fun s => s <| rxsdu_pkts ::= add32 1 |>) e in
  if negb (size <=? NR_SDU_MAX) then Err Exit
  else
    let e :=
      if negb (sdu_rejected e =? 0) && (t_current e >? u64 (t_log_buffer_full e + 1000))
      then e <| sdu_rejected := 0 |> <| t_log_buffer_full := t_current e |> else e in
    if tx_size e + size >? tx_maxsize e then mret (e <| sdu_rejected ::= Z.succ |>)
    else
      let e := e <| tx_size ::= Z.add size |> in
      let e := stat (fun s => s <| rxsdu_bytes ::= add64 size |>) e in
      '(sdu, h) ← nr_rlc_new_sdu (heap e) buffer size sdu_id;
      '(l, en) ← nr_rlc_sdu_segment_list_append (tx_list e) (tx_end e) sdu;
      let e := e <| heap := h |> <| tx_list := l |> <| tx_end := en |> in
      let e := e <| common ::= bstatus_tx (compute_pdu_header_size e sdu + seg_size sdu) |> in
      if avg_time_is_on (common e) then
        h ← sdu_upd (fun d => d <| sdu_time_of_arrival := time_now |>) (heap e) sdu;
        mret (e <| heap := h |>)
      else mret e.

(** ** Time and timers *)

(** The [do { } while] that moves the segments of one SN from the wait list to
    the retransmission list; [first] is true before its first test. *)
Fixpoint retransmit_sn_loop (sn : Z) (first : bool) (cur : list nr_rlc_sdu_segment_t)
    (e : nr_rlc_entity_am_t) : res nr_rlc_entity_am_t :=
  match cur with
  | [] => mret e
  | s :: rest =>
      d ← sdu_of (heap e) s;
      if first || (sdu_sn d =? sn) then
        let e := e <| wait_list := rest |> in
        let e := match rest with [] => e <| wait_end := None |> | _ => e end in
        let e := e <| common ::= bstatus_retx (compute_pdu_header_size e s + seg_size s) |> in
        l ← nr_rlc_tx_sdu_segment_list_add e (retransmit_list e) s;
        retransmit_sn_loop sn false rest (e <| retransmit_list := l |>)
      else mret e
  end.

Definition check_t_poll_retransmit (e : nr_rlc_entity_am_t) : res nr_rlc_entity_am_t :=
  if (t_poll_retransmit_start e =? 0)
     || (t_current e <=? u64 (t_poll_retransmit_start e + t_poll_retransmit e)) then mret e
  else
    let e := e <| t_poll_retransmit_start := 0 |> <| force_poll := true |> in
    if negb (check_poll_after_pdu_assembly e) then mret e
    else
      match wait_list e with
      | [] => Err Null
      | cur :: _ =>
          h ← sdu_upd (fun d => d <| sdu_retx_count ::= Z.succ |>) (heap e) cur;
          let e := e <| heap := h |> in
          d ← sdu_of (heap e) cur;
          e ← retransmit_sn_loop (sdu_sn d) true (wait_list e) e;
          mret (if sdu_retx_count d >=? max_retx_threshold e
                then e <| common ::= call MaxRetxReached |> else e)
      end.

Definition check_t_reassembly (e : nr_rlc_entity_am_t) : res nr_rlc_entity_am_t :=
  if (t_reassembly_start e =? 0)
     || (t_current e <=? u64 (t_reassembly_start e + t_reassembly e)) then mret e
  else
    let e := e <| t_reassembly_start := 0 |> in
    sn ← first_not_delivered e (rx_next_status_trigger e);
    let e := e <| rx_highest_status := sn |> <| status_triggered := true |> in
    let next := Z.rem (rx_highest_status e + 1) (sn_modulus e) in
    if (sn_compare_rx e (rx_next_highest e) next >? 0)
       || ((rx_next_highest e =? next) && sdu_has_missing_bytes e (rx_highest_status e))
    then mret (e <| t_reassembly_start := t_current e |> <| rx_next_status_trigger := rx_next_highest e |>)
    else mret e.

Definition nr_rlc_entity_am_set_time (e : nr_rlc_entity_am_t) (now : Z) : res nr_rlc_entity_am_t :=
  e ← check_t_poll_retransmit (e <| t_current := now |>);
  check_t_reassembly e.

(** ** Discard, re-establishment, delete *)

Definition nr_rlc_entity_am_discard_sdu (e : nr_rlc_entity_am_t) (sdu_id : Z) : res nr_rlc_entity_am_t :=
  '(prev, cur) ← find_sdu_id (heap e) sdu_id [] (tx_list e);
  match cur with
  | [] => mret e
  | c :: next =>
      if negb (seg_is_first c) || negb (seg_is_last c) then mret e
      else
        let e := e <| tx_list := prev ++ next |> in
        let e := if decide (tx_end e = Some (seg_addr c))
                 then e <| tx_end := seg_addr <$> last prev |> else e in
        let e := e <| common ::= bstatus_tx (- (compute_pdu_header_size e c + seg_size c)) |> in
        d ← sdu_of (heap e) c;
        let e := e <| tx_size ::= fun n => n - sdu_size d |> in
        '(_, h) ← nr_rlc_free_sdu_segment (heap e) c;
        mret (e <| heap := h |>)
  end.

Definition clear_entity (e : nr_rlc_entity_am_t) : res nr_rlc_entity_am_t :=
  let e := e <| rx_next := 0 |> <| rx_next_status_trigger := 0 |> <| rx_highest_status := 0 |>
             <| rx_next_highest := 0 |> <| status_triggered := false |>
             <| tx_next := 0 |> <| tx_next_ack := 0 |> <| poll_sn := 0 |>
             <| pdu_without_poll := 0 |> <| byte_without_poll := 0 |> <| force_poll := false |>
             <| t_current := 0 |> <| t_log_buffer_full := 0 |> <| sdu_rejected := 0 |>
             <| t_poll_retransmit_start := 0 |> <| t_reassembly_start := 0 |>
             <| t_status_prohibit_start := 0 |> <| rx_list := [] |> <| rx_size := 0 |> in
  h ← nr_rlc_free_sdu_segment_list (heap e) (tx_list e);
  h ← nr_rlc_free_sdu_segment_list h (wait_list e);
  h ← nr_rlc_free_sdu_segment_list h (retransmit_list e);
  let e := e <| heap := h |> <| tx_list := [] |> <| tx_end := None |> <| tx_size := 0 |>
             <| wait_list := [] |> <| wait_end := None |> <| retransmit_list := [] |> in
  mret (e <| common ::= fun c => c <| bstatus ::= fun b => b <| tx_size_ := 0 |> <| retx_size := 0 |> |> |>).

Definition nr_rlc_entity_am_reestablishment (e : nr_rlc_entity_am_t) : res nr_rlc_entity_am_t :=
  clear_entity e.

(** What is still allocated when the entity itself is freed. *)
Definition nr_rlc_entity_am_delete (e : nr_rlc_entity_am_t) : res sdu_heap :=
  e ← clear_entity e; mret (heap e).

Definition nr_rlc_entity_am_available_tx_space (e : nr_rlc_entity_am_t) : Z :=
  tx_maxsize e - tx_size e.

Definition new_nr_rlc_entity_am (rx_maxsize tx_maxsize t_poll_retransmit t_reassembly t_status_prohibit
    poll_pdu poll_byte max_retx_threshold sn_field_length : Z) : res nr_rlc_entity_am_t :=
  if negb ((sn_field_length =? 12) || (sn_field_length =? 18)) then Err Exit
  else
    c ← new_common NR_RLC_AM;
    let m := Z.shiftl 1 sn_field_length in
    mret (mk_am c t_poll_retransmit t_reassembly t_status_prohibit poll_pdu poll_byte
            max_retx_threshold sn_field_length m (Z.quot m 2)
            0 0 0 0 false 0 0 0 0 0 false 0 0 0 0 0 0
            [] 0 rx_maxsize heap_empty [] None 0 tx_maxsize [] None []).

Definition nr_rlc_entity_am_reconfigure (e : nr_rlc_entity_am_t) (t_poll t_reass t_status ppdu pbyte
    max_retx : Z) (sn_length : option Z) : nr_rlc_entity_am_t :=
  let e := e <| t_poll_retransmit := t_poll |> <| t_reassembly := t_reass |>
             <| t_status_prohibit := t_status |> <| poll_pdu := ppdu |> <| poll_byte := pbyte |>
             <| max_retx_threshold := max_retx |> in
  match sn_length with Some n => e <| sn_field_length := n |> | None => e end.

End AmEntity.
