(* ===== verification/RlcAmReport.v ===== *)
(** * AM status reports: size and termination

    The reporting loops end, never leave the transport block, and the size
    announced in the buffer status is the size [generate_status] then uses. *)

From S2P Require Import Prelude RlcPdu RlcSdu TimeStat RlcEntity RlcRx RlcAm RlcAmStatus.

Import Am AmStatus.

Definition am_len_ok (len : Z) : Prop := len = 12 \/ len = 18.

(** Configuration and SN ranges of the receiving side. *)
Record rx_sn_ok (e : nr_rlc_entity_am_t) : Prop := {
  rs_len : am_len_ok (sn_field_length e);
  rs_mod : sn_modulus e = 2 ^ sn_field_length e;
  rs_next : 0 <= rx_next e < sn_modulus e;
  rs_highest : 0 <= rx_highest_status e < sn_modulus e;
  rs_list : Forall (fun p => 0 <= pdu_sn p < sn_modulus e) (rx_list e) }.

Lemma sn_modulus_pos e : rx_sn_ok e -> 4096 <= sn_modulus e.
Proof. intros []. rewrite rs_mod0. destruct rs_len0 as [->| ->]; cbn; lia. Qed.

Lemma rem_bound e x : rx_sn_ok e -> 0 <= x -> 0 <= Z.rem x (sn_modulus e) < sn_modulus e.
Proof. intros H Hx. pose proof (sn_modulus_pos e H). apply Z.rem_bound_pos; lia. Qed.

(** What [next_missing] returns: nothing, or a range of SNs and a list to go on with. *)
Definition missing_ok (e : nr_rlc_entity_am_t) (n : nat) (m : missing_data_t) : Prop :=
  m_sn_start m = -1 \/
  (0 <= m_sn_start m < sn_modulus e /\ 0 <= m_sn_end m < sn_modulus e /\
   (length (m_next m) <= n)%nat /\ Forall (fun p => 0 <= pdu_sn p < sn_modulus e) (m_next m)).

Lemma set_end_ok e sn so cur l :
  rx_sn_ok e -> 0 <= sn < sn_modulus e -> Forall (fun p => 0 <= pdu_sn p < sn_modulus e) (cur :: l) ->
  missing_ok e (S (length l)) (set_end_different_sdu e sn so cur l).
Proof.
  intros H Hsn HF. pose proof (sn_modulus_pos e H). pose proof (Forall_inv HF) as Hc. cbn in Hc.
  pose proof (rs_highest e H).
  pose proof (rem_bound e (pdu_sn cur - 1 + sn_modulus e) H ltac:(lia)).
  pose proof (rem_bound e (rx_highest_status e - 1 + sn_modulus e) H ltac:(lia)).
  unfold set_end_different_sdu, status_last_sn.
  destruct (pdu_is_first cur); case_if; right; cbn; split_and!; try done; lia.
Qed.

Lemma missing_ok_mono e n n' m : (n <= n')%nat -> missing_ok e n m -> missing_ok e n' m.
Proof. intros Hn [?|(?&?&?&?)]; [by left|right]. split_and!; try done; lia. Qed.

Lemma next_pdu_ok e l : rx_sn_ok e -> forall cur max_so last,
  Forall (fun p => 0 <= pdu_sn p < sn_modulus e) (cur :: l) ->
  missing_ok e (length l) (next_pdu e cur l max_so last).
Proof.
  intros H. pose proof (sn_modulus_pos e H). pose proof (rs_highest e H).
  assert (Hlast : 0 <= status_last_sn e < sn_modulus e) by (apply rem_bound; [done|lia]).
  induction l as [|c l IH]; intros cur max_so last HF; pose proof (Forall_inv HF) as Hc; cbn in Hc; cbn [next_pdu].
  - assert (Hn : 0 <= Z.rem (pdu_sn cur + 1) (sn_modulus e) < sn_modulus e) by (apply rem_bound; [done|lia]).
    destruct (pdu_data cur); [destruct (last || _)|]; case_if; try (by left); right; cbn;
      split_and!; try done; lia.
  - assert (Hn : 0 <= Z.rem (pdu_sn cur + 1) (sn_modulus e) < sn_modulus e) by (apply rem_bound; [done|lia]).
    apply Forall_cons in HF as [_ HF]. pose proof (Forall_inv HF) as Hc'. cbn in Hc'.
    case_if; [eapply missing_ok_mono; [|by apply IH]; cbn; lia|].
    case_if; [eapply missing_ok_mono; [|by apply IH]; cbn; lia|].
    case_if.
    + case_if; [by left|]. right. cbn. split_and!; try done; lia.
    + destruct (last || pdu_is_last cur); case_if; try (by left); by apply set_end_ok.
Qed.

Lemma next_missing_ok e p l (ch : bool) :
  rx_sn_ok e -> Forall (fun p => 0 <= pdu_sn p < sn_modulus e) (p :: l) ->
  missing_ok e (if ch then S (length l) else length l) (next_missing e p l ch).
Proof.
  intros H HF. unfold next_missing. destruct ch; cbn [andb].
  - case_if.
    + case_if; [by left|]. apply set_end_ok; [done|apply H|done].
    + eapply missing_ok_mono; [|by apply next_pdu_ok]. lia.
  - by apply next_pdu_ok.
Qed.

(** ** The encoder between two NACK blocks *)

Record gen_at (g : gen) (n size L : Z) : Prop := {
  ga_wf : e_wf (g_encoder g);
  ga_byte : e_byte (g_encoder g) = n;
  ga_bit : e_bit (g_encoder g) = 0;
  ga_size : e_size (g_encoder g) = size;
  ga_len : zlen (e_buffer (g_encoder g)) = L;
  ga_e1 : 0 <= g_e1_byte g < L;
  ga_so : match g_so_end_address g with Some a => 0 <= a /\ a + 2 <= L | None => True end }.

(** Writing byte-aligned fields moves the encoder by whole bytes. *)
Lemma put_fields_bytes (fs : list (Z * Z)) en k :
  e_wf en -> e_bit en = 0 -> Forall (fun f => 1 <= f.2 <= 31) fs -> total fs.*2 = 8 * k ->
  e_byte en + k <= e_size en ->
  exists en', put_fields en fs = Ok en' /\ e_wf en' /\ e_byte en' = e_byte en + k /\ e_bit en' = 0 /\
    e_size en' = e_size en /\ zlen (e_buffer en') = zlen (e_buffer en).
Proof.
  intros W B F T Hs. pose proof (zlen_field_bits fs F) as Hz.
  destruct (put_fields_spec fs en W F) as (en' & E & [W' _ P S L]); [unfold e_pos; lia|].
  exists en'. rewrite Hz in P. unfold e_pos in P. destruct W' as (? & ? & ?).
  split_and!; try done; lia.
Qed.

(** The fields of a NACK block, before and after the address of its SO end. *)
Definition nack_fields1 (e : nr_rlc_entity_am_t) (b : missing_data_t) : list (Z * Z) :=
  let e2 := negb ((m_so_start b =? 0) && (m_so_end b =? 65535)) in
  let e3 := negb (m_sn_start b =? m_sn_end b) in
  [(m_sn_start b, sn_field_length e); (0, 1); (b2z e2, 1); (b2z e3, 1);
   (0, if sn_field_length e =? 18 then 3 else 1)] ++ (if e2 then [(m_so_start b, 16)] else []).
Definition nack_fields2 (b : missing_data_t) (count : Z) : list (Z * Z) :=
  let e2 := negb ((m_so_start b =? 0) && (m_so_end b =? 65535)) in
  let e3 := negb (m_sn_start b =? m_sn_end b) in
  (if e2 then [(m_so_end b, 16)] else []) ++ (if e3 then [(count, 8)] else []).

(** [small_fields]: every field of a literal list has 1 to 31 bits. *)
Ltac small_fields :=
  change (12 =? 18) with false; change (18 =? 18) with true; cbn [app];
  repeat (apply Forall_cons; split; [cbn; lia|]); apply Forall_nil; exact I.

Lemma put_nack_ok e b count g n size L :
  am_len_ok (sn_field_length e) -> gen_at g n size L -> n + nack_size e b <= size -> size <= L ->
  exists g' last, put_nack e b count g = Ok (g', last) /\ gen_at g' (n + nack_size e b) size L.
Proof.
  intros Hl [] Hs HL. unfold put_nack.
  destruct (rd_ok (e_buffer (g_encoder g)) (g_e1_byte g)) as (v & -> & _); [lia|]. mon.
  rewrite wr_ok by lia. mon.
  set (en0 := (g_encoder g) <| e_buffer := _ |>).
  assert (W0 : e_wf en0).
  { unfold en0, e_wf in *. cbn. unfold zlen in *. rewrite length_insert. done. }
  assert (L0 : zlen (e_buffer en0) = L) by (unfold en0, zlen in *; cbn; by rewrite length_insert).
  assert (B0 : e_byte en0 = n /\ e_bit en0 = 0 /\ e_size en0 = size) by done. destruct B0 as (B1 & B2 & B3).
  clearbody en0. unfold get_e1_position, nack_size in *.
  set (e2 := negb ((m_so_start b =? 0) && (m_so_end b =? 65535))).
  set (e3 := negb (m_sn_start b =? m_sn_end b)).
  set (k1 := 2 + b2z (sn_field_length e =? 18) + (if e2 then 2 else 0)).
  set (k2 := (if e2 then 2 else 0) + (if e3 then 1 else 0)).
  assert (Hk : k1 + k2 = nack_size e b).
  { unfold k1, k2, nack_size. unfold e2, e3. destruct (m_sn_start b =? m_sn_end b), (_ && _); cbn; lia. }
  fold (nack_size e b) in Hs.
  destruct (put_fields_bytes (nack_fields1 e b) en0 k1) as (en1 & E1 & W1 & P1 & Q1 & S1 & Z1); try done.
  { unfold nack_fields1. fold e2 e3. destruct Hl as [E|E]; rewrite E; destruct e2; small_fields. }
  { unfold nack_fields1, k1. fold e2 e3. destruct Hl as [E|E]; rewrite E; destruct e2; reflexivity. }
  { assert (0 <= k2) by (unfold k2; destruct e2, e3; lia). lia. }
  destruct (put_fields_bytes (nack_fields2 b count) en1 k2) as (en2 & E2 & W2 & P2 & Q2 & S2 & Z2); try done.
  { unfold nack_fields2. fold e2 e3. destruct e2, e3; small_fields. }
  { unfold nack_fields2, k2. fold e2 e3. destruct e2, e3; reflexivity. }
  { lia. }
  assert (R : exists g' last, (encoder ← put_fields en0 (nack_fields1 e b);
      encoder' ← put_fields encoder (nack_fields2 b count);
      mret (mk_gen encoder' (if sn_field_length e =? 18 then e_byte en0 + 2 else e_byte en0 + 1)
              (if sn_field_length e =? 18 then 5 else 3) (g_truncated g)
              (if e2 then Some (e_byte encoder) else None),
            if e3 then m_sn_start b + (count - 1) else m_sn_start b)) = Ok (g', last) /\
    gen_at g' (n + nack_size e b) size L).
  { rewrite E1. mon. rewrite E2. mon. eexists _, _. split; [reflexivity|].
    assert (0 <= e_byte en0) by apply W0.
    assert (2 <= k1 /\ 0 <= k2 /\ (e2 = true -> 2 <= k2)) by (unfold k1, k2; destruct e2, e3, (_ =? 18); cbn; lia).
    split; cbn; try done; try lia.
    - unfold k1 in *. destruct (sn_field_length e =? 18); cbn [b2z] in *; destruct e2; lia.
    - destruct e2; [|done]. lia. }
  destruct R as (g' & last & R & G). exists g', last. split; [|done]. rewrite <- R.
  unfold nack_fields1, nack_fields2. fold e2 e3.
  destruct e2, e3, (sn_field_length e =? 18); cbn [put_fields app]; clear.
  all: repeat (destruct (nr_rlc_pdu_encoder_put_bits _ _ _); mon; [|reflexivity]); reflexivity.
Qed.

(** The two ways the code counts the bytes of a block agree. *)
Lemma block_bytes e b : am_len_ok (sn_field_length e) ->
  (let r_bits := if sn_field_length e =? 18 then 3 else 1 in
   let whole := (m_so_start b =? 0) && (m_so_end b =? 65535) in
   if m_sn_start b =? m_sn_end b then
     if whole then Z.quot (sn_field_length e + 3 + r_bits) 8
     else Z.quot (sn_field_length e + 3 + r_bits + 16 * 2) 8
   else if whole then Z.quot (sn_field_length e + 3 + r_bits + 8) 8
   else Z.quot (sn_field_length e + 3 + r_bits + 16 * 2 + 8) 8) = nack_size e b.
Proof.
  intros Hl. unfold nack_size. destruct Hl as [-> | ->]; destruct (_ =? m_sn_end b), (_ && _); reflexivity.
Qed.

Lemma missing_lockstep e m maxsize L : am_len_ok (sn_field_length e) -> maxsize <= L ->
  forall fuel sn_start sn_count last g size rc,
  0 <= sn_count <= Z.of_nat fuel -> gen_at g size maxsize L -> size <= maxsize ->
  exists g' last' size' rc' next,
    generate_missing_loop fuel e m sn_start sn_count last g = Ok (g', last', next) /\
    missing_size_loop fuel e m sn_start sn_count size rc maxsize = Ok (size', rc', next) /\
    gen_at g' size' maxsize L /\ size <= size' <= maxsize /\ (next = m_next m \/ next = []) /\
    rc <= rc' /\ (sn_count = 0 \/ rc < rc' \/ next = []).
Proof.
  intros Hl HL fuel. induction fuel as [|fuel IH]; intros sn_start sn_count last g size rc Hc Hg Hs;
    cbn [generate_missing_loop missing_size_loop].
  { rewrite (proj2 (Z.eqb_eq sn_count 0)) by lia. eexists _, _, _, _, _. split_and!; try done; try lia.
    by left. }
  destruct (Z.eqb_spec sn_count 0) as [->|Hne].
  { eexists _, _, _, _, _. split_and!; try done; try lia. by left. }
  destruct (nack_block e m sn_start sn_count) as [cnt b] eqn:Eb.
  assert (Hcnt : 1 <= cnt <= sn_count).
  { unfold nack_block in Eb. destruct (_ =? sn_count); injection Eb as <- _; case_if; bool_prop; lia. }
  rewrite (ga_byte _ _ _ _ Hg), (ga_size _ _ _ _ Hg).
  destruct (size + nack_size e b >? maxsize) eqn:Et; bool_prop.
  { eexists _, _, _, _, _. split_and!; [reflexivity|reflexivity| |lia|lia|by right|lia|by right; right].
    destruct Hg. by split. }
  assert (Hb : 2 <= nack_size e b).
  { unfold nack_size. repeat case_if; destruct (_ =? 18); cbn [b2z]; lia. }
  destruct (put_nack_ok e b cnt g size maxsize L Hl Hg) as (g1 & last1 & -> & G1); [lia|lia|]. mon.
  pose proof (block_bytes e b Hl) as BB. cbv zeta in BB. rewrite BB.
  destruct (IH (Z.rem (sn_start + cnt) (sn_modulus e)) (sn_count - cnt) last1 g1 (size + nack_size e b) (rc + 1))
    as (g2 & last2 & size2 & rc2 & next & -> & -> & G2 & ? & ? & ? & ?); [lia|done|lia|].
  eexists _, _, _, _, _. split_and!; try done; lia.
Qed.

Lemma nacks_lockstep e maxsize L : rx_sn_ok e -> maxsize <= L ->
  forall fuel cur ch nc last g size,
  (length cur + (if ch : bool then 1 else 0) <= fuel)%nat -> ch = (nc =? 0) -> 0 <= nc ->
  Forall (fun p => 0 <= pdu_sn p < sn_modulus e) cur -> gen_at g size maxsize L -> size <= maxsize ->
  exists g' last' k, generate_nacks fuel e cur ch last g = Ok (g', last') /\
    status_size_loop fuel e cur nc size maxsize = Ok k /\ gen_at g' k maxsize L /\ size <= k <= maxsize.
Proof.
  intros H HL fuel. induction fuel as [|fuel IH]; intros cur ch nc last g size Hf Hch Hnc HF Hg Hs;
    destruct cur as [|p l]; cbn [generate_nacks status_size_loop].
  1, 3: eexists _, _, _; split_and!; done || lia.
  { cbn in Hf. lia. }
  rewrite <- Hch. pose proof (next_missing_ok e p l ch H HF) as Hm. set (m := next_missing e p l ch) in *.
  clearbody m. destruct (Z.eqb_spec (m_sn_start m) (-1)) as [E|E].
  { eexists _, _, _; split_and!; done || lia. }
  destruct Hm as [?|(M1 & M2 & M3 & M4)]; [done|].
  pose proof (sn_modulus_pos e H). pose proof (rem_bound e (m_sn_end m - m_sn_start m + sn_modulus e) H ltac:(lia)).
  unfold generate_missing, missing_size.
  destruct (missing_lockstep e m maxsize L (rs_len _ H) HL (Z.to_nat (missing_count e m)) (m_sn_start m)
    (missing_count e m) (-1) (g <| g_truncated := false |>) size 0) as
    (g1 & ln & size1 & rc & next & -> & -> & G1 & Hs1 & Hnx & Hrc & Hpr); [unfold missing_count; lia|by destruct Hg; split|done|].
  mon.
  assert (F : exists g2, force_so_end g1 = Ok g2 /\ gen_at g2 size1 maxsize L).
  { unfold force_so_end. destruct (g_truncated g1); [|by exists g1].
    destruct (g_so_end_address g1) as [a|] eqn:Ea; [|by exists g1].
    destruct G1. rewrite Ea in *. destruct ga_so0.
    rewrite wr_ok by lia. mon. rewrite wr_ok by (unfold zlen in *; rewrite length_insert; lia). mon.
    eexists. split; [reflexivity|]. destruct ga_wf0 as (?&?&?).
    split; cbn; unfold e_wf, zlen in *; cbn; rewrite ?length_insert; rewrite ?Ea; try done; lia. }
  destruct F as (g2 & -> & G2). mon.
  destruct next as [|p2 l2].
  - exists g2. eexists _, size1. destruct fuel; cbn; split_and!; done || lia.
  - destruct Hnx as [Hnx|]; [|done].
    assert (Hp : 0 < nc + rc).
    { destruct Hpr as [Hp|[Hp|Hp]]; [unfold missing_count in Hp; lia|lia|done]. }
    destruct (IH (p2 :: l2) false (nc + rc) (if negb (ln =? -1) then ln else last) g2 size1) as
      (g3 & last3 & k & -> & -> & G3 & Hk).
    + rewrite Hnx. destruct ch; cbn in Hf |- *; lia.
    + symmetry. apply Z.eqb_neq. lia.
    + lia.
    + by rewrite Hnx.
    + done.
    + lia.
    + exists g3. eexists _, k. split_and!; try done; lia.
Qed.

(** The STATUS PDU has exactly the announced size: for any reception state and
    any grant of at least 3 bytes, both loops end, [generate_status] never writes
    outside the grant, and the number of bytes it uses is the [status_size]
    reported in the buffer status for the same limit. *)
Theorem am_status_size_exact e buffer size :
  rx_sn_ok e -> 3 <= size <= zlen buffer ->
  exists n b e', status_size e size = Ok n /\ generate_status e buffer size = Ok (n, b, e') /\
    3 <= n <= size /\ zlen b = zlen buffer /\ status_triggered e' = false.
Proof.
  intros H Hs. unfold status_size, generate_status. rewrite !(proj2 (Z.ltb_ge _ _)) by lia.
  destruct (put_bits_spec (nr_rlc_pdu_encoder_init buffer size) 0 24) as (en & E & A);
    [apply encoder_init_wf; lia|lia|unfold e_pos; cbn; lia|].
  change (8 * 3) with 24. rewrite E. mon.
  set (g := mk_gen en 2 _ false None).
  assert (G : gen_at g 3 size (zlen buffer)).
  { destruct A as [W _ P S Ln]. unfold e_pos in P. cbn in P, S, Ln. change (zlen (zbits (Z.to_nat 24) 0)) with 24 in P.
    destruct W as (?&?&?). split; cbn; try done; try lia. }
  destruct (nacks_lockstep e size (zlen buffer) H ltac:(lia) (S (length (rx_list e))) (rx_list e) true 0
    (Z.rem (rx_next e - 1 + sn_modulus e) (sn_modulus e)) g 3) as (g' & last & k & -> & -> & G' & Hk);
    [lia|done|lia|apply H|done|lia|]. mon.
  set (ack := Z.rem (last + 1) (sn_modulus e)). clearbody ack.
  assert (Pa : exists b, put_ack_sn e (e_buffer (g_encoder g')) ack = Ok b /\ zlen b = zlen buffer).
  { destruct G'. unfold put_ack_sn. destruct (_ =? 12).
    - rewrite wr_ok by lia. mon. rewrite wr_ok by (unfold zlen in *; rewrite length_insert; lia).
      eexists. split; [done|]. unfold zlen in *. by rewrite !length_insert.
    - rewrite wr_ok by lia. mon. rewrite wr_ok by (unfold zlen in *; rewrite length_insert; lia). mon.
      match goal with |- context [rd ?x 2] => destruct (rd_ok x 2) as (v & -> & _) end;
        [unfold zlen in *; rewrite !length_insert; lia|]. mon.
      rewrite wr_ok by (unfold zlen in *; rewrite !length_insert; lia).
      eexists. split; [done|]. unfold zlen in *. by rewrite !length_insert. }
  destruct Pa as (b & -> & Zb). mon. rewrite (ga_byte _ _ _ _ G').
  eexists k, b, _. split_and!; try done; lia.
Qed.

(** Witness: SN 0 is missing its first byte, SN 1 is missing entirely. *)
Lemma am_status_size_exact_witness :
  exists e, rx_list e = [mk_pdu 0 (Some [7; 7]) 2 1 false true; mk_pdu 2 (Some [9]) 1 0 true false] /\
    rx_highest_status e = 2 /\
    exists n b e', status_size e 20 = Ok n /\ generate_status e (replicate 20 0) 20 = Ok (n, b, e') /\
      3 <= n <= 20 /\ zlen b = 20 /\ status_triggered e' = false.
Proof.
  destruct (new_common_ok NR_RLC_AM) as (c & _).
  exists (mk_am c 45 35 0 (-1) (-1) 8 12 4096 2048 0 0 2 3 true 0 0 0 0 0 false 1 0 0 0 0 0
    [mk_pdu 0 (Some [7; 7]) 2 1 false true; mk_pdu 2 (Some [9]) 1 0 true false] 3 1000
    heap_empty [] None 0 1000 [] None []).
  split; [done|]. split; [done|].
  match goal with |- exists n b e', status_size ?e _ = _ /\ _ =>
    apply (am_status_size_exact e (replicate 20 0) 20) end.
  - split; cbn; [by left|done|lia|lia|]. repeat constructor; cbn; lia.
  - unfold zlen. cbn. lia.
Defined.
