(* ===== verification/RlcAmData.v ===== *)
(** * AM data PDUs: round trip, duplicates and reassembly

    What the sender serializes is what the receiver decodes, a segment is
    discarded as a duplicate only when all its bytes are there, and a complete
    SDU is rebuilt and delivered. *)

From S2P Require Import Prelude RlcPdu RlcSdu TimeStat RlcEntity RlcRx RlcAm.
From S2P Require Import RlcAmControl RlcAmStatus RlcAmEntity RlcAmReport.

Import Am AmEntity.

(** ** The header on the wire *)

Definition am_fields (len : Z) (p : bool) (sn so : Z) (is_first is_last : bool) : list (Z * Z) :=
  [(1, 1); (b2z p, 1); (1 - b2z is_first, 1); (1 - b2z is_last, 1)] ++
  (if len =? 18 then [(0, 2)] else []) ++ [(sn, len)] ++ (if is_first then [] else [(so, 16)]).

Definition am_header_size (len : Z) (is_first : bool) : Z := header_size len (mk_seg 1 1 0 0 is_first true).

Lemma am_fields_ok len p sn so f l : am_len_ok len ->
  Forall (fun f => 1 <= f.2 <= 31) (am_fields len p sn so f l) /\
  total (am_fields len p sn so f l).*2 = 8 * am_header_size len f.
Proof.
  intros [->| ->]; unfold am_fields; destruct f; (split; [small_fields|reflexivity]).
Qed.

(** The bytes of one data PDU. *)
Definition am_pdu (len : Z) (p : bool) (sn so : Z) (is_first is_last : bool) (data pdu : bytes) : Prop :=
  exists hdr, pdu = hdr ++ data /\ zlen hdr = am_header_size len is_first /\
    bits hdr = field_bits (am_fields len p sn so is_first is_last).

(** [buffer[0] |= 0x40] turns the P bit on. *)
Lemma zbits_poll v : zbits 8 (Z.lor v 64) =
  match zbits 8 v with b7 :: _ :: r => b7 :: true :: r | l => l end.
Proof.
  unfold zbits. rewrite !Z.lor_spec.
  repeat match goal with |- context [Z.testbit 64 ?k] =>
    let b := eval vm_compute in (Z.testbit 64 k) in change (Z.testbit 64 k) with b end.
  by rewrite !orb_false_r, orb_true_r.
Qed.

Lemma flip_second b7 b6 (r r' : list bool) :
  b7 :: b6 :: r = true :: false :: r' -> b7 :: true :: r = true :: true :: r'.
Proof. congruence. Qed.

Lemma poll_header len sn so f l data v b :
  am_pdu len false sn so f l data (v :: b) -> am_pdu len true sn so f l data (Z.lor v 64 :: b).
Proof.
  intros (hdr & E & Z & B). destruct hdr as [|h hdr].
  - unfold am_header_size, header_size in Z. rewrite zlen_nil in Z. revert Z. repeat case_if; lia.
  - injection E as <- ->. exists (Z.lor v 64 :: hdr). split; [done|]. split; [done|].
    rewrite bits_cons in *. rewrite zbits_poll.
    change (zbits 8 v) with (Z.testbit v 7 :: Z.testbit v 6 :: zbits 6 v) in B |- *.
    unfold am_fields in *.
    change (field_bits ([(1, 1); (b2z false, 1); (1 - b2z f, 1); (1 - b2z l, 1)] ++ ?x))
      with (true :: false :: field_bits ([(1 - b2z f, 1); (1 - b2z l, 1)] ++ x)) in B.
    change (field_bits ([(1, 1); (b2z true, 1); (1 - b2z f, 1); (1 - b2z l, 1)] ++ ?x))
      with (true :: true :: field_bits ([(1 - b2z f, 1); (1 - b2z l, 1)] ++ x)).
    cbn [app] in B |- *. exact (flip_second _ _ _ _ B).
Qed.

(** The state after a poll is sent. *)
Definition polled (e : nr_rlc_entity_am_t) : nr_rlc_entity_am_t :=
  e <| pdu_without_poll := 0 |> <| byte_without_poll := 0 |>
    <| poll_sn := Z.rem (tx_next e - 1 + sn_modulus e) (sn_modulus e) |>
    <| t_poll_retransmit_start := t_current e |>.

Lemma serialize_am_ok e s d buffer size p :
  h_sdus (heap e) !! seg_sdu s = Some d -> am_len_ok (sn_field_length e) ->
  0 <= seg_so s -> 0 <= seg_size s -> seg_so s + seg_size s <= zlen (sdu_data d) ->
  compute_pdu_header_size e s + seg_size s <= size <= zlen buffer ->
  let ret := compute_pdu_header_size e s + seg_size s in
  exists b, serialize_sdu e s buffer size p = Ok (ret, b, if p then polled e else e) /\
    zlen b = zlen buffer /\
    am_pdu (sn_field_length e) p (sdu_sn d) (seg_so s) (seg_is_first s) (seg_is_last s)
      (take (Z.to_nat (seg_size s)) (drop (Z.to_nat (seg_so s)) (sdu_data d))) (take (Z.to_nat ret) b).
Proof.
  intros Hd Hlen H1 H2 H3 H4 ret.
  set (src := take _ (drop _ (sdu_data d))).
  assert (Hsrc : slice (sdu_data d) (seg_so s) (seg_size s) = Ok src) by (apply slice_ok; lia).
  pose proof (slice_zlen _ _ _ _ Hsrc) as Hz.
  destruct (am_fields_ok (sn_field_length e) false (sdu_sn d) (seg_so s) (seg_is_first s) (seg_is_last s) Hlen) as [F T].
  change (am_header_size _ _) with (compute_pdu_header_size e s) in T.
  destruct (encode_spec buffer size _ (compute_pdu_header_size e s) src F T) as
    (enc & b & hdr & P & E & B & Tk & Bi & Zh & Zb); [lia|].
  assert (A : am_pdu (sn_field_length e) false (sdu_sn d) (seg_so s) (seg_is_first s) (seg_is_last s) src
      (take (Z.to_nat ret) b)).
  { exists hdr. split_and!; [|done|done]. unfold ret. by rewrite <- Tk, Hz. }
  assert (S : serialize_sdu e s buffer size p =
    ('(e, b) ← (if p then include_poll e b else mret (e, b)); mret (ret, b, e))).
  { unfold serialize_sdu, sdu_of. rewrite Hd. clear F T Tk Bi A Zb. unfold am_fields in P.
    destruct (seg_is_first s), (sn_field_length e =? 18);
      cbn [put_fields app negb b2z] in P |- *; inv_res;
      repeat match goal with H : nr_rlc_pdu_encoder_put_bits _ _ _ = Ok _ |- _ =>
        rewrite H; clear H; mon end; rewrite Hsrc; mon; rewrite E, B; done. }
  rewrite S. destruct p; [|mon; exists b; done]. unfold include_poll.
  assert (1 < ret <= zlen b).
  { unfold ret, compute_pdu_header_size, header_size in *. repeat case_if; lia. }
  destruct b as [|v b]; [rewrite zlen_nil in *; lia|].
  change (rd (v :: b) 0) with (Ok v : res Z). mon. rewrite wr_ok by lia.
  change (Z.to_nat 0) with O. cbn [insert list_insert]. mon. eexists. split; [reflexivity|].
  split; [done|]. destruct (Z.to_nat ret) as [|n] eqn:En; [lia|]. cbn [firstn] in *.
  by apply poll_header.
Qed.

(** [recv_pdu] on a data PDU with a known header. *)
Lemma recv_am_ok e pdu p sn so f l data :
  am_len_ok (sn_field_length e) -> 0 <= sn < 2 ^ sn_field_length e -> 0 <= so < 2 ^ 16 ->
  (f = false -> so <> 0) -> am_pdu (sn_field_length e) p sn so f l data pdu ->
  nr_rlc_entity_am_recv_pdu e pdu (zlen pdu) =
    recv_segment
      (stat (fun s => s <| rxpdu_pkts ::= add32 1 |> <| rxpdu_bytes ::= add32 (zlen pdu) |>) e)
      pdu (zlen pdu) p sn (if f then 0 else so) f l (am_header_size (sn_field_length e) f).
Proof.
  intros Hlen Hsn Hso Hf (hdr & -> & Hz & Hb). remember (zlen (hdr ++ data)) as size eqn:Hsize.
  rewrite zlen_app in Hsize. subst size.
  destruct (decoder_header hdr data _ Hb) as (W & S & P).
  unfold nr_rlc_entity_am_recv_pdu. cbv zeta. set (e1 := stat _ e). unfold am_fields in S.
  set (d := nr_rlc_pdu_decoder_init _ _) in *. clearbody d.
  assert (Hlen1 : sn_field_length e1 = sn_field_length e) by done. rewrite Hlen1.
  assert (S' : d_stream d = zbits (Z.to_nat 1) 1 ++ zbits (Z.to_nat 1) (b2z p) ++
     zbits (Z.to_nat 2) (2 * (1 - b2z f) + (1 - b2z l)) ++
     field_bits ((if sn_field_length e =? 18 then [(0, 2)] else []) ++ [(sn, sn_field_length e)] ++
       (if f then [] else [(so, 16)])) ++ bits data).
  { rewrite S. destruct f, l; reflexivity. }
  clear S. read_field. change (1 mod 2 ^ 1 =? 0) with false. cbv iota. read_field. read_field.
  assert (F2 : (Z.land ((2 * (1 - b2z f) + (1 - b2z l)) mod 2 ^ 2) 2 =? 0) = f) by (by destruct f, l).
  assert (F1 : (Z.land ((2 * (1 - b2z f) + (1 - b2z l)) mod 2 ^ 2) 1 =? 0) = l) by (by destruct f, l).
  assert (Fp : negb (b2z p mod 2 ^ 1 =? 0) = p) by (by destruct p).
  rewrite F2, F1, Fp. clear F2 F1 Fp.
  assert (Hsn' : sn mod 2 ^ sn_field_length e = sn) by (apply Z.mod_small; lia).
  assert (Hso' : so mod 2 ^ 16 = so) by (apply Z.mod_small; lia).
  unfold am_header_size, header_size. cbn [seg_is_first].
  destruct Hlen as [L|L]; rewrite L in *.
  all: try change (12 =? 18) with false in *; try change (18 =? 18) with true in *; cbn [app] in *;
    rewrite ?field_bits_cons, <- ?app_assoc in *; cbv iota in *.
  all: repeat read_field; rewrite Hsn'; destruct f; cbn [negb];
    rewrite ?field_bits_cons, <- ?app_assoc in *; repeat read_field.
  all: rewrite ?Hso', ?(proj2 (Z.eqb_neq so 0)) by auto; f_equal; apply d_byte_aligned; [done|lia].
Qed.

(** [C37] AM data PDU round trip: a segment serialized by one entity, with or without
    the poll bit, is decoded by another one with the same SN length as the same
    SN, offset, first/last flags and poll bit, and its payload is byte for byte the
    segment's part of the SDU. *)
Theorem am_data_pdu_roundtrip e s d buffer size p e2 :
  h_sdus (heap e) !! seg_sdu s = Some d -> am_len_ok (sn_field_length e) ->
  sn_field_length e2 = sn_field_length e ->
  0 <= sdu_sn d < 2 ^ sn_field_length e -> seg_is_first s = (seg_so s =? 0) ->
  0 <= seg_so s -> 0 < seg_size s -> seg_so s + seg_size s <= zlen (sdu_data d) -> zlen (sdu_data d) <= NR_SDU_MAX ->
  compute_pdu_header_size e s + seg_size s <= size <= zlen buffer ->
  exists ret b pdu, serialize_sdu e s buffer size p = Ok (ret, b, if p then polled e else e) /\
    pdu = take (Z.to_nat ret) b /\ zlen pdu = ret /\
    nr_rlc_entity_am_recv_pdu e2 pdu ret =
      recv_segment (stat (fun st => st <| rxpdu_pkts ::= add32 1 |> <| rxpdu_bytes ::= add32 ret |>) e2)
        pdu ret p (sdu_sn d) (seg_so s) (seg_is_first s) (seg_is_last s) (compute_pdu_header_size e s) /\
    slice pdu (compute_pdu_header_size e s) (seg_size s) = slice (sdu_data d) (seg_so s) (seg_size s).
Proof.
  intros Hd Hlen Hl2 Hsn Hf H1 H2 H3 Hmax H4.
  destruct (serialize_am_ok e s d buffer size p Hd Hlen H1 ltac:(lia) H3 H4) as (b & E & _ & A).
  set (ret := compute_pdu_header_size e s + seg_size s) in *.
  set (src := take _ (drop _ (sdu_data d))) in A.
  assert (Hsrc : slice (sdu_data d) (seg_so s) (seg_size s) = Ok src) by (apply slice_ok; lia).
  pose proof (slice_zlen _ _ _ _ Hsrc) as Hz.
  assert (Hh : am_header_size (sn_field_length e) (seg_is_first s) = compute_pdu_header_size e s) by done.
  assert (Hp : zlen (take (Z.to_nat ret) b) = ret).
  { destruct A as (hdr & -> & Zh & _). rewrite zlen_app, Zh, Hz, Hh. done. }
  exists ret, b, (take (Z.to_nat ret) b). split_and!; try done.
  - assert (Hso : (if seg_is_first s then 0 else seg_so s) = seg_so s)
      by (rewrite Hf; destruct (Z.eqb_spec (seg_so s) 0); lia).
    pose proof (recv_am_ok e2 (take (Z.to_nat ret) b) p (sdu_sn d) (seg_so s) (seg_is_first s)
      (seg_is_last s) src) as R. rewrite Hl2, Hp, Hso in R. apply R; try done.
    + unfold NR_SDU_MAX in *. lia.
    + rewrite Hf. intros Ef. bool_prop. lia.
  - rewrite Hsrc. destruct A as (hdr & -> & Zh & _). rewrite <- Hz, <- Hh, <- Zh. apply slice_app_r.
Qed.

(** Witness: the last two bytes of a four-byte SDU, with the poll bit. *)
Lemma am_data_pdu_roundtrip_witness :
  exists e s, serialize_sdu e s (replicate 9 0) 9 true = Ok (6, [224; 5; 0; 2; 12; 13; 0; 0; 0], polled e) /\
    nr_rlc_entity_am_recv_pdu e [224; 5; 0; 2; 12; 13] 6 =
      recv_segment (stat (fun st => st <| rxpdu_pkts ::= add32 1 |> <| rxpdu_bytes ::= add32 6 |>) e)
        [224; 5; 0; 2; 12; 13] 6 true 5 2 false true 4.
Proof.
  destruct (new_common_ok NR_RLC_AM) as (c & _).
  set (d := mk_sdu 5 0 [10; 11; 12; 13] 4 (-1) 1 0 0).
  set (s := mk_seg 2 1 2 2 false true).
  set (e := mk_am c 45 35 0 (-1) (-1) 8 12 4096 2048 0 0 0 0 false 6 5 0 0 0 false 1 0 0 0 0 0
    [] 0 1000 (mk_heap {[1%positive := d]} 3) [] None 4 1000 [] None []).
  exists e, s.
  destruct (am_data_pdu_roundtrip e s d (replicate 9 0) 9 true e) as (ret & b & pdu & E & -> & Hz & R & _).
  - reflexivity.
  - by left.
  - done.
  - cbn. lia.
  - done.
  - cbn. lia.
  - cbn. lia.
  - unfold zlen. cbn. lia.
  - unfold zlen, NR_SDU_MAX. cbn. lia.
  - change (6 <= 9 <= 9). lia.
  - assert (E2 : serialize_sdu e s (replicate 9 0) 9 true = Ok (6, [224; 5; 0; 2; 12; 13; 0; 0; 0], polled e))
      by reflexivity.
    split; [done|]. rewrite E2 in E. injection E as <- <-. exact R.
Defined.

(** ** Duplicates *)

Definition held (l : list nr_rlc_pdu_t) (sn b : Z) : Prop :=
  exists p, p ∈ l /\ pdu_sn p = sn /\ pdu_so p <= b < pdu_so p + pdu_size p.

Lemma already_received_held sn l : forall so size b,
  already_received_loop sn l so size = true -> so <= b < so + size -> held l sn b.
Proof.
  assert (Hmono : forall p l b, held l sn b -> held (p :: l) sn b).
  { intros p l' b (q & Hq & ?). exists q. split; [set_solver|done]. }
  induction l as [|p l IH]; intros so size b H Hb; cbn in H; [bool_prop; lia|].
  destruct (Z.leb_spec size 0); [lia|].
  destruct (Z.eqb_spec (pdu_sn p) sn) as [Es|Es]; [|by eapply Hmono, IH].
  destruct ((pdu_so p <=? so) && (so <? pdu_so p + pdu_size p)) eqn:E1.
  - bool_prop. destruct (Z.lt_ge_cases b (pdu_so p + pdu_size p)).
    + exists p. split; [set_solver|]. split; [done|lia].
    + eapply Hmono, IH; [exact H|lia].
  - destruct ((pdu_so p <=? so + size - 1) && (so + size - 1 <? pdu_so p + pdu_size p)) eqn:E2.
    + bool_prop. destruct (Z.lt_ge_cases b (pdu_so p)).
      * eapply Hmono, IH; [exact H|lia].
      * exists p. split; [set_solver|]. split; [done|lia].
    + eapply Hmono, IH; [exact H|lia].
Qed.

(** A received segment is dropped as a duplicate only if every one of its bytes
    is already held by some segment of the same SN: no new byte is ever thrown
    away by this test. *)
Theorem am_duplicate_is_held e sn so size b :
  segment_already_received e sn so size = true -> so <= b < so + size -> held (rx_list e) sn b.
Proof. apply already_received_held. Qed.

(** ** Completeness and delivery *)

(** An SDU is considered complete exactly when every one of its bytes is in
    some received segment, whatever the overlaps between segments. *)
Theorem am_sdu_full_iff_covered e sn D pre segs rest :
  Rx.holds (rx_list e) sn D pre segs rest ->
  sdu_full e sn = true <-> forall b, 0 <= b < zlen D -> Rx.covered segs b.
Proof. apply Rx.sdu_full_covered. Qed.

(** A complete SDU is delivered to the upper layer byte for byte, once, its
    segments are marked as processed and their bytes leave the receive buffer. *)
Theorem am_full_sdu_delivered e sn D pre segs rest :
  Rx.holds (rx_list e) sn D pre segs rest -> sdu_full e sn = true ->
  exists e', reassemble_and_deliver e sn = Ok e' /\
    calls (common e') = calls (common e) ++ [DeliverSdu D] /\
    rx_list e' = pre ++ (consume <$> segs) ++ rest /\
    rx_size e' = rx_size e - Rx.sum_size segs /\ sdu_delivered e' sn = true.
Proof.
  intros H Hf. unfold reassemble_and_deliver.
  rewrite (Rx.reassemble_full consume _ _ _ _ _ _ (rx_size e) H Hf). mon.
  eexists. split; [reflexivity|]. split_and!; try done.
  unfold sdu_delivered, Rx.sdu_delivered. cbn.
  unfold sdu_full, Rx.sdu_full in Hf. rewrite (Rx.find_sn_holds _ _ _ _ _ _ H) in Hf.
  destruct H. rewrite Rx.find_sn_skip by done. destruct segs as [|p segs]; [done|].
  apply Forall_cons in h_run as [E _]. cbn. by rewrite E, Z.eqb_refl.
Qed.
