(* ===== verification/RlcAmFaults.v ===== *)
(** * RLC acknowledged mode: faults

    A sequence of operations after which the AM entity has lost an SDU. *)

From S2P Require Import Prelude RlcPdu RlcSdu TimeStat RlcEntity RlcRx RlcAm RlcAmControl RlcAmStatus RlcAmEntity.
Import Am AmControl AmStatus AmEntity.

(** An SDU of 20 bytes leaves in two segments; a STATUS PDU with a NACK for the SDU puts both
    on the retransmission list. *)
Definition two_nacked_segments : res nr_rlc_entity_am_t :=
  e ← new_nr_rlc_entity_am 1000 1000 0 0 0 (-1) (-1) 8 12;
  e ← nr_rlc_entity_am_recv_sdu e (replicate 20 7) 20 1 0;
  '(_, _, e) ← nr_rlc_entity_am_generate_pdu e (replicate 12 0) 12 0;
  '(_, _, e) ← nr_rlc_entity_am_generate_pdu e (replicate 30 0) 30 0;
  process_control_pdu e [0; 1; 128; 0; 0] 5.

