(* ===== verification/RlcAmWindow.v ===== *)
(** * The AM reception list against the SDUs it comes from

    The SDUs of a sender are numbered from 0 on; SDU [i] travels with SN
    [i mod 2W].  [window_list] describes a reception list whose window starts
    at SDU [R]: what it holds of each SDU of the window, which SDUs have been
    delivered, and the order of the segments.  The lemmas follow the list
    operations of [nr_rlc_entity_am.c] through it. *)

From S2P Require Import Prelude RlcPdu RlcSdu TimeStat RlcEntity RlcRx RlcAm.
From S2P Require Import RlcAmControl RlcAmStatus RlcAmEntity RlcAmReport RlcAmData.

Import Am.

(** ** Bytes held *)

Lemma held_app l1 l2 sn b : held (l1 ++ l2) sn b <-> held l1 sn b \/ held l2 sn b.
Proof. unfold held. setoid_rewrite elem_of_app. naive_solver. Qed.

Lemma held_nil sn b : ~ held [] sn b.
Proof. intros (? & []%not_elem_of_nil & _). Qed.

Lemma held_cons p l sn b :
  held (p :: l) sn b <-> (pdu_sn p = sn /\ pdu_so p <= b < pdu_so p + pdu_size p) \/ held l sn b.
Proof. unfold held. setoid_rewrite elem_of_cons. naive_solver. Qed.

Lemma held_other l sn b : Forall (fun p => pdu_sn p <> sn) l -> ~ held l sn b.
Proof. rewrite Forall_forall. intros H (p & Hp & E & _). by eapply H. Qed.

Lemma held_run l sn b : Forall (fun p => pdu_sn p = sn) l -> held l sn b <-> Rx.covered l b.
Proof. rewrite Forall_forall. unfold held, Rx.covered. naive_solver. Qed.

#[export] Instance held_perm : Proper ((≡ₚ) ==> (=) ==> (=) ==> iff) held.
Proof. intros l1 l2 E ? sn -> ? b ->. unfold held. by setoid_rewrite E. Qed.

(** The duplicate test finds every segment whose bytes are all there. *)
Lemma already_received_complete key sn l : StronglySorted (pdu_le key) l ->
  forall so size, (forall b, so <= b < so + size -> held l sn b) -> already_received_loop sn l so size = true.
Proof.
  induction 1 as [|p l HS IH Hle]; intros so size H; cbn.
  - destruct (Z.leb_spec size 0); [done|]. destruct (H so) as (? & []%not_elem_of_nil & _). lia.
  - destruct (Z.leb_spec size 0); [done|]. setoid_rewrite held_cons in H.
    destruct (Z.eqb_spec (pdu_sn p) sn) as [E|E].
    2: { apply IH. intros b Hb. destruct (H b Hb) as [[? _]|]; done. }
    assert (pdu_so p <= so).
    { destruct (H so) as [|(q & Hq & Eq & ?)]; [lia|lia|]. rewrite Forall_forall in Hle.
      destruct (Hle q Hq) as [?|[_ ?]]; [|lia]. rewrite E, Eq in *. lia. }
    rewrite (proj2 (Z.leb_le _ so)) by done. cbn [andb].
    destruct (Z.ltb_spec so (pdu_so p + pdu_size p)).
    + apply IH. intros b Hb. destruct (H b); [lia|lia|done].
    + rewrite (proj2 (Z.ltb_ge (so + size - 1) _)) by lia. rewrite andb_false_r.
      apply IH. intros b Hb. destruct (H b); [lia|lia|done].
Qed.

(** The segments of one SN are consecutive, in the order of their offsets. *)
Lemma sorted_split key sn l : StronglySorted (pdu_le key) l ->
  (forall p, p ∈ l -> key (pdu_sn p) = key sn -> pdu_sn p = sn) ->
  exists pre segs rest, l = pre ++ segs ++ rest /\ Forall (fun p => key (pdu_sn p) < key sn) pre /\
    Forall (fun p => pdu_sn p = sn) segs /\ Forall (fun p => key sn < key (pdu_sn p)) rest /\
    StronglySorted (fun p q => pdu_so p <= pdu_so q) segs.
Proof.
  induction 1 as [|p l HS IH Hle]; intros Hinj.
  { exists [], [], []. repeat constructor. }
  destruct IH as (pre & segs & rest & El & Hpre & Hsegs & Hrest & Hso); [set_solver|].
  destruct (Z.lt_trichotomy (key (pdu_sn p)) (key sn)) as [Hlt|[Heq|Hgt]].
  - exists (p :: pre), segs, rest. subst. split_and!; try done. by constructor.
  - assert (Ep : pdu_sn p = sn) by (apply Hinj; set_solver). subst l.
    rewrite Forall_forall in Hle, Hsegs.
    destruct pre as [|q pre].
    2: { exfalso. apply Forall_cons in Hpre as [Hq _]. destruct (Hle q) as [?|[E _]]; [set_solver|lia|].
         rewrite <- E, Heq in Hq. lia. }
    exists [], (p :: segs), rest. split_and!; try done.
    + constructor; [done|]. by apply Forall_forall.
    + constructor; [done|]. apply Forall_forall. intros q Hq.
      pose proof (Hsegs q Hq) as Eq. cbn in Eq.
      destruct (Hle q) as [?|[_ ?]]; [set_solver|rewrite Eq in *; lia|done].
  - exists [], [], (p :: l). split_and!; try done.
    + constructor; [done|]. eapply Forall_impl; [exact Hle|]. intros q [?|[E _]]; [lia|]. by rewrite <- E.
    + constructor.
Qed.

(** The order does not look at the data. *)
Lemma pdu_sorted_same key l1 l2 :
  Forall2 (fun p q => pdu_sn p = pdu_sn q /\ pdu_so p = pdu_so q) l1 l2 ->
  StronglySorted (pdu_le key) l1 -> StronglySorted (pdu_le key) l2.
Proof.
  induction 1 as [|p q l1 l2 [E1 E2] HF IH]; intros HS; [constructor|].
  apply StronglySorted_inv in HS as [HS Hle]. constructor; [by apply IH|].
  clear -E1 E2 HF Hle. induction HF as [|p' q' l1 l2 [E1' E2'] HF IH]; [constructor|].
  apply Forall_cons in Hle as [Hp Hle]. constructor; [|by apply IH].
  unfold pdu_le in *. by rewrite <- E1, <- E2, <- E1', <- E2'.
Qed.

(** The bytes of data in the list. *)
Definition pending (l : list nr_rlc_pdu_t) : Z :=
  total ((fun p => match pdu_data p with Some _ => pdu_size p | None => 0 end) <$> l).

Lemma pending_app l1 l2 : pending (l1 ++ l2) = pending l1 + pending l2.
Proof. unfold pending. rewrite fmap_app. induction l1 as [|p l1 IH]; cbn in *; lia. Qed.

#[export] Instance pending_perm : Proper ((≡ₚ) ==> (=)) pending.
Proof. intros l1 l2 E. unfold pending. induction E; cbn in *; lia. Qed.

(** ** The window *)

Section Window.

(** The window size; SNs are numbered modulo [2 * W]. *)
Context (W : Z) (HW : 0 < W).

(** The SDUs of the sender. *)
Context (D : Z -> bytes) (HD : forall i, 0 < zlen (D i) <= NR_SDU_MAX).

Definition sn_of (i : Z) : Z := i mod (2 * W).

(** The distance of an SN from the start of the window. *)
Definition key (R sn : Z) : Z := (sn - R) mod (2 * W).

Lemma key_sn R i : R <= i < R + 2 * W -> key R (sn_of i) = i - R.
Proof. intros H. unfold key, sn_of. rewrite Zminus_mod_idemp_l. apply Z.mod_small. lia. Qed.

Lemma sn_inj R i j : R <= i < R + 2 * W -> R <= j < R + 2 * W -> sn_of i = sn_of j -> i = j.
Proof. intros Hi Hj E. pose proof (key_sn R i Hi) as K. rewrite E, key_sn in K by done. lia. Qed.

Lemma sn_bound i : 0 <= sn_of i < 2 * W.
Proof. apply Z.mod_pos_bound. lia. Qed.

Lemma sn_rem i n : 0 <= n -> Z.rem (sn_of i + n) (2 * W) = sn_of (i + n).
Proof.
  intros Hn. pose proof (sn_bound i). rewrite Z.rem_mod_nonneg by lia. unfold sn_of.
  by rewrite Zplus_mod_idemp_l.
Qed.

(** [p] holds a piece of SDU [i], whose bytes are gone once it is delivered. *)
Definition piece (delivered : bool) (i : Z) (p : nr_rlc_pdu_t) : Prop :=
  pdu_sn p = sn_of i /\ 0 <= pdu_so p /\ 0 < pdu_size p /\ pdu_so p + pdu_size p <= zlen (D i) /\
  pdu_is_first p = (pdu_so p =? 0) /\ (pdu_is_last p = true <-> pdu_so p + pdu_size p = zlen (D i)) /\
  pdu_data p = if delivered then None
               else Some (take (Z.to_nat (pdu_size p)) (drop (Z.to_nat (pdu_so p)) (D i))).

Lemma piece_seg i p : piece false i p -> Rx.seg_of (D i) p.
Proof. intros (?&?&?&?&?&?&?). by split_and!. Qed.

Lemma piece_consume i p : piece false i p -> piece true i (consume p).
Proof. intros (?&?&?&?&?&?&?). by split_and!. Qed.

(** The list [l], the SDUs delivered so far [dlv], and the window from [R] on. *)
Record window_list (R : Z) (dlv : list Z) (l : list nr_rlc_pdu_t) : Prop := {
  wl_pos : 0 <= R;
  wl_at : forall p, p ∈ l -> exists i, R <= i < R + W /\ piece (bool_decide (i ∈ dlv)) i p;
  wl_sorted : StronglySorted (pdu_le (key R)) l;
  wl_nodup : NoDup dlv;
  wl_dlv : forall i, i ∈ dlv -> 0 <= i < R + W;
  wl_before : forall i, 0 <= i < R -> i ∈ dlv;
  wl_whole : forall i, i ∈ dlv -> R <= i -> forall b, 0 <= b < zlen (D i) -> held l (sn_of i) b }.

(** What is complete has been delivered. *)
Definition all_delivered (R : Z) (dlv : list Z) (l : list nr_rlc_pdu_t) : Prop :=
  forall i, R <= i < R + W -> (forall b, 0 <= b < zlen (D i) -> held l (sn_of i) b) -> i ∈ dlv.

Lemma window_list_init : window_list 0 [] [] /\ all_delivered 0 [] [].
Proof.
  split.
  - split; try set_solver; try lia; constructor.
  - intros i _ H. pose proof (HD i). destruct (held_nil (sn_of i) 0). apply H. lia.
Qed.

(** What [p] is, from its SN. *)
Lemma wl_piece R dlv l i p : window_list R dlv l -> p ∈ l -> pdu_sn p = sn_of i -> R <= i < R + 2 * W ->
  i < R + W /\ piece (bool_decide (i ∈ dlv)) i p.
Proof.
  intros H Hp E Hi. destruct (wl_at _ _ _ H p Hp) as (j & Hj & P). pose proof P as (Ej & _).
  assert (i = j) as -> by (eapply (sn_inj R); [lia|lia|congruence]). split; [lia|done].
Qed.

Lemma wl_key_inj R dlv l i p : window_list R dlv l -> R <= i < R + 2 * W -> p ∈ l ->
  key R (pdu_sn p) = key R (sn_of i) -> pdu_sn p = sn_of i.
Proof.
  intros H Hi Hp. destruct (wl_at _ _ _ H p Hp) as (j & Hj & Ej & _). rewrite Ej, !key_sn by lia.
  intros. f_equal. lia.
Qed.

(** The run of SDU [i] in the list. *)
Lemma wl_split R dlv l i : window_list R dlv l -> R <= i < R + W ->
  exists pre segs rest, l = pre ++ segs ++ rest /\
    Forall (fun p => key R (pdu_sn p) < i - R) pre /\ Forall (piece (bool_decide (i ∈ dlv)) i) segs /\
    Forall (fun p => i - R < key R (pdu_sn p)) rest /\
    StronglySorted (fun p q => pdu_so p <= pdu_so q) segs.
Proof.
  intros H Hi. destruct (sorted_split (key R) (sn_of i) l (wl_sorted _ _ _ H)) as
    (pre & segs & rest & El & H1 & H2 & H3 & H4).
  { intros p Hp. eapply wl_key_inj; [done|lia|done]. }
  rewrite key_sn in * by lia. exists pre, segs, rest. split_and!; try done.
  rewrite Forall_forall in *. intros p Hp.
  eapply wl_piece; [done| |by apply H2|lia]. subst. set_solver.
Qed.

Lemma key_other R i l (P : Z -> Prop) : R <= i < R + 2 * W -> ~ P (i - R) ->
  Forall (fun p => P (key R (pdu_sn p))) l -> Forall (fun p => pdu_sn p <> sn_of i) l.
Proof. intros Hi HP HF. eapply Forall_impl; [exact HF|]. intros p H E. cbv beta in H. rewrite E, key_sn in H by lia. done. Qed.

Lemma piece_run d i segs : Forall (piece d i) segs -> Forall (fun p => pdu_sn p = sn_of i) segs.
Proof. intros HF. eapply Forall_impl; [exact HF|]. by intros p []. Qed.

Lemma wl_holds R dlv l i : window_list R dlv l -> R <= i < R + W -> i ∉ dlv ->
  exists pre segs rest, Rx.holds l (sn_of i) (D i) pre segs rest /\ Forall (piece false i) segs /\
    (forall b, held l (sn_of i) b <-> Rx.covered segs b).
Proof.
  intros H Hi Hn. destruct (wl_split _ _ _ _ H Hi) as (pre & segs & rest & El & H1 & H2 & H3 & H4).
  rewrite bool_decide_false in H2 by done. exists pre, segs, rest.
  assert (O1 : Forall (fun p => pdu_sn p <> sn_of i) pre) by (eapply (key_other R i pre (fun k => k < i - R)); [lia|lia|done]).
  assert (O3 : Forall (fun p => pdu_sn p <> sn_of i) rest) by (eapply (key_other R i rest (fun k => i - R < k)); [lia|lia|done]).
  split_and!; [|done|].
  - split; [done|done|by eapply piece_run|done| |done|apply HD].
    eapply Forall_impl; [exact H2|]. apply piece_seg.
  - intros b. rewrite El, !held_app, <- held_run by (by eapply piece_run).
    pose proof (held_other _ _ b O1). pose proof (held_other _ _ b O3). tauto.
Qed.

(** ** A segment enters the list *)

Lemma list_add_ext cmp1 cmp2 l p : (forall q, q ∈ l -> cmp1 (pdu_sn q) (pdu_sn p) = cmp2 (pdu_sn q) (pdu_sn p)) ->
  nr_rlc_pdu_list_add cmp1 l p = nr_rlc_pdu_list_add cmp2 l p.
Proof.
  unfold nr_rlc_pdu_list_add. induction l as [|q l IH]; intros H; [done|]. cbn.
  rewrite H by set_solver. case_if; [done|]. f_equal. apply IH. set_solver.
Qed.

Lemma wl_add cmp R dlv l i p : window_list R dlv l -> R <= i < R + W -> i ∉ dlv -> piece false i p ->
  (forall j k, R <= j < R + W -> R <= k < R + W -> cmp (sn_of j) (sn_of k) = j - k) ->
  let l' := nr_rlc_pdu_list_add cmp l p in window_list R dlv l' /\ l' ≡ₚ p :: l.
Proof.
  intros H Hi Hn P Hc l'. assert (Hp : l' ≡ₚ p :: l) by apply insert_when_perm.
  pose proof P as (Ep & _). split; [|done]. split; try apply H.
  - intros q Hq. rewrite Hp in Hq. apply elem_of_cons in Hq as [->|Hq]; [|by apply H].
    exists i. split; [done|]. by rewrite bool_decide_false.
  - unfold l'. rewrite (list_add_ext _ (fun a b => key R a - key R b)).
    + apply pdu_list_add_sorted; [done| |apply H]. intros q Hq. rewrite Ep.
      eapply wl_key_inj; [done|lia|done].
    + intros q Hq. destruct (wl_at _ _ _ H q Hq) as (j & Hj & Ej & _). rewrite Ej, Ep, Hc, !key_sn by lia. lia.
  - intros j Hj HR b Hb. rewrite Hp, held_cons. right. by eapply wl_whole.
Qed.

(** ** A complete SDU leaves it *)

Lemma pending_segs i segs : Forall (piece false i) segs -> pending segs = Rx.sum_size segs.
Proof. induction 1 as [|p segs (_&_&_&_&_&_&E) _ IH]; [done|]. unfold pending in *. cbn in *. rewrite E, IH. done. Qed.

Lemma pending_consume segs : pending (consume <$> segs) = 0.
Proof. induction segs as [|p segs IH]; [done|]. unfold pending in *. cbn in *. lia. Qed.

Lemma held_consume segs sn b : held (consume <$> segs) sn b <-> held segs sn b.
Proof. induction segs as [|p segs IH]; [done|]. cbn [fmap list_fmap]. rewrite !held_cons, IH. done. Qed.

Lemma wl_deliver R dlv l i rx : window_list R dlv l -> R <= i < R + W -> i ∉ dlv ->
  (forall b, 0 <= b < zlen (D i) -> held l (sn_of i) b) ->
  exists l' rx', Rx.reassemble consume (sn_of i) l rx = Ok (l', D i, false, rx') /\
    window_list R (dlv ++ [i]) l' /\ (forall sn b, held l' sn b <-> held l sn b) /\
    rx' - pending l' = rx - pending l.
Proof.
  intros H Hi Hn Hb. destruct (wl_holds _ _ _ _ H Hi Hn) as (pre & segs & rest & Hh & HP & Hc).
  assert (Hf : Rx.sdu_full l (sn_of i) = true).
  { rewrite Rx.sdu_full_covered by done. intros b. rewrite <- Hc. auto. }
  rewrite (Rx.reassemble_full consume _ _ _ _ _ _ rx Hh Hf). eexists _, _. split; [done|].
  assert (El := Rx.h_split _ _ _ _ _ _ Hh).
  assert (Hheld : forall sn b, held (pre ++ (consume <$> segs) ++ rest) sn b <-> held l sn b).
  { intros sn b. rewrite El, !held_app, held_consume. done. }
  split_and!; [|done|].
  2: { rewrite El, !pending_app, pending_consume, (pending_segs i segs HP). lia. }
  assert (Hold : forall p, p ∈ l -> pdu_sn p <> sn_of i ->
    exists j, R <= j < R + W /\ piece (bool_decide (j ∈ dlv ++ [i])) j p).
  { intros p Hp Ho. destruct (wl_at _ _ _ H p Hp) as (j & Hj & P). exists j. split; [done|].
    rewrite (bool_decide_ext _ (j ∈ dlv)); [done|]. pose proof P as (Ej & _).
    rewrite elem_of_app, list_elem_of_singleton. split; [|by left]. intros [?| ->]; done. }
  destruct Hh as [_ O1 O2 O3 _ _ _]. rewrite Forall_forall in O1, O3. split; try apply H.
  - intros p Hp. rewrite !elem_of_app in Hp. destruct Hp as [Hp|[Hp|Hp]].
    + apply Hold; [|by apply O1]. subst. set_solver.
    + apply list_elem_of_fmap in Hp as (q & -> & Hq). exists i. split; [done|].
      rewrite bool_decide_true by set_solver. apply piece_consume. rewrite Forall_forall in HP. auto.
    + apply Hold; [|by apply O3]. subst. set_solver.
  - pose proof (wl_sorted _ _ _ H) as HS. rewrite El in HS. clear -HS.
    eapply pdu_sorted_same; [|exact HS]. apply Forall2_app; [by apply Forall_Forall2_diag, Forall_true|].
    apply Forall2_app; [|by apply Forall_Forall2_diag, Forall_true].
    apply Forall2_fmap_r, Forall_Forall2_diag, Forall_true. done.
  - rewrite NoDup_app. split_and!; [apply H|set_solver|apply NoDup_singleton].
  - intros j Hj. apply elem_of_app in Hj as [Hj|Hj%list_elem_of_singleton]; [by apply H|subst].
    pose proof (wl_pos _ _ _ H). lia.
  - intros j Hj. apply elem_of_app. left. by apply H.
  - intros j Hj HR b Hjb. rewrite Hheld. apply elem_of_app in Hj as [Hj|Hj%list_elem_of_singleton]; [by eapply wl_whole|].
    subst. auto.
Qed.

(** ** Delivered SDUs *)

Lemma find_sn_run sn pre segs rest : Forall (fun p => pdu_sn p <> sn) pre ->
  Forall (fun p => pdu_sn p = sn) segs -> Forall (fun p => pdu_sn p <> sn) rest ->
  Rx.find_sn sn (pre ++ segs ++ rest) = match segs with [] => [] | _ => segs ++ rest end.
Proof.
  intros H1 H2 H3. rewrite Rx.find_sn_skip by done. destruct segs as [|p segs]; [by apply Rx.find_sn_none|].
  apply Forall_cons in H2 as [E _]. cbn. by rewrite E, Z.eqb_refl.
Qed.

Lemma wl_delivered R dlv l i : window_list R dlv l -> R <= i < R + 2 * W ->
  Rx.sdu_delivered l (sn_of i) = bool_decide (i ∈ dlv).
Proof.
  intros H Hi. unfold Rx.sdu_delivered. destruct (Z.lt_ge_cases i (R + W)) as [Hw|Hw].
  - destruct (wl_split _ _ _ _ H (conj (proj1 Hi) Hw)) as (pre & segs & rest & El & H1 & H2 & H3 & _).
    apply (key_other R i pre (fun k => k < i - R)) in H1; [|lia|lia].
    apply (key_other R i rest (fun k => i - R < k)) in H3; [|lia|lia].
    rewrite El, find_sn_run by (done || by eapply piece_run). destruct segs as [|p segs].
    + symmetry. apply bool_decide_false. intros Hd.
      pose proof (wl_whole _ _ _ H i Hd ltac:(lia) 0) as Hh. rewrite El, !held_app in Hh.
      pose proof (HD i). destruct Hh as [Hh|[Hh|Hh]]; [lia|..]; revert Hh; by apply held_other || apply held_nil.
    + apply Forall_cons in H2 as [(_&_&_&_&_&_&E) _]. cbn [app]. rewrite E. by destruct (bool_decide _).
  - rewrite Rx.find_sn_none.
    + symmetry. apply bool_decide_false. intros Hd. apply H in Hd. lia.
    + apply Forall_forall. intros p Hp E. pose proof (wl_piece _ _ _ _ _ H Hp E Hi). lia.
Qed.

Lemma skip_spec e R dlv : sn_modulus e = 2 * W -> window_list R dlv (rx_list e) ->
  forall fuel j, R <= j <= R + W -> R + W - j <= Z.of_nat fuel ->
  exists k, skip_delivered fuel e (sn_of j) = Ok (sn_of k) /\ j <= k <= R + W /\ (k ∉ dlv) /\
    (forall i, j <= i < k -> i ∈ dlv).
Proof.
  intros HM H. induction fuel as [|fuel IH]; intros j Hj Hf; cbn [skip_delivered]; unfold sdu_delivered;
    rewrite (wl_delivered R dlv) by (done || lia); destruct (decide (j ∈ dlv)) as [Hd|Hd];
    rewrite ?(bool_decide_true (j ∈ dlv)), ?(bool_decide_false (j ∈ dlv)) by done.
  - apply H in Hd. lia.
  - exists j. split_and!; done || lia.
  - pose proof (wl_dlv _ _ _ H j Hd). rewrite HM, sn_rem by lia.
    destruct (IH (j + 1)) as (k & -> & Hk & Hn & Ha); [lia|lia|]. exists k. split_and!; try done; try lia.
    intros i Hi. destruct (decide (i = j)) as [->|]; [done|]. apply Ha. lia.
  - exists j. split_and!; done || lia.
Qed.

(** ** The head of the list is freed *)

Lemma sorted_impl (R1 R2 : relation nr_rlc_pdu_t) l :
  (forall p q, p ∈ l -> q ∈ l -> R1 p q -> R2 p q) -> StronglySorted R1 l -> StronglySorted R2 l.
Proof.
  intros H HS. induction HS as [|p l HS IH HF]; constructor.
  - apply IH. intros. apply H; set_solver.
  - rewrite Forall_forall in *. intros q Hq. apply H; set_solver.
Qed.

Lemma wl_next R dlv segs rest : window_list R dlv (segs ++ rest) -> R ∈ dlv ->
  Forall (fun p => pdu_sn p = sn_of R) segs -> Forall (fun p => 0 < key R (pdu_sn p)) rest ->
  window_list (R + 1) dlv rest /\
  (forall i b, R < i < R + 2 * W -> held rest (sn_of i) b <-> held (segs ++ rest) (sn_of i) b).
Proof.
  intros H Hd Hs Hr. rewrite Forall_forall in Hr.
  assert (Hat : forall p, p ∈ rest -> exists i, R < i < R + W /\ piece (bool_decide (i ∈ dlv)) i p).
  { intros p Hp. destruct (wl_at _ _ _ H p) as (i & Hi & P); [set_solver|]. exists i. split; [|done].
    pose proof P as (E & _). specialize (Hr p Hp). cbv beta in Hr. rewrite E, key_sn in Hr by lia. lia. }
  assert (Hh : forall i b, R < i < R + 2 * W -> held rest (sn_of i) b <-> held (segs ++ rest) (sn_of i) b).
  { intros i b Hi. rewrite held_app. split; [by right|]. intros [Hh|]; [|done]. contradict Hh.
    apply held_other. eapply Forall_impl; [exact Hs|]. intros p E Ei. cbv beta in *.
    assert (R = i) by (eapply (sn_inj R); [lia|lia|congruence]). lia. }
  split; [|done]. split.
  - pose proof (wl_pos _ _ _ H). lia.
  - intros p Hp. destruct (Hat p Hp) as (i & Hi & P). exists i. split; [lia|done].
  - pose proof (wl_sorted _ _ _ H) as HS.
    assert (HS' : StronglySorted (pdu_le (key R)) rest).
    { clear -HS. induction segs; [done|]. apply StronglySorted_inv in HS as [HS _]. auto. }
    revert HS'. apply sorted_impl. intros p q Hp Hq.
    destruct (Hat p Hp) as (i & Hi & Ei & _). destruct (Hat q Hq) as (j & Hj & Ej & _).
    unfold pdu_le. rewrite Ei, Ej, !key_sn by lia. intros [?|?]; [left; lia|by right].
  - apply H.
  - intros i Hi. apply H in Hi. lia.
  - intros i Hi. destruct (decide (i = R)) as [->|]; [done|]. apply H. lia.
  - intros i Hi HR b Hb. pose proof (wl_dlv _ _ _ H i Hi). rewrite Hh by lia. eapply wl_whole; [done|done|lia|done].
Qed.

Lemma drop_run_spec sn segs rest : Forall (fun p => pdu_sn p = sn) segs -> Forall (fun p => pdu_sn p <> sn) rest ->
  drop_run sn (segs ++ rest) = rest.
Proof.
  intros Hs Hr. induction Hs as [|p segs E _ IH]; cbn.
  - destruct Hr as [|q rest E _]; [done|]. cbn. by rewrite (proj2 (Z.eqb_neq _ _)).
  - by rewrite E, Z.eqb_refl.
Qed.

Lemma pending_run i segs : Forall (piece true i) segs -> pending segs = 0.
Proof. induction 1 as [|p segs (_&_&_&_&_&_&E) _ IH]; [done|]. unfold pending in *. cbn in *. rewrite E. lia. Qed.

Lemma wl_free dlv fuel : forall R l, window_list R dlv l -> (length l <= fuel)%nat ->
  exists R' l', free_delivered fuel (2 * W) (sn_of R) l = (l', sn_of R') /\ window_list R' dlv l' /\
    R <= R' /\ (R' ∉ dlv) /\ pending l' = pending l /\
    (forall i b, R' <= i < R + 2 * W -> held l' (sn_of i) b <-> held l (sn_of i) b).
Proof.
  induction fuel as [|fuel IH]; intros R l H Hl; (destruct (decide (R ∈ dlv)) as [Hd|Hd]; cycle 1).
  1, 3: exists R, l; split; [|by split_and!].
  - done.
  - destruct l as [|p l]; [done|]. cbn [free_delivered]. destruct (pdu_data p) eqn:E; [done|].
    rewrite (proj2 (Z.eqb_neq _ _)); [done|]. intros Ep.
    destruct (wl_piece _ _ _ R p H) as [_ (_&_&_&_&_&_&E')]; [set_solver|done|lia|].
    rewrite bool_decide_false in E' by done. congruence.
  - destruct (wl_split _ _ _ R H) as (pre & segs & rest & El & H1 & H2 & H3 & _); [lia|].
    rewrite bool_decide_true in H2 by done. rewrite Z.sub_diag in *.
    assert (pre = []) as ->.
    { destruct pre as [|q pre]; [done|]. apply Forall_cons in H1 as [H1 _]. pose proof (Z.mod_pos_bound (pdu_sn q - R) (2 * W)).
      unfold key in H1. lia. }
    cbn [app] in El. pose proof (piece_run _ _ _ H2) as Hs.
    assert (Ho : Forall (fun p => pdu_sn p <> sn_of R) rest).
    { apply (key_other R R rest (fun k => 0 < k)); [lia|lia|done]. }
    rewrite El in H. destruct (wl_next _ _ _ _ H Hd Hs H3) as [Hw Hh].
    destruct segs as [|p segs].
    { pose proof (HD R). destruct (held_other rest (sn_of R) 0 Ho). eapply (wl_whole _ _ _ H); [done|lia|lia]. }
    rewrite El in Hl |- *. cbn [app length] in Hl |- *. cbn [free_delivered].
    pose proof (pending_run _ _ H2) as Hp. apply Forall_cons in H2 as [(Es&_&_&_&_&_&En) H2].
    apply Forall_cons in Hs as [_ Hs]. rewrite En, Es, Z.eqb_refl, sn_rem, drop_run_spec by (done || lia).
    destruct (IH (R + 1) rest Hw) as (R' & l' & -> & Hw' & HR & Hn & Hp' & Hh'); [rewrite length_app in Hl; lia|].
    exists R', l'. split_and!; try done; try lia.
    + change (p :: segs ++ rest) with ((p :: segs) ++ rest). rewrite pending_app, Hp. lia.
    + intros i b Hi. rewrite Hh', Hh by lia. done.
  - pose proof (HD R). destruct l; [|cbn in Hl; lia]. destruct (held_nil (sn_of R) 0). eapply wl_whole; [done|done|lia|lia].
Qed.

End Window.
