(* ===== verification/RlcAmRecv.v ===== *)
(** * The receiving side of an AM entity

    The state variables of the receiver against absolute SDU numbers: RX_Next,
    RX_Next_Highest, RX_Highest_Status and RX_Next_Status_Trigger stand for
    numbers [R <= S <= H] and [R < T <= H], and the reception list for the
    SDUs of the window.  Reception and the expiry of t-Reassembly keep this. *)

From S2P Require Import Prelude RlcPdu RlcSdu TimeStat RlcEntity RlcRx RlcAm.
From S2P Require Import RlcAmControl RlcAmStatus RlcAmEntity RlcAmReport RlcAmData RlcAmWindow.

Import Am AmEntity.

(** The SDUs handed up, in order. *)
Definition sdus_up (cs : list rlc_call) : list bytes :=
  omap (fun c => match c with DeliverSdu s => Some s | _ => None end) cs.

Lemma sdus_up_app cs1 cs2 : sdus_up (cs1 ++ cs2) = sdus_up cs1 ++ sdus_up cs2.
Proof. apply omap_app. Qed.

Lemma sdus_up_ack i : sdus_up [SduSuccessfulDelivery i] = [].
Proof. done. Qed.

Lemma sdus_up_max : sdus_up [MaxRetxReached] = [].
Proof. done. Qed.

#[global] Arguments sdus_up : simpl never.

Section Receiver.

Context (W : Z) (HW : 2 <= W).
Context (D : Z -> bytes) (HD : forall i, 0 < zlen (D i) <= NR_SDU_MAX).

Lemma W_pos : 0 < W.
Proof. lia. Qed.

#[local] Abbreviation sn_of := (sn_of W).
#[local] Abbreviation window_list := (window_list W D).

(** [busy] marks the SDU a segment of which is being processed. *)
Record rx_base (busy : Z -> Prop) (e : nr_rlc_entity_am_t) (R H S : Z) (dlv : list Z) : Prop := {
  rb_len : am_len_ok (sn_field_length e);
  rb_mod : sn_modulus e = 2 ^ sn_field_length e;
  rb_win : sn_modulus e = 2 * W /\ window_size e = W;
  rb_next : rx_next e = sn_of R;
  rb_list : window_list R dlv (rx_list e);
  rb_head : R ∉ dlv;
  rb_size : rx_size e = pending (rx_list e);
  rb_highest : rx_next_highest e = sn_of H;
  rb_H : R <= H <= R + W;
  rb_status : rx_highest_status e = sn_of S;
  rb_S : R <= S <= H;
  rb_Sn : S ∉ dlv;
  rb_all : forall j, ~ busy j -> R <= j < R + W ->
    (forall b, 0 <= b < zlen (D j) -> held (rx_list e) (sn_of j) b) -> j ∈ dlv;
  rb_below : forall j b, ~ busy j -> R <= j < R + W -> held (rx_list e) (sn_of j) b -> j < H;
  rb_calls : sdus_up (calls (common e)) = D <$> dlv }.

(** What t-Reassembly waits for: something is missing below RX_Next_Highest. *)
Definition gap (e : nr_rlc_entity_am_t) (R H : Z) : Prop :=
  R + 1 < H \/ (H = R + 1 /\ sdu_has_missing_bytes e (sn_of R) = true).

Definition timer_ok (e : nr_rlc_entity_am_t) (R H : Z) : Prop :=
  t_reassembly_start e <> 0 -> exists T, rx_next_status_trigger e = sn_of T /\ R < T <= H.

Record rx_inv (e : nr_rlc_entity_am_t) (R H S : Z) (dlv : list Z) : Prop := {
  ri_base : rx_base (fun _ => False) e R H S dlv;
  ri_clock : t_current e <> 0;
  ri_timer : timer_ok e R H;
  ri_gap : gap e R H -> t_reassembly_start e <> 0 \/ R < S }.

(** ** SN arithmetic of the entity *)

Lemma modulus_rx_sn e R j : sn_modulus e = 2 * W -> rx_next e = sn_of R -> R <= j < R + 2 * W ->
  modulus_rx e (sn_of j) = j - R.
Proof.
  intros HM HR Hj. unfold modulus_rx. rewrite HM, HR. rewrite <- (key_sn W R j Hj).
  unfold key. rewrite <- (Zminus_mod_idemp_r _ R). fold (sn_of R).
  pose proof (sn_bound W W_pos j). pose proof (sn_bound W W_pos R).
  destruct (Z.ltb_spec (sn_of j - sn_of R) 0).
  - rewrite <- (Z.mod_add _ 1) by lia. rewrite Z.mod_small; lia.
  - rewrite Z.mod_small; lia.
Qed.

Lemma compare_rx_sn e R j k : sn_modulus e = 2 * W -> rx_next e = sn_of R ->
  R <= j < R + 2 * W -> R <= k < R + 2 * W -> sn_compare_rx e (sn_of j) (sn_of k) = j - k.
Proof. intros. unfold sn_compare_rx. rewrite !(modulus_rx_sn e R) by done. lia. Qed.

Lemma eqb_sn R j k : R <= j < R + 2 * W -> R <= k < R + 2 * W -> (sn_of j =? sn_of k) = (j =? k).
Proof.
  intros. destruct (Z.eqb_spec j k) as [->|N]; [apply Z.eqb_refl|]. apply Z.eqb_neq. intros E.
  apply N. eapply (sn_inj W R); done.
Qed.

Lemma wl_held_lt R dlv l j b : window_list R dlv l -> R <= j < R + 2 * W -> held l (sn_of j) b ->
  j < R + W /\ 0 <= b < zlen (D j).
Proof.
  intros H Hj (p & Hp & E & Hb). destruct (wl_piece W W_pos D R dlv l j p H Hp E Hj) as [? (_&?&?&?&_)]. lia.
Qed.

Lemma dlv_below busy e R H S dlv j : rx_base busy e R H S dlv -> (forall k, busy k -> k ∉ dlv) -> j ∈ dlv -> j < H.
Proof.
  intros B Hb Hj. destruct (Z.lt_ge_cases j R) as [|Hge]; [pose proof (rb_H _ _ _ _ _ _ B); lia|].
  pose proof (wl_dlv _ _ _ _ _ (rb_list _ _ _ _ _ _ B) j Hj).
  eapply (rb_below _ _ _ _ _ _ B j 0); [intros Hk; by eapply Hb|lia|].
  eapply wl_whole; [apply B|done|done|]. pose proof (HD j). lia.
Qed.

(** ** Completeness *)

Lemma sdu_full_held e R dlv i : window_list R dlv (rx_list e) -> R <= i < R + W -> i ∉ dlv ->
  sdu_full e (sn_of i) = true <-> forall b, 0 <= b < zlen (D i) -> held (rx_list e) (sn_of i) b.
Proof.
  intros H Hi Hn. destruct (wl_holds W W_pos D HD R dlv _ i H Hi Hn) as (pre & segs & rest & Hh & _ & Hc).
  unfold sdu_full. rewrite (Rx.sdu_full_covered _ _ _ _ _ _ Hh). by setoid_rewrite Hc.
Qed.

(** RX_Next_Highest after a segment of SDU [i]. *)
Lemma raise_highest e R H S dlv i : rx_base (eq i) e R H S dlv -> R <= i < R + W ->
  exists H', (if 0 <=? sn_compare_rx e (sn_of i) (rx_next_highest e)
              then e <| rx_next_highest := Z.rem (sn_of i + 1) (sn_modulus e) |> else e)
             = e <| rx_next_highest := sn_of H' |> /\
    H <= H' <= R + W /\ i < H' /\ rx_base (eq i) (e <| rx_next_highest := sn_of H' |>) R H' S dlv.
Proof.
  intros B Hi. pose proof (rb_H _ _ _ _ _ _ B). pose proof (rb_S _ _ _ _ _ _ B). destruct (rb_win _ _ _ _ _ _ B) as [HM _].
  rewrite (rb_highest _ _ _ _ _ _ B), (compare_rx_sn e R) by (done || apply B || lia).
  assert (Hup : forall H', H <= H' <= R + W -> i < H' -> rx_base (eq i) (e <| rx_next_highest := sn_of H' |>) R H' S dlv).
  { intros H' ? ?. destruct B. split; cbn; try done; try lia.
    intros j b Hj Hw Hh. pose proof (rb_below0 j b Hj Hw Hh). lia. }
  destruct (Z.leb_spec 0 (i - H)).
  - exists (i + 1). rewrite HM, sn_rem by (exact W_pos || lia). split_and!; try done; try lia. apply Hup; lia.
  - exists H. split_and!; try lia; [|apply Hup; lia]. rewrite <- (rb_highest _ _ _ _ _ _ B). by destruct e.
Qed.

(** The fields the delivery does not touch. *)
Definition same_timers (e e' : nr_rlc_entity_am_t) : Prop :=
  t_current e' = t_current e /\ t_reassembly_start e' = t_reassembly_start e /\
  rx_next_status_trigger e' = rx_next_status_trigger e.

(** The bytes of the SDUs that are not delivered stay. *)
Definition keeps_held (R R' : Z) (dlv' : list Z) (l l' : list nr_rlc_pdu_t) : Prop :=
  forall j b, R <= j < R + W -> held l (sn_of j) b -> j ∈ dlv' \/ (R' <= j /\ held l' (sn_of j) b).

Lemma keeps_held_refl R dlv l : keeps_held R R dlv l l.
Proof. intros j b Hj Hh. right. split; [lia|done]. Qed.

Lemma deliver_base e R H S dlv i e' R' S' :
  rx_base (eq i) e R H S dlv -> R <= i < R + W -> i < H -> R <= R' -> S <= S' ->
  sn_field_length e' = sn_field_length e -> sn_modulus e' = sn_modulus e -> window_size e' = window_size e ->
  rx_next e' = sn_of R' -> rx_next_highest e' = sn_of H -> rx_highest_status e' = sn_of S' ->
  window_list R' (dlv ++ [i]) (rx_list e') -> R' ∉ dlv ++ [i] -> S' ∉ dlv ++ [i] ->
  (forall j, S <= j < S' -> j ∈ dlv ++ [i]) -> rx_size e' = pending (rx_list e') ->
  (forall j b, R' <= j < R + 2 * W -> held (rx_list e') (sn_of j) b <-> held (rx_list e) (sn_of j) b) ->
  sdus_up (calls (common e')) = D <$> dlv ++ [i] ->
  rx_base (fun _ => False) e' R' H S' (dlv ++ [i]) /\ R' <= R + W /\
  keeps_held R R' (dlv ++ [i]) (rx_list e) (rx_list e').
Proof.
  intros B Hi HiH HR HS E1 E2 E3 EN EH ES Hw HnR HnS Hskip Hp Hh Hc.
  pose proof (rb_list _ _ _ _ _ _ B) as Hw0. pose proof (wl_dlv _ _ _ _ _ Hw0) as Hd0.
  assert (Hlt : forall j, j ∈ dlv ++ [i] -> j < H).
  { intros j Hj. apply elem_of_app in Hj as [Hj|Hj%list_elem_of_singleton]; [|lia].
    eapply dlv_below; [done| |done]. intros k <- Hk.
    pose proof (wl_nodup _ _ _ _ _ Hw) as Hu. apply NoDup_app in Hu as (_ & Hu & _). apply (Hu i Hk). set_solver. }
  pose proof (rb_H _ _ _ _ _ _ B). pose proof (rb_S _ _ _ _ _ _ B). pose proof (wl_pos _ _ _ _ _ Hw0).
  assert (HRW : R' <= R + W).
  { destruct (Z.le_gt_cases R' (R + W)) as [|Hgt]; [done|].
    assert (R + W ∈ dlv ++ [i]) as Hx%Hlt by (apply Hw; lia). lia. }
  assert (HRS : R' <= S').
  { destruct (Z.le_gt_cases R' S') as [|Hgt]; [done|]. destruct HnS. apply Hw. lia. }
  assert (HSH : S' <= H).
  { destruct (Z.le_gt_cases S' H) as [|Hgt]; [done|]. assert (H ∈ dlv ++ [i]) as Hx%Hlt by (apply Hskip; lia). lia. }
  assert (Hold : forall j b, R' <= j < R' + W -> held (rx_list e') (sn_of j) b ->
    R <= j < R + W /\ held (rx_list e) (sn_of j) b).
  { intros j b Hj Hx. apply Hh in Hx; [|lia]. split; [|done].
    pose proof (wl_held_lt _ _ _ j b Hw0 ltac:(lia) Hx). lia. }
  split_and!; [|done|].
  - split; try done; try (by rewrite ?E1, ?E2, ?E3; apply B); try lia.
    + intros j _ Hj Hx. apply elem_of_app. destruct (decide (i = j)) as [<-|N]; [right; set_solver|left].
      pose proof (HD j). destruct (Hold j 0 Hj (Hx 0 ltac:(lia))) as [Hj' _].
      apply (rb_all _ _ _ _ _ _ B); [done|done|]. intros b Hb. apply (Hold j b Hj); auto.
    + intros j b _ Hj Hx. destruct (Hold j b Hj Hx) as [Hj' Hx']. destruct (decide (i = j)) as [<-|N]; [done|].
      by eapply (rb_below _ _ _ _ _ _ B).
  - intros j b Hj Hx. destruct (Z.lt_ge_cases j R') as [Hlt'|Hge].
    + left. apply Hw. lia.
    + right. split; [done|]. apply Hh; [lia|done].
Qed.

(** RX_Highest_Status after the delivery of SDU [i]; [e'] is the entity after it. *)
Lemma raise_status e e' R H S dlv i : rx_base (eq i) e R H S dlv -> R <= i < R + W ->
  window_list R (dlv ++ [i]) (rx_list e') -> sn_modulus e' = sn_modulus e ->
  rx_highest_status e' = rx_highest_status e ->
  exists S', S <= S' /\ (S' ∉ dlv ++ [i]) /\ (forall j, S <= j < S' -> j ∈ dlv ++ [i]) /\
    (if sn_of i =? rx_highest_status e' then n ← first_not_delivered e' (rx_highest_status e');
       mret (e' <| rx_highest_status := n |>) else mret e') = Ok (e' <| rx_highest_status := sn_of S' |>).
Proof.
  intros B Hi Hw Em Es. pose proof (rb_S _ _ _ _ _ _ B). pose proof (rb_H _ _ _ _ _ _ B).
  destruct (rb_win _ _ _ _ _ _ B) as [HM _]. pose proof (rb_status _ _ _ _ _ _ B) as ES. rewrite <- Es in ES.
  rewrite ES, (eqb_sn R) by lia. destruct (Z.eqb_spec i S) as [<-|N].
  - unfold first_not_delivered. rewrite Em, HM.
    destruct (skip_spec W W_pos D HD e' R (dlv ++ [i]) ltac:(congruence) Hw (Z.to_nat (2 * W)) i) as (k & -> & Hk & Hnk & Ha);
      [lia|lia|]. exists k. split_and!; try done; lia.
  - exists S. split_and!; try done; try lia.
    + rewrite elem_of_app, list_elem_of_singleton. intros [Hx|Hx]; [by destruct (rb_Sn _ _ _ _ _ _ B)|done].
    + rewrite <- ES. by destruct e'.
Qed.

Lemma update_window_ok e R H S dlv i : rx_base (eq i) e R H S dlv -> R <= i < R + W -> i ∉ dlv ->
  exists e' R' H' S' dlv', update_window e (sn_of i) = Ok e' /\
    rx_base (fun _ => False) e' R' H' S' dlv' /\ same_timers e e' /\
    R <= R' <= R + W /\ H <= H' /\ S <= S' /\ dlv `prefix_of` dlv' /\ keeps_held R R' dlv' (rx_list e) (rx_list e').
Proof.
  intros B0 Hi Hn. unfold update_window. destruct (raise_highest _ _ _ _ _ _ B0 Hi) as (H' & -> & HH & HiH & B).
  set (e1 := e <| rx_next_highest := _ |>) in *. change (rx_list e) with (rx_list e1).
  assert (Hsame : forall e', same_timers e1 e' -> same_timers e e') by done. clearbody e1. clear B0.
  pose proof (rb_list _ _ _ _ _ _ B) as Hw. destruct (rb_win _ _ _ _ _ _ B) as [HM _].
  destruct (sdu_full e1 (sn_of i)) eqn:Ef.
  2: { exists e1, R, H', S, dlv. split; [done|]. split; [|split_and!; try done; try lia; [by apply Hsame|apply keeps_held_refl]].
       destruct B. split; try done.
       - intros j _ Hj Hh. destruct (decide (i = j)) as [<-|N]; [|by apply rb_all0].
         apply not_true_iff_false in Ef. contradict Ef. by apply (sdu_full_held e1 R dlv).
       - intros j b _ Hj Hh. destruct (decide (i = j)) as [<-|N]; [done|]. by eapply rb_below0. }
  rewrite (sdu_full_held e1 R dlv) in Ef by done. unfold reassemble_and_deliver.
  destruct (wl_deliver W W_pos D HD R dlv _ i (rx_size e1) Hw Hi Hn Ef) as (l1 & rx1 & -> & Hw1 & Hh1 & Hp1). mon.
  set (e2 := stat _ _).
  assert (HnR2 : i <> R -> R ∉ dlv ++ [i]).
  { intros N. rewrite elem_of_app, list_elem_of_singleton. intros [Hx|Hx]; [by destruct (rb_head _ _ _ _ _ _ B)|done]. }
  assert (Hc2 : sdus_up (calls (common e2)) = D <$> dlv ++ [i]).
  { cbn. rewrite sdus_up_app, (rb_calls _ _ _ _ _ _ B), fmap_app. done. }
  assert (Hp2 : rx1 = pending l1) by (rewrite (rb_size _ _ _ _ _ _ B) in Hp1; lia).
  destruct (raise_status e1 e2 R H' S dlv i) as (S' & HS & HnS & Hskip & ->); [done|done|done|done|done|]. mon.
  change (rx_next (_ <| rx_highest_status := _ |>)) with (rx_next e1). rewrite (rb_next _ _ _ _ _ _ B), (eqb_sn R) by lia.
  destruct (Z.eqb_spec i R) as [EiR|N]; cycle 1.
  - destruct (deliver_base e1 R H' S dlv i (e2 <| rx_highest_status := sn_of S' |>) R S') as (B' & ? & K);
      try done; try lia; try apply B; [by apply HnR2|].
    eexists _, R, H', S', (dlv ++ [i]). split; [done|]. split; [done|].
    split_and!; try done; try lia; [by apply Hsame|by apply prefix_app_r].
  - destruct (wl_free W W_pos D HD (dlv ++ [i]) (length l1) R l1 Hw1 ltac:(lia)) as (R' & l2 & E & Hw2 & HR & HnR & Hp & Hh).
    change (rx_list (e2 <| rx_highest_status := _ |>)) with l1.
    change (sn_modulus (e2 <| rx_highest_status := _ |>)) with (sn_modulus e1). rewrite HM, E.
    destruct (deliver_base e1 R H' S dlv i
      (e2 <| rx_highest_status := sn_of S' |> <| rx_list := l2 |> <| rx_next := sn_of R' |>) R' S') as (B' & ? & K);
      try done; try lia; try apply B; [change (rx1 = pending l2); lia|intros; cbn; rewrite Hh, Hh1 by lia; done|].
    eexists _, R', H', S', (dlv ++ [i]). split; [done|]. split; [done|].
    split_and!; try done; try lia; [by apply Hsame|by apply prefix_app_r].
Qed.

(** ** t-Reassembly *)

(** The timer is stopped when its trigger is no longer ahead, and started for a gap. *)
Lemma update_t_reassembly_ok e R0 R H S dlv : rx_base (fun _ => False) e R H S dlv -> t_current e <> 0 ->
  timer_ok e R0 H -> R0 <= R <= R0 + W -> rx_inv (update_t_reassembly e) R H S dlv.
Proof.
  intros B Hc Ht HR. pose proof (rb_H _ _ _ _ _ _ B) as HH. destruct (rb_win _ _ _ _ _ _ B) as [HM HWe].
  pose proof (rb_next _ _ _ _ _ _ B) as EN. unfold update_t_reassembly.
  rewrite EN, HM, HWe, !sn_rem by (exact W_pos || lia).
  set (stop := (if negb (t_reassembly_start e =? 0) then _ else _)).
  assert (Hs : exists t, stop = e <| t_reassembly_start := t |> /\ timer_ok (e <| t_reassembly_start := t |>) R H).
  { unfold stop. case_if; bool_prop; cycle 1.
    { exists 0. split; [|by intros []]. rewrite <- E. by destruct e. }
    destruct (Ht E) as (T & ET & HT).
    match goal with |- exists t, (if ?c then _ else _) = _ /\ _ => destruct c eqn:Ec end.
    { exists 0. split; [done|by intros []]. }
    exists (t_reassembly_start e). split; [clear -e; by destruct e|]. intros _. exists T. split; [done|].
    split; [|lia]. bool_prop. destruct (Z.lt_trichotomy T R) as [Hlt|[Heq|?]]; [exfalso|exfalso; subst; congruence|done].
    assert (EqT : sn_of T = sn_of (T + 2 * W)).
    { unfold RlcAmWindow.sn_of. rewrite <- (Z.mod_add T 1) by lia. f_equal. lia. }
    rewrite ET, EqT in *. unfold sn_in_recv_window in *. rewrite (modulus_rx_sn e R) in * by (done || lia).
    rewrite (eqb_sn R) in * by lia. rewrite HWe in *.
    repeat match goal with Hx : _ \/ _ |- _ => destruct Hx end; bool_prop; lia. }
  destruct Hs as (t & -> & Ht'). set (e1 := e <| t_reassembly_start := t |>) in *.
  assert (B1 : rx_base (fun _ => False) e1 R H S dlv) by (destruct B; by split). 
  assert (Ec : t_current e1 <> 0) by done. clearbody e1.
  assert (Htest : (sn_compare_rx e1 (rx_next_highest e1) (sn_of (R + 1)) >? 0)
       || ((rx_next_highest e1 =? sn_of (R + 1)) && sdu_has_missing_bytes e1 (sn_of R)) = true <-> gap e1 R H).
  { rewrite (rb_highest _ _ _ _ _ _ B1), (compare_rx_sn e1 R), (eqb_sn R) by (lia || apply B1).
    unfold gap. rewrite orb_true_iff, andb_true_iff, Z.gtb_gt, Z.eqb_eq. split; intros [?|[? ?]]; (by right) || (left; lia). }
  destruct (Z.eqb_spec (t_reassembly_start e1) 0) as [E0|N0]; [|split; try done; by left].
  rewrite (rb_next _ _ _ _ _ _ B1).
  destruct (_ || _) eqn:Et.
  - split; cbn.
    + destruct B1; by split.
    + done.
    + intros _. exists H. cbn. split; [apply B1|]. destruct (proj1 Htest eq_refl); lia.
    + by left.
  - split; try done. intros Hg. by apply Htest in Hg.
Qed.

(** Expiry: RX_Highest_Status moves past what was delivered since the timer was started, and a
    status report is triggered. *)
Lemma check_t_reassembly_ok e R H S dlv : rx_inv e R H S dlv ->
  exists e' S', check_t_reassembly e = Ok e' /\ rx_inv e' R H S' dlv /\ S' <= H /\ rx_list e' = rx_list e /\
    rx_maxsize e' = rx_maxsize e /\
    (t_reassembly_start e <> 0 -> t_current e > u64 (t_reassembly_start e + t_reassembly e) ->
     R < S' /\ status_triggered e' = true).
Proof.
  intros [B Hc Ht Hg]. pose proof (rb_H _ _ _ _ _ _ B) as HH. destruct (rb_win _ _ _ _ _ _ B) as [HM HWe].
  unfold check_t_reassembly. case_if; bool_prop.
  { exists e, S. pose proof (rb_S _ _ _ _ _ _ B). split_and!; try done; try lia. }
  destruct (Ht H0) as (T & ET & HT). cbn [first_not_delivered].
  set (e1 := e <| t_reassembly_start := 0 |>).
  destruct (skip_spec W W_pos D HD e1 R dlv HM (rb_list _ _ _ _ _ _ B) (Z.to_nat (2 * W)) T) as (k & Ek & Hk & Hnk & Ha); [lia|lia|].
  unfold first_not_delivered. change (sn_modulus e1) with (sn_modulus e).
  change (rx_next_status_trigger e1) with (rx_next_status_trigger e). rewrite HM, ET, Ek. mon.
  assert (HkH : k <= H).
  { destruct (Z.le_gt_cases k H) as [|Hgt]; [done|]. assert (H ∈ dlv) as Hx by (apply Ha; lia).
    pose proof (dlv_below _ _ _ _ _ _ H B ltac:(done) Hx). lia. }
  set (e2 := e1 <| rx_highest_status := sn_of k |> <| status_triggered := true |>).
  assert (B2 : rx_base (fun _ => False) e2 R H k dlv) by (destruct B; split; try done; lia).
  change (rx_highest_status e2) with (sn_of k). change (rx_next_highest e2) with (rx_next_highest e).
  change (sn_modulus e2) with (sn_modulus e). rewrite HM, sn_rem by (exact W_pos || lia).
  rewrite (rb_highest _ _ _ _ _ _ B), (compare_rx_sn e2 R), (eqb_sn R) by (lia || apply B2).
  destruct (_ || _) eqn:Et.
  - eexists _, k. split; [done|]. split; [|split_and!; try done; intros; split; [lia|done]]. split; [by destruct B2; split|done| |by left].
    intros _. exists H. split; [done|]. bool_prop. destruct Et; bool_prop; lia.
  - eexists _, k. split; [done|]. split; [|split_and!; try done; intros; split; [lia|done]]. split; [done|done|by intros []|right; lia].
Qed.

Lemma status_ahead busy e R H S dlv : rx_base busy e R H S dlv -> R < S -> rx_highest_status e <> rx_next e.
Proof.
  intros B HS. pose proof (rb_H _ _ _ _ _ _ B). pose proof (rb_S _ _ _ _ _ _ B).
  rewrite (rb_status _ _ _ _ _ _ B), (rb_next _ _ _ _ _ _ B). intros E. apply (sn_inj W R) in E; lia.
Qed.

(** A gap as the list shows it. *)
Lemma gap_in_list e R H S dlv : rx_base (fun _ => False) e R H S dlv ->
  (exists p, p ∈ rx_list e /\ pdu_sn p <> rx_next e) \/ sdu_has_missing_bytes e (rx_next e) = true -> gap e R H.
Proof.
  intros B. pose proof (rb_list _ _ _ _ _ _ B) as Hw. rewrite (rb_next _ _ _ _ _ _ B).
  assert (Hin : forall p i, p ∈ rx_list e -> R <= i < R + W -> piece W D (bool_decide (i ∈ dlv)) i p -> i < H).
  { intros p i Hp Hi (E & ? & ? & _). eapply (rb_below _ _ _ _ _ _ B i (pdu_so p)); [by intros []|done|].
    exists p. split_and!; try done; lia. }
  intros [(p & Hp & N)|Hm].
  - destruct (wl_at _ _ _ _ _ Hw p Hp) as (i & Hi & P). pose proof (Hin p i Hp Hi P). left.
    assert (i <> R) by (intros ->; by destruct P). lia.
  - destruct (wl_holds W W_pos D HD R dlv _ R Hw ltac:(lia) (rb_head _ _ _ _ _ _ B)) as (pre & segs & rest & Hh & HP & _).
    pose proof Hm as Hm'. apply (Rx.sdu_has_missing_gap _ _ _ _ _ _ Hh) in Hm' as (b & q & Hq & _).
    assert (Hql : q ∈ rx_list e) by (rewrite (Rx.h_split _ _ _ _ _ _ Hh); set_solver).
    rewrite Forall_forall in HP. pose proof (HP q Hq) as Pq. rewrite <- (bool_decide_false (R ∈ dlv)) in Pq by apply B.
    pose proof (Hin q R Hql ltac:(lia) Pq). unfold gap. destruct (decide (H = R + 1)); [by right|left; lia].
Qed.

(** ** Reception of a data PDU *)

(** The part [so, so + zlen data) of SDU [i]. *)
Definition segment (i so : Z) (is_first is_last : bool) (data : bytes) : Prop :=
  0 <= so /\ 0 < zlen data /\ so + zlen data <= zlen (D i) /\ is_first = (so =? 0) /\
  (is_last = true <-> so + zlen data = zlen (D i)) /\ data = take (Z.to_nat (zlen data)) (drop (Z.to_nat so) (D i)).

Lemma rx_inv_frame e e' R H S dlv : rx_inv e R H S dlv ->
  sn_field_length e' = sn_field_length e -> sn_modulus e' = sn_modulus e -> window_size e' = window_size e ->
  rx_next e' = rx_next e -> rx_list e' = rx_list e -> rx_size e' = rx_size e ->
  rx_next_highest e' = rx_next_highest e -> rx_highest_status e' = rx_highest_status e ->
  rx_next_status_trigger e' = rx_next_status_trigger e -> t_reassembly_start e' = t_reassembly_start e ->
  t_current e' <> 0 -> sdus_up (calls (common e')) = sdus_up (calls (common e)) -> rx_inv e' R H S dlv.
Proof.
  intros [B Hc Ht Hg] E1 E2 E3 E4 E5 E6 E7 E8 E9 E10 E11 E12. split.
  - destruct B. split; rewrite ?E1, ?E2, ?E3, ?E4, ?E5, ?E6, ?E7, ?E8, ?E12; done.
  - done.
  - unfold timer_ok. by rewrite E9, E10.
  - unfold gap, sdu_has_missing_bytes. rewrite E5, E10. exact Hg.
Qed.

Lemma discard_pdu_inv e p size R H S dlv : rx_inv e R H S dlv -> rx_inv (discard_pdu e p size) R H S dlv.
Proof. intros B. eapply rx_inv_frame; [exact B|..]; unfold discard_pdu; destruct p; try done; apply B. Qed.

Lemma stat_inv f e R H S dlv : rx_inv e R H S dlv -> rx_inv (stat f e) R H S dlv.
Proof. intros B. eapply rx_inv_frame; [exact B|..]; try done; apply B. Qed.

(** A new segment of SDU [i] is in the list. *)
Lemma add_segment_ok e R H S dlv i so f l data : rx_inv e R H S dlv -> R <= i < R + W -> i ∉ dlv ->
  segment i so f l data ->
  let pdu := mk_pdu (sn_of i) (Some data) (zlen data) so f l in
  let e' := e <| rx_size ::= Z.add (zlen data) |>
              <| rx_list := nr_rlc_pdu_list_add (sn_compare_rx e) (rx_list e) pdu |> in
  rx_base (eq i) e' R H S dlv /\ timer_ok e' R H /\ t_current e' <> 0 /\
  (forall b, so <= b < so + zlen data -> held (rx_list e') (sn_of i) b) /\
  (forall sn b, held (rx_list e) sn b -> held (rx_list e') sn b).
Proof.
  intros [B Hc Ht Hg] Hi Hn (H1 & H2 & H3 & H4 & H5 & H6) pdu e'. destruct (rb_win _ _ _ _ _ _ B) as [HM _].
  destruct (wl_add W W_pos D HD (sn_compare_rx e) R dlv (rx_list e) i pdu) as [Hw Hp]; try done.
  { apply B. }
  { by split_and!; cbn; rewrite <- ?H6. }
  { intros j k Hj Hk. apply (compare_rx_sn e R); try lia; done || apply B. }
  fold (rx_list e') in Hw, Hp. change (nr_rlc_pdu_list_add _ _ _) with (rx_list e') in Hw, Hp.
  split_and!; [|done|done|..].
  - assert (Hold : forall j b, i <> j -> R <= j < R + W -> held (rx_list e') (sn_of j) b -> held (rx_list e) (sn_of j) b).
    { intros j b N Hj. rewrite Hp, held_cons. intros [[E _]|]; [|done]. cbn in E.
      apply (sn_inj W R) in E; [done|lia|lia]. }
    destruct B. split; try done.
    + rewrite Hp. change (rx_size e') with (zlen data + rx_size e). rewrite rb_size0. done.
    + intros j Nj Hj Hh. apply rb_all0; auto.
    + intros j b Nj Hj Hh. eapply rb_below0; [auto|done|]. by eapply Hold.
  - intros b Hb. rewrite Hp, held_cons. left. cbn. split; [done|lia].
  - intros sn b Hh. rewrite Hp, held_cons. by right.
Qed.

(** What reception guarantees of the segment [so, so + n) of SDU [i]. *)
Definition stored (i so n R : Z) (dlv : list Z) (l : list nr_rlc_pdu_t) : Prop :=
  i ∈ dlv \/ (R <= i < R + W /\ forall b, so <= b < so + n -> held l (sn_of i) b).

Lemma reception_actions_ok e R H S dlv i pdu : rx_base (eq i) e R H S dlv -> timer_ok e R H -> t_current e <> 0 ->
  R <= i < R + W -> i ∉ dlv -> pdu_sn pdu = sn_of i ->
  exists e' R' H' S' dlv', reception_actions e pdu = Ok e' /\ rx_inv e' R' H' S' dlv' /\
    R <= R' <= R + W /\ dlv `prefix_of` dlv' /\ keeps_held R R' dlv' (rx_list e) (rx_list e').
Proof.
  intros B Ht Hc Hi Hn Ep. unfold reception_actions. rewrite Ep.
  destruct (update_window_ok e R H S dlv i B Hi Hn) as
    (e1 & R' & H' & S' & dlv' & -> & B1 & (T1 & T2 & T3) & HR & HH & HS & Hpre & Hk). mon.
  eexists _, R', H', S', dlv'. split; [done|]. split.
  - apply (update_t_reassembly_ok _ R); [done|congruence| |done]. unfold timer_ok. rewrite T2, T3.
    intros N. destruct (Ht N) as (T & ET & HT). exists T. split; [done|lia].
  - split_and!; try done; try lia. revert Hk. by unfold update_t_reassembly; repeat case_if.
Qed.

Lemma recv_segment_ok e R H S dlv i so f l data p pdu hdr : rx_inv e R H S dlv -> segment i so f l data ->
  0 <= i -> R - W <= i < R + W -> pdu = hdr ++ data ->
  exists e' R' H' S' dlv', recv_segment e pdu (zlen pdu) p (sn_of i) so f l (zlen hdr) = Ok e' /\
    rx_inv e' R' H' S' dlv' /\ R <= R' <= R + W /\ dlv `prefix_of` dlv' /\
    keeps_held R R' dlv' (rx_list e) (rx_list e') /\
    (rx_size e + zlen data <= rx_maxsize e -> stored i so (zlen data) R' dlv' (rx_list e')).
Proof.
  intros I Hseg Hi0 Hi ->. pose proof I as [B Hc Ht Hg]. destruct (rb_win _ _ _ _ _ _ B) as [HM HWe].
  pose proof Hseg as (H1 & H2 & H3 & _). unfold recv_segment.
  replace (zlen (hdr ++ data) - zlen hdr) with (zlen data) by (rewrite zlen_app; lia).
  rewrite (proj2 (Z.leb_gt _ _)) by lia.
  assert (Hout : forall q, (rx_size e + zlen data <= rx_maxsize e -> stored i so (zlen data) R dlv (rx_list e)) ->
    rx_inv q R H S dlv -> rx_list q = rx_list e -> exists e' R' H' S' dlv',
    mret (discard_pdu q p (zlen (hdr ++ data))) = Ok e' /\
    rx_inv e' R' H' S' dlv' /\ R <= R' <= R + W /\ dlv `prefix_of` dlv' /\
    keeps_held R R' dlv' (rx_list e) (rx_list e') /\
    (rx_size e + zlen data <= rx_maxsize e -> stored i so (zlen data) R' dlv' (rx_list e'))).
  { intros q Hs Iq El. eexists _, R, H, S, dlv. split; [done|].
    assert (El' : rx_list (discard_pdu q p (zlen (hdr ++ data))) = rx_list e) by (rewrite <- El; by destruct p).
    rewrite El'. split; [by apply discard_pdu_inv|]. split_and!; try done; try lia. apply keeps_held_refl. }
  case_if; bool_prop; [apply Hout; [lia|done|done]|].
  unfold sn_in_recv_window. rewrite HWe. destruct (Z.lt_ge_cases i R) as [Hlt|Hge].
  - assert (EqT : sn_of i = sn_of (i + 2 * W)).
    { unfold RlcAmWindow.sn_of. rewrite <- (Z.mod_add i 1) by lia. f_equal. lia. }
    rewrite EqT, (modulus_rx_sn e R) by (lia || done || apply B).
    rewrite (proj2 (Z.ltb_ge _ _)) by lia. apply Hout; [|by apply stat_inv|done].
    intros _. left. apply (rb_list _ _ _ _ _ _ B). lia.
  - rewrite (modulus_rx_sn e R), (proj2 (Z.ltb_lt _ _)) by (lia || done || apply B). cbn [negb].
    destruct (segment_already_received e (sn_of i) so (zlen data)) eqn:Ed.
    { apply Hout; [|by apply stat_inv|done]. intros _. right. split; [lia|]. intros b Hb.
      by eapply already_received_held. }
    assert (Hn : i ∉ dlv).
    { intros Hd. apply not_true_iff_false in Ed. apply Ed. eapply already_received_complete; [apply B|].
      intros b Hb. eapply wl_whole; [apply B|done|lia|lia]. }
    replace (zlen (hdr ++ data) - zlen data) with (zlen hdr) by (rewrite zlen_app; lia).
    rewrite slice_app_r. mon. unfold nr_rlc_new_pdu. rewrite slice_all. mon.
    destruct (add_segment_ok e R H S dlv i so f l data I ltac:(lia) Hn Hseg) as (B1 & T1 & C1 & Hnew & Hold).
    set (e1 := e <| rx_size ::= _ |> <| rx_list := _ |>) in *. 
    change (e <| rx_size ::= _ |> <| rx_list := _ |>) with e1.
    destruct (reception_actions_ok e1 R H S dlv i (mk_pdu (sn_of i) (Some data) (zlen data) so f l) B1 T1 C1)
      as (e2 & R' & H' & S' & dlv' & -> & I2 & HR & Hpre & Hk); [lia|done|done|]. mon.
    eexists _, R', H', S', dlv'. split; [done|].
    assert (El : rx_list (if p then e2 <| status_triggered := true |> else e2) = rx_list e2) by (by destruct p).
    rewrite El. split_and!; try done; try lia.
    + destruct p; [|done]. eapply rx_inv_frame; [exact I2|..]; try done. apply I2.
    + intros j b Hj Hh. apply Hk; [done|]. by apply Hold.
    + intros _. destruct (decide (i ∈ dlv')) as [Hd|Hd]; [by left|]. right.
      destruct (Hk i so ltac:(lia) (Hnew so ltac:(lia))) as [|[? _]]; [done|]. split; [lia|].
      intros b Hb. by destruct (Hk i b ltac:(lia) (Hnew b Hb)) as [|[_ ?]].
Qed.

Lemma recv_data_ok e R H S dlv i so f l data p pdu : rx_inv e R H S dlv -> segment i so f l data ->
  0 <= i -> R - W <= i < R + W -> am_pdu (sn_field_length e) p (sn_of i) so f l data pdu ->
  exists e' R' H' S' dlv', nr_rlc_entity_am_recv_pdu e pdu (zlen pdu) = Ok e' /\
    rx_inv e' R' H' S' dlv' /\ R <= R' <= R + W /\ dlv `prefix_of` dlv' /\
    keeps_held R R' dlv' (rx_list e) (rx_list e') /\
    (rx_size e + zlen data <= rx_maxsize e -> stored i so (zlen data) R' dlv' (rx_list e')).
Proof.
  intros I Hseg Hi0 Hi Hp. pose proof (ri_base _ _ _ _ _ I) as B. destruct (rb_win _ _ _ _ _ _ B) as [HM _].
  pose proof (rb_mod _ _ _ _ _ _ B) as HP. pose proof Hseg as (H1 & H2 & H3 & H4 & _). pose proof (HD i).
  rewrite (recv_am_ok e pdu p (sn_of i) so f l data); try done.
  - destruct Hp as (hdr & E & Hz & _). rewrite <- Hz.
    replace (if f then 0 else so) with so by (rewrite H4; destruct (Z.eqb_spec so 0); lia).
    eapply (recv_segment_ok (stat _ e) R H S dlv i so f l data p pdu hdr); try done. by apply stat_inv.
  - apply B.
  - rewrite <- HP, HM. apply sn_bound, W_pos.
  - unfold NR_SDU_MAX in *. lia.
  - rewrite H4. intros E. bool_prop. done.
Qed.

End Receiver.
