(* ===== verification/RlcAmFrame.v ===== *)
(** * What the sending side of an AM entity leaves alone

    Transmission, retransmission, status reports and the processing of STATUS
    PDUs keep the receiving side: its window, its list, its timer and the SDUs
    it has delivered. *)

From S2P Require Import Prelude RlcPdu RlcSdu TimeStat RlcEntity RlcRx RlcAm.
From S2P Require Import RlcAmControl RlcAmStatus RlcAmEntity RlcAmReport RlcAmData RlcAmWindow RlcAmRecv.

Import Am AmControl AmStatus AmEntity.

(** The receiving side of an entity. *)
Record rx_same (e e' : nr_rlc_entity_am_t) : Prop := mk_rx_same {
  rs_field : sn_field_length e' = sn_field_length e;
  rs_modulus : sn_modulus e' = sn_modulus e;
  rs_window : window_size e' = window_size e;
  rs_rx_next : rx_next e' = rx_next e;
  rs_rx_list : rx_list e' = rx_list e;
  rs_rx_size : rx_size e' = rx_size e;
  rs_rx_maxsize : rx_maxsize e' = rx_maxsize e;
  rs_rx_highest : rx_next_highest e' = rx_next_highest e;
  rs_rx_status : rx_highest_status e' = rx_highest_status e;
  rs_rx_trigger : rx_next_status_trigger e' = rx_next_status_trigger e;
  rs_start : t_reassembly_start e' = t_reassembly_start e;
  rs_duration : t_reassembly e' = t_reassembly e;
  rs_current : t_current e' = t_current e;
  rs_up : sdus_up (calls (common e')) = sdus_up (calls (common e)) }.

#[export] Instance rx_same_refl : Reflexive rx_same.
Proof. by split. Qed.

#[export] Instance rx_same_trans : Transitive rx_same.
Proof. intros e1 e2 e3 [] []. split; congruence. Qed.

(** [frame]: take the run apart and compose the frame properties of its calls. *)
Ltac same := split; cbn; rewrite ?sdus_up_app, ?sdus_up_ack, ?sdus_up_max, ?app_nil_r; done.
Ltac frame_cases := repeat (inv_res; try match goal with
  | H : (if ?b then _ else _) = Ok _ |- _ => destruct b
  | H : (if ?b then _ else _) = (_, _) |- _ => destruct b
  | H : match ?x with _ => _ end = Ok _ |- _ => destruct x eqn:?
  end).

Lemma free_acked_same e s e' : free_acked e s = Ok e' -> rx_same e e'.
Proof. unfold free_acked. intros H. frame_cases; same. Qed.

Lemma include_poll_same e b e' b' : include_poll e b = Ok (e', b') -> rx_same e e'.
Proof. unfold include_poll. intros H. inv_res. same. Qed.

Lemma serialize_same e s b size p r b' e' : serialize_sdu e s b size p = Ok (r, b', e') -> rx_same e e'.
Proof.
  unfold serialize_sdu. intros H. destruct p; inv_res; [by eapply include_poll_same|done].
Qed.

Lemma resegment_same s e size s1 s2 e' : resegment s e size = Ok (s1, s2, e') -> rx_same e e'.
Proof. unfold resegment. intros H. frame_cases. same. Qed.

Lemma put_in_wait_list_same e s e' : put_in_wait_list e s = Ok e' -> rx_same e e'.
Proof. unfold put_in_wait_list. intros H. frame_cases; same. Qed.

(** The calls known to keep the receiving side. *)
Ltac frame_calls := repeat match goal with
  | H : free_acked _ _ = Ok _ |- _ => apply free_acked_same in H
  | H : resegment _ _ _ = Ok _ |- _ => apply resegment_same in H
  | H : put_in_wait_list _ _ = Ok _ |- _ => apply put_in_wait_list_same in H
  | H : serialize_sdu _ _ _ _ _ = Ok _ |- _ => apply serialize_same in H
  end.
Ltac frame := frame_cases; frame_calls;
  repeat match goal with
  | H : rx_same ?a _ |- _ => match a with context [match ?x with _ => _ end] => destruct x end
  | |- rx_same _ ?a => match a with context [match ?x with _ => _ end] => destruct x end
  end;
  repeat match goal with H : rx_same _ _ |- _ => destruct H; cbn in * end;
  split; cbn in *; rewrite ?sdus_up_app, ?sdus_up_ack, ?sdus_up_max, ?app_nil_r; congruence.

Lemma retx_segment_same e s b size r b' e' : retx_segment e s b size = Ok (r, b', e') -> rx_same e e'.
Proof. unfold retx_segment, apply_force_poll. intros H. frame. Qed.

Lemma generate_retx_same e b size r b' e' : generate_retx_pdu e b size = Ok (r, b', e') -> rx_same e e'.
Proof.
  unfold generate_retx_pdu. intros H. frame_cases; try done;
    match goal with H : retx_segment _ _ _ _ = Ok _ |- _ => apply retx_segment_same in H end; frame.
Qed.

Lemma time_average_tx_same c d now c' : time_average_tx c d now = Ok c' -> calls c' = calls c.
Proof. unfold time_average_tx. intros H. frame_cases; done. Qed.

Lemma tx_segment_same e s b size now r b' e' : tx_segment e s b size now = Ok (r, b', e') -> rx_same e e'.
Proof.
  unfold tx_segment, apply_force_poll. intros H. frame_cases;
  match goal with H : time_average_tx _ _ _ = Ok _ |- _ => apply time_average_tx_same in H end; frame.
Qed.

Lemma generate_tx_same e b size now r b' e' : generate_tx_pdu e b size now = Ok (r, b', e') -> rx_same e e'.
Proof.
  unfold generate_tx_pdu. intros H. frame_cases; try done;
    match goal with H : tx_segment _ _ _ _ _ = Ok _ |- _ => apply tx_segment_same in H end; frame.
Qed.

Lemma generate_status_same e b size r b' e' : generate_status e b size = Ok (r, b', e') -> rx_same e e'.
Proof. unfold generate_status. intros H. frame. Qed.

Lemma generate_pdu_same e b size now r b' e' :
  nr_rlc_entity_am_generate_pdu e b size now = Ok (r, b', e') -> rx_same e e'.
Proof.
  unfold nr_rlc_entity_am_generate_pdu. intros H. apply bind_ok in H as ([[r1 b1] e1] & H1 & H).
  assert (S1 : rx_same e e1).
  { destruct (status_to_report e); [by eapply generate_status_same|]. by inv_res. }
  etransitivity; [exact S1|]. case_if; inv_res; [done|].
  match goal with H : match _ with _ => _ end = Ok _ |- _ => rename H into H2 end.
  etransitivity; [instantiate (1 := n)|]. 
  - destruct (retransmit_list e1); [by inv_res|]. by eapply generate_retx_same.
  - case_if; inv_res; [done|]. by eapply generate_tx_same.
Qed.

Lemma recv_sdu_same e b size id now e' : nr_rlc_entity_am_recv_sdu e b size id now = Ok e' -> rx_same e e'.
Proof. unfold nr_rlc_entity_am_recv_sdu. intros H. frame. Qed.

Lemma discard_sdu_same e id e' : nr_rlc_entity_am_discard_sdu e id = Ok e' -> rx_same e e'.
Proof. unfold nr_rlc_entity_am_discard_sdu. intros H. frame. Qed.

Lemma retransmit_loop_same sn first cur : forall e e', retransmit_sn_loop sn first cur e = Ok e' -> rx_same e e'.
Proof.
  revert first. induction cur as [|s cur IH]; intros first e e' H; cbn in H; [by inv_res|].
  frame_cases; try done; match goal with H : retransmit_sn_loop _ _ _ _ = Ok _ |- _ => apply IH in H end; frame.
Qed.

Lemma check_t_poll_same e e' : check_t_poll_retransmit e = Ok e' -> rx_same e e'.
Proof.
  unfold check_t_poll_retransmit. intros H. frame_cases; try done; try same;
    match goal with H : retransmit_sn_loop _ _ _ _ = Ok _ |- _ => apply retransmit_loop_same in H end; frame.
Qed.

Lemma set_time_poll_same e now e' : nr_rlc_entity_am_set_time e now = Ok e' ->
  exists e1, rx_same (e <| t_current := now |>) e1 /\ check_t_reassembly e1 = Ok e'.
Proof. unfold nr_rlc_entity_am_set_time. intros H. inv_res. apply check_t_poll_same in H. eauto. Qed.

(** ** STATUS PDUs *)

Definition goto_ent (g : goto) : nr_rlc_entity_am_t :=
  match g with ProcessNextPdu c | DoneNack c | ListsOver c => c_ent c end.

Lemma wait_list_head_same ack sn so1 so2 s l c g :
  process_wait_list_head ack sn so1 so2 s l c = Ok g -> rx_same (c_ent c) (goto_ent g).
Proof.
  unfold process_wait_list_head, note_end. intros H. frame_cases; cbn; try done; frame.
Qed.

Lemma retransmit_list_head_same ack sn so1 so2 s l c g :
  process_retransmit_list_head ack sn so1 so2 s l c = Ok g -> rx_same (c_ent c) (goto_ent g).
Proof.
  unfold process_retransmit_list_head. intros H. frame_cases; cbn; try done; frame.
Qed.

Lemma one_nack_same fuel ack sn so1 so2 : forall c c' over,
  process_one_nack fuel ack sn so1 so2 c = Ok (c', over) -> rx_same (c_ent c) (c_ent c').
Proof.
  induction fuel as [|fuel IH]; intros c c' over H; cbn [process_one_nack] in H; [done|].
  apply bind_ok in H as (g & Hg & H).
  assert (S1 : rx_same (c_ent c) (goto_ent g)).
  { clear H. unfold process_next_pdu in Hg. frame_cases; try done;
      first [by eapply wait_list_head_same|by eapply retransmit_list_head_same]. }
  etransitivity; [exact S1|]. destruct g; inv_res; try done. by eapply IH.
Qed.

Lemma range_same ack n count : forall i c c', process_range ack n count i c = Ok c' -> rx_same (c_ent c) (c_ent c').
Proof.
  induction count as [|count IH]; intros i c c' H; cbn [process_range] in H; [by inv_res|].
  inv_res. etransitivity; [by eapply one_nack_same|]. destruct b; inv_res; [done|]. by eapply IH.
Qed.

Lemma nacks_same fuel ack : forall e1 d c c', process_nacks fuel ack e1 d c = Ok c' -> rx_same (c_ent c) (c_ent c').
Proof.
  induction fuel as [|fuel IH]; intros e1 d c c' H; cbn [process_nacks] in H; case_if; inv_res; try done.
  etransitivity; [by eapply range_same|]. etransitivity; [|by eapply IH]. cbn. unfold nack_poll_sn. case_if; same.
Qed.

Lemma ack_wait_same ack l : forall c c', ack_wait_list ack l c = Ok c' -> rx_same (c_ent c) (c_ent c').
Proof.
  induction l as [|s l IH]; intros c c' H; cbn in H; [by inv_res|]. frame_cases; try done.
  apply IH in H1. unfold note_end in *. frame.
Qed.

Lemma ack_retransmit_same ack l : forall c c', ack_retransmit_list ack l c = Ok c' -> rx_same (c_ent c) (c_ent c').
Proof.
  induction l as [|s l IH]; intros c c' H; cbn in H; [by inv_res|]. frame_cases; try done.
  apply IH in H1. frame.
Qed.

Lemma control_same e b size e' : process_control_pdu e b size = Ok e' -> rx_same e e'.
Proof.
  unfold process_control_pdu, process_valid, finish_control, update_tx_next_ack. intros H.
  apply bind_ok in H as (ok & _ & H). destruct ok; [|by inv_res].
  do 5 (apply bind_ok in H as ([? ?] & _ & H)). cbv zeta in H.
  apply bind_ok in H as (c1 & H1 & H). apply nacks_same in H1.
  apply bind_ok in H as (c2 & H2 & H). apply ack_wait_same in H2.
  apply bind_ok in H as (c3 & H3 & H). apply ack_retransmit_same in H3.
  apply bind_ok in H as (? & _ & H). apply bind_ok in H as (? & _ & H). frame.
Qed.

(** A control PDU: the D/C bit is 0. *)
Lemma recv_control_same e v b e' : Z.testbit v 7 = false ->
  nr_rlc_entity_am_recv_pdu e (v :: b) (zlen (v :: b)) = Ok e' -> rx_same e e'.
Proof.
  intros Hv H. unfold nr_rlc_entity_am_recv_pdu in H. set (e1 := stat _ e) in *.
  assert (S1 : rx_same e e1) by same. etransitivity; [exact S1|].
  destruct (decoder_init_wf (v :: b) (zlen (v :: b))) as [Wd Sd]; [unfold zlen; lia|].
  unfold zlen in Sd at 2. rewrite Nat2Z.id, firstn_all, bits_cons in Sd.
  assert (Sd' : d_stream (nr_rlc_pdu_decoder_init (v :: b) (zlen (v :: b))) =
    zbits (Z.to_nat 1) 0 ++ zbits 7 v ++ bits b).
  { rewrite Sd. change (zbits 8 v) with (Z.testbit v 7 :: zbits 7 v). by rewrite Hv. }
  destruct (get_bits_field _ 1 0 _ Wd ltac:(lia) Sd') as (d & E & Er & _). rewrite E in H. cbv iota beta in H.
  rewrite Er in H. change (0 mod 2 ^ 1 =? 0) with true in H. eapply control_same; exact H.
Qed.
