(* ===== verification/RlcAmReceiver.v ===== *)
(** * An AM receiver among all other activity of its entity

    An entity receives data PDUs of a sender whose SDUs are numbered from 0 on,
    in any order, with losses and repetitions, while it also sends SDUs of its
    own, gets grants and STATUS PDUs and has its clock advanced. *)

From S2P Require Import Prelude RlcPdu RlcSdu TimeStat RlcEntity RlcRx RlcAm.
From S2P Require Import RlcAmControl RlcAmStatus RlcAmEntity RlcAmReport RlcAmData RlcAmWindow RlcAmRecv RlcAmFrame.

Import Am AmEntity.

(** ** Steps *)

(** The entity, the number of the SDU its RX_Next stands for, and the segments
    (SDU, offset, size) received while there was room for them. *)
Record am_rx := mk_am_rx { ar_ent : nr_rlc_entity_am_t; ar_next : Z; ar_got : list (Z * Z * Z) }.

(** [pdu] carries the part of SDU [i] of [D] at offset [so]; [i] is less than a
    window away from [R]. *)
Definition data_pdu (D : Z -> bytes) (e : nr_rlc_entity_am_t) (R i so : Z) (data pdu : bytes) : Prop :=
  exists p f l, segment D i so f l data /\ 0 <= i /\ R - window_size e <= i < R + window_size e /\
    am_pdu (sn_field_length e) p (sn_of (window_size e) i) so f l data pdu.

Definition has_room (e : nr_rlc_entity_am_t) (n : Z) : bool := rx_size e + n <=? rx_maxsize e.

Inductive am_rx_step (D : Z -> bytes) : am_rx -> am_rx -> Prop :=
| step_data e R got i so data pdu e' :
    data_pdu D e R i so data pdu -> nr_rlc_entity_am_recv_pdu e pdu (zlen pdu) = Ok e' ->
    am_rx_step D (mk_am_rx e R got)
      (mk_am_rx e' (R + (rx_next e' - rx_next e) mod sn_modulus e)
        (if has_room e (zlen data) then (i, so, zlen data) :: got else got))
| step_control e R got v pdu e' :
    Z.testbit v 7 = false -> nr_rlc_entity_am_recv_pdu e (v :: pdu) (zlen (v :: pdu)) = Ok e' ->
    am_rx_step D (mk_am_rx e R got) (mk_am_rx e' R got)
| step_grant e R got buffer size now n b e' :
    nr_rlc_entity_am_generate_pdu e buffer size now = Ok (n, b, e') ->
    am_rx_step D (mk_am_rx e R got) (mk_am_rx e' R got)
| step_sdu e R got buffer size id now e' :
    nr_rlc_entity_am_recv_sdu e buffer size id now = Ok e' ->
    am_rx_step D (mk_am_rx e R got) (mk_am_rx e' R got)
| step_discard e R got id e' :
    nr_rlc_entity_am_discard_sdu e id = Ok e' ->
    am_rx_step D (mk_am_rx e R got) (mk_am_rx e' R got)
| step_time e R got now e' :
    now <> 0 -> nr_rlc_entity_am_set_time e now = Ok e' ->
    am_rx_step D (mk_am_rx e R got) (mk_am_rx e' R got).

(** A new entity whose clock runs. *)
Definition am_start (e : nr_rlc_entity_am_t) : Prop :=
  exists rx_max tx_max t1 t2 t3 n1 n2 n3 len e0 now,
    new_nr_rlc_entity_am rx_max tx_max t1 t2 t3 n1 n2 n3 len = Ok e0 /\ now <> 0 /\
    nr_rlc_entity_am_set_time e0 now = Ok e.

Definition am_run (D : Z -> bytes) (st : am_rx) : Prop :=
  exists e, am_start e /\ rtc (am_rx_step D) (mk_am_rx e 0 []) st.

Section Run.

Context (D : Z -> bytes) (HD : forall i, 0 < zlen (D i) <= NR_SDU_MAX).

(** ** The invariant *)

Definition am_rx_inv (st : am_rx) (H S : Z) (dlv : list Z) : Prop :=
  let W := window_size (ar_ent st) in
  2 <= W /\ rx_inv W D (ar_ent st) (ar_next st) H S dlv /\
  (forall i so n, (i, so, n) ∈ ar_got st -> stored W i so n (ar_next st) dlv (rx_list (ar_ent st))).

Lemma am_start_inv e : am_start e -> am_rx_inv (mk_am_rx e 0 []) 0 0 [].
Proof.
  intros (rx_max & tx_max & t1 & t2 & t3 & n1 & n2 & n3 & len & e0 & now & E & Hn & Et).
  unfold new_nr_rlc_entity_am in E. case_if; [done|]. apply negb_false_iff in E0.
  assert (Hl : am_len_ok len) by (unfold am_len_ok; bool_prop; destruct E0; bool_prop; lia).
  destruct (new_common_ok NR_RLC_AM) as (c & Ec & _ & _ & Hc & _). rewrite Ec in E. mon. apply mret_ok in E as <-.
  apply mret_ok in Et as <-. unfold am_rx_inv. cbn.
  assert (HW : Z.quot (Z.shiftl 1 len) 2 = 2 ^ (len - 1) /\ Z.shiftl 1 len = 2 ^ len /\ 2 <= 2 ^ (len - 1) /\
    2 ^ len = 2 * 2 ^ (len - 1)) by (by destruct Hl as [->| ->]).
  destruct HW as (EW & EM & HW & E2). rewrite EW, EM. split; [done|]. split; [|set_solver].
  destruct (window_list_init (2 ^ (len - 1)) ltac:(lia) D HD) as [Hw Ha].
  split; cbn; try done.
  - split; cbn; try done; try lia; try (by rewrite Hc); try set_solver.
    intros j _ Hj. by apply Ha.
  - by intros [].
  - intros [Hg|[Hg _]]; lia.
Qed.

(** The sending side keeps the invariant. *)
Lemma same_inv e e' R got H S dlv : rx_same e e' -> am_rx_inv (mk_am_rx e R got) H S dlv ->
  am_rx_inv (mk_am_rx e' R got) H S dlv.
Proof.
  intros [] (HW & I & Hg). unfold am_rx_inv in *. cbn in *. rewrite rs_window. split; [done|]. split.
  - eapply rx_inv_frame; [exact I|..]; try done. rewrite rs_current. apply I.
  - intros i so n Hi. rewrite rs_rx_list. by apply Hg.
Qed.

Lemma stored_mono W R R' dlv dlv' l l' i so n : window_list W D R dlv l -> window_list W D R' dlv' l' ->
  R <= R' -> dlv `prefix_of` dlv' -> keeps_held W R R' dlv' l l' ->
  stored W i so n R dlv l -> stored W i so n R' dlv' l'.
Proof.
  intros Hw Hw' HR [k ->] Hk [Hi|[Hi Hh]]; [left; set_solver|].
  destruct (decide (i ∈ dlv ++ k)) as [Hd|Hd]; [by left|]. right. split.
  - split; [|lia]. destruct (Z.le_gt_cases R' i); [done|]. destruct Hd. apply Hw'. pose proof (wl_pos _ _ _ _ _ Hw). lia.
  - intros b Hb. by destruct (Hk i b Hi (Hh b Hb)) as [|[_ ?]].
Qed.

Lemma recv_inv e R got H S dlv i so data pdu : am_rx_inv (mk_am_rx e R got) H S dlv ->
  data_pdu D e R i so data pdu ->
  exists e' H' S' dlv', nr_rlc_entity_am_recv_pdu e pdu (zlen pdu) = Ok e' /\ dlv `prefix_of` dlv' /\
    am_rx_inv (mk_am_rx e' (R + (rx_next e' - rx_next e) mod sn_modulus e)
      (if has_room e (zlen data) then (i, so, zlen data) :: got else got)) H' S' dlv'.
Proof.
  intros (HW & I & Hg) (p & f & l & Hseg & Hi0 & Hi & Hp). cbn in *. set (W := window_size e) in *.
  destruct (recv_data_ok W HW D HD e R H S dlv i so f l data p pdu I Hseg Hi0 Hi Hp) as
    (e' & R' & H' & S' & dlv' & E & I' & HR & Hpre & Hk & Hs).
  exists e', H', S', dlv'. split; [done|]. split; [done|].
  pose proof (ri_base _ _ _ _ _ _ _ I) as B. pose proof (ri_base _ _ _ _ _ _ _ I') as B'.
  destruct (rb_win _ _ _ _ _ _ _ _ B) as [HM _]. destruct (rb_win _ _ _ _ _ _ _ _ B') as [_ HW'].
  assert (ER : R + (rx_next e' - rx_next e) mod sn_modulus e = R').
  { rewrite (rb_next _ _ _ _ _ _ _ _ B), (rb_next _ _ _ _ _ _ _ _ B'), HM.
    unfold sn_of. rewrite <- Zminus_mod, Z.mod_small by lia. lia. }
  unfold am_rx_inv. cbn. rewrite HW', ER. split; [done|]. split; [done|].
  intros j so' n Hj.
  assert (Hold : (j, so', n) ∈ got -> stored W j so' n R' dlv' (rx_list e')).
  { intros Hin. eapply stored_mono; [apply B|apply B'|lia|done|done|]. by apply Hg. }
  unfold has_room in Hj. destruct (Z.leb_spec (rx_size e + zlen data) (rx_maxsize e)) as [Hroom|]; [|by apply Hold].
  apply elem_of_cons in Hj as [Ej|Hj]; [|by apply Hold]. injection Ej as -> -> ->. by apply Hs.
Qed.

Lemma am_rx_step_inv st st' H S dlv : am_rx_step D st st' -> am_rx_inv st H S dlv ->
  exists H' S' dlv', am_rx_inv st' H' S' dlv'.
Proof.
  destruct 1 as [e R got i so data pdu e' Hd E|e R got v pdu e' Hv E|e R got buffer size now n b e' E
    |e R got buffer size id now e' E|e R got id e' E|e R got now e' Hn E]; intros I.
  - destruct (recv_inv _ _ _ _ _ _ _ _ _ _ I Hd) as (e2 & H' & S' & dlv' & E2 & _ & I').
    rewrite E in E2. injection E2 as <-. eauto.
  - exists H, S, dlv. eapply same_inv; [|exact I]. by eapply recv_control_same.
  - exists H, S, dlv. eapply same_inv; [|exact I]. by eapply generate_pdu_same.
  - exists H, S, dlv. eapply same_inv; [|exact I]. by eapply recv_sdu_same.
  - exists H, S, dlv. eapply same_inv; [|exact I]. by eapply discard_sdu_same.
  - apply set_time_poll_same in E as (e1 & Hs & E). 
    assert (I1 : am_rx_inv (mk_am_rx e1 R got) H S dlv).
    { eapply same_inv; [exact Hs|]. destruct I as (HW & I & Hg). split; [done|]. split; [|done].
      by eapply rx_inv_frame; [exact I|..]. }
    destruct I1 as (HW & I1 & Hg). cbn in *.
    destruct (check_t_reassembly_ok _ HW D HD e1 R H S dlv I1) as (e2 & S' & E2 & I2 & _ & El & _).
    rewrite E in E2. injection E2 as <-. exists H, S', dlv. unfold am_rx_inv. cbn.
    destruct (rb_win _ _ _ _ _ _ _ _ (ri_base _ _ _ _ _ _ _ I2)) as [_ ->]. by rewrite El.
Qed.

Lemma am_run_inv st : am_run D st -> exists H S dlv, am_rx_inv st H S dlv.
Proof.
  intros (e & Hs & Hr). apply am_start_inv in Hs.
  assert (Hx : exists H S dlv, am_rx_inv (mk_am_rx e 0 []) H S dlv) by eauto. clear Hs.
  induction Hr as [|st1 st2 st3 Hstep _ IH]; [done|]. destruct Hx as (H & S & dlv & I).
  eapply IH, am_rx_step_inv; done.
Qed.

End Run.

(** [C5] Whatever arrives within a window of RX_Next, in whatever order, with
    losses and repetitions, and whatever else the entity does: what it has handed up are
    SDUs of the sender, byte for byte, each at most once; all SDUs before RX_Next have been handed up
    and the one at RX_Next has not; and the next data PDU never makes [recv_pdu] fault. *)
Theorem am_receiver_delivers_once D st :
  (forall i, 0 < zlen (D i) <= NR_SDU_MAX) -> am_run D st ->
  exists dlv, sdus_up (calls (common (ar_ent st))) = D <$> dlv /\ NoDup dlv /\
    (forall i, i ∈ dlv -> 0 <= i < ar_next st + window_size (ar_ent st)) /\
    (forall i, 0 <= i < ar_next st -> i ∈ dlv) /\ (ar_next st ∉ dlv) /\
    (forall i so data pdu, data_pdu D (ar_ent st) (ar_next st) i so data pdu ->
       is_ok (nr_rlc_entity_am_recv_pdu (ar_ent st) pdu (zlen pdu))).
Proof.
  intros HD Hr. destruct (am_run_inv D HD st Hr) as (H & S & dlv & I). exists dlv. pose proof I as (HW & [B _ _ _] & _).
  pose proof (rb_list _ _ _ _ _ _ _ _ B) as []. split_and!; try done; try apply B.
  intros i so data pdu Hp. destruct st as [e R got].
  destruct (recv_inv D HD e R got H S dlv i so data pdu I Hp) as (e' & _ & _ & _ & E & _). by exists e'.
Qed.

(** [C6] Once every byte of an SDU has come in some segment for which there was room,
    the SDU has been handed up: no repetition, overlap or order of segments prevents it. *)
Theorem am_receiver_complete D st :
  (forall i, 0 < zlen (D i) <= NR_SDU_MAX) -> am_run D st ->
  exists dlv, sdus_up (calls (common (ar_ent st))) = D <$> dlv /\ NoDup dlv /\
    forall i, (forall b, 0 <= b < zlen (D i) -> exists so n, (i, so, n) ∈ ar_got st /\ so <= b < so + n) -> i ∈ dlv.
Proof.
  intros HD Hr. destruct (am_run_inv D HD st Hr) as (H & S & dlv & HW & [B _ _ _] & Hg). exists dlv.
  split; [apply B|]. split; [apply (rb_list _ _ _ _ _ _ _ _ B)|]. intros i Hi. destruct (decide (i ∈ dlv)) as [|Hn]; [done|].
  assert (Hs : forall b, 0 <= b < zlen (D i) -> ar_next st <= i < ar_next st + window_size (ar_ent st) /\
    held (rx_list (ar_ent st)) (sn_of (window_size (ar_ent st)) i) b).
  { intros b Hb. destruct (Hi b Hb) as (so & n & Hin & Hso). destruct (Hg i so n Hin) as [|[? ?]]; [done|].
    split; auto. }
  pose proof (HD i). apply (rb_all _ _ _ _ _ _ _ _ B); [by intros []|apply (Hs 0); lia|]. intros b Hb. by apply Hs.
Qed.


(** ** A concrete run

    SDUs of two bytes; SDU 1 comes whole, before SDU 0. *)
Definition demo_sdus (i : Z) : bytes := [i mod 256; 7].

Lemma demo_sdus_ok i : 0 < zlen (demo_sdus i) <= NR_SDU_MAX.
Proof. unfold zlen, demo_sdus, NR_SDU_MAX. cbn. lia. Qed.

Definition am_demo_start : res nr_rlc_entity_am_t :=
  e ← new_nr_rlc_entity_am 1000 1000 45 35 0 (-1) (-1) 8 12; nr_rlc_entity_am_set_time e 1.

Lemma am_demo_values : exists e e', am_demo_start = Ok e /\ sn_field_length e = 12 /\ window_size e = 2048 /\
  has_room e 2 = true /\ nr_rlc_entity_am_recv_pdu e [128; 1; 1; 7] 4 = Ok e' /\
  rx_next e' = 0 /\ rx_list e' = [mk_pdu 1 None 2 0 true true].
Proof.
  eexists _, _. split; [vm_compute; reflexivity|]. split; [reflexivity|]. split; [reflexivity|].
  split; [reflexivity|]. split; [vm_compute; reflexivity|]. split; reflexivity.
Qed.

Lemma am_demo_run : exists st, am_run demo_sdus st /\ ar_got st = [(1, 0, 2)] /\
  rx_next (ar_ent st) = 0 /\ rx_list (ar_ent st) = [mk_pdu 1 None 2 0 true true].
Proof.
  destruct am_demo_values as (e & e' & Es & El & Ew & Er & E & E1 & E2).
  assert (Hs : am_start e).
  { apply bind_ok in Es as (e0 & E0 & Es). exists 1000, 1000, 45, 35, 0, (-1), (-1), 8, 12, e0, 1. by split_and!. }
  assert (Hd : data_pdu demo_sdus e 0 1 0 [1; 7] [128; 1; 1; 7]).
  { exists false, true, true. rewrite Ew, El. split; [by unfold segment, zlen; cbn; split_and!; try lia|].
    split; [lia|]. split; [lia|]. exists [128; 1]. done. }
  pose proof (step_data demo_sdus e 0 [] 1 0 [1; 7] [128; 1; 1; 7] e' Hd E) as Hstep.
  change (zlen [1; 7]) with 2 in Hstep. rewrite Er in Hstep.
  eexists. split; [exists e; split; [exact Hs|by apply rtc_once]|]. done.
Qed.

Lemma am_receiver_delivers_once_witness : exists st, am_run demo_sdus st /\ ar_got st = [(1, 0, 2)] /\
  exists dlv, sdus_up (calls (common (ar_ent st))) = demo_sdus <$> dlv /\ NoDup dlv.
Proof.
  destruct am_demo_run as (st & Hr & Hg & _). exists st. split; [exact Hr|]. split; [exact Hg|].
  destruct (am_receiver_delivers_once demo_sdus st demo_sdus_ok Hr) as (dlv & E & N & _). by exists dlv.
Defined.

Lemma am_receiver_complete_witness : exists st, am_run demo_sdus st /\
  exists dlv, sdus_up (calls (common (ar_ent st))) = demo_sdus <$> dlv /\ NoDup dlv /\ 1 ∈ dlv.
Proof.
  destruct am_demo_run as (st & Hr & Hg & _). exists st. split; [exact Hr|].
  destruct (am_receiver_complete demo_sdus st demo_sdus_ok Hr) as (dlv & E & N & Hc). exists dlv.
  split; [done|]. split; [done|]. apply Hc. intros b Hb. exists 0, 2. rewrite Hg. split; [set_solver|exact Hb].
Defined.

