(* ===== verification/RlcBearer.v ===== *)
(** * RLC entities behind one interface

    [nr_rlc_entity_t] starts with the function pointers of its mode.  The pointers are the
    class [RlcOps]; the three modes are instances, and [rlc_entity] is an entity of one of
    them with the calls dispatched.  [nr_rlc_entity_get_stats] of [nr_rlc_entity.c]. *)

From S2P Require Import Prelude RlcPdu RlcSdu TimeStat RlcEntity RlcTm RlcUm RlcAm RlcAmEntity.

#[local] Existing Instances Am.eta_am Um.eta_um Tm.eta_tm.

(** [discard_sdu] is never called through the pointer and is left out.  [op_hol] is the list
    whose head [nr_rlc_entity_get_stats] calls the head of line. *)
Class RlcOps (E : Type) := {
  op_common : E -> nr_rlc_entity_t;
  op_upd_common : (nr_rlc_entity_t -> nr_rlc_entity_t) -> E -> E;
  op_recv_pdu : E -> bytes -> Z -> res E;
  op_buffer_status : E -> Z -> res nr_rlc_entity_buffer_status_t;
  op_generate_pdu : E -> bytes -> Z -> Z -> res (Z * bytes * E);
  op_recv_sdu : E -> bytes -> Z -> Z -> Z -> res E;
  op_set_time : E -> Z -> res E;
  op_reestablishment : E -> res E;
  op_delete : E -> res sdu_heap;
  op_available_tx_space : E -> Z;
  op_hol : E -> list nr_rlc_sdu_segment_t;
  op_heap : E -> sdu_heap }.

#[export] Instance am_ops : RlcOps Am.nr_rlc_entity_am_t := {
  op_common := Am.common;
  op_upd_common f e := e <| Am.common ::= f |>;
  op_recv_pdu := AmEntity.nr_rlc_entity_am_recv_pdu;
  op_buffer_status := AmEntity.nr_rlc_entity_am_buffer_status;
  op_generate_pdu := AmEntity.nr_rlc_entity_am_generate_pdu;
  op_recv_sdu := AmEntity.nr_rlc_entity_am_recv_sdu;
  op_set_time := AmEntity.nr_rlc_entity_am_set_time;
  op_reestablishment := AmEntity.nr_rlc_entity_am_reestablishment;
  op_delete := AmEntity.nr_rlc_entity_am_delete;
  op_available_tx_space := AmEntity.nr_rlc_entity_am_available_tx_space;
  op_hol e := match Am.retransmit_list e with [] => Am.tx_list e | l => l end;
  op_heap := Am.heap }.

#[export] Instance um_ops : RlcOps Um.nr_rlc_entity_um_t := {
  op_common := Um.common;
  op_upd_common f e := e <| Um.common ::= f |>;
  op_recv_pdu := Um.nr_rlc_entity_um_recv_pdu;
  op_buffer_status e n := mret (Um.nr_rlc_entity_um_buffer_status e n);
  op_generate_pdu := Um.nr_rlc_entity_um_generate_pdu;
  op_recv_sdu := Um.nr_rlc_entity_um_recv_sdu;
  op_set_time := Um.nr_rlc_entity_um_set_time;
  op_reestablishment := Um.nr_rlc_entity_um_reestablishment;
  op_delete := Um.nr_rlc_entity_um_delete;
  op_available_tx_space := Um.nr_rlc_entity_um_available_tx_space;
  op_hol := Um.tx_list;
  op_heap := Um.heap }.

#[export] Instance tm_ops : RlcOps Tm.nr_rlc_entity_tm_t := {
  op_common := Tm.common;
  op_upd_common f e := e <| Tm.common ::= f |>;
  op_recv_pdu := Tm.nr_rlc_entity_tm_recv_pdu;
  op_buffer_status e n := mret (Tm.nr_rlc_entity_tm_buffer_status e n);
  op_generate_pdu := Tm.nr_rlc_entity_tm_generate_pdu;
  op_recv_sdu := Tm.nr_rlc_entity_tm_recv_sdu;
  op_set_time e t := mret (Tm.nr_rlc_entity_tm_set_time e t);
  op_reestablishment := Tm.nr_rlc_entity_tm_reestablishment;
  op_delete := Tm.nr_rlc_entity_tm_delete;
  op_available_tx_space := Tm.nr_rlc_entity_tm_available_tx_space;
  op_hol := Tm.tx_list;
  op_heap := Tm.heap }.

(** An object with its mode; [stats.mode] is set by the constructor and never changed. *)
Inductive rlc_entity :=
| AM (e : Am.nr_rlc_entity_am_t)
| UM (e : Um.nr_rlc_entity_um_t)
| TM (e : Tm.nr_rlc_entity_tm_t).

(** A call through a pointer: a function that needs the operations of some mode. *)
Definition dispatch {A} (f : forall E, RlcOps E -> E -> A) (b : rlc_entity) : A :=
  match b with AM e => f _ am_ops e | UM e => f _ um_ops e | TM e => f _ tm_ops e end.

(** The same for a function that changes the entity. *)
Definition dispatch_upd (f : forall E, RlcOps E -> E -> res E) (b : rlc_entity) : res rlc_entity :=
  match b with
  | AM e => e ← f _ am_ops e; mret (AM e)
  | UM e => e ← f _ um_ops e; mret (UM e)
  | TM e => e ← f _ tm_ops e; mret (TM e)
  end.

#[export] Instance entity_ops : RlcOps rlc_entity := {
  op_common := dispatch (fun _ _ => op_common);
  op_upd_common f b := match b with
    | AM e => AM (op_upd_common f e) | UM e => UM (op_upd_common f e) | TM e => TM (op_upd_common f e) end;
  op_recv_pdu b buf n := dispatch_upd (fun _ _ e => op_recv_pdu e buf n) b;
  op_buffer_status b n := dispatch (fun _ _ e => op_buffer_status e n) b;
  op_generate_pdu b buf n now := match b with
    | AM e => '(r, o, e) ← op_generate_pdu e buf n now; mret (r, o, AM e)
    | UM e => '(r, o, e) ← op_generate_pdu e buf n now; mret (r, o, UM e)
    | TM e => '(r, o, e) ← op_generate_pdu e buf n now; mret (r, o, TM e) end;
  op_recv_sdu b buf n id now := dispatch_upd (fun _ _ e => op_recv_sdu e buf n id now) b;
  op_set_time b t := dispatch_upd (fun _ _ e => op_set_time e t) b;
  op_reestablishment b := dispatch_upd (fun _ _ => op_reestablishment) b;
  op_delete b := dispatch (fun _ _ => op_delete) b;
  op_available_tx_space b := dispatch (fun _ _ => op_available_tx_space) b;
  op_hol b := dispatch (fun _ _ => op_hol) b;
  op_heap b := dispatch (fun _ _ => op_heap) b }.

(** The statistics with the wait time of the head of line, the average time to transmit
    ([None] is 0) and the entity, whose averaging window has moved. *)
Definition nr_rlc_entity_get_stats (b : rlc_entity) (time_now : Z)
  : res (nr_rlc_statistics_t * option (Z * Z) * rlc_entity) :=
  let out := stats (op_common b) in
  wt ← match op_hol b with
       | [] => mret 0
       | s :: _ => d ← sdu_of (op_heap b) s; mret (u32 (time_now - sdu_time_of_arrival d))
       end;
  let out := out <| txsdu_wt_us := wt |> in
  if avg_time_is_on (op_common b) then
    '(avg, t) ← time_average_get_average (txsdu_avg_time_to_tx (op_common b)) time_now;
    mret (out, avg, op_upd_common (fun c => c <| txsdu_avg_time_to_tx := t |>) b)
  else mret (out, None, b).
