(* ===== verification/Snow3g.v ===== *)
(** * SNOW 3G: the keystream generator, ciphering and integrity

    [openair3/SECU/snow3g.c].  A local array that is not initialised holds
    [None]; reading such a cell is undefined behaviour.  [htonl] and the views of
    a word array as bytes are those of a little-endian machine, as the sources
    assume: the bytes of [htonl(w)] are the bytes of [w], most significant first. *)

From S2P Require Import Prelude Snow3gTables.

Module Snow3g.

(** Reading a cell that may not have been written yet. *)
Definition init_cell {A} (o : option A) : res A :=
  match o with Some a => Ok a | None => Err Undef end.

(** The bytes of a 32-bit word, most significant first. *)
Definition be32 (w : Z) : bytes :=
  [Z.land (Z.shiftr w 24) 255; Z.land (Z.shiftr w 16) 255; Z.land (Z.shiftr w 8) 255; Z.land w 255].

(** ** The S-box layers and the field tables *)

Definition s1 (w : Z) : res Z :=
  let w0 := Z.land (Z.shiftr w 24) 255 in
  let w1 := Z.land (Z.shiftr w 16) 255 in
  let w2 := Z.land (Z.shiftr w 8) 255 in
  let w3 := Z.land w 255 in
  a ← rd s1_t0 w3; b ← rd s1_t1 w2; c ← rd s1_t2 w1; d ← rd s1_t3 w0;
  mret (Z.lxor (Z.lxor (Z.lxor a b) c) d).

Definition s2 (w : Z) : res Z :=
  let w0 := Z.land (Z.shiftr w 24) 255 in
  let w1 := Z.land (Z.shiftr w 16) 255 in
  let w2 := Z.land (Z.shiftr w 8) 255 in
  let w3 := Z.land w 255 in
  a ← rd s2_t0 w3; b ← rd s2_t1 w2; c ← rd s2_t2 w1; d ← rd s2_t3 w0;
  mret (Z.lxor (Z.lxor (Z.lxor a b) c) d).

Definition MULa (c : Z) : res Z := rd mula c.
Definition DIVa (c : Z) : res Z := rd diva c.

(** ** The generator

    [ring] is [_s], twice the size of the shift register; [pos] is the offset of
    the pointer [s] in it. *)

Record snow3g_t := mk_snow3g {
  ring : list (option Z);
  pos : Z;
  r1 : Z;
  r2 : Z;
  r3 : Z }.

#[export] Instance eta_snow3g : Eta snow3g_t := fun s => mk_snow3g (ring s) (pos s) (r1 s) (r2 s) (r3 s).

(** [s->s[i]] *)
Definition get_s (s : snow3g_t) (i : Z) : res Z := o ← rd (ring s) (pos s + i); init_cell o.

Definition set_s (s : snow3g_t) (i v : Z) : res snow3g_t :=
  r ← wr (ring s) (pos s + i) (Some v); mret (s <| ring := r |>).

(** The feedback word [v], without the output of the FSM (lines 467 to 482). *)
Definition lfsr_feedback (s : snow3g_t) : res Z :=
  x0 ← get_s s 0;
  x11 ← get_s s 11;
  let s0_0 := Z.land (Z.shiftr x0 24) 255 in
  let s0_1 := Z.land (Z.shiftr x0 16) 255 in
  let s0_2 := Z.land (Z.shiftr x0 8) 255 in
  let s0_3 := Z.land x0 255 in
  let s11_0 := Z.land (Z.shiftr x11 24) 255 in
  let s11_1 := Z.land (Z.shiftr x11 16) 255 in
  let s11_2 := Z.land (Z.shiftr x11 8) 255 in
  let s11_3 := Z.land x11 255 in
  let v0 := Z.lor (Z.lor (Z.shiftl s0_1 24) (Z.shiftl s0_2 16)) (Z.shiftl s0_3 8) in
  let v11 := Z.lor (Z.lor (Z.shiftl s11_0 16) (Z.shiftl s11_1 8)) s11_2 in
  m ← MULa s0_0;
  x2 ← get_s s 2;
  d ← DIVa s11_3;
  mret (Z.lxor (Z.lxor (Z.lxor (Z.lxor v0 m) x2) v11) d).

(** The shift: two stores and a pointer increment (lines 504 to 509). *)
Definition lfsr_shift (s : snow3g_t) (v : Z) : res snow3g_t :=
  s ← set_s s 0 v;
  s ← set_s s 16 v;
  let s := s <| pos ::= Z.add 1 |> in
  mret (if pos s =? 16 then s <| pos := 0 |> else s).

Definition lfsr_init (s : snow3g_t) (f : Z) : res snow3g_t :=
  v ← lfsr_feedback s; lfsr_shift s (Z.lxor v f).

Definition lfsr_keystream (s : snow3g_t) : res snow3g_t :=
  v ← lfsr_feedback s; lfsr_shift s v.

Definition clock_fsm (s : snow3g_t) : res (Z * snow3g_t) :=
  x15 ← get_s s 15;
  let f := Z.lxor (u32 (x15 + r1 s)) (r2 s) in
  x5 ← get_s s 5;
  let r := u32 (r2 s + Z.lxor (r3 s) x5) in
  n3 ← s2 (r2 s);
  n2 ← s1 (r1 s);
  mret (f, s <| r3 := n3 |> <| r2 := n2 |> <| r1 := r |>).

Definition GET32 (b : bytes) (off : Z) : res Z :=
  b0 ← rd b off; b1 ← rd b (off + 1); b2 ← rd b (off + 2); b3 ← rd b (off + 3);
  mret (Z.lor (Z.lor (Z.lor (Z.shiftl b0 24) (Z.shiftl b1 16)) (Z.shiftl b2 8)) b3).

Definition ones : Z := 0xffffffff.

(** The register after the sixteen assignments of [snow3g_init], cell 0 first. *)
Definition load_register (k0 k1 k2 k3 iv0 iv1 iv2 iv3 : Z) : list Z :=
  [Z.lxor k0 ones; Z.lxor k1 ones; Z.lxor k2 ones; Z.lxor k3 ones;
   k0; k1; k2; k3;
   Z.lxor k0 ones; Z.lxor (Z.lxor k1 ones) iv3; Z.lxor (Z.lxor k2 ones) iv2; Z.lxor k3 ones;
   Z.lxor k0 iv1; k1; k2; Z.lxor k3 iv0].

Definition snow3g_init (k iv : bytes) : res snow3g_t :=
  k0 ← GET32 k 0; k1 ← GET32 k 4; k2 ← GET32 k 8; k3 ← GET32 k 12;
  iv0 ← GET32 iv 0; iv1 ← GET32 iv 4; iv2 ← GET32 iv 8; iv3 ← GET32 iv 12;
  let s := mk_snow3g (map Some (load_register k0 k1 k2 k3 iv0 iv1 iv2 iv3) ++ replicate 16 None) 0 0 0 0 in
  s ← for_loop 0 32 (fun _ s => '(f, s) ← clock_fsm s; lfsr_init s f) s;
  '(_, s) ← clock_fsm s;
  lfsr_keystream s.

Definition generate_keystream_step (s : snow3g_t) : res (Z * snow3g_t) :=
  '(f, s) ← clock_fsm s;
  x0 ← get_s s 0;
  s ← lfsr_keystream s;
  mret (Z.lxor f x0, s).

(** ** Ciphering *)

(** The key with its four words in reverse order. *)
Definition reorder_key (key : bytes) : res bytes :=
  a ← slice key 12 4; b ← slice key 8 4; c ← slice key 4 4; d ← slice key 0 4;
  mret (a ++ b ++ c ++ d).

Definition ciphering_iv (count bearer direction : Z) : bytes :=
  let b := u8 (Z.lor (Z.shiftl bearer 3) (Z.shiftl direction 2)) in
  [b; 0; 0; 0] ++ be32 count ++ [b; 0; 0; 0] ++ be32 count.

(** The words of the keystream as bytes ([htonl] and the byte view). *)
Definition keystream_bytes (n : Z) (s : snow3g_t) : res (bytes * snow3g_t) :=
  for_loop 0 n (fun _ '(ks, s) => '(w, s) ← generate_keystream_step s; mret (ks ++ be32 w, s)) ([], s).

(** The bytes written to [out]. *)
Definition snow3g_ciphering (count bearer direction : Z) (key : bytes) (length : Z) (inp : bytes)
  : res bytes :=
  k ← reorder_key key;
  s ← snow3g_init k (ciphering_iv count bearer direction);
  let keystream_count := (u32 length + 3) / 4 in
  '(keystream, _) ← keystream_bytes keystream_count s;
  for_loop 0 length (fun i out => a ← rd inp i; b ← rd keystream i; mret (out ++ [Z.lxor a b])) [].

(** ** Integrity *)

(** [GET64(in + off, available_bytes)] *)
Definition GET64 (p : bytes) (off available_bytes : Z) : res Z :=
  let byte k := if (1 <=? available_bytes) && (available_bytes <=? 8) && (k <? available_bytes)
                then rd p (off + k) else mret 0 in
  h ← byte 7; g ← byte 6; f ← byte 5; e ← byte 4; d ← byte 3; c ← byte 2; b ← byte 1; a ← byte 0;
  mret (Z.lor (Z.lor (Z.lor (Z.lor (Z.lor (Z.lor (Z.lor
          (Z.shiftl a 56) (Z.shiftl b 48)) (Z.shiftl c 40)) (Z.shiftl d 32))
          (Z.shiftl e 24)) (Z.shiftl f 16)) (Z.shiftl g 8)) h).

Definition MULx64 (v c : Z) : Z :=
  if negb (Z.land v (Z.shiftl 1 63) =? 0) then Z.lxor (u64 (Z.shiftl v 1)) c else u64 (Z.shiftl v 1).

Fixpoint MULxPOW64 (v : Z) (i : nat) (c : Z) : Z :=
  match i with O => v | S i' => MULx64 (MULxPOW64 v i' c) c end.

Definition MUL64 (v p c : Z) : res Z :=
  for_loop 0 64 (fun i result =>
    mret (if negb (Z.land (Z.shiftr p i) 1 =? 0) then Z.lxor result (MULxPOW64 v (Z.to_nat i) c) else result)) 0.

(** The precomputation table [uint64_t pm[8][256]]. *)
Abbreviation table := (list (list (option Z))).

Definition pm_get (pm : table) (i j : Z) : res Z := row ← rd pm i; o ← rd row j; init_cell o.

Definition pm_set (pm : table) (i j v : Z) : res table :=
  row ← rd pm i; row ← wr row j (Some v); wr pm i row.

Definition mul_p (pm : table) (x : Z) : res Z :=
  let x0 := Z.land (Z.shiftr x 56) 255 in
  let x1 := Z.land (Z.shiftr x 48) 255 in
  let x2 := Z.land (Z.shiftr x 40) 255 in
  let x3 := Z.land (Z.shiftr x 32) 255 in
  let x4 := Z.land (Z.shiftr x 24) 255 in
  let x5 := Z.land (Z.shiftr x 16) 255 in
  let x6 := Z.land (Z.shiftr x 8) 255 in
  let x7 := Z.land x 255 in
  v0 ← pm_get pm 0 x7; v1 ← pm_get pm 1 x6; v2 ← pm_get pm 2 x5; v3 ← pm_get pm 3 x4;
  v4 ← pm_get pm 4 x3; v5 ← pm_get pm 5 x2; v6 ← pm_get pm 6 x1; v7 ← pm_get pm 7 x0;
  mret (Z.lxor (Z.lxor (Z.lxor (Z.lxor (Z.lxor (Z.lxor (Z.lxor v0 v1) v2) v3) v4) v5) v6) v7).

(** Lines 758 to 760: the table as declared, its column 0 and [pm[0][1]]. *)
Definition pm_start (p : Z) : res table :=
  pm ← for_loop 0 8 (fun i pm => pm_set pm i 0 0) (replicate 8 (replicate 256 None));
  pm_set pm 0 1 p.

(** Lines 763 to 765: the next power of two. *)
Definition pm_power_step (i : Z) (pm : table) : res table :=
  v ← pm_get pm (Z.shiftr (i - 1) 3) (Z.shiftl 1 (Z.land (i - 1) 7));
  pm ← pm_set pm (Z.shiftr i 3) (Z.shiftl 1 (Z.land i 7)) (u64 (Z.shiftl v 1));
  v ← pm_get pm (Z.shiftr (i - 1) 3) (Z.shiftl 1 (Z.land (i - 1) 7));
  if negb (Z.land v 0x8000000000000000 =? 0) then
    w ← pm_get pm (Z.shiftr i 3) (Z.shiftl 1 (Z.land i 7));
    pm_set pm (Z.shiftr i 3) (Z.shiftl 1 (Z.land i 7)) (Z.lxor w 0x1b)
  else mret pm.

Definition pm_powers (pm : table) : res table := for_loop 1 64 pm_power_step pm.

(** Lines 768 to 774: the sums. *)
Definition pm_sums (pm : table) : res table :=
  for_loop 0 8 (fun i pm =>
    for_loop 1 8 (fun j pm =>
      for_loop 1 (Z.shiftl 1 j) (fun k pm =>
        a ← pm_get pm i (Z.shiftl 1 j);
        b ← pm_get pm i k;
        pm_set pm i (Z.shiftl 1 j + k) (Z.lxor a b)) pm) pm) pm.

Definition precompute (p : Z) : res table :=
  pm ← pm_start p; pm ← pm_powers pm; pm_sums pm.

Definition integrity_iv (count fresh direction : Z) : bytes :=
  let d := Z.shiftl (Z.land direction 1) 7 in
  [Z.land (Z.shiftr fresh 24) 255; Z.land (Z.shiftr fresh 16) 255;
   Z.lxor (Z.land (Z.shiftr fresh 8) 255) d; Z.land fresh 255;
   Z.lxor (Z.land (Z.shiftr count 24) 255) d; Z.land (Z.shiftr count 16) 255;
   Z.land (Z.shiftr count 8) 255; Z.land count 255] ++ be32 fresh ++ be32 count.

Definition MIN (a b : Z) : Z := if a <? b then a else b.

(** The evaluation of the message polynomial (lines 776 to 781). *)
Definition eval_message (pm : table) (d length : Z) (inp : bytes) : res Z :=
  eval ← for_loop 0 (d - 2) (fun i eval => m ← GET64 inp (i * 8) 8; mul_p pm (Z.lxor eval m)) 0;
  m ← GET64 inp ((d - 2) * 8) (MIN 8 (length - (d - 2) * 8));
  mul_p pm (Z.lxor eval m).

(** Lines 746 to 791, on the initialised generator. *)
Definition integrity_mac (s : snow3g_t) (length : Z) (inp : bytes) : res bytes :=
  '(z0, s) ← generate_keystream_step s;
  '(z1, s) ← generate_keystream_step s;
  '(z2, s) ← generate_keystream_step s;
  '(z3, s) ← generate_keystream_step s;
  '(z4, s) ← generate_keystream_step s;
  let d := (length * 8 + 63) / 64 + 1 in
  let p := Z.lor (Z.shiftl z0 32) z1 in
  let q := Z.lor (Z.shiftl z2 32) z3 in
  pm ← precompute p;
  eval ← eval_message pm d length inp;
  let eval := Z.lxor eval (u64 (length * 8)) in
  eval ← MUL64 eval q 0x1b;
  let eval := Z.lxor (Z.shiftr eval 32) z4 in
  mret (be32 eval).

(** [_snow3g_integrity] *)
Definition snow3g_integrity_fresh (count fresh direction : Z) (key : bytes) (length : Z) (inp : bytes)
  : res bytes :=
  k ← reorder_key key;
  s ← snow3g_init k (integrity_iv count fresh direction);
  integrity_mac s length inp.

Definition snow3g_integrity (count bearer direction : Z) (key : bytes) (length : Z) (inp : bytes)
  : res bytes :=
  snow3g_integrity_fresh count (u32 (Z.shiftl bearer 27)) direction key length inp.

End Snow3g.
