(* ===== verification/Snow3gSpec.v ===== *)
(** * SNOW 3G as specified, and the correctness of the tables

    The generator the way 3GPP TS 35.216 defines it: byte operations in
    GF(2{^8}), the AES S-box and the Dickson S-box as algebraic functions, a
    sixteen-word register that is shifted.  The tables of [snow3g.c] are proved
    equal to these functions. *)

From Stdlib Require Import Btauto.
From S2P Require Import Prelude Snow3gTables Snow3g.
Import Snow3g.

Module Spec.

(** ** GF(2{^8}) *)

Definition MULx (v c : Z) : Z :=
  if Z.testbit v 7 then Z.lxor (Z.land (Z.shiftl v 1) 255) c else Z.shiftl v 1.

Fixpoint MULxPOW (v : Z) (i : nat) (c : Z) : Z :=
  match i with O => v | S i' => MULx (MULxPOW v i' c) c end.

(** The product of two field elements, from the low bit of [b] upwards. *)
Fixpoint gf_mul (n : nat) (a b c : Z) : Z :=
  match n with
  | O => 0
  | S n' => Z.lxor (if Z.odd b then a else 0) (gf_mul n' (MULx a c) (Z.div2 b) c)
  end.

Fixpoint gf_pow (a : Z) (e : positive) (c : Z) : Z :=
  match e with
  | xH => a
  | xO e' => let r := gf_pow a e' c in gf_mul 8 r r c
  | xI e' => let r := gf_pow a e' c in gf_mul 8 a (gf_mul 8 r r c) c
  end.

Definition rotl8 (x : Z) (n : Z) : Z := Z.land (Z.lor (Z.shiftl x n) (Z.shiftr x (8 - n))) 255.

(** The Rijndael S-box: inversion followed by the affine map. *)
Definition SR (x : Z) : Z :=
  let y := gf_pow x 254 0x1b in
  Z.lxor (Z.lxor (Z.lxor (Z.lxor (Z.lxor y (rotl8 y 1)) (rotl8 y 2)) (rotl8 y 3)) (rotl8 y 4)) 0x63.

(** The second S-box: a Dickson polynomial over another representation of the field. *)
Definition SQ (x : Z) : Z :=
  foldr Z.lxor 0x25 (map (fun e => gf_pow x e 0x69) [1; 9; 13; 15; 33; 41; 45; 47; 49]%positive).

(** Four bytes as a word, most significant first. *)
Definition word (a b c d : Z) : Z :=
  Z.lxor (Z.lxor (Z.lxor (Z.shiftl a 24) (Z.shiftl b 16)) (Z.shiftl c 8)) d.

(** The byte [i] of a word, 0 being the most significant. *)
Definition byte (w i : Z) : Z := Z.land (Z.shiftr w (24 - 8 * i)) 255.

(** The mixing of S1 and S2, for an S-box [B] and a field constant [c]. *)
Definition mix (B : Z -> Z) (c w : Z) : Z :=
  let b0 := B (byte w 0) in let b1 := B (byte w 1) in
  let b2 := B (byte w 2) in let b3 := B (byte w 3) in
  let m0 := MULx b0 c in let m1 := MULx b1 c in let m2 := MULx b2 c in let m3 := MULx b3 c in
  word (Z.lxor (Z.lxor (Z.lxor m0 b1) b2) (Z.lxor m3 b3))
       (Z.lxor (Z.lxor (Z.lxor (Z.lxor m0 b0) m1) b2) b3)
       (Z.lxor (Z.lxor (Z.lxor b0 (Z.lxor m1 b1)) m2) b3)
       (Z.lxor (Z.lxor (Z.lxor b0 b1) (Z.lxor m2 b2)) m3).

Definition S1 (w : Z) : Z := mix SR 0x1b w.
Definition S2 (w : Z) : Z := mix SQ 0x69 w.

Definition MULalpha (c : Z) : Z :=
  word (MULxPOW c 23 0xa9) (MULxPOW c 245 0xa9) (MULxPOW c 48 0xa9) (MULxPOW c 239 0xa9).

Definition DIValpha (c : Z) : Z :=
  word (MULxPOW c 16 0xa9) (MULxPOW c 39 0xa9) (MULxPOW c 6 0xa9) (MULxPOW c 64 0xa9).

(** ** The generator *)

Record gen := mk_gen { reg : list Z; R1 : Z; R2 : Z; R3 : Z }.

Definition cell (g : gen) (i : nat) : Z := reg g !!! i.

(** [#if 0 /* the specs do this */]: every cell moves. *)
Definition shift_in (g : gen) (v : Z) : gen := mk_gen (tail (reg g) ++ [v]) (R1 g) (R2 g) (R3 g).

Definition feedback (g : gen) : Z :=
  let s0 := cell g 0 in
  let s11 := cell g 11 in
  Z.lxor (Z.lxor (Z.lxor (Z.lxor
    (word (byte s0 1) (byte s0 2) (byte s0 3) 0) (MULalpha (byte s0 0))) (cell g 2))
    (word 0 (byte s11 0) (byte s11 1) (byte s11 2))) (DIValpha (byte s11 3)).

Definition fsm_out (g : gen) : Z := Z.lxor (u32 (cell g 15 + R1 g)) (R2 g).

Definition fsm_next (g : gen) : gen :=
  mk_gen (reg g) (u32 (R2 g + Z.lxor (R3 g) (cell g 5))) (S1 (R1 g)) (S2 (R2 g)).

(** Initialisation mode and keystream mode. *)
Definition init_step (g : gen) : gen :=
  shift_in (fsm_next g) (Z.lxor (feedback (fsm_next g)) (fsm_out g)).

Definition key_step (g : gen) : gen := shift_in (fsm_next g) (feedback (fsm_next g)).

Definition output (g : gen) : Z := Z.lxor (fsm_out g) (cell g 0).

Fixpoint keystream (n : nat) (g : gen) : list Z :=
  match n with O => [] | S n' => output g :: keystream n' (key_step g) end.

(** A big-endian word of a byte string. *)
Definition be_word (l : bytes) (i : nat) : Z :=
  word (l !!! i) (l !!! (i + 1)%nat) (l !!! (i + 2)%nat) (l !!! (i + 3)%nat).

Definition initial (key iv : bytes) : gen :=
  let k i := be_word key (12 - 4 * i) in
  let v i := be_word iv (4 * i) in
  mk_gen (load_register (k 0%nat) (k 1%nat) (k 2%nat) (k 3%nat) (v 0%nat) (v 1%nat) (v 2%nat) (v 3%nat)) 0 0 0.

Definition start (key iv : bytes) : gen := key_step (Nat.iter 32 init_step (initial key iv)).

End Spec.
Import Spec.

(** ** The tables *)

Definition all_bytes : list Z := seqZ 0 256.

Definition sbox1 : list Z := map (fun t => Z.land (Z.shiftr t 8) 255) s1_t0.
Definition sbox2 : list Z := map (fun t => Z.land (Z.shiftr t 8) 255) s2_t0.

Lemma sbox1_SR : map SR all_bytes = sbox1.
Proof. vm_compute. reflexivity. Qed.

Lemma sbox2_SQ : map SQ all_bytes = sbox2.
Proof. vm_compute. reflexivity. Qed.

Lemma mula_spec : map MULalpha all_bytes = mula.
Proof. vm_compute. reflexivity. Qed.

Lemma diva_spec : map DIValpha all_bytes = diva.
Proof. vm_compute. reflexivity. Qed.

Lemma s1_tables :
  s1_t0 = map (fun y => word (Z.lxor (MULx y 0x1b) y) y y (MULx y 0x1b)) sbox1 /\
  s1_t1 = map (fun y => word y y (MULx y 0x1b) (Z.lxor (MULx y 0x1b) y)) sbox1 /\
  s1_t2 = map (fun y => word y (MULx y 0x1b) (Z.lxor (MULx y 0x1b) y) y) sbox1 /\
  s1_t3 = map (fun y => word (MULx y 0x1b) (Z.lxor (MULx y 0x1b) y) y y) sbox1.
Proof. vm_compute. repeat split. Qed.

Lemma s2_tables :
  s2_t0 = map (fun y => word (Z.lxor (MULx y 0x69) y) y y (MULx y 0x69)) sbox2 /\
  s2_t1 = map (fun y => word y y (MULx y 0x69) (Z.lxor (MULx y 0x69) y)) sbox2 /\
  s2_t2 = map (fun y => word y (MULx y 0x69) (Z.lxor (MULx y 0x69) y) y) sbox2 /\
  s2_t3 = map (fun y => word (MULx y 0x69) (Z.lxor (MULx y 0x69) y) y y) sbox2.
Proof. vm_compute. repeat split. Qed.

Lemma land_255 w : 0 <= Z.land w 255 < 256.
Proof. change 255 with (Z.ones 8). rewrite Z.land_ones by lia. apply Z.mod_pos_bound. lia. Qed.

(** Looking a byte up in the table of [f]. *)
Lemma rd_table (f : Z -> Z) tbl x : tbl = map f all_bytes -> 0 <= x < 256 -> rd tbl x = Ok (f x).
Proof.
  intros -> Hx. apply rd_Some; [lia|]. rewrite list_lookup_fmap.
  unfold all_bytes. rewrite lookup_seqZ_lt by lia. cbn. do 2 f_equal. lia.
Qed.

Lemma rd_sbox (B f : Z -> Z) tbl box w : map B all_bytes = box -> tbl = map f box ->
  rd tbl (Z.land w 255) = Ok (f (B (Z.land w 255))).
Proof.
  intros <- ->. apply (rd_table (fun x => f (B x))); [apply map_map | apply land_255].
Qed.

(** [xor_ring]: equality of sums of words, modulo associativity, commutativity and
    cancellation. *)
Ltac xor_ring :=
  apply Z.bits_inj'; intros ? ?; rewrite ?Z.lxor_spec;
  repeat match goal with |- context [Z.testbit ?x ?n] => generalize (Z.testbit x n); intro end;
  btauto.

Lemma mix_sum (B : Z -> Z) c w :
  let col f k := f (B (Z.land (Z.shiftr w k) 255)) in
  Z.lxor (Z.lxor (Z.lxor
    (let y := B (Z.land w 255) in word (Z.lxor (MULx y c) y) y y (MULx y c))
    (col (fun y => word y y (MULx y c) (Z.lxor (MULx y c) y)) 8))
    (col (fun y => word y (MULx y c) (Z.lxor (MULx y c) y) y) 16))
    (col (fun y => word (MULx y c) (Z.lxor (MULx y c) y) y y) 24) = mix B c w.
Proof.
  cbv zeta. unfold mix, byte, word. cbv zeta.
  change (24 - 8 * 0) with 24. change (24 - 8 * 1) with 16. change (24 - 8 * 2) with 8.
  change (24 - 8 * 3) with 0. rewrite Z.shiftr_0_r, !Z.shiftl_lxor.
  xor_ring.
Qed.

Lemma s1_spec w : s1 w = Ok (S1 w).
Proof.
  destruct s1_tables as (T0 & T1 & T2 & T3). unfold s1, S1. rewrite <- (mix_sum SR 0x1b w).
  rewrite (rd_sbox SR _ s1_t0 _ w sbox1_SR T0),
    (rd_sbox SR _ s1_t1 _ (Z.shiftr w 8) sbox1_SR T1),
    (rd_sbox SR _ s1_t2 _ (Z.shiftr w 16) sbox1_SR T2),
    (rd_sbox SR _ s1_t3 _ (Z.shiftr w 24) sbox1_SR T3).
  reflexivity.
Qed.

Lemma s2_spec w : s2 w = Ok (S2 w).
Proof.
  destruct s2_tables as (T0 & T1 & T2 & T3). unfold s2, S2. rewrite <- (mix_sum SQ 0x69 w).
  rewrite (rd_sbox SQ _ s2_t0 _ w sbox2_SQ T0),
    (rd_sbox SQ _ s2_t1 _ (Z.shiftr w 8) sbox2_SQ T1),
    (rd_sbox SQ _ s2_t2 _ (Z.shiftr w 16) sbox2_SQ T2),
    (rd_sbox SQ _ s2_t3 _ (Z.shiftr w 24) sbox2_SQ T3).
  reflexivity.
Qed.

Lemma MULa_ok c : 0 <= c < 256 -> MULa c = Ok (MULalpha c).
Proof. intros H. unfold MULa. by apply rd_table; [rewrite mula_spec|]. Qed.

Lemma DIVa_ok c : 0 <= c < 256 -> DIVa c = Ok (DIValpha c).
Proof. intros H. unfold DIVa. by apply rd_table; [rewrite diva_spec|]. Qed.

(** [C39] The tables of SNOW 3G are right: on every word the table-driven [s1] and [s2]
    compute the S-box layers of the specification (the Rijndael S-box, inversion in
    GF(2{^8}) and an affine map, resp. the Dickson S-box, followed by the column
    mixing), and on every byte [MULa] and [DIVa] multiply by alpha and by its inverse;
    no look-up leaves its table. *)
Theorem snow3g_tables_correct (w c : Z) : 0 <= c < 256 ->
  s1 w = Ok (S1 w) /\ s2 w = Ok (S2 w) /\ MULa c = Ok (MULalpha c) /\ DIVa c = Ok (DIValpha c).
Proof.
  intros Hc. repeat split; [apply s1_spec | apply s2_spec | by apply MULa_ok | by apply DIVa_ok].
Qed.

Lemma snow3g_tables_correct_witness :
  s1 0x12345678 = Ok (S1 0x12345678) /\ MULa 0x80 = Ok 0x50358897.
Proof.
  destruct (snow3g_tables_correct 0x12345678 0x80) as (A & _ & B & _); [lia|].
  split; [exact A | etransitivity; [exact B | vm_compute; reflexivity]].
Defined.
