(* ===== verification/Snow3gStream.v ===== *)
(** * The ring buffer implements the shift register; ciphering

    The generator of [snow3g.c] keeps the register in a ring of twice its size and
    moves a pointer instead of sixteen words.  It is proved to produce the
    keystream of the specification, and to read only cells that were written. *)

From S2P Require Import Prelude Snow3gTables Snow3g Snow3gSpec.
Import Snow3g Spec.

(** ** The relation between the ring and the register *)

Record rep (s : snow3g_t) (g : gen) : Prop := {
  rep_ring : length (ring s) = 32%nat;
  rep_reg : length (reg g) = 16%nat;
  rep_pos : 0 <= pos s < 16;
  rep_cells : forall i, (i < 16)%nat -> ring s !! (Z.to_nat (pos s) + i)%nat = Some (Some (cell g i));
  rep_copies : forall j, (j < Z.to_nat (pos s))%nat -> ring s !! j = ring s !! (j + 16)%nat;
  rep_r1 : r1 s = R1 g;
  rep_r2 : r2 s = R2 g;
  rep_r3 : r3 s = R3 g }.

Lemma rep_get s g i : rep s g -> 0 <= i < 16 -> get_s s i = Ok (cell g (Z.to_nat i)).
Proof.
  intros [_ _ Hp Hc _ _ _ _] Hi. unfold get_s.
  rewrite (rd_Some _ _ (Some (cell g (Z.to_nat i)))); [done|lia|].
  rewrite <- (Hc (Z.to_nat i)) by lia. f_equal. lia.
Qed.

Lemma cell_shift_in g v i : length (reg g) = 16%nat -> (i < 16)%nat ->
  cell (shift_in g v) i = if decide (i = 15%nat) then v else cell g (i + 1).
Proof.
  intros Hl Hi. unfold cell, shift_in. cbn [reg].
  destruct (reg g) as [|x l]; [done|]. cbn in Hl |- *.
  case_decide as E.
  - subst. rewrite lookup_total_app_r by lia. by replace (15 - length l)%nat with 0%nat by lia.
  - rewrite lookup_total_app_l by lia. by rewrite Nat.add_1_r.
Qed.

Lemma rep_shift s g v : rep s g -> exists s', lfsr_shift s v = Ok s' /\ rep s' (shift_in g v).
Proof.
  intros [Hr Hg Hp Hc Hd E1 E2 E3]. unfold lfsr_shift, set_s.
  rewrite wr_ok by (unfold zlen; lia). mon. cbn [ring pos r1 r2 r3 setter eta_snow3g].
  rewrite wr_ok by (unfold zlen; rewrite length_insert; lia). mon. cbn.
  set (p := Z.to_nat (pos s)) in *.
  replace (Z.to_nat (pos s + 0)) with p by lia. replace (Z.to_nat (pos s + 16)) with (p + 16)%nat by lia.
  set (R := <[(p + 16)%nat:=Some v]> (<[p:=Some v]> (ring s))).
  assert (Rp : R !! p = Some (Some v)).
  { unfold R. rewrite list_lookup_insert_ne by lia. apply list_lookup_insert_eq. lia. }
  assert (Rq : R !! (p + 16)%nat = Some (Some v)).
  { unfold R. apply list_lookup_insert_eq. rewrite length_insert. lia. }
  assert (Ro : forall j, j <> p -> j <> (p + 16)%nat -> R !! j = ring s !! j).
  { intros j ? ?. unfold R. by rewrite !list_lookup_insert_ne by lia. }
  assert (Rl : length R = 32%nat) by (unfold R; by rewrite !length_insert).
  clearbody R.
  assert (Hg' : length (reg (shift_in g v)) = 16%nat).
  { unfold shift_in. cbn. rewrite length_app. destruct (reg g); cbn in *; lia. }
  case_if; bool_prop; eexists; (split; [reflexivity|]); constructor; cbn [ring pos r1 r2 r3];
    try done; try lia.
  - (* the pointer wraps around *)
    intros i Hi. rewrite cell_shift_in by done. change (Z.to_nat 0 + i)%nat with i. case_decide.
    + subst. replace 15%nat with p by lia. done.
    + rewrite Ro by lia. rewrite Hd by lia. rewrite <- (Hc (i + 1)%nat) by lia. f_equal. lia.
  - intros i Hi. rewrite cell_shift_in by done.
    replace (Z.to_nat (1 + pos s) + i)%nat with (p + (i + 1))%nat by lia. case_decide.
    + subst. apply Rq.
    + rewrite Ro by lia. apply Hc. lia.
  - intros j Hj. destruct (decide (j = p)) as [->|].
    + by rewrite Rp, Rq.
    + rewrite !Ro by lia. apply Hd. lia.
Qed.

(** ** Bytes and words *)

Lemma land_byte b : is_byte b -> Z.land b 255 = b.
Proof. intros H. change 255 with (Z.ones 8). rewrite Z.land_ones by lia. by apply Z.mod_small. Qed.

Lemma is_byte_land x : is_byte (Z.land x 255).
Proof. apply land_255. Qed.

Lemma byte_high b n : is_byte b -> 8 <= n -> Z.testbit b n = false.
Proof.
  intros Hb Hn. rewrite <- (land_byte b Hb), Z.land_spec. change 255 with (Z.ones 8).
  rewrite (Z.ones_spec_high 8 n) by lia. apply andb_false_r.
Qed.

(** The bytes of a word do not overlap: [|] and [^] agree. *)
Lemma word_lor a b c d : is_byte a -> is_byte b -> is_byte c -> is_byte d ->
  Z.lor (Z.lor (Z.lor (Z.shiftl a 24) (Z.shiftl b 16)) (Z.shiftl c 8)) d = word a b c d.
Proof.
  intros Ha Hb Hc Hd. unfold word. apply Z.bits_inj'; intros n Hn.
  rewrite !Z.lxor_spec, !Z.lor_spec, !Z.shiftl_spec by lia.
  assert (L : forall x k, is_byte x -> n - k < 0 \/ 8 <= n - k -> Z.testbit x (n - k) = false).
  { intros x k Hx [?|?]; [by apply Z.testbit_neg_r | by apply byte_high]. }
  destruct (decide (n < 8)); [|destruct (decide (n < 16)); [|destruct (decide (n < 24))]].
  - rewrite (L a 24), (L b 16), (L c 8) by (done || lia). by destruct (Z.testbit d n).
  - rewrite (L a 24), (L b 16), (byte_high d n) by (done || lia). by destruct (Z.testbit c _).
  - rewrite (L a 24), (L c 8), (byte_high d n) by (done || lia). by destruct (Z.testbit b _).
  - rewrite (L b 16), (L c 8), (byte_high d n) by (done || lia). by destruct (Z.testbit a _).
Qed.

Lemma be32_bytes w : Forall is_byte (be32 w).
Proof. repeat constructor; apply land_255. Qed.

Lemma GET32_spec b z off : z = Z.of_nat off -> Forall is_byte b -> (off + 3 < length b)%nat ->
  GET32 b z = Ok (be_word b off).
Proof.
  intros -> Hb Hl.
  assert (R : forall k, (k < 4)%nat -> rd b (Z.of_nat off + Z.of_nat k) = Ok (b !!! (off + k)%nat)).
  { intros k Hk. apply rd_Some; [lia|].
    replace (Z.to_nat (Z.of_nat off + Z.of_nat k)) with (off + k)%nat by lia.
    apply list_lookup_lookup_total_lt. lia. }
  assert (B : forall k, (k < 4)%nat -> is_byte (b !!! (off + k)%nat)).
  { intros k Hk. eapply Forall_lookup_total_1; [done|lia]. }
  pose proof (R 0%nat ltac:(lia)) as R0. rewrite Z.add_0_r, Nat.add_0_r in R0.
  pose proof (B 0%nat ltac:(lia)) as B0. rewrite Nat.add_0_r in B0.
  unfold GET32. change 3 with (Z.of_nat 3). change 2 with (Z.of_nat 2). change 1 with (Z.of_nat 1).
  rewrite R0, !R by lia. mon. unfold be_word. rewrite word_lor; auto with lia.
Qed.

(** ** The steps of the generator *)

Lemma feedback_spec s g : rep s g -> lfsr_feedback s = Ok (feedback g).
Proof.
  intros Hr. unfold lfsr_feedback.
  rewrite !(rep_get s g) by (done || lia). mon.
  rewrite MULa_ok by apply land_255. mon. rewrite DIVa_ok by apply land_255. mon.
  unfold feedback. cbv zeta. f_equal.
  change (Z.to_nat 0) with 0%nat. change (Z.to_nat 2) with 2%nat. change (Z.to_nat 11) with 11%nat.
  unfold byte. change (24 - 8 * 0) with 24. change (24 - 8 * 1) with 16. change (24 - 8 * 2) with 8.
  change (24 - 8 * 3) with 0. rewrite !Z.shiftr_0_r.
  rewrite <- !word_lor by (apply land_255 || done).
  by rewrite Z.shiftl_0_l, Z.lor_0_r, Z.lor_0_l.
Qed.

Lemma fsm_spec s g : rep s g ->
  exists s', clock_fsm s = Ok (fsm_out g, s') /\ rep s' (fsm_next g).
Proof.
  intros Hr. unfold clock_fsm. rewrite !(rep_get s g) by (done || lia). mon.
  rewrite s1_spec, s2_spec. mon. destruct Hr as [? ? ? ? ? E1 E2 E3].
  eexists. split; [by rewrite E1, E2|].
  constructor; cbn; try done; by rewrite ?E1, ?E2, ?E3.
Qed.

Lemma init_step_spec s g : rep s g ->
  exists s', ('(f, s) ← clock_fsm s; lfsr_init s f) = Ok s' /\ rep s' (init_step g).
Proof.
  intros Hr. destruct (fsm_spec s g Hr) as (s1 & E & H1). rewrite E. mon.
  unfold lfsr_init. rewrite (feedback_spec _ _ H1). mon. by apply rep_shift.
Qed.

Lemma key_step_spec s g : rep s g ->
  exists s', generate_keystream_step s = Ok (output g, s') /\ rep s' (key_step g).
Proof.
  intros Hr. unfold generate_keystream_step.
  destruct (fsm_spec s g Hr) as (s1 & E & H1). rewrite E. mon.
  rewrite (rep_get s1 _ 0 H1) by lia. mon.
  unfold lfsr_keystream. rewrite (feedback_spec _ _ H1). mon.
  destruct (rep_shift _ _ (feedback (fsm_next g)) H1) as (s2 & E2 & H2). rewrite E2. mon. eauto.
Qed.

(** ** Initialisation *)

Lemma rep_load l : length l = 16%nat ->
  rep (mk_snow3g (map Some l ++ replicate 16 None) 0 0 0 0) (mk_gen l 0 0 0).
Proof.
  intros Hl. constructor; cbn [ring pos reg r1 r2 r3 R1 R2 R3]; try done; try lia.
  - by rewrite length_app, length_map, length_replicate, Hl.
  - intros i Hi. change (Z.to_nat 0 + i)%nat with i. rewrite lookup_app_l by (rewrite length_map; lia).
    rewrite list_lookup_fmap, (list_lookup_lookup_total_lt l i) by lia. done.
Qed.

(** The key in the order of the specification. *)
Lemma reorder_key_ok key : Forall is_byte key -> length key = 16%nat ->
  exists k, reorder_key key = Ok k /\ Forall is_byte k /\ length k = 16%nat /\
    forall i, (i < 4)%nat -> be_word k (4 * i) = be_word key (12 - 4 * i).
Proof.
  intros Hk Hl. do 17 (destruct key as [|? key]; try done). clear Hl.
  repeat match goal with H : Forall _ (_ :: _) |- _ => inversion H as [|? ? ? H']; subst; clear H; rename H' into H end.
  eexists. split; [reflexivity|]. split; [|split; [done|]].
  - by repeat (apply Forall_cons_2; [done|]).
  - intros i Hi. do 4 (destruct i as [|i]; [reflexivity|]). lia.
Qed.

Lemma init_spec key k iv : Forall is_byte k -> length k = 16%nat -> Forall is_byte iv -> length iv = 16%nat ->
  (forall i, (i < 4)%nat -> be_word k (4 * i) = be_word key (12 - 4 * i)) ->
  exists s, snow3g_init k iv = Ok s /\ rep s (start key iv).
Proof.
  intros Bk Lk Bi Li Hk. unfold snow3g_init.
  rewrite (GET32_spec k 0 0) by (done || lia). mon. rewrite (GET32_spec k 4 4) by (done || lia). mon.
  rewrite (GET32_spec k 8 8) by (done || lia). mon. rewrite (GET32_spec k 12 12) by (done || lia). mon.
  rewrite (GET32_spec iv 0 0) by (done || lia). mon. rewrite (GET32_spec iv 4 4) by (done || lia). mon.
  rewrite (GET32_spec iv 8 8) by (done || lia). mon. rewrite (GET32_spec iv 12 12) by (done || lia). mon.
  pose proof (Hk 0%nat ltac:(lia)) as K0. pose proof (Hk 1%nat ltac:(lia)) as K1.
  pose proof (Hk 2%nat ltac:(lia)) as K2. pose proof (Hk 3%nat ltac:(lia)) as K3.
  cbn [Nat.mul Nat.add Nat.sub] in K0, K1, K2, K3. rewrite K0, K1, K2, K3. clear K0 K1 K2 K3.
  destruct (for_loop_inv (fun j s => rep s (Nat.iter (Z.to_nat j) init_step (initial key iv))) 0 32
    (fun _ s => '(f, s) ← clock_fsm s; lfsr_init s f)
    (mk_snow3g (map Some (reg (initial key iv)) ++ replicate 16 None) 0 0 0 0)) as (s & E & Hs).
  { lia. }
  { by apply rep_load. }
  { intros j s Hj Hs. destruct (init_step_spec _ _ Hs) as (s' & E & Hs'). exists s'. split; [done|].
    by replace (Z.to_nat (j + 1)) with (S (Z.to_nat j)) by lia. }
  cbn [initial reg Nat.mul Nat.add Nat.sub] in E. rewrite E. mon.
  destruct (fsm_spec _ _ Hs) as (s1 & E1 & H1). rewrite E1. mon.
  unfold lfsr_keystream. rewrite (feedback_spec _ _ H1). mon. by apply rep_shift.
Qed.

(** ** Ciphering *)

Definition keystream_of (g : gen) (n : nat) : bytes := concat (map be32 (keystream n g)).

Lemma keystream_snoc n g :
  keystream (S n) g = keystream n g ++ [output (Nat.iter n key_step g)].
Proof.
  revert g. induction n as [|n IH]; intros g; [done|].
  change (keystream (S (S n)) g) with (output g :: keystream (S n) (key_step g)).
  rewrite IH. cbn [keystream app]. do 3 f_equal. by rewrite Nat.iter_succ_r.
Qed.

Lemma length_keystream_of g n : length (keystream_of g n) = (4 * n)%nat.
Proof.
  unfold keystream_of. revert g. induction n as [|n IH]; intros g; [done|].
  cbn [keystream map concat]. rewrite length_app, IH. cbn. lia.
Qed.

Lemma keystream_of_bytes g n : Forall is_byte (keystream_of g n).
Proof.
  unfold keystream_of. revert g. induction n as [|n IH]; intros g; cbn [keystream map concat];
    [constructor|]. apply Forall_app. split; [apply be32_bytes | apply IH].
Qed.

Lemma keystream_bytes_spec n s g : rep s g -> 0 <= n ->
  exists s', keystream_bytes n s = Ok (keystream_of g (Z.to_nat n), s').
Proof.
  intros Hr Hn. unfold keystream_bytes.
  destruct (for_loop_inv (fun j '(ks, s) => ks = keystream_of g (Z.to_nat j) /\
              rep s (Nat.iter (Z.to_nat j) key_step g)) 0 n
    (fun _ '(ks, s) => '(w, s) ← generate_keystream_step s; mret (ks ++ be32 w, s)) ([], s))
    as ([ks s'] & E & Hks & _); [done|done| |by rewrite E, Hks; eauto].
  intros j [ks t] Hj [-> Ht]. destruct (key_step_spec _ _ Ht) as (t' & E & Ht'). rewrite E. mon.
  eexists. split; [reflexivity|]. replace (Z.to_nat (j + 1)) with (S (Z.to_nat j)) by lia.
  split; [|done]. unfold keystream_of. rewrite keystream_snoc, map_app, concat_app. cbn [map concat]. by rewrite app_nil_r.
Qed.

Lemma xor_loop inp ks len : 0 <= len -> len <= zlen inp -> len <= zlen ks ->
  for_loop 0 len (fun i out => a ← rd inp i; b ← rd ks i; mret (out ++ [Z.lxor a b])) [] =
    Ok (zip_with Z.lxor (take (Z.to_nat len) inp) ks).
Proof.
  intros H0 H1 H2.
  destruct (for_loop_inv (fun j out => out = zip_with Z.lxor (take (Z.to_nat j) inp) ks) 0 len
    (fun i out => a ← rd inp i; b ← rd ks i; mret (out ++ [Z.lxor a b])) []) as (out & E & ->);
    [done|done| |done].
  intros j out Hj ->. destruct (rd_ok inp j) as (a & Ea & La); [lia|].
  destruct (rd_ok ks j) as (b & Eb & Lb); [lia|]. rewrite Ea. mon. rewrite Eb. mon.
  eexists. split; [reflexivity|]. replace (Z.to_nat (j + 1)) with (S (Z.to_nat j)) by lia.
  unfold zlen in *. rewrite (take_S_r _ _ a) by done.
  rewrite <- (take_drop_middle ks (Z.to_nat j) b Lb).
  rewrite <- (app_nil_r (take (Z.to_nat j) inp)) at 1.
  rewrite !zip_with_app by (rewrite !length_take; lia). cbn. by rewrite app_nil_r.
Qed.

Lemma ciphering_iv_ok count bearer direction :
  Forall is_byte (ciphering_iv count bearer direction) /\ length (ciphering_iv count bearer direction) = 16%nat.
Proof.
  split; [|done]. unfold ciphering_iv.
  assert (is_byte (u8 (Z.lor (Z.shiftl bearer 3) (Z.shiftl direction 2)))) as B
    by (apply Z.mod_pos_bound; lia).
  repeat (apply Forall_app; split); try apply be32_bytes;
    (apply Forall_cons_2; [exact B|]);
    repeat (apply Forall_cons_2; [unfold is_byte; lia|]); constructor.
Qed.

(** Functional specification of [snow3g_ciphering]. *)
Definition cipher_keystream (key : bytes) (count bearer direction len : Z) : bytes :=
  keystream_of (start key (ciphering_iv count bearer direction)) (Z.to_nat ((u32 len + 3) / 4)).

Lemma cipher_keystream_length key count bearer direction len : 0 <= len < 2 ^ 32 ->
  (Z.to_nat len <= length (cipher_keystream key count bearer direction len))%nat.
Proof.
  intros Hlen. unfold cipher_keystream. rewrite length_keystream_of.
  replace (u32 len) with len by (symmetry; apply Z.mod_small; lia).
  pose proof (Z.div_mod (len + 3) 4). pose proof (Z.mod_pos_bound (len + 3) 4). lia.
Qed.

Lemma ciphering_spec count bearer direction key len inp :
  Forall is_byte key -> length key = 16%nat -> 0 <= len < 2 ^ 32 -> len <= zlen inp ->
  snow3g_ciphering count bearer direction key len inp =
    Ok (zip_with Z.lxor (take (Z.to_nat len) inp) (cipher_keystream key count bearer direction len)).
Proof.
  intros Bk Lk Hlen Hin. destruct (ciphering_iv_ok count bearer direction) as [Bi Li].
  destruct (reorder_key_ok key Bk Lk) as (k & E & Bk' & Lk' & Hk).
  unfold snow3g_ciphering. rewrite E. mon.
  destruct (init_spec key k _ Bk' Lk' Bi Li Hk) as (s & Es & Hs). rewrite Es. mon.
  assert (Hu : u32 len = len) by (apply Z.mod_small; lia).
  assert (0 <= (len + 3) / 4) by (apply Z.div_pos; lia).
  destruct (keystream_bytes_spec ((u32 len + 3) / 4) s _ Hs) as (s' & Eks); [rewrite Hu; lia|].
  rewrite Eks. mon. apply xor_loop; [lia|done|].
  pose proof (cipher_keystream_length key count bearer direction len Hlen). unfold zlen. lia.
Qed.

Lemma zip_lxor_involutive (l k : list Z) : (length l <= length k)%nat ->
  zip_with Z.lxor (zip_with Z.lxor l k) k = l.
Proof.
  revert k. induction l as [|x l IH]; intros [|y k] H; cbn in *; try done; try lia.
  rewrite IH by lia. by rewrite Z.lxor_assoc, Z.lxor_nilpotent, Z.lxor_0_r.
Qed.


(** SNOW 3G ciphering is a stream cipher: with a 16-byte key it succeeds on every
    buffer, keeps its length, and applying it twice with the same count, bearer and
    direction gives the buffer back. *)
Theorem snow3g_ciphering_involutive (count bearer direction : Z) (key inp : bytes) :
  Forall is_byte key -> length key = 16%nat -> zlen inp < 2 ^ 32 ->
  exists out, snow3g_ciphering count bearer direction key (zlen inp) inp = Ok out /\
    length out = length inp /\
    snow3g_ciphering count bearer direction key (zlen out) out = Ok inp.
Proof.
  intros Bk Lk Hl. pose proof (zlen_nonneg inp).
  pose proof (cipher_keystream_length key count bearer direction (zlen inp)) as Hks.
  set (ks := cipher_keystream key count bearer direction (zlen inp)) in *.
  assert (Ei : Z.to_nat (zlen inp) = length inp) by (unfold zlen; lia). rewrite Ei in Hks.
  specialize (Hks ltac:(lia)).
  exists (zip_with Z.lxor inp ks).
  assert (Lo : length (zip_with Z.lxor inp ks) = length inp) by (rewrite length_zip_with; lia).
  assert (Zo : zlen (zip_with Z.lxor inp ks) = zlen inp) by (unfold zlen; lia).
  rewrite !ciphering_spec by (done || lia). rewrite Zo. fold ks. rewrite Ei.
  rewrite !firstn_all2 by lia. split; [done|split; [done|]].
  by rewrite zip_lxor_involutive.
Qed.

(** The 3GPP key of test set 1. *)
Definition test_key : bytes :=
  [0x2B; 0xD6; 0x45; 0x9F; 0x82; 0xC5; 0xB3; 0x00; 0x95; 0x2C; 0x49; 0x10; 0x48; 0x81; 0xFF; 0x48].

Lemma test_key_ok : Forall is_byte test_key /\ length test_key = 16%nat.
Proof. split; [|done]. repeat (apply Forall_cons_2; [unfold is_byte; lia|]). constructor. Qed.


(** Test set 1 of the specification, quoted in [snow3g.c]. *)
Example snow3g_test_set_1 :
  snow3g_ciphering 0x72A4F20F 0x0c 1 test_key 8 [0x7E; 0xC6; 0x12; 0x72; 0x74; 0x3B; 0xF1; 0x61] =
    Ok [0x8C; 0xEB; 0xA6; 0x29; 0x43; 0xDC; 0xED; 0x3A].
Proof. vm_compute. reflexivity. Qed.

Lemma snow3g_ciphering_involutive_witness :
  exists out, snow3g_ciphering 0x72A4F20F 0x0c 1 test_key 8 [0x7E; 0xC6; 0x12; 0x72; 0x74; 0x3B; 0xF1; 0x61] = Ok out /\
    length out = 8%nat /\
    snow3g_ciphering 0x72A4F20F 0x0c 1 test_key (zlen out) out = Ok [0x7E; 0xC6; 0x12; 0x72; 0x74; 0x3B; 0xF1; 0x61].
Proof.
  apply (snow3g_ciphering_involutive 0x72A4F20F 0x0c 1 test_key [0x7E; 0xC6; 0x12; 0x72; 0x74; 0x3B; 0xF1; 0x61]);
    apply test_key_ok || reflexivity.
Defined.
