(* ===== verification/Snow3gMac.v ===== *)
(** * SNOW 3G integrity: the precomputed multiplication table

    [_snow3g_integrity] multiplies by the constant [P] of GF(2{^64}) with a table
    of 8 x 256 words.  The table is proved to be the products of [P], the
    table-driven product to be the product [MUL64] of the specification, and the
    whole routine to compute the MAC the specification defines. *)

From S2P Require Import Prelude Snow3gTables Snow3g Snow3gSpec Snow3gStream.
Import Snow3g Spec.

(** ** Sums in GF(2) *)

Fixpoint xsum (n : nat) (f : nat -> Z) : Z :=
  match n with O => 0 | S n' => Z.lxor (xsum n' f) (f n') end.

Lemma xsum_ext n f g : (forall k, (k < n)%nat -> f k = g k) -> xsum n f = xsum n g.
Proof. induction n as [|n IH]; intros H; [done|]. cbn. rewrite IH, H by auto with lia. done. Qed.

Lemma xsum_add n m f : xsum (n + m) f = Z.lxor (xsum n f) (xsum m (fun k => f (n + k)%nat)).
Proof.
  induction m as [|m IH]; [by rewrite Nat.add_0_r, Z.lxor_0_r|].
  rewrite Nat.add_succ_r. cbn. rewrite IH. by rewrite Z.lxor_assoc.
Qed.

Lemma xsum_lxor n f g : xsum n (fun k => Z.lxor (f k) (g k)) = Z.lxor (xsum n f) (xsum n g).
Proof. induction n as [|n IH]; [done|]. cbn. rewrite IH. xor_ring. Qed.

Lemma xsum_zero n : xsum n (fun _ => 0) = 0.
Proof. induction n as [|n IH]; [done|]. cbn. by rewrite IH. Qed.

Lemma xsum_swap n m (f : nat -> nat -> Z) :
  xsum n (fun i => xsum m (fun j => f i j)) = xsum m (fun j => xsum n (fun i => f i j)).
Proof.
  induction n as [|n IH]; cbn; [by rewrite xsum_zero|]. by rewrite IH, <- xsum_lxor.
Qed.

(** A map that respects sums. *)
Lemma xsum_linear (h : Z -> Z) n f :
  h 0 = 0 -> (forall a b, h (Z.lxor a b) = Z.lxor (h a) (h b)) -> h (xsum n f) = xsum n (fun k => h (f k)).
Proof. intros H0 H. induction n as [|n IH]; [done|]. cbn. by rewrite H, IH. Qed.

(** [sel b x]: [x] if the bit is set. *)
Definition sel (b : bool) (x : Z) : Z := if b then x else 0.

Lemma sel_xorb a b x : sel (xorb a b) x = Z.lxor (sel a x) (sel b x).
Proof. destruct a, b; cbn; rewrite ?Z.lxor_nilpotent, ?Z.lxor_0_r, ?Z.lxor_0_l; done. Qed.

(** ** The product of GF(2{^64}) *)

Definition gmul (v p c : Z) : Z := xsum 64 (fun i => sel (Z.testbit p (Z.of_nat i)) (MULxPOW64 v i c)).

Lemma bit_test x i : 0 <= i -> negb (Z.land (Z.shiftr x i) 1 =? 0) = Z.testbit x i.
Proof.
  intros Hi. change 1 with (Z.ones 1). rewrite Z.land_ones by lia. change (2 ^ 1) with 2.
  rewrite Zmod_odd, Z.testbit_odd. by destruct (Z.odd _).
Qed.

Lemma mask_test x n : 0 <= n -> negb (Z.land x (2 ^ n) =? 0) = Z.testbit x n.
Proof.
  intros Hn. assert (B : forall m, Z.testbit (Z.land x (2 ^ n)) m = Z.testbit x m && (n =? m)).
  { intros m. by rewrite Z.land_spec, Z.pow2_bits_eqb by lia. }
  destruct (Z.eqb_spec (Z.land x (2 ^ n)) 0) as [E|E], (Z.testbit x n) eqn:T; try done.
  - specialize (B n). by rewrite E, Z.bits_0, T, Z.eqb_refl in B.
  - exfalso. apply E. apply Z.bits_inj'. intros m Hm. rewrite B, Z.bits_0.
    destruct (Z.eqb_spec n m); [subst; by rewrite T | apply andb_false_r].
Qed.

Lemma MUL64_spec v p c : MUL64 v p c = Ok (gmul v p c).
Proof.
  unfold MUL64.
  destruct (for_loop_inv (fun j r => r = xsum (Z.to_nat j) (fun i => sel (Z.testbit p (Z.of_nat i)) (MULxPOW64 v i c)))
    0 64 (fun i result => mret (if negb (Z.land (Z.shiftr p i) 1 =? 0)
                                then Z.lxor result (MULxPOW64 v (Z.to_nat i) c) else result)) 0)
    as (r & E & ->); [lia|done| |done].
  intros j r Hj ->. eexists. split; [reflexivity|].
  replace (Z.to_nat (j + 1)) with (S (Z.to_nat j)) by lia. cbn [xsum].
  rewrite Z2Nat.id by lia. rewrite bit_test by lia.
  destruct (Z.testbit p j); cbn [sel]; [done|]. by rewrite Z.lxor_0_r.
Qed.

Lemma MULx64_alt v c : MULx64 v c = Z.lxor (u64 (Z.shiftl v 1)) (sel (Z.testbit v 63) c).
Proof.
  unfold MULx64. rewrite Z.shiftl_1_l, mask_test by lia.
  destruct (Z.testbit v 63); cbn; by rewrite ?Z.lxor_0_r.
Qed.

Lemma u64_lxor a b : u64 (Z.lxor a b) = Z.lxor (u64 a) (u64 b).
Proof.
  unfold u64. rewrite <- !Z.land_ones by lia. apply Z.bits_inj'. intros n Hn.
  rewrite !Z.land_spec, !Z.lxor_spec, !Z.land_spec. 
  by destruct (Z.testbit a n), (Z.testbit b n), (Z.testbit _ n).
Qed.

Lemma MULx64_lxor a b c : MULx64 (Z.lxor a b) c = Z.lxor (MULx64 a c) (MULx64 b c).
Proof.
  rewrite !MULx64_alt, Z.shiftl_lxor, u64_lxor, Z.lxor_spec, sel_xorb. xor_ring.
Qed.

Lemma MULxPOW64_lxor a b i c :
  MULxPOW64 (Z.lxor a b) i c = Z.lxor (MULxPOW64 a i c) (MULxPOW64 b i c).
Proof. induction i as [|i IH]; [done|]. cbn. by rewrite IH, MULx64_lxor. Qed.

Lemma MULxPOW64_0 i c : MULxPOW64 0 i c = 0.
Proof. induction i as [|i IH]; [done|]. cbn. by rewrite IH. Qed.

Lemma MULxPOW64_add v i j c : MULxPOW64 (MULxPOW64 v i c) j c = MULxPOW64 v (i + j) c.
Proof. induction j as [|j IH]; [by rewrite Nat.add_0_r|]. rewrite Nat.add_succ_r. cbn. by rewrite IH. Qed.

Lemma MULxPOW64_1 i c : (i < 64)%nat -> MULxPOW64 1 i c = 2 ^ Z.of_nat i.
Proof.
  induction i as [|i IH]; intros H; [done|]. cbn [MULxPOW64]. rewrite IH by lia.
  rewrite MULx64_alt, Z.pow2_bits_eqb by lia.
  rewrite (proj2 (Z.eqb_neq _ 63)) by lia. cbn [sel].
  rewrite Z.lxor_0_r, Z.shiftl_mul_pow2 by lia. unfold u64. rewrite Nat2Z.inj_succ, Z.pow_succ_r by lia.
  rewrite Z.mod_small; [lia|]. split; [lia|]. rewrite <- (Z.pow_add_r 2 (Z.of_nat i) 1) by lia.
  apply Z.pow_lt_mono_r; lia.
Qed.

(** A 64-bit word is the sum of its bits. *)
Lemma bits_sum a : 0 <= a < 2 ^ 64 ->
  a = xsum 64 (fun j => sel (Z.testbit a (Z.of_nat j)) (2 ^ Z.of_nat j)).
Proof.
  intros Ha. assert (S : forall n m, 0 <= m ->
    Z.testbit (xsum n (fun j => sel (Z.testbit a (Z.of_nat j)) (2 ^ Z.of_nat j))) m =
      Z.testbit a m && (m <? Z.of_nat n)).
  { induction n as [|n IH]; intros m Hm; cbn [xsum].
    { rewrite Z.bits_0, (proj2 (Z.ltb_ge m _)) by lia. by rewrite andb_false_r. }
    rewrite Z.lxor_spec, IH by done. destruct (decide (m = Z.of_nat n)) as [->|Hne].
    - rewrite Z.ltb_irrefl, andb_false_r, xorb_false_l, (proj2 (Z.ltb_lt _ _)) by lia.
      destruct (Z.testbit a (Z.of_nat n)); cbn; [|by rewrite Z.bits_0].
      by rewrite Z.pow2_bits_eqb, Z.eqb_refl by lia.
    - assert (E : Z.testbit (sel (Z.testbit a (Z.of_nat n)) (2 ^ Z.of_nat n)) m = false).
      { destruct (Z.testbit a (Z.of_nat n)); cbn; [|by rewrite Z.bits_0].
        rewrite Z.pow2_bits_eqb by lia. apply Z.eqb_neq. lia. }
      rewrite E, xorb_false_r. f_equal. apply eq_bool_prop_intro. rewrite !Is_true_true, !Z.ltb_lt. lia. }
  apply Z.bits_inj'. intros m Hm. rewrite S by done.
  destruct (Z.ltb_spec m (Z.of_nat 64)); [by rewrite andb_true_r|]. rewrite andb_false_r.
  rewrite <- (Z.mod_small a (2 ^ 64)) by done. rewrite Z.mod_pow2_bits_high; [done|lia].
Qed.

Lemma gmul_double a b c : 0 <= a < 2 ^ 64 ->
  gmul a b c = xsum 64 (fun i => xsum 64 (fun j =>
    sel (Z.testbit b (Z.of_nat i)) (sel (Z.testbit a (Z.of_nat j)) (MULxPOW64 1 (j + i) c)))).
Proof.
  intros Ha. apply xsum_ext. intros i Hi. destruct (Z.testbit b (Z.of_nat i)); cbn [sel];
    [|by rewrite xsum_zero].
  rewrite (bits_sum a Ha) at 1.
  rewrite (xsum_linear (fun v => MULxPOW64 v i c));
    [|apply MULxPOW64_0|intros; apply MULxPOW64_lxor].
  apply xsum_ext. intros j Hj. destruct (Z.testbit a (Z.of_nat j)); cbn [sel];
    [|apply MULxPOW64_0].
  by rewrite <- (MULxPOW64_1 j c), MULxPOW64_add by lia.
Qed.

(** The product is commutative. *)
Lemma gmul_comm a b c : 0 <= a < 2 ^ 64 -> 0 <= b < 2 ^ 64 -> gmul a b c = gmul b a c.
Proof.
  intros Ha Hb. rewrite (gmul_double a b), (gmul_double b a) by done. rewrite xsum_swap.
  apply xsum_ext. intros i Hi. apply xsum_ext. intros j Hj.
  destruct (Z.testbit b (Z.of_nat j)), (Z.testbit a (Z.of_nat i)); cbn; try done.
  by rewrite Nat.add_comm.
Qed.

(** ** The precomputation table *)

(** The value of [pm[i][b]]: the product of [p] by the byte [b] at position [i]. *)
Definition entry (p i b : Z) : Z :=
  xsum 8 (fun k => sel (Z.testbit b (Z.of_nat k)) (MULxPOW64 p (Z.to_nat (8 * i) + k) 0x1b)).

Lemma entry_0 p i : entry p i 0 = 0.
Proof. reflexivity. Qed.

Lemma entry_lxor p i a b : entry p i (Z.lxor a b) = Z.lxor (entry p i a) (entry p i b).
Proof.
  unfold entry. rewrite <- xsum_lxor. apply xsum_ext. intros k _. by rewrite Z.lxor_spec, sel_xorb.
Qed.

Lemma entry_pow p i k : 0 <= k < 8 -> entry p i (2 ^ k) = MULxPOW64 p (Z.to_nat (8 * i) + Z.to_nat k) 0x1b.
Proof.
  intros Hk. unfold entry.
  assert (k = 0 \/ k = 1 \/ k = 2 \/ k = 3 \/ k = 4 \/ k = 5 \/ k = 6 \/ k = 7) as Hc by lia.
  repeat destruct Hc as [->|Hc]; try subst k; cbn -[MULxPOW64]; by rewrite ?Z.lxor_0_r, ?Z.lxor_0_l.
Qed.

Lemma pow_low_disjoint j k : 0 <= j -> 0 <= k < 2 ^ j -> 2 ^ j + k = Z.lxor (2 ^ j) k.
Proof.
  intros Hj Hk. apply Z.add_nocarry_lxor. apply Z.bits_inj'. intros n Hn.
  rewrite Z.land_spec, Z.pow2_bits_eqb, Z.bits_0 by done.
  destruct (Z.eqb_spec j n) as [<-|]; [|done]. rewrite andb_true_l.
  rewrite <- (Z.mod_small k (2 ^ j)) by done. by apply Z.mod_pow2_bits_high.
Qed.

Definition wf_table (pm : table) : Prop :=
  length pm = 8%nat /\ Forall (fun row => length row = 256%nat) pm.

Definition at_ (pm : table) (i j : Z) : option Z :=
  row ← pm !! Z.to_nat i; mjoin (row !! Z.to_nat j).

Lemma pm_get_at pm i j v : 0 <= i -> 0 <= j -> at_ pm i j = Some v -> pm_get pm i j = Ok v.
Proof.
  intros Hi Hj E. unfold at_ in E. apply bind_Some in E as (row & Er & E).
  destruct (row !! Z.to_nat j) as [[v'|]|] eqn:Ej; try done. injection E as ->.
  unfold pm_get. rewrite (rd_Some _ _ _ Hi Er). mon. by rewrite (rd_Some _ _ _ Hj Ej).
Qed.

Lemma pm_set_at pm i j v : wf_table pm -> 0 <= i < 8 -> 0 <= j < 256 ->
  exists pm', pm_set pm i j v = Ok pm' /\ wf_table pm' /\
    forall a b, 0 <= a -> 0 <= b ->
      at_ pm' a b = if decide (a = i /\ b = j) then Some v else at_ pm a b.
Proof.
  intros [Hl Hf] Hi Hj. unfold pm_set.
  destruct (rd_ok pm i) as (row & Er & Lr); [unfold zlen; lia|]. rewrite Er. mon.
  pose proof (Forall_lookup_1 _ _ _ _ Hf Lr) as Hrow. cbn in Hrow.
  rewrite wr_ok by (unfold zlen; lia). mon. rewrite wr_ok by (unfold zlen; lia).
  eexists. split; [reflexivity|]. split.
  - split; [by rewrite length_insert|]. apply Forall_insert; [done|]. by rewrite length_insert.
  - intros a b Ha Hb. unfold at_. destruct (decide (a = i)) as [->|Hne].
    + rewrite list_lookup_insert_eq by lia. rewrite Lr. cbn [mbind option_bind].
      destruct (decide (b = j)) as [->|Hne].
      * rewrite list_lookup_insert_eq by lia. by rewrite decide_True.
      * rewrite list_lookup_insert_ne by lia. rewrite decide_False by tauto. done.
    + rewrite list_lookup_insert_ne by lia. rewrite decide_False by tauto. done.
Qed.

(** The cells of [D] are filled and right. *)
Definition filled (p : Z) (D : Z -> Z -> Prop) (pm : table) : Prop :=
  wf_table pm /\ forall a b, 0 <= a < 8 -> 0 <= b < 256 -> D a b -> at_ pm a b = Some (entry p a b).

Lemma filled_get p D pm i j : filled p D pm -> 0 <= i < 8 -> 0 <= j < 256 -> D i j ->
  pm_get pm i j = Ok (entry p i j).
Proof. intros [_ H] Hi Hj HD. apply pm_get_at; [lia|lia|]. by apply H. Qed.

Lemma filled_set p (D D' : Z -> Z -> Prop) pm i j v : filled p D pm -> 0 <= i < 8 -> 0 <= j < 256 ->
  v = entry p i j -> (forall a b, 0 <= a < 8 -> 0 <= b < 256 -> D' a b -> D a b \/ (a = i /\ b = j)) ->
  exists pm', pm_set pm i j v = Ok pm' /\ filled p D' pm'.
Proof.
  intros [Hw HD] Hi Hj -> Hs. destruct (pm_set_at pm i j (entry p i j) Hw Hi Hj) as (pm' & E & Hw' & Ha).
  exists pm'. split; [done|]. split; [done|]. intros a b Hab Hb Hd.
  rewrite Ha by lia. case_decide as Hc; [destruct Hc; by subst|].
  apply HD; [done|done|]. destruct (Hs a b Hab Hb Hd); tauto.
Qed.

(** Overwriting a cell outside [D] keeps [D] filled. *)
Lemma filled_other p (D : Z -> Z -> Prop) pm i j v : filled p D pm -> 0 <= i < 8 -> 0 <= j < 256 -> ~ D i j ->
  exists pm', pm_set pm i j v = Ok pm' /\ filled p D pm' /\ at_ pm' i j = Some v.
Proof.
  intros [Hw HD] Hi Hj Hn. destruct (pm_set_at pm i j v Hw Hi Hj) as (pm' & E & Hw' & Ha).
  exists pm'. split; [done|]. split; [split; [done|]|].
  - intros a b Hab Hb Hd. rewrite Ha by lia. rewrite decide_False; [by apply HD|]. by intros [-> ->].
  - rewrite Ha by lia. by rewrite decide_True.
Qed.

Lemma pm_start_spec p : exists pm, pm_start p = Ok pm /\
  filled p (fun a b => b = 0 \/ (a = 0 /\ b = 1)) pm.
Proof.
  unfold pm_start.
  destruct (for_loop_inv (fun i => filled p (fun a b => b = 0 /\ a < i)) 0 8
    (fun i pm => pm_set pm i 0 0) (replicate 8 (replicate 256 None))) as (pm & E & H).
  { lia. }
  { split; [|intros; lia]. split; [done|]. apply Forall_replicate. apply length_replicate. }
  { intros i pm Hi H. eapply filled_set; [done|lia|lia|by rewrite entry_0|]. cbn. intros. lia. }
  rewrite E. mon. eapply filled_set; [done|lia|lia| |].
  - change 1 with (2 ^ 0). by rewrite entry_pow by lia.
  - cbn. intros. lia.
Qed.

Definition power (b k : Z) : Prop := 0 <= k < 8 /\ b = 2 ^ k.

Lemma power_inj b k k' : power b k -> power b k' -> k = k'.
Proof. intros [? ->] [? E]. apply (Z.pow_inj_r 2); lia. Qed.

Lemma pow_byte k : 0 <= k < 8 -> 1 <= 2 ^ k < 256.
Proof.
  intros H. split; [pose proof (Z.pow_pos_nonneg 2 k); lia|].
  change 256 with (2 ^ 8). apply Z.pow_lt_mono_r; lia.
Qed.

Lemma split8 i : 0 <= i -> i = 8 * Z.shiftr i 3 + Z.land i 7 /\ 0 <= Z.land i 7 < 8.
Proof.
  intros Hi. change 7 with (Z.ones 3). rewrite Z.land_ones, Z.shiftr_div_pow2 by lia.
  change (2 ^ 3) with 8. pose proof (Z.div_mod i 8). pose proof (Z.mod_pos_bound i 8). lia.
Qed.

(** The cells filled before step [i] of the loop over the powers. *)
Definition powers_below (i a b : Z) : Prop := b = 0 \/ exists k, power b k /\ 8 * a + k < i.

Lemma powers_below_next i a k x b : i = 8 * a + k -> 0 <= k < 8 ->
  powers_below (i + 1) x b -> powers_below i x b \/ (x = a /\ b = 2 ^ k).
Proof.
  intros Ei Hk [->|(k0 & [Hk0 ->] & ?)]; [by left; left|].
  destruct (decide (8 * x + k0 < i)); [left; right; exists k0; by split|].
  right. assert (x = a /\ k0 = k) as [-> ->] by lia. done.
Qed.

Lemma powers_below_fresh i a k : i = 8 * a + k -> 0 <= k < 8 -> ~ powers_below i a (2 ^ k).
Proof.
  intros Ei Hk. pose proof (pow_byte k Hk). intros [?|(k0 & Hp & ?)]; [lia|].
  assert (k0 = k) by (eapply power_inj; [exact Hp | by split]). lia.
Qed.

Lemma pm_power_step_spec p i pm : 1 <= i < 64 -> filled p (powers_below i) pm ->
  exists pm', pm_power_step i pm = Ok pm' /\ filled p (powers_below (i + 1)) pm'.
Proof.
  intros Hi H. unfold pm_power_step.
  destruct (split8 i ltac:(lia)) as [Ei Bi]. destruct (split8 (i - 1) ltac:(lia)) as [Ej Bj].
  set (a := Z.shiftr i 3) in *. set (k := Z.land i 7) in *.
  set (a' := Z.shiftr (i - 1) 3) in *. set (k' := Z.land (i - 1) 7) in *.
  rewrite !Z.shiftl_1_l. pose proof (pow_byte k Bi) as Pk. pose proof (pow_byte k' Bj) as Pk'.
  assert (D : powers_below i a' (2 ^ k')) by (right; exists k'; split; [done|lia]).
  rewrite (filled_get p _ pm a' (2 ^ k') H) by (lia || done). mon.
  destruct (filled_other p _ pm a (2 ^ k) (u64 (Z.shiftl (entry p a' (2 ^ k')) 1)) H) as (pm1 & E1 & H1 & A1);
    [lia|lia|by apply powers_below_fresh|]. rewrite E1. mon.
  rewrite (filled_get p _ pm1 a' (2 ^ k') H1) by (lia || done). mon.
  change 0x8000000000000000 with (2 ^ 63). rewrite mask_test by lia.
  assert (EE : entry p a (2 ^ k) = MULx64 (entry p a' (2 ^ k')) 0x1b).
  { rewrite !entry_pow by done.
    replace (Z.to_nat (8 * a) + Z.to_nat k)%nat with (S (Z.to_nat (8 * a') + Z.to_nat k')) by lia. done. }
  rewrite MULx64_alt in EE.
  destruct (Z.testbit (entry p a' (2 ^ k')) 63); cbn [sel] in EE.
  - rewrite (pm_get_at pm1 a (2 ^ k) _) by (lia || exact A1). mon.
    eapply filled_set; [exact H1|lia|lia|done|]. intros x b _ _. by apply powers_below_next.
  - exists pm1. split; [done|]. destruct H1 as [Hw1 Hd1]. split; [done|].
    intros x b Hx Hb HD. destruct (powers_below_next i a k x b Ei Bi HD) as [?|[-> ->]]; [by apply Hd1|].
    by rewrite A1, EE, Z.lxor_0_r.
Qed.

(** After the loop over the powers, the cells [0] and [2^k] of every row. *)
Lemma pm_powers_spec p pm : filled p (fun a b => b = 0 \/ (a = 0 /\ b = 1)) pm ->
  exists pm', pm_powers pm = Ok pm' /\ filled p (fun a b => b = 0 \/ exists k, power b k) pm'.
Proof.
  intros [Hw Hd]. unfold pm_powers.
  destruct (for_loop_inv (fun i => filled p (powers_below i)) 1 64 pm_power_step pm) as (pm' & E & [Hw' Hd']).
  - lia.
  - split; [done|]. intros a b Ha Hb [->|(k & [Hk ->] & Hi)]; apply Hd; try lia.
    right. assert (k = 0) as -> by lia. split; [lia|done].
  - intros i t Hi H. by apply pm_power_step_spec.
  - exists pm'. split; [exact E|]. split; [done|]. intros a b Ha Hb [->|(k & Hp)]; apply Hd'; try lia.
    { by left. } right. exists k. split; [done|]. destruct Hp. lia.
Qed.

(** The cells filled while row [i] is being completed up to column [m]. *)
Definition sums_below (i m a b : Z) : Prop :=
  b = 0 \/ (exists k, power b k) \/ a < i \/ (a = i /\ b < m).

Lemma filled_weaken p (D D' : Z -> Z -> Prop) pm : filled p D pm ->
  (forall a b, 0 <= a < 8 -> 0 <= b < 256 -> D' a b -> D a b) -> filled p D' pm.
Proof. intros [Hw Hd] H. split; [done|]. intros a b Ha Hb HD. apply Hd; auto. Qed.

(** The innermost step: [pm[i][(1 << j) + k] = pm[i][1 << j] ^ pm[i][k]]. *)
Lemma pm_sum_step_spec p i j k pm : 0 <= i < 8 -> 1 <= j < 8 -> 1 <= k < 2 ^ j ->
  filled p (sums_below i (2 ^ j + k)) pm ->
  exists pm', (a ← pm_get pm i (2 ^ j); b ← pm_get pm i k;
               pm_set pm i (2 ^ j + k) (Z.lxor a b)) = Ok pm' /\
    filled p (sums_below i (2 ^ j + (k + 1))) pm'.
Proof.
  intros Hi Hj Hk H.
  assert (2 ^ (j + 1) <= 256) by (change 256 with (2 ^ 8); apply Z.pow_le_mono_r; lia).
  rewrite Z.pow_add_r in * by lia. change (2 ^ 1) with 2 in *.
  rewrite (filled_get p _ pm i (2 ^ j) H) by (lia || (right; left; exists j; split; [lia|done])). mon.
  rewrite (filled_get p _ pm i k H) by (lia || (do 3 right; lia)). mon.
  eapply filled_set; [exact H|lia|lia| |].
  - rewrite pow_low_disjoint by lia. by rewrite entry_lxor.
  - intros a b _ _ [?|[?|[?|[? ?]]]]; [left; by left|left; right; by left|left; do 2 right; by left|].
    destruct (decide (b = 2 ^ j + k)); [by right|]. left. do 3 right. lia.
Qed.

Lemma pm_sums_spec p pm : filled p (fun a b => b = 0 \/ exists k, power b k) pm ->
  exists pm', pm_sums pm = Ok pm' /\ filled p (fun _ _ => True) pm'.
Proof.
  intros H0. unfold pm_sums.
  match goal with |- exists _, for_loop 0 8 ?f pm = _ /\ _ =>
    destruct (for_loop_inv (fun i => filled p (sums_below i 0)) 0 8 f pm) as (pm' & E & H) end.
  - lia.
  - eapply filled_weaken; [exact H0|]. intros a b Ha Hb [?|[?|[?|[? ?]]]]; [by left|by right|lia|lia].
  - clear pm H0. intros i pm Hi H. cbn beta.
    match goal with |- exists _, for_loop 1 8 ?f pm = _ /\ _ =>
      destruct (for_loop_inv (fun j => filled p (sums_below i (2 ^ j))) 1 8 f pm) as (pm' & E & H') end.
    + lia.
    + eapply filled_weaken; [exact H|]. change (2 ^ 1) with 2.
      intros a b Ha Hb [?|[?|[?|[? ?]]]]; [by left|right; by left|do 2 right; by left|].
      destruct (decide (b = 0)); [by left|]. right; left. exists 0. split; [lia|]. change (2 ^ 0) with 1. lia.
    + clear pm H. intros j pm Hj H. cbn beta. rewrite Z.shiftl_1_l.
      match goal with |- exists _, for_loop 1 _ ?f pm = _ /\ _ =>
        destruct (for_loop_inv (fun k => filled p (sums_below i (2 ^ j + k))) 1 (2 ^ j) f pm) as (pm' & E & H') end.
      * pose proof (pow_byte j). lia.
      * eapply filled_weaken; [exact H|].
        intros a b Ha Hb [?|[?|[?|[? ?]]]]; [by left|right; by left|do 2 right; by left|].
        destruct (decide (b = 2 ^ j)); [right; left; exists j; split; [lia|done]|]. do 3 right. lia.
      * intros k t Hk Ht. by apply pm_sum_step_spec.
      * exists pm'. split; [exact E|]. by replace (2 ^ (j + 1)) with (2 ^ j + 2 ^ j) by (rewrite Z.pow_add_r by lia; lia).
    + exists pm'. split; [exact E|]. eapply filled_weaken; [exact H'|]. change (2 ^ 8) with 256.
      intros a b Ha Hb [?|[?|[?|[? ?]]]]; [by left|right; by left| |lia].
      destruct (decide (a = i)); [do 3 right; lia | do 2 right; left; lia].
  - exists pm'. split; [exact E|]. eapply filled_weaken; [exact H|]. intros a b Ha Hb _. do 2 right. left. lia.
Qed.

Lemma precompute_spec p : exists pm, precompute p = Ok pm /\ filled p (fun _ _ => True) pm.
Proof.
  unfold precompute. destruct (pm_start_spec p) as (t1 & E1 & H1). rewrite E1. mon.
  destruct (pm_powers_spec p t1 H1) as (t2 & E2 & H2). rewrite E2. mon. by apply pm_sums_spec.
Qed.

Lemma byte_bits x i k : 0 <= i -> (k < 8)%nat ->
  Z.testbit (Z.land (Z.shiftr x (8 * i)) 255) (Z.of_nat k) = Z.testbit x (Z.of_nat (Z.to_nat (8 * i) + k)).
Proof.
  intros Hi Hk. rewrite Z.land_spec. change 255 with (Z.ones 8).
  rewrite Z.ones_spec_low, andb_true_r, Z.shiftr_spec by lia. f_equal. lia.
Qed.

Lemma mul_p_spec p pm x : filled p (fun _ _ => True) pm -> mul_p pm x = Ok (gmul p x 0x1b).
Proof.
  intros H. unfold mul_p.
  rewrite !(filled_get p _ pm _ _ H) by (apply land_255 || lia || done). mon. f_equal.
  assert (E : forall i n, n = 8 * i -> 0 <= i -> entry p i (Z.land (Z.shiftr x n) 255) =
    xsum 8 (fun k => sel (Z.testbit x (Z.of_nat (Z.to_nat (8 * i) + k))) (MULxPOW64 p (Z.to_nat (8 * i) + k) 0x1b))).
  { intros i n -> Hi. apply xsum_ext. intros k Hk. by rewrite byte_bits. }
  rewrite <- (Z.shiftr_0_r x) at 1.
  rewrite (E 0 0), (E 1 8), (E 2 16), (E 3 24), (E 4 32), (E 5 40), (E 6 48), (E 7 56) by lia.
  unfold gmul. change 64%nat with (8 + (8 + (8 + (8 + (8 + (8 + (8 + 8)))))))%nat.
  rewrite !xsum_add, !Z.lxor_assoc. reflexivity.
Qed.

(** The precomputed table is a multiplication: for any [P] the loops fill the whole
    8 x 256 table, and for every 64-bit word the eight look-ups of [mul_p] give the
    product computed bit by bit by the reference routine [MUL64], in either order of
    the arguments. *)
Theorem snow3g_table_multiplies (p x : Z) : 0 <= p < 2 ^ 64 -> 0 <= x < 2 ^ 64 ->
  exists pm, precompute p = Ok pm /\ mul_p pm x = MUL64 p x 0x1b /\ mul_p pm x = MUL64 x p 0x1b.
Proof.
  intros Hp Hx. destruct (precompute_spec p) as (pm & E & H). exists pm.
  rewrite (mul_p_spec p pm x H), !MUL64_spec, (gmul_comm x p) by done. done.
Qed.

Lemma snow3g_table_multiplies_witness :
  exists pm, precompute 0x123456789abcdef0 = Ok pm /\
    mul_p pm 0xfedcba9876543210 = MUL64 0x123456789abcdef0 0xfedcba9876543210 0x1b /\
    mul_p pm 0xfedcba9876543210 = MUL64 0xfedcba9876543210 0x123456789abcdef0 0x1b.
Proof. apply snow3g_table_multiplies; lia. Defined.

(** ** Ranges *)

Definition w32 (x : Z) : Prop := 0 <= x < 2 ^ 32.

Lemma lxor_w32 a b : w32 a -> w32 b -> w32 (Z.lxor a b).
Proof. apply lxor_bound. lia. Qed.

Lemma u32_w32 x : w32 (u32 x).
Proof. apply Z.mod_pos_bound. lia. Qed.

#[local] Hint Resolve lxor_w32 u32_w32 : l2.

Lemma word_w32 a b c d : is_byte a -> is_byte b -> is_byte c -> is_byte d -> w32 (word a b c d).
Proof.
  unfold is_byte. intros. unfold word. rewrite !Z.shiftl_mul_pow2 by lia.
  repeat apply lxor_w32; unfold w32; lia.
Qed.

Lemma tables_w32 : Forall (Forall w32) [s1_t0; s1_t1; s1_t2; s1_t3; s2_t0; s2_t1; s2_t2; s2_t3; mula; diva].
Proof.
  assert (E : forallb (forallb (fun x => (0 <=? x) && (x <? 2 ^ 32)))
    [s1_t0; s1_t1; s1_t2; s1_t3; s2_t0; s2_t1; s2_t2; s2_t3; mula; diva] = true) by (vm_compute; reflexivity).
  revert E. generalize [s1_t0; s1_t1; s1_t2; s1_t3; s2_t0; s2_t1; s2_t2; s2_t3; mula; diva]. intros l E.
  apply Forall_forall. intros t Ht. rewrite forallb_forall in E. specialize (E t (proj1 (list_elem_of_In _ _) Ht)).
  apply Forall_forall. intros x Hx. rewrite forallb_forall in E.
  specialize (E x (proj1 (list_elem_of_In _ _) Hx)). bool_prop. by split.
Qed.

Lemma rd_w32 tbl i v : Forall w32 tbl -> rd tbl i = Ok v -> w32 v.
Proof.
  unfold rd. intros H E. case_if; [done|]. destruct (tbl !! Z.to_nat i) eqn:L; [|done].
  injection E as ->. eapply Forall_lookup_1; done.
Qed.

Ltac table_range :=
  pose proof tables_w32 as T; rewrite !Forall_cons in T; destruct_and! T;
  repeat match goal with
  | H : rd ?t _ = Ok ?v |- _ => apply (rd_w32 t) in H; [|assumption]
  end; auto with l2.

Lemma S1_w32 w : w32 (S1 w).
Proof. pose proof (s1_spec w) as E. unfold s1 in E. inv_res. rewrite <- H3. table_range. Qed.

Lemma S2_w32 w : w32 (S2 w).
Proof. pose proof (s2_spec w) as E. unfold s2 in E. inv_res. rewrite <- H3. table_range. Qed.

Lemma MULalpha_w32 c : is_byte c -> w32 (MULalpha c).
Proof. intros H. pose proof (MULa_ok c H) as E. unfold MULa in E. table_range. Qed.

Lemma DIValpha_w32 c : is_byte c -> w32 (DIValpha c).
Proof. intros H. pose proof (DIVa_ok c H) as E. unfold DIVa in E. table_range. Qed.

(** All words of the generator are 32-bit words. *)
Definition gen_ok (g : gen) : Prop :=
  length (reg g) = 16%nat /\ Forall w32 (reg g) /\ w32 (R1 g) /\ w32 (R2 g) /\ w32 (R3 g).

Lemma cell_w32 g i : gen_ok g -> (i < 16)%nat -> w32 (cell g i).
Proof. intros (Hl & Hf & _) Hi. unfold cell. eapply Forall_lookup_total_1; [done|lia]. Qed.

Lemma byte_is_byte w i : is_byte (byte w i).
Proof. apply land_255. Qed.

Lemma feedback_w32 g : gen_ok g -> w32 (feedback g).
Proof.
  intros H. unfold feedback.
  apply lxor_w32; [apply lxor_w32; [apply lxor_w32; [apply lxor_w32|]|]|].
  - apply word_w32; apply byte_is_byte || (unfold is_byte; lia).
  - apply MULalpha_w32, byte_is_byte.
  - apply cell_w32; [done|lia].
  - apply word_w32; apply byte_is_byte || (unfold is_byte; lia).
  - apply DIValpha_w32, byte_is_byte.
Qed.

Lemma shift_in_ok g v : gen_ok g -> w32 v -> gen_ok (shift_in g v).
Proof.
  intros (Hl & Hf & H) Hv. unfold gen_ok, shift_in. cbn. split; [|split; [|done]].
  - rewrite length_app. destruct (reg g); cbn in *; lia.
  - apply Forall_app. split; [|by repeat constructor; destruct Hv]. by apply Forall_tail.
Qed.

Lemma fsm_next_ok g : gen_ok g -> gen_ok (fsm_next g).
Proof. intros (Hl & Hf & H1 & H2 & H3). unfold gen_ok, fsm_next. cbn. auto using u32_w32, S1_w32, S2_w32. Qed.

Lemma fsm_out_w32 g : gen_ok g -> w32 (fsm_out g).
Proof. intros (_ & _ & _ & H2 & _). unfold fsm_out. auto with l2. Qed.

Lemma key_step_ok g : gen_ok g -> gen_ok (key_step g).
Proof. intros H. apply shift_in_ok; [by apply fsm_next_ok|]. apply feedback_w32. by apply fsm_next_ok. Qed.

Lemma init_step_ok g : gen_ok g -> gen_ok (init_step g).
Proof.
  intros H. apply shift_in_ok; [by apply fsm_next_ok|].
  apply lxor_w32; [apply feedback_w32; by apply fsm_next_ok | by apply fsm_out_w32].
Qed.

Lemma be_word_w32 l i : Forall is_byte l -> (i + 3 < length l)%nat -> w32 (be_word l i).
Proof.
  intros Hl Hi. unfold be_word.
  apply word_w32; (apply (Forall_lookup_total_1 is_byte l); [exact Hl|lia]).
Qed.

Lemma start_ok key iv : Forall is_byte key -> length key = 16%nat -> Forall is_byte iv -> length iv = 16%nat ->
  gen_ok (start key iv).
Proof.
  intros Bk Lk Bi Li. apply key_step_ok.
  assert (H0 : gen_ok (initial key iv)).
  { assert (w32 ones) by (unfold w32, ones; lia).
    assert (K : forall i, (i + 3 < 16)%nat -> w32 (be_word key i)) by (intros; apply be_word_w32; [done|lia]).
    assert (V : forall i, (i + 3 < 16)%nat -> w32 (be_word iv i)) by (intros; apply be_word_w32; [done|lia]).
    split; [done|]. split; [|unfold w32; cbn; lia].
    unfold initial, load_register. cbn [reg Nat.mul Nat.add Nat.sub].
    repeat (apply Forall_cons_2;
      [repeat match goal with |- w32 (Z.lxor _ _) => apply lxor_w32 end;
       match goal with
       | |- w32 (be_word key _) => apply K; lia
       | |- w32 (be_word iv _) => apply V; lia
       | |- w32 ones => assumption
       end|]).
    constructor. }
  generalize 32%nat. intros n. induction n as [|n IH]; [done|]. by apply init_step_ok.
Qed.

Lemma output_w32 g : gen_ok g -> w32 (output g).
Proof. intros H. apply lxor_w32; [by apply fsm_out_w32|]. apply cell_w32; [done|lia]. Qed.

(** ** The MAC *)

Definition be64 (a b c d e f g h : Z) : Z :=
  Z.lor (Z.lor (Z.lor (Z.lor (Z.lor (Z.lor (Z.lor
    (Z.shiftl a 56) (Z.shiftl b 48)) (Z.shiftl c 40)) (Z.shiftl d 32))
    (Z.shiftl e 24)) (Z.shiftl f 16)) (Z.shiftl g 8)) h.

(** The 64-bit block [i] of a message, padded with zeros. *)
Definition block (msg : bytes) (i : nat) : Z :=
  let b k := default 0 (msg !! (8 * i + k)%nat) in
  be64 (b 0%nat) (b 1%nat) (b 2%nat) (b 3%nat) (b 4%nat) (b 5%nat) (b 6%nat) (b 7%nat).

(** The evaluation of the message polynomial at [p], over the first [n] blocks. *)
Fixpoint eval_blocks (p : Z) (msg : bytes) (n : nat) : Z :=
  match n with
  | O => 0
  | S n' => gmul (Z.lxor (eval_blocks p msg n') (block msg n')) p 0x1b
  end.

(** 128-EIA1 as specified. *)
Definition mac_from (g : gen) (msg : bytes) : bytes :=
  let z := keystream 5 g in
  let p := Z.lor (Z.shiftl (z !!! 0%nat) 32) (z !!! 1%nat) in
  let q := Z.lor (Z.shiftl (z !!! 2%nat) 32) (z !!! 3%nat) in
  let e := eval_blocks p msg ((length msg + 7) / 8)%nat in
  be32 (Z.lxor (Z.shiftr (gmul (Z.lxor e (u64 (zlen msg * 8))) q 0x1b) 32) (z !!! 4%nat)).

Definition uia2_mac (key : bytes) (count fresh direction : Z) (msg : bytes) : bytes :=
  mac_from (start key (integrity_iv count fresh direction)) msg.

Definition w64 (x : Z) : Prop := 0 <= x < 2 ^ 64.

Lemma lxor_w64 a b : w64 a -> w64 b -> w64 (Z.lxor a b).
Proof. apply lxor_bound. lia. Qed.

Lemma lor_w64 a b : w64 a -> w64 b -> w64 (Z.lor a b).
Proof. apply lor_bound. lia. Qed.

Lemma gmul_w64 v p : w64 v -> w64 (gmul v p 0x1b).
Proof.
  intros Hv. unfold gmul.
  assert (P : forall i, w64 (MULxPOW64 v i 0x1b)).
  { induction i as [|i IH]; [done|]. cbn [MULxPOW64]. rewrite MULx64_alt. apply lxor_w64.
    - apply Z.mod_pos_bound. lia.
    - destruct (Z.testbit _ 63); cbn [sel]; unfold w64; lia. }
  generalize 64%nat. intros n. induction n as [|n IH]; [unfold w64; cbn; lia|].
  cbn [xsum]. apply lxor_w64; [done|]. destruct (Z.testbit p _); cbn [sel]; [apply P | unfold w64; lia].
Qed.

Lemma block_w64 msg i : Forall is_byte msg -> w64 (block msg i).
Proof.
  intros Hb. assert (B : forall k, is_byte (default 0 (msg !! k))).
  { intros k. destruct (msg !! k) eqn:E; cbn; [by apply (Forall_lookup_1 is_byte msg k)|unfold is_byte; lia]. }
  unfold block, be64. rewrite !Z.shiftl_mul_pow2 by lia.
  repeat match goal with |- w64 (Z.lor _ _) => apply lor_w64 end;
    match goal with |- context [msg !! ?k] => pose proof (B k) as Hk; unfold is_byte in Hk end; unfold w64; lia.
Qed.

Lemma GET64_block msg i avail : 0 <= i -> 8 * i + avail <= zlen msg -> 1 <= avail <= 8 ->
  (avail < 8 -> 8 * i + avail = zlen msg) ->
  GET64 msg (i * 8) avail = Ok (block msg (Z.to_nat i)).
Proof.
  intros Hi Hl Ha Hlast. unfold GET64.
  assert (B : forall k, 0 <= k < 8 ->
    (if (1 <=? avail) && (avail <=? 8) && (k <? avail) then rd msg (i * 8 + k) else mret 0) =
      Ok (default 0 (msg !! (8 * Z.to_nat i + Z.to_nat k)%nat))).
  { intros k Hk. rewrite (proj2 (Z.leb_le 1 avail)), (proj2 (Z.leb_le avail 8)) by lia. cbn [andb].
    case_if; bool_prop.
    - destruct (rd_ok msg (i * 8 + k)) as (v & Ev & L); [lia|]. rewrite Ev. f_equal.
      replace (8 * Z.to_nat i + Z.to_nat k)%nat with (Z.to_nat (i * 8 + k)) by lia. by rewrite L.
    - rewrite lookup_ge_None_2; [done|]. unfold zlen in *. lia. }
  cbn zeta. rewrite (B 7) by lia. mon. rewrite (B 6) by lia. mon. rewrite (B 5) by lia. mon.
  rewrite (B 4) by lia. mon. rewrite (B 3) by lia. mon. rewrite (B 2) by lia. mon.
  rewrite (B 1) by lia. mon. rewrite (B 0) by lia. mon. reflexivity.
Qed.

Lemma eval_blocks_w64 p msg n : w64 p -> Forall is_byte msg -> w64 (eval_blocks p msg n).
Proof.
  intros Hp Hb. induction n as [|n IH]; [unfold w64; cbn; lia|]. cbn [eval_blocks].
  apply gmul_w64, lxor_w64; [done | by apply block_w64].
Qed.

Lemma mul_p_block p pm msg n : w64 p -> Forall is_byte msg -> filled p (fun _ _ => True) pm ->
  mul_p pm (Z.lxor (eval_blocks p msg n) (block msg n)) = Ok (eval_blocks p msg (S n)).
Proof.
  intros Hp Hb H. rewrite (mul_p_spec p) by done. f_equal. apply gmul_comm; [done|].
  apply lxor_w64; [by apply eval_blocks_w64 | by apply block_w64].
Qed.

Lemma eval_message_spec p pm msg : w64 p -> Forall is_byte msg -> msg <> [] ->
  filled p (fun _ _ => True) pm ->
  eval_message pm ((zlen msg * 8 + 63) / 64 + 1) (zlen msg) msg =
    Ok (eval_blocks p msg ((length msg + 7) / 8)%nat).
Proof.
  intros Hp Hb Hne H. unfold eval_message.
  assert (Hl : 0 < zlen msg) by (destruct msg; [done|rewrite zlen_cons; pose proof (zlen_nonneg msg); lia]).
  set (d := (zlen msg * 8 + 63) / 64 + 1).
  assert (Hd : 64 * (d - 1) <= zlen msg * 8 + 63 < 64 * (d - 1) + 64).
  { pose proof (Z.div_mod (zlen msg * 8 + 63) 64). pose proof (Z.mod_pos_bound (zlen msg * 8 + 63) 64). lia. }
  clearbody d.
  destruct (for_loop_inv (fun i e => e = eval_blocks p msg (Z.to_nat i)) 0 (d - 2)
    (fun i eval => m ← GET64 msg (i * 8) 8; mul_p pm (Z.lxor eval m)) 0) as (e & E & ->); [lia|done| |].
  { intros i e Hi ->. rewrite GET64_block by lia. mon. rewrite (mul_p_block p) by done.
    eexists. split; [reflexivity|]. by replace (Z.to_nat (i + 1)) with (S (Z.to_nat i)) by lia. }
  rewrite E. mon. unfold MIN.
  assert (Ha : 1 <= zlen msg - (d - 2) * 8 <= 8) by lia.
  rewrite GET64_block by (try case_if; bool_prop; lia). mon. rewrite (mul_p_block p) by done.
  do 2 f_equal. unfold zlen in *.
  assert (Hn : Z.of_nat ((length msg + 7) / 8) = (Z.of_nat (length msg) + 7) / 8) by (rewrite Nat2Z.inj_div; f_equal; lia).
  assert ((Z.of_nat (length msg) + 7) / 8 = d - 1) by (symmetry; apply (Z.div_unique _ 8 _ (Z.of_nat (length msg) + 7 - 8 * (d - 1))); lia).
  lia.
Qed.

Lemma integrity_iv_ok count fresh direction :
  Forall is_byte (integrity_iv count fresh direction) /\ length (integrity_iv count fresh direction) = 16%nat.
Proof.
  split; [|done]. unfold integrity_iv.
  assert (D : is_byte (Z.shiftl (Z.land direction 1) 7)).
  { change 1 with (Z.ones 1). rewrite Z.land_ones, Z.shiftl_mul_pow2 by lia.
    pose proof (Z.mod_pos_bound direction (2 ^ 1)). unfold is_byte. lia. }
  assert (X : forall a, is_byte (Z.lxor (Z.land a 255) (Z.shiftl (Z.land direction 1) 7))).
  { intros a. apply (lxor_bound 8); [lia|apply land_255|exact D]. }
  repeat (apply Forall_app; split); try apply be32_bytes.
  repeat (apply Forall_cons_2; [apply X || apply land_255|]). constructor.
Qed.

Lemma pair_w64 a b : w32 a -> w32 b -> w64 (Z.lor (Z.shiftl a 32) b).
Proof.
  unfold w32. intros Ha Hb. apply lor_w64; unfold w64; [|lia]. rewrite Z.shiftl_mul_pow2 by lia. lia.
Qed.

Lemma mac_from_words g msg z0 z1 z2 z3 z4 : keystream 5 g = [z0; z1; z2; z3; z4] ->
  mac_from g msg =
    be32 (Z.lxor (Z.shiftr (gmul
      (Z.lxor (eval_blocks (Z.lor (Z.shiftl z0 32) z1) msg ((length msg + 7) / 8)%nat) (u64 (zlen msg * 8)))
      (Z.lor (Z.shiftl z2 32) z3) 0x1b) 32) z4).
Proof. unfold mac_from. by intros ->. Qed.

(** Lines 750 to 791 as a function of the five keystream words. *)
Lemma mac_of_words z0 z1 z2 z3 z4 msg : w32 z0 -> w32 z1 -> Forall is_byte msg -> msg <> [] ->
  (pm ← precompute (Z.lor (Z.shiftl z0 32) z1);
   eval ← eval_message pm ((zlen msg * 8 + 63) / 64 + 1) (zlen msg) msg;
   eval ← MUL64 (Z.lxor eval (u64 (zlen msg * 8))) (Z.lor (Z.shiftl z2 32) z3) 0x1b;
   mret (be32 (Z.lxor (Z.shiftr eval 32) z4))) =
  Ok (be32 (Z.lxor (Z.shiftr (gmul
      (Z.lxor (eval_blocks (Z.lor (Z.shiftl z0 32) z1) msg ((length msg + 7) / 8)%nat) (u64 (zlen msg * 8)))
      (Z.lor (Z.shiftl z2 32) z3) 0x1b) 32) z4)).
Proof.
  intros W0 W1 Bm Hne. pose proof (pair_w64 _ _ W0 W1) as Hp.
  destruct (precompute_spec (Z.lor (Z.shiftl z0 32) z1)) as (pm & Ep & Hpm).
  by rewrite Ep, bind_Ok, (eval_message_spec _ pm msg Hp Bm Hne Hpm), bind_Ok, MUL64_spec, bind_Ok.
Qed.

Lemma integrity_mac_spec s0 g msg : rep s0 g -> gen_ok g -> Forall is_byte msg -> msg <> [] ->
  integrity_mac s0 (zlen msg) msg = Ok (mac_from g msg).
Proof.
  intros H0 Hg Bm Hne. unfold integrity_mac.
  destruct (key_step_spec _ _ H0) as (sa & E1 & H1). rewrite E1. mon.
  destruct (key_step_spec _ _ H1) as (sb & E2 & H2). rewrite E2. mon.
  destruct (key_step_spec _ _ H2) as (sc & E3 & H3). rewrite E3. mon.
  destruct (key_step_spec _ _ H3) as (sd & E4 & H4). rewrite E4. mon.
  destruct (key_step_spec _ _ H4) as (se & E5 & H5). rewrite E5. mon.
  rewrite (mac_from_words g msg _ _ _ _ _ eq_refl).
  apply mac_of_words; [by apply output_w32 | by apply output_w32, key_step_ok | done | done].
Qed.


(** The key and message of test set 4 of the specification, quoted in [snow3g.c]. *)
Definition mac_key : bytes :=
  [0xC7; 0x36; 0xC6; 0xAA; 0xB2; 0x2B; 0xFF; 0xF9; 0x1E; 0x26; 0x98; 0xD2; 0xE2; 0x2A; 0xD5; 0x7E].
Definition mac_message : bytes :=
  [0xD0; 0xA7; 0xD4; 0x63; 0xDF; 0x9F; 0xB2; 0xB2; 0x78; 0x83; 0x3F; 0xA0; 0x2E; 0x23; 0x5A; 0xA1;
   0x72; 0xBD; 0x97; 0x0C; 0x14; 0x73; 0xE1; 0x29; 0x07; 0xFB; 0x64; 0x8B; 0x65; 0x99; 0xAA; 0xA0;
   0xB2; 0x4A; 0x03; 0x86; 0x65; 0x42; 0x2B; 0x20; 0xA4; 0x99; 0x27; 0x6A; 0x50; 0x42; 0x70; 0x09].

Example snow3g_test_set_4 :
  snow3g_integrity_fresh 0x14793E41 0x0397E8FD 1 mac_key 48 mac_message = Ok [0x38; 0xb5; 0x54; 0xc0].
Proof. vm_compute. reflexivity. Qed.

