(* ===== verification/Security.v ===== *)
(** * The stream security layer

    [openair3/SECU/secu_defs.c] with the algorithms 0, 1 and 2
    ([nas_stream_ee*.c], [nas_stream_ei*.c]) and the PDCP front ends
    ([nr_pdcp_security_nea*.c], [nr_pdcp_integrity_nia*.c]).  SNOW 3G is the model of
    [snow3g.c]; AES in counter mode and AES-CMAC are OpenSSL's and are the
    operations of the class [Openssl].  What PDCP relies on are the classes
    [StreamCipher] and [StreamMac], of which the four front ends are instances. *)

From S2P Require Import Prelude Snow3g Snow3gSpec Snow3gStream Snow3gMac.

(** OpenSSL: the AES-128 counter mode keystream application (key, initial block,
    data) and AES-128 CMAC (key, message). *)
Class Openssl := {
  evp_aes_128_ctr : bytes -> bytes -> bytes -> bytes;
  evp_cmac_aes128 : bytes -> bytes -> bytes }.

(** Counter mode is a stream cipher on bytes; a CMAC is one AES block. *)
Class OpensslLaws (O : Openssl) : Prop := {
  ctr_length : forall k iv d, length (evp_aes_128_ctr k iv d) = length d;
  ctr_bytes : forall k iv d, Forall is_byte d -> Forall is_byte (evp_aes_128_ctr k iv d);
  ctr_stream : forall k iv d, Forall is_byte d -> evp_aes_128_ctr k iv (evp_aes_128_ctr k iv d) = d;
  cmac_length : forall k m, length (evp_cmac_aes128 k m) = 16%nat;
  cmac_bytes : forall k m, Forall is_byte (evp_cmac_aes128 k m) }.

Module Security.
Import Snow3g.

(** [DevAssert(b)] *)
Definition assert (b : bool) : res unit := if b then mret tt else Err Exit.

(** A [uint32_t] passed as an [int]. *)
Definition int_of_u32 (x : Z) : Z := if x <? 2 ^ 31 then x else x - 2 ^ 32.

(** ** AES wrappers *)

Inductive iv_e := AES_INITIALIZATION_VECTOR_8 | AES_INITIALIZATION_VECTOR_16 | NONE_INITIALIZATION_VECTOR.

Record aes_128_t := mk_aes { aes_key : bytes; aes_type : iv_e; aes_iv : bytes }.

(** The bytes of [data_iv8_t] and [data_iv16_t]: count (already in network order),
    two bits of padding, one of direction and five of bearer, zeros. *)
Definition data_iv8 (count bearer direction : Z) : bytes :=
  be32 count ++ [Z.lor (Z.shiftl (Z.land direction 1) 2) (Z.shiftl (Z.land bearer 31) 3); 0; 0; 0].

Definition data_iv16 (count bearer direction : Z) : bytes :=
  data_iv8 count bearer direction ++ [0; 0; 0; 0; 0; 0; 0; 0].

Section Algorithms.
Context {O : Openssl}.

Definition aes_128_ctr (k_iv : aes_128_t) (msg : bytes) (len_out : Z) : res bytes :=
  _ ← assert (match aes_type k_iv with AES_INITIALIZATION_VECTOR_16 => true | _ => false end);
  _ ← assert (zlen msg <=? len_out);
  mret (evp_aes_128_ctr (aes_key k_iv) (aes_iv k_iv) msg).

(** The context is the key it was initialised with. *)
Definition cipher_aes_128_cbc_cmac (ctx_key : bytes) (k_iv : aes_128_t) (msg : bytes) : res bytes :=
  match aes_type k_iv with
  | AES_INITIALIZATION_VECTOR_8 | AES_INITIALIZATION_VECTOR_16 =>
      mret (evp_cmac_aes128 ctx_key (aes_iv k_iv ++ msg))
  | NONE_INITIALIZATION_VECTOR => Err Exit
  end.

(** ** The stream layer *)

Record nas_stream_cipher_t := mk_stream {
  context : bytes;      (** the key *)
  count : Z;            (** [uint32_t] *)
  bearer : Z;           (** [uint8_t] *)
  direction : Z;        (** [uint8_t] *)
  message : bytes;
  blength : Z           (** length in bits, [uint32_t] *) }.

Definition nas_stream_encrypt_eea0 (c : nas_stream_cipher_t) : res bytes :=
  slice (message c) 0 (Z.shiftr (u32 (blength c + 7)) 3).

Definition nas_stream_encrypt_eea1 (c : nas_stream_cipher_t) : res bytes :=
  snow3g_ciphering (count c) (bearer c) (direction c) (context c) (blength c / 8) (message c).

Definition nas_stream_encrypt_eea2 (c : nas_stream_cipher_t) : res bytes :=
  _ ← assert (bearer c <? 32);
  _ ← assert (direction c <? 2);
  _ ← assert (blength c >? 7);
  key ← slice (context c) 0 16;
  _ ← assert (Z.land (blength c) 7 =? 0);
  msg ← slice (message c) 0 (Z.shiftr (blength c) 3);
  aes_128_ctr (mk_aes key AES_INITIALIZATION_VECTOR_16 (data_iv16 (count c) (bearer c) (direction c)))
    msg (Z.shiftr (blength c) 3).

Definition nas_stream_encrypt_eia1 (c : nas_stream_cipher_t) : res bytes :=
  snow3g_integrity (count c) (bearer c) (direction c) (context c) (blength c / 8) (message c).

Definition nas_stream_encrypt_eia2 (c : nas_stream_cipher_t) : res bytes :=
  _ ← assert (bearer c <? 32);
  _ ← assert (Z.land (blength c) 7 =? 0);
  key ← slice (context c) 0 16;
  msg ← slice (message c) 0 (Z.shiftr (blength c) 3);
  result ← cipher_aes_128_cbc_cmac key
             (mk_aes key AES_INITIALIZATION_VECTOR_8 (data_iv8 (count c) (bearer c) (direction c))) msg;
  slice result 0 4.

(** The caller's [out] is left as it is by the unsupported algorithm 0. *)
Definition stream_compute_integrity (alg : Z) (c : nas_stream_cipher_t) (out : bytes) : res bytes :=
  if alg =? 0 then mret out
  else if alg =? 1 then nas_stream_encrypt_eia1 c
  else if alg =? 2 then nas_stream_encrypt_eia2 c
  else Err Exit.

Definition stream_compute_encrypt (alg : Z) (c : nas_stream_cipher_t) : res bytes :=
  if alg =? 0 then nas_stream_encrypt_eea0 c
  else if alg =? 1 then nas_stream_encrypt_eea1 c
  else if alg =? 2 then nas_stream_encrypt_eea2 c
  else Err Exit.

(** ** The PDCP front ends: context, data, bearer, count, direction *)

Definition sec_fun : Type := bytes -> bytes -> Z -> Z -> Z -> res bytes.

Definition nr_pdcp_security_nea1_init (ciphering_key : bytes) : res bytes := slice ciphering_key 0 16.

Definition nr_pdcp_security_nea1_cipher : sec_fun := fun ctx buffer bearer count direction =>
  stream_compute_encrypt 1
    (mk_stream ctx (u32 count) (u8 (bearer - 1)) (u8 direction) buffer (u32 (zlen buffer * 8))).

(** The context is the entity's own key array. *)
Definition nr_pdcp_security_nea2_init (ciphering_key : bytes) : res bytes := mret ciphering_key.

Definition nr_pdcp_security_nea2_cipher : sec_fun := fun ctx buffer bearer count direction =>
  _ ← assert (zlen buffer >? 0);
  _ ← assert ((bearer >? -1) && (bearer <? 32));
  _ ← assert ((direction >? -1) && (direction <? 2));
  _ ← assert (int_of_u32 count >? -1);
  key ← slice ctx 0 16;
  aes_128_ctr (mk_aes key AES_INITIALIZATION_VECTOR_16 (data_iv16 count (bearer - 1) direction))
    buffer (zlen buffer).

Definition nr_pdcp_integrity_nia1_init (integrity_key : bytes) : res bytes := slice integrity_key 0 16.

(** The front end of EIA1 computes into the caller's [out]. *)
Definition nr_pdcp_integrity_nia1_integrity : sec_fun := fun ctx buffer bearer count direction =>
  stream_compute_integrity 1
    (mk_stream ctx (u32 count) (u8 (bearer - 1)) (u8 direction) buffer (u32 (zlen buffer * 8))) [].

Definition nr_pdcp_integrity_nia2_init (integrity_key : bytes) : res bytes := slice integrity_key 0 16.

Definition nr_pdcp_integrity_nia2_integrity : sec_fun := fun ctx buffer bearer count direction =>
  _ ← assert (zlen buffer >? -1);
  _ ← assert ((bearer >? 0) && (bearer <? 33));
  _ ← assert (int_of_u32 count >? -1);
  key ← slice ctx 0 16;
  result ← cipher_aes_128_cbc_cmac ctx
             (mk_aes key AES_INITIALIZATION_VECTOR_8 (data_iv8 count (bearer - 1) direction)) buffer;
  slice result 0 4.

End Algorithms.
End Security.

Import Snow3g Security.

(** ** What PDCP relies on *)

(** The arguments PDCP passes: a non-empty buffer of bytes, a bearer of 1 to 31, a COUNT
    that is not negative as an [int], a direction. *)
Record sec_args (d : bytes) (bearer count direction : Z) : Prop := {
  sec_data : Forall is_byte d;
  sec_size : 0 < zlen d < 2 ^ 29;
  sec_bearer : 1 <= bearer < 32;
  sec_count : 0 <= count < 2 ^ 31;
  sec_direction : 0 <= direction < 2 }.

(** A cipher that succeeds, keeps the length and undoes itself. *)
Class StreamCipher (f : sec_fun) (k : bytes) : Prop :=
  stream_cipher : forall d b c r, sec_args d b c r ->
    exists d', f k d b c r = Ok d' /\ length d' = length d /\ Forall is_byte d' /\ f k d' b c r = Ok d.

(** An integrity function that succeeds with a MAC-I of four bytes. *)
Class StreamMac (f : sec_fun) (k : bytes) : Prop :=
  stream_mac : forall d b c r, sec_args d b c r ->
    exists m, f k d b c r = Ok m /\ length m = 4%nat /\ Forall is_byte m.

(** A key of 16 bytes. *)
Class Key128 (k : bytes) : Prop := { key_bytes : Forall is_byte k; key_length : length k = 16%nat }.

Lemma sec_blength d b c r : sec_args d b c r -> u32 (zlen d * 8) = zlen d * 8 /\ zlen d * 8 / 8 = zlen d.
Proof.
  intros [_ ? _ _ _]. split; [apply Z.mod_small; lia | by rewrite Z.div_mul].
Qed.

Lemma u32_count d b c r : sec_args d b c r -> u32 c = c.
Proof. intros [_ _ _ ? _]. apply Z.mod_small. lia. Qed.

Lemma zip_lxor_bytes l k : Forall is_byte l -> Forall is_byte k -> Forall is_byte (zip_with Z.lxor l k).
Proof.
  intros Hl. revert k. induction Hl as [|x l Hx Hl IH]; intros [|y k] Hk; cbn; try constructor.
  - inversion Hk. by apply (lxor_bound 8).
  - inversion Hk. by apply IH.
Qed.

(** A buffer of the same length keeps the arguments acceptable. *)
Lemma sec_args_ext d d' b c r : sec_args d b c r -> length d' = length d -> Forall is_byte d' ->
  sec_args d' b c r.
Proof. intros [? ? ? ? ?] Hl Hb. constructor; try done. unfold zlen in *. by rewrite Hl. Qed.

#[export] Instance nea1_stream_cipher `{Openssl} k : Key128 k -> StreamCipher nr_pdcp_security_nea1_cipher k.
Proof.
  intros [Bk Lk] d b c r Hd. pose proof Hd as [Bd Sd _ _ _].
  destruct (sec_blength _ _ _ _ Hd) as [E1 E2].
  set (ks := cipher_keystream k (u32 c) (u8 (b - 1)) (u8 r) (zlen d)).
  assert (C : forall x, zlen x = zlen d -> nr_pdcp_security_nea1_cipher k x b c r = Ok (zip_with Z.lxor x ks)).
  { intros x Hx. unfold nr_pdcp_security_nea1_cipher, stream_compute_encrypt, nas_stream_encrypt_eea1. cbn -[u32 u8].
    rewrite Hx, E1, E2, Snow3gStream.ciphering_spec by (done || lia). f_equal. f_equal.
    apply firstn_all2. unfold zlen in *. lia. }
  assert (L : (length d <= length ks)%nat).
  { pose proof (cipher_keystream_length k (u32 c) (u8 (b - 1)) (u8 r) (zlen d)) as L.
    fold ks in L. unfold zlen in *. lia. }
  assert (Ld : length (zip_with Z.lxor d ks) = length d) by (rewrite length_zip_with; lia).
  exists (zip_with Z.lxor d ks). split; [by apply C|]. split; [done|]. split.
  - apply zip_lxor_bytes; [done|apply keystream_of_bytes].
  - rewrite C by (unfold zlen; lia). by rewrite zip_lxor_involutive.
Qed.

Lemma take_key (k : bytes) : length k = 16%nat -> slice k 0 16 = Ok k.
Proof. intros H. pose proof (slice_all k) as E. unfold zlen in E. by rewrite H in E. Qed.

Ltac sec_checks :=
  unfold Security.assert, int_of_u32;
  repeat match goal with
  | |- context [?a >? ?b] => rewrite (proj2 (Z.gtb_lt a b)) by lia
  | |- context [?a <? ?b] => rewrite (proj2 (Z.ltb_lt a b)) by lia
  | |- context [?a <=? ?b] => rewrite (proj2 (Z.leb_le a b)) by lia
  end; mon.

#[export] Instance nea2_stream_cipher `{OpensslLaws} k : Key128 k -> StreamCipher nr_pdcp_security_nea2_cipher k.
Proof.
  intros [Bk Lk] d b c r [Bd Sd Hb Hc Hr].
  set (iv := data_iv16 c (b - 1) r).
  assert (C : forall x, zlen x = zlen d ->
    nr_pdcp_security_nea2_cipher k x b c r = Ok (evp_aes_128_ctr k iv x)).
  { intros x Hx. unfold nr_pdcp_security_nea2_cipher. sec_checks. rewrite (take_key k Lk). mon.
    unfold aes_128_ctr. cbn [aes_type aes_key aes_iv]. sec_checks. done. }
  exists (evp_aes_128_ctr k iv d). rewrite (C d) by done. split; [done|].
  split; [apply ctr_length|]. split; [by apply ctr_bytes|].
  rewrite C by (unfold zlen; by rewrite ctr_length). by rewrite ctr_stream.
Qed.

#[export] Instance nia1_stream_mac `{Openssl} k : Key128 k -> StreamMac nr_pdcp_integrity_nia1_integrity k.
Proof.
  intros [Bk Lk] d b c r Hd. pose proof Hd as [Bd Sd _ _ _].
  assert (Hne : d <> []) by (intros ->; unfold zlen in Sd; cbn [length] in Sd; lia).
  destruct (sec_blength _ _ _ _ Hd) as [E1 E2].
  unfold nr_pdcp_integrity_nia1_integrity, stream_compute_integrity, nas_stream_encrypt_eia1. cbn -[u32 u8].
  rewrite E1, E2. unfold snow3g_integrity, snow3g_integrity_fresh.
  destruct (integrity_iv_ok (u32 c) (u32 (Z.shiftl (u8 (b - 1)) 27)) (u8 r)) as [Bi Li].
  destruct (reorder_key_ok k Bk Lk) as (k' & E & Bk' & Lk' & Hk). rewrite E, bind_Ok.
  destruct (init_spec k k' _ Bk' Lk' Bi Li Hk) as (s0 & Es & H0). rewrite Es, bind_Ok.
  rewrite (integrity_mac_spec s0 _ d H0); [|by apply start_ok|done|done].
  eexists. split; [reflexivity|]. split; [done|apply be32_bytes].
Qed.

#[export] Instance nia2_stream_mac `{OpensslLaws} k : Key128 k -> StreamMac nr_pdcp_integrity_nia2_integrity k.
Proof.
  intros [Bk Lk] d b c r [Bd Sd Hb Hc Hr].
  unfold nr_pdcp_integrity_nia2_integrity. sec_checks. rewrite (take_key k Lk). mon.
  unfold cipher_aes_128_cbc_cmac. cbn [aes_type aes_iv]. mon.
  set (m := evp_cmac_aes128 k (data_iv8 c (b - 1) r ++ d)). assert (Lm : length m = 16%nat) by apply cmac_length.
  rewrite slice_ok by (unfold zlen; lia). eexists. split; [reflexivity|]. split.
  - rewrite length_take, length_drop. lia.
  - apply Forall_take, Forall_drop, cmac_bytes.
Qed.

(** NEA2 refuses a COUNT that is negative as an [int]. *)
Lemma nea2_negative_count `{Openssl} k d b c r : 0 < zlen d -> 1 <= b < 32 -> 0 <= r < 2 -> 2 ^ 31 <= c < 2 ^ 32 ->
  nr_pdcp_security_nea2_cipher k d b c r = Err Exit.
Proof.
  intros Hd Hb Hr Hc. unfold nr_pdcp_security_nea2_cipher, Security.assert, int_of_u32.
  rewrite (proj2 (Z.gtb_lt (zlen d) 0)), (proj2 (Z.gtb_lt b (-1))), (proj2 (Z.ltb_lt b 32)),
    (proj2 (Z.gtb_lt r (-1))), (proj2 (Z.ltb_lt r 2)), (proj2 (Z.ltb_ge c (2 ^ 31))) by lia.
  rewrite (Z.gtb_ltb (c - 2 ^ 32) (-1)), (proj2 (Z.ltb_ge (-1) _)) by lia. done.
Qed.
