(* ===== verification/Pdcp.v ===== *)
(** * PDCP entity

    [nr_pdcp_sdu.c] (the reordering list) and [nr_pdcp_entity.c]: the receive
    and transmit procedures, security configuration, t-Reordering, suspension
    and re-establishment.  The ciphering and integrity functions the entity
    points to are those of the security layer. *)

From S2P Require Import Prelude Security.

Module Pdcp.
Export Security.

Definition SHORT_SN_SIZE : Z := 12.
Definition SHORT_PDCP_HEADER_SIZE : Z := 2.
Definition LONG_PDCP_HEADER_SIZE : Z := 3.
Definition PDCP_INTEGRITY_SIZE : Z := 4.

Inductive nr_pdcp_entity_type_t := NR_PDCP_DRB_AM | NR_PDCP_DRB_UM | NR_PDCP_SRB.

#[export] Instance type_eq_dec : EqDecision nr_pdcp_entity_type_t.
Proof. solve_decision. Defined.

Definition is_srb (t : nr_pdcp_entity_type_t) : bool :=
  match t with NR_PDCP_SRB => true | _ => false end.

(** ** SDUs and the reordering list *)

Record nr_pdcp_integrity_data_t := mk_integrity {
  mi_count : Z;
  mi_mac : bytes;
  mi_header : bytes;
  mi_header_size : Z }.

Definition integrity_zero : nr_pdcp_integrity_data_t := mk_integrity 0 [0; 0; 0; 0] [0; 0; 0] 0.

Record nr_pdcp_sdu_t := mk_psdu {
  ps_count : Z;
  ps_buffer : bytes;
  ps_size : Z;
  ps_integrity : nr_pdcp_integrity_data_t }.

Definition nr_pdcp_new_sdu (count : Z) (buffer : bytes) (size : Z) (mi : nr_pdcp_integrity_data_t)
  : res nr_pdcp_sdu_t :=
  b ← slice buffer 0 size;
  mret (mk_psdu count b size mi).

Definition nr_pdcp_sdu_list_add (l : list nr_pdcp_sdu_t) (sdu : nr_pdcp_sdu_t) : list nr_pdcp_sdu_t :=
  insert_when (fun cur => ps_count sdu <? ps_count cur) sdu l.

Fixpoint nr_pdcp_sdu_in_list (l : list nr_pdcp_sdu_t) (count : Z) : bool :=
  match l with
  | [] => false
  | s :: l => if ps_count s =? count then true else nr_pdcp_sdu_in_list l count
  end.

(** ** The entity *)

Record nr_pdcp_statistics_t := mk_pstats {
  txpdu_pkts : Z; txpdu_bytes : Z; txpdu_sn : Z;
  rxpdu_pkts : Z; rxpdu_bytes : Z; rxpdu_sn : Z;
  rxpdu_dd_pkts : Z; rxpdu_dd_bytes : Z;
  txsdu_pkts : Z; txsdu_bytes : Z; rxsdu_pkts : Z; rxsdu_bytes : Z }.

#[export] Instance eta_pstats : Eta nr_pdcp_statistics_t := fun s =>
  mk_pstats (txpdu_pkts s) (txpdu_bytes s) (txpdu_sn s) (rxpdu_pkts s) (rxpdu_bytes s) (rxpdu_sn s)
    (rxpdu_dd_pkts s) (rxpdu_dd_bytes s) (txsdu_pkts s) (txsdu_bytes s) (rxsdu_pkts s) (rxsdu_bytes s).

Record nr_pdcp_entity_security_keys_and_algos_t := mk_keys {
  integrity_algorithm : Z;
  ciphering_algorithm : Z;
  integrity_key : bytes;
  ciphering_key : bytes }.

#[export] Instance eta_keys : Eta nr_pdcp_entity_security_keys_and_algos_t := fun k =>
  mk_keys (integrity_algorithm k) (ciphering_algorithm k) (integrity_key k) (ciphering_key k).

Section Entity.
Context {O : Openssl}.

(** [free_security] and [free_integrity] are kept as "not NULL"; [delivered] are the
    SDUs passed to the [deliver_sdu] callback, in order. *)
Record nr_pdcp_entity_t := mk_pdcp {
  type : nr_pdcp_entity_type_t;
  rb_id : Z;
  pdusession_id : Z;
  has_sdap_rx : bool;
  has_sdap_tx : bool;
  sn_size : Z;
  t_reordering : Z;
  discard_timer : Z;
  sn_max : Z;
  window_size : Z;
  tx_next : Z;
  rx_next : Z;
  rx_deliv : Z;
  rx_reord : Z;
  t_current : Z;
  t_reordering_start : Z;
  has_ciphering : bool;
  has_integrity : bool;
  security_keys_and_algos : nr_pdcp_entity_security_keys_and_algos_t;
  security_context : option bytes;
  cipher : option sec_fun;
  free_security : bool;
  integrity_context : option bytes;
  integrity : option sec_fun;
  free_integrity : bool;
  is_gnb : bool;
  rx_list : list nr_pdcp_sdu_t;
  rx_size : Z;
  stats : nr_pdcp_statistics_t;
  entity_suspended : bool;
  delivered : list nr_pdcp_sdu_t }.

#[export] Instance eta_pdcp : Eta nr_pdcp_entity_t := fun e =>
  mk_pdcp (type e) (rb_id e) (pdusession_id e) (has_sdap_rx e) (has_sdap_tx e) (sn_size e) (t_reordering e)
    (discard_timer e) (sn_max e) (window_size e) (tx_next e) (rx_next e) (rx_deliv e) (rx_reord e) (t_current e) (t_reordering_start e)
    (has_ciphering e) (has_integrity e) (security_keys_and_algos e) (security_context e) (cipher e)
    (free_security e) (integrity_context e) (integrity e) (free_integrity e) (is_gnb e) (rx_list e)
    (rx_size e) (stats e) (entity_suspended e) (delivered e).

Definition add32 (n x : Z) : Z := u32 (x + n).

Definition nr_max_pdcp_pdu_size (sdu_size : Z) : Z :=
  sdu_size + LONG_PDCP_HEADER_SIZE + PDCP_INTEGRITY_SIZE.

Definition header_size (e : nr_pdcp_entity_t) : Z :=
  if sn_size e =? SHORT_SN_SIZE then SHORT_PDCP_HEADER_SIZE else LONG_PDCP_HEADER_SIZE.

(** SRBs always have MAC-I, even if integrity is not active. *)
Definition integrity_size (e : nr_pdcp_entity_t) : Z :=
  if has_integrity e || is_srb (type e) then PDCP_INTEGRITY_SIZE else 0.

(** [entity->cipher(entity->security_context, buffer + off, len, ...)], in place. *)
Definition call_cipher (e : nr_pdcp_entity_t) (buffer : bytes) (off len count direction : Z) : res bytes :=
  f ← deref (cipher e);
  k ← deref (security_context e);
  d ← slice buffer off len;
  out ← f k d (rb_id e) count direction;
  blit buffer off out.

(** [entity->integrity(entity->integrity_context, mac, buffer, len, ...)] *)
Definition call_integrity (e : nr_pdcp_entity_t) (buffer : bytes) (len count direction : Z) : res bytes :=
  f ← deref (integrity e);
  k ← deref (integrity_context e);
  d ← slice buffer 0 len;
  f k d (rb_id e) count direction.

(** ** Reception *)

(** [rcvd_sn], read from the header. *)
Definition read_sn (e : nr_pdcp_entity_t) (buffer : bytes) : res Z :=
  if sn_size e =? SHORT_SN_SIZE then
    b0 ← rd buffer 0; b1 ← rd buffer 1;
    mret (Z.lor (Z.shiftl (Z.land b0 15) 8) b1)
  else
    b0 ← rd buffer 0; b1 ← rd buffer 1; b2 ← rd buffer 2;
    mret (Z.lor (Z.lor (Z.shiftl (Z.land b0 3) 16) (Z.shiftl b1 8)) b2).

(** The COUNT of a received SN (lines 115 to 126). *)
Definition rcvd_count (e : nr_pdcp_entity_t) (rcvd_sn : Z) : Z :=
  let rx_deliv_sn := Z.land (rx_deliv e) (sn_max e) in
  let rx_deliv_hfn := Z.shiftr (rx_deliv e) (sn_size e) in
  let rcvd_hfn :=
    if rcvd_sn <? rx_deliv_sn - window_size e then u32 (rx_deliv_hfn + 1)
    else if rcvd_sn >=? rx_deliv_sn + window_size e then u32 (rx_deliv_hfn - 1)
    else rx_deliv_hfn in
  Z.lor (u32 (Z.shiftl rcvd_hfn (sn_size e))) rcvd_sn.

(** One delivery: the callback, then the node is unlinked and freed. *)
Definition deliver_one (cur : nr_pdcp_sdu_t) (e : nr_pdcp_entity_t) : nr_pdcp_entity_t :=
  e <| delivered ::= fun l => l ++ [cur] |> <| rx_size ::= fun n => n - ps_size cur |>
    <| stats ::= fun s => s <| txsdu_pkts ::= add32 1 |> <| txsdu_bytes ::= add32 (ps_size cur) |> |>.

(** [while (rx_list != NULL && count == rx_list->count) { ... count++; }] on the list
    [l]; returns the entity and [count]. *)
Fixpoint deliver_from (count : Z) (l : list nr_pdcp_sdu_t) (e : nr_pdcp_entity_t)
  : nr_pdcp_entity_t * Z :=
  match l with
  | cur :: l' =>
      if count =? ps_count cur
      then deliver_from (u32 (count + 1)) l' (deliver_one cur e <| rx_list := l' |>)
      else (e, count)
  | [] => (e, count)
  end.

(** [while (rx_list != NULL && rx_list->count < bound) { ... }] *)
Fixpoint deliver_below (bound : Z) (l : list nr_pdcp_sdu_t) (e : nr_pdcp_entity_t) : nr_pdcp_entity_t :=
  match l with
  | cur :: l' =>
      if ps_count cur <? bound then deliver_below bound l' (deliver_one cur e <| rx_list := l' |>) else e
  | [] => e
  end.

Definition discard_pdu (e : nr_pdcp_entity_t) (size : Z) : nr_pdcp_entity_t :=
  e <| stats ::= fun s => s <| rxpdu_dd_pkts ::= add32 1 |> <| rxpdu_dd_bytes ::= add32 size |> |>.

(** The MAC-I, header and COUNT kept for RRC (lines 128 to 136). *)
Definition store_integrity (e : nr_pdcp_entity_t) (buffer : bytes) (size count : Z)
  : res nr_pdcp_integrity_data_t :=
  if has_integrity e || is_srb (type e) then
    mac ← slice buffer (size - 4) 4;
    h ← slice buffer 0 (header_size e);
    header ← blit [0; 0; 0] 0 h;
    mret (mk_integrity count mac header (header_size e))
  else mret integrity_zero.

(** Lines 171 to 214: a new SDU enters the reordering list; [stored] is what is added
    to [rx_size]. *)
Definition store_sdu (e : nr_pdcp_entity_t) (sdu : nr_pdcp_sdu_t) (stored : Z) : nr_pdcp_entity_t :=
  let count := ps_count sdu in
  let e := e <| rx_list := nr_pdcp_sdu_list_add (rx_list e) sdu |> <| rx_size ::= Z.add stored |> in
  let e := if count >=? rx_next e then e <| rx_next := u32 (count + 1) |> else e in
  let e := if count =? rx_deliv e then
             let '(e, n) := deliver_from (rx_deliv e) (rx_list e) e in e <| rx_deliv := n |>
           else e in
  let e := if negb (t_reordering_start e =? 0) && (rx_deliv e >=? rx_reord e)
           then e <| t_reordering_start := 0 |> else e in
  if (t_reordering_start e =? 0) && (rx_deliv e <? rx_next e)
  then e <| rx_reord := rx_next e |> <| t_reordering_start := t_current e |> else e.

(** Lines 158 to 214: the deciphered PDU has passed the integrity check. *)
Definition store_and_deliver (e : nr_pdcp_entity_t) (buffer : bytes) (size count : Z)
    (mi : nr_pdcp_integrity_data_t) : res nr_pdcp_entity_t :=
  if (count <? rx_deliv e) || nr_pdcp_sdu_in_list (rx_list e) count then mret (discard_pdu e size)
  else
    data ← slice buffer (header_size e) (size - header_size e - integrity_size e);
    sdu ← nr_pdcp_new_sdu count data (size - header_size e - integrity_size e) mi;
    mret (store_sdu e sdu (size - header_size e)).

(** The caller's buffer is deciphered in place and not used by it afterwards. *)
Definition nr_pdcp_entity_recv_pdu (e : nr_pdcp_entity_t) (buffer : bytes) (size : Z)
  : res nr_pdcp_entity_t :=
  if entity_suspended e then mret e
  else if size <? 1 then mret e
  else
    b0 ← rd buffer 0;
    buffer ← (if negb (is_srb (type e)) && (Z.land b0 128 =? 0)
              then wr buffer 0 (Z.lor b0 128) else mret buffer);
    let e := e <| stats ::= fun s => s <| rxpdu_pkts ::= add32 1 |> <| rxpdu_bytes ::= add32 size |> |> in
    let sdap_header_size := b2z (has_sdap_rx e) in
    rcvd_sn ← read_sn e buffer;
    let e := e <| stats ::= fun s => s <| rxpdu_sn := rcvd_sn |> |> in
    if size <? header_size e + sdap_header_size + integrity_size e + 1 then mret (discard_pdu e size)
    else
      let count := rcvd_count e rcvd_sn in
      let direction := if is_gnb e then 0 else 1 in
      mi ← store_integrity e buffer size count;
      buffer ← (if has_ciphering e
                then call_cipher e buffer (header_size e + sdap_header_size)
                       (size - (header_size e + sdap_header_size)) count direction
                else mret buffer);
      ok ← (if has_integrity e then
              mac ← call_integrity e buffer (size - integrity_size e) count direction;
              rcv ← slice buffer (size - integrity_size e) PDCP_INTEGRITY_SIZE;
              mret (bool_decide (mac = rcv))
            else mret true);
      if negb ok then mret (discard_pdu e size)
      else store_and_deliver e buffer size count mi.

(** ** Transmission *)

Definition put_header (e : nr_pdcp_entity_t) (buf : bytes) (sn : Z) : res bytes :=
  let dc_bit := if is_srb (type e) then 0 else 128 in
  if sn_size e =? SHORT_SN_SIZE then
    buf ← wr buf 0 (Z.lor dc_bit (Z.land (Z.shiftr sn 8) 15));
    wr buf 1 (Z.land sn 255)
  else
    buf ← wr buf 0 (Z.lor dc_bit (Z.land (Z.shiftr sn 16) 3));
    buf ← wr buf 1 (Z.land (Z.shiftr sn 8) 255);
    wr buf 2 (Z.land sn 255).

Definition nr_pdcp_entity_process_sdu (e : nr_pdcp_entity_t) (buffer : bytes) (size sdu_id : Z)
    (pdu_buffer : bytes) (pdu_max_size : Z) : res (Z * bytes * nr_pdcp_entity_t) :=
  if negb (nr_max_pdcp_pdu_size size <=? pdu_max_size) then Err Exit
  else if entity_suspended e then mret (-1, pdu_buffer, e)
  else
    let e := e <| stats ::= fun s => s <| rxsdu_pkts ::= add32 1 |> <| rxsdu_bytes ::= add32 size |> |> in
    let count := tx_next e in
    let sn := Z.land (tx_next e) (sn_max e) in
    let sdap_header_size := b2z (has_sdap_tx e) in
    let direction := if is_gnb e then 1 else 0 in
    buf ← put_header e pdu_buffer sn;
    src ← slice buffer 0 size;
    buf ← blit buf (header_size e) src;
    buf ← (if has_integrity e then
             mac ← call_integrity e buf (header_size e + size) count direction;
             blit buf (header_size e + size) mac
           else if integrity_size e =? PDCP_INTEGRITY_SIZE
           then blit buf (header_size e + size) [0; 0; 0; 0]
           else mret buf);
    buf ← (if has_ciphering e
           then call_cipher e buf (header_size e + sdap_header_size)
                  (size + integrity_size e - sdap_header_size) count direction
           else mret buf);
    let e := e <| tx_next := u32 (tx_next e + 1) |> in
    let ret := header_size e + size + integrity_size e in
    let e := e <| stats ::= fun s => s <| txpdu_pkts ::= add32 1 |> <| txpdu_bytes ::= add32 ret |>
                                       <| txpdu_sn := sn |> |> in
    mret (ret, buf, e).

Definition nr_pdcp_entity_check_integrity (e : nr_pdcp_entity_t) (buffer : bytes) (buffer_size : Z)
    (mi : nr_pdcp_integrity_data_t) : res bool :=
  if negb (has_integrity e) then mret false
  else
    h ← slice (mi_header mi) 0 (mi_header_size mi);
    d ← slice buffer 0 buffer_size;
    mac ← call_integrity e (h ++ d) (buffer_size + mi_header_size mi) (mi_count mi)
            (if is_gnb e then 0 else 1);
    mret (bool_decide (mac = mi_mac mi)).

(** ** Security *)

Definition set_integrity (e : nr_pdcp_entity_t) (algo : Z) : res nr_pdcp_entity_t :=
  let e := if algo =? 0 then e <| has_integrity := false |> <| free_integrity := false |> else e in
  if negb (algo =? 0) && negb (algo =? -1) then
    let e := e <| has_integrity := true |> in
    let key := integrity_key (security_keys_and_algos e) in
    if algo =? 2 then
      ctx ← nr_pdcp_integrity_nia2_init key;
      mret (e <| integrity_context := Some ctx |> <| integrity := Some nr_pdcp_integrity_nia2_integrity |>
              <| free_integrity := true |>)
    else if algo =? 1 then
      ctx ← nr_pdcp_integrity_nia1_init key;
      mret (e <| integrity_context := Some ctx |> <| integrity := Some nr_pdcp_integrity_nia1_integrity |>
              <| free_integrity := true |>)
    else Err Exit
  else mret e.

Definition set_ciphering (e : nr_pdcp_entity_t) (algo : Z) : res nr_pdcp_entity_t :=
  let e := if algo =? 0 then e <| has_ciphering := false |> <| free_security := false |> else e in
  if negb (algo =? 0) && negb (algo =? -1) then
    let e := e <| has_ciphering := true |> in
    let key := ciphering_key (security_keys_and_algos e) in
    if algo =? 2 then
      ctx ← nr_pdcp_security_nea2_init key;
      mret (e <| security_context := Some ctx |> <| cipher := Some nr_pdcp_security_nea2_cipher |>
              <| free_security := true |>)
    else if algo =? 1 then
      ctx ← nr_pdcp_security_nea1_init key;
      mret (e <| security_context := Some ctx |> <| cipher := Some nr_pdcp_security_nea1_cipher |>
              <| free_security := true |>)
    else Err Exit
  else mret e.

Definition nr_pdcp_entity_set_security (e : nr_pdcp_entity_t)
    (p : nr_pdcp_entity_security_keys_and_algos_t) : res nr_pdcp_entity_t :=
  let e := if negb (integrity_algorithm p =? -1) then
             e <| security_keys_and_algos ::= fun k => k
                    <| integrity_algorithm := integrity_algorithm p |>
                    <| integrity_key := integrity_key p |> |>
           else e in
  let e := if negb (ciphering_algorithm p =? -1) then
             e <| security_keys_and_algos ::= fun k => k
                    <| ciphering_algorithm := ciphering_algorithm p |>
                    <| ciphering_key := ciphering_key p |> |>
           else e in
  e ← set_integrity e (integrity_algorithm p);
  set_ciphering e (ciphering_algorithm p).

(** ** Time *)

Definition check_t_reordering (e : nr_pdcp_entity_t) : nr_pdcp_entity_t :=
  if t_reordering e =? -1 then e
  else if (t_reordering_start e =? 0) || (t_current e <=? u64 (t_reordering_start e + t_reordering e)) then e
  else
    let e := e <| t_reordering_start := 0 |> in
    let e := deliver_below (rx_reord e) (rx_list e) e in
    let '(e, n) := deliver_from (rx_reord e) (rx_list e) e in
    let e := e <| rx_deliv := n |> in
    if rx_deliv e <? rx_next e
    then e <| rx_reord := rx_next e |> <| t_reordering_start := t_current e |> else e.

Definition nr_pdcp_entity_set_time (e : nr_pdcp_entity_t) (now : Z) : nr_pdcp_entity_t :=
  check_t_reordering (e <| t_current := now |>).

(** ** Suspension, re-establishment, release *)

Fixpoint deliver_list (l : list nr_pdcp_sdu_t) (e : nr_pdcp_entity_t) : nr_pdcp_entity_t :=
  match l with
  | [] => e
  | cur :: l' => deliver_list l' (deliver_one cur e <| rx_list := l' |>)
  end.

Definition deliver_all_sdus (e : nr_pdcp_entity_t) : nr_pdcp_entity_t := deliver_list (rx_list e) e.

Definition nr_pdcp_entity_suspend (e : nr_pdcp_entity_t) : nr_pdcp_entity_t :=
  let e := e <| tx_next := 0 |> in
  let e := if negb (t_reordering_start e =? 0)
           then deliver_all_sdus (e <| t_reordering_start := 0 |>) else e in
  e <| rx_next := 0 |> <| rx_deliv := 0 |> <| entity_suspended := true |>.

Fixpoint count_dropped (l : list nr_pdcp_sdu_t) (e : nr_pdcp_entity_t) : nr_pdcp_entity_t :=
  match l with
  | [] => e
  | cur :: l' => count_dropped l' (discard_pdu e (ps_size cur))
  end.

Definition free_rx_list (e : nr_pdcp_entity_t) : nr_pdcp_entity_t :=
  count_dropped (rx_list e) e <| rx_list := [] |> <| rx_size := 0 |>.

Definition nr_pdcp_entity_reestablish_drb_am (e : nr_pdcp_entity_t)
    (p : nr_pdcp_entity_security_keys_and_algos_t) : res nr_pdcp_entity_t :=
  e ← nr_pdcp_entity_set_security e p;
  mret (e <| entity_suspended := false |>).

Definition nr_pdcp_entity_reestablish_drb_um (e : nr_pdcp_entity_t)
    (p : nr_pdcp_entity_security_keys_and_algos_t) : res nr_pdcp_entity_t :=
  let e := e <| tx_next := 0 |> in
  let e := if negb (t_reordering_start e =? 0) then deliver_all_sdus e else e in
  let e := e <| t_reordering_start := 0 |> <| rx_next := 0 |> <| rx_deliv := 0 |> in
  e ← nr_pdcp_entity_set_security e p;
  mret (e <| entity_suspended := false |>).

Definition nr_pdcp_entity_reestablish_srb (e : nr_pdcp_entity_t)
    (p : nr_pdcp_entity_security_keys_and_algos_t) : res nr_pdcp_entity_t :=
  let e := free_rx_list (e <| tx_next := 0 |>) in
  let e := e <| t_reordering_start := 0 |> <| rx_next := 0 |> <| rx_deliv := 0 |> in
  e ← nr_pdcp_entity_set_security e p;
  mret (e <| entity_suspended := false |>).

(** The pointer set by the constructor's [switch]. *)
Definition reestablish_entity (e : nr_pdcp_entity_t) (p : nr_pdcp_entity_security_keys_and_algos_t)
  : res nr_pdcp_entity_t :=
  match type e with
  | NR_PDCP_DRB_AM => nr_pdcp_entity_reestablish_drb_am e p
  | NR_PDCP_DRB_UM => nr_pdcp_entity_reestablish_drb_um e p
  | NR_PDCP_SRB => nr_pdcp_entity_reestablish_srb e p
  end.

Definition nr_pdcp_entity_release (e : nr_pdcp_entity_t) : nr_pdcp_entity_t := deliver_all_sdus e.

(** The SDUs and contexts still allocated when the entity itself is freed. *)
Definition nr_pdcp_entity_delete (e : nr_pdcp_entity_t) : nr_pdcp_entity_t :=
  free_rx_list e <| free_security := false |> <| free_integrity := false |>.

Definition nr_pdcp_entity_get_stats (e : nr_pdcp_entity_t) : nr_pdcp_statistics_t := stats e.

Definition new_nr_pdcp_entity (type : nr_pdcp_entity_type_t) (is_gnb : bool) (rb_id pdusession_id : Z)
    (has_sdap_rx has_sdap_tx : bool) (sn_size t_reordering discard_timer : Z)
    (p : nr_pdcp_entity_security_keys_and_algos_t) : res nr_pdcp_entity_t :=
  nr_pdcp_entity_set_security
    (mk_pdcp type rb_id pdusession_id has_sdap_rx has_sdap_tx sn_size t_reordering discard_timer
       (Z.shiftl 1 sn_size - 1) (Z.shiftl 1 (sn_size - 1)) 0 0 0 0 0 0 false false
       (mk_keys 0 0 (replicate 16 0) (replicate 16 0)) None None false None None false is_gnb [] 0
       (mk_pstats 0 0 0 0 0 0 0 0 0 0 0 0) false []) p.

End Entity.
End Pdcp.
