(* ===== verification/PdcpRx.v ===== *)
(** * PDCP reception: COUNT, reordering, in-order delivery

    The reception state machine: reconstruction of the COUNT from a sequence
    number, the invariant of the reordering list and of the state variables, and
    the order of delivery under any sequence of received PDUs, ticks and
    transmissions. *)

From S2P Require Import Prelude Security Pdcp.
Import Pdcp.

Section Rx.
Context {O : Openssl}.

(** ** Configuration *)

Record cfg_ok (e : nr_pdcp_entity_t) : Prop := {
  cfg_sn : sn_size e = 12 \/ sn_size e = 18;
  cfg_max : sn_max e = 2 ^ sn_size e - 1;
  cfg_win : window_size e = 2 ^ (sn_size e - 1) }.

(** ** COUNT reconstruction *)

Lemma lor_shiftl_add h s n : 0 <= n -> 0 <= s < 2 ^ n -> Z.lor (Z.shiftl h n) s = h * 2 ^ n + s.
Proof.
  intros Hn Hs. rewrite Z.shiftl_mul_pow2 by done. rewrite <- Z.lxor_lor, Z.add_nocarry_lxor; [done| |];
  (apply Z.bits_inj'; intros m Hm; rewrite Z.land_spec, Z.bits_0;
   destruct (decide (m < n)); [by rewrite Z.mul_pow2_bits_low by lia|];
   rewrite <- (Z.mod_small s (2 ^ n)) by done; rewrite Z.mod_pow2_bits_high by lia; apply andb_false_r).
Qed.

Lemma rcvd_count_correct e c : cfg_ok e -> 0 <= rx_deliv e < 2 ^ 32 -> 0 <= c < 2 ^ 32 ->
  - window_size e <= c - rx_deliv e < window_size e ->
  rcvd_count e (c mod 2 ^ sn_size e) = c.
Proof.
  intros [Hs Hm Hw] Hd Hc Hwin. unfold rcvd_count. rewrite Hm, Hw in *.
  set (M := 2 ^ sn_size e) in *.
  assert (HM : 0 < M) by (unfold M; destruct Hs as [->| ->]; done).
  assert (HW : 2 * 2 ^ (sn_size e - 1) = M) by (unfold M; destruct Hs as [->| ->]; done).
  assert (H32 : exists q, 2 ^ 32 = M * q) by (unfold M; destruct Hs as [->| ->]; eexists; [exact (eq_refl (4096 * 1048576)) | exact (eq_refl (262144 * 16384))]).
  assert (Hsn : 0 <= sn_size e) by lia.
  replace (Z.land (rx_deliv e) (M - 1)) with (rx_deliv e mod M)
    by (unfold M; rewrite <- Z.land_ones by lia; by rewrite Z.ones_equiv, <- Z.sub_1_r).
  rewrite Z.shiftr_div_pow2 by lia. fold M.
  pose proof (Z.div_mod (rx_deliv e) M). pose proof (Z.mod_pos_bound (rx_deliv e) M HM).
  pose proof (Z.div_mod c M). pose proof (Z.mod_pos_bound c M HM).
  set (s := c mod M) in *. set (h := c / M) in *.
  set (s' := rx_deliv e mod M) in *. set (h' := rx_deliv e / M) in *.
  clearbody s h s' h'. destruct H32 as [q Hq].
  assert (E : (if s <? s' - 2 ^ (sn_size e - 1) then u32 (h' + 1)
     else if s >=? s' + 2 ^ (sn_size e - 1) then u32 (h' - 1) else h') = h).
  { assert (0 <= h < q) by nia. assert (q <= 2 ^ 32) by nia.
    rewrite Z.geb_leb.
    destruct (Z.ltb_spec s (s' - 2 ^ (sn_size e - 1))); [|destruct (Z.leb_spec (s' + 2 ^ (sn_size e - 1)) s)].
    - assert (Eh : h' + 1 = h) by nia. rewrite Eh. apply Z.mod_small. split; lia.
    - assert (Eh : h' - 1 = h) by nia. rewrite Eh. apply Z.mod_small. split; lia.
    - nia. }
  rewrite E. assert (Hu : u32 (Z.shiftl h (sn_size e)) = Z.shiftl h (sn_size e)).
  { rewrite Z.shiftl_mul_pow2 by done. fold M. specialize (H1 ltac:(lia)).
    assert (0 <= h) by nia. apply Z.mod_small. split; nia. }
  rewrite Hu, lor_shiftl_add by done. fold M. lia.
Qed.

(** ** Runs of deliveries *)

(** [e'] is [e] after handing [l1] to the upper layer, [l2] being left; the size and
    the statistics are accounting only. *)
Definition delivering (e : nr_pdcp_entity_t) (l1 l2 : list nr_pdcp_sdu_t) (e' : nr_pdcp_entity_t) : Prop :=
  exists rs st, e' = e <| rx_list := l2 |> <| delivered := delivered e ++ l1 |> <| rx_size := rs |> <| stats := st |>.

Lemma delivering_refl e l : rx_list e = l -> delivering e [] l e.
Proof. intros <-. exists (rx_size e), (stats e). destruct e; cbn. by rewrite app_nil_r. Qed.

Lemma delivering_cons e s l1 l2 e' : delivering (deliver_one s e <| rx_list := l1 ++ l2 |>) l1 l2 e' ->
  delivering e (s :: l1) l2 e'.
Proof. intros (rs & st & ->). exists rs, st. destruct e; cbn. by rewrite <- app_assoc. Qed.

Lemma delivering_trans e l1 l2 e1 l3 l4 e2 : delivering e l1 l2 e1 -> delivering e1 l3 l4 e2 ->
  delivering e (l1 ++ l3) l4 e2.
Proof. intros (? & ? & ->) (rs & st & ->). exists rs, st. destruct e; cbn. by rewrite <- app_assoc. Qed.

Definition sorted (l : list nr_pdcp_sdu_t) : Prop := StronglySorted Z.lt (ps_count <$> l).

Lemma sorted_cons s l : sorted (s :: l) <-> Forall (fun x => ps_count s < ps_count x) l /\ sorted l.
Proof.
  unfold sorted. rewrite fmap_cons. split.
  - intros H. inversion H as [|? ? ? F]; subst. by rewrite Forall_fmap in F.
  - intros [F H]. constructor; [done|]. by rewrite Forall_fmap.
Qed.

(** The loop on consecutive counts: a maximal run starting at [c] is delivered. *)
Lemma deliver_from_spec m l : m < 2 ^ 32 -> forall c e, rx_list e = l -> sorted l ->
  0 <= c <= m -> Forall (fun s => c <= ps_count s < m) l ->
  exists l1 l2 e', deliver_from c l e = (e', c + zlen l1) /\ l = l1 ++ l2 /\ delivering e l1 l2 e' /\
    c + zlen l1 <= m /\
    Forall (fun s => c <= ps_count s < c + zlen l1) l1 /\ sorted l1 /\
    Forall (fun s => c + zlen l1 < ps_count s) l2.
Proof.
  intros Hm. induction l as [|s l IH]; intros c e Hl Hs Hc Hf; cbn [deliver_from].
  { exists [], [], e. rewrite Z.add_0_r. split_and!; try done; try lia; try constructor.
    by apply delivering_refl. }
  apply sorted_cons in Hs as [Hlt Hs]. inversion Hf as [|? ? [Hc1 Hc2] Hf']; subst.
  destruct (Z.eqb_spec c (ps_count s)) as [->|Hne].
  - assert (Hu : u32 (ps_count s + 1) = ps_count s + 1) by (apply Z.mod_small; lia). rewrite Hu.
    destruct (IH (ps_count s + 1) (deliver_one s e <| rx_list := l |>)) as
      (l1 & l2 & e' & E & -> & Hd & Hle & F1 & S1 & F2); [done|done|lia| |].
    { rewrite Forall_forall in Hlt, Hf' |- *. intros x Hx. specialize (Hlt x Hx). specialize (Hf' x Hx). cbn in *. lia. }
    exists (s :: l1), l2, e'. rewrite zlen_cons, E. split; [f_equal; lia|].
    split; [done|]. split; [by apply delivering_cons|]. split; [lia|].
    split; [|split].
    + constructor; [pose proof (zlen_nonneg l1); lia|]. eapply Forall_impl; [exact F1|]. cbn. lia.
    + apply sorted_cons. split; [by apply Forall_app in Hlt as []|done].
    + eapply Forall_impl; [exact F2|]. cbn. lia.
  - exists [], (s :: l), e. rewrite Z.add_0_r. split_and!; try done; try lia; try constructor.
    + by apply delivering_refl.
    + lia.
    + eapply Forall_impl; [exact Hlt|]. cbn. lia.
Qed.

Lemma deliver_below_spec b l : forall e, rx_list e = l -> sorted l ->
  exists l1 l2, l = l1 ++ l2 /\ delivering e l1 l2 (deliver_below b l e) /\
    Forall (fun s => ps_count s < b) l1 /\ sorted l1 /\ Forall (fun s => b <= ps_count s) l2 /\ sorted l2.
Proof.
  induction l as [|s l IH]; intros e Hl Hs; cbn [deliver_below].
  { exists [], []. split_and!; try done; try constructor. by apply delivering_refl. }
  pose proof Hs as Hs0. apply sorted_cons in Hs as [Hlt Hs].
  destruct (Z.ltb_spec (ps_count s) b) as [Hb|Hb].
  - destruct (IH (deliver_one s e <| rx_list := l |>)) as (l1 & l2 & -> & Hd & F1 & S1 & F2 & S2); [done|done|].
    exists (s :: l1), l2. split; [done|]. split; [by apply delivering_cons|].
    split; [by constructor|]. split; [|done]. apply sorted_cons. split; [by apply Forall_app in Hlt as []|done].
  - exists [], (s :: l). split_and!; try done; try constructor; try lia.
    + by apply delivering_refl.
    + eapply Forall_impl; [exact Hlt|]. cbn. lia.
Qed.

(** ** The reception invariant *)

Record rx_inv (e : nr_pdcp_entity_t) : Prop := {
  ri_sorted : sorted (rx_list e);
  ri_ahead : Forall (fun s => rx_deliv e < ps_count s < rx_next e) (rx_list e);
  ri_next : 0 <= rx_deliv e <= rx_next e /\ rx_next e < 2 ^ 32;
  ri_last : rx_deliv e < rx_next e -> Exists (fun s => ps_count s = rx_next e - 1) (rx_list e);
  ri_timer : t_reordering_start e <> 0 -> rx_deliv e < rx_reord e <= rx_next e;
  ri_order : sorted (delivered e);
  ri_behind : Forall (fun s => ps_count s < rx_deliv e) (delivered e) }.

Lemma in_list_spec l c : nr_pdcp_sdu_in_list l c = false <-> Forall (fun s => ps_count s <> c) l.
Proof.
  induction l as [|s l IH]; cbn; [split; constructor|]. rewrite Forall_cons, <- IH.
  destruct (Z.eqb_spec (ps_count s) c); naive_solver.
Qed.

Lemma list_add_spec l s : sorted l -> Forall (fun x => ps_count x <> ps_count s) l ->
  sorted (nr_pdcp_sdu_list_add l s) /\ nr_pdcp_sdu_list_add l s ≡ₚ s :: l.
Proof.
  intros Hs Hne. split; [|apply insert_when_perm]. unfold sorted, nr_pdcp_sdu_list_add.
  enough (StronglySorted (fun a b => ps_count a < ps_count b) (insert_when (fun cur => ps_count s <? ps_count cur) s l)) as H.
  { clear -H. induction H as [|x l' H IH F]; cbn; constructor; [done|]. by rewrite Forall_fmap. }
  rewrite Forall_forall in Hne. apply insert_when_sorted.
  - intros a b c. lia.
  - intros y _ E. by bool_prop.
  - intros y Hy E. bool_prop. specialize (Hne y Hy). lia.
  - clear Hne. induction l as [|x l' IH]; constructor; apply sorted_cons in Hs as [F Hs]; [by apply IH|done].
Qed.

Lemma sorted_app l1 l2 b : sorted l1 -> sorted l2 ->
  Forall (fun s => ps_count s < b) l1 -> Forall (fun s => b <= ps_count s) l2 -> sorted (l1 ++ l2).
Proof.
  intros S1 S2 F1 F2. induction l1 as [|x l1 IH]; [done|]. cbn.
  apply sorted_cons in S1 as [Hx S1]. inversion F1; subst. apply sorted_cons. split; [|by apply IH].
  apply Forall_app. split; [done|]. eapply Forall_impl; [exact F2|]. cbn. lia.
Qed.

Lemma sorted_app_r l1 l2 : sorted (l1 ++ l2) -> sorted l2.
Proof. induction l1 as [|x l1 IH]; [done|]. cbn. intros H. apply IH. by apply sorted_cons in H as [_ ?]. Qed.

(** The invariant before the reordering timer is looked at. *)
Record rx_mid (e : nr_pdcp_entity_t) : Prop := {
  rm_sorted : sorted (rx_list e);
  rm_ahead : Forall (fun s => rx_deliv e < ps_count s < rx_next e) (rx_list e);
  rm_next : 0 <= rx_deliv e <= rx_next e /\ rx_next e < 2 ^ 32;
  rm_last : rx_deliv e < rx_next e -> Exists (fun s => ps_count s = rx_next e - 1) (rx_list e);
  rm_timer : t_reordering_start e <> 0 -> rx_reord e <= rx_next e;
  rm_order : sorted (delivered e);
  rm_behind : Forall (fun s => ps_count s < rx_deliv e) (delivered e) }.

(** Delivering the run that starts at [c], when everything before [c] is done with. *)
Lemma deliver_run e c : sorted (rx_list e) -> Forall (fun s => c <= ps_count s < rx_next e) (rx_list e) ->
  0 <= c <= rx_next e -> rx_next e < 2 ^ 32 ->
  (c < rx_next e -> Exists (fun s => ps_count s = rx_next e - 1) (rx_list e)) ->
  (t_reordering_start e <> 0 -> rx_reord e <= rx_next e) ->
  sorted (delivered e) -> Forall (fun s => ps_count s < c) (delivered e) ->
  rx_mid (let '(e', n) := deliver_from c (rx_list e) e in e' <| rx_deliv := n |>).
Proof.
  intros Hs Hf Hc Hn Hl Ht Ho Hb.
  destruct (deliver_from_spec (rx_next e) (rx_list e) Hn c e eq_refl Hs Hc Hf)
    as (l1 & l2 & e' & E & El & (rs & st & ->) & Hle & F1 & S1 & F2).
  rewrite E. rewrite El in Hs, Hf, Hl. pose proof (zlen_nonneg l1).
  destruct e; cbn in *. constructor; cbn; try done; try lia.
  - by apply sorted_app_r in Hs.
  - apply Forall_app in Hf as [_ Hf]. rewrite Forall_forall in Hf, F2 |- *. intros x Hx.
    specialize (Hf x Hx). specialize (F2 x Hx). cbn in *. lia.
  - intros Hlt. specialize (Hl ltac:(lia)). apply Exists_app in Hl as [Hl|Hl]; [|done].
    exfalso. rewrite Exists_exists in Hl. destruct Hl as (x & Hx & Ex).
    rewrite Forall_forall in F1. specialize (F1 x Hx). cbn in *. lia.
  - apply (sorted_app _ _ c); [done|done|done|]. eapply Forall_impl; [exact F1|]. cbn. lia.
  - apply Forall_app. split; [|eapply Forall_impl; [exact F1|]; cbn; lia].
    eapply Forall_impl; [exact Hb|]. cbn. lia.
Qed.

Lemma timer_inv e : rx_mid e ->
  let e1 := if negb (t_reordering_start e =? 0) && (rx_deliv e >=? rx_reord e)
            then e <| t_reordering_start := 0 |> else e in
  rx_inv (if (t_reordering_start e1 =? 0) && (rx_deliv e1 <? rx_next e1)
          then e1 <| rx_reord := rx_next e1 |> <| t_reordering_start := t_current e1 |> else e1).
Proof.
  intros [Hs Hf Hn Hl Ht Ho Hb]. rewrite Z.geb_leb.
  destruct (Z.eqb_spec (t_reordering_start e) 0) as [E|E];
    [|destruct (Z.leb_spec (rx_reord e) (rx_deliv e))]; cbv zeta; cbn [negb andb].
  - rewrite (proj2 (Z.eqb_eq _ _) E). cbn [andb].
    destruct (Z.ltb_spec (rx_deliv e) (rx_next e)); destruct e; cbn in *; constructor; cbn; try done; lia.
  - change (t_reordering_start (e <| t_reordering_start := 0 |>)) with 0.
    change (rx_deliv (e <| t_reordering_start := 0 |>)) with (rx_deliv e).
    change (rx_next (e <| t_reordering_start := 0 |>)) with (rx_next e). cbn [Z.eqb andb].
    destruct (Z.ltb_spec (rx_deliv e) (rx_next e)); destruct e; cbn in *; constructor; cbn; try done; lia.
  - rewrite (proj2 (Z.eqb_neq _ _) E). cbn [andb]. destruct e; cbn in *; constructor; cbn; try done. tauto.
Qed.

Lemma store_sdu_inv e sdu n : rx_inv e -> rx_deliv e <= ps_count sdu < 2 ^ 32 - 1 ->
  nr_pdcp_sdu_in_list (rx_list e) (ps_count sdu) = false -> rx_inv (store_sdu e sdu n).
Proof.
  intros [Hs Hf Hn Hl Ht Ho Hb] Hc Hin. apply in_list_spec in Hin.
  destruct (list_add_spec (rx_list e) sdu Hs Hin) as [Hs' Hp]. unfold store_sdu. apply timer_inv.
  set (l' := nr_pdcp_sdu_list_add (rx_list e) sdu) in *. clearbody l'.
  assert (Hu : u32 (ps_count sdu + 1) = ps_count sdu + 1) by (apply Z.mod_small; lia).
  assert (N : forall e2, e2 = (let e1 := e <| rx_list := l' |> <| rx_size ::= Z.add n |> in
      if ps_count sdu >=? rx_next e1 then e1 <| rx_next := u32 (ps_count sdu + 1) |> else e1) ->
    rx_list e2 = l' /\ rx_next e2 = Z.max (rx_next e) (ps_count sdu + 1) /\ rx_deliv e2 = rx_deliv e /\
    t_reordering_start e2 = t_reordering_start e /\ rx_reord e2 = rx_reord e /\ delivered e2 = delivered e).
  { intros e2 ->. cbv zeta. rewrite Hu, Z.geb_leb. destruct e; cbn. destruct (Z.leb_spec rx_next0 (ps_count sdu)); cbn; split_and!; try done; lia. }
  set (e2 := if _ >=? _ then _ else _). destruct (N e2 eq_refl) as (E1 & E2 & E3 & E4 & E5 & E6). clearbody e2. clear N.
  assert (F : Forall (fun s => rx_deliv e <= ps_count s < rx_next e2) l').
  { rewrite Hp. constructor; [lia|]. eapply Forall_impl; [exact Hf|]. cbn. lia. }
  assert (X : Exists (fun s => ps_count s = rx_next e2 - 1) l').
  { rewrite Hp. destruct (Z.leb_spec (rx_next e) (ps_count sdu)); [constructor; lia|].
    apply Exists_cons_tl. rewrite E2, Z.max_l by lia. apply Hl. lia. }
  destruct (Z.eqb_spec (ps_count sdu) (rx_deliv e2)) as [Eq|Ne].
  - apply deliver_run; rewrite ?E1, ?E4, ?E5, ?E6, ?E3; try done; try lia.
  - constructor; rewrite ?E1, ?E4, ?E5, ?E6, ?E3; try done; try lia.
    rewrite Hp. constructor; [lia|]. eapply Forall_impl; [exact Hf|]. cbn. lia.
Qed.

Lemma deliver_from_timer l : forall c e,
  t_reordering_start (deliver_from c l e).1 = t_reordering_start e /\ t_current (deliver_from c l e).1 = t_current e.
Proof.
  induction l as [|s l IH]; intros c e; cbn [deliver_from]; [done|]. case_if; [|done].
  destruct (IH (u32 (c + 1)) (deliver_one s e <| rx_list := l |>)) as [-> ->]. by destruct e.
Qed.

Lemma check_t_reordering_inv e : rx_inv e -> rx_inv (check_t_reordering e).
Proof.
  intros Hi. unfold check_t_reordering. case_if; [done|]. case_if; [done|]. bool_prop.
  destruct Hi as [Hs Hf Hn Hl Ht Ho Hb]. specialize (Ht ltac:(done)).
  set (e0 := e <| t_reordering_start := 0 |>).
  destruct (deliver_below_spec (rx_reord e0) (rx_list e0) e0 eq_refl) as (l1 & l2 & El & (rs & st & Ed) & F1 & S1 & F2 & S2).
  { destruct e; done. }
  set (e1 := deliver_below (rx_reord e0) (rx_list e0) e0) in *.
  assert (N : rx_list e1 = l2 /\ delivered e1 = delivered e ++ l1 /\ rx_next e1 = rx_next e /\
    rx_reord e1 = rx_reord e /\ t_reordering_start e1 = 0) by (rewrite Ed; by destruct e).
  destruct N as (N1 & N2 & N3 & N4 & N5). change (rx_reord e0) with (rx_reord e) in *.
  change (rx_list e0) with (rx_list e) in *. clearbody e1. rewrite El in Hf, Hl. apply Forall_app in Hf as [Hf1 Hf2].
  assert (P : rx_mid (let '(e', n) := deliver_from (rx_reord e1) (rx_list e1) e1 in e' <| rx_deliv := n |>)).
  { apply deliver_run; rewrite ?N1, ?N2, ?N3, ?N4, ?N5; try done; try lia.
    - rewrite Forall_forall in Hf2, F2 |- *. intros x Hx. specialize (Hf2 x Hx). specialize (F2 x Hx). cbn in *. lia.
    - intros Hlt. specialize (Hl ltac:(lia)). apply Exists_app in Hl as [Hl|Hl]; [|done]. exfalso.
      rewrite Exists_exists in Hl. destruct Hl as (x & Hx & Ex). rewrite Forall_forall in F1. specialize (F1 x Hx). cbn in *. lia.
    - apply (sorted_app _ _ (rx_deliv e)); [done|done|done|]. eapply Forall_impl; [exact Hf1|]. cbn. lia.
    - apply Forall_app. split; [|done]. eapply Forall_impl; [exact Hb|]. cbn. lia. }
  pose proof (deliver_from_timer (rx_list e1) (rx_reord e1) e1) as [T _]. pose proof (timer_inv _ P) as R.
  destruct (deliver_from (rx_reord e1) (rx_list e1) e1) as [e' n]. cbv zeta in R. cbn [fst] in T.
  assert (T1 : t_reordering_start (e' <| rx_deliv := n |>) = 0) by (rewrite <- N5; exact T).
  rewrite T1 in R. change (negb (0 =? 0)) with false in R. cbn [andb] in R. rewrite T1 in R. exact R.
Qed.

(** ** Reception of a PDU *)

(** Setting the D/C bit does not touch the sequence number. *)
Lemma read_sn_dc e b buf : read_sn e (Z.lor b 128 :: buf) = read_sn e (b :: buf).
Proof.
  unfold read_sn. change (rd (Z.lor b 128 :: buf) 0) with (Ok (Z.lor b 128)). change (rd (b :: buf) 0) with (Ok b).
  rewrite !bind_Ok, !Z.land_lor_distr_l. change (Z.land 128 15) with 0. change (Z.land 128 3) with 0.
  by rewrite !Z.lor_0_r.
Qed.

Lemma fix_dc_sn e buf buf' b0 : rd buf 0 = Ok b0 ->
  (if negb (is_srb (type e)) && (Z.land b0 128 =? 0) then wr buf 0 (Z.lor b0 128) else mret buf) = Ok buf' ->
  read_sn e buf' = read_sn e buf.
Proof.
  destruct buf as [|b buf]; [discriminate|]. change (rd (b :: buf) 0) with (Ok b). intros [= <-].
  case_if; [|intros; by inv_res].
  rewrite wr_ok by (pose proof (zlen_nonneg buf); rewrite zlen_cons; lia). intros [= <-]. apply read_sn_dc.
Qed.

(** A PDU either changes the statistics only, or its SDU, with the COUNT of its sequence
    number, is new and enters the reordering list. *)
Lemma recv_pdu_cases e buf size e' : nr_pdcp_entity_recv_pdu e buf size = Ok e' ->
  (exists st, e' = e <| stats := st |>) \/
  exists st sn sdu n, read_sn e buf = Ok sn /\ ps_count sdu = rcvd_count e sn /\
    rx_deliv e <= ps_count sdu /\ nr_pdcp_sdu_in_list (rx_list e) (ps_count sdu) = false /\
    e' = store_sdu (e <| stats := st |>) sdu n.
Proof.
  unfold nr_pdcp_entity_recv_pdu. case_if; [intros; inv_res; left; exists (stats e'); by destruct e'|].
  case_if; [intros; inv_res; left; exists (stats e'); by destruct e'|]. intros H.
  apply bind_ok in H as (b0 & R0 & H). apply bind_ok in H as (buf' & W & H).
  pose proof (fix_dc_sn e buf buf' b0 R0 W) as HS. apply bind_ok in H as (sn & RS & H).
  assert (RS' : read_sn e buf = Ok sn) by (rewrite <- HS; exact RS). clear RS HS W R0.
  case_if; [inv_res; left; eexists; by destruct e|].
  apply bind_ok in H as (mi & M & H). apply bind_ok in H as (buf2 & C & H). apply bind_ok in H as (ok & I & H).
  clear C I. case_if; [inv_res; left; eexists; by destruct e|].
  unfold store_and_deliver in H. case_if; [inv_res; left; eexists; by destruct e|].
  apply bind_ok in H as (data & S & H). apply bind_ok in H as (sdu & N & H). inv_res. bool_prop.
  unfold nr_pdcp_new_sdu in N. inv_res.
  right. exists (((stats e) <| rxpdu_pkts ::= add32 1 |> <| rxpdu_bytes ::= add32 size |>) <| rxpdu_sn := sn |>), sn.
  eexists _, _. split; [done|]. split; [|split; [|split; [|reflexivity]]].
  - reflexivity.
  - assumption.
  - assumption.
Qed.

(** ** Runs of the entity *)

(** The state variables of the reception. *)
Definition rx_view (e : nr_pdcp_entity_t) :=
  (rx_list e, rx_next e, rx_deliv e, rx_reord e, t_reordering_start e, delivered e).

Lemma rx_inv_view e e' : rx_view e' = rx_view e -> rx_inv e -> rx_inv e'.
Proof. unfold rx_view. intros [= E1 E2 E3 E4 E5 E6] []. constructor; by rewrite ?E1, ?E2, ?E3, ?E4, ?E5, ?E6. Qed.

(** The COUNT of a received PDU is not the last one: [RX_NEXT] does not wrap. *)
Definition count_ok (e : nr_pdcp_entity_t) (buf : bytes) : Prop :=
  forall sn, read_sn e buf = Ok sn -> rcvd_count e sn < 2 ^ 32 - 1.

Lemma recv_pdu_inv e buf size e' : rx_inv e -> count_ok e buf ->
  nr_pdcp_entity_recv_pdu e buf size = Ok e' -> rx_inv e'.
Proof.
  intros Hi Hc H. apply recv_pdu_cases in H as [[st ->]|(st & sn & sdu & n & Hsn & Ec & Hd & Hin & ->)].
  - by apply (rx_inv_view e); [destruct e|].
  - apply store_sdu_inv; [by apply (rx_inv_view e); [destruct e|]| |exact Hin].
    specialize (Hc sn Hsn). split; [exact Hd|]. by rewrite Ec.
Qed.

Lemma set_integrity_view e a e' : set_integrity e a = Ok e' -> rx_view e' = rx_view e /\ t_current e' = t_current e.
Proof. unfold set_integrity. intros H. repeat case_if; inv_res; done. Qed.

Lemma set_ciphering_view e a e' : set_ciphering e a = Ok e' -> rx_view e' = rx_view e /\ t_current e' = t_current e.
Proof. unfold set_ciphering. intros H. repeat case_if; inv_res; done. Qed.

Lemma set_security_view e p e' : nr_pdcp_entity_set_security e p = Ok e' ->
  rx_view e' = rx_view e /\ t_current e' = t_current e.
Proof.
  unfold nr_pdcp_entity_set_security. intros H. apply bind_ok in H as (e1 & H1 & H2).
  apply set_ciphering_view in H2 as [-> ->]. apply set_integrity_view in H1 as [-> ->].
  repeat case_if; by destruct e.
Qed.

Lemma process_sdu_view e buf size id out max n out' e' :
  nr_pdcp_entity_process_sdu e buf size id out max = Ok (n, out', e') ->
  rx_view e' = rx_view e /\ t_current e' = t_current e.
Proof.
  unfold nr_pdcp_entity_process_sdu. case_if; [done|]. case_if; [intros [= <- <- <-]; done|]. intros H.
  apply bind_ok in H as (b1 & _ & H). apply bind_ok in H as (b2 & _ & H). apply bind_ok in H as (b3 & _ & H).
  apply bind_ok in H as (b4 & _ & H). apply bind_ok in H as (b5 & _ & H). injection H as _ _ <-. by destruct e.
Qed.

(** What can happen to an entity within one COUNT epoch: a PDU comes in, the clock ticks,
    an SDU goes out, security is (re)configured, an AM bearer is re-established. *)
Inductive pdcp_step : nr_pdcp_entity_t -> nr_pdcp_entity_t -> Prop :=
| step_recv e buf size e' : count_ok e buf -> nr_pdcp_entity_recv_pdu e buf size = Ok e' -> pdcp_step e e'
| step_time e now : now <> 0 -> pdcp_step e (nr_pdcp_entity_set_time e now)
| step_send e buf size id out max n out' e' :
    nr_pdcp_entity_process_sdu e buf size id out max = Ok (n, out', e') -> pdcp_step e e'
| step_security e p e' : nr_pdcp_entity_set_security e p = Ok e' -> pdcp_step e e'
| step_reestablish_am e p e' : nr_pdcp_entity_reestablish_drb_am e p = Ok e' -> pdcp_step e e'.

Lemma step_inv e e' : pdcp_step e e' -> rx_inv e -> rx_inv e'.
Proof.
  intros H Hi. destruct H as [e buf size e' Hc H|e now|e buf size id out max n out' e' H|e p e' H|e p e' H].
  - by eapply recv_pdu_inv.
  - apply check_t_reordering_inv. by apply (rx_inv_view e); [destruct e|].
  - apply (rx_inv_view e); [by apply process_sdu_view in H as []|done].
  - apply (rx_inv_view e); [by apply set_security_view in H as []|done].
  - unfold nr_pdcp_entity_reestablish_drb_am in H. apply bind_ok in H as (e1 & H & E). inv_res.
    apply (rx_inv_view e1); [by destruct e1|]. apply (rx_inv_view e); [by apply set_security_view in H as []|done].
Qed.

Lemma new_inv t g rb ps sr st sn tr dt p e : new_nr_pdcp_entity t g rb ps sr st sn tr dt p = Ok e -> rx_inv e.
Proof.
  intros H. apply set_security_view in H as [E _]. eapply rx_inv_view; [exact E|].
  constructor; cbn; try done; try constructor; lia.
Qed.

(** Runs keep the invariant. *)
Lemma run_inv e e' : rtc pdcp_step e e' -> rx_inv e -> rx_inv e'.
Proof. induction 1; [done|]. intros. by eauto using step_inv. Qed.

(** ** The reordering timer *)

(** Once the clock runs, a gap is always timed. *)
Definition timed (e : nr_pdcp_entity_t) : Prop :=
  t_current e <> 0 /\ (rx_deliv e < rx_next e -> t_reordering_start e <> 0).

Lemma start_timer_timed e : t_current e <> 0 ->
  timed (if (t_reordering_start e =? 0) && (rx_deliv e <? rx_next e)
         then e <| rx_reord := rx_next e |> <| t_reordering_start := t_current e |> else e).
Proof.
  intros H. case_if; bool_prop; [by split|]. split; [done|]. lia.
Qed.

Lemma store_sdu_timed e sdu n : t_current e <> 0 -> timed (store_sdu e sdu n).
Proof.
  intros H. unfold store_sdu. apply start_timer_timed.
  match goal with |- context [deliver_from ?c ?l ?x] =>
    pose proof (deliver_from_timer l c x) as [_ T]; destruct (deliver_from c l x) as [x' m] end.
  cbn [fst] in T. repeat case_if; try done; change (t_current x' <> 0); by rewrite T.
Qed.

Lemma deliver_below_clock b l : forall e, t_current (deliver_below b l e) = t_current e /\
  t_reordering_start (deliver_below b l e) = t_reordering_start e /\ rx_reord (deliver_below b l e) = rx_reord e.
Proof.
  induction l as [|s l IH]; intros e; cbn [deliver_below]; [done|]. case_if; [|done].
  by destruct (IH (deliver_one s e <| rx_list := l |>)) as (-> & -> & ->).
Qed.

Lemma check_t_reordering_timed e : t_current e <> 0 -> (rx_deliv e < rx_next e -> t_reordering_start e <> 0) ->
  timed (check_t_reordering e).
Proof.
  intros Hc Ht. unfold check_t_reordering. case_if; [done|]. case_if; [done|].
  set (e1 := deliver_below _ _ _). destruct (deliver_below_clock (rx_reord (e <| t_reordering_start := 0 |>))
    (rx_list (e <| t_reordering_start := 0 |>)) (e <| t_reordering_start := 0 |>)) as (C & _ & _). fold e1 in C.
  destruct (deliver_from_timer (rx_list e1) (rx_reord e1) e1) as [_ T].
  destruct (deliver_from (rx_reord e1) (rx_list e1) e1) as [e' n]. cbn [fst] in T.
  assert (T1 : t_current (e' <| rx_deliv := n |>) <> 0) by (change (t_current e' <> 0); rewrite T, C; exact Hc).
  case_if; bool_prop; split; try done. lia.
Qed.

Lemma step_timed e e' : pdcp_step e e' -> timed e -> timed e'.
Proof.
  assert (V : forall e e', rx_view e' = rx_view e /\ t_current e' = t_current e -> timed e -> timed e').
  { unfold rx_view, timed. intros x x' [[= ? E2 E3 ? E5 ?] ->]. by rewrite E2, E3, E5. }
  intros H Ht. destruct H as [e buf size e' Hc H|e now Hn|e buf size id out max n out' e' H|e p e' H|e p e' H].
  - apply recv_pdu_cases in H as [[st ->]|(st & sn & sdu & n & _ & _ & _ & _ & ->)].
    + by apply (V e).
    + apply store_sdu_timed, Ht.
  - apply check_t_reordering_timed; [done|]. apply Ht.
  - by eapply V; [eapply process_sdu_view|].
  - by eapply V; [eapply set_security_view|].
  - unfold nr_pdcp_entity_reestablish_drb_am in H. apply bind_ok in H as (e1 & H & E). inv_res.
    apply (V e1); [done|]. by eapply V; [eapply set_security_view|].
Qed.

Lemma run_timed e e' : rtc pdcp_step e e' -> timed e -> timed e'.
Proof. induction 1; [done|]. intros. by eauto using step_timed. Qed.

(** Expiry hands over everything below [RX_REORD] and the run that starts there. *)
Lemma expiry_spec e : rx_inv e -> t_reordering e <> -1 -> t_reordering_start e <> 0 ->
  u64 (t_reordering_start e + t_reordering e) < t_current e ->
  let e' := check_t_reordering e in
  exists l1 l2, rx_list e = l1 ++ l2 /\ rx_list e' = l2 /\ delivered e' = delivered e ++ l1 /\
    rx_reord e <= rx_deliv e' /\
    Forall (fun s => ps_count s < rx_deliv e') l1 /\ Forall (fun s => rx_deliv e' < ps_count s) l2.
Proof.
  intros [Hs Hf Hn Hl Ht Ho Hb] Hr Hst Hcur. specialize (Ht Hst). unfold check_t_reordering.
  rewrite (proj2 (Z.eqb_neq (t_reordering e) (-1))), (proj2 (Z.eqb_neq (t_reordering_start e) 0)) by done.
  rewrite (proj2 (Z.leb_gt (t_current e) _)) by done. cbn [orb].
  set (e0 := e <| t_reordering_start := 0 |>).
  destruct (deliver_below_spec (rx_reord e0) (rx_list e0) e0 eq_refl Hs) as (l1 & l2 & El & (rs & st & Ed) & F1 & S1 & F2 & S2).
  set (e1 := deliver_below (rx_reord e0) (rx_list e0) e0) in *.
  assert (N : rx_list e1 = l2 /\ delivered e1 = delivered e ++ l1 /\ rx_next e1 = rx_next e /\
    rx_reord e1 = rx_reord e) by (rewrite Ed; by destruct e).
  destruct N as (N1 & N2 & N3 & N4). change (rx_list e0) with (rx_list e) in El. clearbody e1.
  change (rx_reord e0) with (rx_reord e) in *.
  rewrite El in Hf. apply Forall_app in Hf as [Hf1 Hf2].
  destruct (deliver_from_spec (rx_next e) l2 (proj2 Hn) (rx_reord e) e1 N1 S2 ltac:(lia))
    as (l3 & l4 & e2 & E & El2 & (rs' & st' & Ed2) & Hle & G1 & _ & G2).
  { rewrite Forall_forall in Hf2, F2 |- *. intros x Hx. specialize (Hf2 x Hx). specialize (F2 x Hx). cbn in *. lia. }
  rewrite N1, N4, E. pose proof (zlen_nonneg l3). cbv zeta.
  exists (l1 ++ l3), l4. rewrite <- app_assoc, <- El2. split; [done|].
  assert (R : rx_list e2 = l4 /\ delivered e2 = delivered e ++ l1 ++ l3) by (rewrite Ed2; cbn; by rewrite N2, <- app_assoc).
  destruct R as [R1 R2].
  case_if; cbn; rewrite ?R1, ?R2; (split; [done|]); (split; [done|]); (split; [lia|]); split; try done;
    (apply Forall_app; split; [eapply Forall_impl; [exact F1|]; cbn; lia | eapply Forall_impl; [exact G1|]; cbn; lia]).
Qed.

(** ** Flushing *)

Lemma deliver_list_spec l : forall e, rx_list e = l -> delivering e l [] (deliver_list l e).
Proof.
  induction l as [|s l IH]; intros e Hl; cbn [deliver_list]; [by apply delivering_refl|].
  apply delivering_cons. rewrite app_nil_r. by apply IH.
Qed.

(** With a clock, a suspended entity has handed over all it held and starts again at 0. *)
Lemma suspend_spec e : rx_inv e -> timed e ->
  let e' := nr_pdcp_entity_suspend e in
  rx_list e' = [] /\ delivered e' = delivered e ++ rx_list e /\ t_reordering_start e' = 0 /\
  rx_next e' = 0 /\ rx_deliv e' = 0 /\ tx_next e' = 0 /\ entity_suspended e' = true.
Proof.
  intros Hi [_ Ht]. unfold nr_pdcp_entity_suspend. cbv zeta.
  destruct (deliver_list_spec (rx_list (e <| tx_next := 0 |> <| t_reordering_start := 0 |>))
    (e <| tx_next := 0 |> <| t_reordering_start := 0 |>) eq_refl) as (rs & st & E). unfold deliver_all_sdus. rewrite E.
  change (t_reordering_start (e <| tx_next := 0 |>)) with (t_reordering_start e).
  destruct (Z.eqb_spec (t_reordering_start e) 0) as [E0|E0]; cbn [negb]; [|done].
  assert (L : rx_list e = []).
  { destruct (rx_list e) as [|s l] eqn:L; [done|]. exfalso. pose proof (ri_ahead _ Hi) as F. rewrite L in F.
    inversion F; subst. apply Ht; [lia|done]. }
  cbn. rewrite L, app_nil_r. by split_and!.
Qed.
End Rx.
