(* ===== verification/PdcpLink.v ===== *)
(** * PDCP peers: from the sender's SDU to the receiver's list

    What [nr_pdcp_entity_process_sdu] puts on the wire and what
    [nr_pdcp_entity_recv_pdu] of the peer entity makes of it, against the security
    interface; then two entities over a network that loses, repeats and reorders. *)

From S2P Require Import Prelude Snow3gMac Security Pdcp PdcpRx.
Import Pdcp.

Section Link.
Context {O : Openssl}.

(** ** The header *)

Definition header_bytes (srb : bool) (short : bool) (sn : Z) : bytes :=
  let dc_bit := if srb then 0 else 128 in
  if short then [Z.lor dc_bit (Z.land (Z.shiftr sn 8) 15); Z.land sn 255]
  else [Z.lor dc_bit (Z.land (Z.shiftr sn 16) 3); Z.land (Z.shiftr sn 8) 255; Z.land sn 255].

Definition header_of (e : nr_pdcp_entity_t) (c : Z) : bytes :=
  header_bytes (is_srb (type e)) (sn_size e =? SHORT_SN_SIZE) (Z.land c (sn_max e)).

Lemma header_zlen e c : zlen (header_of e c) = header_size e.
Proof. unfold header_of, header_bytes, header_size. by case_if. Qed.

Lemma land_mask x n : 0 <= n -> Z.land x (2 ^ n - 1) = x mod 2 ^ n.
Proof. intros H. rewrite <- Z.land_ones by done. by rewrite Z.ones_equiv, <- Z.sub_1_r. Qed.

Lemma header_byte s sh sn : Forall is_byte (header_bytes s sh sn).
Proof.
  assert (B : forall x n, 0 <= n <= 8 -> is_byte (Z.land x (2 ^ n - 1))).
  { intros x n Hn. rewrite land_mask by lia. unfold is_byte. pose proof (Z.mod_pos_bound x (2 ^ n)).
    pose proof (Z.pow_le_mono_r 2 n 8). lia. }
  assert (L : forall x n, 0 <= n <= 8 -> is_byte (Z.lor (if s then 0 else 128) (Z.land x (2 ^ n - 1)))).
  { intros x n Hn. apply (lor_bound 8); [done|by destruct s|by apply B]. }
  unfold header_bytes. destruct sh; repeat constructor;
    first [apply (L _ 4) | apply (L _ 2) | apply (B _ 8)]; lia.
Qed.

Lemma put_header_spec e hdr tl c : zlen hdr = header_size e ->
  put_header e (hdr ++ tl) (Z.land c (sn_max e)) = Ok (header_of e c ++ tl).
Proof.
  unfold put_header, header_of, header_bytes, header_size, zlen, SHORT_PDCP_HEADER_SIZE, LONG_PDCP_HEADER_SIZE.
  case_if; intros H.
  - destruct hdr as [|x [|y [|]]]; cbn [length] in H; try lia. cbn [app].
    rewrite wr_ok by (unfold zlen; rewrite ?length_insert; cbn [length]; lia). mon.
    rewrite wr_ok by (unfold zlen; rewrite ?length_insert; cbn [length]; lia). done.
  - destruct hdr as [|x [|y [|z [|]]]]; cbn [length] in H; try lia. cbn [app].
    rewrite wr_ok by (unfold zlen; rewrite ?length_insert; cbn [length]; lia). mon.
    rewrite wr_ok by (unfold zlen; rewrite ?length_insert; cbn [length]; lia). mon.
    rewrite wr_ok by (unfold zlen; rewrite ?length_insert; cbn [length]; lia). done.
Qed.

Lemma header_high (dc x n : Z) : Z.land dc (2 ^ n - 1) = 0 -> 0 <= n -> 0 <= x < 2 ^ n ->
  Z.land (Z.lor dc (Z.land x (2 ^ n - 1))) (2 ^ n - 1) = x.
Proof.
  intros Hd Hn Hx. rewrite Z.land_lor_distr_l, Hd, Z.lor_0_l, !land_mask, Zmod_mod by done. by apply Z.mod_small.
Qed.

Lemma rd_0 (a : Z) l : rd (a :: l) 0 = Ok a.
Proof. reflexivity. Qed.

Lemma rd_1 (a b : Z) l : rd (a :: b :: l) 1 = Ok b.
Proof. reflexivity. Qed.

Lemma rd_2 (a b c : Z) l : rd (a :: b :: c :: l) 2 = Ok c.
Proof. reflexivity. Qed.

Lemma read_sn_header e c tl : cfg_ok e -> read_sn e (header_of e c ++ tl) = Ok (c mod 2 ^ sn_size e).
Proof.
  intros [Hs Hm _]. unfold read_sn, header_of, header_bytes. rewrite Hm, land_mask by lia.
  set (sn := c mod 2 ^ sn_size e).
  assert (Hsn : 0 <= sn < 2 ^ sn_size e) by (apply Z.mod_pos_bound; destruct Hs as [-> | ->]; done).
  assert (D : forall n, n = 2 \/ n = 4 -> Z.land (if is_srb (type e) then 0 else 128) (2 ^ n - 1) = 0)
    by (intros n [-> | ->]; by case_if).
  clearbody sn. destruct Hs as [E|E]; rewrite E in Hsn |- *; cbn [app].
  - change (12 =? SHORT_SN_SIZE) with true. cbn [app]. rewrite rd_0, rd_1. mon. f_equal.
    assert (H : 0 <= sn / 2 ^ 8 < 2 ^ 4) by (split; [apply Z.div_pos; lia|apply Z.div_lt_upper_bound; lia]).
    rewrite Z.shiftr_div_pow2 by lia.
    change 15 with (2 ^ 4 - 1). change 255 with (2 ^ 8 - 1). rewrite (header_high _ _ 4 (D 4 ltac:(tauto)) ltac:(lia) H).
    rewrite (land_mask sn 8) by lia.
    rewrite lor_shiftl_add by (try apply Z.mod_pos_bound; lia).
    pose proof (Z.div_mod sn (2 ^ 8)). lia.
  - change (18 =? SHORT_SN_SIZE) with false. cbn [app]. rewrite rd_0, rd_1, rd_2. mon. f_equal.
    assert (H : 0 <= sn / 2 ^ 16 < 2 ^ 2) by (split; [apply Z.div_pos; lia|apply Z.div_lt_upper_bound; lia]).
    rewrite !Z.shiftr_div_pow2 by lia. change 3 with (2 ^ 2 - 1). change 255 with (2 ^ 8 - 1).
    rewrite (header_high _ _ 2 (D 2 ltac:(tauto)) ltac:(lia) H).
    rewrite !(land_mask _ 8) by lia.
    change (Z.shiftl (sn / 2 ^ 16) 16) with (Z.shiftl (sn / 2 ^ 16) (8 + 8)).
    rewrite <- Z.shiftl_shiftl, <- Z.shiftl_lor by lia.
    rewrite lor_shiftl_add by (try apply Z.mod_pos_bound; lia).
    rewrite lor_shiftl_add by (try apply Z.mod_pos_bound; lia).
    pose proof (Z.div_mod sn (2 ^ 8)). pose proof (Z.div_mod (sn / 2 ^ 8) (2 ^ 8)).
    rewrite (Z.div_div sn) in * by lia. change (2 ^ 8 * 2 ^ 8) with (2 ^ 16) in *. lia.
Qed.

(** ** The PDU of an SDU *)

Definition tx_direction (e : nr_pdcp_entity_t) : Z := if is_gnb e then 1 else 0.

(** The security functions of an entity meet the interface where they are on. *)
Record secured (e : nr_pdcp_entity_t) : Prop := {
  sd_cfg : cfg_ok e;
  sd_rb : 1 <= rb_id e < 32;
  sd_cipher : has_ciphering e = true -> exists f k, cipher e = Some f /\ security_context e = Some k /\ StreamCipher f k;
  sd_mac : has_integrity e = true -> exists f k, integrity e = Some f /\ integrity_context e = Some k /\ StreamMac f k }.

(** An SDU that fits: bytes, at least one beyond the SDAP header, within [int] bits. *)
Record sdu_ok (sdap : bool) (sdu : bytes) : Prop := {
  so_bytes : Forall is_byte sdu;
  so_size : b2z sdap + 1 <= zlen sdu < 2 ^ 29 - 16 }.

(** The MAC-I field of header and SDU [d]: computed, zero or absent. *)
Definition tag_of (e : nr_pdcp_entity_t) (d : bytes) (c : Z) (tag : bytes) : Prop :=
  if has_integrity e then
    exists f k, integrity e = Some f /\ integrity_context e = Some k /\ f k d (rb_id e) c (tx_direction e) = Ok tag
  else tag = replicate (Z.to_nat (integrity_size e)) 0.

(** The ciphered part: [ct] for [pt], and back. *)
Definition cipher_of (e : nr_pdcp_entity_t) (pt : bytes) (c : Z) (ct : bytes) : Prop :=
  if has_ciphering e then
    exists f k, cipher e = Some f /\ security_context e = Some k /\
      f k pt (rb_id e) c (tx_direction e) = Ok ct /\ f k ct (rb_id e) c (tx_direction e) = Ok pt
  else ct = pt.

(** [pdu] is what the configuration of [e] makes of [sdu] with COUNT [c]. *)
Definition encodes (e : nr_pdcp_entity_t) (c : Z) (sdu pdu : bytes) : Prop :=
  exists sd pt tag ct, sdu = sd ++ pt /\ zlen sd = b2z (has_sdap_tx e) /\ 1 <= zlen pt /\
    zlen tag = integrity_size e /\ zlen ct = zlen pt + integrity_size e /\
    tag_of e (header_of e c ++ sdu) c tag /\ cipher_of e (pt ++ tag) c ct /\
    pdu = header_of e c ++ sd ++ ct.

Lemma header_size_pos e : 0 < header_size e <= 3.
Proof. unfold header_size. by case_if. Qed.

Lemma integrity_size_range e : 0 <= integrity_size e <= 4.
Proof. unfold integrity_size. by case_if. Qed.

Lemma tag_exists e sdu c : secured e -> sdu_ok (has_sdap_tx e) sdu -> 0 <= c < 2 ^ 31 ->
  exists tag, tag_of e (header_of e c ++ sdu) c tag /\ zlen tag = integrity_size e /\ Forall is_byte tag.
Proof.
  intros [_ Hb _ Hm] [Bs Ls] Hc. unfold tag_of, integrity_size. destruct (has_integrity e).
  - destruct (Hm eq_refl) as (f & k & E1 & E2 & M).
    destruct (M (header_of e c ++ sdu) (rb_id e) c (tx_direction e)) as (m & E & L & B).
    { pose proof (header_zlen e c). pose proof (header_size_pos e). constructor; try done.
      - apply Forall_app. split; [apply header_byte|done].
      - rewrite zlen_app. destruct (has_sdap_tx e); cbn [b2z] in Ls; lia.
      - unfold tx_direction. by case_if. }
    exists m. split; [eauto 10|]. split; [|done]. unfold zlen. by rewrite L.
  - eexists. split; [reflexivity|]. cbn [orb]. destruct (is_srb (type e)); split; try done; by repeat constructor.
Qed.

Lemma cipher_exists e pt tag c : secured e -> Forall is_byte pt -> Forall is_byte tag -> 0 < zlen (pt ++ tag) < 2 ^ 29 ->
  0 <= c < 2 ^ 31 -> exists ct, cipher_of e (pt ++ tag) c ct /\ zlen ct = zlen (pt ++ tag).
Proof.
  intros [_ Hb Hcf _] Bp Bt Hl Hc. unfold cipher_of. destruct (has_ciphering e); [|eauto].
  destruct (Hcf eq_refl) as (f & k & E1 & E2 & M).
  destruct (M (pt ++ tag) (rb_id e) c (tx_direction e)) as (d & E & L & B & E').
  { constructor; try done; [by apply Forall_app|]. unfold tx_direction. by case_if. }
  exists d. split; [eauto 10|]. unfold zlen. by rewrite L.
Qed.

Lemma call_cipher_mid e b1 b2 b3 c dir f k d : cipher e = Some f -> security_context e = Some k ->
  f k b2 (rb_id e) c dir = Ok d -> zlen d = zlen b2 ->
  call_cipher e (b1 ++ b2 ++ b3) (zlen b1) (zlen b2) c dir = Ok (b1 ++ d ++ b3).
Proof.
  intros E1 E2 E3 L. unfold call_cipher. rewrite E1, E2. cbn [deref]. mon. rewrite slice_mid. mon.
  rewrite E3. mon. by apply blit_mid.
Qed.

Lemma call_integrity_prefix e b1 b2 c dir f k m : integrity e = Some f -> integrity_context e = Some k ->
  f k b1 (rb_id e) c dir = Ok m -> call_integrity e (b1 ++ b2) (zlen b1) c dir = Ok m.
Proof.
  intros E1 E2 E3. unfold call_integrity. rewrite E1, E2. cbn [deref]. mon.
  pose proof (slice_mid [] b1 b2) as S. cbn [app] in S. rewrite zlen_nil in S. rewrite S. mon. done.
Qed.

(** The MAC-I step of the sender on a buffer that holds header and SDU. *)
Lemma tx_tag_step e d t0 tl c tag : tag_of e d c tag -> zlen tag = integrity_size e -> zlen t0 = zlen tag ->
  (if has_integrity e then
     mac ← call_integrity e (d ++ t0 ++ tl) (zlen d) c (tx_direction e);
     blit (d ++ t0 ++ tl) (zlen d) mac
   else if integrity_size e =? PDCP_INTEGRITY_SIZE then blit (d ++ t0 ++ tl) (zlen d) [0; 0; 0; 0]
   else mret (d ++ t0 ++ tl)) = Ok (d ++ tag ++ tl).
Proof.
  unfold tag_of. intros Ht Lt L0. destruct (has_integrity e) eqn:Hi.
  - destruct Ht as (f & k & E1 & E2 & E3). rewrite (call_integrity_prefix e d _ c _ f k tag) by done. mon.
    by apply blit_mid.
  - subst tag. unfold integrity_size in *. rewrite Hi in *. destruct (is_srb (type e)); cbn in *.
    + by apply (blit_mid d t0 tl).
    + unfold mret, res_ret. destruct t0 as [|? ?]; [done|]. rewrite zlen_cons in L0. pose proof (zlen_nonneg t0). rewrite Lt in L0. lia.
Qed.

(** The ciphering step, of either side. *)
Lemma cipher_step e b1 pt tl c ct : cipher_of e pt c ct -> zlen ct = zlen pt ->
  (if has_ciphering e then call_cipher e (b1 ++ pt ++ tl) (zlen b1) (zlen pt) c (tx_direction e)
   else mret (b1 ++ pt ++ tl)) = Ok (b1 ++ ct ++ tl).
Proof.
  unfold cipher_of. intros H L. destruct (has_ciphering e); [|by subst ct].
  destruct H as (f & k & E1 & E2 & E3 & E4). by apply (call_cipher_mid e b1 pt tl c _ f k ct).
Qed.

(** The sender: the caller's buffer starts with the encoded PDU, [TX_NEXT] advances. *)
Lemma process_sdu_encodes e sdu id out : secured e -> entity_suspended e = false -> sdu_ok (has_sdap_tx e) sdu ->
  0 <= tx_next e < 2 ^ 31 -> nr_max_pdcp_pdu_size (zlen sdu) <= zlen out ->
  exists pdu tl st, nr_pdcp_entity_process_sdu e sdu (zlen sdu) id out (zlen out) =
      Ok (zlen pdu, pdu ++ tl, e <| tx_next := tx_next e + 1 |> <| stats := st |>) /\
    encodes e (tx_next e) sdu pdu.
Proof.
  intros Hse Hsu Hok Hc Hout. pose proof Hok as [Bs Ls].
  destruct (tag_exists e sdu (tx_next e) Hse Hok Hc) as (tag & Ht & Lt & Bt).
  pose proof (header_size_pos e). pose proof (integrity_size_range e). pose proof (header_zlen e (tx_next e)) as Lh.
  unfold nr_max_pdcp_pdu_size, LONG_PDCP_HEADER_SIZE, PDCP_INTEGRITY_SIZE in Hout.
  pose proof (zlen_nonneg sdu).
  destruct (split_at out (header_size e)) as (h0 & o1 & -> & Lh0); [lia|].
  destruct (split_at o1 (zlen sdu)) as (s0 & o2 & -> & Ls0); [rewrite zlen_app in Hout; lia|].
  destruct (split_at o2 (integrity_size e)) as (t0 & o3 & -> & Lt0); [rewrite !zlen_app in Hout; lia|].
  destruct (split_at sdu (b2z (has_sdap_tx e))) as (sd & pt & -> & Lsd).
  { destruct (has_sdap_tx e); cbn [b2z] in *; lia. }
  assert (Lpt : 1 <= zlen pt) by (rewrite zlen_app in Ls; lia).
  apply Forall_app in Bs as [Bsd Bpt].
  destruct (cipher_exists e pt tag (tx_next e) Hse Bpt Bt) as (ct & Hct & Lct);
    [rewrite zlen_app in Ls; rewrite zlen_app; pose proof (zlen_nonneg sd); lia|done|].
  exists (header_of e (tx_next e) ++ sd ++ ct), o3. eexists. split.
  2:{ exists sd, pt, tag, ct. rewrite zlen_app in Lct. split_and!; try done; lia. }
  unfold nr_pdcp_entity_process_sdu. rewrite (proj2 (Z.leb_le (nr_max_pdcp_pdu_size _) _)), Hsu by
    (unfold nr_max_pdcp_pdu_size, LONG_PDCP_HEADER_SIZE, PDCP_INTEGRITY_SIZE; lia).
  cbn [negb]. set (e1 := e <| stats ::= _ |>).
  change (integrity_size e) with (integrity_size e1) in *. change (header_size e) with (header_size e1) in *.
  change (header_of e) with (header_of e1) in *. change (tx_next e) with (tx_next e1) in *.
  change (has_sdap_tx e) with (has_sdap_tx e1) in *.
  rewrite (put_header_spec e1 h0 _ (tx_next e1) Lh0), bind_Ok, slice_all, bind_Ok. rewrite <- Lh at 1.
  rewrite blit_mid, bind_Ok by done.
  set (hd := header_of e1 (tx_next e1)) in *.
  change (if is_gnb e1 then 1 else 0) with (tx_direction e1).
  change (header_size (e1 <| tx_next := _ |>)) with (header_size e1).
  change (integrity_size (e1 <| tx_next := _ |>)) with (integrity_size e1).
  replace (header_size e1 + zlen (sd ++ pt)) with (zlen (hd ++ sd ++ pt)) by (rewrite (zlen_app hd); lia).
  rewrite (app_assoc hd (sd ++ pt)).
  rewrite (tx_tag_step e1 (hd ++ sd ++ pt) t0 o3 (tx_next e1) tag Ht Lt), bind_Ok by congruence.
  replace ((hd ++ sd ++ pt) ++ tag ++ o3) with ((hd ++ sd) ++ (pt ++ tag) ++ o3) by (by rewrite <- !app_assoc).
  replace (header_size e1 + b2z (has_sdap_tx e1)) with (zlen (hd ++ sd)) by (rewrite zlen_app; lia).
  replace (zlen (sd ++ pt) + integrity_size e1 - b2z (has_sdap_tx e1)) with (zlen (pt ++ tag)) by (rewrite !zlen_app; lia).
  rewrite (cipher_step e1 (hd ++ sd) (pt ++ tag) o3 (tx_next e1) ct Hct Lct), bind_Ok.
  replace (zlen (hd ++ sd ++ pt) + integrity_size e1) with (zlen (hd ++ sd ++ ct)) by (rewrite !zlen_app in *; lia).
  replace (u32 (tx_next e1 + 1)) with (tx_next e1 + 1) by (symmetry; apply Z.mod_small; lia).
  rewrite <- !app_assoc. reflexivity.
Qed.

(** ** The receiver *)

(** [rx] is configured as the peer of [tx]. *)
Record peers (tx rx : nr_pdcp_entity_t) : Prop := {
  pe_cfg : cfg_ok tx /\ cfg_ok rx;
  pe_bearer : is_srb (type rx) = is_srb (type tx) /\ rb_id rx = rb_id tx /\ sn_size rx = sn_size tx;
  pe_sdap : has_sdap_rx rx = has_sdap_tx tx;
  pe_ends : is_gnb rx = negb (is_gnb tx);
  pe_cipher : has_ciphering rx = has_ciphering tx /\ cipher rx = cipher tx /\ security_context rx = security_context tx;
  pe_mac : has_integrity rx = has_integrity tx /\ integrity rx = integrity tx /\ integrity_context rx = integrity_context tx;
  pe_on : entity_suspended rx = false }.

Lemma dc_bit_set e c tl b0 : rd (header_of e c ++ tl) 0 = Ok b0 ->
  negb (is_srb (type e)) && (Z.land b0 128 =? 0) = false.
Proof.
  unfold header_of, header_bytes. destruct (is_srb (type e)); [done|].
  assert (D : forall x n, 0 <= n < 8 -> Z.land (Z.lor 128 (Z.land x (2 ^ n - 1))) 128 = 128).
  { intros x n Hn. rewrite Z.land_lor_distr_l. rewrite land_mask by lia. change (Z.land 128 128) with 128.
    apply Z.bits_inj'. intros m Hm. rewrite Z.lor_spec, Z.land_spec. change 128 with (2 ^ 7).
    rewrite Z.pow2_bits_eqb by lia. destruct (Z.eqb_spec 7 m) as [<-|]; [done|].
    by rewrite andb_false_r. }
  case_if; cbn [app]; rewrite rd_0; intros [= <-]; cbn [negb andb]; [rewrite (D _ 4)|rewrite (D _ 2)]; done.
Qed.

Lemma rx_tag_check tx rx d tag c : peers tx rx -> tag_of tx d c tag -> zlen tag = integrity_size rx ->
  (if has_integrity rx then
     mac ← call_integrity rx (d ++ tag) (zlen d) c (tx_direction tx);
     rcv ← slice (d ++ tag) (zlen d) PDCP_INTEGRITY_SIZE;
     mret (bool_decide (mac = rcv))
   else mret true) = Ok true.
Proof.
  intros [_ (_ & Hb & _) _ _ _ (H1 & H2 & H3) _] Ht Lt. unfold tag_of in Ht. rewrite H1 in *.
  destruct (has_integrity tx) eqn:Hi; [|done]. destruct Ht as (f & k & E1 & E2 & E3).
  rewrite (call_integrity_prefix rx d tag c _ f k tag) by (by rewrite ?H2, ?H3, ?Hb). mon.
  unfold integrity_size in Lt. rewrite H1 in Lt. cbn [orb] in Lt. rewrite <- Lt, slice_app_r. mon.
  by rewrite bool_decide_eq_true_2.
Qed.

Lemma store_integrity_ok e hd body c : zlen hd = header_size e -> integrity_size e <= zlen body ->
  exists mi, store_integrity e (hd ++ body) (zlen (hd ++ body)) c = Ok mi.
Proof.
  intros Lh Lb. unfold store_integrity, integrity_size in *. pose proof (header_size_pos e). case_if; [|eauto].
  unfold PDCP_INTEGRITY_SIZE in Lb. rewrite zlen_app.
  rewrite (slice_ok (hd ++ body) (zlen hd + zlen body - 4) 4), bind_Ok by (rewrite ?zlen_app; lia).
  pose proof (slice_mid [] hd body) as S. cbn [app] in S. rewrite zlen_nil, Lh in S. rewrite S, bind_Ok.
  rewrite blit_ok, bind_Ok by (change (zlen [0; 0; 0]) with 3; lia). eexists. reflexivity.
Qed.

(** What the peer makes of an encoded PDU whose COUNT is in its window. *)
Definition accepted (rx : nr_pdcp_entity_t) (c : Z) (sdu : bytes) (r : res nr_pdcp_entity_t) : Prop :=
  exists st, if (c <? rx_deliv rx) || nr_pdcp_sdu_in_list (rx_list rx) c
             then r = Ok (rx <| stats := st |>)
             else exists mi n, r = Ok (store_sdu (rx <| stats := st |>) (mk_psdu c sdu (zlen sdu) mi) n).

Lemma peers_stats tx rx st : peers tx rx -> peers tx (rx <| stats := st |>).
Proof. intros [[? [? ? ?]] ? ? ? ? ? ?]. constructor; try done. Qed.

Lemma tx_rx_direction tx rx : peers tx rx -> (if is_gnb rx then 0 else 1) = tx_direction tx.
Proof. intros [_ _ _ -> _ _ _]. unfold tx_direction. by destruct (is_gnb tx). Qed.

Lemma rx_cipher_step tx rx b1 pt tl c ct : peers tx rx -> cipher_of tx pt c ct -> zlen ct = zlen pt ->
  (if has_ciphering rx then call_cipher rx (b1 ++ ct ++ tl) (zlen b1) (zlen ct) c (tx_direction tx)
   else mret (b1 ++ ct ++ tl)) = Ok (b1 ++ pt ++ tl).
Proof.
  intros [_ (_ & Hb & _) _ _ (H1 & H2 & H3) _ _]. unfold cipher_of. intros H L. rewrite H1.
  destruct (has_ciphering tx); [|by subst ct]. destruct H as (f & k & E1 & E2 & E3 & E4).
  apply (call_cipher_mid rx b1 ct tl c _ f k pt); by rewrite ?H2, ?H3, ?Hb.
Qed.

(** Header, deciphering and integrity check undo what the sender did. *)
Lemma recv_reaches_store tx rx c sdu pdu : peers tx rx -> encodes tx c sdu pdu ->
  0 <= rx_deliv rx < 2 ^ 32 -> 0 <= c < 2 ^ 32 -> - window_size rx <= c - rx_deliv rx < window_size rx ->
  exists hd tag st mi, zlen hd = header_size rx /\ zlen tag = integrity_size rx /\
    zlen pdu = zlen hd + zlen sdu + zlen tag /\
    nr_pdcp_entity_recv_pdu rx pdu (zlen pdu) =
      store_and_deliver (rx <| stats := st |>) (hd ++ sdu ++ tag) (zlen pdu) c mi.
Proof.
  intros Hp (sd & pt & tag & ct & -> & Lsd & Lpt & Lt & Lct & Ht & Hct & ->) Hd Hc Hw.
  pose proof Hp as [[Ctx Crx] (Hsrb & Hrb & Hsn) Hsdap _ _ (Hi1 & _ & _) Hon].
  assert (EH : header_of tx c = header_of rx c).
  { unfold header_of. rewrite Hsrb, Hsn. f_equal. destruct Ctx as [_ -> _], Crx as [_ -> _]. by rewrite Hsn. }
  assert (EI : integrity_size tx = integrity_size rx) by (unfold integrity_size; by rewrite Hi1, Hsrb).
  rewrite EH, EI in *. rewrite <- Hsdap in Lsd. set (hd := header_of rx c) in *. assert (Lh : zlen hd = header_size rx) by apply header_zlen.
  pose proof (header_size_pos rx). pose proof (integrity_size_range rx).
  set (size := zlen (hd ++ sd ++ ct)).
  assert (Ls : size = header_size rx + b2z (has_sdap_rx rx) + zlen pt + integrity_size rx)
    by (unfold size; rewrite !zlen_app; lia).
  assert (0 <= b2z (has_sdap_rx rx)) by by destruct (has_sdap_rx rx).
  destruct (rd_ok (hd ++ sd ++ ct) 0) as (b0 & R0 & _); [fold size; lia|].
  assert (RS := read_sn_header rx c (sd ++ ct) Crx). fold hd in RS.
  assert (RC := rcvd_count_correct rx c Crx Hd Hc Hw).
  set (st := (stats rx) <| rxpdu_pkts ::= add32 1 |> <| rxpdu_bytes ::= add32 size |> <| rxpdu_sn := c mod 2 ^ sn_size rx |>).
  assert (Hp2 := peers_stats tx rx st Hp). set (e2 := rx <| stats := st |>) in *.
  destruct (store_integrity_ok e2 hd (sd ++ ct) c Lh) as (mi & Hmi); [rewrite zlen_app; change (integrity_size e2) with (integrity_size rx); pose proof (zlen_nonneg sd); lia|].
  exists hd, tag, st, mi. split; [done|]. split; [done|].
  split; [unfold size; rewrite !zlen_app; lia|]. unfold nr_pdcp_entity_recv_pdu.
  rewrite Hon, (proj2 (Z.ltb_ge size 1)), R0, bind_Ok, (dc_bit_set rx c _ b0 R0), bind_Ok by lia.
  change (read_sn (rx <| stats ::= _ |>)) with (read_sn rx). rewrite RS, bind_Ok.
  change ((rx <| stats ::= _ |>) <| stats ::= _ |>) with e2.
  change (header_size e2) with (header_size rx). change (has_sdap_rx (rx <| stats ::= _ |>)) with (has_sdap_rx rx).
  change (integrity_size e2) with (integrity_size rx). rewrite (proj2 (Z.ltb_ge size _)) by lia.
  change (rcvd_count e2) with (rcvd_count rx). rewrite RC, (tx_rx_direction tx e2 Hp2).
  fold size in Hmi. rewrite Hmi, bind_Ok.
  replace (size - (header_size rx + b2z (has_sdap_rx rx))) with (zlen ct) by lia.
  replace (header_size rx + b2z (has_sdap_rx rx)) with (zlen (hd ++ sd)) by (rewrite zlen_app; lia).
  replace (hd ++ sd ++ ct) with ((hd ++ sd) ++ ct ++ []) by (by rewrite app_nil_r, <- app_assoc).
  rewrite (rx_cipher_step tx e2 (hd ++ sd) (pt ++ tag) [] c ct Hp2 Hct), bind_Ok by (rewrite zlen_app; lia).
  replace ((hd ++ sd) ++ (pt ++ tag) ++ []) with ((hd ++ sd ++ pt) ++ tag) by (by rewrite app_nil_r, <- !app_assoc).
  replace (size - integrity_size rx) with (zlen (hd ++ sd ++ pt)) by (rewrite !zlen_app; lia).
  rewrite (rx_tag_check tx e2 (hd ++ sd ++ pt) tag c Hp2 Ht Lt), bind_Ok. cbn [negb].
  by rewrite <- !app_assoc.
Qed.

Lemma recv_encoded tx rx c sdu pdu : peers tx rx -> encodes tx c sdu pdu ->
  0 <= rx_deliv rx < 2 ^ 32 -> 0 <= c < 2 ^ 32 -> - window_size rx <= c - rx_deliv rx < window_size rx ->
  accepted rx c sdu (nr_pdcp_entity_recv_pdu rx pdu (zlen pdu)).
Proof.
  intros Hp He Hd Hc Hw.
  destruct (recv_reaches_store tx rx c sdu pdu Hp He Hd Hc Hw) as (hd & tag & st & mi & Lh & Lt & Ls & ->).
  unfold store_and_deliver, accepted. pose proof (zlen_nonneg sdu).
  change (rx_deliv (rx <| stats := st |>)) with (rx_deliv rx). change (rx_list (rx <| stats := st |>)) with (rx_list rx).
  change (header_size (rx <| stats := st |>)) with (header_size rx).
  change (integrity_size (rx <| stats := st |>)) with (integrity_size rx).
  destruct (_ || _); [by eexists|]. exists st.
  replace (zlen pdu - header_size rx - integrity_size rx) with (zlen sdu) by lia. rewrite <- Lh.
  rewrite slice_mid, bind_Ok. unfold nr_pdcp_new_sdu. rewrite slice_all, bind_Ok. mon. by eexists _, _.
Qed.

(** ** Reception keeps the configuration *)

Definition config (e : nr_pdcp_entity_t) :=
  ((type e, rb_id e, sn_size e, sn_max e, window_size e, t_reordering e, has_sdap_rx e),
   (is_gnb e, has_ciphering e, cipher e, security_context e, has_integrity e, integrity e, integrity_context e,
    entity_suspended e, pdusession_id e)).

Lemma peers_config tx rx rx' : config rx' = config rx -> peers tx rx -> peers tx rx'.
Proof.
  unfold config. intros [= E1 E2 E3 E4 E5 E6 E7 E8 E9 E10 E11 E12 E13 E14 E15 E16] [[? [? ? ?]] ? ? ? ? ? ?].
  constructor; rewrite ?E1, ?E2, ?E3, ?E7, ?E8, ?E9, ?E10, ?E11, ?E12, ?E13, ?E14, ?E15; try done.
  split; [done|]. constructor; by rewrite ?E3, ?E4, ?E5.
Qed.

Lemma deliver_from_config l : forall c e, config (deliver_from c l e).1 = config e.
Proof. induction l as [|s l IH]; intros c e; cbn [deliver_from]; [done|]. case_if; [|done]. by rewrite IH. Qed.

Lemma deliver_below_config b l : forall e, config (deliver_below b l e) = config e.
Proof. induction l as [|s l IH]; intros e; cbn [deliver_below]; [done|]. case_if; [|done]. by rewrite IH. Qed.

Lemma check_t_reordering_config e : config (check_t_reordering e) = config e.
Proof.
  unfold check_t_reordering. case_if; [done|]. case_if; [done|]. set (e1 := deliver_below _ _ _).
  assert (E1 : config e1 = config e) by (unfold e1; by rewrite deliver_below_config).
  pose proof (deliver_from_config (rx_list e1) (rx_reord e1) e1) as E2.
  destruct (deliver_from (rx_reord e1) (rx_list e1) e1) as [e' n]. cbn [fst] in E2. rewrite E1 in E2.
  by case_if.
Qed.

Lemma store_sdu_config e sdu n : config (store_sdu e sdu n) = config e.
Proof.
  unfold store_sdu. match goal with |- context [deliver_from ?c ?l ?x] =>
    pose proof (deliver_from_config l c x) as E; destruct (deliver_from c l x) as [e' m] end.
  cbn [fst] in E. repeat case_if; exact E || done.
Qed.

Lemma recv_pdu_config e buf size e' : nr_pdcp_entity_recv_pdu e buf size = Ok e' -> config e' = config e.
Proof.
  intros H. apply recv_pdu_cases in H as [[st ->]|(st & sn & sdu & n & _ & _ & _ & _ & ->)]; [done|].
  by rewrite store_sdu_config.
Qed.

Lemma config_timer e e' : config e' = config e -> t_reordering e' = t_reordering e.
Proof. intros H. exact (f_equal (fun x => snd (fst (fst x))) H). Qed.

(** A new SDU enters the list, and the run that starts at [RX_DELIV] leaves it. *)
Lemma store_sdu_spec e sdu n : rx_inv e -> rx_deliv e <= ps_count sdu < 2 ^ 32 - 1 ->
  nr_pdcp_sdu_in_list (rx_list e) (ps_count sdu) = false ->
  let e' := store_sdu e sdu n in
  exists l1 l2, l1 ++ l2 ≡ₚ sdu :: rx_list e /\ rx_list e' = l2 /\ delivered e' = delivered e ++ l1 /\
    rx_deliv e' = rx_deliv e + zlen l1 /\ Forall (fun s => ps_count s < rx_deliv e') l1 /\ config e' = config e.
Proof.
  intros [Hs Hf Hn Hl Ht Ho Hb] Hc Hin. apply in_list_spec in Hin.
  destruct (list_add_spec (rx_list e) sdu Hs Hin) as [Hs' Hp]. unfold store_sdu.
  set (l' := nr_pdcp_sdu_list_add (rx_list e) sdu) in *. clearbody l'. cbv zeta.
  set (e1 := if _ >=? _ then _ else _).
  assert (N : rx_list e1 = l' /\ rx_deliv e1 = rx_deliv e /\ delivered e1 = delivered e /\ config e1 = config e)
    by (unfold e1; by case_if).
  assert (F : Forall (fun s => rx_deliv e <= ps_count s < 2 ^ 32 - 1) l').
  { rewrite Hp. constructor; [lia|]. eapply Forall_impl; [exact Hf|]. cbn. lia. }
  destruct N as (N1 & N2 & N3 & N4). clearbody e1.
  assert (T : forall x : nr_pdcp_entity_t, let y := if negb (t_reordering_start x =? 0) && (rx_deliv x >=? rx_reord x)
      then x <| t_reordering_start := 0 |> else x in
    let z := if (t_reordering_start y =? 0) && (rx_deliv y <? rx_next y)
      then y <| rx_reord := rx_next y |> <| t_reordering_start := t_current y |> else y in
    rx_list z = rx_list x /\ delivered z = delivered x /\ rx_deliv z = rx_deliv x /\ config z = config x).
  { intros x. cbv zeta. by repeat case_if. }
  destruct (ps_count sdu =? rx_deliv e1) eqn:Ec.
  - destruct (deliver_from_spec (2 ^ 32 - 1) l' ltac:(done) (rx_deliv e) e1 N1 Hs' ltac:(lia) F)
      as (l1 & l2 & e2 & E & El & (rs & st & Ed) & _ & F1 & _ & _).
    rewrite N1, N2, E. destruct (T (e2 <| rx_deliv := rx_deliv e + zlen l1 |>)) as (T1 & T2 & T3 & T4).
    cbv zeta in T1, T2, T3, T4. exists l1, l2. rewrite T1, T2, T3, T4. rewrite <- Hp, El. split; [done|].
    rewrite Ed. cbn. rewrite N3. split; [done|]. split; [done|]. split; [done|]. split; [|done].
    eapply Forall_impl; [exact F1|]. cbn. lia.
  - destruct (T e1) as (T1 & T2 & T3 & T4). cbv zeta in T1, T2, T3, T4. exists [], l'.
    rewrite T1, T2, T3, T4, N1, N2, N3, N4. rewrite app_nil_r, zlen_nil. split; [done|].
    split; [done|]. split; [done|]. split; [lia|]. by split.
Qed.

(** Time passes: a prefix of the list is delivered. *)
Lemma set_time_spec e now : rx_inv e ->
  let e' := nr_pdcp_entity_set_time e now in
  exists l1 l2, rx_list e = l1 ++ l2 /\ rx_list e' = l2 /\ delivered e' = delivered e ++ l1 /\
    rx_deliv e <= rx_deliv e' /\ Forall (fun s => ps_count s < rx_deliv e') l1 /\ config e' = config e /\
    (t_reordering e = -1 -> rx_deliv e' = rx_deliv e /\ l1 = []).
Proof.
  intros Hi. cbv zeta. unfold nr_pdcp_entity_set_time. set (e0 := e <| t_current := now |>).
  assert (Hi0 : rx_inv e0) by by apply (rx_inv_view e).
  assert (D : check_t_reordering e0 = e0 \/ (t_reordering e0 <> -1 /\ t_reordering_start e0 <> 0 /\
    u64 (t_reordering_start e0 + t_reordering e0) < t_current e0)).
  { unfold check_t_reordering. case_if; [tauto|]. case_if; [tauto|]. bool_prop. tauto. }
  destruct D as [E|(H1 & H2 & H3)].
  - rewrite E. exists [], (rx_list e). rewrite app_nil_r. by split_and!.
  - pose proof (expiry_spec e0 Hi0 H1 H2 H3) as X. cbv zeta in X.
    destruct X as (l1 & l2 & E1 & E2 & E3 & E4 & E5 & E6).
    exists l1, l2. pose proof (ri_timer _ Hi0 H2). split_and!; try done.
    + change (rx_deliv e) with (rx_deliv e0). lia.
    + by rewrite check_t_reordering_config.
Qed.

(** ** Two entities and a network *)

(** [l_net] are the PDUs sent so far, the PDU of COUNT [i] at index [i]; the network may
    hand any of them over, at any time, any number of times, or never.  [l_sent] and
    [l_got] record the SDUs sent and the indices handed over. *)
Record link := mk_link {
  l_tx : nr_pdcp_entity_t; l_rx : nr_pdcp_entity_t;
  l_sent : list bytes; l_net : list bytes; l_got : list nat }.

Inductive link_step : link -> link -> Prop :=
| link_send tx rx sent net got sdu id out n out' tx' :
    sdu_ok (has_sdap_tx tx) sdu -> tx_next tx < 2 ^ 31 - 1 -> nr_max_pdcp_pdu_size (zlen sdu) <= zlen out ->
    nr_pdcp_entity_process_sdu tx sdu (zlen sdu) id out (zlen out) = Ok (n, out', tx') ->
    link_step (mk_link tx rx sent net got)
      (mk_link tx' rx (sent ++ [sdu]) (net ++ [take (Z.to_nat n) out']) got)
| link_recv tx rx sent net got i pdu rx' :
    net !! i = Some pdu -> - window_size rx <= Z.of_nat i - rx_deliv rx < window_size rx ->
    nr_pdcp_entity_recv_pdu rx pdu (zlen pdu) = Ok rx' ->
    link_step (mk_link tx rx sent net got) (mk_link tx rx' sent net (i :: got))
| link_tick tx rx sent net got now :
    link_step (mk_link tx rx sent net got) (mk_link tx (nr_pdcp_entity_set_time rx now) sent net got).

(** [s] is the SDU sent with its COUNT. *)
Definition genuine (sent : list bytes) (s : nr_pdcp_sdu_t) : Prop :=
  0 <= ps_count s /\ sent !! Z.to_nat (ps_count s) = Some (ps_buffer s).

Record link_inv (l : link) : Prop := {
  li_tx : secured (l_tx l) /\ entity_suspended (l_tx l) = false;
  li_peers : peers (l_tx l) (l_rx l);
  li_rx : rx_inv (l_rx l);
  li_next : tx_next (l_tx l) = zlen (l_sent l) /\ tx_next (l_tx l) < 2 ^ 31;
  li_net : length (l_net l) = length (l_sent l) /\ forall i sdu pdu,
    l_sent l !! i = Some sdu -> l_net l !! i = Some pdu -> encodes (l_tx l) (Z.of_nat i) sdu pdu;
  li_held : Forall (genuine (l_sent l)) (rx_list (l_rx l));
  li_delivered : Forall (genuine (l_sent l)) (delivered (l_rx l));
  li_got : Forall (fun i => (i < length (l_sent l))%nat /\ (Z.of_nat i < rx_deliv (l_rx l) \/
    Exists (fun s => ps_count s = Z.of_nat i) (rx_list (l_rx l)))) (l_got l);
  li_all : t_reordering (l_rx l) = -1 -> zlen (delivered (l_rx l)) = rx_deliv (l_rx l) }.

(** Distinct increasing COUNTs pick a sub-sequence of what was sent. *)
Lemma genuine_sublist sent : forall k l, sorted l ->
  Forall (fun s => k <= ps_count s /\ sent !! Z.to_nat (ps_count s - k) = Some (ps_buffer s)) l ->
  (ps_buffer <$> l) `sublist_of` sent.
Proof.
  induction sent as [|x sent IH]; intros k l Hs Hf.
  { destruct l as [|s l]; [constructor|]. inversion Hf as [|? ? [_ E] _]; subst. discriminate. }
  assert (S : forall l', Forall (fun s => k < ps_count s /\ (x :: sent) !! Z.to_nat (ps_count s - k) = Some (ps_buffer s)) l' ->
    Forall (fun s => k + 1 <= ps_count s /\ sent !! Z.to_nat (ps_count s - (k + 1)) = Some (ps_buffer s)) l').
  { intros l' H. eapply Forall_impl; [exact H|]. cbn beta. intros s [Hk E]. split; [lia|].
    by replace (Z.to_nat (ps_count s - k)) with (Datatypes.S (Z.to_nat (ps_count s - (k + 1)))) in E by lia. }
  destruct l as [|s l]; [apply sublist_nil_l|]. inversion Hf as [|? ? [Hk E] Hf']; subst.
  apply sorted_cons in Hs as [Hlt Hs].
  assert (Hl : Forall (fun s => k < ps_count s /\ (x :: sent) !! Z.to_nat (ps_count s - k) = Some (ps_buffer s)) l).
  { rewrite Forall_forall in Hlt, Hf' |- *. intros y Hy. specialize (Hlt y Hy). specialize (Hf' y Hy). cbn beta in *.
    split; [lia|apply Hf']. }
  destruct (decide (ps_count s = k)) as [Ek|Ek].
  - rewrite Ek, Z.sub_diag in E. injection E as E. rewrite fmap_cons, <- E. apply sublist_skip.
    apply (IH (k + 1)); [done|by apply S].
  - apply sublist_cons, (IH (k + 1)); [by apply sorted_cons|]. apply S. constructor; [|done]. split; [lia|done].
Qed.

Lemma genuine_app sent x s : genuine sent s -> genuine (sent ++ [x]) s.
Proof. intros [H E]. split; [done|]. by apply lookup_app_l_Some. Qed.

Lemma secured_sent e x st : secured e -> secured (e <| tx_next := x |> <| stats := st |>).
Proof. intros [[? ? ?] ? ? ?]. constructor; try done. Qed.

Lemma peers_sent e rx x st : peers e rx -> peers (e <| tx_next := x |> <| stats := st |>) rx.
Proof. intros [[[? ? ?] ?] ? ? ? ? ? ?]. constructor; try done. Qed.

Lemma link_send_inv tx rx sent net got sdu id out n out' tx' : link_inv (mk_link tx rx sent net got) ->
  sdu_ok (has_sdap_tx tx) sdu -> tx_next tx < 2 ^ 31 - 1 -> nr_max_pdcp_pdu_size (zlen sdu) <= zlen out ->
  nr_pdcp_entity_process_sdu tx sdu (zlen sdu) id out (zlen out) = Ok (n, out', tx') ->
  link_inv (mk_link tx' rx (sent ++ [sdu]) (net ++ [take (Z.to_nat n) out']) got).
Proof.
  intros [[Hse Hsu] Hp Hr [Hn Hn'] [Hl Henc] Hh Hd Hg Ha] Hok Hlt Hout H. cbn [l_tx l_rx l_sent l_net l_got] in *.
  destruct (process_sdu_encodes tx sdu id out Hse Hsu Hok) as (pdu & tl & st & E & Ee); [rewrite Hn in *; pose proof (zlen_nonneg sent); lia|done|].
  rewrite E in H. injection H as <- <- <-.
  replace (take (Z.to_nat (zlen pdu)) (pdu ++ tl)) with pdu by (unfold zlen; by rewrite Nat2Z.id, take_app_length).
  constructor; cbn [l_tx l_rx l_sent l_net l_got].
  - split; [by apply secured_sent|done].
  - by apply peers_sent.
  - done.
  - rewrite zlen_app, zlen_cons, zlen_nil. change (tx_next tx + 1 = zlen sent + (1 + 0) /\ tx_next tx + 1 < 2 ^ 31). lia.
  - rewrite !length_app, Hl. split; [done|]. intros i s p Hs Hpd.
    change (encodes tx (Z.of_nat i) s p). apply lookup_app_Some in Hs as [Hs|[Hi Hs]].
    + rewrite lookup_app_l in Hpd by (apply lookup_lt_Some in Hs; lia). by apply Henc.
    + assert (Z.of_nat i = tx_next tx) as ->.
      { apply lookup_lt_Some in Hs. cbn [length] in Hs. rewrite Hn. unfold zlen. lia. }
      rewrite lookup_app_r in Hpd by lia. rewrite Hl in Hpd. destruct (i - length sent)%nat eqn:Ei; [|done].
      cbn in Hs, Hpd. congruence.
  - eapply Forall_impl; [exact Hh|]. intros s. apply genuine_app.
  - eapply Forall_impl; [exact Hd|]. intros s. apply genuine_app.
  - eapply Forall_impl; [exact Hg|]. intros i [Hi Hx]. cbn beta. rewrite length_app. split; [lia|done].
  - done.
Qed.

Lemma link_recv_inv tx rx sent net got i pdu rx' : link_inv (mk_link tx rx sent net got) ->
  net !! i = Some pdu -> - window_size rx <= Z.of_nat i - rx_deliv rx < window_size rx ->
  nr_pdcp_entity_recv_pdu rx pdu (zlen pdu) = Ok rx' -> link_inv (mk_link tx rx' sent net (i :: got)).
Proof.
  intros [Hse Hp Hr [Hn Hn'] [Hl Henc] Hh Hd Hg Ha] Hi Hw H. cbn [l_tx l_rx l_sent l_net l_got] in *.
  assert (Li : (i < length sent)%nat) by (rewrite <- Hl; by apply lookup_lt_Some in Hi).
  destruct (lookup_lt_is_Some_2 sent i Li) as [sdu Hs]. pose proof (ri_next _ Hr).
  assert (Zi : 0 <= Z.of_nat i < 2 ^ 31) by (rewrite Hn in Hn'; unfold zlen in Hn'; lia).
  pose proof (recv_encoded tx rx (Z.of_nat i) sdu pdu Hp (Henc i sdu pdu Hs Hi)) as A.
  destruct A as (st & A); [lia|lia|done|]. rewrite H in A.
  destruct (_ || _) eqn:Eb.
  - apply Ok_inj in A. subst rx'. constructor; cbn [l_tx l_rx l_sent l_net l_got]; try done.
    + by apply peers_stats.
    + by apply (rx_inv_view rx).
    + constructor; [|done]. split; [done|]. apply orb_true_iff in Eb as [Eb|Eb]; [left; by apply Z.ltb_lt in Eb|right].
      apply not_false_iff_true in Eb. rewrite in_list_spec in Eb. apply not_Forall_Exists in Eb; [|intros ?; apply _].
      eapply Exists_impl; [exact Eb|]. cbn. intros x Hx. by destruct (decide (ps_count x = Z.of_nat i)).
  - destruct A as (mi & n & A). apply Ok_inj in A. subst rx'. apply orb_false_iff in Eb as [Ec Ein]. apply Z.ltb_ge in Ec.
    set (s := mk_psdu (Z.of_nat i) sdu (zlen sdu) mi). set (e := rx <| stats := st |>).
    assert (Hre : rx_inv e) by by apply (rx_inv_view rx).
    destruct (store_sdu_spec e s n Hre) as (l1 & l2 & Ep & E1 & E2 & E3 & F & Ecf); [cbn; lia|done|].
    assert (Gs : genuine sent s) by (split; cbn; [lia|]; by rewrite Nat2Z.id).
    assert (G : Forall (genuine sent) (l1 ++ l2)) by (rewrite Ep; by constructor). apply Forall_app in G as [G1 G2].
    assert (M : forall j, Exists (fun x => ps_count x = Z.of_nat j) (s :: rx_list rx) ->
      Z.of_nat j < rx_deliv (store_sdu e s n) \/ Exists (fun x => ps_count x = Z.of_nat j) (rx_list (store_sdu e s n))).
    { intros j X. change (rx_list rx) with (rx_list e) in X. rewrite <- Ep in X. apply Exists_app in X as [X|X].
      - left. apply Exists_exists in X as (y & Hy & <-). rewrite Forall_forall in F. by apply F.
      - right. by rewrite E1. }
    change (rx_deliv e) with (rx_deliv rx) in E3. change (delivered e) with (delivered rx) in E2.
    constructor; cbn [l_tx l_rx l_sent l_net l_got]; try done.
    + by apply (peers_config tx rx).
    + apply store_sdu_inv; [done|cbn; lia|done].
    + by rewrite E1.
    + rewrite E2. by apply Forall_app.
    + constructor; [split; [done|]; apply M; by constructor|].
      eapply Forall_impl; [exact Hg|]. intros j [Hj Hx]. split; [done|]. pose proof (zlen_nonneg l1).
      destruct Hx as [Hx|Hx]; [left; rewrite E3; lia|]. apply M. by apply Exists_cons_tl.
    + intros Htr. rewrite E2, E3, zlen_app. rewrite Ha; [done|].
      apply config_timer in Ecf. by rewrite <- Htr, Ecf.
Qed.

Lemma link_tick_inv tx rx sent net got now : link_inv (mk_link tx rx sent net got) ->
  link_inv (mk_link tx (nr_pdcp_entity_set_time rx now) sent net got).
Proof.
  intros [Hse Hp Hr Hn Henc Hh Hd Hg Ha]. cbn [l_tx l_rx l_sent l_net l_got] in *.
  destruct (set_time_spec rx now Hr) as (l1 & l2 & Ep & E1 & E2 & E3 & F & Ecf & Et).
  rewrite Ep in Hh. apply Forall_app in Hh as [G1 G2].
  constructor; cbn [l_tx l_rx l_sent l_net l_got]; try done.
  - by apply (peers_config tx rx).
  - apply check_t_reordering_inv. by apply (rx_inv_view rx).
  - by rewrite E1.
  - rewrite E2. by apply Forall_app.
  - eapply Forall_impl; [exact Hg|]. intros j [Hj Hx]. split; [done|]. destruct Hx as [Hx|Hx]; [left; lia|].
    rewrite Ep in Hx. apply Exists_app in Hx as [X|X]; [|right; by rewrite E1].
    left. apply Exists_exists in X as (y & Hy & <-). rewrite Forall_forall in F. by apply F.
  - intros Htr. rewrite (config_timer _ _ Ecf) in Htr. destruct (Et Htr) as [-> ->]. rewrite E2, app_nil_r. by apply Ha.
Qed.

Lemma plink_step_inv l l' : link_step l l' -> link_inv l -> link_inv l'.
Proof.
  intros S Hi. destruct S; [by eapply link_send_inv | by eapply link_recv_inv | by apply link_tick_inv].
Qed.

(** The timer is a constant of a run. *)
Lemma link_run_timer l l' : rtc link_step l l' -> t_reordering (l_rx l') = t_reordering (l_rx l).
Proof.
  induction 1 as [|l1 l2 l3 S _ IH]; [done|]. rewrite IH. clear IH. destruct S; cbn [l_rx]; [done| |].
  - by eapply config_timer, recv_pdu_config.
  - apply config_timer. unfold nr_pdcp_entity_set_time. by rewrite check_t_reordering_config.
Qed.

Lemma plink_run_inv l l' : rtc link_step l l' -> link_inv l -> link_inv l'.
Proof. induction 1; [done|]. intros. by eauto using plink_step_inv. Qed.

(** Both ends as the constructor leaves them. *)
Record link_start (tx rx : nr_pdcp_entity_t) : Prop := {
  ls_tx : secured tx /\ entity_suspended tx = false /\ tx_next tx = 0;
  ls_peers : peers tx rx;
  ls_rx : rx_list rx = [] /\ delivered rx = [] /\ rx_next rx = 0 /\ rx_deliv rx = 0 /\ t_reordering_start rx = 0 }.

Lemma link_start_inv tx rx : link_start tx rx -> link_inv (mk_link tx rx [] [] []).
Proof.
  intros [(H1 & H2 & H3) Hp (E1 & E2 & E3 & E4 & E5)].
  constructor; cbn [l_tx l_rx l_sent l_net l_got]; rewrite ?E1, ?E2, ?E3, ?E4, ?H3; try done; try constructor;
    rewrite ?E1, ?E2, ?E3, ?E4, ?E5; try done; try constructor; try lia.
Qed.

Lemma link_delivers l : link_inv l -> (ps_buffer <$> delivered (l_rx l)) `sublist_of` l_sent l.
Proof.
  intros [_ _ Hr _ _ _ Hd _ _]. apply (genuine_sublist _ 0); [apply Hr|].
  eapply Forall_impl; [exact Hd|]. intros s [H E]. by rewrite Z.sub_0_r.
Qed.

Lemma link_all l : link_inv l -> t_reordering (l_rx l) = -1 -> (forall i, (i < length (l_sent l))%nat -> i ∈ l_got l) ->
  ps_buffer <$> delivered (l_rx l) = l_sent l.
Proof.
  intros Hi Ht Hall. apply sublist_full; [by apply link_delivers|].
  destruct Hi as [_ _ Hr [Hn _] _ _ Hd Hg Ha]. specialize (Ha Ht). rewrite length_fmap.
  destruct (decide (zlen (l_sent l) <= rx_deliv (l_rx l))) as [Hle|Hgt]; [unfold zlen in *; lia|]. exfalso.
  pose proof (zlen_nonneg (delivered (l_rx l))). unfold zlen in Hgt.
  specialize (Hall (Z.to_nat (rx_deliv (l_rx l))) ltac:(lia)).
  rewrite Forall_forall in Hg. specialize (Hg _ Hall) as [_ Hg]. rewrite Z2Nat.id in Hg by lia.
  destruct Hg as [Hg|Hg]; [lia|]. apply Exists_exists in Hg as (s & Hs & Es).
  pose proof (ri_ahead _ Hr) as F. rewrite Forall_forall in F. specialize (F s Hs). cbn in F. lia.
Qed.

(** ** Authenticity of what is stored *)

(** The PDU after deciphering: [buf1] is the received buffer but for the D/C bit. *)
Definition deciphers (e : nr_pdcp_entity_t) (buf : bytes) (size c : Z) (buf2 : bytes) : Prop :=
  exists buf1, drop 1 buf1 = drop 1 buf /\
    (if has_ciphering e
     then call_cipher e buf1 (header_size e + b2z (has_sdap_rx e)) (size - (header_size e + b2z (has_sdap_rx e)))
            c (if is_gnb e then 0 else 1)
     else mret buf1) = Ok buf2.

Lemma fix_dc_rest (e : nr_pdcp_entity_t) buf b0 buf1 :
  (if negb (is_srb (type e)) && (Z.land b0 128 =? 0) then wr buf 0 (Z.lor b0 128) else mret buf) = Ok buf1 ->
  drop 1 buf1 = drop 1 buf.
Proof.
  case_if; [|intros; by inv_res]. unfold wr. case_if; [|done]. intros [= <-].
  by destruct buf.
Qed.

(** A checked prefix followed by the four bytes compared: the first [size] bytes. *)
Lemma take_hd_sdu_mac (b data : bytes) size h i d m :
  slice b 0 (size - i) = Ok d -> slice b h (size - h - i) = Ok data -> slice b (size - i) i = Ok m -> 0 <= h ->
  d = take (Z.to_nat h) b ++ data /\ take (Z.to_nat size) b = take (Z.to_nat h) b ++ data ++ m /\
  zlen (take (Z.to_nat h) b) = h.
Proof.
  intros S1 S2 S3 Hh. apply slice_inv in S1 as (_ & ? & ? & ->). apply slice_inv in S2 as (_ & ? & ? & ->).
  apply slice_inv in S3 as (? & ? & ? & ->). rewrite drop_0.
  assert (E : take (Z.to_nat (size - i)) b = take (Z.to_nat h) b ++ take (Z.to_nat (size - h - i)) (drop (Z.to_nat h) b)).
  { rewrite take_take_drop. f_equal. lia. }
  split; [done|]. split; [|unfold zlen in *; rewrite length_take; lia].
  rewrite app_assoc, <- E, take_take_drop. f_equal. lia.
Qed.

(** With integrity on, what a received PDU leaves behind is a statistic or an SDU whose
    MAC-I verifies under the entity's key for its COUNT. *)
Lemma recv_pdu_authentic e buf size e' f k : has_integrity e = true -> integrity e = Some f ->
  integrity_context e = Some k -> nr_pdcp_entity_recv_pdu e buf size = Ok e' ->
  (exists st, e' = e <| stats := st |>) \/
  exists st sdu n buf2 hd mac, e' = store_sdu (e <| stats := st |>) sdu n /\
    deciphers e buf size (ps_count sdu) buf2 /\ take (Z.to_nat size) buf2 = hd ++ ps_buffer sdu ++ mac /\
    zlen hd = header_size e /\ zlen mac = 4 /\
    f k (hd ++ ps_buffer sdu) (rb_id e) (ps_count sdu) (if is_gnb e then 0 else 1) = Ok mac.
Proof.
  intros Hint Hf Hk. unfold nr_pdcp_entity_recv_pdu. intros H.
  do 2 (case_if_in H; [inv_res; left; exists (stats e'); by destruct e'|]).
  apply bind_ok in H as (b0 & R0 & H). apply bind_ok in H as (buf1 & W & H). apply fix_dc_rest in W.
  apply bind_ok in H as (sn & _ & H). case_if_in H; [inv_res; left; eexists; reflexivity|].
  apply bind_ok in H as (mi & _ & H). apply bind_ok in H as (b2 & C & H). apply bind_ok in H as (ok & I & H).
  set (st := (stats e) <| rxpdu_pkts ::= add32 1 |> <| rxpdu_bytes ::= add32 size |> <| rxpdu_sn := sn |>).
  change ((e <| stats ::= _ |>) <| stats ::= _ |>) with (e <| stats := st |>) in *.
  set (e2 := e <| stats := st |>) in *.
  change (has_integrity e2) with (has_integrity e) in I. rewrite Hint in I.
  destruct ok; cbn [negb] in H; [|inv_res; left; eexists; reflexivity].
  apply bind_ok in I as (mac & I & J). apply bind_ok in J as (rcv & S & J). apply mret_ok in J.
  apply bool_decide_eq_true in J as <-. unfold call_integrity in I.
  change (integrity e2) with (integrity e) in I. change (integrity_context e2) with (integrity_context e) in I.
  rewrite Hf, Hk in I. cbn [deref] in I. rewrite !bind_Ok in I. apply bind_ok in I as (d & S1 & I).
  unfold store_and_deliver in H. case_if_in H; [inv_res; left; eexists; reflexivity|].
  apply bind_ok in H as (data & S2 & H). apply bind_ok in H as (sdu & N & H). apply mret_ok in H. subst e'.
  unfold nr_pdcp_new_sdu in N. apply bind_ok in N as (b3 & S3 & N). apply mret_ok in N. subst sdu.
  change (header_size e2) with (header_size e) in *.
  assert (EI : integrity_size e2 = 4) by (unfold integrity_size; change (has_integrity e2) with (has_integrity e); by rewrite Hint).
  rewrite EI in *. change PDCP_INTEGRITY_SIZE with 4 in S.
  pose proof (slice_zlen _ _ _ _ S2) as L2. rewrite <- L2, slice_all in S3. injection S3 as <-.
  destruct (take_hd_sdu_mac b2 data size (header_size e) 4 d mac S1 S2 S) as (Ed & Et & Lh); [pose proof (header_size_pos e); lia|].
  right. exists st. eexists _, _. exists b2, (take (Z.to_nat (header_size e)) b2), mac.
  split; [reflexivity|]. cbn [ps_buffer ps_count]. split; [by exists buf1|]. split; [done|]. split; [done|].
  split; [by apply slice_zlen in S|]. rewrite <- Ed. exact I.
Qed.
End Link.
