(* ===== verification/PdcpProps.v ===== *)
(** * PDCP: properties

    The configuration an entity gets from its constructor, and the properties of the
    entity and of two connected entities, stated on the constructors. *)

From S2P Require Import Prelude Security Pdcp PdcpRx PdcpLink.
Import Pdcp.

Section Props.
Context {O : Openssl} {L : OpensslLaws O}.

(** ** Construction *)

(** Keys of 128 bits and the algorithms the security layer has: none, SNOW 3G, AES. *)
Record keys_ok (p : nr_pdcp_entity_security_keys_and_algos_t) : Prop := {
  ko_int : integrity_algorithm p = 0 \/ integrity_algorithm p = 1 \/ integrity_algorithm p = 2;
  ko_cip : ciphering_algorithm p = 0 \/ ciphering_algorithm p = 1 \/ ciphering_algorithm p = 2;
  ko_keys : Key128 (integrity_key p) /\ Key128 (ciphering_key p) }.

(** The functions and contexts [set_security] installs. *)
Definition mac_of (a : Z) (k : bytes) : option (sec_fun * bytes) :=
  if a =? 1 then Some (nr_pdcp_integrity_nia1_integrity, k)
  else if a =? 2 then Some (nr_pdcp_integrity_nia2_integrity, k) else None.

Definition cipher_fun_of (a : Z) (k : bytes) : option (sec_fun * bytes) :=
  if a =? 1 then Some (nr_pdcp_security_nea1_cipher, k)
  else if a =? 2 then Some (nr_pdcp_security_nea2_cipher, k) else None.

#[local] Opaque nr_pdcp_integrity_nia1_integrity nr_pdcp_integrity_nia2_integrity
  nr_pdcp_security_nea1_cipher nr_pdcp_security_nea2_cipher.

Lemma set_integrity_spec e a : a = 0 \/ a = 1 \/ a = 2 -> length (integrity_key (security_keys_and_algos e)) = 16%nat ->
  set_integrity e a = Ok (
    if mac_of a (integrity_key (security_keys_and_algos e)) is Some (f, k)
    then e <| has_integrity := true |> <| integrity_context := Some k |> <| integrity := Some f |> <| free_integrity := true |>
    else e <| has_integrity := false |> <| free_integrity := false |>).
Proof.
  intros Ha Hk. unfold set_integrity, mac_of, nr_pdcp_integrity_nia1_init, nr_pdcp_integrity_nia2_init.
  destruct Ha as [-> | [-> | ->]]; [reflexivity| |];
    match goal with |- context [slice ?k 0 16] => change k with (integrity_key (security_keys_and_algos e)) end;
    rewrite (take_key _ Hk); reflexivity.
Qed.

Lemma set_ciphering_spec e a : a = 0 \/ a = 1 \/ a = 2 -> length (ciphering_key (security_keys_and_algos e)) = 16%nat ->
  set_ciphering e a = Ok (
    if cipher_fun_of a (ciphering_key (security_keys_and_algos e)) is Some (f, k)
    then e <| has_ciphering := true |> <| security_context := Some k |> <| cipher := Some f |> <| free_security := true |>
    else e <| has_ciphering := false |> <| free_security := false |>).
Proof.
  intros Ha Hk. unfold set_ciphering, cipher_fun_of, nr_pdcp_security_nea1_init, nr_pdcp_security_nea2_init.
  destruct Ha as [-> | [-> | ->]]; [reflexivity| |reflexivity].
  match goal with |- context [slice ?k 0 16] => change k with (ciphering_key (security_keys_and_algos e)) end.
  rewrite (take_key _ Hk). reflexivity.
Qed.

(** A fresh entity: the parameters, zero counters, nothing held, security as asked for. *)
Record fresh_entity (t : nr_pdcp_entity_type_t) (g : bool) (rb : Z) (sr st : bool) (sn tr : Z)
    (p : nr_pdcp_entity_security_keys_and_algos_t) (e : nr_pdcp_entity_t) : Prop := {
  fe_bearer : type e = t /\ rb_id e = rb /\ is_gnb e = g;
  fe_sdap : has_sdap_rx e = sr /\ has_sdap_tx e = st;
  fe_sn : sn_size e = sn /\ sn_max e = Z.shiftl 1 sn - 1 /\ window_size e = Z.shiftl 1 (sn - 1);
  fe_timer : t_reordering e = tr /\ t_reordering_start e = 0;
  fe_vars : tx_next e = 0 /\ rx_next e = 0 /\ rx_deliv e = 0;
  fe_empty : rx_list e = [] /\ delivered e = [] /\ entity_suspended e = false;
  fe_mac : if mac_of (integrity_algorithm p) (integrity_key p) is Some (f, k)
           then has_integrity e = true /\ integrity e = Some f /\ integrity_context e = Some k
           else has_integrity e = false /\ integrity e = None /\ integrity_context e = None;
  fe_cipher : if cipher_fun_of (ciphering_algorithm p) (ciphering_key p) is Some (f, k)
              then has_ciphering e = true /\ cipher e = Some f /\ security_context e = Some k
              else has_ciphering e = false /\ cipher e = None /\ security_context e = None }.

Lemma new_spec t g rb ps sr st sn tr dt p : keys_ok p ->
  exists e, new_nr_pdcp_entity t g rb ps sr st sn tr dt p = Ok e /\ fresh_entity t g rb sr st sn tr p e.
Proof.
  intros [Hi Hc [[Bi Li] [Bc Lc]]]. unfold new_nr_pdcp_entity, nr_pdcp_entity_set_security.
  destruct p as [a1 a2 k1 k2]. cbn [integrity_algorithm ciphering_algorithm integrity_key ciphering_key] in *.
  rewrite (proj2 (Z.eqb_neq a1 (-1))), (proj2 (Z.eqb_neq a2 (-1))) by lia. cbn [negb].
  set (e0 := setter _ _ _).
  rewrite (set_integrity_spec e0 a1 Hi Li), bind_Ok. change (integrity_key (security_keys_and_algos e0)) with k1.
  set (e1 := if mac_of a1 k1 is Some _ then _ else _).
  assert (K : ciphering_key (security_keys_and_algos e1) = k2) by (unfold e1, mac_of; by repeat case_if).
  rewrite set_ciphering_spec by (done || by rewrite K). rewrite K. eexists. split; [reflexivity|].
  unfold e1. destruct (mac_of a1 k1) as [[f k]|] eqn:E1, (cipher_fun_of a2 k2) as [[f' k']|] eqn:E2;
    constructor; cbn [integrity_algorithm ciphering_algorithm integrity_key ciphering_key]; rewrite ?E1, ?E2; by split_and!.
Qed.

Lemma mac_of_laws a k f k' : Key128 k -> mac_of a k = Some (f, k') -> StreamMac f k'.
Proof. intros K. unfold mac_of. repeat case_if; intros [= <- <-]; apply _. Qed.

Lemma cipher_of_laws a k f k' : Key128 k -> cipher_fun_of a k = Some (f, k') -> StreamCipher f k'.
Proof. intros K. unfold cipher_fun_of. repeat case_if; intros [= <- <-]; apply _. Qed.

Lemma fresh_cfg t g rb sr st sn tr p e : fresh_entity t g rb sr st sn tr p e -> sn = 12 \/ sn = 18 -> cfg_ok e.
Proof.
  intros [_ _ (E1 & E2 & E3) _ _ _ _ _] Hsn. constructor; rewrite ?E1, ?E2, ?E3; [done| |];
    rewrite Z.shiftl_1_l; done.
Qed.

(** The interface is discharged: a constructed entity is secured. *)
Lemma fresh_secured t g rb sr st sn tr p e : fresh_entity t g rb sr st sn tr p e -> keys_ok p ->
  sn = 12 \/ sn = 18 -> 1 <= rb < 32 -> secured e.
Proof.
  intros F [_ _ [Ki Kc]] Hsn Hrb. pose proof (fresh_cfg _ _ _ _ _ _ _ _ _ F Hsn).
  destruct F as [(_ & Erb & _) _ _ _ _ _ Hm Hc]. constructor; [done|by rewrite Erb| |].
  - destruct (cipher_fun_of _ _) as [[f k]|] eqn:E; destruct Hc as (E1 & E2 & E3); [|by rewrite E1].
    intros _. exists f, k. split_and!; try done. exact (cipher_of_laws _ _ _ _ Kc E).
  - destruct (mac_of _ _) as [[f k]|] eqn:E; destruct Hm as (E1 & E2 & E3); [|by rewrite E1].
    intros _. exists f, k. split_and!; try done. exact (mac_of_laws _ _ _ _ Ki E).
Qed.

(** The two ends of a bearer are peers. *)
Lemma fresh_link t g rb st sr' st' sn tr tr' p tx rx :
  fresh_entity t g rb sr' st sn tr p tx -> fresh_entity t (negb g) rb st st' sn tr' p rx -> keys_ok p ->
  sn = 12 \/ sn = 18 -> 1 <= rb < 32 -> link_start tx rx.
Proof.
  intros F1 F2 Hk Hsn Hrb. pose proof (fresh_secured _ _ _ _ _ _ _ _ _ F1 Hk Hsn Hrb).
  pose proof (fresh_cfg _ _ _ _ _ _ _ _ _ F1 Hsn). pose proof (fresh_cfg _ _ _ _ _ _ _ _ _ F2 Hsn).
  destruct F1 as [(A1 & A2 & A3) (A4 & A5) (A6 & A7 & A8) (A9 & A10) (A11 & A12 & A13) (A14 & A15 & A16) Am Ac].
  destruct F2 as [(B1 & B2 & B3) (B4 & B5) (B6 & B7 & B8) (B9 & B10) (B11 & B12 & B13) (B14 & B15 & B16) Bm Bc].
  constructor; [done| |done]. constructor; try done.
  - by rewrite A1, A2, A6, B1, B2, B6.
  - by rewrite A5, B4.
  - by rewrite A3, B3.
  - destruct (cipher_fun_of _ _) as [[f k]|]; destruct Ac as (-> & -> & ->), Bc as (-> & -> & ->); done.
  - destruct (mac_of _ _) as [[f k]|]; destruct Am as (-> & -> & ->), Bm as (-> & -> & ->); done.
Qed.

(** A constructed receiver and sender, as arguments of [new_nr_pdcp_entity]. *)
Definition bearer_ends (t : nr_pdcp_entity_type_t) (g : bool) (rb ps : Z) (sdap : bool) (sn tr dt : Z)
    (p : nr_pdcp_entity_security_keys_and_algos_t) (tx rx : nr_pdcp_entity_t) : Prop :=
  new_nr_pdcp_entity t g rb ps sdap sdap sn tr dt p = Ok tx /\
  new_nr_pdcp_entity t (negb g) rb ps sdap sdap sn tr dt p = Ok rx.

Lemma bearer_link t g rb ps sdap sn tr dt p tx rx : bearer_ends t g rb ps sdap sn tr dt p tx rx -> keys_ok p ->
  sn = 12 \/ sn = 18 -> 1 <= rb < 32 -> link_start tx rx /\ t_reordering rx = tr.
Proof.
  intros [H1 H2] Hk Hsn Hrb. destruct (new_spec t g rb ps sdap sdap sn tr dt p Hk) as (e1 & N1 & F1).
  destruct (new_spec t (negb g) rb ps sdap sdap sn tr dt p Hk) as (e2 & N2 & F2).
  rewrite N1 in H1. rewrite N2 in H2. apply Ok_inj in H1, H2. subst e1 e2.
  split; [by eapply fresh_link|apply F2].
Qed.

(** ** The link *)

(** [C8] The two ends of a bearer over a network that loses, repeats and reorders PDUs within
    half the sequence number space: what the receiver hands up is a sub-sequence of what
    the sender was given, in order, without duplicates, byte for byte. *)
Theorem pdcp_link_in_order t g rb ps sdap sn tr dt p tx rx l :
  bearer_ends t g rb ps sdap sn tr dt p tx rx -> keys_ok p -> sn = 12 \/ sn = 18 -> 1 <= rb < 32 ->
  rtc link_step (mk_link tx rx [] [] []) l ->
  (ps_buffer <$> delivered (l_rx l)) `sublist_of` l_sent l /\ sorted (delivered (l_rx l)).
Proof.
  intros Hb Hk Hsn Hrb Hr. destruct (bearer_link _ _ _ _ _ _ _ _ _ _ _ Hb Hk Hsn Hrb) as [Hs _].
  pose proof (plink_run_inv _ _ Hr (link_start_inv _ _ Hs)) as Hi. split; [by apply link_delivers|apply Hi].
Qed.


(** ** One entity against any network *)


Lemma ticked_run t g rb ps sr st sn tr dt p e now e1 :
  new_nr_pdcp_entity t g rb ps sr st sn tr dt p = Ok e -> now <> 0 ->
  rtc pdcp_step (nr_pdcp_entity_set_time e now) e1 -> rx_inv e1 /\ timed e1.
Proof.
  intros H Hn Hr. pose proof (new_inv _ _ _ _ _ _ _ _ _ _ _ H) as Hi0. split.
  - apply (run_inv _ _ Hr). apply check_t_reordering_inv. by apply (rx_inv_view e).
  - apply (run_timed _ _ Hr). apply check_t_reordering_timed; [done|].
    apply set_security_view in H as [V _]. injection V as _ V2 V3 _ _ _. cbn in V2, V3.
    change (rx_deliv e < rx_next e -> t_reordering_start e <> 0). rewrite V2, V3. lia.
Qed.


(** [C13] With integrity protection on, a received PDU changes nothing but the statistics unless
    the MAC-I computed over its header and SDU, under the entity's key and for the COUNT the
    SDU is stored with, is the one it carries. *)
Theorem pdcp_stored_sdu_is_authentic e buf size e' f k :
  has_integrity e = true -> integrity e = Some f -> integrity_context e = Some k ->
  nr_pdcp_entity_recv_pdu e buf size = Ok e' ->
  (exists st, e' = e <| stats := st |>) \/
  exists st sdu n buf2 hd mac, e' = store_sdu (e <| stats := st |>) sdu n /\
    deciphers e buf size (ps_count sdu) buf2 /\ take (Z.to_nat size) buf2 = hd ++ ps_buffer sdu ++ mac /\
    zlen hd = header_size e /\ zlen mac = 4 /\
    f k (hd ++ ps_buffer sdu) (rb_id e) (ps_count sdu) (if is_gnb e then 0 else 1) = Ok mac.
Proof. apply recv_pdu_authentic. Qed.

(** Suspending an entity whose clock runs hands up all it holds, in order, and resets the
    COUNTs. *)
Theorem pdcp_suspend_flushes t g rb ps sr st sn tr dt p e now e1 :
  new_nr_pdcp_entity t g rb ps sr st sn tr dt p = Ok e -> now <> 0 ->
  rtc pdcp_step (nr_pdcp_entity_set_time e now) e1 ->
  let e' := nr_pdcp_entity_suspend e1 in
  rx_list e' = [] /\ delivered e' = delivered e1 ++ rx_list e1 /\ sorted (delivered e') /\
  (t_reordering_start e', rx_next e', rx_deliv e', tx_next e') = (0, 0, 0, 0) /\ entity_suspended e' = true.
Proof.
  intros H Hn Hr. destruct (ticked_run _ _ _ _ _ _ _ _ _ _ _ _ _ H Hn Hr) as [Hi Ht]. cbv zeta.
  destruct (suspend_spec e1 Hi Ht) as (E1 & E2 & E3 & E4 & E5 & E6 & E7).
  rewrite E1, E2, E3, E4, E5, E6, E7. split_and!; try done.
  destruct Hi as [Hs Hf _ _ _ Ho Hb]. apply (sorted_app _ _ (rx_deliv e1)); try done.
  eapply Forall_impl; [exact Hf|]. cbn. lia.
Qed.

(** ** COUNT and PDU *)

Lemma count_underflow e sn : cfg_ok e -> rx_deliv e = 0 -> window_size e <= sn < 2 ^ sn_size e ->
  rcvd_count e sn = 2 ^ 32 - 2 ^ sn_size e + sn.
Proof.
  intros [Hs Hm Hw] Hd Hsn. unfold rcvd_count. rewrite Hd, Hw, Z.geb_leb in *.
  rewrite Z.land_0_l, Z.shiftr_0_l. assert (0 < 2 ^ (sn_size e - 1)) by (destruct Hs as [-> | ->]; done).
  rewrite (proj2 (Z.ltb_ge sn _)), (proj2 (Z.leb_le _ sn)) by lia.
  assert (Hu : u32 (Z.shiftl (u32 (0 - 1)) (sn_size e)) = Z.shiftl (2 ^ 32 / 2 ^ sn_size e - 1) (sn_size e))
    by (destruct Hs as [-> | ->]; reflexivity).
  rewrite Hu, lor_shiftl_add by lia. destruct Hs as [E|E]; rewrite E in *; reflexivity || (cbn; lia).
Qed.

(** The receiver finds the full COUNT from its low bits as long as it is within half the
    sequence number space of [RX_DELIV]. *)
Theorem pdcp_count_reconstruction e c : cfg_ok e -> 0 <= rx_deliv e < 2 ^ 32 -> 0 <= c < 2 ^ 32 ->
  - window_size e <= c - rx_deliv e < window_size e ->
  rcvd_count e (c mod 2 ^ sn_size e) = c.
Proof. apply rcvd_count_correct. Qed.

(** Before the first wrap of the sequence number there is no previous HFN: a sequence number
    of half the space or more gives a COUNT just below 2^32. *)
Theorem pdcp_count_underflow e sn : cfg_ok e -> rx_deliv e = 0 -> window_size e <= sn < 2 ^ sn_size e ->
  rcvd_count e sn = 2 ^ 32 - 2 ^ sn_size e + sn.
Proof. apply count_underflow. Qed.

(** [C14] An acceptable SDU is always turned into a PDU, and the peer, when the COUNT is in its
    window, decodes that PDU to the same bytes: it drops it when the COUNT is old or held,
    and stores it otherwise. *)
Theorem pdcp_pdu_roundtrip tx rx sdu id out : secured tx -> entity_suspended tx = false -> peers tx rx ->
  sdu_ok (has_sdap_tx tx) sdu -> 0 <= tx_next tx < 2 ^ 31 -> nr_max_pdcp_pdu_size (zlen sdu) <= zlen out ->
  0 <= rx_deliv rx < 2 ^ 32 -> - window_size rx <= tx_next tx - rx_deliv rx < window_size rx ->
  exists n out' tx', nr_pdcp_entity_process_sdu tx sdu (zlen sdu) id out (zlen out) = Ok (n, out', tx') /\
    tx_next tx' = tx_next tx + 1 /\
    accepted rx (tx_next tx) sdu (nr_pdcp_entity_recv_pdu rx (take (Z.to_nat n) out') n).
Proof.
  intros Hs Hsu Hp Hok Hc Hout Hd Hw.
  destruct (process_sdu_encodes tx sdu id out Hs Hsu Hok Hc Hout) as (pdu & tl & st & E & Ee).
  eexists _, _, _. split; [exact E|]. split; [done|].
  replace (take (Z.to_nat (zlen pdu)) (pdu ++ tl)) with pdu by (unfold zlen; by rewrite Nat2Z.id, take_app_length).
  apply (recv_encoded tx); try done. lia.
Qed.

(** ** Faults *)

(** A PDU of one byte is read beyond its end: the length is tested after the header. *)
Theorem pdcp_one_byte_pdu_reads_beyond e b : entity_suspended e = false ->
  nr_pdcp_entity_recv_pdu e [b] 1 = Err Oob.
Proof.
  intros H. unfold nr_pdcp_entity_recv_pdu. rewrite H. change (1 <? 1) with false. rewrite rd_0, bind_Ok.
  case_if; rewrite ?wr_ok, bind_Ok by done; unfold read_sn; by case_if.
Qed.

(** With NEA2 the underflow stops the process: before the first wrap, a DRB PDU whose
    sequence number is half the space or more reaches an assertion on the sign of its COUNT,
    whatever key and contents it has. *)
Theorem pdcp_nea2_underflow_aborts e sn k body : cfg_ok e -> entity_suspended e = false ->
  is_srb (type e) = false -> 1 <= rb_id e < 32 -> rx_deliv e = 0 ->
  has_ciphering e = true -> cipher e = Some nr_pdcp_security_nea2_cipher -> security_context e = Some k ->
  has_integrity e = false -> window_size e <= sn < 2 ^ sn_size e -> b2z (has_sdap_rx e) < zlen body ->
  nr_pdcp_entity_recv_pdu e (header_of e sn ++ body) (zlen (header_of e sn ++ body)) = Err Exit.
Proof.
  intros Hcfg Hon Hsrb Hrb Hd Hci Hcf Hk Hint Hsn Hb. pose proof Hcfg as [Hs Hm Hw].
  assert (0 < window_size e) by (rewrite Hw; destruct Hs as [-> | ->]; done).
  pose proof (header_zlen e sn) as Lh. pose proof (header_size_pos e).
  assert (0 <= b2z (has_sdap_rx e)) by by destruct (has_sdap_rx e).
  assert (RS := read_sn_header e sn body Hcfg). rewrite Z.mod_small in RS by lia.
  assert (RC : rcvd_count e sn = 2 ^ 32 - 2 ^ sn_size e + sn) by by apply count_underflow.
  destruct (rd_ok (header_of e sn ++ body) 0) as (b0 & R0 & _); [rewrite zlen_app; lia|].
  set (size := zlen (header_of e sn ++ body)). assert (Ls : size = header_size e + zlen body) by (unfold size; rewrite zlen_app; lia).
  unfold nr_pdcp_entity_recv_pdu.
  rewrite Hon, (proj2 (Z.ltb_ge size 1)), R0, bind_Ok, (dc_bit_set e sn _ b0 R0), bind_Ok by lia.
  change (read_sn (e <| stats ::= _ |>)) with (read_sn e). rewrite RS, bind_Ok.
  set (e2 := setter stats _ (setter stats _ e)).
  change (header_size e2) with (header_size e). change (has_sdap_rx (e <| stats ::= _ |>)) with (has_sdap_rx e).
  assert (EI : integrity_size e2 = 0) by (unfold integrity_size; change (has_integrity e2) with (has_integrity e);
    change (type e2) with (type e); by rewrite Hint, Hsrb).
  rewrite EI, (proj2 (Z.ltb_ge size _)) by lia. change (rcvd_count e2) with (rcvd_count e). rewrite RC.
  unfold store_integrity. change (has_integrity e2) with (has_integrity e). change (type e2) with (type e).
  rewrite Hint, Hsrb. cbn [orb]. unfold mret at 1, res_ret at 1. rewrite bind_Ok.
  change (has_ciphering e2) with (has_ciphering e). rewrite Hci. unfold call_cipher.
  change (cipher e2) with (cipher e). change (security_context e2) with (security_context e). rewrite Hcf, Hk.
  cbn [deref]. rewrite !bind_Ok, slice_ok, bind_Ok by (fold size; lia).
  match goal with |- context [nr_pdcp_security_nea2_cipher k ?d] => set (dd := d) end.
  assert (Ld : 0 < zlen dd) by (unfold dd, zlen in *; rewrite length_take, length_drop; unfold size, zlen in Ls; lia).
  change (rb_id e2) with (rb_id e). rewrite nea2_negative_count; [done|done|done|by destruct (is_gnb _)|].
  destruct Hs as [E|E]; rewrite E in *; rewrite Hw in *; lia.
Qed.
End Props.

(** ** Evaluations *)

(** A concrete library for evaluations: a constant keystream and an exclusive-or checksum. *)
#[local] Instance toy_openssl : Openssl := {
  evp_aes_128_ctr k iv d := Z.lxor 165 <$> d;
  evp_cmac_aes128 k m := replicate 16 (Z.land (foldl Z.lxor 0 m) 255) }.

#[local] Instance toy_laws : OpensslLaws toy_openssl.
Proof.
  constructor; intros; cbn [evp_aes_128_ctr evp_cmac_aes128 toy_openssl].
  - by rewrite length_fmap.
  - apply Forall_fmap. eapply Forall_impl; [exact H|]. intros x Hx. cbn. by apply (lxor_bound 8).
  - rewrite <- list_fmap_compose. rewrite <- (list_fmap_id d) at 2. apply list_fmap_ext. intros i x _. cbn.
    by rewrite <- Z.lxor_assoc, Z.lxor_nilpotent, Z.lxor_0_l.
  - done.
  - apply Forall_replicate. change 255 with (2 ^ 8 - 1). rewrite land_mask by done. by apply Z.mod_pos_bound.
Qed.

Definition demo_keys (i c : Z) : nr_pdcp_entity_security_keys_and_algos_t :=
  mk_keys i c (replicate 16 17) (replicate 16 34).

Lemma demo_keys_ok i c : (i = 0 \/ i = 1 \/ i = 2) -> (c = 0 \/ c = 1 \/ c = 2) -> keys_ok (demo_keys i c).
Proof. intros Hi Hc. constructor; [done|done|]. split; (split; [by apply Forall_replicate|done]). Qed.

(** Two SDUs are sent, the second PDU arrives first. *)
Lemma demo_run : exists tx rx l, bearer_ends NR_PDCP_DRB_AM true 1 1 false 12 (-1) 0 (demo_keys 0 0) tx rx /\
  rtc link_step (mk_link tx rx [] [] []) l /\ l_sent l = [[1; 2; 3]; [4; 5]] /\ l_got l = [0%nat; 1%nat].
Proof.
  eexists _, _, _. split; [split; vm_compute; reflexivity|]. split; [|split].
  - eapply rtc_l; [eapply (link_send _ _ _ _ _ [1; 2; 3] 0 (replicate 12 0)); cycle 3; [vm_compute; reflexivity|..];
      [constructor; [by repeat constructor|done]|done|done]|].
    eapply rtc_l; [eapply (link_send _ _ _ _ _ [4; 5] 0 (replicate 12 0)); cycle 3; [vm_compute; reflexivity|..];
      [constructor; [by repeat constructor|done]|done|done]|].
    eapply rtc_l; [eapply (link_recv _ _ _ _ _ 1); [vm_compute; reflexivity|by vm_compute|vm_compute; reflexivity]|].
    eapply rtc_l; [eapply (link_recv _ _ _ _ _ 0); [vm_compute; reflexivity|by vm_compute|vm_compute; reflexivity]|].
    apply rtc_refl.
  - reflexivity.
  - reflexivity.
Qed.

(** Two SDUs are sent, the second PDU arrives first; both are delivered in order. *)
Lemma pdcp_link_in_order_witness : exists tx rx l,
  rtc link_step (mk_link tx rx [] [] []) l /\ l_sent l = [[1; 2; 3]; [4; 5]] /\
  (ps_buffer <$> delivered (l_rx l)) `sublist_of` l_sent l /\ sorted (delivered (l_rx l)).
Proof.
  destruct demo_run as (tx & rx & l & Hb & Hr & E & _). exists tx, rx, l. split; [exact Hr|]. split; [exact E|].
  apply (pdcp_link_in_order NR_PDCP_DRB_AM true 1 1 false 12 (-1) 0 (demo_keys 0 0) tx rx l Hb);
    [apply demo_keys_ok; lia|lia|lia|exact Hr].
Defined.


(** A receiver with NIA2 and NEA2 and its peer. *)
Lemma demo_pair i c : (i = 0 \/ i = 1 \/ i = 2) -> (c = 0 \/ c = 1 \/ c = 2) ->
  exists tx rx, bearer_ends NR_PDCP_DRB_AM true 1 1 false 12 100 0 (demo_keys i c) tx rx /\
  fresh_entity NR_PDCP_DRB_AM true 1 false false 12 100 (demo_keys i c) tx /\
  fresh_entity NR_PDCP_DRB_AM false 1 false false 12 100 (demo_keys i c) rx /\ link_start tx rx.
Proof.
  intros Hi Hc. pose proof (demo_keys_ok i c Hi Hc) as K.
  destruct (new_spec NR_PDCP_DRB_AM true 1 1 false false 12 100 0 _ K) as (tx & N1 & F1).
  destruct (new_spec NR_PDCP_DRB_AM false 1 1 false false 12 100 0 _ K) as (rx & N2 & F2).
  exists tx, rx. split; [done|]. split; [done|]. split; [done|]. eapply fresh_link; [exact F1|exact F2|done|lia|lia].
Qed.

Lemma pdcp_pdu_roundtrip_witness : exists tx rx n out' tx' : _,
  nr_pdcp_entity_process_sdu tx [1; 2; 3] 3 0 (replicate 12 0) 12 = Ok (n, out', tx') /\
  accepted rx 0 [1; 2; 3] (nr_pdcp_entity_recv_pdu rx (take (Z.to_nat n) out') n).
Proof.
  destruct (demo_pair 2 2) as (tx & rx & _ & F1 & F2 & [(S1 & S2 & S3) Hp _]); [lia|lia|].
  pose proof (fe_vars _ _ _ _ _ _ _ _ _ F2) as (_ & _ & D). pose proof (fe_sn _ _ _ _ _ _ _ _ _ F2) as (_ & _ & W).
  change (Z.shiftl 1 (12 - 1)) with 2048 in W. pose proof (fe_sdap _ _ _ _ _ _ _ _ _ F1) as (_ & Sd).
  destruct (pdcp_pdu_roundtrip tx rx [1; 2; 3] 0 (replicate 12 0) S1 S2 Hp) as (n & out' & tx' & E & _ & A).
  - rewrite Sd. constructor; [by repeat constructor|done].
  - rewrite S3. lia.
  - done.
  - rewrite D. lia.
  - rewrite S3, D, W. lia.
  - rewrite S3 in A. exists tx, rx, n, out', tx'. by split.
Defined.

Lemma pdcp_count_reconstruction_witness : exists e, rx_deliv e = 0 /\ rcvd_count e 5 = 5.
Proof.
  destruct (demo_pair 0 0) as (tx & rx & _ & F1 & F2 & [_ [[_ C] _ _ _ _ _ _] _]); [lia|lia|].
  pose proof (fe_vars _ _ _ _ _ _ _ _ _ F2) as (_ & _ & D). pose proof (fe_sn _ _ _ _ _ _ _ _ _ F2) as (Sn & _ & W).
  exists rx. split; [exact D|]. change (Z.shiftl 1 (12 - 1)) with 2048 in W.
  pose proof (pdcp_count_reconstruction rx 5 C) as R. rewrite Sn, D, W in R. apply R; lia.
Defined.

Lemma pdcp_count_underflow_witness : exists e, rx_deliv e = 0 /\ rcvd_count e 2048 = 4294965248.
Proof.
  destruct (demo_pair 0 0) as (tx & rx & _ & F1 & F2 & [_ [[_ C] _ _ _ _ _ _] _]); [lia|lia|].
  pose proof (fe_vars _ _ _ _ _ _ _ _ _ F2) as (_ & _ & D). pose proof (fe_sn _ _ _ _ _ _ _ _ _ F2) as (Sn & _ & W).
  exists rx. split; [exact D|]. change (Z.shiftl 1 (12 - 1)) with 2048 in W.
  pose proof (pdcp_count_underflow rx 2048 C D) as R. rewrite Sn, W in R. apply R; lia.
Defined.

Lemma pdcp_one_byte_pdu_reads_beyond_witness : exists e, nr_pdcp_entity_recv_pdu e [128] 1 = Err Oob.
Proof.
  destruct (demo_pair 0 0) as (tx & rx & _ & F1 & F2 & _); [lia|lia|]. exists rx.
  apply (pdcp_one_byte_pdu_reads_beyond rx 128). by destruct (fe_empty _ _ _ _ _ _ _ _ _ F2) as (_ & _ & ->).
Defined.

Lemma pdcp_nea2_underflow_aborts_witness : exists e, header_of e 2048 = [136; 0] /\
  nr_pdcp_entity_recv_pdu e [136; 0; 7] 3 = Err Exit.
Proof.
  destruct (demo_pair 0 2) as (tx & rx & _ & F1 & F2 & [_ [[_ C] _ _ _ _ _ _] _]); [lia|lia|].
  destruct F2 as [(T & R & _) (Sr & _) (Sn & Sm & W) _ (_ & _ & D) (_ & _ & Su) (M & _ & _) (Hc & Hf & Hk)].
  change (Z.shiftl 1 (12 - 1)) with 2048 in W. change (Z.shiftl 1 12 - 1) with 4095 in Sm.
  assert (H : header_of rx 2048 = [136; 0]) by (unfold header_of; rewrite T, Sn, Sm; reflexivity).
  exists rx. split; [exact H|].
  pose proof (pdcp_nea2_underflow_aborts rx 2048 (replicate 16 34) [7] C Su) as X. rewrite H in X.
  apply X; rewrite ?T, ?R, ?Sr, ?W, ?Sn; done || lia.
Defined.

(** The clock starts, then the PDU of COUNT 1 arrives: a gap. *)
Lemma demo_gap : exists e e1,
  new_nr_pdcp_entity NR_PDCP_DRB_AM true 1 1 false false 12 100 0 (demo_keys 0 0) = Ok e /\
  rtc pdcp_step (nr_pdcp_entity_set_time e 5) e1 /\ (ps_count <$> rx_list e1) = [1] /\
  t_reordering_start e1 = 5 /\ t_reordering e1 = 100.
Proof.
  eexists _, _. split; [vm_compute; reflexivity|]. split; [|split].
  - eapply rtc_l; [eapply (step_recv _ [128; 1; 9] 3); [|vm_compute; reflexivity]|apply rtc_refl].
    intros sn E. vm_compute in E. injection E as <-. by vm_compute.
  - vm_compute. reflexivity.
  - split; vm_compute; reflexivity.
Qed.



Lemma pdcp_suspend_flushes_witness : exists e1, (ps_count <$> rx_list e1) = [1] /\
  rx_list (nr_pdcp_entity_suspend e1) = [] /\
  delivered (nr_pdcp_entity_suspend e1) = delivered e1 ++ rx_list e1.
Proof.
  destruct demo_gap as (e & e1 & N & R & Hl & _). exists e1. split; [exact Hl|].
  destruct (pdcp_suspend_flushes _ _ _ _ _ _ _ _ _ _ e 5 e1 N ltac:(done) R) as (H1 & H2 & _). by split.
Defined.

Lemma pdcp_stored_sdu_is_authentic_witness : exists (e : nr_pdcp_entity_t) pdu e',
  has_integrity e = true /\ nr_pdcp_entity_recv_pdu e pdu (zlen pdu) = Ok e' /\
  ((exists st, e' = e <| stats := st |>) \/ exists sdu hd mac, nr_pdcp_integrity_nia2_integrity (replicate 16 17)
     (hd ++ ps_buffer sdu) (rb_id e) (ps_count sdu) 1 = Ok mac /\ zlen mac = 4).
Proof.
  destruct (demo_pair 2 2) as (tx & rx & _ & F1 & F2 & [(S1 & S2 & S3) Hp _]); [lia|lia|].
  pose proof (fe_vars _ _ _ _ _ _ _ _ _ F2) as (_ & _ & D). pose proof (fe_sn _ _ _ _ _ _ _ _ _ F2) as (_ & _ & W).
  change (Z.shiftl 1 (12 - 1)) with 2048 in W. pose proof (fe_sdap _ _ _ _ _ _ _ _ _ F1) as (_ & Sd).
  destruct (process_sdu_encodes tx [1; 2; 3] 0 (replicate 12 0) S1 S2) as (pdu & tl & st & _ & Ee).
  { rewrite Sd. constructor; [by repeat constructor|done]. } { rewrite S3. lia. } { done. }
  destruct (recv_encoded tx rx _ _ _ Hp Ee) as (st' & A); [rewrite D; lia|rewrite S3; lia|rewrite S3, D, W; lia|].
  assert (X : exists e', nr_pdcp_entity_recv_pdu rx pdu (zlen pdu) = Ok e').
  { destruct (_ || _) in A; [eauto|]. destruct A as (mi & n & A). eauto. }
  destruct X as [e' X]. destruct (fe_mac _ _ _ _ _ _ _ _ _ F2) as (M1 & M2 & M3).
  destruct (fe_bearer _ _ _ _ _ _ _ _ _ F2) as (_ & _ & G).
  exists rx, pdu, e'. split; [done|]. split; [done|].
  destruct (pdcp_stored_sdu_is_authentic rx pdu (zlen pdu) e' _ _ M1 M2 M3 X) as [H|(? & sdu & n & b & hd & mac & _ & _ & _ & _ & H4 & H5)];
    [by left|right]. rewrite G in H5. exists sdu, hd, mac. by split.
Defined.
