(* ===== verification/Sdap.v ===== *)
(** * SDAP

    [nr_sdap_entity.c] and the data path of [nr_sdap.c]: QoS flow to DRB mapping, SDAP
    headers, end-marker control PDUs and the list of entities.  What SDAP needs of PDCP
    is the class [PdcpService]; what it hands to GTP-U and to the NAS interface is
    recorded. *)

From S2P Require Import Prelude.

(** The context passed down with a request. *)
Record protocol_ctxt_t := mk_ctxt {
  module_id : Z; enb_flag : bool; instance : Z; rntiMaybeUEid : Z; eNB_index : Z; brOption : bool }.

(** [nr_pdcp_data_req_drb(ctxt, srb_flag, rb_id, mui, ..., size, buffer, ...)]: the PDCP
    state it acts on, and what it returns. *)
Class PdcpService (S : Type) :=
  nr_pdcp_data_req_drb : S -> protocol_ctxt_t -> bool -> Z -> Z -> Z -> bytes -> res (bool * S).

Module Sdap.

Definition SDAP_HDR_UL_CTRL_PDU : Z := 0.
Definition SDAP_HDR_LENGTH : Z := 1.
Definition SDAP_MAX_QFI : Z := 64.
Definition SDAP_MAP_RULE_EMPTY : Z := 0.
Definition AVLBL_DRB : Z := 5.
Definition SDAP_NO_MAPPING_RULE : Z := 0.
Definition SDAP_REFLECTIVE_MAPPING : Z := 1.
Definition SDAP_CTRL_PDU_MAP_DEF_DRB : Z := 0.
Definition SDAP_CTRL_PDU_MAP_RULE_DRB : Z := 1.
Definition MAX_DRBS_PER_UE : Z := 32.
Definition MAX_MOBILES_PER_ENB : Z := 40.
Definition SDAP_MAX_NUM_OF_ENTITIES : Z := MAX_DRBS_PER_UE * MAX_MOBILES_PER_ENB.
Definition SDAP_MAX_UE_ID : Z := 65536.
Definition NGAP_MAX_PDU_SESSION : Z := 256.
Definition RLC_MUI_UNDEFINED : Z := 0.

(** ** Headers: one byte, the first field in the low bits *)

Record nr_sdap_dl_hdr_t := mk_dl { dl_QFI : Z; dl_RQI : Z; dl_RDI : Z }.
Record nr_sdap_ul_hdr_t := mk_ul { ul_QFI : Z; ul_R : Z; ul_DC : Z }.

(** Assigning to a bit field keeps the low bits. *)
Definition dl_byte (h : nr_sdap_dl_hdr_t) : Z :=
  Z.lor (Z.land (dl_QFI h) 63) (Z.lor (Z.shiftl (Z.land (dl_RQI h) 1) 6) (Z.shiftl (Z.land (dl_RDI h) 1) 7)).

Definition ul_byte (h : nr_sdap_ul_hdr_t) : Z :=
  Z.lor (Z.land (ul_QFI h) 63) (Z.lor (Z.shiftl (Z.land (ul_R h) 1) 6) (Z.shiftl (Z.land (ul_DC h) 1) 7)).

Definition dl_of_byte (b : Z) : nr_sdap_dl_hdr_t :=
  mk_dl (Z.land b 63) (Z.land (Z.shiftr b 6) 1) (Z.land (Z.shiftr b 7) 1).

(** ** Entities *)

Record qfi2drb_t := mk_q { drb_id : Z; has_sdap_rx : bool; has_sdap_tx : bool }.

#[export] Instance eta_q : Eta qfi2drb_t := fun q => mk_q (drb_id q) (has_sdap_rx q) (has_sdap_tx q).

Record nr_sdap_entity_t := mk_sdap {
  ue_id : Z;                      (** [uint64_t] *)
  default_drb : Z;
  pdusession_id : Z;
  qfi2drb_table : list qfi2drb_t }.

#[export] Instance eta_sdap : Eta nr_sdap_entity_t := fun e =>
  mk_sdap (ue_id e) (default_drb e) (pdusession_id e) (qfi2drb_table e).

Inductive sdap_HeaderUL_t := sdap_HeaderUL_present | sdap_HeaderUL_absent.
Inductive sdap_HeaderDL_t := sdap_HeaderDL_present | sdap_HeaderDL_absent.

(** A list of QoS flows of the RRC message: [list.count], and the memory at
    [list.array[0]], [None] for an empty array. *)
Record qfi_list_t := mk_qfis { qfi_count : Z; qfi_array0 : option (list Z) }.

Record NR_SDAP_Config_t := mk_sdap_config {
  cfg_pdu_Session : Z;
  sdap_HeaderDL : sdap_HeaderDL_t;
  sdap_HeaderUL : sdap_HeaderUL_t;
  cfg_defaultDRB : bool;
  mappedQoS_FlowsToAdd : option qfi_list_t;
  mappedQoS_FlowsToRelease : option qfi_list_t }.

Definition is_sdap_rx (is_gnb : bool) (c : NR_SDAP_Config_t) : bool :=
  if is_gnb then match sdap_HeaderUL c with sdap_HeaderUL_present => true | _ => false end
  else match sdap_HeaderDL c with sdap_HeaderDL_present => true | _ => false end.

Definition is_sdap_tx (is_gnb : bool) (c : NR_SDAP_Config_t) : bool :=
  if is_gnb then match sdap_HeaderDL c with sdap_HeaderDL_present => true | _ => false end
  else match sdap_HeaderUL c with sdap_HeaderUL_present => true | _ => false end.

(** ** Mapping rules *)

Definition nr_sdap_qfi2drb_map_update (entity : nr_sdap_entity_t) (qfi drb : Z) (rx tx : bool) : res nr_sdap_entity_t :=
  if (qfi <? SDAP_MAX_QFI) && (qfi >? SDAP_MAP_RULE_EMPTY) && (drb >? 0) && (drb <=? AVLBL_DRB) then
    t ← wr (qfi2drb_table entity) qfi (mk_q drb rx tx);
    mret (entity <| qfi2drb_table := t |>)
  else mret entity.

Definition set_drb (entity : nr_sdap_entity_t) (qfi drb : Z) : res nr_sdap_entity_t :=
  q ← rd (qfi2drb_table entity) qfi;
  t ← wr (qfi2drb_table entity) qfi (q <| drb_id := drb |>);
  mret (entity <| qfi2drb_table := t |>).

Definition nr_sdap_qfi2drb_map_del (entity : nr_sdap_entity_t) (qfi : Z) : res nr_sdap_entity_t :=
  set_drb entity qfi SDAP_NO_MAPPING_RULE.

Definition nr_sdap_qfi2drb_map (entity : nr_sdap_entity_t) (qfi : Z) : res (Z * nr_sdap_entity_t) :=
  q ← rd (qfi2drb_table entity) qfi;
  if negb (drb_id q =? 0) then mret (drb_id q, entity)
  else if negb (default_drb entity =? 0) then
    e ← nr_sdap_qfi2drb_map_update entity qfi (default_drb entity) (has_sdap_rx q) (has_sdap_tx q);
    mret (default_drb entity, e)
  else mret (SDAP_MAP_RULE_EMPTY, entity).

Definition nr_sdap_construct_ctrl_pdu (qfi : Z) : nr_sdap_ul_hdr_t := mk_ul qfi 0 SDAP_HDR_UL_CTRL_PDU.

Definition nr_sdap_map_ctrl_pdu (entity : nr_sdap_entity_t) (map_type dl_qfi : Z) : res (Z * nr_sdap_entity_t) :=
  if map_type =? SDAP_CTRL_PDU_MAP_DEF_DRB then mret (default_drb entity, entity)
  else if map_type =? SDAP_CTRL_PDU_MAP_RULE_DRB then nr_sdap_qfi2drb_map entity dl_qfi
  else mret (0, entity).

Section Service.
Context {S : Type} {P : PdcpService S}.

(** What leaves SDAP upwards: to the GTP-U task (gNB) and to the NAS socket (UE). *)
Inductive sdap_out :=
| GtpuDataReq (ue bearer : Z) (sdu : bytes)
| NasWrite (sdu : bytes).

(** [N3GTPUInst] is the GTP-U instance, NULL until it is created. *)
Record world := mk_world {
  sdap_entity_llist : list nr_sdap_entity_t;
  N3GTPUInst : option Z;
  pdcp : S;
  out : list sdap_out }.

#[export] Instance eta_world : Eta world := fun w =>
  mk_world (sdap_entity_llist w) (N3GTPUInst w) (pdcp w) (out w).

(** ** End-marker control PDUs *)

Definition nr_pdcp_submit_sdap_ctrl_pdu (w : world) (ue drb : Z) (ctrl_pdu : nr_sdap_ul_hdr_t) : res world :=
  '(_, s) ← nr_pdcp_data_req_drb (pdcp w) (mk_ctxt 0 false 0 ue 0 false) false drb RLC_MUI_UNDEFINED
              SDAP_HDR_LENGTH [ul_byte ctrl_pdu];
  mret (w <| pdcp := s |>).

Definition nr_sdap_submit_ctrl_pdu (w : world) (ue drb : Z) (ctrl_pdu : nr_sdap_ul_hdr_t) : res world :=
  if negb (drb =? 0) then nr_pdcp_submit_sdap_ctrl_pdu w ue drb ctrl_pdu else mret w.

(** Construct, map, submit. *)
Definition send_ctrl_pdu (w : world) (entity : nr_sdap_entity_t) (ue map_type qfi : Z)
  : res (nr_sdap_entity_t * world) :=
  '(drb, entity) ← nr_sdap_map_ctrl_pdu entity map_type qfi;
  w ← nr_sdap_submit_ctrl_pdu w ue drb (nr_sdap_construct_ctrl_pdu qfi);
  mret (entity, w).

(** ** Transmission *)

Definition nr_sdap_tx_entity (w : world) (entity : nr_sdap_entity_t) (ctxt : protocol_ctxt_t) (srb_flag : bool)
    (rb_id mui sdu_buffer_size : Z) (sdu_buffer : option bytes) (qfi : Z) (rqi : bool)
  : res (bool * nr_sdap_entity_t * world) :=
  match sdu_buffer with
  | None => Err Exit
  | Some sdu_buffer =>
      '(pdcp_entity, entity) ← nr_sdap_qfi2drb_map entity qfi;
      q ← rd (qfi2drb_table entity) qfi;
      let sdap_drb_id := if negb (pdcp_entity =? 0) then pdcp_entity else rb_id in
      let pdcp_ent_has_sdap := if negb (pdcp_entity =? 0) then has_sdap_tx q else false in
      if negb pdcp_ent_has_sdap then
        '(ret, s) ← nr_pdcp_data_req_drb (pdcp w) ctxt srb_flag sdap_drb_id mui sdu_buffer_size sdu_buffer;
        mret (ret, entity, w <| pdcp := s |>)
      else if (sdu_buffer_size =? 0) || (sdu_buffer_size >? 8999) then mret (false, entity, w)
      else
        let hdr := if enb_flag ctxt then dl_byte (mk_dl qfi (b2z rqi) 0) else ul_byte (mk_ul qfi 0 (b2z rqi)) in
        sdu ← slice sdu_buffer 0 sdu_buffer_size;
        '(ret, s) ← nr_pdcp_data_req_drb (pdcp w) ctxt srb_flag sdap_drb_id mui
                      (sdu_buffer_size + SDAP_HDR_LENGTH) (hdr :: sdu);
        mret (ret, entity, w <| pdcp := s |>)
  end.

(** ** Reception *)

(** Reflective mapping (TS 37.324, 5.3.2). *)
Definition reflective_mapping (w : world) (entity : nr_sdap_entity_t) (pdcp_entity ue qfi : Z)
  : res (nr_sdap_entity_t * world) :=
  q ← rd (qfi2drb_table entity) qfi;
  '(entity, w) ← (if (drb_id q =? 0) && negb (default_drb entity =? 0)
                  then send_ctrl_pdu w entity ue SDAP_CTRL_PDU_MAP_DEF_DRB qfi else mret (entity, w));
  q ← rd (qfi2drb_table entity) qfi;
  '(entity, w) ← (if negb (pdcp_entity =? drb_id q)
                  then send_ctrl_pdu w entity ue SDAP_CTRL_PDU_MAP_RULE_DRB qfi else mret (entity, w));
  entity ← set_drb entity qfi pdcp_entity;
  mret (entity, w).

Definition nr_sdap_rx_entity (w : world) (entity : nr_sdap_entity_t) (pdcp_entity : Z) (is_gnb rx : bool)
    (pdusession ue : Z) (buf : bytes) (size : Z) : res (nr_sdap_entity_t * world) :=
  let offset := if rx then SDAP_HDR_LENGTH else 0 in
  if is_gnb then
    sdu ← slice buf offset (size - offset);
    _ ← deref (N3GTPUInst w);
    mret (entity, w <| out ::= fun o => o ++ [GtpuDataReq ue pdusession sdu] |>)
  else
    '(entity, w) ← (if rx then
                      b ← rd buf 0;
                      if dl_RDI (dl_of_byte b) =? SDAP_REFLECTIVE_MAPPING
                      then reflective_mapping w entity pdcp_entity ue (dl_QFI (dl_of_byte b))
                      else mret (entity, w)
                    else mret (entity, w));
    sdu ← slice buf offset (size - offset);
    mret (entity, w <| out ::= fun o => o ++ [NasWrite sdu] |>).

(** ** The list of entities *)

Definition matches (ue pdu : Z) (e : nr_sdap_entity_t) : bool := (ue_id e =? ue) && (pdusession_id e =? pdu).

Fixpoint nr_sdap_get_entity (l : list nr_sdap_entity_t) (ue pdu : Z) : option nr_sdap_entity_t :=
  match l with
  | [] => None
  | e :: l => if matches ue pdu e then Some e else nr_sdap_get_entity l ue pdu
  end.

(** Writing through the pointer [nr_sdap_get_entity] returned. *)
Fixpoint put_entity (l : list nr_sdap_entity_t) (ue pdu : Z) (e' : nr_sdap_entity_t) : list nr_sdap_entity_t :=
  match l with
  | [] => []
  | e :: l => if matches ue pdu e then e' :: l else e :: put_entity l ue pdu e'
  end.

(** The UL mapping rules of an existing entity (TS 37.324, 5.3.1). *)
Fixpoint nr_sdap_ue_qfi2drb_config (w : world) (entity : nr_sdap_entity_t) (ue : Z) (mapped : list Z) (i : Z)
    (n : nat) (drb_identity : Z) (rx tx : bool) : res (nr_sdap_entity_t * world) :=
  match n with
  | O => mret (entity, w)
  | Datatypes.S n =>
      x ← rd mapped i;
      let qfi := u8 x in
      q ← rd (qfi2drb_table entity) qfi;
      '(entity, w) ← (if negb (default_drb entity =? 0) && (drb_id q =? SDAP_NO_MAPPING_RULE)
                      then send_ctrl_pdu w entity ue SDAP_CTRL_PDU_MAP_DEF_DRB qfi else mret (entity, w));
      q ← rd (qfi2drb_table entity) qfi;
      '(entity, w) ← (if negb (drb_id q =? drb_identity) && has_sdap_tx q
                      then send_ctrl_pdu w entity ue SDAP_CTRL_PDU_MAP_RULE_DRB qfi else mret (entity, w));
      entity ← nr_sdap_qfi2drb_map_update entity qfi drb_identity rx tx;
      nr_sdap_ue_qfi2drb_config w entity ue mapped (i + 1) n drb_identity rx tx
  end.

Fixpoint add_rules (entity : nr_sdap_entity_t) (mapped : list Z) (i : Z) (n : nat) (rx tx : bool) : res nr_sdap_entity_t :=
  match n with
  | O => mret entity
  | Datatypes.S n =>
      x ← rd mapped i;
      entity ← nr_sdap_qfi2drb_map_update entity (u8 x) (default_drb entity) rx tx;
      add_rules entity mapped (i + 1) n rx tx
  end.

Definition new_nr_sdap_entity (w : world) (is_gnb rx tx : bool) (ue pdusession : Z) (is_defaultDRB : bool)
    (drb_identity : Z) (mapped : list Z) (mappedQFIs2AddCount : Z) : res (nr_sdap_entity_t * world) :=
  match nr_sdap_get_entity (sdap_entity_llist w) ue pdusession with
  | Some existing =>
      if negb is_gnb then
        '(e, w) ← nr_sdap_ue_qfi2drb_config w existing ue mapped 0 (Z.to_nat (u8 mappedQFIs2AddCount))
                    (u8 drb_identity) rx tx;
        mret (e, w <| sdap_entity_llist ::= fun l => put_entity l ue pdusession e |>)
      else mret (existing, w)
  | None =>
      let e := mk_sdap ue 0 pdusession (replicate (Z.to_nat SDAP_MAX_QFI) (mk_q 0 false false)) in
      e ← (if is_defaultDRB
           then add_rules (e <| default_drb := u8 drb_identity |>) mapped 0 (Z.to_nat (u8 mappedQFIs2AddCount)) rx tx
           else mret e);
      mret (e, w <| sdap_entity_llist ::= fun l => e :: l |>)
  end.

Definition release_rules (drb : Z) (t : list qfi2drb_t) : list qfi2drb_t :=
  (fun q => if drb_id q =? drb then q <| drb_id := SDAP_NO_MAPPING_RULE |> else q) <$> t.

Definition nr_sdap_release_drb (w : world) (ue drb pdusession : Z) : world :=
  match nr_sdap_get_entity (sdap_entity_llist w) ue pdusession with
  | Some e =>
      w <| sdap_entity_llist ::= fun l => put_entity l ue pdusession (e <| qfi2drb_table ::= release_rules drb |>) |>
  | None => w
  end.

(** The search behind the head: [prev] is the part passed, reversed. *)
Fixpoint delete_walk (prev l : list nr_sdap_entity_t) (ue pdu upperBound : Z) : bool * list nr_sdap_entity_t :=
  match l with
  | [] => (false, rev prev)
  | e :: l' =>
      if negb (matches ue pdu e) && negb (bool_decide (l' = [])) && (upperBound <? SDAP_MAX_NUM_OF_ENTITIES)
      then delete_walk (e :: prev) l' ue pdu (upperBound + 1)
      else if matches ue pdu e then (true, rev prev ++ l') else (false, rev prev ++ l)
  end.

Definition nr_sdap_delete_entity (w : world) (ue pdu : Z) : res (bool * world) :=
  match sdap_entity_llist w with
  | [] => if pdu * (pdu - NGAP_MAX_PDU_SESSION) >? 0 then mret (false, w) else Err Null
  | e :: l =>
      if matches ue pdu e then mret (true, w <| sdap_entity_llist := l |>)
      else
        let '(ret, l') := delete_walk [] (e :: l) ue pdu 0 in
        mret (ret, w <| sdap_entity_llist := l' |>)
  end.

Fixpoint delete_head (l : list nr_sdap_entity_t) (ue : Z) : bool * list nr_sdap_entity_t :=
  match l with
  | [] => (false, [])
  | e :: l' => if ue_id e =? ue then (true, (delete_head l' ue).2) else (false, l)
  end.

Fixpoint delete_rest (l : list nr_sdap_entity_t) (ue : Z) : bool * list nr_sdap_entity_t :=
  match l with
  | [] => (false, [])
  | e :: l' =>
      let '(ret, r) := delete_rest l' ue in
      if negb (ue_id e =? ue) then (ret, e :: r) else (true, r)
  end.

(** [upperBound] stays 0 in both loops. *)
Definition nr_sdap_delete_ue_entities (w : world) (ue : Z) : bool * world :=
  match sdap_entity_llist w with
  | [] => (false, w)
  | l =>
      let '(ret1, l) := delete_head l ue in
      let '(ret2, l) := delete_rest l ue in
      (ret1 || ret2, w <| sdap_entity_llist := l |>)
  end.

(** ** Reconfiguration (UE) *)

Fixpoint delete_rules (entity : nr_sdap_entity_t) (released : list Z) (i : Z) (n : nat) : res nr_sdap_entity_t :=
  match n with
  | O => mret entity
  | Datatypes.S n =>
      x ← rd released i;
      entity ← nr_sdap_qfi2drb_map_del entity (u8 x);
      delete_rules entity released (i + 1) n
  end.

Definition nr_reconfigure_sdap_entity (w : world) (c : NR_SDAP_Config_t) (ue pdusession drb : Z) : res world :=
  match nr_sdap_get_entity (sdap_entity_llist w) ue pdusession with
  | None => mret w
  | Some entity =>
      add ← deref (mappedQoS_FlowsToAdd c);
      array0 ← deref (qfi_array0 add);
      '(entity, w) ← nr_sdap_ue_qfi2drb_config w entity ue array0 0 (Z.to_nat (u8 (qfi_count add))) (u8 drb)
                       (is_sdap_rx false c) (is_sdap_tx false c);
      entity ← match mappedQoS_FlowsToRelease c with
               | None => mret entity
               | Some r =>
                   array0 ← deref (qfi_array0 r);
                   delete_rules entity array0 0 (Z.to_nat (u8 (qfi_count r)))
               end;
      mret (w <| sdap_entity_llist ::= fun l => put_entity l ue pdusession entity |>)
  end.

(** ** nr_sdap.c *)

Definition sdap_data_req (w : world) (ctxt : protocol_ctxt_t) (ue : Z) (srb_flag : bool) (rb_id mui size : Z)
    (sdu_buffer : option bytes) (qfi : Z) (rqi : bool) (pdusession : Z) : res (bool * world) :=
  match nr_sdap_get_entity (sdap_entity_llist w) ue pdusession with
  | None => mret (false, w)
  | Some e =>
      '(ret, e, w) ← nr_sdap_tx_entity w e ctxt srb_flag rb_id mui size sdu_buffer qfi rqi;
      mret (ret, w <| sdap_entity_llist ::= fun l => put_entity l ue pdusession e |>)
  end.

Definition sdap_data_ind (w : world) (pdcp_entity : Z) (is_gnb rx : bool) (pdusession ue : Z) (buf : bytes) (size : Z)
  : res world :=
  match nr_sdap_get_entity (sdap_entity_llist w) ue pdusession with
  | None => mret w
  | Some e =>
      '(e, w) ← nr_sdap_rx_entity w e pdcp_entity is_gnb rx pdusession ue buf size;
      mret (w <| sdap_entity_llist ::= fun l => put_entity l ue pdusession e |>)
  end.

End Service.
End Sdap.
