(* ===== verification/SdapProps.v ===== *)
(** * SDAP: properties

    The list of entities as a finite map, the data path through the headers, and the
    mapping of QoS flows to bearers. *)

From S2P Require Import Prelude Sdap.
Import Sdap.

(** ** The list of entities refines a finite map *)

Definition key (e : nr_sdap_entity_t) : Z * Z := (ue_id e, pdusession_id e).

Definition abs (l : list nr_sdap_entity_t) : gmap (Z * Z) nr_sdap_entity_t :=
  list_to_map ((fun e => (key e, e)) <$> l).

(** There is at most one entity per UE and PDU session. *)
Definition unique (l : list nr_sdap_entity_t) : Prop := NoDup (key <$> l).

Lemma abs_cons e l : abs (e :: l) = <[key e := e]> (abs l).
Proof. done. Qed.

Lemma abs_nil : abs [] = ∅.
Proof. done. Qed.

Lemma matches_key ue pdu e : matches ue pdu e = true <-> key e = (ue, pdu).
Proof.
  unfold matches, key. rewrite andb_true_iff, !Z.eqb_eq. split; [intros [-> ->]; done|by intros [= -> ->]].
Qed.

Lemma matches_nkey ue pdu e : matches ue pdu e = false <-> key e <> (ue, pdu).
Proof. rewrite <- matches_key. by destruct (matches ue pdu e). Qed.

Lemma get_entity_abs l ue pdu : nr_sdap_get_entity l ue pdu = abs l !! (ue, pdu).
Proof.
  induction l as [|e l IH]; [done|]. cbn [nr_sdap_get_entity]. rewrite abs_cons.
  destruct (matches ue pdu e) eqn:E.
  - apply matches_key in E as <-. by rewrite lookup_insert_eq.
  - apply matches_nkey in E. by rewrite lookup_insert_ne.
Qed.

Lemma abs_None l k : abs l !! k = None <-> k ∉ key <$> l.
Proof.
  unfold abs. rewrite <- not_elem_of_list_to_map. rewrite <- list_fmap_compose. done.
Qed.

Lemma put_entity_key l ue pdu e' : key e' = (ue, pdu) -> key <$> put_entity l ue pdu e' = key <$> l.
Proof.
  intros K. induction l as [|e l IH]; [done|]. cbn. destruct (matches ue pdu e) eqn:E; cbn; [|by rewrite IH].
  apply matches_key in E. by rewrite K, E.
Qed.

Lemma put_entity_abs l ue pdu e' : key e' = (ue, pdu) -> is_Some (abs l !! (ue, pdu)) ->
  abs (put_entity l ue pdu e') = <[(ue, pdu) := e']> (abs l).
Proof.
  intros K H. induction l as [|e l IH]; [by destruct H|]. cbn [put_entity].
  destruct (matches ue pdu e) eqn:E.
  - apply matches_key in E. rewrite !abs_cons, K, E. by rewrite insert_insert_eq.
  - apply matches_nkey in E. rewrite !abs_cons in *. rewrite lookup_insert_ne in H by done.
    rewrite IH by done. by rewrite insert_insert_ne.
Qed.

(** ** Deletion *)

Lemma delete_walk_spec ue pdu l : forall prev ub, NoDup (key <$> l) ->
  ub + zlen l <= SDAP_MAX_NUM_OF_ENTITIES + 1 ->
  delete_walk prev l ue pdu ub =
    (bool_decide ((ue, pdu) ∈ key <$> l), rev prev ++ filter (fun e => key e <> (ue, pdu)) l).
Proof.
  induction l as [|e l IH]; intros prev ub Hu Hb.
  { cbn. by rewrite app_nil_r. }
  rewrite fmap_cons in *. apply NoDup_cons in Hu as [Hn Hu]. rewrite zlen_cons in Hb.
  cbn [delete_walk]. rewrite filter_cons. destruct (matches ue pdu e) eqn:E; cbn [negb andb].
  - apply matches_key in E. rewrite decide_False by (by intros []). rewrite bool_decide_eq_true_2 by (rewrite E; left).
    f_equal. f_equal. symmetry. apply filter_all. rewrite Forall_forall. intros x Hx Hk.
    apply Hn. rewrite E, <- Hk. by apply list_elem_of_fmap_2.
  - apply matches_nkey in E. rewrite decide_True by done.
    assert (B : bool_decide ((ue, pdu) ∈ key e :: (key <$> l)) = bool_decide ((ue, pdu) ∈ key <$> l)).
    { apply bool_decide_ext. rewrite elem_of_cons. naive_solver. }
    rewrite B. destruct l as [|e' l'].
    + cbn. done.
    + rewrite bool_decide_eq_false_2 by done. cbn [negb andb].
      rewrite (proj2 (Z.ltb_lt ub _)) by (rewrite zlen_cons in Hb; pose proof (zlen_nonneg l'); lia).
      rewrite IH by (done || lia). cbn [rev]. by rewrite <- app_assoc.
Qed.

Lemma abs_filter_key l k : NoDup (key <$> l) -> abs (filter (fun e => key e <> k) l) = delete k (abs l).
Proof.
  intros Hu. induction l as [|e l IH]; [rewrite filter_nil, abs_nil; by rewrite delete_empty|].
  rewrite fmap_cons in Hu. apply NoDup_cons in Hu as [Hn Hu]. rewrite filter_cons, abs_cons. case_decide as E.
  - by rewrite abs_cons, IH, delete_insert_ne.
  - subst k. rewrite IH by done. rewrite delete_insert_eq.
    rewrite delete_id; [done|]. by apply abs_None.
Qed.

Lemma delete_rest_spec ue l :
  delete_rest l ue = (existsb (fun e => ue_id e =? ue) l, filter (fun e => ue_id e <> ue) l).
Proof.
  induction l as [|e l IH]; [done|]. cbn [delete_rest existsb]. rewrite IH, filter_cons.
  destruct (Z.eqb_spec (ue_id e) ue); cbn [negb orb]; [rewrite decide_False by (by intros [])|rewrite decide_True by done]; done.
Qed.

Lemma delete_head_spec ue l : exists l1, l = l1 ++ (delete_head l ue).2 /\
  Forall (fun e => ue_id e = ue) l1 /\ (delete_head l ue).1 = negb (bool_decide (l1 = [])).
Proof.
  induction l as [|e l (l1 & IH & F & _)]; [by exists []|]. cbn [delete_head].
  destruct (Z.eqb_spec (ue_id e) ue) as [E|E]; cbn [fst snd].
  - exists (e :: l1). cbn. rewrite <- IH. by split_and!; [|constructor|].
  - by exists [].
Qed.

Section Refinement.
Context {S : Type} {P : PdcpService S}.
Implicit Types w : @world S.

Lemma delete_ue_spec w ue : nr_sdap_delete_ue_entities w ue =
  (existsb (fun e => ue_id e =? ue) (sdap_entity_llist w),
   w <| sdap_entity_llist ::= filter (fun e => ue_id e <> ue) |>).
Proof.
  unfold nr_sdap_delete_ue_entities. destruct w as [l n s o]. cbn [sdap_entity_llist]. destruct l as [|e l]; [done|].
  remember (e :: l) as l0 eqn:E0. clear E0 e l.
  destruct (delete_head_spec ue l0) as (l1 & E & F & B). destruct (delete_head l0 ue) as [r1 l2] eqn:D. cbn [fst snd] in *.
  rewrite delete_rest_spec. subst l0 r1. cbn [setter sdap_entity_llist N3GTPUInst pdcp out]. rewrite existsb_app, filter_app.
  assert (Fl : filter (fun e => ue_id e <> ue) l1 = []) by (clear -F; induction F; [done|]; rewrite filter_cons_False; auto).
  assert (Fe : existsb (fun e => ue_id e =? ue) l1 = negb (bool_decide (l1 = []))).
  { destruct F as [|x l1 Hx _]; [done|]. cbn. by rewrite (proj2 (Z.eqb_eq _ _) Hx). }
  by rewrite Fl, Fe.
Qed.

Lemma abs_filter_ue l ue : unique l ->
  abs (filter (fun e => ue_id e <> ue) l) = filter (fun kv => kv.1.1 <> ue) (abs l).
Proof.
  intros Hu. induction l as [|e l IH]; [rewrite filter_nil, abs_nil; by rewrite map_filter_empty|].
  unfold unique in *. rewrite fmap_cons in Hu. apply NoDup_cons in Hu as [Hn Hu]. rewrite filter_cons, abs_cons.
  rewrite map_filter_insert. case_decide as E; case_decide as E'; cbn in E'; try done.
  - by rewrite abs_cons, IH.
  - rewrite IH by done. rewrite delete_id; [done|]. by apply abs_None.
Qed.

Lemma unique_filter l (Q : nr_sdap_entity_t -> Prop) `{!forall x, Decision (Q x)} : unique l -> unique (filter Q l).
Proof.
  unfold unique. induction l as [|e l IH]; [done|]. rewrite fmap_cons, NoDup_cons. intros [Hn Hu].
  rewrite filter_cons. case_decide; [|by apply IH]. rewrite fmap_cons, NoDup_cons. split; [|by apply IH].
  intros (x & Ex & Hx)%list_elem_of_fmap_1. apply Hn. rewrite Ex. apply list_elem_of_fmap_2.
  by apply list_elem_of_filter in Hx as [_ ?].
Qed.

Lemma map_update_key e q d r t e' : nr_sdap_qfi2drb_map_update e q d r t = Ok e' -> key e' = key e /\ default_drb e' = default_drb e.
Proof. unfold nr_sdap_qfi2drb_map_update. case_if; intros; inv_res; done. Qed.

Lemma add_rules_key n : forall e m i r t e', add_rules e m i n r t = Ok e' -> key e' = key e.
Proof.
  induction n as [|n IH]; intros e m i r t e' H; cbn [add_rules] in H; [by inv_res|].
  apply bind_ok in H as (x & _ & H). apply bind_ok in H as (e1 & U & H). apply map_update_key in U as [U _].
  by rewrite (IH _ _ _ _ _ _ H), U.
Qed.

Lemma new_entity_fresh w g r t ue pdu d drb m n e w' : abs (sdap_entity_llist w) !! (ue, pdu) = None ->
  new_nr_sdap_entity w g r t ue pdu d drb m n = Ok (e, w') ->
  key e = (ue, pdu) /\ sdap_entity_llist w' = e :: sdap_entity_llist w.
Proof.
  intros H. unfold new_nr_sdap_entity. rewrite get_entity_abs, H. intros N. apply bind_ok in N as (e1 & E & N). inv_res.
  split; [|done]. case_if; [by apply add_rules_key in E|by inv_res].
Qed.

Lemma delete_entity_spec w ue pdu : unique (sdap_entity_llist w) -> sdap_entity_llist w <> [] ->
  zlen (sdap_entity_llist w) <= SDAP_MAX_NUM_OF_ENTITIES + 1 ->
  nr_sdap_delete_entity w ue pdu = Ok (bool_decide ((ue, pdu) ∈ key <$> sdap_entity_llist w),
    w <| sdap_entity_llist ::= filter (fun e => key e <> (ue, pdu)) |>).
Proof.
  intros Hu Hne Hl. unfold nr_sdap_delete_entity. destruct w as [l n s o]. cbn [setter sdap_entity_llist N3GTPUInst pdcp out] in *. destruct l as [|e l]; [done|].
  destruct (matches ue pdu e) eqn:E.
  - unfold unique in Hu. rewrite fmap_cons in *. apply NoDup_cons in Hu as [Hn Hu]. apply matches_key in E.
    rewrite bool_decide_eq_true_2 by (rewrite E; left). rewrite filter_cons, decide_False by (by intros []).
    rewrite filter_all; [done|]. rewrite Forall_forall. intros x Hx Hk. apply Hn. rewrite E, <- Hk. by apply list_elem_of_fmap_2.
  - rewrite (delete_walk_spec ue pdu (e :: l) [] 0) by done. done.
Qed.
End Refinement.


(** ** Headers *)

(** A statement on QFIs checked on all of them. *)
Lemma all_qfis (p : Z -> bool) : forallb (fun n => p (Z.of_nat n)) (List.seq 0 64) = true ->
  forall qfi, 0 <= qfi < 64 -> p qfi = true.
Proof.
  intros H qfi Hq. rewrite forallb_forall in H. specialize (H (Z.to_nat qfi)). rewrite Z2Nat.id in H by lia.
  apply H. apply in_seq. lia.
Qed.

Lemma dl_header qfi rqi : 0 <= qfi < 64 -> dl_of_byte (dl_byte (mk_dl qfi (b2z rqi) 0)) = mk_dl qfi (b2z rqi) 0.
Proof.
  intros Hq. assert (D : bool_decide ((dl_QFI (dl_of_byte (dl_byte (mk_dl qfi (b2z rqi) 0))), dl_RQI (dl_of_byte (dl_byte (mk_dl qfi (b2z rqi) 0))),
    dl_RDI (dl_of_byte (dl_byte (mk_dl qfi (b2z rqi) 0)))) = (qfi, b2z rqi, 0)) = true).
  { destruct rqi; revert qfi Hq; apply all_qfis; vm_compute; reflexivity. }
  apply bool_decide_eq_true in D. injection D as D1 D2 D3. unfold dl_of_byte in *. cbn in *. by rewrite D1, D2, D3.
Qed.

Lemma rdi_header qfi rqi : 0 <= qfi < 64 ->
  dl_QFI (dl_of_byte (Z.lor (dl_byte (mk_dl qfi (b2z rqi) 0)) 128)) = qfi /\
  dl_RDI (dl_of_byte (Z.lor (dl_byte (mk_dl qfi (b2z rqi) 0)) 128)) = 1.
Proof.
  intros Hq. apply (bool_decide_eq_true_1 _). revert qfi Hq.
  destruct rqi; apply all_qfis; vm_compute; reflexivity.
Qed.

(** ** The mapping table *)

(** 64 rules that name one of the bearers, and a default bearer. *)
Record entity_ok (e : nr_sdap_entity_t) : Prop := {
  eo_size : length (qfi2drb_table e) = 64%nat;
  eo_default : 0 <= default_drb e <= AVLBL_DRB;
  eo_rules : Forall (fun q => 0 <= drb_id q <= AVLBL_DRB) (qfi2drb_table e) }.

Lemma table_rd e qfi : entity_ok e -> 0 <= qfi < 64 -> exists q, rd (qfi2drb_table e) qfi = Ok q /\
  qfi2drb_table e !! Z.to_nat qfi = Some q /\ 0 <= drb_id q <= AVLBL_DRB.
Proof.
  intros [L _ F] Hq. destruct (rd_ok (qfi2drb_table e) qfi) as (q & R & E); [unfold zlen; lia|].
  exists q. split; [done|]. split; [done|]. rewrite Forall_lookup in F. by apply (F _ _ E).
Qed.

Lemma table_wr e qfi q : entity_ok e -> 0 <= qfi < 64 -> wr (qfi2drb_table e) qfi q = Ok (<[Z.to_nat qfi := q]> (qfi2drb_table e)).
Proof. intros [L _ _] Hq. apply wr_ok. unfold zlen. lia. Qed.

Lemma insert_ok e qfi q : entity_ok e -> 0 <= drb_id q <= AVLBL_DRB ->
  entity_ok (e <| qfi2drb_table := <[Z.to_nat qfi := q]> (qfi2drb_table e) |>).
Proof.
  intros [L D F] Hq. constructor; cbn; [by rewrite length_insert|done|]. by apply Forall_insert.
Qed.

Lemma map_update_spec e qfi drb r t : entity_ok e -> 0 <= qfi < 64 ->
  nr_sdap_qfi2drb_map_update e qfi drb r t =
    Ok (if (0 <? qfi) && (0 <? drb) && (drb <=? AVLBL_DRB)
        then e <| qfi2drb_table := <[Z.to_nat qfi := mk_q drb r t]> (qfi2drb_table e) |> else e).
Proof.
  intros He Hq. unfold nr_sdap_qfi2drb_map_update, SDAP_MAX_QFI, SDAP_MAP_RULE_EMPTY.
  rewrite (proj2 (Z.ltb_lt qfi 64)), !Z.gtb_ltb by lia. cbn [andb]. case_if; [|done].
  rewrite table_wr by done. done.
Qed.

(** The bearer of a flow: its rule, else the default bearer, else none. *)
Lemma map_spec e qfi q : entity_ok e -> 0 <= qfi < 64 -> qfi2drb_table e !! Z.to_nat qfi = Some q ->
  exists e', nr_sdap_qfi2drb_map e qfi = Ok (if drb_id q =? 0 then default_drb e else drb_id q, e') /\
    entity_ok e' /\ default_drb e' = default_drb e /\
    exists q', e' = e <| qfi2drb_table := <[Z.to_nat qfi := q']> (qfi2drb_table e) |>.
Proof.
  intros He Hq Hl. pose proof (eo_default _ He). unfold nr_sdap_qfi2drb_map.
  rewrite (rd_Some _ _ _ (proj1 Hq) Hl), bind_Ok.
  assert (Same : e = e <| qfi2drb_table := <[Z.to_nat qfi := q]> (qfi2drb_table e) |>).
  { rewrite list_insert_id by done. by destruct e. }
  destruct (Z.eqb_spec (drb_id q) 0) as [E|E]; cbn [negb]; [|exists e; split_and!; eauto].
  destruct (Z.eqb_spec (default_drb e) 0) as [E'|E']; cbn [negb].
  { exists e. rewrite E'. split_and!; eauto. }
  rewrite map_update_spec by done. mon. eexists. split; [reflexivity|].
  case_if; [|split_and!; eauto]. split; [by apply insert_ok; cbn|]. split; [done|]. eauto.
Qed.

Lemma set_drb_spec e qfi q drb : 0 <= qfi -> qfi2drb_table e !! Z.to_nat qfi = Some q ->
  set_drb e qfi drb = Ok (e <| qfi2drb_table := <[Z.to_nat qfi := q <| drb_id := drb |>]> (qfi2drb_table e) |>).
Proof.
  intros Hq Hl. unfold set_drb. rewrite (rd_Some _ _ _ Hq Hl), bind_Ok, wr_ok; [done|].
  apply lookup_lt_Some in Hl. unfold zlen. lia.
Qed.

(** ** Data path, for any PDCP *)

Lemma dl_is_byte qfi rqi : 0 <= qfi < 64 -> is_byte (dl_byte (mk_dl qfi (b2z rqi) 0)) /\ is_byte (ul_byte (mk_ul qfi 0 (b2z rqi))).
Proof.
  intros Hq. assert (D : bool_decide (0 <= dl_byte (mk_dl qfi (b2z rqi) 0) /\ dl_byte (mk_dl qfi (b2z rqi) 0) < 256 /\
    0 <= ul_byte (mk_ul qfi 0 (b2z rqi)) /\ ul_byte (mk_ul qfi 0 (b2z rqi)) < 256) = true).
  { revert qfi Hq. destruct rqi; apply all_qfis; vm_compute; reflexivity. }
  apply bool_decide_eq_true in D. unfold is_byte. lia.
Qed.

Section Data_path.
Context {S : Type} {P : PdcpService S}.

(** The header a sender puts before an SDU of flow [qfi]. *)
Definition data_header (gnb : bool) (qfi : Z) (rqi : bool) : Z :=
  if gnb then dl_byte (mk_dl qfi (b2z rqi) 0) else ul_byte (mk_ul qfi 0 (b2z rqi)).

Lemma tx_data (w : @world S) e ctxt rb mui qfi rqi q sdu : 0 <= qfi -> qfi2drb_table e !! Z.to_nat qfi = Some q ->
  drb_id q <> 0 -> has_sdap_tx q = true -> 1 <= zlen sdu <= 8999 ->
  nr_sdap_tx_entity w e ctxt false rb mui (zlen sdu) (Some sdu) qfi rqi =
    ('(ret, s) ← nr_pdcp_data_req_drb (pdcp w) ctxt false (drb_id q) mui
                   (zlen (data_header (enb_flag ctxt) qfi rqi :: sdu)) (data_header (enb_flag ctxt) qfi rqi :: sdu);
     mret (ret, e, w <| pdcp := s |>)).
Proof.
  intros Hq Hl Hd Ht Hs. unfold nr_sdap_tx_entity, nr_sdap_qfi2drb_map. rewrite (rd_Some _ _ _ Hq Hl), bind_Ok.
  rewrite (proj2 (Z.eqb_neq (drb_id q) 0) Hd). cbn [negb]. mon.
  rewrite (rd_Some _ _ _ Hq Hl). mon. rewrite (proj2 (Z.eqb_neq (drb_id q) 0) Hd). cbn [negb]. rewrite Ht. cbn [negb].
  rewrite (proj2 (Z.eqb_neq (zlen sdu) 0)), Z.gtb_ltb, (proj2 (Z.ltb_ge 8999 (zlen sdu))) by lia. cbn [orb].
  rewrite slice_all, bind_Ok. fold (data_header (enb_flag ctxt) qfi rqi).
  replace (zlen sdu + SDAP_HDR_LENGTH) with (zlen (data_header (enb_flag ctxt) qfi rqi :: sdu))
    by (rewrite zlen_cons; unfold SDAP_HDR_LENGTH; lia). done.
Qed.

Lemma rx_data (w : @world S) e drb gnb ue pdus qfi rqi sdu : 0 <= qfi < 64 -> (gnb = true -> is_Some (N3GTPUInst w)) ->
  let pdu := data_header (negb gnb) qfi rqi :: sdu in
  nr_sdap_rx_entity w e drb gnb true pdus ue pdu (zlen pdu) =
    Ok (e, w <| out ::= fun o => o ++ [if gnb then GtpuDataReq ue pdus sdu else NasWrite sdu] |>).
Proof.
  intros Hq Hn. cbv zeta. unfold nr_sdap_rx_entity, SDAP_HDR_LENGTH. set (hdr := data_header (negb gnb) qfi rqi).
  assert (Sl : slice (hdr :: sdu) 1 (zlen (hdr :: sdu) - 1) = Ok sdu).
  { rewrite zlen_cons. replace (1 + zlen sdu - 1) with (zlen sdu) by lia. apply (slice_app_r [hdr] sdu). }
  rewrite Sl. destruct gnb.
  - mon. destruct (Hn eq_refl) as [n ->]. done.
  - change (rd (hdr :: sdu) 0) with (Ok hdr). mon. unfold hdr, data_header. cbn [negb]. rewrite dl_header by done. done.
Qed.

(** Writing back an unchanged entity. *)
Lemma put_same l ue pdu e : nr_sdap_get_entity l ue pdu = Some e -> put_entity l ue pdu e = l.
Proof.
  induction l as [|x l IH]; [done|]. cbn. destruct (matches ue pdu x); [by intros [= ->]|]. intros H. by rewrite IH.
Qed.
End Data_path.

(** ** A PDCP that records what it is given *)

Abbreviation pdcp_log := (list (Z * Z * bytes)).

#[local] Instance recorder : PdcpService pdcp_log := fun s ctxt srb_flag rb_id mui size buffer =>
  d ← slice buffer 0 size;
  mret (true, s ++ [(rntiMaybeUEid ctxt, rb_id, d)]).

(** The end marker of a flow. *)
Definition end_marker (ue drb qfi : Z) : Z * Z * bytes := (ue, drb, [ul_byte (nr_sdap_construct_ctrl_pdu qfi)]).

Lemma submit_spec (w : @world pdcp_log) ue drb qfi : drb <> 0 ->
  nr_sdap_submit_ctrl_pdu w ue drb (nr_sdap_construct_ctrl_pdu qfi) =
    Ok (w <| pdcp ::= fun s => s ++ [end_marker ue drb qfi] |>).
Proof.
  intros H. unfold nr_sdap_submit_ctrl_pdu. by rewrite (proj2 (Z.eqb_neq drb 0) H).
Qed.

(** ** Data path *)

(** [C35] An SDU of a flow whose bearer has the SDAP header: the PDU goes to the bearer of the
    flow, and the peer recovers flow and SDU from it and hands the SDU to the NAS socket (from
    gNB to UE) or to GTP-U (from UE to gNB). *)
Theorem sdap_data_roundtrip (w : @world pdcp_log) e ctxt rb mui qfi rqi q sdu :
  entity_ok e -> 0 <= qfi < 64 -> qfi2drb_table e !! Z.to_nat qfi = Some q -> drb_id q <> 0 -> has_sdap_tx q = true ->
  1 <= zlen sdu <= 8999 ->
  exists pdu, nr_sdap_tx_entity w e ctxt false rb mui (zlen sdu) (Some sdu) qfi rqi =
      Ok (true, e, w <| pdcp ::= fun s => s ++ [(rntiMaybeUEid ctxt, drb_id q, pdu)] |>) /\
    forall (w2 : @world pdcp_log) e2 n3 ue pdus, N3GTPUInst w2 = Some n3 ->
      nr_sdap_rx_entity w2 e2 (drb_id q) (negb (enb_flag ctxt)) true pdus ue pdu (zlen pdu) =
        Ok (e2, w2 <| out ::= fun o => o ++ [if enb_flag ctxt then NasWrite sdu else GtpuDataReq ue pdus sdu] |>).
Proof.
  intros He Hq Hl Hd Ht Hs. set (pdu := data_header (enb_flag ctxt) qfi rqi :: sdu). exists pdu. split.
  - rewrite (tx_data w e ctxt rb mui qfi rqi q sdu (proj1 Hq) Hl Hd Ht Hs). fold pdu.
    unfold nr_pdcp_data_req_drb, recorder. rewrite slice_all. done.
  - intros w2 e2 n3 ue pdus Hn. pose proof (rx_data w2 e2 (drb_id q) (negb (enb_flag ctxt)) ue pdus qfi rqi sdu Hq) as R.
    cbv zeta in R. rewrite negb_involutive in R. fold pdu in R. rewrite R by (by rewrite Hn). by destruct (enb_flag ctxt).
Qed.

(** ** Reflective mapping *)

(** The end markers a reflective mapping of [qfi] to [drb] sends: to the bearer of the old
    rule when that is another one; without an old rule twice to the default bearer. *)
Definition markers (ue drb qfi old default : Z) : pdcp_log :=
  if old =? 0 then (if default =? 0 then [] else [end_marker ue default qfi; end_marker ue default qfi])
  else if drb =? old then [] else [end_marker ue old qfi].

Lemma send_default (w : @world pdcp_log) e ue qfi : default_drb e <> 0 ->
  send_ctrl_pdu w e ue SDAP_CTRL_PDU_MAP_DEF_DRB qfi =
    Ok (e, w <| pdcp ::= fun s => s ++ [end_marker ue (default_drb e) qfi] |>).
Proof.
  intros H. unfold send_ctrl_pdu, nr_sdap_map_ctrl_pdu. change (SDAP_CTRL_PDU_MAP_DEF_DRB =? SDAP_CTRL_PDU_MAP_DEF_DRB) with true.
  cbv iota. mon. by rewrite (submit_spec w ue (default_drb e) qfi H).
Qed.

Lemma send_rule (w : @world pdcp_log) e ue qfi q : entity_ok e -> 0 <= qfi < 64 ->
  qfi2drb_table e !! Z.to_nat qfi = Some q ->
  let d := if drb_id q =? 0 then default_drb e else drb_id q in
  exists q', send_ctrl_pdu w e ue SDAP_CTRL_PDU_MAP_RULE_DRB qfi =
    Ok (e <| qfi2drb_table := <[Z.to_nat qfi := q']> (qfi2drb_table e) |>,
        w <| pdcp ::= fun s => s ++ (if d =? 0 then [] else [end_marker ue d qfi]) |>).
Proof.
  intros He Hq Hl d. unfold send_ctrl_pdu, nr_sdap_map_ctrl_pdu.
  change (SDAP_CTRL_PDU_MAP_RULE_DRB =? SDAP_CTRL_PDU_MAP_DEF_DRB) with false.
  change (SDAP_CTRL_PDU_MAP_RULE_DRB =? SDAP_CTRL_PDU_MAP_RULE_DRB) with true. cbv iota.
  destruct (map_spec e qfi q He Hq Hl) as (e' & M & _ & _ & q' & ->). rewrite M. fold d. mon. exists q'.
  destruct (Z.eqb_spec d 0) as [E|E].
  - rewrite E. unfold nr_sdap_submit_ctrl_pdu. change (negb (0 =? 0)) with false. cbv iota. mon.
    destruct w. cbn. by rewrite app_nil_r.
  - rewrite (submit_spec w ue d qfi E). done.
Qed.

(** The three steps of a reflective mapping. *)
Lemma reflective_spec (w : @world pdcp_log) e drb ue qfi q : entity_ok e -> 0 <= qfi < 64 -> 1 <= drb <= AVLBL_DRB ->
  qfi2drb_table e !! Z.to_nat qfi = Some q ->
  exists q', reflective_mapping w e drb ue qfi =
    Ok (e <| qfi2drb_table := <[Z.to_nat qfi := q']> (qfi2drb_table e) |>,
        w <| pdcp ::= fun s => s ++ markers ue drb qfi (drb_id q) (default_drb e) |>) /\ drb_id q' = drb.
Proof.
  intros He Hq Hd Hl. unfold reflective_mapping, markers. rewrite (rd_Some _ _ _ (proj1 Hq) Hl), bind_Ok.
  assert (Li : (Z.to_nat qfi < length (qfi2drb_table e))%nat) by by apply lookup_lt_Some in Hl.
  set (w1 := if (drb_id q =? 0) && negb (default_drb e =? 0)
             then w <| pdcp ::= fun s => s ++ [end_marker ue (default_drb e) qfi] |> else w).
  assert (E1 : (if (drb_id q =? 0) && negb (default_drb e =? 0)
                then send_ctrl_pdu w e ue SDAP_CTRL_PDU_MAP_DEF_DRB qfi else mret (e, w)) = Ok (e, w1)).
  { unfold w1. destruct (Z.eqb_spec (default_drb e) 0) as [D|D]; [by rewrite andb_false_r|].
    rewrite (send_default w e ue qfi D). by case_if. }
  rewrite E1, bind_Ok. rewrite (rd_Some _ _ _ (proj1 Hq) Hl), bind_Ok.
  assert (E2 : exists q2, (if negb (drb =? drb_id q) then send_ctrl_pdu w1 e ue SDAP_CTRL_PDU_MAP_RULE_DRB qfi else mret (e, w1)) =
    Ok (e <| qfi2drb_table := <[Z.to_nat qfi := q2]> (qfi2drb_table e) |>,
        w <| pdcp ::= fun s => s ++ markers ue drb qfi (drb_id q) (default_drb e) |>)).
  { destruct (send_rule w1 e ue qfi q He Hq Hl) as (q2 & S). cbv zeta in S. unfold markers.
    destruct (Z.eqb_spec drb (drb_id q)) as [Ed|Ed]; cbn [negb].
    - exists q. rewrite list_insert_id by done. unfold w1. rewrite (proj2 (Z.eqb_neq (drb_id q) 0)) by lia.
      cbn [andb]. destruct w, e; cbn. by rewrite app_nil_r.
    - exists q2. rewrite S. unfold w1. destruct (drb_id q =? 0) eqn:E0; cbn [andb negb]; [|by rewrite E0].
      destruct (default_drb e =? 0); destruct w; cbn; rewrite <- ?app_assoc; reflexivity. }
  destruct E2 as (q2 & E2). rewrite E2, bind_Ok.
  rewrite (set_drb_spec _ qfi q2 drb) by (try lia; cbn; by apply list_lookup_insert_eq).
  exists (q2 <| drb_id := drb |>). split; [|done]. mon. destruct e; cbn. by rewrite list_insert_insert_eq.
Qed.

(** A downlink PDU with the RDI bit, received on bearer [drb], stores the rule [qfi] to [drb]
    and no other, hands the SDU up, and sends the end markers of [markers]: for a flow
    without a rule two to the default bearer instead of one. *)
Theorem sdap_reflective_mapping (w : @world pdcp_log) e drb pdus ue rqi qfi q sdu :
  entity_ok e -> 0 <= qfi < 64 -> 1 <= drb <= AVLBL_DRB -> qfi2drb_table e !! Z.to_nat qfi = Some q ->
  let b := Z.lor (dl_byte (mk_dl qfi (b2z rqi) 0)) 128 in
  exists e', nr_sdap_rx_entity w e drb false true pdus ue (b :: sdu) (zlen (b :: sdu)) =
      Ok (e', w <| pdcp ::= fun s => s ++ markers ue drb qfi (drb_id q) (default_drb e) |>
                <| out ::= fun o => o ++ [NasWrite sdu] |>) /\
    nr_sdap_qfi2drb_map e' qfi = Ok (drb, e') /\ entity_ok e' /\
    (forall i, i <> Z.to_nat qfi -> qfi2drb_table e' !! i = qfi2drb_table e !! i).
Proof.
  intros He Hq Hd Hl b. unfold nr_sdap_rx_entity, SDAP_HDR_LENGTH.
  assert (Sl : slice (b :: sdu) 1 (zlen (b :: sdu) - 1) = Ok sdu).
  { rewrite zlen_cons. replace (1 + zlen sdu - 1) with (zlen sdu) by lia. apply (slice_app_r [b] sdu). }
  destruct (rdi_header qfi rqi Hq) as [B1 B2]. fold b in B1, B2.
  change (rd (b :: sdu) 0) with (Ok b). rewrite bind_Ok, B1, B2.
  change (1 =? SDAP_REFLECTIVE_MAPPING) with true. cbv iota.
  destruct (reflective_spec w e drb ue qfi q He Hq Hd Hl) as (q' & R & Dq). rewrite R, bind_Ok, Sl. mon.
  assert (Li : (Z.to_nat qfi < length (qfi2drb_table e))%nat) by by apply lookup_lt_Some in Hl.
  eexists. split; [reflexivity|]. split; [|split].
  - unfold nr_sdap_qfi2drb_map. cbn [qfi2drb_table setter]. rewrite (rd_Some _ _ q') by (try lia; by apply list_lookup_insert_eq).
    mon. rewrite Dq, (proj2 (Z.eqb_neq drb 0)) by lia. done.
  - apply insert_ok; [done|]. rewrite Dq. lia.
  - intros i Hi. cbn. by apply list_lookup_insert_ne.
Qed.

(** ** Faults *)

(** Deleting an entity when there is none dereferences NULL: the guard joins the test for
    the empty list and the test of the PDU session with [&&]. *)
Theorem sdap_delete_without_entities_faults (w : @world pdcp_log) ue pdu : sdap_entity_llist w = [] ->
  0 <= pdu <= NGAP_MAX_PDU_SESSION -> nr_sdap_delete_entity w ue pdu = Err Null.
Proof.
  intros H Hp. unfold nr_sdap_delete_entity. rewrite H, Z.gtb_ltb, (proj2 (Z.ltb_ge 0 _)); [done|].
  unfold NGAP_MAX_PDU_SESSION in *. nia.
Qed.

(** ** Evaluations *)

(** Default bearer 1, flow 5 on bearer 2 with SDAP headers, nothing else. *)
Definition demo_entity : nr_sdap_entity_t :=
  mk_sdap 7 1 1 (<[5%nat := mk_q 2 true true]> (replicate 64 (mk_q 0 false false))).

Definition demo_world : @world pdcp_log := mk_world [demo_entity] (Some 0) [] [].

Lemma demo_ok : entity_ok demo_entity.
Proof.
  constructor; [done|done|]. apply Forall_insert; [by apply Forall_replicate|done].
Qed.

Lemma demo_unique : unique (sdap_entity_llist demo_world).
Proof. unfold unique. cbn. apply NoDup_singleton. Qed.


Lemma sdap_data_roundtrip_witness : exists pdu,
  nr_sdap_tx_entity demo_world demo_entity (mk_ctxt 0 true 0 7 0 false) false 1 0 3 (Some [1; 2; 3]) 5 false =
    Ok (true, demo_entity, demo_world <| pdcp := [(7, 2, pdu)] |>).
Proof.
  destruct (sdap_data_roundtrip demo_world demo_entity (mk_ctxt 0 true 0 7 0 false) 1 0 5 false (mk_q 2 true true) [1; 2; 3]
    demo_ok ltac:(done) ltac:(done) ltac:(done) ltac:(done) ltac:(done)) as (pdu & E & _).
  exists pdu. exact E.
Defined.

(** Flow 9 has no rule: two end markers on the default bearer. *)
Lemma sdap_reflective_mapping_witness : exists e',
  nr_sdap_rx_entity demo_world demo_entity 2 false true 1 7 [137; 1; 2] 3 =
    Ok (e', mk_world [demo_entity] (Some 0) [end_marker 7 1 9; end_marker 7 1 9] [NasWrite [1; 2]]) /\
  nr_sdap_qfi2drb_map e' 9 = Ok (2, e').
Proof.
  destruct (sdap_reflective_mapping demo_world demo_entity 2 1 7 false 9 (mk_q 0 false false) [1; 2]
    demo_ok ltac:(done) ltac:(done) ltac:(done)) as (e' & E & M & _).
  exists e'. split; [exact E|exact M].
Defined.

Lemma sdap_delete_without_entities_faults_witness :
  nr_sdap_delete_entity (mk_world [] None [] [] : @world pdcp_log) 7 1 = Err Null.
Proof. apply sdap_delete_without_entities_faults; [reflexivity|done]. Defined.
