(* ===== verification/WorkQueue.v ===== *)
(** * The request queues between PDCP and RLC

    [nr_pdcp_oai_api.c] decouples the PDCP and RLC locks with two rings, each filled by any
    number of threads ([enqueue_rlc_data_req], [enqueue_pdcp_data_ind]) and emptied by one
    ([rlc_data_req_thread], [pdcp_data_ind_thread]).  The consumer reads the item it works on
    outside the lock.  The two have the same code; the model is generic in the item. *)

From S2P Require Import Prelude Sdap.

Definition RLC_DATA_REQ_QUEUE_SIZE : Z := 10000.
Definition PDCP_DATA_IND_QUEUE_SIZE : Z := 10000.

Record rlc_data_req_queue_item := mk_rlc_item {
  rq_ctxt : protocol_ctxt_t; rq_srb_flag : bool; rq_MBMS_flag : bool; rq_rb_id : Z; rq_mui : Z; rq_confirm : Z;
  rq_sdu_size : Z; rq_sdu : bytes }.

Record pdcp_data_ind_queue_item := mk_pdcp_item {
  pi_ctxt : protocol_ctxt_t; pi_srb_flag : bool; pi_MBMS_flag : bool; pi_rb_id : Z; pi_size : Z; pi_buffer : bytes }.

Section Ring.
Context {A : Type}.
Variable N : Z.

(** [None] is a slot that was never written. *)
Record ring := mk_ring { slots : list (option A); start : Z; len : Z }.

#[export] Instance eta_ring : Eta ring := fun r => mk_ring (slots r) (start r) (len r).

Definition new_ring : ring := mk_ring (replicate (Z.to_nat N) None) 0 0.

(** The critical section of the producer; [None] while it has to wait. *)
Definition enqueue (r : ring) (x : A) : res (option ring) :=
  if len r =? N then mret None
  else
    let i := (start r + len r) `mod` N in
    s ← wr (slots r) i (Some x);
    mret (Some (mk_ring s (start r) (len r + 1))).

(** The consumer: its first critical section picks the index, [None] while it has to wait... *)
Definition pick (r : ring) : option Z := if len r =? 0 then None else Some (start r).

(** ... then the item is read at that index, without the lock... *)
Definition item (r : ring) (i : Z) : res (option A) := rd (slots r) i.

(** ... and the second critical section releases the slot. *)
Definition release (r : ring) : ring :=
  r <| len ::= fun n => n - 1 |> <| start ::= fun s => (s + 1) `mod` N |>.

(** ** The threads *)

Inductive phase := Waiting | Picked (i : Z) | Called.

(** [sent] are the items enqueued, [calls] the items the consumer has passed on. *)
Record sys := mk_sys { sy_ring : ring; sy_phase : phase; sent : list A; calls : list (option A) }.

Inductive sys_step : sys -> sys -> Prop :=
| sys_enqueue r p s c x r' : enqueue r x = Ok (Some r') -> sys_step (mk_sys r p s c) (mk_sys r' p (s ++ [x]) c)
| sys_pick r s c i : pick r = Some i -> sys_step (mk_sys r Waiting s c) (mk_sys r (Picked i) s c)
| sys_call r s c i x : item r i = Ok x -> sys_step (mk_sys r (Picked i) s c) (mk_sys r Called s (c ++ [x]))
| sys_release r s c : sys_step (mk_sys r Called s c) (mk_sys (release r) Waiting s c).

(** ** Invariant *)

Record sys_inv (y : sys) : Prop := {
  si_size : zlen (slots (sy_ring y)) = N;
  si_start : 0 <= start (sy_ring y) < N;
  si_items : exists finished pending, sent y = finished ++ pending /\ zlen pending = len (sy_ring y) /\ zlen pending <= N /\
    (forall j x, pending !! j = Some x -> slots (sy_ring y) !! Z.to_nat ((start (sy_ring y) + Z.of_nat j) `mod` N) = Some (Some x)) /\
    match sy_phase y with
    | Waiting => calls y = Some <$> finished
    | Picked i => calls y = Some <$> finished /\ i = start (sy_ring y) /\ pending <> []
    | Called => exists x rest, pending = x :: rest /\ calls y = Some <$> (finished ++ [x])
    end }.

Hypothesis N_pos : 0 < N.

Lemma mod_wrap a : 0 <= a < 2 * N -> a `mod` N = if a <? N then a else a - N.
Proof.
  intros Ha. destruct (Z.ltb_spec a N); [apply Z.mod_small; lia|].
  replace a with (a - N + 1 * N) at 1 by lia. rewrite Z.mod_add by lia. apply Z.mod_small. lia.
Qed.

Lemma index_inj s i j : 0 <= s < N -> 0 <= i < N -> 0 <= j < N -> (s + i) `mod` N = (s + j) `mod` N -> i = j.
Proof.
  intros Hs Hi Hj. rewrite !mod_wrap by lia. destruct (Z.ltb_spec (s + i) N), (Z.ltb_spec (s + j) N); lia.
Qed.

Lemma index_range s i : 0 <= (s + i) `mod` N < N.
Proof. by apply Z.mod_pos_bound. Qed.

Lemma enqueue_inv r p s c x r' : sys_inv (mk_sys r p s c) -> enqueue r x = Ok (Some r') -> sys_inv (mk_sys r' p (s ++ [x]) c).
Proof.
  intros [Hz Hs (fin & pend & E & L & Lm & Sl & Ph)] H. cbn [sy_ring sy_phase sent calls] in *.
  unfold enqueue in H. case_if; [by inv_res|]. bool_prop. pose proof (index_range (start r) (len r)) as Hi.
  rewrite wr_ok, bind_Ok in H by lia. injection H as <-. pose proof (zlen_nonneg pend).
  constructor; cbn [sy_ring sy_phase sent calls slots start len].
  - unfold zlen in *. by rewrite length_insert.
  - done.
  - exists fin, (pend ++ [x]). rewrite E, <- app_assoc. split; [done|]. rewrite zlen_app, zlen_cons, zlen_nil.
    split; [lia|]. split; [lia|]. split.
    + intros j y Hj. apply lookup_app_Some in Hj as [Hj|[Hj1 Hj2]].
      * pose proof (lookup_lt_Some _ _ _ Hj). rewrite list_lookup_insert_ne; [by apply Sl|].
        intros Eq. apply (f_equal Z.of_nat) in Eq. pose proof (index_range (start r) (Z.of_nat j)).
        rewrite !Z2Nat.id in Eq by lia. apply index_inj in Eq; unfold zlen in *; lia.
      * pose proof (lookup_lt_Some _ _ _ Hj2) as Hlt. cbn [length] in Hlt.
        assert (j = length pend) as -> by lia. rewrite Nat.sub_diag in Hj2. injection Hj2 as ->.
        change (Z.of_nat (length pend)) with (zlen pend). rewrite L. apply list_lookup_insert_eq. unfold zlen in *. lia.
    + destruct p; [done| |].
      * destruct Ph as (P1 & P2 & P3). split_and!; [done|done|]. by destruct pend.
      * destruct Ph as (y & rest & -> & Ec). by exists y, (rest ++ [x]).
Qed.

Lemma consumer_inv y y' : sys_inv y -> sys_step y y' -> sys_inv y'.
Proof.
  intros Hi H. destruct H as [r p s c x r' H|r s c i H|r s c i x H|r s c].
  - by eapply enqueue_inv.
  - destruct Hi as [Hz Hs (fin & pend & E & L & Lm & Sl & Ph)]. cbn [sy_ring sy_phase sent calls] in *.
    unfold pick in H. case_if; [done|]. injection H as <-. bool_prop. constructor; try done.
    exists fin, pend. cbn [sy_ring sy_phase sent calls]. split_and!; try done. intros ->. rewrite zlen_nil in L. lia.
  - destruct Hi as [Hz Hs (fin & pend & E & L & Lm & Sl & P1 & P2 & P3)]. cbn [sy_ring sy_phase sent calls] in *.
    constructor; try done. exists fin, pend. cbn [sy_ring sy_phase sent calls]. split_and!; try done.
    destruct pend as [|y rest]; [done|]. exists y, rest. split; [done|]. rewrite fmap_app, <- P1. f_equal.
    specialize (Sl 0%nat y eq_refl). rewrite Z.add_0_r, Z.mod_small in Sl by done. subst i.
    unfold item in H. rewrite (rd_Some _ _ _ (proj1 Hs) Sl) in H. injection H as <-. done.
  - destruct Hi as [Hz Hs (fin & pend & E & L & Lm & Sl & x & rest & -> & Ec)]. cbn [sy_ring sy_phase sent calls] in *.
    unfold release. destruct r as [sl st ln]. cbn [slots start len setter] in *. rewrite zlen_cons in *.
    constructor; cbn [sy_ring sy_phase sent calls slots start len]; [done|apply index_range|].
    exists (fin ++ [x]), rest. rewrite <- app_assoc. split_and!; try done; try lia.
    intros j z Hj. specialize (Sl (Datatypes.S j) z Hj). rewrite <- Sl. do 2 f_equal.
    rewrite Zplus_mod_idemp_l. f_equal. lia.
Qed.

Lemma new_ring_inv : sys_inv (mk_sys new_ring Waiting [] []).
Proof.
  constructor; cbn; [unfold zlen; rewrite length_replicate; lia|lia|]. exists [], []. split_and!; try done. rewrite zlen_nil. lia.
Qed.

Lemma ring_run_inv y : rtc sys_step (mk_sys new_ring Waiting [] []) y -> sys_inv y.
Proof.
  intros H. assert (G : forall a b, rtc sys_step a b -> sys_inv a -> sys_inv b).
  { induction 1; eauto using consumer_inv. }
  by apply (G _ _ H), new_ring_inv.
Qed.
End Ring.

Arguments ring A : clear implicits.
Arguments sys A : clear implicits.

(** [enqueue_rlc_data_req] and [enqueue_pdcp_data_ind]. *)
Definition enqueue_rlc_data_req (q : ring rlc_data_req_queue_item) (ctxt : protocol_ctxt_t) (srb mbms : bool)
    (rb mui confirm size : Z) (sdu : bytes) : res (option (ring rlc_data_req_queue_item)) :=
  enqueue RLC_DATA_REQ_QUEUE_SIZE q (mk_rlc_item ctxt srb mbms rb mui confirm size sdu).

Definition enqueue_pdcp_data_ind (q : ring pdcp_data_ind_queue_item) (ctxt : protocol_ctxt_t) (srb mbms : bool)
    (rb size : Z) (buffer : bytes) : res (option (ring pdcp_data_ind_queue_item)) :=
  enqueue PDCP_DATA_IND_QUEUE_SIZE q (mk_pdcp_item ctxt srb mbms rb size buffer).

(** [C33] For any interleaving of producers and consumer, with the item read outside the lock: the
    consumer's calls are the enqueued items, in order, each once, no slot is overwritten
    while it is being worked on, and a producer that does not wait always succeeds. *)
Theorem work_queue_fifo {A} (N : Z) (y : sys A) : 0 < N ->
  rtc (sys_step N) (mk_sys (new_ring N) Waiting [] []) y ->
  (exists waiting, Some <$> sent y = calls y ++ waiting) /\
  (forall i, sy_phase y = Picked i -> exists x, item (sy_ring y) i = Ok (Some x) /\ sent y !! length (calls y) = Some x) /\
  (forall x, len (sy_ring y) <> N -> exists r', enqueue N (sy_ring y) x = Ok (Some r')).
Proof.
  intros HN Hr. destruct (ring_run_inv N HN y Hr) as [Hz Hs (fin & pend & E & L & Lm & Sl & Ph)]. split; [|split].
  - rewrite E, fmap_app. destruct (sy_phase y).
    + rewrite Ph. by eexists.
    + destruct Ph as (-> & _). by eexists.
    + destruct Ph as (x & rest & -> & ->). exists (Some <$> rest). by rewrite fmap_app, <- app_assoc.
  - intros i Hp. rewrite Hp in Ph. destruct Ph as (Ec & -> & Hne). destruct pend as [|x rest]; [done|]. exists x.
    specialize (Sl 0%nat x eq_refl). rewrite Z.add_0_r, Z.mod_small in Sl by done.
    unfold item. rewrite (rd_Some _ _ _ (proj1 Hs) Sl). split; [done|].
    rewrite Ec, length_fmap, E. by rewrite list_lookup_middle.
  - intros x Hl. unfold enqueue. rewrite (proj2 (Z.eqb_neq _ _) Hl). pose proof (index_range N HN (start (sy_ring y)) (len (sy_ring y))).
    rewrite wr_ok, bind_Ok by lia. eauto.
Qed.

(** A ring of two slots: two items are enqueued, one is passed on. *)
Lemma work_queue_fifo_witness : exists y : sys Z, sent y = [7; 8] /\ calls y = [Some 7] /\
  exists waiting, Some <$> sent y = calls y ++ waiting.
Proof.
  assert (R : rtc (sys_step 2) (mk_sys (new_ring 2) Waiting [] [])
    (mk_sys (mk_ring [Some 7; Some 8] 0 2) Called [7; 8] [Some 7])).
  { eapply rtc_l; [by apply (sys_enqueue 2 _ _ _ _ 7)|]. eapply rtc_l; [by apply (sys_pick 2)|].
    eapply rtc_l; [by apply (sys_enqueue 2 _ _ _ _ 8)|]. eapply rtc_l; [by apply (sys_call 2)|]. apply rtc_refl. }
  eexists. destruct (work_queue_fifo 2 _ ltac:(done) R) as (W & _). split; [|split; [|exact W]]; reflexivity.
Defined.
