(* ===== verification/F1Ids.v ===== *)
(** * F1 UE identifiers

    [f1ap_ids.c]: for each UE of the CU (and, in the same way, of the DU) the identifier the
    other side uses.  The hash table is a finite map; [None] before it is created. *)

From S2P Require Import Prelude.

Module F1.

Record f1_ue_data_t := mk_f1 { secondary_ue : Z; e1_assoc_id : Z; du_assoc_id : Z }.

(** [hash_table_t *] *)
Abbreviation table := (option (gmap Z f1_ue_data_t)).

(** [uint64_t key = ue_id] of a [uint32_t] argument. *)
Definition f1_key (ue_id : Z) : Z := u32 ue_id.

Definition assert_table (t : table) : res (gmap Z f1_ue_data_t) :=
  match t with Some m => mret m | None => Err Exit end.

Definition cu_init_f1_ue_data (t : table) : res table :=
  match t with None => mret (Some ∅) | Some _ => Err Exit end.

Definition cu_add_f1_ue_data (t : table) (ue_id : Z) (data : f1_ue_data_t) : res (bool * table) :=
  m ← assert_table t;
  match m !! f1_key ue_id with
  | Some _ => mret (false, t)
  | None => mret (true, Some (<[f1_key ue_id := data]> m))
  end.

Definition cu_exists_f1_ue_data (t : table) (ue_id : Z) : res bool :=
  m ← assert_table t;
  mret (bool_decide (is_Some (m !! f1_key ue_id))).

Definition cu_get_f1_ue_data (t : table) (ue_id : Z) : res f1_ue_data_t :=
  m ← assert_table t;
  match m !! f1_key ue_id with Some d => mret d | None => Err Exit end.

Definition cu_remove_f1_ue_data (t : table) (ue_id : Z) : res (bool * table) :=
  m ← assert_table t;
  match m !! f1_key ue_id with
  | Some _ => mret (true, Some (delete (f1_key ue_id) m))
  | None => mret (false, t)
  end.

(** The DU keeps a table of its own with the same operations. *)
Definition du_init_f1_ue_data : table -> res table := cu_init_f1_ue_data.
Definition du_add_f1_ue_data : table -> Z -> f1_ue_data_t -> res (bool * table) := cu_add_f1_ue_data.
Definition du_exists_f1_ue_data : table -> Z -> res bool := cu_exists_f1_ue_data.
Definition du_get_f1_ue_data : table -> Z -> res f1_ue_data_t := cu_get_f1_ue_data.
Definition du_remove_f1_ue_data : table -> Z -> res (bool * table) := cu_remove_f1_ue_data.

End F1.
