(* ===== verification/RlcApi.v ===== *)
(** * RLC: UE manager and interface to MAC, PDCP and RRC

    [nr_rlc_ue_manager.c], [nr_rlc_oai_api.c] and the RLC [asn1_utils.c].  An entry point holds
    the manager's lock from the lookup to its last change, so each is one step.  The callbacks
    an entity makes ([deliver_sdu] and the others) only queue messages; they are run in order
    after the entity's own change.  Values of the monotonic clock are arguments. *)

From S2P Require Import Prelude RlcPdu RlcSdu TimeStat RlcEntity RlcTm RlcUm RlcAm RlcAmEntity RlcBearer Sdap WorkQueue F1Ids.

Definition RLC_RX_MAXSIZE : Z := 10000000.
Definition RLC_TX_MAXSIZE : Z := 10000000.

(** ** asn1_utils.c *)

Definition decode_t_reassembly (v : Z) : res Z :=
  decode_table [0; 5; 10; 15; 20; 25; 30; 35; 40; 45; 50; 55; 60; 65; 70; 75; 80; 85; 90; 95; 100; 110; 120; 130; 140;
                150; 160; 170; 180; 190; 200] v.

Definition decode_t_status_prohibit (v : Z) : res Z :=
  decode_table [0; 5; 10; 15; 20; 25; 30; 35; 40; 45; 50; 55; 60; 65; 70; 75; 80; 85; 90; 95; 100; 105; 110; 115; 120;
                125; 130; 135; 140; 145; 150; 155; 160; 165; 170; 175; 180; 185; 190; 195; 200; 205; 210; 215; 220; 225;
                230; 235; 240; 245; 250; 300; 350; 400; 450; 500; 800; 1000; 1200; 1600; 2000; 2400] v.

Definition decode_t_poll_retransmit (v : Z) : res Z :=
  decode_table [5; 10; 15; 20; 25; 30; 35; 40; 45; 50; 55; 60; 65; 70; 75; 80; 85; 90; 95; 100; 105; 110; 115; 120; 125;
                130; 135; 140; 145; 150; 155; 160; 165; 170; 175; 180; 185; 190; 195; 200; 205; 210; 215; 220; 225; 230;
                235; 240; 245; 250; 300; 350; 400; 450; 500; 800; 1000; 2000; 4000] v.

Definition decode_poll_pdu (v : Z) : res Z :=
  decode_table [4; 8; 16; 32; 64; 128; 256; 512; 1024; 2048; 4096; 6144; 8192; 12288; 16384; 20480; 24576; 28672; 32768;
                40960; 49152; 57344; 65536; -1] v.

Definition decode_poll_byte (v : Z) : res Z :=
  decode_table ((Z.mul 1024 <$> [1; 2; 5; 8; 10; 15; 25; 50; 75; 100; 125; 250; 375; 500; 750; 1000; 1250; 1500; 2000;
                                 3000; 4000; 4500; 5000; 5500; 6000; 6500; 7000; 7500]) ++
                (Z.mul (1024 * 1024) <$> [8; 9; 10; 11; 12; 13; 14; 15; 16; 17; 18; 20; 25; 30; 40]) ++ [-1]) v.

Definition decode_max_retx_threshold (v : Z) : res Z := decode_table [1; 2; 3; 4; 6; 8; 16; 32] v.

Definition decode_sn_field_length_um (v : Z) : res Z := decode_table [6; 12] v.

Definition decode_sn_field_length_am (v : Z) : res Z := decode_table [12; 18] v.

Module RlcApi.

(** ** UEs and the manager *)

Inductive nr_rlc_rb_type := NR_RLC_NONE | NR_RLC_SRB | NR_RLC_DRB.

(** [choice] is the union of [srb_id] and [drb_id]. *)
Record nr_rlc_rb_t := mk_rb { rb_type : nr_rlc_rb_type; choice : Z }.

(** Function pointers and opaque data are numbers. *)
Record srb0_data := mk_srb0 { s0_ue_id : Z; s0_data : Z; s0_send : Z }.

(** SRB0 comes with its [deliver_sdu_data]. *)
Record nr_rlc_ue_t := mk_ue {
  ue_id : Z;
  srb0 : option (srb0_data * rlc_entity);
  srb : list (option rlc_entity);              (** 3 *)
  drb : list (option rlc_entity);              (** [MAX_DRBS_PER_UE] *)
  lcid2rb : list nr_rlc_rb_t;                  (** 32 *)
  rlf_handler : option Z }.

#[export] Instance eta_ue : Eta nr_rlc_ue_t := fun u =>
  mk_ue (ue_id u) (srb0 u) (srb u) (drb u) (lcid2rb u) (rlf_handler u).

(** What leaves RLC upwards. *)
Inductive rlc_out :=
| PdcpDataInd (i : pdcp_data_ind_queue_item)
| F1apUlRrcMessage (cu_ue du_ue srb_id : Z) (sdu : bytes)
| GtpuTunnelDataReq (ue bearer : Z) (sdu : bytes)
| InitialUlRrc (f ue : Z) (sdu : bytes) (data : Z)
| RlfHandler (f ue : Z).

Record rlc_state := mk_state {
  ue_list : list nr_rlc_ue_t;
  mgr_enb_flag : bool;
  node_is_cu : bool;
  node_is_du : bool;
  f1_du : F1.table;
  current_time : Z;                            (** [uint64_t] *)
  last_frame : Z;
  last_subframe : Z;
  r_out : list rlc_out }.

#[export] Instance eta_state : Eta rlc_state := fun m =>
  mk_state (ue_list m) (mgr_enb_flag m) (node_is_cu m) (node_is_du m) (f1_du m) (current_time m) (last_frame m)
    (last_subframe m) (r_out m).

Definition new_nr_rlc_ue_manager (enb cu du : bool) (f1 : F1.table) : rlc_state := mk_state [] enb cu du f1 0 0 0 [].

Definition nr_rlc_manager_get_enb_flag (m : rlc_state) : bool := mgr_enb_flag m.

Fixpoint find_ue (l : list nr_rlc_ue_t) (id : Z) : option nr_rlc_ue_t :=
  match l with
  | [] => None
  | u :: l => if ue_id u =? id then Some u else find_ue l id
  end.

(** Zeroed by [calloc]. *)
Definition new_ue (id : Z) : nr_rlc_ue_t :=
  mk_ue id None (replicate 3 None) (replicate (Z.to_nat Sdap.MAX_DRBS_PER_UE) None)
    (replicate 32 (mk_rb NR_RLC_NONE 0)) None.

(** An unknown UE is added: the result is never NULL. *)
Definition nr_rlc_manager_get_ue (m : rlc_state) (id : Z) : nr_rlc_ue_t * rlc_state :=
  match find_ue (ue_list m) id with
  | Some u => (u, m)
  | None => (new_ue id, m <| ue_list ::= fun l => l ++ [new_ue id] |>)
  end.

(** Writing through the pointer [nr_rlc_manager_get_ue] returned for [id]. *)
Fixpoint put_ue (l : list nr_rlc_ue_t) (id : Z) (u : nr_rlc_ue_t) : list nr_rlc_ue_t :=
  match l with
  | [] => []
  | v :: l => if ue_id v =? id then u :: l else v :: put_ue l id u
  end.

Fixpoint remove_ue (l : list nr_rlc_ue_t) (id : Z) : list nr_rlc_ue_t :=
  match l with
  | [] => []
  | u :: l => if ue_id u =? id then l else u :: remove_ue l id
  end.

Fixpoint delete_entities (l : list (option rlc_entity)) : res unit :=
  match l with
  | [] => mret tt
  | None :: l => delete_entities l
  | Some e :: l => _ ← op_delete e; delete_entities l
  end.

Definition nr_rlc_manager_remove_ue (m : rlc_state) (id : Z) : res rlc_state :=
  match find_ue (ue_list m) id with
  | None => mret m
  | Some u =>
      _ ← delete_entities [snd <$> srb0 u];
      _ ← delete_entities (srb u);
      _ ← delete_entities (drb u);
      mret (m <| ue_list ::= fun l => remove_ue l id |>)
  end.

Definition nr_rlc_ue_add_srb0 (u : nr_rlc_ue_t) (d : srb0_data) (e : rlc_entity) : res nr_rlc_ue_t :=
  match srb0 u with Some _ => Err Exit | None => mret (u <| srb0 := Some (d, e) |>) end.

(** The case [srb_id = 0] is [nr_rlc_ue_add_srb0]. *)
Definition nr_rlc_ue_add_srb_rlc_entity (u : nr_rlc_ue_t) (srb_id : Z) (e : rlc_entity) : res nr_rlc_ue_t :=
  if (srb_id <? 0) || (srb_id >? 3) then Err Exit
  else
    o ← rd (srb u) (srb_id - 1);
    match o with
    | Some _ => Err Exit
    | None => l ← wr (srb u) (srb_id - 1) (Some e); mret (u <| srb := l |>)
    end.

Definition nr_rlc_ue_add_drb_rlc_entity (u : nr_rlc_ue_t) (drb_id : Z) (e : rlc_entity) : res nr_rlc_ue_t :=
  if (drb_id <? 1) || (drb_id >? Sdap.MAX_DRBS_PER_UE) then Err Exit
  else
    o ← rd (drb u) (drb_id - 1);
    match o with
    | Some _ => Err Exit
    | None => l ← wr (drb u) (drb_id - 1) (Some e); mret (u <| drb := l |>)
    end.

(** ** Entities of a UE

    Where a pointer to an entity comes from.  The callbacks compare the entity with the
    pointers of the UE; an entity is in one place, so the comparison finds its location. *)

Inductive rb_loc := LocSrb0 | LocSrb (i : Z) | LocDrb (i : Z).

Definition entity_at (u : nr_rlc_ue_t) (loc : rb_loc) : res (option rlc_entity) :=
  match loc with
  | LocSrb0 => mret (snd <$> srb0 u)
  | LocSrb i => rd (srb u) i
  | LocDrb i => rd (drb u) i
  end.

Definition put_entity (u : nr_rlc_ue_t) (loc : rb_loc) (e : option rlc_entity) : res nr_rlc_ue_t :=
  match loc with
  | LocSrb0 => mret (u <| srb0 ::= fun o => '(d, _) ← o; e ← e; Some (d, e) |>)
  | LocSrb i => l ← wr (srb u) i e; mret (u <| srb := l |>)
  | LocDrb i => l ← wr (drb u) i e; mret (u <| drb := l |>)
  end.

Definition located (u : nr_rlc_ue_t) (loc : rb_loc) : res (option (rb_loc * rlc_entity)) :=
  o ← entity_at u loc;
  mret (match o with Some e => Some (loc, e) | None => None end).

(** The location of a logical channel; [None] when nothing is mapped to it. *)
Definition loc_of_lcid (u : nr_rlc_ue_t) (channel_id : Z) : res (option rb_loc) :=
  if channel_id =? 0 then mret (Some LocSrb0)
  else
    rb ← rd (lcid2rb u) (channel_id - 1);
    match rb_type rb with
    | NR_RLC_NONE => mret None
    | NR_RLC_SRB => if choice rb >? 0 then mret (Some (LocSrb (choice rb - 1))) else Err Exit
    | NR_RLC_DRB => mret (Some (LocDrb (choice rb - 1)))
    end.

Definition get_rlc_entity_from_lcid (u : nr_rlc_ue_t) (channel_id : Z) : res (option (rb_loc * rlc_entity)) :=
  o ← loc_of_lcid u channel_id;
  match o with
  | None => mret None
  | Some loc => located u loc
  end.

(** ** Callbacks *)

Definition emit (o : rlc_out) (m : rlc_state) : rlc_state := m <| r_out ::= fun l => l ++ [o] |>.

(** An RB found at [is_srb], [rb_id]. *)
Definition deliver_sdu (m : rlc_state) (u : nr_rlc_ue_t) (is_srb : bool) (rb_id : Z) (sdu : bytes) : res rlc_state :=
  let is_enb := nr_rlc_manager_get_enb_flag m in
  id ← (if is_enb then d ← F1.du_get_f1_ue_data (f1_du m) (ue_id u); mret (F1.secondary_ue d) else mret (u64 (ue_id u)));
  let ctx := mk_ctxt 0 is_enb 0 id 0 false in
  if is_enb && node_is_cu m then Err Exit
  else if is_enb && node_is_du m then
    mret (emit (if is_srb then F1apUlRrcMessage id (ue_id u) rb_id sdu else GtpuTunnelDataReq (ue_id u) rb_id sdu) m)
  else mret (emit (PdcpDataInd (mk_pdcp_item ctx is_srb false rb_id (zlen sdu) sdu)) m).

Definition deliver_sdu_srb0 (m : rlc_state) (d : srb0_data) (sdu : bytes) : rlc_state :=
  emit (InitialUlRrc (s0_send d) (s0_ue_id d) sdu (s0_data d)) m.

(** The search of [successful_delivery] and [max_retx_reached] looks at two SRBs only. *)
Definition rb_found (loc : rb_loc) : bool :=
  match loc with LocSrb0 => false | LocSrb i => i <? 2 | LocDrb _ => true end.

Definition successful_delivery (m : rlc_state) (loc : rb_loc) (sdu_id : Z) : res rlc_state :=
  if rb_found loc then mret m else Err Exit.

Definition max_retx_reached (m : rlc_state) (u : nr_rlc_ue_t) (loc : rb_loc) : res rlc_state :=
  if rb_found loc then
    mret (match rlf_handler u with Some f => emit (RlfHandler f (ue_id u)) m | None => m end)
  else Err Exit.

(** One callback of the entity at [loc]; a TM entity only has [deliver_sdu]. *)
Definition run_call (m : rlc_state) (u : nr_rlc_ue_t) (loc : rb_loc) (c : rlc_call) : res rlc_state :=
  match c, loc with
  | DeliverSdu sdu, LocSrb0 => s ← deref (srb0 u); mret (deliver_sdu_srb0 m (fst s) sdu)
  | DeliverSdu sdu, LocSrb i => deliver_sdu m u true (i + 1) sdu
  | DeliverSdu sdu, LocDrb i => deliver_sdu m u false (i + 1) sdu
  | SduSuccessfulDelivery id, _ => successful_delivery m loc id
  | MaxRetxReached, _ => max_retx_reached m u loc
  end.

Fixpoint run_calls (m : rlc_state) (u : nr_rlc_ue_t) (loc : rb_loc) (l : list rlc_call) : res rlc_state :=
  match l with
  | [] => mret m
  | c :: l => m ← run_call m u loc c; run_calls m u loc l
  end.

(** The entity [old] at [loc] of the UE became [new]: it is stored, then its new calls run. *)
Definition commit (m : rlc_state) (u : nr_rlc_ue_t) (loc : rb_loc) (old new : rlc_entity) : res rlc_state :=
  u ← put_entity u loc (Some new);
  run_calls (m <| ue_list ::= fun l => put_ue l (ue_id u) u |>) u loc
    (drop (length (RlcEntity.calls (op_common old))) (RlcEntity.calls (op_common new))).

(** ** Entry points for MAC *)

Definition set_time_then {A} (m : rlc_state) (e : rlc_entity) (f : rlc_entity -> res A) : res A :=
  e ← op_set_time e (current_time m); f e.

Definition mac_rlc_data_ind (m : rlc_state) (id eNB_index : Z) (MBMS_flag : bool) (channel_id : Z) (buffer : bytes)
    (tb_size : Z) : res rlc_state :=
  if negb (eNB_index =? 0) || MBMS_flag then Err Exit
  else
    let '(u, m) := nr_rlc_manager_get_ue m (u16 id) in
    o ← get_rlc_entity_from_lcid u channel_id;
    match o with
    | None => mret m
    | Some (loc, e) =>
        e' ← set_time_then m e (fun e => op_recv_pdu e buffer tb_size);
        commit m u loc e e'
    end.

(** [time_now] is the clock [generate_pdu] reads; the result is the number of bytes, the
    caller's buffer and the state. *)
Definition mac_rlc_data_req (m : rlc_state) (id channel_id tb_size : Z) (buffer : bytes) (time_now : Z)
  : res (Z * bytes * rlc_state) :=
  let '(u, m) := nr_rlc_manager_get_ue m (u16 id) in
  o ← get_rlc_entity_from_lcid u channel_id;
  match o with
  | None => mret (0, buffer, m)
  | Some (loc, e) =>
      '(ret, buffer, e') ← set_time_then m e (fun e => op_generate_pdu e buffer tb_size time_now);
      m ← commit m u loc e e';
      mret (ret, buffer, m)
  end.

Definition total (b : nr_rlc_entity_buffer_status_t) : Z := RlcEntity.status_size b + retx_size b + tx_size_ b.

(** [bytes_in_buffer]; the other fields of the response are 0. *)
Definition mac_rlc_status_ind (m : rlc_state) (id channel_id : Z) : res (Z * rlc_state) :=
  let '(u, m) := nr_rlc_manager_get_ue m (u16 id) in
  o ← get_rlc_entity_from_lcid u channel_id;
  match o with
  | None => mret (0, m)
  | Some (loc, e) =>
      e' ← op_set_time e (current_time m);
      b ← op_buffer_status e' (1000 * 1000);
      m ← commit m u loc e e';
      mret (total b, m)
  end.

Definition nr_rlc_tick (m : rlc_state) (frame subframe : Z) : rlc_state :=
  if negb (frame =? last_frame m) || negb (subframe =? last_subframe m)
  then m <| last_frame := frame |> <| last_subframe := subframe |> <| current_time ::= fun t => u64 (t + 1) |>
  else m.

Definition mac_rlc_get_buffer_occupancy_ind (m : rlc_state) (id frame subframe : Z) (enb_flag : bool) (channel_id : Z)
  : res (Z * rlc_state) :=
  if enb_flag then Err Exit
  else mac_rlc_status_ind (nr_rlc_tick m frame subframe) id channel_id.

Definition nr_rlc_get_available_tx_space (m : rlc_state) (id channel_id : Z) : res (Z * rlc_state) :=
  let '(u, m) := nr_rlc_manager_get_ue m id in
  o ← get_rlc_entity_from_lcid u channel_id;
  mret (match o with None => -1 | Some (_, e) => op_available_tx_space e end, m).

(** ** Entry points for PDCP and RRC *)

Definition rb_of_id (u : nr_rlc_ue_t) (srb_flag : bool) (rb_id : Z) : res (option (rb_loc * rlc_entity)) :=
  if srb_flag then
    if (rb_id >=? 1) && (rb_id <=? 2) then located u (LocSrb (rb_id - 1)) else mret None
  else
    if (rb_id >=? 1) && (rb_id <=? Sdap.MAX_DRBS_PER_UE) then located u (LocDrb (rb_id - 1)) else mret None.

Definition rlc_data_req (m : rlc_state) (ctxt : protocol_ctxt_t) (srb_flag : bool) (rb_id mui sdu_size : Z) (sdu : bytes)
    (time_now : Z) : res rlc_state :=
  let '(u, m) := nr_rlc_manager_get_ue m (s32 (rntiMaybeUEid ctxt)) in
  o ← rb_of_id u srb_flag rb_id;
  match o with
  | None => mret m
  | Some (loc, e) =>
      e' ← set_time_then m e (fun e => op_recv_sdu e sdu sdu_size mui time_now);
      commit m u loc e e'
  end.

Definition nr_rlc_srb_recv_sdu (m : rlc_state) (id channel_id : Z) (buf : bytes) (size time_now : Z) : res rlc_state :=
  let '(u, m) := nr_rlc_manager_get_ue m id in
  let loc := if channel_id =? 0 then LocSrb0 else LocSrb (channel_id - 1) in
  o ← entity_at u loc;
  match o with
  | None => Err Exit
  | Some e =>
      e' ← set_time_then m e (fun e => op_recv_sdu e buf size (-1) time_now);
      commit m u loc e e'
  end.

(** ** Configuration *)

(** The fields of the ASN.1 structures that are read; OPTIONAL pointers are options. *)
Record NR_RLC_Config__am := mk_am_cfg {
  am_dl_sn : option Z; am_t_Reassembly : Z; am_t_StatusProhibit : Z;
  am_ul_sn : option Z; am_t_PollRetransmit : Z; am_pollPDU : Z; am_pollByte : Z; am_maxRetx : Z }.

Record NR_RLC_Config__um_Bi_Directional := mk_um_cfg {
  um_dl_sn : option Z; um_t_Reassembly : Z; um_ul_sn : option Z }.

Inductive NR_RLC_Config_t :=
| PR_am (c : NR_RLC_Config__am)
| PR_um_Bi_Directional (c : NR_RLC_Config__um_Bi_Directional)
| PR_other.

Inductive servedRadioBearer_t := PR_srb_Identity (id : Z) | PR_drb_Identity (id : Z) | PR_none.

Record NR_RLC_BearerConfig_t := mk_bearer {
  logicalChannelIdentity : Z; servedRadioBearer : option servedRadioBearer_t; rlc_Config : option NR_RLC_Config_t }.

(** The decoded parameters of an AM entity. *)
Record am_params := mk_am_params {
  p_reassembly : Z; p_status_prohibit : Z; p_poll_retransmit : Z; p_poll_pdu : Z; p_poll_byte : Z; p_max_retx : Z }.

Definition decode_am (c : NR_RLC_Config__am) : res am_params :=
  t_reassembly ← decode_t_reassembly (am_t_Reassembly c);
  t_status_prohibit ← decode_t_status_prohibit (am_t_StatusProhibit c);
  t_poll_retransmit ← decode_t_poll_retransmit (am_t_PollRetransmit c);
  poll_pdu ← decode_poll_pdu (am_pollPDU c);
  poll_byte ← decode_poll_byte (am_pollByte c);
  max_retx ← decode_max_retx_threshold (am_maxRetx c);
  mret (mk_am_params t_reassembly t_status_prohibit t_poll_retransmit poll_pdu poll_byte max_retx).

(** Default values of 38.331, 9.2.1. *)
Definition default_am : am_params := mk_am_params 35 0 45 (-1) (-1) 8.

(** The SN lengths of both directions must be there and equal. *)
Definition same_sn (dl ul : option Z) (decode : Z -> res Z) : res Z :=
  d ← deref dl; u ← deref ul; if negb (d =? u) then Err Exit else decode d.

Definition new_am (p : am_params) (sn : Z) : res rlc_entity :=
  e ← AmEntity.new_nr_rlc_entity_am RLC_RX_MAXSIZE RLC_TX_MAXSIZE (p_poll_retransmit p) (p_reassembly p)
        (p_status_prohibit p) (p_poll_pdu p) (p_poll_byte p) (p_max_retx p) sn;
  mret (AM e).

(** [lcid2rb[local_id]] is set, whether the entity exists or not. *)
Definition map_lcid (u : nr_rlc_ue_t) (lcid : Z) (rb : nr_rlc_rb_t) : res nr_rlc_ue_t :=
  l ← wr (lcid2rb u) (lcid - 1) rb; mret (u <| lcid2rb := l |>).

Definition store_ue (m : rlc_state) (id : Z) (u : nr_rlc_ue_t) : rlc_state := m <| ue_list ::= fun l => put_ue l id u |>.

Definition nr_rlc_add_srb (m : rlc_state) (id srb_id : Z) (c : NR_RLC_BearerConfig_t) : res rlc_state :=
  if negb ((srb_id >? 0) && (srb_id <? 4)) then Err Exit
  else
    '(p, sn) ← match rlc_Config c with
               | Some (PR_am am) => p ← decode_am am; sn ← same_sn (am_dl_sn am) (am_ul_sn am) decode_sn_field_length_am;
                                    mret (p, sn)
               | _ => mret (default_am, 12)
               end;
    let '(u, m) := nr_rlc_manager_get_ue m id in
    match servedRadioBearer c with
    | Some (PR_srb_Identity s) =>
        u ← map_lcid u (logicalChannelIdentity c) (mk_rb NR_RLC_SRB s);
        o ← rd (srb u) (srb_id - 1);
        match o with
        | Some _ => mret (store_ue m id u)
        | None => e ← new_am p sn; u ← nr_rlc_ue_add_srb_rlc_entity u srb_id e; mret (store_ue m id u)
        end
    | _ => Err Exit
    end.

(** The common second half of [add_drb_am] and [add_drb_um]. *)
Definition add_drb_entity (m : rlc_state) (id drb_id : Z) (c : NR_RLC_BearerConfig_t) (new : res rlc_entity) : res rlc_state :=
  let '(u, m) := nr_rlc_manager_get_ue m id in
  match servedRadioBearer c with
  | Some (PR_drb_Identity d) =>
      u ← map_lcid u (logicalChannelIdentity c) (mk_rb NR_RLC_DRB d);
      o ← rd (drb u) (drb_id - 1);
      match o with
      | Some _ => mret (store_ue m id u)
      | None => e ← new; u ← nr_rlc_ue_add_drb_rlc_entity u drb_id e; mret (store_ue m id u)
      end
  | _ => Err Exit
  end.

Definition add_drb_am (m : rlc_state) (id drb_id : Z) (c : NR_RLC_BearerConfig_t) : res rlc_state :=
  if negb ((drb_id >? 0) && (drb_id <=? Sdap.MAX_DRBS_PER_UE)) then Err Exit
  else
    r ← deref (rlc_Config c);
    match r with
    | PR_am am =>
        p ← decode_am am; sn ← same_sn (am_dl_sn am) (am_ul_sn am) decode_sn_field_length_am;
        add_drb_entity m id drb_id c (new_am p sn)
    | _ => Err Exit
    end.

Definition add_drb_um (m : rlc_state) (id drb_id : Z) (c : NR_RLC_BearerConfig_t) : res rlc_state :=
  if negb ((drb_id >? 0) && (drb_id <=? Sdap.MAX_DRBS_PER_UE)) then Err Exit
  else
    r ← deref (rlc_Config c);
    match r with
    | PR_um_Bi_Directional um =>
        t ← decode_t_reassembly (um_t_Reassembly um);
        sn ← same_sn (um_dl_sn um) (um_ul_sn um) decode_sn_field_length_um;
        add_drb_entity m id drb_id c
          (e ← Um.new_nr_rlc_entity_um RLC_RX_MAXSIZE RLC_TX_MAXSIZE t sn; mret (UM e))
    | _ => Err Exit
    end.

Definition nr_rlc_add_drb (m : rlc_state) (id drb_id : Z) (c : NR_RLC_BearerConfig_t) : res rlc_state :=
  r ← deref (rlc_Config c);
  match r with
  | PR_am _ => add_drb_am m id drb_id c
  | PR_um_Bi_Directional _ => add_drb_um m id drb_id c
  | PR_other => Err Exit
  end.

Definition nr_rlc_activate_srb0 (m : rlc_state) (id data send : Z) : res (bool * rlc_state) :=
  let '(u, m) := nr_rlc_manager_get_ue m id in
  match srb0 u with
  | Some _ => mret (false, m)
  | None =>
      e ← Tm.new_nr_rlc_entity_tm 10000;
      u ← nr_rlc_ue_add_srb0 u (mk_srb0 id data send) (TM e);
      mret (true, store_ue m id u)
  end.

(** Both SN lengths or none; equal. *)
Definition reconf_sn (dl ul : option Z) (decode : Z -> res Z) : res (option Z) :=
  match dl, ul with
  | Some d, Some u => if negb (d =? u) then Err Exit else n ← decode d; mret (Some n)
  | None, None => mret None
  | _, _ => Err Exit
  end.

Definition reconfigure (e : rlc_entity) (c : option NR_RLC_Config_t) : res rlc_entity :=
  match c, e with
  | Some _, TM _ => Err Exit
  | Some (PR_am am), AM e =>
      p ← decode_am am; sn ← reconf_sn (am_dl_sn am) (am_ul_sn am) decode_sn_field_length_am;
      mret (AM (AmEntity.nr_rlc_entity_am_reconfigure e (p_poll_retransmit p) (p_reassembly p) (p_status_prohibit p)
        (p_poll_pdu p) (p_poll_byte p) (p_max_retx p) sn))
  | Some (PR_um_Bi_Directional um), UM e =>
      t ← decode_t_reassembly (um_t_Reassembly um); sn ← reconf_sn (um_dl_sn um) (um_ul_sn um) decode_sn_field_length_um;
      mret (UM (Um.nr_rlc_entity_um_reconfigure e t sn))
  | Some _, _ => Err Exit
  | None, AM e => mret (AM (AmEntity.nr_rlc_entity_am_reconfigure e 45 35 0 (-1) (-1) 8 (Some 12)))
  | None, _ => Err Exit
  end.

Definition nr_rlc_reconfigure_entity (m : rlc_state) (id lc_id : Z) (c : option NR_RLC_Config_t) : res rlc_state :=
  let '(u, m) := nr_rlc_manager_get_ue m id in
  o ← get_rlc_entity_from_lcid u lc_id;
  '(loc, e) ← deref o;
  e' ← reconfigure e c;
  commit m u loc e e'.

Definition nr_rlc_reestablish_entity (m : rlc_state) (id lc_id : Z) : res rlc_state :=
  let '(u, m) := nr_rlc_manager_get_ue m id in
  o ← get_rlc_entity_from_lcid u lc_id;
  match o with
  | None => mret m
  | Some (loc, e) => e' ← op_reestablishment e; commit m u loc e e'
  end.

Definition nr_rlc_set_rlf_handler (m : rlc_state) (id h : Z) : rlc_state :=
  let '(u, m) := nr_rlc_manager_get_ue m id in
  store_ue m id (u <| rlf_handler := Some h |>).

(** ** Release *)

(** [delete_entity] and the pointer reset; nothing when there is no entity. *)
Definition delete_at (u : nr_rlc_ue_t) (loc : rb_loc) : res nr_rlc_ue_t :=
  o ← entity_at u loc;
  match o with
  | None => mret u
  | Some e => _ ← op_delete e; put_entity u loc None
  end.

Definition release_rlc_entity_from_lcid (u : nr_rlc_ue_t) (channel_id : Z) : res nr_rlc_ue_t :=
  if channel_id =? 0 then Err Exit
  else
    o ← loc_of_lcid u channel_id;
    match o with None => mret u | Some loc => delete_at u loc end.

Definition nr_rlc_release_entity (m : rlc_state) (id channel_id : Z) : res rlc_state :=
  let '(u, m) := nr_rlc_manager_get_ue m id in
  u ← (if channel_id =? 0 then delete_at u LocSrb0 else release_rlc_entity_from_lcid u channel_id);
  mret (store_ue m id u).

Definition all_none (l : list (option rlc_entity)) : bool := forallb (fun o => match o with None => true | _ => false end) l.

(** [action] is [CONFIG_ACTION_REMOVE]. *)
Definition rrc_rlc_config_req (m : rlc_state) (ctxt : protocol_ctxt_t) (srb_flag mbms_flag remove : bool) (rb_id : Z)
  : res rlc_state :=
  if mbms_flag then Err Exit
  else if negb remove then Err Exit
  else if negb (module_id ctxt =? 0) then Err Exit
  else if negb ((rb_id >=? 1) && (rb_id <=? if srb_flag then 2 else Sdap.MAX_DRBS_PER_UE)) then Err Exit
  else
    let id := s32 (rntiMaybeUEid ctxt) in
    let '(u, m) := nr_rlc_manager_get_ue m id in
    u ← delete_at u (if srb_flag then LocSrb (rb_id - 1) else LocDrb (rb_id - 1));
    let m := store_ue m id u in
    if all_none (take 2 (srb u)) && all_none (drb u) then nr_rlc_manager_remove_ue m id else mret m.

Definition nr_rlc_remove_ue (m : rlc_state) (id : Z) : res rlc_state := nr_rlc_manager_remove_ue m id.

Definition rrc_rlc_remove_ue (m : rlc_state) (ctxt : protocol_ctxt_t) : res rlc_state :=
  nr_rlc_remove_ue m (s32 (rntiMaybeUEid ctxt)).

(** ** Other entry points *)

(** The test for NULL never holds: an unknown UE is created and renamed. *)
Definition nr_rlc_update_id (m : rlc_state) (from_id to_id : Z) : res (bool * rlc_state) :=
  let '(u, m) := nr_rlc_manager_get_ue m from_id in
  let u := u <| ue_id := to_id |> in
  o ← rd (srb u) 0;
  match o with
  | None => mret (true, store_ue m from_id u)
  | Some e =>
      e' ← op_reestablishment e;
      u ← put_entity u (LocSrb 0) (Some e');
      m ← run_calls (store_ue m from_id u) u (LocSrb 0)
            (drop (length (RlcEntity.calls (op_common e))) (RlcEntity.calls (op_common e')));
      mret (true, m)
  end.

Definition nr_rlc_test_trigger_reestablishment (m : rlc_state) (id : Z) : res rlc_state :=
  let '(u, m) := nr_rlc_manager_get_ue m id in
  o ← rd (srb u) 0; e ← deref o; e' ← op_reestablishment e;
  m ← commit m u (LocSrb 0) e e';
  let '(u, m) := nr_rlc_manager_get_ue m id in
  o ← rd (drb u) 0; e ← deref o; e' ← op_reestablishment e;
  commit m u (LocDrb 0) e e'.

(** Only called by mistake. *)
Definition rlc_tick : res rlc_state := Err Exit.

Definition is_rb (is_srb : bool) (rb_id : Z) (rb : nr_rlc_rb_t) : bool :=
  match rb_type rb with
  | NR_RLC_SRB => is_srb && (choice rb =? rb_id)
  | NR_RLC_DRB => negb is_srb && (choice rb =? rb_id)
  | NR_RLC_NONE => false
  end.

(** The first matching logical channel, 0 if there is none. *)
Fixpoint find_lcid (is_srb : bool) (rb_id id : Z) (l : list nr_rlc_rb_t) : Z :=
  match l with
  | [] => 0
  | rb :: l => if is_rb is_srb rb_id rb then id else find_lcid is_srb rb_id (id + 1) l
  end.

Definition nr_rlc_get_lcid_from_rb (m : rlc_state) (id : Z) (is_srb : bool) (rb_id : Z) : Z * rlc_state :=
  let '(u, m) := nr_rlc_manager_get_ue m id in
  (find_lcid is_srb rb_id 1 (take 32 (lcid2rb u)), m).

Definition nr_rlc_activate_avg_time_to_tx (m : rlc_state) (id channel_id : Z) (is_on : bool) : res rlc_state :=
  let '(u, m) := nr_rlc_manager_get_ue m id in
  let loc := if (1 <=? channel_id) && (channel_id <=? 3) then Some (LocSrb (channel_id - 1))
             else if (4 <=? channel_id) && (channel_id <=? 8) then Some (LocDrb (channel_id - 4)) else None in
  match loc with
  | None => mret m
  | Some loc =>
      o ← entity_at u loc;
      match o with
      | None => mret m
      | Some e =>
          u ← put_entity u loc (Some (op_upd_common (fun c =>
                c <| avg_time_is_on := is_on |> <| txsdu_avg_time_to_tx ::= time_average_reset |>) e));
          mret (store_ue m id u)
      end
  end.

(** Statistics, average, [rxbuf_occ_bytes] and [txbuf_occ_bytes]; [None] is the result false. *)
Definition nr_rlc_get_statistics (m : rlc_state) (id : Z) (srb_flag : bool) (rb_id time_now : Z)
  : res (option (nr_rlc_statistics_t * option (Z * Z) * Z * Z) * rlc_state) :=
  let '(u, m) := nr_rlc_manager_get_ue m id in
  o ← (if srb_flag || (rb_id <=? 5) then rb_of_id u srb_flag rb_id else mret None);
  match o with
  | None => mret (None, m)
  | Some (loc, e) =>
      '(out, avg, e) ← nr_rlc_entity_get_stats e time_now;
      b ← op_buffer_status e (1000 * 1000);
      u ← put_entity u loc (Some e);
      mret (Some (out, avg, RlcEntity.status_size b, tx_size_ b + retx_size b), store_ue m id u)
  end.

(** The two static flags: initialised as gNB, as UE. *)
Definition rlc_module_init (inited inited_ue enb cu du : bool) (f1 : F1.table) : res (bool * bool * rlc_state) :=
  if enb && inited then Err Exit
  else if negb enb && inited_ue then Err Exit
  else mret (inited || enb, inited_ue || negb enb, new_nr_rlc_ue_manager enb cu du f1).

End RlcApi.
