(* ===== verification/RlcApiProps.v ===== *)
(** * RLC manager: well-formedness, isolation of UEs, logical channels

    Every entry point of [nr_rlc_oai_api.c] as a step of the manager; the invariant of the
    table of UEs, and what a step for one UE may change. *)

From S2P Require Import Prelude RlcPdu RlcSdu TimeStat RlcEntity RlcTm RlcUm RlcAm RlcAmEntity RlcBearer Sdap WorkQueue F1Ids RlcApi.
Import RlcApi.

(** ** Entry points as operations *)

Inductive api_op :=
| DataInd (id eNB_index : Z) (mbms : bool) (lcid : Z) (buf : bytes) (size : Z)
| DataReq (id lcid size : Z) (buf : bytes) (now : Z)
| StatusInd (id lcid : Z)
| BufferOccupancy (id frame subframe : Z) (enb : bool) (lcid : Z)
| TxSpace (id lcid : Z)
| SduReq (ctxt : protocol_ctxt_t) (srb : bool) (rb mui size : Z) (sdu : bytes) (now : Z)
| SrbSdu (id lcid : Z) (sdu : bytes) (size now : Z)
| AddSrb (id srb_id : Z) (c : NR_RLC_BearerConfig_t)
| AddDrb (id drb_id : Z) (c : NR_RLC_BearerConfig_t)
| ActivateSrb0 (id data send : Z)
| Reconfigure (id lcid : Z) (c : option NR_RLC_Config_t)
| Reestablish (id lcid : Z)
| SetRlfHandler (id h : Z)
| Release (id lcid : Z)
| AvgTime (id lcid : Z) (on : bool)
| Statistics (id : Z) (srb : bool) (rb now : Z)
| LcidOfRb (id : Z) (srb : bool) (rb : Z)
| TriggerReestablishment (id : Z)
| ConfigReq (ctxt : protocol_ctxt_t) (srb mbms remove : bool) (rb : Z)
| RemoveUe (id : Z)
| UpdateId (from_id to_id : Z)
| RlcTick (frame subframe : Z).

Definition api_step (m : rlc_state) (op : api_op) : res rlc_state :=
  match op with
  | DataInd id i mb ch b n => mac_rlc_data_ind m id i mb ch b n
  | DataReq id ch n b now => '(_, _, m) ← mac_rlc_data_req m id ch n b now; mret m
  | StatusInd id ch => '(_, m) ← mac_rlc_status_ind m id ch; mret m
  | BufferOccupancy id f s e ch => '(_, m) ← mac_rlc_get_buffer_occupancy_ind m id f s e ch; mret m
  | TxSpace id ch => '(_, m) ← nr_rlc_get_available_tx_space m id ch; mret m
  | SduReq c s rb mui n sdu now => rlc_data_req m c s rb mui n sdu now
  | SrbSdu id ch sdu n now => nr_rlc_srb_recv_sdu m id ch sdu n now
  | AddSrb id s c => nr_rlc_add_srb m id s c
  | AddDrb id d c => nr_rlc_add_drb m id d c
  | ActivateSrb0 id d f => '(_, m) ← nr_rlc_activate_srb0 m id d f; mret m
  | Reconfigure id ch c => nr_rlc_reconfigure_entity m id ch c
  | Reestablish id ch => nr_rlc_reestablish_entity m id ch
  | SetRlfHandler id h => mret (nr_rlc_set_rlf_handler m id h)
  | Release id ch => nr_rlc_release_entity m id ch
  | AvgTime id ch on => nr_rlc_activate_avg_time_to_tx m id ch on
  | Statistics id s rb now => '(_, m) ← nr_rlc_get_statistics m id s rb now; mret m
  | LcidOfRb id s rb => mret (nr_rlc_get_lcid_from_rb m id s rb).2
  | TriggerReestablishment id => nr_rlc_test_trigger_reestablishment m id
  | ConfigReq c s mb rm rb => rrc_rlc_config_req m c s mb rm rb
  | RemoveUe id => nr_rlc_remove_ue m id
  | UpdateId a b => '(_, m) ← nr_rlc_update_id m a b; mret m
  | RlcTick f s => mret (nr_rlc_tick m f s)
  end.

Fixpoint api_run (m : rlc_state) (ops : list api_op) : res rlc_state :=
  match ops with
  | [] => mret m
  | op :: ops => m ← api_step m op; api_run m ops
  end.

(** ** The invariant *)

Definition rb_ok (rb : nr_rlc_rb_t) : Prop :=
  match rb_type rb with
  | NR_RLC_NONE => True
  | NR_RLC_SRB => 1 <= choice rb <= 3
  | NR_RLC_DRB => 1 <= choice rb <= Sdap.MAX_DRBS_PER_UE
  end.

(** The arrays have their sizes and a logical channel leads into them. *)
Record ue_ok (u : nr_rlc_ue_t) : Prop := {
  uo_srb : zlen (srb u) = 3;
  uo_drb : zlen (drb u) = Sdap.MAX_DRBS_PER_UE;
  uo_lcid : zlen (lcid2rb u) = 32;
  uo_rb : Forall rb_ok (lcid2rb u) }.

Record mgr_ok (m : rlc_state) : Prop := {
  mo_ids : NoDup (ue_id <$> ue_list m);
  mo_ues : Forall ue_ok (ue_list m) }.

(** The UE an operation is about. *)
Definition subject (op : api_op) : option Z :=
  match op with
  | DataInd id _ _ _ _ _ | DataReq id _ _ _ _ | StatusInd id _ | BufferOccupancy id _ _ _ _ => Some (u16 id)
  | SduReq c _ _ _ _ _ _ | ConfigReq c _ _ _ _ => Some (s32 (rntiMaybeUEid c))
  | TxSpace id _ | SrbSdu id _ _ _ _ | AddSrb id _ _ | AddDrb id _ _ | ActivateSrb0 id _ _ | Reconfigure id _ _
  | Reestablish id _ | SetRlfHandler id _ | Release id _ | AvgTime id _ _ | Statistics id _ _ _ | LcidOfRb id _ _
  | TriggerReestablishment id | RemoveUe id | UpdateId id _ => Some id
  | RlcTick _ _ => None
  end.

(** What the callers have to respect: the identities of a bearer configuration are those of
    38.331, and a UE is not given the identifier of another one. *)
Definition op_ok (m : rlc_state) (op : api_op) : Prop :=
  match op with
  | AddSrb _ _ c => match servedRadioBearer c with Some (PR_srb_Identity s) => 1 <= s <= 3 | _ => True end
  | AddDrb _ _ c => match servedRadioBearer c with Some (PR_drb_Identity d) => 1 <= d <= Sdap.MAX_DRBS_PER_UE | _ => True end
  | UpdateId a b => a <> b -> find_ue (ue_list m) b = None
  | _ => True
  end.

(** ** The table of UEs *)

Lemma find_put_ne l id u j : j <> id -> ue_id u = id -> find_ue (put_ue l id u) j = find_ue l j.
Proof.
  intros Hj Hu. induction l as [|v l IH]; [done|]. cbn. destruct (Z.eqb_spec (ue_id v) id) as [E|E]; cbn.
  - rewrite Hu, E, (proj2 (Z.eqb_neq id j)) by congruence. done.
  - case_if; [done|apply IH].
Qed.

Lemma find_snoc l u j : ue_id u <> j -> find_ue (l ++ [u]) j = find_ue l j.
Proof.
  intros H. induction l as [|v l IH]; cbn; [by rewrite (proj2 (Z.eqb_neq _ _))|]. case_if; [done|apply IH].
Qed.

Lemma find_remove_ne l id j : j <> id -> find_ue (remove_ue l id) j = find_ue l j.
Proof.
  intros H. induction l as [|v l IH]; [done|]. cbn. destruct (Z.eqb_spec (ue_id v) id) as [E|E]; cbn.
  - by rewrite E, (proj2 (Z.eqb_neq id j)) by congruence.
  - case_if; [done|apply IH].
Qed.

Lemma find_ids l j u : find_ue l j = Some u -> ue_id u = j /\ u ∈ l.
Proof.
  induction l as [|v l IH]; [done|]. cbn. case_if.
  - intros [= ->]. bool_prop. split; [done|left].
  - intros H%IH. split; [apply H|right; apply H].
Qed.

Lemma find_None_ids l j : find_ue l j = None <-> j ∉ (ue_id <$> l).
Proof.
  induction l as [|v l IH]; [split; [intros _ H; inversion H|done]|]. cbn [find_ue]. rewrite fmap_cons, elem_of_cons.
  destruct (Z.eqb_spec (ue_id v) j) as [->|Hn]; [split; [done|intros H; exfalso; apply H; by left]|].
  rewrite IH. split; intros H; [by intros [?|?]|]. intros ?. apply H. by right.
Qed.

Lemma put_ids l id u : ue_id u = id -> ue_id <$> put_ue l id u = ue_id <$> l.
Proof.
  intros Hu. induction l as [|v l IH]; [done|]. cbn. destruct (Z.eqb_spec (ue_id v) id) as [E|E]; cbn; [by rewrite Hu, E|by f_equal].
Qed.

Lemma put_self l id u : find_ue l id = Some u -> put_ue l id u = l.
Proof.
  induction l as [|v l IH]; [done|]. cbn. case_if; [by intros [= ->]|]. intros H. by rewrite IH.
Qed.

Lemma put_ok l id u : Forall ue_ok l -> ue_ok u -> Forall ue_ok (put_ue l id u).
Proof. intros Hl Hu. induction Hl; [constructor|]. cbn. case_if; by constructor. Qed.

Lemma remove_table l id : NoDup (ue_id <$> l) -> Forall ue_ok l ->
  NoDup (ue_id <$> remove_ue l id) /\ Forall ue_ok (remove_ue l id) /\
  (forall j, j ∈ (ue_id <$> remove_ue l id) -> j ∈ (ue_id <$> l)).
Proof.
  intros Hn Hf. induction Hf as [|v l Hv Hf IH]; [done|]. rewrite fmap_cons in Hn. apply NoDup_cons in Hn as [Hx Hn].
  destruct (IH Hn) as (N & F & S). cbn [remove_ue]. case_if.
  - split_and!; [done|done|]. intros j Hj. rewrite fmap_cons. by right.
  - rewrite !fmap_cons. split_and!; [|by constructor|].
    + apply NoDup_cons. auto.
    + intros j [->|Hj]%elem_of_cons; [by left|right; auto].
Qed.

Lemma new_ue_ok id : ue_ok (new_ue id).
Proof. constructor; try reflexivity. by apply Forall_replicate. Qed.

(** After the lookup the UE is in the table. *)
Lemma get_ue_spec m id : mgr_ok m -> let '(u, m1) := nr_rlc_manager_get_ue m id in
  find_ue (ue_list m1) id = Some u /\ ue_id u = id /\ ue_ok u /\ mgr_ok m1 /\
  (forall j, j <> id -> find_ue (ue_list m1) j = find_ue (ue_list m) j).
Proof.
  intros [Hn Hf]. unfold nr_rlc_manager_get_ue. destruct (find_ue (ue_list m) id) as [u|] eqn:E.
  - destruct (find_ids _ _ _ E) as [Hi Hm]. rewrite Forall_forall in Hf. split_and!; eauto. constructor; [done|by apply Forall_forall].
  - assert (Hd := proj1 (find_None_ids _ _) E). split_and!; [|done|apply new_ue_ok| |].
    + cbn. clear -E. induction (ue_list m) as [|v l IH]; cbn in *; [by rewrite Z.eqb_refl|]. case_if; [done|auto].
    + constructor; cbn.
      * rewrite fmap_app. apply NoDup_app. split_and!; [done| |apply NoDup_singleton].
        intros x Hx ->%list_elem_of_singleton. done.
      * apply Forall_app. split; [done|]. constructor; [apply new_ue_ok|done].
    + intros j Hj. cbn. apply find_snoc. cbn. congruence.
Qed.

(** ** What one entry point changes *)

(** [m'] is [m] with the UE [id], created if need be, replaced by a well-formed one. *)
Definition touches (id : Z) (m m' : rlc_state) : Prop :=
  exists u, ue_id u = id /\ ue_ok u /\ ue_list m' = put_ue (ue_list (nr_rlc_manager_get_ue m id).2) id u.

Lemma touches_ok id m m' : mgr_ok m -> touches id m m' ->
  mgr_ok m' /\ forall j, j <> id -> find_ue (ue_list m') j = find_ue (ue_list m) j.
Proof.
  intros Hm (u & Hi & Hu & E). pose proof (get_ue_spec m id Hm) as G. destruct (nr_rlc_manager_get_ue m id) as [v m1].
  destruct G as (_ & _ & _ & [Hn Hf] & Hj). cbn in E. split.
  - constructor; rewrite E; [by rewrite put_ids|by apply put_ok].
  - intros j Hne. rewrite E, find_put_ne by done. by apply Hj.
Qed.

Lemma get_touches id m u m1 : mgr_ok m -> nr_rlc_manager_get_ue m id = (u, m1) -> touches id m m1.
Proof.
  intros Hm E. pose proof (get_ue_spec m id Hm) as G. unfold touches. rewrite E in *.
  destruct G as (F & Hi & Hu & _). exists u. cbn. by rewrite put_self.
Qed.

Lemma run_call_list c m m' u loc : run_call m u loc c = Ok m' -> ue_list m' = ue_list m.
Proof.
  unfold run_call, deliver_sdu, successful_delivery, max_retx_reached.
  destruct c, loc; intros H; inv_res; repeat (case_if; inv_res); try done. all: by destruct (rlf_handler u).
Qed.

Lemma run_calls_list l m m' u loc : run_calls m u loc l = Ok m' -> ue_list m' = ue_list m.
Proof.
  revert m. induction l as [|c l IH]; intros m H; cbn [run_calls] in H; [by inv_res|].
  apply bind_ok in H as (m1 & H1 & H2). by rewrite (IH _ H2), (run_call_list _ _ _ _ _ H1).
Qed.

Lemma wr_length {A} (l l' : list A) i x : wr l i x = Ok l' -> zlen l' = zlen l.
Proof. unfold wr. case_if; [|done]. intros H. apply Ok_inj in H as <-. unfold zlen. by rewrite length_insert. Qed.

Lemma put_entity_ok u loc e u' : put_entity u loc e = Ok u' -> ue_ok u -> ue_ok u' /\ ue_id u' = ue_id u.
Proof.
  intros H [A B C D]. unfold put_entity in H. destruct loc; [inv_res; done| |].
  all: apply bind_ok in H as (l & W%wr_length & H); inv_res; (split; [|done]); split; cbn; congruence.
Qed.

Lemma commit_touches id m u m1 m' loc old new : mgr_ok m -> nr_rlc_manager_get_ue m id = (u, m1) ->
  commit m1 u loc old new = Ok m' -> touches id m m'.
Proof.
  intros Hm E H. pose proof (get_ue_spec m id Hm) as G. unfold touches. rewrite E in *.
  destruct G as (F & Hi & Hu & _). apply bind_ok in H as (v & P & H).
  destruct (put_entity_ok _ _ _ _ P Hu) as [Hu' Ei]. exists v. rewrite (run_calls_list _ _ _ _ _ H). cbn.
  rewrite Ei, Hi. by split_and!.
Qed.

(** The other shape: the UE is stored without callbacks. *)
Lemma store_touches id m u m1 v : mgr_ok m -> nr_rlc_manager_get_ue m id = (u, m1) ->
  (ue_ok u -> ue_ok v /\ ue_id v = ue_id u) -> touches id m (store_ue m1 id v).
Proof.
  intros Hm E Hv. pose proof (get_ue_spec m id Hm) as G. unfold touches. rewrite E in *.
  destruct G as (_ & Hi & Hu & _). destruct (Hv Hu) as [Ho Ei]. exists v. rewrite Ei. done.
Qed.

Lemma delete_at_ok u loc v : delete_at u loc = Ok v -> ue_ok u -> ue_ok v /\ ue_id v = ue_id u.
Proof.
  intros H Hu. unfold delete_at in H. apply bind_ok in H as (o & _ & H). destruct o; [|by inv_res].
  apply bind_ok in H as (_ & _ & H). by eapply put_entity_ok.
Qed.

Lemma map_lcid_ok u lcid rb v : map_lcid u lcid rb = Ok v -> rb_ok rb -> ue_ok u -> ue_ok v /\ ue_id v = ue_id u.
Proof.
  intros H Hr [A B C D]. unfold map_lcid in H. apply bind_ok in H as (l & W & H). inv_res. split; [|done].
  split; cbn; try done; [by rewrite (wr_length _ _ _ _ W)|].
  unfold wr in W. case_if_in W; [|done]. apply Ok_inj in W as <-. by apply Forall_insert.
Qed.

Lemma add_srb_entity_ok u i e v : nr_rlc_ue_add_srb_rlc_entity u i e = Ok v -> ue_ok u -> ue_ok v /\ ue_id v = ue_id u.
Proof.
  intros H Hu. unfold nr_rlc_ue_add_srb_rlc_entity in H. case_if_in H; [done|]. apply bind_ok in H as (o & _ & H).
  destruct o; [done|]. by apply (put_entity_ok u (LocSrb (i - 1)) (Some e)).
Qed.

Lemma add_drb_entity_ok u i e v : nr_rlc_ue_add_drb_rlc_entity u i e = Ok v -> ue_ok u -> ue_ok v /\ ue_id v = ue_id u.
Proof.
  intros H Hu. unfold nr_rlc_ue_add_drb_rlc_entity in H. case_if_in H; [done|]. apply bind_ok in H as (o & _ & H).
  destruct o; [done|]. by apply (put_entity_ok u (LocDrb (i - 1)) (Some e)).
Qed.

(** [touch]: an entry point that looks a UE up and commits or stores it. *)
Ltac touch :=
  repeat match goal with
  | H : _ ≫= _ = Ok _ |- _ => let x := fresh "x" in apply bind_ok in H as (x & ? & H)
  | H : mret _ = Ok _ |- _ => apply mret_ok in H
  | H : Ok _ = Ok _ |- _ => apply Ok_inj in H
  | H : Err _ = Ok _ |- _ => discriminate H
  | H : (_, _) = (_, _) |- _ => injection H as ? ?
  | p : _ * _ |- _ => destruct p
  | H : match ?o with Some _ => _ | None => _ end = Ok _ |- _ => destruct o eqn:?
  | H : (if ?b then _ else _) = Ok _ |- _ => destruct b eqn:?
  end; subst; eauto using get_touches, commit_touches.

(** [about m id H]: the lookup of the entry point in [H] is named and its branches are taken. *)
Tactic Notation "about" uconstr(m) uconstr(id) "as" ident(u) ident(m1) ident(G) :=
  destruct (nr_rlc_manager_get_ue m id) as [u m1] eqn:G; intros; touch.

Section Entry_points.
Context (m m' : rlc_state) (Hm : mgr_ok m).

Lemma data_ind_touches id i mb ch b n : mac_rlc_data_ind m id i mb ch b n = Ok m' -> touches (u16 id) m m'.
Proof using Hm. unfold mac_rlc_data_ind. about m (u16 id) as u m1 G. Qed.

Lemma data_req_touches id ch n b now r : mac_rlc_data_req m id ch n b now = Ok (r, m') -> touches (u16 id) m m'.
Proof using Hm. unfold mac_rlc_data_req. about m (u16 id) as u m1 G. Qed.

Lemma status_ind_touches id ch r : mac_rlc_status_ind m id ch = Ok (r, m') -> touches (u16 id) m m'.
Proof using Hm. unfold mac_rlc_status_ind. about m (u16 id) as u m1 G. Qed.

Lemma tx_space_touches id ch r : nr_rlc_get_available_tx_space m id ch = Ok (r, m') -> touches id m m'.
Proof using Hm. unfold nr_rlc_get_available_tx_space. about m id as u m1 G. Qed.

Lemma sdu_req_touches c s rb mui n sdu now : rlc_data_req m c s rb mui n sdu now = Ok m' ->
  touches (s32 (rntiMaybeUEid c)) m m'.
Proof using Hm. unfold rlc_data_req. about m _ as u m1 G. Qed.

Lemma srb_sdu_touches id ch b n now : nr_rlc_srb_recv_sdu m id ch b n now = Ok m' -> touches id m m'.
Proof using Hm. unfold nr_rlc_srb_recv_sdu. about m id as u m1 G. Qed.

Lemma reconfigure_touches id ch c : nr_rlc_reconfigure_entity m id ch c = Ok m' -> touches id m m'.
Proof using Hm. unfold nr_rlc_reconfigure_entity. about m id as u m1 G. Qed.

Lemma reestablish_touches id ch : nr_rlc_reestablish_entity m id ch = Ok m' -> touches id m m'.
Proof using Hm. unfold nr_rlc_reestablish_entity. about m id as u m1 G. Qed.

Lemma set_rlf_touches id h : touches id m (nr_rlc_set_rlf_handler m id h).
Proof using Hm.
  unfold nr_rlc_set_rlf_handler. destruct (nr_rlc_manager_get_ue m id) as [u m1] eqn:G.
  eapply store_touches; [done|done|]. by intros [].
Qed.

Lemma release_touches id ch : nr_rlc_release_entity m id ch = Ok m' -> touches id m m'.
Proof using Hm.
  unfold nr_rlc_release_entity, release_rlc_entity_from_lcid. about m id as u m1 G.
  all: eapply store_touches; [done|done|]; done || by eapply delete_at_ok.
Qed.

Lemma avg_time_touches id ch on : nr_rlc_activate_avg_time_to_tx m id ch on = Ok m' -> touches id m m'.
Proof using Hm.
  unfold nr_rlc_activate_avg_time_to_tx. about m id as u m1 G.
  eapply store_touches; [done|done|]. by eapply put_entity_ok.
Qed.

Lemma statistics_touches id s rb now r : nr_rlc_get_statistics m id s rb now = Ok (r, m') -> touches id m m'.
Proof using Hm.
  unfold nr_rlc_get_statistics. about m id as u m1 G.
  all: eapply store_touches; [done|done|]; by eapply put_entity_ok.
Qed.

Lemma add_srb_touches id i c : op_ok m (AddSrb id i c) -> nr_rlc_add_srb m id i c = Ok m' -> touches id m m'.
Proof using Hm.
  cbn. unfold nr_rlc_add_srb. destruct (nr_rlc_manager_get_ue m id) as [u m1] eqn:G. intros Hc H. case_if_in H; [done|].
  apply bind_ok in H as ([p sn] & _ & H). destruct (servedRadioBearer c) as [[s| |]|]; try done.
  apply bind_ok in H as (u1 & M & H). apply bind_ok in H as (o & _ & H).
  destruct o; touch; (eapply store_touches; [done|done|]); intros Hu.
  all: destruct (map_lcid_ok _ _ _ _ M Hc Hu) as [Hu1 E1]; try done.
  rewrite <- E1. by eapply add_srb_entity_ok.
Qed.

Lemma add_drb_entity_touches id i c new : op_ok m (AddDrb id i c) -> add_drb_entity m id i c new = Ok m' -> touches id m m'.
Proof using Hm.
  cbn. unfold add_drb_entity. destruct (nr_rlc_manager_get_ue m id) as [u m1] eqn:G. intros Hc H.
  destruct (servedRadioBearer c) as [[|d|]|]; try done.
  apply bind_ok in H as (u1 & M & H). apply bind_ok in H as (o & _ & H).
  destruct o; touch; (eapply store_touches; [done|done|]); intros Hu.
  all: destruct (map_lcid_ok _ _ _ _ M Hc Hu) as [Hu1 E1]; try done.
  rewrite <- E1. by eapply add_drb_entity_ok.
Qed.

Lemma add_drb_touches id i c : op_ok m (AddDrb id i c) -> nr_rlc_add_drb m id i c = Ok m' -> touches id m m'.
Proof using Hm.
  intros Hc H. unfold nr_rlc_add_drb in H. apply bind_ok in H as (r & R & H). destruct r; [..|done].
  all: unfold add_drb_am, add_drb_um in H; case_if_in H; [done|]; rewrite R in H; rewrite bind_Ok in H.
  all: repeat (apply bind_ok in H as (? & _ & H)); by eapply add_drb_entity_touches.
Qed.

Lemma activate_srb0_touches id d f r : nr_rlc_activate_srb0 m id d f = Ok (r, m') -> touches id m m'.
Proof using Hm.
  unfold nr_rlc_activate_srb0, nr_rlc_ue_add_srb0. about m id as u m1 G.
  eapply store_touches; [done|done|]. by intros [].
Qed.
End Entry_points.

(** ** All entry points *)

(** The identifiers an operation may change the meaning of. *)
Definition concerns (op : api_op) (j : Z) : Prop := subject op = Some j \/ exists a, op = UpdateId a j.

Lemma remove_ok id m m' : mgr_ok m -> nr_rlc_manager_remove_ue m id = Ok m' ->
  mgr_ok m' /\ forall j, j <> id -> find_ue (ue_list m') j = find_ue (ue_list m) j.
Proof.
  intros [Hn Hf] H. unfold nr_rlc_manager_remove_ue in H. destruct (find_ue (ue_list m) id); [|by inv_res].
  inv_res. destruct (remove_table (ue_list m) id Hn Hf) as (N & F & _). split; [by constructor|].
  intros j Hj. by apply find_remove_ne.
Qed.

Lemma update_id_ok m a b r m' : mgr_ok m -> op_ok m (UpdateId a b) -> nr_rlc_update_id m a b = Ok (r, m') ->
  mgr_ok m' /\ forall j, j <> a -> j <> b -> find_ue (ue_list m') j = find_ue (ue_list m) j.
Proof.
  intros Hm Hop H. pose proof (get_ue_spec m a Hm) as G. unfold nr_rlc_update_id in H.
  destruct (nr_rlc_manager_get_ue m a) as [u m1]. destruct G as (F & Hi & Hu & [Hn Hf] & Hj).
  assert (E : exists v, ue_ok v /\ ue_id v = b /\ ue_list m' = put_ue (ue_list m1) a v).
  { apply bind_ok in H as (o & _ & H). destruct o as [e|].
    - apply bind_ok in H as (e' & _ & H). apply bind_ok in H as (v & P & H). apply bind_ok in H as (m2 & R & H).
      apply put_entity_ok in P as [Hv Ev]; [|by destruct Hu]. exists v. inv_res.
      by rewrite (run_calls_list _ _ _ _ _ R).
    - inv_res. eexists. split; [|split; [|reflexivity]]; [by destruct Hu|done]. }
  destruct E as (v & Hv & Ei & El).
  assert (Hb : a <> b -> find_ue (ue_list m1) b = None) by (intros Hne; rewrite Hj by done; by apply Hop).
  clear -Hn Hf Hj Hv Ei El Hb. split.
  - constructor; rewrite El; [|by apply put_ok]. revert Hn Hb. clear -Ei.
    induction (ue_list m1) as [|w l IH]; [done|]. cbn [put_ue find_ue]. rewrite fmap_cons. intros [Hx Hn]%NoDup_cons Hb.
    destruct (Z.eqb_spec (ue_id w) a) as [Ea|Ea]; rewrite fmap_cons; apply NoDup_cons.
    + split; [|done]. destruct (Z.eq_dec a b) as [->|Hne]; [by rewrite Ei, <- Ea|]. specialize (Hb Hne).
      case_if_in Hb; [done|]. rewrite Ei. by apply find_None_ids.
    + destruct (Z.eq_dec a b) as [->|Hne]; [rewrite put_ids by done; done|]. specialize (Hb Hne). case_if_in Hb; [done|].
      split; [|by apply IH]. intros C. apply Hx. revert C. clear -Ei E. bool_prop. induction l as [|w' l IH]; [done|]. cbn [put_ue].
      case_if; rewrite !fmap_cons, !elem_of_cons; intros [C|C]; [congruence|by right|by left|right; auto].
  - intros j Ha Hb'. rewrite El. rewrite <- Hj by done. clear -Ha Hb' Ei. induction (ue_list m1) as [|w l IH]; [done|].
    cbn [put_ue]. destruct (Z.eqb_spec (ue_id w) a) as [Ea|Ea]; cbn [find_ue].
    + by rewrite !(proj2 (Z.eqb_neq _ j)) by congruence.
    + case_if; [done|apply IH].
Qed.

Lemma tick_list m f s : ue_list (nr_rlc_tick m f s) = ue_list m.
Proof. unfold nr_rlc_tick. by case_if. Qed.

Lemma mgr_ok_list m m' : ue_list m' = ue_list m -> mgr_ok m -> mgr_ok m'.
Proof. intros E []. split; by rewrite E. Qed.

Lemma trigger_ok m id m' : mgr_ok m -> nr_rlc_test_trigger_reestablishment m id = Ok m' ->
  mgr_ok m' /\ forall j, j <> id -> find_ue (ue_list m') j = find_ue (ue_list m) j.
Proof.
  intros Hm H. unfold nr_rlc_test_trigger_reestablishment in H.
  destruct (nr_rlc_manager_get_ue m id) as [u m1] eqn:G. do 3 apply bind_ok in H as (? & _ & H).
  apply bind_ok in H as (m2 & C & H). destruct (touches_ok id m m2 Hm) as [Hm2 F2]; [by eapply commit_touches|].
  destruct (nr_rlc_manager_get_ue m2 id) as [v m3] eqn:G2. do 3 apply bind_ok in H as (? & _ & H).
  destruct (touches_ok id m2 m' Hm2) as [Hm3 F3]; [by eapply commit_touches|].
  split; [done|]. intros j Hj. by rewrite F3, F2.
Qed.

Lemma config_req_ok m c s mb rm rb m' : mgr_ok m -> rrc_rlc_config_req m c s mb rm rb = Ok m' ->
  mgr_ok m' /\ forall j, j <> s32 (rntiMaybeUEid c) -> find_ue (ue_list m') j = find_ue (ue_list m) j.
Proof.
  intros Hm H. unfold rrc_rlc_config_req in H. do 4 (case_if_in H; [done|]).
  destruct (nr_rlc_manager_get_ue m _) as [u m1] eqn:G. apply bind_ok in H as (v & D & H).
  destruct (touches_ok (s32 (rntiMaybeUEid c)) m (store_ue m1 (s32 (rntiMaybeUEid c)) v) Hm) as [Hm2 F2].
  { eapply store_touches; [done|done|]. by eapply delete_at_ok. }
  case_if_in H; [|inv_res; done]. destruct (remove_ok _ _ _ Hm2 H) as [Hm3 F3]. split; [done|].
  intros j Hj. by rewrite F3, F2.
Qed.

(** A step keeps the invariant and the UEs it does not concern. *)
Lemma api_step_ok m op m' : mgr_ok m -> op_ok m op -> api_step m op = Ok m' ->
  mgr_ok m' /\ forall j, ~ concerns op j -> find_ue (ue_list m') j = find_ue (ue_list m) j.
Proof.
  intros Hm Hop H.
  assert (T : forall id, subject op = Some id ->
    (mgr_ok m' /\ forall j, j <> id -> find_ue (ue_list m') j = find_ue (ue_list m) j) ->
    mgr_ok m' /\ forall j, ~ concerns op j -> find_ue (ue_list m') j = find_ue (ue_list m) j).
  { intros id E [A B]. split; [done|]. intros j Hj. apply B. intros ->. apply Hj. by left. }
  destruct op; cbn [api_step] in H;
    try (apply bind_ok in H as ([? ?] & H & R); repeat (case_match; subst); apply mret_ok in R as <-).
  all: try (eapply T; [reflexivity|]; eapply touches_ok; [done|]; solve
    [eauto using data_ind_touches, data_req_touches, status_ind_touches, tx_space_touches, sdu_req_touches, srb_sdu_touches,
       add_srb_touches, add_drb_touches, activate_srb0_touches, reconfigure_touches, reestablish_touches, release_touches,
       avg_time_touches, statistics_touches]).
  all: try (eapply T; [reflexivity|]; solve [eauto using trigger_ok, config_req_ok, remove_ok]).
  - unfold mac_rlc_get_buffer_occupancy_ind in H. case_if_in H; [done|]. eapply T; [reflexivity|].
    rewrite <- (tick_list m frame subframe). pose proof (mgr_ok_list m _ (tick_list m frame subframe) Hm).
    eapply touches_ok; [done|]. by eapply status_ind_touches.
  - apply Ok_inj in H as <-. eapply T; [reflexivity|]. eapply touches_ok, set_rlf_touches; done.
  - apply Ok_inj in H as <-. eapply T; [reflexivity|]. eapply touches_ok; [done|]. unfold nr_rlc_get_lcid_from_rb.
    destruct (nr_rlc_manager_get_ue m id) as [u m1] eqn:G. by eapply get_touches.
  - destruct (update_id_ok _ _ _ _ _ Hm Hop H) as [A B]. split; [done|]. intros j Hj. apply B; intros ->; apply Hj; [by left|].
    right. eauto.
  - apply Ok_inj in H as <-. rewrite tick_list. split; [|done]. by apply (mgr_ok_list m), Hm; apply tick_list.
Qed.

(** In a well-formed UE a logical channel up to 32 always has an answer. *)
Lemma lcid_in_bounds u lcid : ue_ok u -> 0 <= lcid <= 32 -> exists o, get_rlc_entity_from_lcid u lcid = Ok o.
Proof.
  intros [Hs Hd Hl Hr] Hc. unfold get_rlc_entity_from_lcid, loc_of_lcid. case_if; [mon; by eexists|]. bool_prop.
  destruct (rd_ok (lcid2rb u) (lcid - 1)) as (rb & R & L); [lia|]. rewrite R, bind_Ok.
  rewrite Forall_forall in Hr. specialize (Hr rb). pose proof (Hr (list_elem_of_lookup_2 _ _ _ L)) as Hb. unfold rb_ok in Hb.
  destruct (rb_type rb); [mon; by eexists| |].
  - rewrite Z.gtb_ltb, (proj2 (Z.ltb_lt 0 _)) by lia. rewrite bind_Ok. unfold located, entity_at.
    destruct (rd_ok (srb u) (choice rb - 1)) as (o & -> & _); [lia|]. mon. by eexists.
  - mon. unfold located, entity_at.
    destruct (rd_ok (drb u) (choice rb - 1)) as (o & -> & _); [lia|]. mon. by eexists.
Qed.

(** ** Properties *)

(** One entry point, called as the other layers call it. *)
Definition mgr_step (m m' : rlc_state) : Prop := exists op, op_ok m op /\ api_step m op = Ok m'.

Lemma mgr_reach_ok enb cu du f1 m : rtc mgr_step (new_nr_rlc_ue_manager enb cu du f1) m -> mgr_ok m.
Proof.
  intros H. assert (G : mgr_ok (new_nr_rlc_ue_manager enb cu du f1)) by (split; constructor). revert G.
  induction H as [|m1 m2 m3 (op & Ho & Hs) _ IH]; [done|]. intros G. apply IH. by eapply api_step_ok.
Qed.


Definition demo_um_bearer (lcid drb_id : Z) : NR_RLC_BearerConfig_t :=
  mk_bearer lcid (Some (PR_drb_Identity drb_id)) (Some (PR_um_Bi_Directional (mk_um_cfg (Some 1) 7 (Some 1)))).

(** Two UEs, one of them with a UM bearer. *)
Definition demo_ops : list api_op := [AddDrb 5 1 (demo_um_bearer 4 1); ActivateSrb0 6 0 0].

Definition demo_state : rlc_state :=
  match api_run (new_nr_rlc_ue_manager false false false None) demo_ops with Ok m => m | Err _ => new_nr_rlc_ue_manager false false false None end.


(** ** SRB3 *)

Definition srb_bearer (srb_id : Z) : NR_RLC_BearerConfig_t := mk_bearer srb_id (Some (PR_srb_Identity srb_id)) None.

(** A signalling bearer is set up with the default parameters, one SDU is sent on it, and the
    peer acknowledges it. *)
Definition acknowledged_srb (srb_id : Z) : list api_op :=
  [AddSrb 5 srb_id (srb_bearer srb_id); SrbSdu 5 srb_id [1; 2; 3] 3 0; DataReq 5 srb_id 20 (replicate 20 0) 0;
   DataInd 5 0 false srb_id [0; 1; 0] 3].

(** The bearers SRB1 and SRB2 work; on SRB3, which [nr_rlc_add_srb] accepts as well, the first
    acknowledgement stops the process: [successful_delivery] looks for the entity among the
    first two SRBs and the DRBs only. *)
Theorem rlc_srb3_acknowledgement_exits enb cu du f1 :
  (forall srb_id, srb_id = 1 \/ srb_id = 2 -> exists m,
     api_run (new_nr_rlc_ue_manager enb cu du f1) (acknowledged_srb srb_id) = Ok m) /\
  (exists m, api_run (new_nr_rlc_ue_manager enb cu du f1) (take 3 (acknowledged_srb 3)) = Ok m) /\
  api_run (new_nr_rlc_ue_manager enb cu du f1) (acknowledged_srb 3) = Err Exit.
Proof.
  split; [|split].
  - intros srb_id [->| ->]; eexists; vm_compute; reflexivity.
  - eexists; vm_compute; reflexivity.
  - vm_compute. reflexivity.
Qed.

Lemma rlc_srb3_acknowledgement_exits_witness : exists m,
  api_run (new_nr_rlc_ue_manager true false false None) (acknowledged_srb 2) = Ok m.
Proof. apply (rlc_srb3_acknowledgement_exits true false false None). by right. Defined.
