(* ===== verification/RlcApiUm.v ===== *)
(** * A UM bearer behind the RLC interface

    What [rlc_data_req], [mac_rlc_data_req] and [mac_rlc_data_ind] do on a bearer in
    unacknowledged mode, in terms of the operations of its entity; and the bearer of one
    node together with that of its peer. *)

From S2P Require Import Prelude RlcPdu RlcSdu TimeStat RlcEntity RlcRx RlcTm RlcUm RlcUmLink RlcAm RlcAmEntity RlcBearer.
From S2P Require Import Sdap WorkQueue F1Ids RlcApi RlcApiProps.
Import RlcApi.

(** ** The sending side makes no callback *)

Lemma time_average_calls c d now c' : time_average_tx c d now = Ok c' -> RlcEntity.calls c' = RlcEntity.calls c.
Proof. unfold time_average_tx. case_if; intros H; inv_res; done. Qed.

Lemma send_segment_calls e s b n now r b' e' : Um.send_segment e s b n now = Ok (r, b', e') ->
  RlcEntity.calls (Um.common e') = RlcEntity.calls (Um.common e).
Proof.
  intros H. unfold Um.send_segment in H. apply bind_ok in H as ([? ?] & _ & H). apply bind_ok in H as (d & _ & H).
  apply bind_ok in H as (c & T & H). apply bind_ok in H as ([? ?] & _ & H). inv_res.
  apply time_average_calls in T. cbn. rewrite T. by case_if.
Qed.

Lemma resegment_calls s e n r e' : Um.resegment s e n = Ok (r, e') ->
  RlcEntity.calls (Um.common e') = RlcEntity.calls (Um.common e).
Proof.
  intros H. unfold Um.resegment in H. apply bind_ok in H as (h & _ & H). case_if_in H; inv_res; [done|].
  destruct (heap_alloc _) in H. by inv_res.
Qed.

Lemma um_generate_calls e b n now r b' e' : Um.nr_rlc_entity_um_generate_pdu e b n now = Ok (r, b', e') ->
  RlcEntity.calls (Um.common e') = RlcEntity.calls (Um.common e).
Proof.
  unfold Um.nr_rlc_entity_um_generate_pdu, Um.generate_tx_pdu. destruct (Um.tx_list e) as [|s l]; [by intros; inv_res|].
  case_if; [by intros; inv_res|]. intros H. apply bind_ok in H as (h & _ & H). case_if_in H.
  - apply bind_ok in H as ([[[s1 s2]|] e1] & R & H); apply resegment_calls in R.
    + apply send_segment_calls in H. rewrite H. cbn. destruct (Um.tx_end _); cbn; rewrite R; by destruct l.
    + inv_res. rewrite R. by destruct l.
  - apply send_segment_calls in H. rewrite H. by destruct l.
Qed.

Lemma um_recv_sdu_calls e b n id now e' : Um.nr_rlc_entity_um_recv_sdu e b n id now = Ok e' ->
  RlcEntity.calls (Um.common e') = RlcEntity.calls (Um.common e).
Proof.
  unfold Um.nr_rlc_entity_um_recv_sdu. case_if; [done|].
  match goal with |- context [if ?c then (Um.stat ?f e) <| Um.sdu_rejected := 0 |> <| Um.t_log_buffer_full := _ |> else _] =>
    set (e1 := if c then _ else _) end.
  assert (C : Um.common e1 = Um.common (Um.stat (fun s => s <| rxsdu_pkts ::= add32 1 |> <| rxsdu_bytes ::= add64 n |>) e))
    by (unfold e1; by case_if).
  clearbody e1. case_if; [intros; inv_res; cbn; by rewrite C|]. intros H.
  apply bind_ok in H as ([? ?] & _ & H). apply bind_ok in H as ([? ?] & _ & H).
  case_if_in H; inv_res; cbn; by rewrite C.
Qed.

(** ** The bearer in the table *)

Record has_um (m : rlc_state) (id lcid rb : Z) (e : Um.nr_rlc_entity_um_t) : Prop := {
  hu_lcid : 1 <= lcid <= 32;
  hu_rb : 1 <= rb <= Sdap.MAX_DRBS_PER_UE;
  hu_ue : exists u, find_ue (ue_list m) id = Some u /\ lcid2rb u !! Z.to_nat (lcid - 1) = Some (mk_rb NR_RLC_DRB rb) /\
          drb u !! Z.to_nat (rb - 1) = Some (Some (UM e)) }.

(** The rest of the manager's state. *)
Definition env (m : rlc_state) := (mgr_enb_flag m, node_is_cu m, node_is_du m, f1_du m, current_time m).

Lemma put_find_eq l id u v : find_ue l id = Some u -> ue_id v = id -> find_ue (put_ue l id v) id = Some v.
Proof.
  intros F E. induction l as [|w l IH]; [done|]. cbn in *. destruct (Z.eqb_spec (ue_id w) id) as [Ew|Ew]; cbn.
  - by rewrite E, Z.eqb_refl.
  - rewrite (proj2 (Z.eqb_neq _ _) Ew). auto.
Qed.

Lemma has_um_commit m id lcid rb e e' u : has_um m id lcid rb e -> find_ue (ue_list m) id = Some u ->
  exists m1 u1, commit m u (LocDrb (rb - 1)) (UM e) (UM e') =
      run_calls m1 u1 (LocDrb (rb - 1))
        (drop (length (RlcEntity.calls (Um.common e))) (RlcEntity.calls (Um.common e'))) /\
    has_um m1 id lcid rb e' /\ ue_id u1 = id /\ env m1 = env m /\ r_out m1 = r_out m.
Proof.
  intros [Hl Hr (v & F & L & D)] F'. rewrite F in F'. injection F' as ->. destruct (find_ids _ _ _ F) as [Ei _].
  unfold commit, put_entity. apply lookup_lt_Some in D as Dl. rewrite wr_ok by (unfold zlen; lia). mon.
  eexists _, _. split; [reflexivity|]. split_and!; [|done|done|done].
  constructor; [done|done|]. eexists. split; [cbn; rewrite Ei; by eapply put_find_eq|]. cbn. split; [done|].
  by apply list_lookup_insert_eq.
Qed.

Lemma lcid_um m id lcid rb e u : has_um m id lcid rb e -> find_ue (ue_list m) id = Some u ->
  get_rlc_entity_from_lcid u lcid = Ok (Some (LocDrb (rb - 1), UM e)).
Proof.
  intros [Hl Hr (v & F & L & D)] F'. rewrite F in F'. injection F' as ->.
  unfold get_rlc_entity_from_lcid, loc_of_lcid. rewrite (proj2 (Z.eqb_neq lcid 0)) by lia.
  rewrite (rd_Some _ (lcid - 1) _ ltac:(lia) L). mon. cbn [rb_type choice]. mon. unfold located, entity_at. rewrite (rd_Some _ (rb - 1) _ ltac:(lia) D). done.
Qed.

Lemma get_known m id u : find_ue (ue_list m) id = Some u -> nr_rlc_manager_get_ue m id = (u, m).
Proof. intros F. unfold nr_rlc_manager_get_ue. by rewrite F. Qed.

(** [mac_rlc_data_req] and [rlc_data_req], which make no callback. *)
Lemma data_req_um m id lcid rb e size buf now e1 r b e2 : has_um m id lcid rb e -> 0 <= id < 2 ^ 16 ->
  Um.nr_rlc_entity_um_set_time e (current_time m) = Ok e1 -> RlcEntity.calls (Um.common e1) = RlcEntity.calls (Um.common e) ->
  Um.nr_rlc_entity_um_generate_pdu e1 buf size now = Ok (r, b, e2) ->
  exists m', mac_rlc_data_req m id lcid size buf now = Ok (r, b, m') /\ has_um m' id lcid rb e2 /\
    env m' = env m /\ r_out m' = r_out m.
Proof.
  intros H Hid T C G. pose proof H as [_ _ (u & F & _ & _)]. unfold mac_rlc_data_req, u16.
  rewrite (Z.mod_small id) by done. rewrite (get_known m id u F), (lcid_um _ _ _ _ _ _ H F), bind_Ok.
  unfold set_time_then. cbn [op_set_time entity_ops dispatch_upd um_ops]. rewrite T. mon.
  cbn [op_generate_pdu entity_ops um_ops]. rewrite G. mon.
  destruct (has_um_commit m id lcid rb e e2 u H F) as (m1 & u1 & -> & H1 & _ & E1 & R1).
  rewrite (um_generate_calls _ _ _ _ _ _ _ G), C, drop_all. mon. by exists m1.
Qed.

Lemma sdu_req_um m id lcid rb e ctxt mui size sdu now e1 e2 : has_um m id lcid rb e -> s32 (rntiMaybeUEid ctxt) = id ->
  Um.nr_rlc_entity_um_set_time e (current_time m) = Ok e1 -> RlcEntity.calls (Um.common e1) = RlcEntity.calls (Um.common e) ->
  Um.nr_rlc_entity_um_recv_sdu e1 sdu size mui now = Ok e2 ->
  exists m', rlc_data_req m ctxt false rb mui size sdu now = Ok m' /\ has_um m' id lcid rb e2 /\
    env m' = env m /\ r_out m' = r_out m.
Proof.
  intros H Hid T C G. pose proof H as [_ Hr (u & F & _ & D)]. unfold rlc_data_req. rewrite Hid, (get_known m id u F).
  unfold rb_of_id. rewrite Z.geb_leb, !(proj2 (Z.leb_le _ _)) by lia. cbn [andb].
  unfold located, entity_at. rewrite (rd_Some _ (rb - 1) _ ltac:(lia) D). mon.
  unfold set_time_then. cbn [op_set_time entity_ops dispatch_upd um_ops]. rewrite T. mon.
  cbn [op_recv_sdu entity_ops dispatch_upd um_ops]. rewrite G. mon.
  destruct (has_um_commit m id lcid rb e e2 u H F) as (m1 & u1 & -> & H1 & _ & E1 & R1).
  rewrite (um_recv_sdu_calls _ _ _ _ _ _ G), C, drop_all. mon. by exists m1.
Qed.

(** ** Delivery to PDCP *)

(** The UE's identifier in PDCP: on a monolithic gNB from the F1 table. *)
Definition pdcp_ue (m : rlc_state) (id id' : Z) : Prop :=
  if mgr_enb_flag m then
    node_is_cu m = false /\ node_is_du m = false /\
    exists d, F1.du_get_f1_ue_data (f1_du m) id = Ok d /\ F1.secondary_ue d = id'
  else u64 id = id'.

Lemma pdcp_ue_env m m' id id' : env m' = env m -> pdcp_ue m id id' -> pdcp_ue m' id id'.
Proof. unfold env, pdcp_ue. intros [= -> -> -> -> _]. done. Qed.

Definition data_ind (enb : bool) (id' rb : Z) (sdu : bytes) : pdcp_data_ind_queue_item :=
  mk_pdcp_item (mk_ctxt 0 enb 0 id' 0 false) false false rb (zlen sdu) sdu.

Lemma run_delivers m u rb id' l : pdcp_ue m (ue_id u) id' ->
  run_calls m u (LocDrb (rb - 1)) (DeliverSdu <$> l) =
    Ok (m <| r_out ::= fun o => o ++ (PdcpDataInd <$> (data_ind (mgr_enb_flag m) id' rb <$> l)) |>).
Proof.
  revert m. induction l as [|sdu l IH]; intros m H; [cbn; rewrite app_nil_r; by destruct m|].
  rewrite !fmap_cons. cbn [run_calls]. unfold run_call, deliver_sdu, nr_rlc_manager_get_enb_flag.
  assert (E : (id ← (if mgr_enb_flag m then d ← F1.du_get_f1_ue_data (f1_du m) (ue_id u); mret (F1.secondary_ue d)
                     else mret (u64 (ue_id u)) : res Z);
              (mret (id, mgr_enb_flag m && node_is_cu m, mgr_enb_flag m && node_is_du m) : res _)) = Ok (id', false, false)).
  { unfold pdcp_ue in H. destruct (mgr_enb_flag m); [|mon; by rewrite H].
    destruct H as (-> & -> & d & -> & <-). done. }
  apply bind_ok in E as (id & E1 & E2). apply mret_ok in E2. injection E2 as -> E2 E3. rewrite E1, bind_Ok, E2, E3. mon.
  replace (rb - 1 + 1) with rb by lia. rewrite IH by by apply (pdcp_ue_env m). cbn. by rewrite <- app_assoc.
Qed.

Lemma data_ind_um m id id' lcid rb e buf size e1 e2 l : has_um m id lcid rb e -> 0 <= id < 2 ^ 16 -> pdcp_ue m id id' ->
  Um.nr_rlc_entity_um_set_time e (current_time m) = Ok e1 ->
  Um.nr_rlc_entity_um_recv_pdu e1 buf size = Ok e2 ->
  RlcEntity.calls (Um.common e2) = RlcEntity.calls (Um.common e) ++ (DeliverSdu <$> l) ->
  exists m', mac_rlc_data_ind m id 0 false lcid buf size = Ok m' /\ has_um m' id lcid rb e2 /\ env m' = env m /\
    r_out m' = r_out m ++ (PdcpDataInd <$> (data_ind (mgr_enb_flag m) id' rb <$> l)).
Proof.
  intros H Hid Hu T G C. pose proof H as [_ _ (u & F & _ & _)]. unfold mac_rlc_data_ind, u16.
  change (negb (0 =? 0) || false) with false. cbv iota.
  rewrite (Z.mod_small id) by done. rewrite (get_known m id u F), (lcid_um _ _ _ _ _ _ H F), bind_Ok.
  unfold set_time_then. cbn [op_set_time entity_ops dispatch_upd um_ops]. rewrite T. mon.
  cbn [op_recv_pdu entity_ops dispatch_upd um_ops]. rewrite G. mon.
  destruct (has_um_commit m id lcid rb e e2 u H F) as (m1 & u1 & -> & H1 & I1 & E1 & R1).
  rewrite C, drop_app_length, (run_delivers m1 u1 rb id') by (rewrite I1; by apply (pdcp_ue_env m)).
  assert (Ef : mgr_enb_flag m1 = mgr_enb_flag m) by (injection E1; congruence).
  eexists. split; [reflexivity|]. split_and!; [by destruct H1|done|cbn; by rewrite R1, Ef].
Qed.
