(* ===== verification/PdcpApi.v ===== *)
(** * PDCP: UE manager and interface to the other layers

    [nr_pdcp_ue_manager.c], the entry points of [nr_pdcp_oai_api.c] and [asn1_utils.c], and
    the work of [nr_pdcp_timer_thread].  Every entry point holds the manager's lock from its
    lookup to its last change of an entity, so each is one step here.  An entity's
    [deliver_sdu] callbacks are run in order after the entity's own change; they only reach
    its transmission side. *)

From S2P Require Import Prelude Security Pdcp Sdap WorkQueue F1Ids.
Import Pdcp.

#[local] Existing Instance Sdap.eta_world.

Definition LONG_SN_SIZE : Z := 18.

(** ** asn1_utils.c *)

Definition decode_t_reordering (v : Z) : res Z :=
  decode_table [0; 1; 2; 4; 5; 8; 10; 15; 20; 30; 40; 50; 60; 80; 100; 120; 140; 160; 180; 200; 220; 240; 260; 280;
                300; 500; 750; 1000; 1250; 1500; 1750; 2000; 2250; 2500; 2750; 3000] v.

Definition decode_sn_size_ul (s : Z) : res Z :=
  if s =? 0 then mret SHORT_SN_SIZE else if s =? 1 then mret LONG_SN_SIZE else Err Exit.

Definition decode_sn_size_dl (s : Z) : res Z :=
  if s =? 0 then mret SHORT_SN_SIZE else if s =? 1 then mret LONG_SN_SIZE else Err Exit.

Definition decode_discard_timer (v : Z) : res Z :=
  decode_table [10; 20; 30; 40; 50; 60; 75; 100; 150; 200; 250; 300; 500; 750; 1500; -1] v.

Section Api.
Context {O : Openssl}.

(** ** The UE manager *)

Record nr_pdcp_ue_t := mk_ue {
  ue_id : Z;
  srb : list (option nr_pdcp_entity_t);        (** 3 *)
  drb : list (option nr_pdcp_entity_t) (** [MAX_DRBS_PER_UE] *) }.

#[export] Instance eta_ue : Eta nr_pdcp_ue_t := fun u => mk_ue (ue_id u) (srb u) (drb u).

(** What leaves PDCP: RLC requests (queued), GTP-U, F1 and RRC messages, and SRB PDUs given
    to the caller's callback. *)
Inductive pdcp_out :=
| RlcDataReq (r : rlc_data_req_queue_item)
| GtpuTunnelDataReq (ue bearer : Z) (pdu : bytes)
| F1apUlRrc (cu_ue du_ue srb_id : Z) (sdu : bytes)
| RrcDcchDataInd (ue dcch : Z) (sdu : bytes) (mi : nr_pdcp_integrity_data_t)
| SrbPdu (ue srb_id mui : Z) (pdu : bytes).

(** [ue_list] and [ue_count], the clock of [nr_pdcp_tick] and of the timer thread, and the
    settings the callbacks look at. *)
Record pdcp_state := mk_state {
  ue_list : list nr_pdcp_ue_t;
  mgr_enb_flag : bool;
  node_is_cu : bool;
  nas_tun : bool;                       (** [IS_SOFTMODEM_NOS1 || UE_NAS_USE_TUN] *)
  f1_cu : F1.table;
  current_time : Z;
  last_frame : Z;
  last_subframe : Z;
  timer_curtime : Z;
  p_out : list pdcp_out }.

#[export] Instance eta_state : Eta pdcp_state := fun s =>
  mk_state (ue_list s) (mgr_enb_flag s) (node_is_cu s) (nas_tun s) (f1_cu s) (current_time s) (last_frame s)
    (last_subframe s) (timer_curtime s) (p_out s).

Definition new_nr_pdcp_ue_manager (enb cu tun : bool) (f1 : F1.table) : pdcp_state :=
  mk_state [] enb cu tun f1 0 0 0 0 [].

Definition nr_pdcp_manager_get_enb_flag (m : pdcp_state) : bool := mgr_enb_flag m.

Fixpoint find_ue (l : list nr_pdcp_ue_t) (id : Z) : option nr_pdcp_ue_t :=
  match l with
  | [] => None
  | u :: l => if ue_id u =? id then Some u else find_ue l id
  end.

Definition new_ue (id : Z) : nr_pdcp_ue_t :=
  mk_ue id (replicate 3 None) (replicate (Z.to_nat Sdap.MAX_DRBS_PER_UE) None).

(** An unknown UE is added. *)
Definition nr_pdcp_manager_get_ue (m : pdcp_state) (id : Z) : nr_pdcp_ue_t * pdcp_state :=
  match find_ue (ue_list m) id with
  | Some u => (u, m)
  | None => (new_ue id, m <| ue_list ::= fun l => l ++ [new_ue id] |>)
  end.

(** Writing through the pointer [nr_pdcp_manager_get_ue] returned. *)
Fixpoint put_ue (l : list nr_pdcp_ue_t) (u : nr_pdcp_ue_t) : list nr_pdcp_ue_t :=
  match l with
  | [] => []
  | v :: l => if ue_id v =? ue_id u then u :: l else v :: put_ue l u
  end.

Fixpoint remove_ue (l : list nr_pdcp_ue_t) (id : Z) : list nr_pdcp_ue_t :=
  match l with
  | [] => []
  | u :: l => if ue_id u =? id then l else u :: remove_ue l id
  end.

(** The entities of the UE are deleted with it. *)
Definition nr_pdcp_manager_remove_ue (m : pdcp_state) (id : Z) : pdcp_state :=
  m <| ue_list ::= fun l => remove_ue l id |>.

Definition nr_pdcp_ue_add_srb_pdcp_entity (u : nr_pdcp_ue_t) (srb_id : Z) (e : nr_pdcp_entity_t) : res nr_pdcp_ue_t :=
  if (srb_id <? 1) || (srb_id >? 2) then Err Exit
  else
    o ← rd (srb u) (srb_id - 1);
    match o with
    | Some _ => Err Exit
    | None => l ← wr (srb u) (srb_id - 1) (Some e); mret (u <| srb := l |>)
    end.

Definition nr_pdcp_ue_add_drb_pdcp_entity (u : nr_pdcp_ue_t) (drb_id : Z) (e : nr_pdcp_entity_t) : res nr_pdcp_ue_t :=
  if (drb_id <? 1) || (drb_id >? 5) then Err Exit
  else
    o ← rd (drb u) (drb_id - 1);
    match o with
    | Some _ => Err Exit
    | None => l ← wr (drb u) (drb_id - 1) (Some e); mret (u <| drb := l |>)
    end.

Definition nr_pdcp_manager_get_ue_count (m : pdcp_state) : Z := zlen (ue_list m).

Definition nr_pdcp_get_first_ue_id (m : pdcp_state) : option Z :=
  match ue_list m with [] => None | u :: _ => Some (ue_id u) end.

Definition nr_pdcp_get_rb (u : nr_pdcp_ue_t) (rb_id : Z) (srb_flag : bool) : res (option nr_pdcp_entity_t) :=
  if srb_flag then
    if (rb_id <? 1) || (rb_id >? 2) then mret None else rd (srb u) (rb_id - 1)
  else
    if (rb_id <? 1) || (rb_id >? Sdap.MAX_DRBS_PER_UE) then mret None else rd (drb u) (rb_id - 1).

(** Writing through the pointer [nr_pdcp_get_rb] returned. *)
Definition set_rb (u : nr_pdcp_ue_t) (rb_id : Z) (srb_flag : bool) (e : option nr_pdcp_entity_t) : res nr_pdcp_ue_t :=
  if srb_flag then l ← wr (srb u) (rb_id - 1) e; mret (u <| srb := l |>)
  else l ← wr (drb u) (rb_id - 1) e; mret (u <| drb := l |>).

(** ** Sending *)

Definition deliver_pdu_drb_ue (m : pdcp_state) (ue rb_id : Z) (buf : bytes) (sdu_id : Z) : pdcp_state :=
  m <| p_out ::= fun o => o ++ [RlcDataReq (mk_rlc_item (mk_ctxt 0 false 0 ue 0 false) false false rb_id sdu_id 0 (zlen buf) buf)] |>.

Definition deliver_pdu_drb_gnb (m : pdcp_state) (ue rb_id : Z) (buf : bytes) (sdu_id : Z) : res pdcp_state :=
  d ← F1.cu_get_f1_ue_data (f1_cu m) ue;
  if node_is_cu m then mret (m <| p_out ::= fun o => o ++ [GtpuTunnelDataReq ue rb_id buf] |>)
  else
    mret (m <| p_out ::= fun o => o ++ [RlcDataReq (mk_rlc_item (mk_ctxt 0 true 0 (F1.secondary_ue d) 0 false)
                                            false false rb_id sdu_id 0 (zlen buf) buf)] |>).

Definition deliver_pdu_srb_rlc (m : pdcp_state) (ue srb_id : Z) (buf : bytes) (sdu_id : Z) : pdcp_state :=
  m <| p_out ::= fun o => o ++ [RlcDataReq (mk_rlc_item (mk_ctxt 0 true 0 ue 0 false) true false srb_id sdu_id 0 (zlen buf) buf)] |>.

(** The context values every request must have. *)
Definition ctxt_ok (c : protocol_ctxt_t) : bool := (module_id c =? 0) && (instance c =? 0) && (eNB_index c =? 0).

(** [pdu_buf] is a local array; every byte of the PDU is written. *)
Definition nr_pdcp_data_req_drb (m : pdcp_state) (ctxt : protocol_ctxt_t) (srb_flag : bool) (rb_id mui size : Z)
    (sdu_buffer : bytes) : res (bool * pdcp_state) :=
  if srb_flag then Err Exit
  else if negb (ctxt_ok ctxt) then Err Exit
  else
    let id := rntiMaybeUEid ctxt in
    let '(u, m) := nr_pdcp_manager_get_ue m id in
    o ← nr_pdcp_get_rb u rb_id false;
    match o with
    | None => mret (false, m)
    | Some rb =>
        let max_size := nr_max_pdcp_pdu_size size in
        '(pdu_size, pdu_buf, rb) ← nr_pdcp_entity_process_sdu rb sdu_buffer size mui (replicate (Z.to_nat max_size) 0) max_size;
        u ← set_rb u rb_id false (Some rb);
        let m := m <| ue_list ::= fun l => put_ue l u |> in
        if pdu_size =? -1 then mret (false, m)
        else
          pdu ← slice pdu_buf 0 pdu_size;
          m ← (if is_gnb rb then deliver_pdu_drb_gnb m id rb_id pdu mui else mret (deliver_pdu_drb_ue m id rb_id pdu mui));
          mret (true, m)
    end.

#[export] Instance pdcp_service : PdcpService pdcp_state := nr_pdcp_data_req_drb.

Definition nr_pdcp_data_req_srb (m : pdcp_state) (id rb_id mui size : Z) (sdu_buffer : bytes) : res (bool * pdcp_state) :=
  let '(u, m) := nr_pdcp_manager_get_ue m id in
  o ← nr_pdcp_get_rb u rb_id true;
  match o with
  | None => mret (false, m)
  | Some rb =>
      let max_size := nr_max_pdcp_pdu_size size in
      '(pdu_size, pdu_buf, rb) ← nr_pdcp_entity_process_sdu rb sdu_buffer size mui (replicate (Z.to_nat max_size) 0) max_size;
      u ← set_rb u rb_id true (Some rb);
      let m := m <| ue_list ::= fun l => put_ue l u |> in
      if pdu_size =? -1 then mret (false, m)
      else
        pdu ← slice pdu_buf 0 pdu_size;
        mret (true, m <| p_out ::= fun o => o ++ [SrbPdu id rb_id mui pdu] |>)
  end.

(** ** Delivering *)

Definition world := @Sdap.world pdcp_state.

Definition deliver_sdu_drb (w : world) (id rb_id : Z) (e : nr_pdcp_entity_t) (buf : bytes) (size : Z) : res world :=
  if nas_tun (Sdap.pdcp w)
  then Sdap.sdap_data_ind w (Pdcp.rb_id e) false (has_sdap_rx e) (pdusession_id e) id buf size
  else Sdap.sdap_data_ind w rb_id (is_gnb e) (has_sdap_rx e) (pdusession_id e) id buf size.

Definition deliver_sdu_srb (w : world) (id srb_id : Z) (e : nr_pdcp_entity_t) (buf : bytes)
    (mi : nr_pdcp_integrity_data_t) : res world :=
  let m := Sdap.pdcp w in
  if is_gnb e then
    d ← F1.cu_get_f1_ue_data (f1_cu m) id;
    mret (w <| Sdap.pdcp := m <| p_out ::= fun o => o ++ [F1apUlRrc id (F1.secondary_ue d) srb_id buf] |> |>)
  else mret (w <| Sdap.pdcp := m <| p_out ::= fun o => o ++ [RrcDcchDataInd id srb_id buf mi] |> |>).

(** The callbacks of the SDUs an operation has delivered. *)
Fixpoint deliver_sdus (w : world) (id rb_id : Z) (srb_flag : bool) (e : nr_pdcp_entity_t) (l : list nr_pdcp_sdu_t) : res world :=
  match l with
  | [] => mret w
  | s :: l =>
      w ← (if srb_flag then deliver_sdu_srb w id rb_id e (ps_buffer s) (ps_integrity s)
           else deliver_sdu_drb w id rb_id e (ps_buffer s) (ps_size s));
      deliver_sdus w id rb_id srb_flag e l
  end.

(** What an operation on one radio bearer leaves behind: the entity and its deliveries. *)
Definition commit (w : world) (u : nr_pdcp_ue_t) (rb_id : Z) (srb_flag : bool) (old new : nr_pdcp_entity_t) : res world :=
  u ← set_rb u rb_id srb_flag (Some new);
  deliver_sdus (w <| Sdap.pdcp ::= fun m => m <| ue_list ::= fun l => put_ue l u |> |>)
    (ue_id u) rb_id srb_flag new (drop (length (delivered old)) (delivered new)).

(** Lookup, operation, commit; nothing for a missing bearer. *)
Definition on_rb (w : world) (id rb_id : Z) (srb_flag : bool)
    (f : nr_pdcp_entity_t -> res nr_pdcp_entity_t) : res world :=
  let '(u, m) := nr_pdcp_manager_get_ue (Sdap.pdcp w) id in
  let w := w <| Sdap.pdcp := m |> in
  o ← nr_pdcp_get_rb u rb_id srb_flag;
  match o with
  | None => mret w
  | Some rb => rb' ← f rb; commit w u rb_id srb_flag rb rb'
  end.

Definition do_pdcp_data_ind (w : world) (ctxt : protocol_ctxt_t) (srb_flag : bool) (rb_id size : Z) (sdu_buffer : bytes) : res world :=
  if negb (ctxt_ok ctxt && negb (brOption ctxt)) then Err Exit
  else on_rb w (rntiMaybeUEid ctxt) rb_id srb_flag (fun rb => nr_pdcp_entity_recv_pdu rb sdu_buffer size).

(** ** Configuration *)

Record NR_PDCP_drb_config := mk_drb_config {
  discardTimer : option Z;
  pdcp_SN_SizeUL : option Z;
  pdcp_SN_SizeDL : option Z;
  integrityProtection : bool                 (** present *) }.

Record NR_PDCP_Config_t := mk_pdcp_config {
  cfg_t_Reordering : option Z;
  cfg_drb : option NR_PDCP_drb_config;
  cfg_cipheringDisabled : bool               (** [ext1] present with [cipheringDisabled] *) }.

Inductive cnAssociation_t :=
| cn_nothing
| cn_eps_BearerIdentity (id : Z)
| cn_sdap_Config (c : option Sdap.NR_SDAP_Config_t).

Record NR_SRB_ToAddMod := mk_srb_add { srb_Identity : Z; srb_pdcp_Config : option NR_PDCP_Config_t }.

Record NR_DRB_ToAddMod := mk_drb_add {
  drb_Identity : Z; drb_pdcp_Config : option NR_PDCP_Config_t; cnAssociation : option cnAssociation_t }.

Definition t_reordering_of (t : option Z) : res Z := match t with Some v => decode_t_reordering v | None => mret (-1) end.

Definition add_srb (w : world) (is_gnb : bool) (id : Z) (s : NR_SRB_ToAddMod)
    (p : nr_pdcp_entity_security_keys_and_algos_t) : res world :=
  t ← t_reordering_of (c ← srb_pdcp_Config s; cfg_t_Reordering c);
  let '(u, m) := nr_pdcp_manager_get_ue (Sdap.pdcp w) id in
  o ← nr_pdcp_get_rb u (srb_Identity s) true;
  match o with
  | Some _ => mret (w <| Sdap.pdcp := m |>)
  | None =>
      e ← new_nr_pdcp_entity NR_PDCP_SRB is_gnb (srb_Identity s) 0 false false SHORT_SN_SIZE t (-1) p;
      u ← nr_pdcp_ue_add_srb_pdcp_entity u (srb_Identity s) e;
      mret (w <| Sdap.pdcp := m <| ue_list ::= fun l => put_ue l u |> |>)
  end.

(** What [add_drb] takes from [cnAssociation] (lines 879 to 901): PDU session, header flags,
    default bearer and mapped flows. *)
Definition drb_sdap (is_gnb : bool) (s : NR_DRB_ToAddMod) : res (Z * bool * bool * bool * list Z * Z) :=
  match cnAssociation s with
  | None | Some cn_nothing => Err Exit
  | Some (cn_eps_BearerIdentity n) => mret (n, false, false, false, [], 0)
  | Some (cn_sdap_Config None) => Err Exit
  | Some (cn_sdap_Config (Some c)) =>
      add ← deref (Sdap.mappedQoS_FlowsToAdd c);
      array0 ← deref (Sdap.qfi_array0 add);
      mret (Sdap.cfg_pdu_Session c, Sdap.is_sdap_rx is_gnb c, Sdap.is_sdap_tx is_gnb c, Sdap.cfg_defaultDRB c, array0,
            u8 (Sdap.qfi_count add))
  end.

Definition add_drb (w : world) (is_gnb : bool) (id : Z) (s : NR_DRB_ToAddMod)
    (p : nr_pdcp_entity_security_keys_and_algos_t) : res world :=
  c ← deref (drb_pdcp_Config s);
  d ← deref (cfg_drb c);
  ul ← deref (pdcp_SN_SizeUL d); sn_size_ul ← decode_sn_size_ul ul;
  dl ← deref (pdcp_SN_SizeDL d); sn_size_dl ← decode_sn_size_dl dl;
  dt ← deref (discardTimer d); discard_timer ← decode_discard_timer dt;
  t ← t_reordering_of (cfg_t_Reordering c);
  '(pdusession, rx, tx, dflt, qfis, nqfis) ← drb_sdap is_gnb s;
  if negb (sn_size_ul =? sn_size_dl) then Err Exit
  else
    let p := p <| ciphering_algorithm := if cfg_cipheringDisabled c then 0 else ciphering_algorithm p |>
               <| integrity_algorithm := if integrityProtection d then integrity_algorithm p else 0 |> in
    let '(u, m) := nr_pdcp_manager_get_ue (Sdap.pdcp w) id in
    o ← nr_pdcp_get_rb u (drb_Identity s) false;
    match o with
    | Some _ => mret (w <| Sdap.pdcp := m |>)
    | None =>
        e ← new_nr_pdcp_entity NR_PDCP_DRB_AM is_gnb (drb_Identity s) pdusession rx tx sn_size_dl t discard_timer p;
        u ← nr_pdcp_ue_add_drb_pdcp_entity u (drb_Identity s) e;
        let w := w <| Sdap.pdcp := m <| ue_list ::= fun l => put_ue l u |> |> in
        '(_, w) ← Sdap.new_nr_sdap_entity w is_gnb rx tx id pdusession dflt (drb_Identity s) qfis nqfis;
        mret w
    end.

Fixpoint nr_pdcp_add_srbs (w : world) (is_gnb : bool) (id : Z) (l : list NR_SRB_ToAddMod)
    (p : nr_pdcp_entity_security_keys_and_algos_t) : res world :=
  match l with
  | [] => mret w
  | s :: l => w ← add_srb w is_gnb id s p; nr_pdcp_add_srbs w is_gnb id l p
  end.

Fixpoint nr_pdcp_add_drbs (w : world) (is_gnb : bool) (id : Z) (l : list NR_DRB_ToAddMod)
    (p : nr_pdcp_entity_security_keys_and_algos_t) : res world :=
  match l with
  | [] => mret w
  | s :: l => w ← add_drb w is_gnb id s p; nr_pdcp_add_drbs w is_gnb id l p
  end.

Definition nr_pdcp_remove_UE (w : world) (id : Z) : world :=
  w <| Sdap.pdcp ::= fun m => nr_pdcp_manager_remove_ue m id |>.

Definition nr_pdcp_config_set_security (w : world) (id rb_id : Z) (is_srb : bool)
    (p : nr_pdcp_entity_security_keys_and_algos_t) : res world :=
  on_rb w id rb_id is_srb (fun rb => nr_pdcp_entity_set_security rb p).

Definition nr_pdcp_check_integrity_srb (m : pdcp_state) (id srb_id : Z) (msg : bytes) (msg_size : Z)
    (mi : nr_pdcp_integrity_data_t) : res (bool * pdcp_state) :=
  let '(u, m) := nr_pdcp_manager_get_ue m id in
  o ← nr_pdcp_get_rb u srb_id true;
  match o with
  | None => mret (false, m)
  | Some rb => r ← nr_pdcp_entity_check_integrity rb msg msg_size mi; mret (r, m)
  end.

Definition nr_pdcp_suspend_srb (w : world) (id srb_id : Z) : res world :=
  on_rb w id srb_id true (fun rb => mret (nr_pdcp_entity_suspend rb)).

Definition nr_pdcp_suspend_drb (w : world) (id drb_id : Z) : res world :=
  on_rb w id drb_id false (fun rb => mret (nr_pdcp_entity_suspend rb)).

Definition nr_pdcp_reconfigure_srb (w : world) (id srb_id t_Reordering : Z) : res world :=
  on_rb w id srb_id true (fun rb => t ← decode_t_reordering t_Reordering; mret (rb <| t_reordering := t |>)).

Definition reconfigure_drb_entity (c : NR_PDCP_Config_t) (rb : nr_pdcp_entity_t) : res nr_pdcp_entity_t :=
  t ← t_reordering_of (cfg_t_Reordering c);
  let rb := rb <| t_reordering := t |> in
  match cfg_drb c with
  | None => mret rb
  | Some d =>
      rb ← match discardTimer d with Some v => dt ← decode_discard_timer v; mret (rb <| discard_timer := dt |>) | None => mret rb end;
      rb ← match pdcp_SN_SizeUL d with Some v => n ← decode_sn_size_ul v; mret (rb <| sn_size := n |>) | None => mret rb end;
      match pdcp_SN_SizeDL d with
      | Some v =>
          n ← decode_sn_size_dl v;
          if (match pdcp_SN_SizeUL d with Some _ => false | None => true end) || (n =? sn_size rb)
          then mret (rb <| sn_size := n |>) else Err Exit
      | None => mret rb
      end
  end.

Definition nr_pdcp_reconfigure_drb (w : world) (id drb_id : Z) (c : option NR_PDCP_Config_t) : res world :=
  on_rb w id drb_id false (fun rb => match c with Some c => reconfigure_drb_entity c rb | None => mret rb end).

(** No range check: [ue->srb[srb_id - 1]]. *)
Definition nr_pdcp_release_srb (w : world) (id srb_id : Z) : res world :=
  let '(u, m) := nr_pdcp_manager_get_ue (Sdap.pdcp w) id in
  o ← rd (srb u) (srb_id - 1);
  match o with
  | Some _ => u ← set_rb u srb_id true None; mret (w <| Sdap.pdcp := m <| ue_list ::= fun l => put_ue l u |> |>)
  | None => mret (w <| Sdap.pdcp := m |>)
  end.

Definition nr_pdcp_release_drb (w : world) (id drb_id : Z) : res world :=
  let '(u, m) := nr_pdcp_manager_get_ue (Sdap.pdcp w) id in
  let w := w <| Sdap.pdcp := m |> in
  o ← rd (drb u) (drb_id - 1);
  match o with
  | Some e =>
      let w := Sdap.nr_sdap_release_drb w id drb_id (pdusession_id e) in
      w ← commit w u drb_id false e (nr_pdcp_entity_release e);
      let '(u, m) := nr_pdcp_manager_get_ue (Sdap.pdcp w) id in
      u ← set_rb u drb_id false None;
      mret (w <| Sdap.pdcp := m <| ue_list ::= fun l => put_ue l u |> |>)
  | None => mret w
  end.

Definition nr_pdcp_reestablishment (w : world) (id rb_id : Z) (srb_flag : bool)
    (p : nr_pdcp_entity_security_keys_and_algos_t) : res world :=
  on_rb w id rb_id srb_flag (fun rb => reestablish_entity rb p).

Definition nr_pdcp_get_statistics (m : pdcp_state) (id : Z) (srb_flag : bool) (rb_id : Z)
  : res (option nr_pdcp_statistics_t * pdcp_state) :=
  let '(u, m) := nr_pdcp_manager_get_ue m id in
  o ← nr_pdcp_get_rb u rb_id srb_flag;
  Ok (option_map nr_pdcp_entity_get_stats o, m).

Definition nr_pdcp_get_num_ues (m : pdcp_state) (len : Z) : Z * list Z :=
  (nr_pdcp_manager_get_ue_count m, take (Z.to_nat len) (ue_id <$> ue_list m)).

(** ** Time *)

Definition nr_pdcp_wakeup_timer_thread (m : pdcp_state) (time : Z) : pdcp_state := m <| timer_curtime := time |>.

Definition nr_pdcp_tick (m : pdcp_state) (frame subframe : Z) : pdcp_state :=
  if negb (frame =? last_frame m) || negb (subframe =? last_subframe m) then
    let m := m <| last_frame := frame |> <| last_subframe := subframe |> <| current_time ::= fun t => u64 (t + 1) |> in
    nr_pdcp_wakeup_timer_thread m (current_time m)
  else m.

(** [set_time] on bearers [j], ... of the UE at index [i]. *)
Fixpoint tick_rbs (w : world) (id rb_id : Z) (n : nat) (srb_flag : bool) (now : Z) : res world :=
  match n with
  | 0%nat => mret w
  | S n =>
      w ← on_rb w id rb_id srb_flag (fun rb => mret (nr_pdcp_entity_set_time rb now));
      tick_rbs w id (rb_id + 1) n srb_flag now
  end.

Fixpoint tick_ues (w : world) (ids : list Z) (now : Z) : res world :=
  match ids with
  | [] => mret w
  | id :: ids =>
      w ← tick_rbs w id 1 2 true now;
      w ← tick_rbs w id 1 5 false now;
      tick_ues w ids now
  end.

(** One round of [nr_pdcp_timer_thread]. *)
Definition nr_pdcp_timer_round (w : world) : res world :=
  tick_ues w (ue_id <$> ue_list (Sdap.pdcp w)) (timer_curtime (Sdap.pdcp w)).

End Api.
