(* ===== verification/PdcpApiProps.v ===== *)
(** * The user plane from end to end

    Composition of SDAP, PDCP and their managers: what [sdap_data_req] on one side queues for
    RLC is what [do_pdcp_data_ind] on the other side turns into the same SDU. *)

From S2P Require Import Prelude Security Pdcp PdcpRx PdcpLink PdcpProps Sdap SdapProps WorkQueue F1Ids PdcpApi.
Import Pdcp.

#[local] Existing Instance Sdap.eta_world.

Section User_plane.
Context {O : Openssl}.

(** ** One bearer of one UE *)

(** The entity of a data radio bearer. *)
Record has_drb (m : pdcp_state) (id rb : Z) (e : nr_pdcp_entity_t) : Prop := {
  hd_range : 1 <= rb <= Sdap.MAX_DRBS_PER_UE;
  hd_ue : exists u, find_ue (ue_list m) id = Some u /\ length (drb u) = 32%nat /\
          drb u !! Z.to_nat (rb - 1) = Some (Some e) }.

Lemma find_ue_id l id u : find_ue l id = Some u -> ue_id u = id.
Proof.
  induction l as [|v l IH]; [done|]. cbn. destruct (Z.eqb_spec (ue_id v) id); [by intros [= <-]|done].
Qed.

Lemma put_find l u v : find_ue l (ue_id v) = Some u -> find_ue (put_ue l v) (ue_id v) = Some v.
Proof.
  induction l as [|x l IH]; [done|]. cbn. destruct (Z.eqb_spec (ue_id x) (ue_id v)) as [E|E]; cbn.
  - by rewrite Z.eqb_refl.
  - rewrite (proj2 (Z.eqb_neq _ _) E). done.
Qed.

Lemma put_find_ne l v id : id <> ue_id v -> find_ue (put_ue l v) id = find_ue l id.
Proof.
  intros H. induction l as [|x l IH]; [done|]. cbn. destruct (Z.eqb_spec (ue_id x) (ue_id v)) as [E|E]; cbn.
  - rewrite (proj2 (Z.eqb_neq (ue_id v) id)), (proj2 (Z.eqb_neq (ue_id x) id)) by congruence. done.
  - by rewrite IH.
Qed.

Lemma get_rb_drb u rb e : 1 <= rb <= Sdap.MAX_DRBS_PER_UE -> drb u !! Z.to_nat (rb - 1) = Some (Some e) ->
  nr_pdcp_get_rb u rb false = Ok (Some e).
Proof.
  intros H E. unfold nr_pdcp_get_rb. rewrite (proj2 (Z.ltb_ge rb 1)), Z.gtb_ltb, (proj2 (Z.ltb_ge _ rb)) by lia.
  cbn [orb]. apply rd_Some; [lia|done].
Qed.

(** The bearer after an operation. *)
Definition with_drb (u : nr_pdcp_ue_t) (rb : Z) (e : nr_pdcp_entity_t) : nr_pdcp_ue_t :=
  u <| drb := <[Z.to_nat (rb - 1) := Some e]> (drb u) |>.

Lemma set_rb_drb u rb e e' : 1 <= rb -> drb u !! Z.to_nat (rb - 1) = Some (Some e) ->
  set_rb u rb false (Some e') = Ok (with_drb u rb e').
Proof.
  intros H E. unfold set_rb. apply lookup_lt_Some in E. rewrite wr_ok by (unfold zlen; lia). done.
Qed.

Lemma has_drb_put m id rb e u e' : has_drb m id rb e -> find_ue (ue_list m) id = Some u ->
  has_drb (m <| ue_list ::= fun l => put_ue l (with_drb u rb e') |>) id rb e'.
Proof.
  intros [Hr (u' & F & L & E)] F'. rewrite F in F'. injection F' as ->. constructor; [done|].
  exists (with_drb u rb e'). pose proof (find_ue_id _ _ _ F) as I. split; [|split].
  - pose proof (put_find (ue_list m) u (with_drb u rb e')) as Q. change (ue_id (with_drb u rb e')) with (ue_id u) in Q.
    rewrite I in Q. by apply Q.
  - cbn. by rewrite length_insert.
  - cbn. apply list_lookup_insert_eq. by apply lookup_lt_Some in E.
Qed.

(** ** Sending *)

(** The UE's identifier in RLC: on a gNB that is not a CU from the F1 table. *)
Definition rlc_ue (m : pdcp_state) (id : Z) (gnb : bool) (id' : Z) : Prop :=
  if gnb then node_is_cu m = false /\ exists d, F1.cu_get_f1_ue_data (f1_cu m) id = Ok d /\ F1.secondary_ue d = id'
  else id' = id.

(** The settings no operation changes. *)
Definition penv (m : pdcp_state) := (node_is_cu m, nas_tun m, f1_cu m).

Lemma rlc_ue_env m m' id gnb id' : penv m' = penv m -> rlc_ue m id gnb id' -> rlc_ue m' id gnb id'.
Proof. unfold penv, rlc_ue. by intros [= -> _ ->]. Qed.

(** What is queued for RLC. *)
Definition data_req (gnb : bool) (id' rb mui : Z) (pdu : bytes) : rlc_data_req_queue_item :=
  mk_rlc_item (mk_ctxt 0 gnb 0 id' 0 false) false false rb mui 0 (zlen pdu) pdu.

Lemma data_req_drb_spec m ctxt rb mui sdu e id' : ctxt_ok ctxt = true -> has_drb m (rntiMaybeUEid ctxt) rb e ->
  rlc_ue m (rntiMaybeUEid ctxt) (is_gnb e) id' -> secured e -> entity_suspended e = false ->
  sdu_ok (has_sdap_tx e) sdu -> 0 <= tx_next e < 2 ^ 31 ->
  exists pdu m' st, PdcpApi.nr_pdcp_data_req_drb m ctxt false rb mui (zlen sdu) sdu = Ok (true, m') /\
    p_out m' = p_out m ++ [RlcDataReq (data_req (is_gnb e) id' rb mui pdu)] /\ penv m' = penv m /\
    encodes e (tx_next e) sdu pdu /\
    has_drb m' (rntiMaybeUEid ctxt) rb (e <| tx_next := tx_next e + 1 |> <| stats := st |>).
Proof.
  intros Hc Hd Hs Hse Hsu Hok Htx. pose proof Hd as [Hr (u & F & L & E)]. set (id := rntiMaybeUEid ctxt) in *.
  set (n := nr_max_pdcp_pdu_size (zlen sdu)).
  assert (Hn : zlen (replicate (Z.to_nat n) 0) = n).
  { unfold zlen. rewrite length_replicate. pose proof (zlen_nonneg sdu).
    unfold n, nr_max_pdcp_pdu_size, LONG_PDCP_HEADER_SIZE, PDCP_INTEGRITY_SIZE. lia. }
  destruct (process_sdu_encodes e sdu mui (replicate (Z.to_nat n) 0) Hse Hsu Hok Htx) as (pdu & tl & st & P & En);
    [rewrite Hn; unfold n; lia|]. rewrite Hn in P.
  set (e' := e <| tx_next := tx_next e + 1 |> <| stats := st |>) in *.
  unfold PdcpApi.nr_pdcp_data_req_drb. rewrite Hc. cbn [negb]. fold id. unfold nr_pdcp_manager_get_ue. rewrite F.
  rewrite (get_rb_drb u rb e Hr E), bind_Ok. fold n. rewrite P, bind_Ok, (set_rb_drb u rb e e') by (done || lia). rewrite bind_Ok.
  set (m1 := m <| ue_list ::= _ |>).
  assert (H1 : has_drb m1 id rb e') by (unfold m1; by apply (has_drb_put m id rb e u e')).
  pose proof (zlen_nonneg pdu). rewrite (proj2 (Z.eqb_neq (zlen pdu) (-1))) by lia.
  pose proof (slice_mid [] pdu tl) as Sl. cbn [app] in Sl. rewrite zlen_nil in Sl. rewrite Sl, bind_Ok.
  change (is_gnb e') with (is_gnb e). unfold rlc_ue in Hs. destruct (is_gnb e) eqn:G.
  - destruct Hs as (Hcu & d & Hf & Hid). unfold deliver_pdu_drb_gnb. change (f1_cu m1) with (f1_cu m).
    rewrite Hf, bind_Ok, Hid. change (node_is_cu m1) with (node_is_cu m). rewrite Hcu. mon.
    eexists _, _, st. split; [reflexivity|]. split_and!; try done. destruct H1 as [H1 H2]. by constructor.
  - mon. rewrite Hs. eexists _, _, st. split; [reflexivity|]. split_and!; try done. destruct H1 as [H1 H2]. by constructor.
Qed.

(** ** Receiving *)

(** A PDU that is next in sequence is handed over at once. *)
Lemma recv_next_delivers tx rx sdu pdu : peers tx rx -> encodes tx (rx_deliv rx) sdu pdu -> rx_inv rx ->
  rx_list rx = [] -> rx_deliv rx < 2 ^ 32 - 1 ->
  exists e' s, nr_pdcp_entity_recv_pdu rx pdu (zlen pdu) = Ok e' /\ delivered e' = delivered rx ++ [s] /\
    ps_buffer s = sdu /\ ps_size s = zlen sdu /\ config e' = config rx /\
    rx_inv e' /\ rx_list e' = [] /\ rx_deliv e' = rx_deliv rx + 1.
Proof.
  intros Hp He Hi Hl Hlt. pose proof (ri_next _ Hi) as [Hn _].
  assert (Hw : 0 < window_size rx).
  { destruct (pe_cfg _ _ Hp) as [_ [Hs _ ->]]. destruct Hs as [-> | ->]; done. }
  destruct (recv_encoded tx rx (rx_deliv rx) sdu pdu Hp He) as (st & A); [lia|lia|lia|].
  rewrite Hl in A. cbn [nr_pdcp_sdu_in_list] in A. rewrite (proj2 (Z.ltb_ge _ _)) in A by lia. cbn [orb] in A.
  destruct A as (mi & n & A). set (s := mk_psdu (rx_deliv rx) sdu (zlen sdu) mi) in A. set (e := rx <| stats := st |>) in A.
  assert (Hie : rx_inv e) by by apply (rx_inv_view rx).
  assert (Hc : rx_deliv e <= ps_count s < 2 ^ 32 - 1) by (cbn; lia).
  assert (Hin : nr_pdcp_sdu_in_list (rx_list e) (ps_count s) = false) by (change (rx_list e) with (rx_list rx); by rewrite Hl).
  destruct (store_sdu_spec e s n Hie Hc Hin) as (l1 & l2 & Ep & E1 & E2 & E3 & _ & Ecf).
  pose proof (store_sdu_inv e s n Hie Hc Hin) as Hi'. pose proof (ri_ahead _ Hi') as F. change (rx_list e) with (rx_list rx) in Ep. rewrite Hl in Ep.
  assert (l1 = [s] /\ l2 = []) as [-> ->].
  { apply Permutation_singleton_r in Ep. destruct l1 as [|x l1].
    - exfalso. cbn in Ep. rewrite E1, Ep in F. inversion F as [|? ? [F1 _] _]; subst. rewrite E3, zlen_nil in F1. cbn in F1. lia.
    - injection Ep as -> Ep. by apply app_eq_nil in Ep as [-> ->]. }
  exists (store_sdu e s n), s. split; [done|]. split_and!; try done.
Qed.

Lemma data_ind_next (w : world) ctxt rb tx rx sdu pdu : ctxt_ok ctxt && negb (brOption ctxt) = true ->
  has_drb (Sdap.pdcp w) (rntiMaybeUEid ctxt) rb rx -> peers tx rx -> encodes tx (rx_deliv rx) sdu pdu -> rx_inv rx ->
  rx_list rx = [] -> rx_deliv rx < 2 ^ 32 - 1 ->
  exists e' m', (config e' = config rx /\ rx_inv e' /\ rx_list e' = [] /\ rx_deliv e' = rx_deliv rx + 1) /\
    has_drb m' (rntiMaybeUEid ctxt) rb e' /\ penv m' = penv (Sdap.pdcp w) /\
    do_pdcp_data_ind w ctxt false rb (zlen pdu) pdu =
      deliver_sdu_drb (w <| Sdap.pdcp := m' |>) (rntiMaybeUEid ctxt) rb e' sdu (zlen sdu).
Proof.
  intros Hc Hd Hp He Hi Hl Hlt. pose proof Hd as [Hr (u & F & L & E)].
  destruct (recv_next_delivers tx rx sdu pdu Hp He Hi Hl Hlt) as (e' & s & R & D & Eb & Es & Ecf & Hn).
  exists e'. eexists. split; [done|]. split; [by apply (has_drb_put (Sdap.pdcp w) (rntiMaybeUEid ctxt) rb rx u e')|].
  split; [done|]. unfold do_pdcp_data_ind, on_rb, nr_pdcp_manager_get_ue. rewrite Hc, F. cbn [negb].
  rewrite (get_rb_drb u rb rx Hr E), bind_Ok, R, bind_Ok. unfold commit.
  rewrite (set_rb_drb u rb rx e') by (done || lia). rewrite bind_Ok, D, drop_app_length. cbn [deliver_sdus].
  change (ue_id (with_drb u rb e')) with (ue_id u). rewrite (find_ue_id _ _ _ F), Eb, Es.
  match goal with |- (?a ≫= _) = ?b => change a with b; destruct b; reflexivity end.
Qed.

(** The delivery of a data PDU of SDAP. *)
Lemma deliver_data (w : world) id rb (e : nr_pdcp_entity_t) er qfi rqi sdu : 0 <= qfi < 64 -> has_sdap_rx e = true ->
  Sdap.nr_sdap_get_entity (Sdap.sdap_entity_llist w) id (pdusession_id e) = Some er ->
  (if is_gnb e then nas_tun (Sdap.pdcp w) = false /\ is_Some (Sdap.N3GTPUInst w) else True) ->
  let pdu := data_header (negb (is_gnb e)) qfi rqi :: sdu in
  deliver_sdu_drb w id rb e pdu (zlen pdu) = Ok (w <| Sdap.out ::= fun o => o ++
    [if is_gnb e then Sdap.GtpuDataReq id (pdusession_id e) sdu else Sdap.NasWrite sdu] |>).
Proof.
  intros Hq Hrx Hget Hup pdu.
  assert (E : exists d, deliver_sdu_drb w id rb e pdu (zlen pdu) =
    Sdap.sdap_data_ind w d (is_gnb e) true (pdusession_id e) id pdu (zlen pdu)).
  { unfold deliver_sdu_drb. rewrite Hrx. destruct (nas_tun (Sdap.pdcp w)) eqn:T; [|eauto].
    destruct (is_gnb e) eqn:G; [by destruct Hup|eauto]. }
  destruct E as [d ->]. unfold Sdap.sdap_data_ind. rewrite Hget. unfold pdu.
  rewrite (rx_data w er d (is_gnb e) id (pdusession_id e) qfi rqi sdu Hq), bind_Ok.
  - unfold mret, res_ret. f_equal. destruct w. cbn. f_equal. by apply put_same.
  - intros G. rewrite G in Hup. apply Hup.
Qed.

(** ** End to end *)

(** The sending side of a flow: SDAP rule, bearer and security in place; RLC knows the UE as
    [id']. *)
Record sender_ok (w : world) (ctxt : protocol_ctxt_t) (qfi pdus : Z) (q : Sdap.qfi2drb_t) (es : Sdap.nr_sdap_entity_t)
    (id' : Z) (tx : nr_pdcp_entity_t) : Prop := {
  sn_ctxt : ctxt_ok ctxt = true /\ enb_flag ctxt = is_gnb tx;
  sn_sdap : Sdap.nr_sdap_get_entity (Sdap.sdap_entity_llist w) (rntiMaybeUEid ctxt) pdus = Some es;
  sn_rule : 0 <= qfi < 64 /\ Sdap.qfi2drb_table es !! Z.to_nat qfi = Some q /\ Sdap.drb_id q <> 0 /\ Sdap.has_sdap_tx q = true;
  sn_drb : has_drb (Sdap.pdcp w) (rntiMaybeUEid ctxt) (Sdap.drb_id q) tx;
  sn_out : rlc_ue (Sdap.pdcp w) (rntiMaybeUEid ctxt) (is_gnb tx) id';
  sn_sec : secured tx /\ entity_suspended tx = false /\ has_sdap_tx tx = true;
  sn_next : 0 <= tx_next tx }.

(** The receiving side: the peer entity without a gap, and an SDAP entity. *)
Record receiver_ok (w : world) (ctxt : protocol_ctxt_t) (rb : Z) (tx rx : nr_pdcp_entity_t) (er : Sdap.nr_sdap_entity_t) : Prop := {
  rc_ctxt : ctxt_ok ctxt && negb (brOption ctxt) = true;
  rc_drb : has_drb (Sdap.pdcp w) (rntiMaybeUEid ctxt) rb rx;
  rc_peers : peers tx rx /\ has_sdap_tx tx = true;
  rc_sync : rx_inv rx /\ rx_list rx = [];
  rc_sdap : Sdap.nr_sdap_get_entity (Sdap.sdap_entity_llist w) (rntiMaybeUEid ctxt) (pdusession_id rx) = Some er;
  rc_up : if is_gnb rx then nas_tun (Sdap.pdcp w) = false /\ is_Some (Sdap.N3GTPUInst w) else True }.

(** The SDU with the SDAP header of the sender. *)
Definition framed (tx : nr_pdcp_entity_t) (qfi : Z) (rqi : bool) (sdu : bytes) : bytes := data_header (is_gnb tx) qfi rqi :: sdu.

Lemma sdap_send (w : world) ctxt rb0 mui qfi rqi pdus q es id' tx sdu : sender_ok w ctxt qfi pdus q es id' tx ->
  tx_next tx < 2 ^ 31 -> Forall is_byte sdu -> 1 <= zlen sdu <= 8999 ->
  exists w' pdu st,
    Sdap.sdap_data_req w ctxt (rntiMaybeUEid ctxt) false rb0 mui (zlen sdu) (Some sdu) qfi rqi pdus = Ok (true, w') /\
    p_out (Sdap.pdcp w') = p_out (Sdap.pdcp w) ++ [RlcDataReq (data_req (is_gnb tx) id' (Sdap.drb_id q) mui pdu)] /\
    encodes tx (tx_next tx) (framed tx qfi rqi sdu) pdu /\
    sender_ok w' ctxt qfi pdus q es id' (tx <| tx_next := tx_next tx + 1 |> <| stats := st |>).
Proof.
  intros [[Hc Hg] Hsd (Hq & Hl & Hd & Ht) Hdrb Hout (Hse & Hsu & Htx) Hnx] Hlt Hb Hs. unfold framed. rewrite <- Hg.
  set (hdr := data_header (enb_flag ctxt) qfi rqi).
  assert (Bh : is_byte hdr) by (unfold hdr, data_header; destruct (enb_flag ctxt); by apply dl_is_byte).
  assert (Hok : sdu_ok (has_sdap_tx tx) (hdr :: sdu)).
  { rewrite Htx. constructor; [by constructor|]. rewrite zlen_cons. cbn [b2z]. lia. }
  destruct (data_req_drb_spec (Sdap.pdcp w) ctxt (Sdap.drb_id q) mui (hdr :: sdu) tx id' Hc Hdrb Hout Hse Hsu Hok (conj Hnx Hlt))
    as (pdu & m' & st & R & Po & Ev & En & Hd').
  eexists _, pdu, st. split.
  - unfold Sdap.sdap_data_req. rewrite Hsd, (tx_data w es ctxt rb0 mui qfi rqi q sdu (proj1 Hq) Hl Hd Ht Hs). fold hdr.
    unfold Sdap.nr_pdcp_data_req_drb, pdcp_service. rewrite R, !bind_Ok. reflexivity.
  - split; [rewrite Hg; exact Po|]. split; [exact En|]. constructor; try done; [cbn; by rewrite (put_same _ _ _ _ Hsd)|by apply (rlc_ue_env (Sdap.pdcp w))| |cbn; lia].
    split; [by apply secured_sent|done].
Qed.

Lemma sdap_receive (w : world) ctxt rb qfi rqi tx rx er sdu pdu : receiver_ok w ctxt rb tx rx er -> 0 <= qfi < 64 ->
  encodes tx (rx_deliv rx) (framed tx qfi rqi sdu) pdu -> rx_deliv rx < 2 ^ 32 - 1 ->
  exists w' rx', do_pdcp_data_ind w ctxt false rb (zlen pdu) pdu = Ok w' /\
    Sdap.out w' = Sdap.out w ++
      [if is_gnb rx then Sdap.GtpuDataReq (rntiMaybeUEid ctxt) (pdusession_id rx) sdu else Sdap.NasWrite sdu] /\
    receiver_ok w' ctxt rb tx rx' er /\ rx_deliv rx' = rx_deliv rx + 1 /\ is_gnb rx' = is_gnb rx /\
    pdusession_id rx' = pdusession_id rx.
Proof.
  intros [Hc Hdrb [Hp Htx] (Hi & Hle) Hsd Hup] Hq En Hlt.
  destruct (data_ind_next w ctxt rb tx rx (framed tx qfi rqi sdu) pdu Hc Hdrb Hp En Hi Hle Hlt)
    as (e' & m' & (Ecf & Hi' & Hle' & Hd') & Hdrb' & Ev & Di).
  pose proof (f_equal (fun x => (fst (fst (fst (fst (fst (fst (fst (fst (snd x)))))))))) Ecf) as G. cbn in G.
  pose proof (f_equal (fun x => snd (snd x)) Ecf) as Gp. cbn in Gp.
  pose proof (f_equal (fun x => snd (fst x)) Ecf) as Gs. cbn in Gs.
  assert (Hrx : has_sdap_rx rx = true) by (rewrite <- Htx; apply Hp).
  assert (Hgn : is_gnb tx = negb (is_gnb rx)) by (rewrite (pe_ends _ _ Hp); by rewrite negb_involutive).
  assert (Et : nas_tun m' = nas_tun (Sdap.pdcp w)) by (injection Ev; congruence).
  set (w1 := w <| Sdap.pdcp := m' |>) in *.
  pose proof (deliver_data w1 (rntiMaybeUEid ctxt) rb e' er qfi rqi sdu Hq) as Dl.
  rewrite G, Gp, Gs in Dl. cbv zeta in Dl. rewrite <- Hgn in Dl. fold (framed tx qfi rqi sdu) in Dl.
  rewrite Dl in Di; [|done|exact Hsd|by change (nas_tun (Sdap.pdcp w1)) with (nas_tun m'); rewrite Et].
  eexists _, e'. split; [exact Di|]. split; [done|]. split_and!; [|done|done|done].
  constructor; cbn; [done|done| |done|by rewrite Gp|by rewrite G, Et]. split; [|done]. by apply (peers_config tx rx).
Qed.

(** [C10] What [sdap_data_req] queues for RLC, given to [do_pdcp_data_ind] of the other side, comes
    out of its SDAP as the same SDU: on the NAS interface of a UE, or for GTP-U on a gNB. *)
Theorem user_plane_roundtrip (ws wr : world) ctxt ctxt' rb0 mui qfi rqi pdus q es er id' tx rx sdu :
  sender_ok ws ctxt qfi pdus q es id' tx -> receiver_ok wr ctxt' (Sdap.drb_id q) tx rx er ->
  rx_deliv rx = tx_next tx -> tx_next tx < 2 ^ 31 -> Forall is_byte sdu -> 1 <= zlen sdu <= 8999 ->
  exists ws' item wr',
    Sdap.sdap_data_req ws ctxt (rntiMaybeUEid ctxt) false rb0 mui (zlen sdu) (Some sdu) qfi rqi pdus = Ok (true, ws') /\
    p_out (Sdap.pdcp ws') = p_out (Sdap.pdcp ws) ++ [RlcDataReq item] /\ rntiMaybeUEid (rq_ctxt item) = id' /\
    do_pdcp_data_ind wr ctxt' false (rq_rb_id item) (rq_sdu_size item) (rq_sdu item) = Ok wr' /\
    Sdap.out wr' = Sdap.out wr ++
      [if is_gnb rx then Sdap.GtpuDataReq (rntiMaybeUEid ctxt') (pdusession_id rx) sdu else Sdap.NasWrite sdu].
Proof.
  intros Hs Hr Hsy Hlt Hb Hz.
  destruct (sdap_send ws ctxt rb0 mui qfi rqi pdus q es id' tx sdu Hs Hlt Hb Hz) as (ws' & pdu & st & S & Po & En & _).
  rewrite <- Hsy in En. destruct (sdap_receive wr ctxt' (Sdap.drb_id q) qfi rqi tx rx er sdu pdu Hr) as (wr' & rx' & R & Ou & _);
    [apply (sn_rule _ _ _ _ _ _ _ _ Hs)|done|lia|]. by eexists ws', _, wr'.
Qed.
End User_plane.

(** ** Reconfiguration *)

(** [nr_pdcp_reconfigure_drb] sets a new SN size but neither [sn_max] nor the window: a
    reconfigured entity is no longer consistent. *)
Theorem pdcp_reconfigure_sn_size_inconsistent `{Openssl} rb c d : cfg_ok rb -> sn_size rb = 12 ->
  cfg_t_Reordering c = None -> cfg_drb c = Some d -> discardTimer d = None ->
  pdcp_SN_SizeUL d = Some 1 -> pdcp_SN_SizeDL d = Some 1 ->
  exists rb', reconfigure_drb_entity c rb = Ok rb' /\ sn_size rb' = 18 /\ sn_max rb' = 4095 /\ window_size rb' = 2048.
Proof.
  intros [_ Hm Hw] Hs Ht Hd Hdt Hul Hdl. unfold reconfigure_drb_entity. rewrite Ht, Hd. mon. rewrite Hdt, Hul, Hdl. mon.
  eexists. split; [reflexivity|]. rewrite Hs in Hm, Hw. by split_and!.
Qed.

(** ** Evaluations *)

#[local] Existing Instances toy_openssl toy_laws.

(** A UE with bearer 2 only, and an SDAP entity that maps flow 5 to it. *)
Definition demo_ue (e : nr_pdcp_entity_t) : nr_pdcp_ue_t := mk_ue 7 (replicate 3 None) (<[1%nat := Some e]> (replicate 32 None)).

Definition demo_node (gnb : bool) (e : nr_pdcp_entity_t) : world :=
  Sdap.mk_world [demo_entity] (Some 0)
    (mk_state [demo_ue e] gnb false false (Some {[ 7 := F1.mk_f1 70 0 0 ]}) 0 0 0 0 []) [].

Lemma demo_has_drb gnb e : has_drb (Sdap.pdcp (demo_node gnb e)) 7 2 e.
Proof. constructor; [done|]. exists (demo_ue e). done. Qed.

Lemma set_security_session `{Openssl} e p e' : nr_pdcp_entity_set_security e p = Ok e' -> pdusession_id e' = pdusession_id e.
Proof.
  unfold nr_pdcp_entity_set_security. intros Hs. apply bind_ok in Hs as (e1 & H1 & H2).
  unfold set_ciphering in H2. unfold set_integrity in H1.
  transitivity (pdusession_id e1); [clear H1; repeat case_if; inv_res; done|]. clear H2. repeat case_if; inv_res; done.
Qed.

Lemma new_pdusession `{Openssl} t g rb ps sr st sn tr dt p e :
  new_nr_pdcp_entity t g rb ps sr st sn tr dt p = Ok e -> pdusession_id e = ps.
Proof. intros N. by apply set_security_session in N. Qed.

(** A gNB with NIA2 and NEA2 sends, the UE receives. *)
Lemma user_plane_roundtrip_witness : exists (ws wr ws' wr' : world) item,
  Sdap.sdap_data_req ws (mk_ctxt 0 true 0 7 0 false) 7 false 1 0 3 (Some [1; 2; 3]) 5 false 1 = Ok (true, ws') /\
  do_pdcp_data_ind wr (mk_ctxt 0 false 0 7 0 false) false (rq_rb_id item) (rq_sdu_size item) (rq_sdu item) = Ok wr' /\
  Sdap.out wr' = [Sdap.NasWrite [1; 2; 3]].
Proof.
  pose proof (demo_keys_ok 2 2 ltac:(lia) ltac:(lia)) as K.
  destruct (new_spec NR_PDCP_DRB_AM true 2 1 true true 12 100 0 _ K) as (tx & N1 & F1).
  destruct (new_spec NR_PDCP_DRB_AM false 2 1 true true 12 100 0 _ K) as (rx & N2 & F2).
  pose proof (fresh_link _ _ _ _ _ _ _ _ _ _ _ _ F1 F2 K ltac:(lia) ltac:(lia)) as [(S1 & S2 & S3) Hp (R1 & _ & _ & R4 & _)].
  pose proof (new_inv _ _ _ _ _ _ _ _ _ _ _ N2) as Hi.
  destruct (fe_bearer _ _ _ _ _ _ _ _ _ F1) as (_ & _ & G1). destruct (fe_bearer _ _ _ _ _ _ _ _ _ F2) as (_ & _ & G2).
  destruct (fe_sdap _ _ _ _ _ _ _ _ _ F1) as (_ & D1).
  assert (P2 : pdusession_id rx = 1) by by eapply new_pdusession.
  destruct (user_plane_roundtrip (demo_node true tx) (demo_node false rx) (mk_ctxt 0 true 0 7 0 false) (mk_ctxt 0 false 0 7 0 false)
    1 0 5 false 1 (Sdap.mk_q 2 true true) demo_entity demo_entity 70 tx rx [1; 2; 3]) as (ws' & item & wr' & E1 & _ & _ & E3 & E4).
  - constructor; [by rewrite G1|done|done|apply demo_has_drb| |done|rewrite S3; lia].
    rewrite G1. split; [done|]. by eexists.
  - constructor; [done|apply demo_has_drb|done|done|by rewrite P2|by rewrite G2].
  - congruence.
  - rewrite S3. lia.
  - by repeat constructor.
  - done.
  - rewrite G2 in E4. eexists _, _, ws', wr', item. split; [exact E1|]. split; [exact E3|exact E4].
Defined.

Lemma pdcp_reconfigure_sn_size_inconsistent_witness : exists rb rb' : nr_pdcp_entity_t,
  reconfigure_drb_entity (mk_pdcp_config None (Some (mk_drb_config None (Some 1) (Some 1) false)) false) rb = Ok rb' /\
  sn_size rb' = 18 /\ sn_max rb' = 4095.
Proof.
  destruct (new_spec NR_PDCP_DRB_AM true 2 1 true true 12 100 0 _ (demo_keys_ok 0 0 ltac:(lia) ltac:(lia))) as (rb & _ & F).
  destruct (pdcp_reconfigure_sn_size_inconsistent rb (mk_pdcp_config None (Some (mk_drb_config None (Some 1) (Some 1) false)) false)
    (mk_drb_config None (Some 1) (Some 1) false)) as (rb' & E & H1 & H2 & _); try reflexivity.
  - apply (fresh_cfg _ _ _ _ _ _ _ _ _ F). lia.
  - apply (fe_sn _ _ _ _ _ _ _ _ _ F).
  - exists rb, rb'. split; [exact E|]. split; [exact H1|exact H2].
Defined.
