(* ===== verification/Crc.v ===== *)
(** * Channel coding: cyclic redundancy checks

    [src/openair1/PHY/CODING/crc_byte.c]: the bitwise CRC, the tables it fills,
    the eight byte-wise CRC functions and [check_crc].  The model is the
    portable code ([USE_INTEL_CRC] 0), where whole octets and single bits take
    the same path.  The register is 32 bits wide and left-aligned: a CRC of [n]
    bits is in its [n] upper bits. *)

From S2P Require Import Prelude RlcPdu.

Module Crc.

(** ** The code *)

Definition poly24a : Z := 0x864cfb00.
Definition poly24b : Z := 0x80006300.
Definition poly24c : Z := 0xb2b11700.
Definition poly16 : Z := 0x10210000.
Definition poly12 : Z := 0x80F00000.
Definition poly8 : Z := 0x9B000000.
Definition poly6 : Z := 0x84000000.
Definition poly11 : Z := 0xc4200000.

(** [for (i = 8; i != 0; i--)] of [crcbit]. *)
Fixpoint crcbit_loop (n : nat) (poly c crc : Z) : Z :=
  match n with
  | O => crc
  | S n =>
      let crc := if negb (Z.land (Z.shiftl 1 31) (Z.lxor c crc) =? 0)
                 then Z.lxor (u32 (Z.shiftl crc 1)) poly else u32 (Z.shiftl crc 1) in
      crcbit_loop n poly (u32 (Z.shiftl c 1)) crc
  end.

Definition crcbit (inputptr : bytes) (octetlen poly : Z) : res Z :=
  for_loop 0 octetlen (fun i crc =>
    v ← rd inputptr i; mret (crcbit_loop 8 poly (u32 (Z.shiftl v 24)) crc)) 0.

(** The static tables. *)
Record crc_tables := mk_crc_tables {
  crc24aTable : list Z;
  crc24bTable : list Z;
  crc24cTable : list Z;
  crc16Table : list Z;
  crc12Table : list Z;
  crc11Table : list Z;
  crc8Table : list Z;
  crc6Table : list Z }.

Definition zero_tables : crc_tables :=
  let z := replicate 256 0 in mk_crc_tables z z z z z z z z.

(** The body of [do { } while (++c)], for [c] from 0 to 255. *)
Definition crcTableInit_step (c : Z) (t : crc_tables) : res crc_tables :=
  a ← crcbit [c] 1 poly24a; l1 ← wr (crc24aTable t) c a;
  a ← crcbit [c] 1 poly24b; l2 ← wr (crc24bTable t) c a;
  a ← crcbit [c] 1 poly24c; l3 ← wr (crc24cTable t) c a;
  a ← crcbit [c] 1 poly16; l4 ← wr (crc16Table t) c (Z.shiftr a 16);
  a ← crcbit [c] 1 poly12; l5 ← wr (crc12Table t) c (Z.shiftr a 16);
  a ← crcbit [c] 1 poly11; l6 ← wr (crc11Table t) c (Z.shiftr a 16);
  a ← crcbit [c] 1 poly8; l7 ← wr (crc8Table t) c (Z.shiftr a 24);
  a ← crcbit [c] 1 poly6; l8 ← wr (crc6Table t) c (Z.shiftr a 24);
  mret (mk_crc_tables l1 l2 l3 l4 l5 l6 l7 l8).

Definition crcTableInit (t : crc_tables) : res crc_tables := for_loop 0 256 crcTableInit_step t.

(** The text the CRC functions share: [table] is the function's table, its entries
    are shifted left by [sh]; [crc << 8] is there when [keep] ([crc8] and [crc6] leave it out). *)
Definition crc_lut (table : list Z) (sh : Z) (keep : bool) (inptr : bytes) (bitlen : Z) : res Z :=
  let octetlen := Z.quot bitlen 8 in
  let resbit := Z.rem bitlen 8 in
  crc ← for_loop 0 octetlen (fun i crc =>
    v ← rd inptr i;
    t ← rd table (Z.lxor v (Z.shiftr crc 24));
    let t := u32 (Z.shiftl t sh) in
    mret (if keep then Z.lxor (u32 (Z.shiftl crc 8)) t else t)) 0;
  if resbit >? 0 then
    v ← rd inptr (Z.max 0 octetlen);
    t ← rd table (Z.lxor (Z.shiftr v (8 - resbit)) (Z.shiftr crc (32 - resbit)));
    mret (Z.lxor (u32 (Z.shiftl crc resbit)) (u32 (Z.shiftl t sh)))
  else mret crc.

Definition crc24a (t : crc_tables) := crc_lut (crc24aTable t) 0 true.
Definition crc24b (t : crc_tables) := crc_lut (crc24bTable t) 0 true.
Definition crc24c (t : crc_tables) := crc_lut (crc24cTable t) 0 true.
Definition crc16 (t : crc_tables) := crc_lut (crc16Table t) 16 true.
Definition crc12 (t : crc_tables) := crc_lut (crc12Table t) 16 true.
Definition crc11 (t : crc_tables) := crc_lut (crc11Table t) 16 true.
Definition crc8 (t : crc_tables) := crc_lut (crc8Table t) 24 false.
Definition crc6 (t : crc_tables) := crc_lut (crc6Table t) 24 false.

(** [CRC24_A], [CRC24_B], [CRC16], [CRC8] of [coding_defs.h]. *)
Definition CRC24_A : Z := 0.
Definition CRC24_B : Z := 1.
Definition CRC16 : Z := 2.
Definition CRC8 : Z := 3.

(** [AssertFatal(1, ...)] in the [default] cases does nothing: the length stays 0. *)
Definition crc_len_of (crc_type : Z) : Z :=
  if (crc_type =? CRC24_A) || (crc_type =? CRC24_B) then 3
  else if crc_type =? CRC16 then 2 else if crc_type =? CRC8 then 1 else 0.

(** [oldcrc |= decoded_bytes[(n>>3)-crc_len+i] << ((crc_len-1-i)<<3)] *)
Definition read_crc (decoded_bytes : bytes) (n crc_len : Z) : res Z :=
  for_loop 0 crc_len (fun i oldcrc =>
    v ← rd decoded_bytes (u32 (Z.shiftr n 3 - crc_len + i));
    mret (u32 (Z.lor oldcrc (Z.shiftl v (Z.shiftl (crc_len - 1 - i) 3))))) 0.

Definition check_crc (t : crc_tables) (decoded_bytes : bytes) (n crc_type : Z) : res Z :=
  oldcrc ← read_crc decoded_bytes n (crc_len_of crc_type);
  '(crc, oldcrc) ←
    (if crc_type =? CRC24_A then
       c ← crc24a t decoded_bytes (s32 (u32 (n - 24))); mret (Z.shiftr c 8, Z.land oldcrc 0x00ffffff)
     else if crc_type =? CRC24_B then
       c ← crc24b t decoded_bytes (s32 (u32 (n - 24))); mret (Z.shiftr c 8, Z.land oldcrc 0x00ffffff)
     else if crc_type =? CRC16 then
       c ← crc16 t decoded_bytes (s32 (u32 (n - 16))); mret (Z.shiftr c 16, Z.land oldcrc 0x0000ffff)
     else if crc_type =? CRC8 then
       c ← crc8 t decoded_bytes (s32 (u32 (n - 8))); mret (Z.shiftr c 24, Z.land oldcrc 0x000000ff)
     else mret (0, oldcrc));
  mret (if crc =? oldcrc then 1 else 0).

(** [((uint8_t * )&crc)[i]] on a little-endian machine: how the coders store a CRC. *)
Definition byte_of (crc i : Z) : Z := u8 (Z.shiftr crc (8 * i)).

End Crc.
