(* ===== verification/CrcProps.v ===== *)
(** * The CRC tables compute polynomial remainders

    The register as a linear map, the byte-wise functions against the bitwise
    one, the algebraic specification and the detection of burst errors. *)

From S2P Require Import Prelude RlcPdu Crc.

Import Crc.

(** ** The register *)

Definition word (c : Z) : Prop := 0 <= c < 2 ^ 32.

(** One step of the register without input. *)
Definition shift1 (poly c : Z) : Z := Z.lxor (u32 (Z.shiftl c 1)) (if Z.testbit c 31 then poly else 0).

Fixpoint shifts (poly : Z) (n : nat) (c : Z) : Z :=
  match n with O => c | S n => shift1 poly (shifts poly n c) end.

(** One step with an input bit: the reference. *)
Definition crc_step (poly c : Z) (b : bool) : Z := shift1 poly (Z.lxor c (Z.shiftl (b2z b) 31)).

Definition crc_bits (poly : Z) (bs : list bool) : Z := fold_left (crc_step poly) bs 0.

Lemma u32_testbit x i : 0 <= i -> Z.testbit (u32 x) i = (i <? 32) && Z.testbit x i.
Proof.
  intros Hi. unfold u32. destruct (Z.ltb_spec i 32).
  - by rewrite Z.mod_pow2_bits_low.
  - rewrite Z.mod_pow2_bits_high by lia. done.
Qed.

Lemma u32_word x : word (u32 x).
Proof. apply Z.mod_pos_bound. lia. Qed.

Lemma lxor_word a b : word a -> word b -> word (Z.lxor a b).
Proof. apply lxor_bound. lia. Qed.

Lemma word_high c i : word c -> 32 <= i -> Z.testbit c i = false.
Proof. intros Hc Hi. eapply high_bits; [exact Hc|lia]. Qed.

Lemma add_lxor a m k : 0 <= k -> 0 <= m < 2 ^ k -> a * 2 ^ k + m = Z.lxor (Z.shiftl a k) m.
Proof.
  intros Hk Hm. rewrite <- Z.shiftl_mul_pow2 by done. apply Z.add_nocarry_lxor. apply Z.bits_inj'. intros i Hi.
  rewrite Z.land_spec, Z.bits_0. destruct (Z.lt_ge_cases i k).
  - by rewrite Z.shiftl_spec_low.
  - by rewrite (high_bits k m), andb_false_r by lia.
Qed.

Section Register.

Context (poly : Z) (Hpoly : word poly).

Lemma shift1_bit c i : 0 <= i < 32 ->
  Z.testbit (shift1 poly c) i = xorb (Z.testbit c (i - 1)) (Z.testbit c 31 && Z.testbit poly i).
Proof.
  intros Hi. unfold shift1. rewrite Z.lxor_spec, u32_testbit, (proj2 (Z.ltb_lt i 32)), Z.shiftl_spec by lia.
  cbn [andb]. f_equal. destruct (Z.testbit c 31); [done|]. by rewrite Z.bits_0.
Qed.

Lemma shift1_word c : word (shift1 poly c).
Proof. apply lxor_word; [apply u32_word|]. case_if; [done|unfold word; lia]. Qed.

Lemma word_ext a b : word a -> word b -> (forall i, 0 <= i < 32 -> Z.testbit a i = Z.testbit b i) -> a = b.
Proof.
  intros Ha Hb H. apply Z.bits_inj'. intros i Hi. destruct (Z.lt_ge_cases i 32); [by apply H|].
  by rewrite !word_high.
Qed.

Lemma shift1_lxor a b : shift1 poly (Z.lxor a b) = Z.lxor (shift1 poly a) (shift1 poly b).
Proof.
  apply word_ext; [apply shift1_word|apply lxor_word; apply shift1_word|]. intros i Hi.
  rewrite Z.lxor_spec, !shift1_bit, !Z.lxor_spec by done.
  destruct (Z.testbit a (i - 1)), (Z.testbit b (i - 1)), (Z.testbit a 31), (Z.testbit b 31), (Z.testbit poly i); done.
Qed.

Lemma shifts_lxor n a b : shifts poly n (Z.lxor a b) = Z.lxor (shifts poly n a) (shifts poly n b).
Proof.
  induction n as [|n IH]; [done|]. cbn. by rewrite IH, shift1_lxor.
Qed.

Lemma shifts_word n c : word c -> word (shifts poly n c).
Proof. intros Hc. destruct n; [done|]. apply shift1_word. Qed.

Lemma shifts_add n m c : shifts poly (n + m) c = shifts poly n (shifts poly m c).
Proof. induction n as [|n IH]; [done|]. cbn. by rewrite IH. Qed.

(** As long as nothing reaches the top the register only shifts. *)
Lemma shifts_low n c : 0 <= c < 2 ^ (32 - Z.of_nat n) -> shifts poly n c = Z.shiftl c (Z.of_nat n).
Proof.
  revert c. induction n as [|n IH]; intros c Hc.
  - by rewrite Z.shiftl_0_r.
  - replace (S n) with (n + 1)%nat by lia. rewrite shifts_add. change (shifts poly 1 c) with (shift1 poly c).
    assert (Hn : (Z.of_nat n < 32)).
    { destruct (Z.lt_ge_cases (Z.of_nat n) 32); [done|]. rewrite Z.pow_neg_r in Hc by lia. lia. }
    assert (H31 : Z.testbit c 31 = false) by (eapply high_bits; [exact Hc|lia]).
    assert (E : shift1 poly c = Z.shiftl c 1).
    { unfold shift1. rewrite H31, Z.lxor_0_r. unfold u32. apply Z.mod_small.
      rewrite Z.shiftl_mul_pow2 by lia. assert (2 * 2 ^ (32 - Z.of_nat (S n)) <= 2 ^ 32).
      { rewrite <- Z.pow_succ_r by lia. apply Z.pow_le_mono_r; lia. } lia. }
    rewrite E, IH.
    + rewrite Z.shiftl_shiftl by lia. f_equal. lia.
    + rewrite Z.shiftl_mul_pow2 by lia. replace (32 - Z.of_nat n) with (Z.succ (32 - Z.of_nat (S n))) by lia.
      rewrite Z.pow_succ_r by lia. lia.
Qed.

(** Up to 32 input bits can be put into the register at once. *)
Lemma feed bs : (length bs <= 32)%nat -> forall c,
  fold_left (crc_step poly) bs c =
    shifts poly (length bs) (Z.lxor c (Z.shiftl (of_bits bs) (32 - zlen bs))).
Proof.
  induction bs as [|b bs IH]; intros Hl c.
  - cbn. rewrite Z.shiftl_0_l, Z.lxor_0_r. done.
  - cbn [fold_left length] in *. rewrite IH by lia. unfold crc_step.
    replace (S (length bs)) with (length bs + 1)%nat by lia. rewrite shifts_add. f_equal.
    change (shifts poly 1 ?x) with (shift1 poly x).
    pose proof (of_bits_bound bs). unfold zlen in *.
    assert (E : Z.shiftl (of_bits (b :: bs)) (32 - Z.of_nat (S (length bs))) =
      Z.lxor (Z.shiftl (b2z b) 31) (Z.shiftl (of_bits bs) (31 - Z.of_nat (length bs)))).
    { rewrite of_bits_cons. unfold zlen. rewrite add_lxor, Z.shiftl_lxor, Z.shiftl_shiftl by lia.
      f_equal; f_equal; lia. }
    change (length (b :: bs)) with (S (length bs)).
    rewrite E, <- Z.lxor_assoc, (shift1_lxor (Z.lxor _ _)). f_equal.
    assert (Hlow : 0 <= Z.shiftl (of_bits bs) (31 - Z.of_nat (length bs)) < 2 ^ (32 - Z.of_nat 1)).
    { rewrite Z.shiftl_mul_pow2 by lia. change (32 - Z.of_nat 1) with 31.
      replace (2 ^ 31) with (2 ^ Z.of_nat (length bs) * 2 ^ (31 - Z.of_nat (length bs)))
        by (rewrite <- Z.pow_add_r by lia; f_equal; lia). nia. }
    pose proof (shifts_low 1 _ Hlow) as E1. change (shifts poly 1 ?x) with (shift1 poly x) in E1.
    rewrite E1, Z.shiftl_shiftl by lia. f_equal. lia.
Qed.

(** ** The table *)

Lemma land_top x : negb (Z.land (Z.shiftl 1 31) x =? 0) = Z.testbit x 31.
Proof.
  destruct (Z.testbit x 31) eqn:E.
  - apply negb_true_iff, Z.eqb_neq. intros H. apply (f_equal (fun z => Z.testbit z 31)) in H.
    rewrite Z.land_spec, E, Z.bits_0 in H. done.
  - apply negb_false_iff, Z.eqb_eq. apply Z.bits_inj'. intros i Hi. rewrite Z.land_spec, Z.bits_0.
    destruct (decide (i = 31)) as [->|N]; [by rewrite E, andb_false_r|].
    rewrite Z.shiftl_spec by done. change 1 with (2 ^ 0). by rewrite Z.pow2_bits_false by lia.
Qed.

Lemma u32_shift x k : 0 <= k -> u32 (Z.shiftl (u32 x) k) = u32 (Z.shiftl x k).
Proof. intros Hk. unfold u32. rewrite !Z.shiftl_mul_pow2 by done. apply Zmult_mod_idemp_l. Qed.

Lemma crc_step_alt c b : crc_step poly c b =
  if xorb b (Z.testbit c 31) then Z.lxor (u32 (Z.shiftl c 1)) poly else u32 (Z.shiftl c 1).
Proof.
  unfold crc_step, shift1. rewrite Z.lxor_spec, Z.shiftl_lxor, Z.shiftl_shiftl by lia.
  assert (Eu : u32 (Z.lxor (Z.shiftl c 1) (Z.shiftl (b2z b) (31 + 1))) = u32 (Z.shiftl c 1)).
  { apply word_ext; [apply u32_word|apply u32_word|]. intros i Hi.
    rewrite !u32_testbit, Z.lxor_spec by lia. rewrite (Z.shiftl_spec_low (b2z b)), xorb_false_r by lia. done. }
  rewrite Eu. replace (Z.testbit (Z.shiftl (b2z b) 31) 31) with b by (by destruct b).
  rewrite (xorb_comm b). destruct (xorb _ _); [done|]. by rewrite Z.lxor_0_r.
Qed.

(** The inner loop of [crcbit] feeds the upper bits of [c]. *)
Lemma crcbit_loop_spec n v : (n <= 32)%nat -> forall crc,
  crcbit_loop n poly (u32 (Z.shiftl v (32 - Z.of_nat n))) crc = fold_left (crc_step poly) (zbits n v) crc.
Proof.
  induction n as [|n IH]; intros Hn crc; [done|]. cbn [crcbit_loop zbits fold_left].
  rewrite land_top, Z.lxor_spec, u32_testbit, Z.shiftl_spec, crc_step_alt by lia.
  change (31 <? 32) with true. cbn [andb]. replace (31 - (32 - Z.of_nat (S n))) with (Z.of_nat n) by lia.
  rewrite u32_shift, Z.shiftl_shiftl by lia. replace (32 - Z.of_nat (S n) + 1) with (32 - Z.of_nat n) by lia.
  apply IH. lia.
Qed.

Lemma crcbit_byte v : crcbit [v] 1 poly = Ok (fold_left (crc_step poly) (zbits 8 v) 0).
Proof.
  unfold crcbit, for_loop. cbn [Z.to_nat for_steps]. change (Z.to_nat (1 - 0)) with 1%nat. cbn [for_steps].
  change (rd [v] 0) with (Ok v : res Z). mon.
  pose proof (crcbit_loop_spec 8 v ltac:(lia) 0) as E. change (32 - Z.of_nat 8) with 24 in E. by rewrite E.
Qed.

(** The entry of byte [v] *)
Definition entry (v : Z) : Z := shifts poly 8 (Z.shiftl v 24).

Lemma crcbit_entry v : 0 <= v < 256 -> crcbit [v] 1 poly = Ok (entry v).
Proof.
  intros Hv. rewrite crcbit_byte, feed, of_zbits by (rewrite length_zbits; lia).
  rewrite Z.lxor_0_l, length_zbits. unfold zlen. rewrite length_zbits.
  change (2 ^ Z.of_nat 8) with 256. change (32 - Z.of_nat 8) with 24. rewrite Z.mod_small by done. unfold entry. exact eq_refl.
Qed.

(** ** One round of the byte-wise loop and the rest of a byte *)

(** [k] bits of value [v] from a register: the upper [k] bits select the entry. *)
Lemma entry_round k c v : (1 <= k <= 8)%nat -> word c -> 0 <= v < 2 ^ Z.of_nat k ->
  shifts poly k (Z.lxor c (Z.shiftl v (32 - Z.of_nat k))) =
    Z.lxor (u32 (Z.shiftl c (Z.of_nat k))) (entry (Z.lxor v (Z.shiftr c (32 - Z.of_nat k)))) /\
  0 <= Z.lxor v (Z.shiftr c (32 - Z.of_nat k)) < 2 ^ Z.of_nat k.
Proof.
  intros Hk Hc Hv. set (m := 32 - Z.of_nat k). assert (Hm : 24 <= m <= 31) by lia.
  pose proof (Z.div_mod c (2 ^ m) ltac:(lia)) as Ec. pose proof (Z.mod_pos_bound c (2 ^ m) ltac:(lia)) as Hlo.
  rewrite <- Z.shiftr_div_pow2, Z.mul_comm in Ec by lia. set (hi := Z.shiftr c m) in *. set (lo := c mod 2 ^ m) in *.
  assert (Hhi : 0 <= hi < 2 ^ Z.of_nat k).
  { unfold hi. rewrite Z.shiftr_div_pow2 by lia. split; [apply Z.div_pos; unfold word in Hc; lia|].
    apply Z.div_lt_upper_bound; [lia|]. rewrite <- Z.pow_add_r by lia.
    replace (m + Z.of_nat k) with 32 by lia. apply Hc. }
  assert (Hw : 0 <= Z.lxor v hi < 2 ^ Z.of_nat k) by (apply lxor_bound; lia). split; [|done].
  assert (Elo : u32 (Z.shiftl c (Z.of_nat k)) = shifts poly k lo).
  { rewrite shifts_low by (split; [lia|]; fold m; lia). unfold u32. rewrite !Z.shiftl_mul_pow2 by lia.
    symmetry. apply (Z.mod_unique_pos _ _ hi).
    - replace (2 ^ 32) with (2 ^ m * 2 ^ Z.of_nat k) by (rewrite <- Z.pow_add_r by lia; f_equal; lia). nia.
    - rewrite Ec at 1. replace (2 ^ 32) with (2 ^ m * 2 ^ Z.of_nat k) by (rewrite <- Z.pow_add_r by lia; f_equal; lia). ring. }
  assert (Een : entry (Z.lxor v hi) = shifts poly k (Z.shiftl (Z.lxor v hi) m)).
  { unfold entry. replace 8%nat with (k + (8 - k))%nat at 1 by lia. rewrite shifts_add. f_equal.
    rewrite shifts_low.
    - rewrite Z.shiftl_shiftl by lia. f_equal. lia.
    - rewrite Z.shiftl_mul_pow2 by lia. replace (32 - Z.of_nat (8 - k)) with (Z.of_nat k + 24) by lia.
      rewrite Z.pow_add_r by lia. nia. }
  rewrite Elo, Een, <- shifts_lxor. f_equal. rewrite Z.shiftl_lxor. rewrite Ec at 1.
  rewrite add_lxor by lia. rewrite (Z.lxor_comm (Z.shiftl v m)), <- (Z.lxor_assoc lo), (Z.lxor_comm lo). done.
Qed.

(** ** Alignment: a CRC of [n] bits stays in the [n] upper bits *)

Definition aligned (sh c : Z) : Prop := forall i, 0 <= i < sh -> Z.testbit c i = false.

Lemma aligned_shiftl sh k v : sh <= k -> aligned sh (Z.shiftl v k).
Proof. intros H i Hi. rewrite Z.shiftl_spec by lia. apply Z.testbit_neg_r. lia. Qed.

Lemma aligned_lxor sh a b : aligned sh a -> aligned sh b -> aligned sh (Z.lxor a b).
Proof. intros Ha Hb i Hi. by rewrite Z.lxor_spec, Ha, Hb. Qed.

Lemma aligned_0 sh : aligned sh 0.
Proof. intros i _. apply Z.bits_0. Qed.

Lemma aligned_drop sh a : 0 <= sh -> word a -> aligned sh a -> u32 (Z.shiftl (Z.shiftr a sh) sh) = a.
Proof.
  intros Hs Ha Hal. apply word_ext; [apply u32_word|done|]. intros i Hi.
  rewrite u32_testbit, (proj2 (Z.ltb_lt i 32)), Z.shiftl_spec by lia. cbn [andb].
  destruct (Z.lt_ge_cases i sh).
  - rewrite Z.testbit_neg_r by lia. symmetry. apply Hal. lia.
  - rewrite Z.shiftr_spec by lia. f_equal. lia.
Qed.

Lemma aligned_over sh k c : 0 <= k -> 32 - k <= sh -> aligned sh c -> u32 (Z.shiftl c k) = 0.
Proof.
  intros Hk Hs Hal. apply word_ext; [apply u32_word|unfold word; lia|]. intros i Hi.
  rewrite u32_testbit, (proj2 (Z.ltb_lt i 32)), Z.shiftl_spec, Z.bits_0 by lia. cbn [andb].
  destruct (Z.lt_ge_cases (i - k) 0); [by apply Z.testbit_neg_r|]. apply Hal. lia.
Qed.

Section Aligned.

Context (sh : Z) (Hsh : 0 <= sh <= 31) (Hal : aligned sh poly).

Lemma shift1_aligned c : aligned sh c -> aligned sh (shift1 poly c).
Proof.
  intros Hc i Hi. rewrite shift1_bit, (Hal i), andb_false_r, xorb_false_r by lia.
  destruct (decide (i = 0)) as [->|]; [by apply Z.testbit_neg_r|]. apply Hc. lia.
Qed.

Lemma shifts_aligned n c : aligned sh c -> aligned sh (shifts poly n c).
Proof. intros Hc. induction n; [done|]. by apply shift1_aligned. Qed.

Lemma crc_fold_ok bs c : word c -> aligned sh c ->
  word (fold_left (crc_step poly) bs c) /\ aligned sh (fold_left (crc_step poly) bs c).
Proof.
  revert c. induction bs as [|b bs IH]; intros c Hc Ha; [done|]. cbn. apply IH; [apply shift1_word|].
  apply shift1_aligned, aligned_lxor; [done|]. apply aligned_shiftl. lia.
Qed.

Lemma crc_bits_ok bs : word (crc_bits poly bs) /\ aligned sh (crc_bits poly bs).
Proof. apply crc_fold_ok; [unfold word; lia|apply aligned_0]. Qed.

Context (H24 : sh <= 24).

Lemma entry_ok v : 0 <= v < 256 -> word (entry v) /\ aligned sh (entry v).
Proof.
  intros Hv. split; [apply shift1_word|]. apply shifts_aligned, aligned_shiftl. lia.
Qed.

(** ** The byte-wise functions *)

Definition table_ok (T : list Z) : Prop :=
  forall v, 0 <= v < 256 -> rd T v = Ok (Z.shiftr (entry v) sh).

Lemma table_entry T v : table_ok T -> 0 <= v < 256 ->
  exists t, rd T v = Ok t /\ u32 (Z.shiftl t sh) = entry v.
Proof.
  intros HT Hv. eexists. split; [by apply HT|]. destruct (entry_ok v Hv). apply aligned_drop; [lia|done|done].
Qed.

Lemma lut_round T k c v : table_ok T -> 1 <= k <= 8 -> word c -> 0 <= v < 2 ^ k ->
  exists t, rd T (Z.lxor v (Z.shiftr c (32 - k))) = Ok t /\
    Z.lxor (u32 (Z.shiftl c k)) (u32 (Z.shiftl t sh)) = fold_left (crc_step poly) (zbits (Z.to_nat k) v) c.
Proof.
  intros HT Hk Hc Hv. destruct (entry_round (Z.to_nat k) c v) as [E Hi]; [lia|done|by rewrite Z2Nat.id by lia|].
  rewrite Z2Nat.id in * by lia. destruct (table_entry T (Z.lxor v (Z.shiftr c (32 - k))) HT) as (t & Et & Eu).
  { assert (2 ^ k <= 2 ^ 8) by (apply Z.pow_le_mono_r; lia). lia. }
  exists t. split; [done|]. rewrite Eu, <- E, feed by (rewrite length_zbits; lia).
  unfold zlen. by rewrite length_zbits, of_zbits, Z2Nat.id, Z.mod_small by lia.
Qed.

Lemma crc_bits_app b1 b2 : crc_bits poly (b1 ++ b2) = fold_left (crc_step poly) b2 (crc_bits poly b1).
Proof. apply fold_left_app. Qed.

Lemma zbits_top v k : is_byte v -> (k <= 8)%nat ->
  take k (zbits 8 v) = zbits k (Z.shiftr v (8 - Z.of_nat k)).
Proof.
  intros Hv Hk. apply list_eq. intros i. destruct (decide (i < k)%nat) as [Hi|Hi].
  - rewrite lookup_take_lt, !lookup_zbits by lia. f_equal. rewrite Z.shiftr_spec by lia. f_equal. lia.
  - rewrite lookup_take_ge, lookup_ge_None_2 by (rewrite ?length_zbits; lia). done.
Qed.

Lemma take_bits data n k v : data !! n = Some v -> (k <= 8)%nat ->
  take (8 * n + k) (bits data) = bits (take n data) ++ take k (zbits 8 v).
Proof.
  intros Hv Hk. rewrite <- (take_drop_middle data n v Hv) at 1. rewrite bits_app, bits_cons.
  assert (Hl : length (bits (take n data)) = (8 * n)%nat).
  { rewrite length_bits, length_take. apply lookup_lt_Some in Hv. lia. }
  rewrite take_app, Hl, (take_ge (bits _)) by lia. f_equal. replace (8 * n + k - 8 * n)%nat with k by lia.
  rewrite take_app_le by (rewrite length_zbits; lia). done.
Qed.

Lemma crc_lut_spec T keep data bitlen : table_ok T -> keep = true \/ sh = 24 -> Forall is_byte data ->
  0 <= bitlen <= 8 * zlen data ->
  crc_lut T sh keep data bitlen = Ok (crc_bits poly (take (Z.to_nat bitlen) (bits data))).
Proof.
  intros HT Hk HF Hb. unfold crc_lut. rewrite Z.quot_div_nonneg, Z.rem_mod_nonneg by lia.
  pose proof (Z.div_mod bitlen 8 ltac:(lia)) as Eb. pose proof (Z.mod_pos_bound bitlen 8 ltac:(lia)).
  set (n := bitlen / 8) in *. set (k := bitlen mod 8) in *. assert (Hn : 0 <= n <= zlen data) by lia.
  match goal with |- context [for_loop 0 n ?body 0] =>
    destruct (for_loop_inv (fun i crc => crc = crc_bits poly (bits (take (Z.to_nat i) data))) 0 n body 0) as (c & -> & Hc) end.
  - lia.
  - done.
  - intros j c Hj ->. destruct (rd_ok data j) as (v & -> & Hv); [lia|]. mon.
    assert (is_byte v) by (rewrite Forall_lookup in HF; by eapply HF).
    set (c := crc_bits poly (bits (take (Z.to_nat j) data))).
    destruct (crc_bits_ok (bits (take (Z.to_nat j) data))) as [Wc Ac]. fold c in Wc, Ac.
    destruct (lut_round T 8 c v HT ltac:(lia) Wc) as (t & Et & E); [unfold is_byte in *; lia|].
    change (32 - 8) with 24 in Et. change (Z.to_nat 8) with 8%nat in E. rewrite Et. mon. eexists. split; [done|].
    replace (Z.to_nat (j + 1)) with (S (Z.to_nat j)) by lia. rewrite (take_S_r _ _ v Hv), bits_app, crc_bits_app.
    fold c. change (bits [v]) with (zbits 8 v ++ []). rewrite app_nil_r, <- E. destruct keep; [done|].
    destruct Hk as [|Hk]; [done|]. rewrite (aligned_over 24 8 c), Z.lxor_0_l by (lia || by rewrite <- Hk). done.
  - mon. subst c. destruct (Z.gtb_spec k 0).
    + destruct (rd_ok data (Z.max 0 n)) as (v & -> & Hv); [lia|]. mon. rewrite Z.max_r in Hv by lia.
      assert (Hbv : is_byte v) by (rewrite Forall_lookup in HF; by eapply HF).
      destruct (crc_bits_ok (bits (take (Z.to_nat n) data))) as [Wc _].
      destruct (lut_round T k _ (Z.shiftr v (8 - k)) HT ltac:(lia) Wc) as (t & -> & E).
      { rewrite Z.shiftr_div_pow2 by lia. unfold is_byte in Hbv. split; [apply Z.div_pos; lia|].
        apply Z.div_lt_upper_bound; [lia|]. rewrite <- Z.pow_add_r by lia. replace (8 - k + k) with 8 by lia. lia. }
      mon. rewrite E, <- crc_bits_app. f_equal. f_equal.
      replace (Z.to_nat bitlen) with (8 * Z.to_nat n + Z.to_nat k)%nat by lia.
      rewrite (take_bits _ _ _ v Hv), zbits_top by (done || lia). f_equal. f_equal. f_equal. lia.
    + f_equal. f_equal. replace (Z.to_nat bitlen) with (8 * Z.to_nat n)%nat by lia. rewrite <- (take_drop (Z.to_nat n) data) at 2.
      rewrite bits_app, take_app_le by (rewrite length_bits, length_take; unfold zlen in *; lia).
      symmetry. apply take_ge. rewrite length_bits, length_take. lia.
Qed.

End Aligned.

End Register.

(** ** The tables that [crcTableInit] fills *)

(** The polynomial of each CRC, its length and the shift of its table. *)
Inductive crc_name := C24a | C24b | C24c | C16 | C12 | C11 | C8 | C6.

Definition crc_poly (x : crc_name) : Z :=
  match x with C24a => poly24a | C24b => poly24b | C24c => poly24c | C16 => poly16 | C12 => poly12
  | C11 => poly11 | C8 => poly8 | C6 => poly6 end.

Definition crc_length (x : crc_name) : Z :=
  match x with C24a | C24b | C24c => 24 | C16 => 16 | C12 => 12 | C11 => 11 | C8 => 8 | C6 => 6 end.

Definition crc_shift (x : crc_name) : Z :=
  match x with C24a | C24b | C24c => 0 | C16 | C12 | C11 => 16 | C8 | C6 => 24 end.

Definition crc_table (x : crc_name) (t : crc_tables) : list Z :=
  match x with C24a => crc24aTable t | C24b => crc24bTable t | C24c => crc24cTable t | C16 => crc16Table t
  | C12 => crc12Table t | C11 => crc11Table t | C8 => crc8Table t | C6 => crc6Table t end.

(** The function of the code. *)
Definition crc_fun (x : crc_name) : crc_tables -> bytes -> Z -> res Z :=
  match x with C24a => crc24a | C24b => crc24b | C24c => crc24c | C16 => crc16 | C12 => crc12
  | C11 => crc11 | C8 => crc8 | C6 => crc6 end.

Lemma crc_poly_word x : word (crc_poly x).
Proof. destruct x; split; vm_compute; congruence. Qed.

Lemma poly_aligned x sh : sh = crc_shift x \/ sh = 32 - crc_length x -> aligned sh (crc_poly x).
Proof.
  intros Hs i Hi. assert (Hm : crc_poly x mod 2 ^ sh = 0) by (destruct x, Hs as [->| ->]; reflexivity).
  rewrite <- (Z.mod_pow2_bits_low _ sh) by lia. rewrite Hm. apply Z.bits_0.
Qed.

Definition tables_ok (t : crc_tables) : Prop := forall x, table_ok (crc_poly x) (crc_shift x) (crc_table x t).

Lemma crcTableInit_step_ok t j : 0 <= j < 256 -> (forall x, length (crc_table x t) = 256%nat) ->
  exists t', crcTableInit_step j t = Ok t' /\ forall x,
    crc_table x t' = <[Z.to_nat j := Z.shiftr (entry (crc_poly x) j) (crc_shift x)]> (crc_table x t).
Proof.
  intros Hj Hl. destruct t as [l1 l2 l3 l4 l5 l6 l7 l8]. unfold crcTableInit_step.
  assert (Hw : forall x a, wr (crc_table x (mk_crc_tables l1 l2 l3 l4 l5 l6 l7 l8)) j a =
    Ok (<[Z.to_nat j := a]> (crc_table x (mk_crc_tables l1 l2 l3 l4 l5 l6 l7 l8)))).
  { intros x a. apply wr_ok. unfold zlen. rewrite Hl. lia. }
  pose proof (Hw C24a) as W1. pose proof (Hw C24b) as W2. pose proof (Hw C24c) as W3. pose proof (Hw C16) as W4.
  pose proof (Hw C12) as W5. pose proof (Hw C11) as W6. pose proof (Hw C8) as W7. pose proof (Hw C6) as W8.
  assert (He : forall x, crcbit [j] 1 (crc_poly x) = Ok (entry (crc_poly x) j))
    by (intros x; apply crcbit_entry; [apply crc_poly_word|done]).
  pose proof (He C24a) as E1. pose proof (He C24b) as E2. pose proof (He C24c) as E3. pose proof (He C16) as E4.
  pose proof (He C12) as E5. pose proof (He C11) as E6. pose proof (He C8) as E7. pose proof (He C6) as E8.
  clear Hw He Hl. cbn [crc_table crc_poly crc24aTable crc24bTable crc24cTable crc16Table crc12Table crc11Table crc8Table crc6Table] in *.
  eexists. split.
  - rewrite E1, bind_Ok, W1, bind_Ok, E2, bind_Ok, W2, bind_Ok, E3, bind_Ok, W3, bind_Ok, E4, bind_Ok, W4, bind_Ok.
    rewrite E5, bind_Ok, W5, bind_Ok, E6, bind_Ok, W6, bind_Ok, E7, bind_Ok, W7, bind_Ok, E8, bind_Ok, W8, bind_Ok.
    exact eq_refl.
  - intros []; cbn [crc_table crc_shift crc_poly]; cbn [crc24aTable crc24bTable crc24cTable crc16Table crc12Table crc11Table crc8Table crc6Table];
      rewrite ?Z.shiftr_0_r; exact eq_refl.
Qed.

Lemma crcTableInit_ok : exists t, crcTableInit zero_tables = Ok t /\ tables_ok t.
Proof.
  unfold crcTableInit.
  destruct (for_loop_inv (fun i t => (forall x, length (crc_table x t) = 256%nat) /\
    forall x v, 0 <= v < i -> crc_table x t !! Z.to_nat v = Some (Z.shiftr (entry (crc_poly x) v) (crc_shift x)))
    0 256 crcTableInit_step zero_tables) as (t & E & Hl & Ht).
  - lia.
  - split; [by intros []|lia].
  - intros j t Hj [Hl IH]. destruct (crcTableInit_step_ok t j Hj Hl) as (t' & -> & Et). exists t'. split; [done|].
    split; [intros x; by rewrite Et, length_insert|]. intros x v Hv. rewrite Et.
    destruct (decide (v = j)) as [->|N].
    + rewrite list_lookup_insert_eq; [done|]. rewrite Hl. lia.
    + rewrite list_lookup_insert_ne by lia. apply IH. lia.
  - exists t. split; [done|]. intros x v Hv. apply rd_Some; [lia|]. by apply Ht.
Qed.

(** Every CRC function computes the bitwise CRC of the first [bitlen] bits. *)
Lemma crc_fun_spec x t data bitlen : tables_ok t -> Forall is_byte data -> 0 <= bitlen <= 8 * zlen data ->
  crc_fun x t data bitlen = Ok (crc_bits (crc_poly x) (take (Z.to_nat bitlen) (bits data))).
Proof.
  intros Ht HF Hb. pose proof (crc_lut_spec (crc_poly x) (crc_poly_word x) (crc_shift x)) as L.
  specialize (L ltac:(by destruct x) (poly_aligned x _ (or_introl eq_refl)) ltac:(by destruct x)).
  specialize (L (crc_table x t) (match x with C8 | C6 => false | _ => true end) data bitlen (Ht x)).
  destruct x; apply L; auto.
Qed.

(** ** Polynomials over GF(2)

    A polynomial is the integer of its coefficients; addition is [Z.lxor]. *)

Fixpoint clmul_pos (p : positive) (g : Z) : Z :=
  match p with
  | xH => g
  | xO p => 2 * clmul_pos p g
  | xI p => Z.lxor g (2 * clmul_pos p g)
  end.

(** The product without carries. *)
Definition clmul (q g : Z) : Z := match q with Zpos p => clmul_pos p g | _ => 0 end.

Lemma clmul_double q g : 0 <= q -> clmul (2 * q) g = 2 * clmul q g.
Proof. by destruct q. Qed.

Lemma clmul_double1 q g : 0 <= q -> clmul (2 * q + 1) g = Z.lxor g (2 * clmul q g).
Proof. destruct q; try done. intros _. cbn. by rewrite Z.lxor_0_r. Qed.

Lemma clmul_shiftl q g k : 0 <= k -> clmul q (Z.shiftl g k) = Z.shiftl (clmul q g) k.
Proof.
  intros Hk. destruct q as [|q|q]; cbn; [by rewrite Z.shiftl_0_l| |by rewrite Z.shiftl_0_l].
  assert (H2 : forall a, 2 * Z.shiftl a k = Z.shiftl (2 * a) k) by (intros a; rewrite !Z.shiftl_mul_pow2 by lia; lia).
  induction q as [q IH|q IH|]; cbn [clmul_pos]; [|by rewrite IH, H2|done]. by rewrite IH, H2, Z.shiftl_lxor.
Qed.

(** The generator polynomial of a CRC, with its leading term. *)
Definition crc_gen (x : crc_name) : Z := 2 ^ crc_length x + Z.shiftr (crc_poly x) (32 - crc_length x).

Lemma crc_gen_aligned x : Z.shiftl (crc_gen x) (32 - crc_length x) = Z.lxor (2 ^ 32) (crc_poly x).
Proof. by destruct x. Qed.

Lemma double_shift c : 2 * c = Z.shiftl c 1.
Proof. rewrite Z.shiftl_mul_pow2 by lia. lia. Qed.

Lemma double_lxor a b : 2 * Z.lxor a b = Z.lxor (2 * a) (2 * b).
Proof. rewrite !double_shift. apply Z.shiftl_lxor. Qed.

Lemma double_word c : word c -> 2 * c = Z.lxor (if Z.testbit c 31 then 2 ^ 32 else 0) (u32 (Z.shiftl c 1)).
Proof.
  intros Hc. rewrite double_shift. apply Z.bits_inj'. intros i Hi.
  rewrite Z.lxor_spec, u32_testbit, Z.shiftl_spec by lia.
  assert (E : Z.testbit (if Z.testbit c 31 then 2 ^ 32 else 0) i = (i =? 32) && Z.testbit c 31).
  { destruct (Z.testbit c 31); [|by rewrite Z.bits_0, andb_false_r]. rewrite andb_true_r, Z.pow2_bits_eqb by lia.
    apply Z.eqb_sym. }
  rewrite E. destruct (Z.ltb_spec i 32), (Z.eqb_spec i 32) as [->|]; cbn [andb]; try lia.
  - by rewrite xorb_false_l.
  - by rewrite xorb_false_r.
  - rewrite word_high by (done || lia). done.
Qed.

(** The register is the remainder of the message times x^32. *)
Lemma crc_bits_division poly bs : word poly -> exists q, 0 <= q /\
  of_bits bs * 2 ^ 32 = Z.lxor (clmul q (Z.lxor (2 ^ 32) poly)) (crc_bits poly bs).
Proof.
  intros Hp. induction bs as [|b bs IH] using rev_ind; [by exists 0|]. destruct IH as (q & Hq & E).
  assert (Wc : word (crc_bits poly bs)).
  { apply (crc_bits_ok poly Hp 0); [lia|]. intros i Hi. lia. }
  rewrite crc_bits_app. cbn [fold_left]. rewrite crc_step_alt.
  set (c := crc_bits poly bs) in *. set (g := Z.lxor (2 ^ 32) poly) in *.
  assert (EM : of_bits (bs ++ [b]) * 2 ^ 32 =
    Z.lxor (2 * clmul q g) (Z.lxor (if xorb b (Z.testbit c 31) then 2 ^ 32 else 0) (u32 (Z.shiftl c 1)))).
  { rewrite of_bits_app. change (of_bits [b]) with (2 * 0 + b2z b). change (2 ^ zlen [b]) with 2.
    replace ((of_bits bs * 2 + (2 * 0 + b2z b)) * 2 ^ 32) with (of_bits bs * 2 ^ 33 + b2z b * 2 ^ 32) by lia.
    assert (Eb : b2z b * 2 ^ 32 = if b then 2 ^ 32 else 0) by (by destruct b).
    rewrite Eb, add_lxor by (destruct b; lia). rewrite Z.shiftl_mul_pow2 by lia.
    replace (of_bits bs * 2 ^ 33) with (2 * (of_bits bs * 2 ^ 32)) by lia.
    rewrite E, double_lxor, (double_word c Wc), !Z.lxor_assoc. f_equal.
    rewrite (Z.lxor_comm (u32 _)), <- Z.lxor_assoc. f_equal. destruct b, (Z.testbit c 31); done. }
  rewrite EM. destruct (xorb b (Z.testbit c 31)).
  - exists (2 * q + 1). split; [lia|]. rewrite clmul_double1 by done. clearbody c.
    apply Z.bits_inj'. intros i Hi. unfold g at 2. rewrite !Z.lxor_spec.
    repeat match goal with |- context [Z.testbit ?a i] => destruct (Z.testbit a i) end; done.
  - exists (2 * q). split; [lia|]. rewrite clmul_double by done. by rewrite Z.lxor_0_l.
Qed.

(** ** Burst errors *)

Section Burst.

Context (x : crc_name).
#[local] Abbreviation a := (32 - crc_length x).
#[local] Abbreviation poly := (crc_poly x).

Lemma poly_low : Z.testbit poly a = true.
Proof. by destruct x. Qed.

Lemma length_range : 6 <= crc_length x <= 24.
Proof. destruct x; cbn; lia. Qed.

Lemma shift1_kernel c : word c -> aligned a c -> shift1 poly c = 0 -> c = 0.
Proof.
  intros Hc Ha E. pose proof length_range.
  assert (Hbit : forall i, 0 <= i < 32 -> xorb (Z.testbit c (i - 1)) (Z.testbit c 31 && Z.testbit poly i) = false).
  { intros i Hi. by rewrite <- shift1_bit, E, Z.bits_0 by (done || apply crc_poly_word). }
  assert (Htop : Z.testbit c 31 = false).
  { pose proof (Hbit a ltac:(lia)) as Hz. rewrite poly_low, andb_true_r, Ha, xorb_false_l in Hz by lia. done. }
  apply word_ext; [done|unfold word; lia|]. intros i Hi. rewrite Z.bits_0.
  destruct (decide (i = 31)) as [->|N]; [done|]. specialize (Hbit (i + 1) ltac:(lia)).
  rewrite Htop in Hbit. cbn [andb] in Hbit. rewrite xorb_false_r in Hbit. by replace (i + 1 - 1) with i in Hbit by lia.
Qed.

Lemma poly_al : aligned a poly.
Proof. apply poly_aligned. by right. Qed.

Lemma shifts_kernel n c : word c -> aligned a c -> shifts poly n c = 0 -> c = 0.
Proof.
  intros Hc Ha. pose proof length_range. induction n as [|n IH]; [done|]. intros E. apply IH.
  apply shift1_kernel; [by apply shifts_word; [apply crc_poly_word|]| |done].
  apply shifts_aligned; [lia|apply poly_al|done].
Qed.

Lemma shifts_inj n c d : word c -> word d -> aligned a c -> aligned a d -> shifts poly n c = shifts poly n d -> c = d.
Proof.
  intros Hc Hd Ac Ad E. apply Z.lxor_eq, (shifts_kernel n); [by apply lxor_word|by apply aligned_lxor|].
  rewrite shifts_lxor, E by apply crc_poly_word. apply Z.lxor_nilpotent.
Qed.

Lemma crc_fold_inj bs : forall c d, word c -> word d -> aligned a c -> aligned a d ->
  fold_left (crc_step poly) bs c = fold_left (crc_step poly) bs d -> c = d.
Proof.
  pose proof length_range.
  induction bs as [|b bs IH]; intros c d Hc Hd Ac Ad E; [done|]. cbn [fold_left] in E.
  assert (Hw : forall z, word z -> aligned a z -> word (Z.lxor z (Z.shiftl (b2z b) 31)) /\
    aligned a (Z.lxor z (Z.shiftl (b2z b) 31))).
  { intros z Wz Az. split; [apply lxor_word; [done|destruct b; split; vm_compute; congruence]|].
    apply aligned_lxor; [done|apply aligned_shiftl; lia]. }
  destruct (Hw c Hc Ac), (Hw d Hd Ad).
  apply IH in E; try apply shift1_word; try apply crc_poly_word;
    try (apply shift1_aligned; [lia|apply poly_al|done]).
  apply (shifts_inj 1) in E; try done. apply (f_equal (fun z => Z.lxor z (Z.shiftl (b2z b) 31))) in E.
  by rewrite !Z.lxor_assoc, Z.lxor_nilpotent, !Z.lxor_0_r in E.
Qed.

Lemma of_bits_inj b1 b2 : length b1 = length b2 -> of_bits b1 = of_bits b2 -> b1 = b2.
Proof.
  revert b2. induction b1 as [|u b1 IH]; intros [|v b2] Hl E; try done. cbn in Hl. injection Hl as Hl.
  rewrite !of_bits_cons in E. pose proof (of_bits_bound b1). pose proof (of_bits_bound b2).
  unfold zlen in *. rewrite <- Hl in *.
  assert (Euv : b2z u = b2z v) by (destruct u, v; cbn [b2z] in *; lia).
  f_equal; [by destruct u, v|]. apply IH; [done|]. rewrite Euv in E. lia.
Qed.

(** The register tells two short inputs apart. *)
Lemma burst_inj c b1 b2 : word c -> aligned a c -> length b1 = length b2 -> zlen b1 <= crc_length x ->
  fold_left (crc_step poly) b1 c = fold_left (crc_step poly) b2 c -> b1 = b2.
Proof.
  intros Hc Ac Hl Hn E. pose proof length_range. pose proof (of_bits_bound b1) as B1. pose proof (of_bits_bound b2) as B2.
  unfold zlen in *. rewrite !feed in E by (apply crc_poly_word || lia). unfold zlen in E. rewrite <- Hl in *.
  assert (Hw : forall z, 0 <= z < 2 ^ Z.of_nat (length b1) -> word (Z.shiftl z (32 - Z.of_nat (length b1)))).
  { intros z Hz. rewrite Z.shiftl_mul_pow2 by lia. unfold word.
    replace (2 ^ 32) with (2 ^ Z.of_nat (length b1) * 2 ^ (32 - Z.of_nat (length b1)))
      by (rewrite <- Z.pow_add_r by lia; f_equal; lia). nia. }
  apply shifts_inj in E; try (apply lxor_word; auto); try (apply aligned_lxor; [done|apply aligned_shiftl; lia]).
  apply (f_equal (Z.lxor c)) in E. rewrite <- !Z.lxor_assoc, Z.lxor_nilpotent, !Z.lxor_0_l in E.
  apply (f_equal (fun z => Z.shiftr z (32 - Z.of_nat (length b1)))) in E.
  rewrite !Z.shiftr_shiftl_l, Z.sub_diag, !Z.shiftl_0_r in E by lia. by apply of_bits_inj.
Qed.

Lemma crc_burst pre b1 b2 post : length b1 = length b2 -> zlen b1 <= crc_length x ->
  crc_bits poly (pre ++ b1 ++ post) = crc_bits poly (pre ++ b2 ++ post) -> b1 = b2.
Proof.
  intros Hl Hn E. pose proof length_range.
  assert (Ha : 0 <= a <= 31) by lia. pose proof poly_al as Hal.
  destruct (crc_bits_ok poly (crc_poly_word x) a Ha Hal pre) as [Wc Ac].
  rewrite !crc_bits_app, !fold_left_app in E. apply crc_fold_inj in E.
  2-5: apply (crc_fold_ok poly (crc_poly_word x) a Ha Hal _ _ Wc Ac).
  by apply burst_inj in E.
Qed.

End Burst.

(** ** [check_crc] *)

(** The types [check_crc] knows. *)
Definition crc_type_of (x : crc_name) : option Z :=
  match x with C24a => Some CRC24_A | C24b => Some CRC24_B | C16 => Some CRC16 | C8 => Some CRC8 | _ => None end.

Lemma read_crc_spec data n L : 0 < L <= 3 -> Forall is_byte data -> n mod 8 = 0 -> 8 * L <= n <= 8 * zlen data ->
  n < 2 ^ 31 ->
  read_crc data n L = Ok (of_bits (bits (take (Z.to_nat L) (drop (Z.to_nat (n / 8 - L)) data)))).
Proof.
  intros HL HF Hm Hn Hmax. unfold read_crc. rewrite Z.shiftr_div_pow2 by lia. change (2 ^ 3) with 8.
  pose proof (Z.div_mod n 8 ltac:(lia)) as En. set (m := n / 8) in *.
  set (seg i := take (Z.to_nat i) (drop (Z.to_nat (m - L)) data)).
  match goal with |- for_loop 0 L ?body 0 = _ =>
    destruct (for_loop_inv (fun i old => old = Z.shiftl (of_bits (bits (seg i))) (8 * (L - i))) 0 L body 0) as (c & -> & ->) end.
  - lia.
  - by rewrite Z.shiftl_0_l.
  - intros j old Hj ->. assert (Eu : u32 (m - L + j) = m - L + j) by (apply Z.mod_small; lia). rewrite Eu.
    destruct (rd_ok data (m - L + j)) as (v & -> & Hv); [lia|]. mon. eexists. split; [done|].
    assert (Hb : is_byte v) by (rewrite Forall_lookup in HF; by eapply HF). unfold is_byte in Hb.
    assert (Es : seg (j + 1) = seg j ++ [v]).
    { unfold seg. replace (Z.to_nat (j + 1)) with (S (Z.to_nat j)) by lia. apply take_S_r. rewrite lookup_drop.
      rewrite <- Hv. f_equal. lia. }
    assert (Hl : zlen (bits (seg j)) = 8 * j).
    { unfold seg, zlen in *. rewrite length_bits, length_take, length_drop. lia. }
    pose proof (of_bits_bound (bits (seg j))) as Ho. rewrite Hl in Ho. set (A := of_bits (bits (seg j))) in *.
    rewrite Es, bits_app, of_bits_app. change (bits [v]) with (zbits 8 v). rewrite of_zbits. fold A.
    change (2 ^ zlen (zbits 8 v)) with (2 ^ 8). change (2 ^ Z.of_nat 8) with 256. rewrite (Z.mod_small v) by lia.
    rewrite add_lxor by lia. rewrite (Z.shiftl_mul_pow2 (L - 1 - j) 3) by lia. change (2 ^ 3) with 8.
    rewrite Z.shiftl_lxor, Z.shiftl_shiftl by lia.
    replace (8 + 8 * (L - (j + 1))) with (8 * (L - j)) by lia. replace ((L - 1 - j) * 8) with (8 * (L - (j + 1))) by lia.
    set (k := 8 * (L - (j + 1))). assert (0 <= k <= 16) by lia. replace (8 * (L - j)) with (k + 8) by lia.
    assert (Hlow : 0 <= Z.shiftl v k < 2 ^ (k + 8)).
    { rewrite Z.shiftl_mul_pow2, Z.pow_add_r by lia. change (2 ^ 8) with 256. nia. }
    assert (Hor : Z.lor (Z.shiftl A (k + 8)) (Z.shiftl v k) = Z.lxor (Z.shiftl A (k + 8)) (Z.shiftl v k)).
    { apply Z.bits_inj'. intros i Hi. rewrite Z.lor_spec, Z.lxor_spec. destruct (Z.lt_ge_cases i (k + 8)).
      - rewrite (Z.shiftl_spec_low A) by lia. by destruct (Z.testbit _ i).
      - rewrite (high_bits (k + 8) (Z.shiftl v k)) by lia. by destruct (Z.testbit _ i). }
    rewrite Hor. unfold u32. apply Z.mod_small.
    assert (Hbig : 0 <= Z.lxor (Z.shiftl A (k + 8)) (Z.shiftl v k) < 2 ^ 24); [|lia].
    assert (2 ^ (k + 8) <= 2 ^ 24) by (apply Z.pow_le_mono_r; lia).
    apply lxor_bound; [lia| |lia]. rewrite Z.shiftl_mul_pow2 by lia. split; [nia|].
    assert (E24 : 2 ^ 24 >= 2 ^ (8 * j) * 2 ^ (k + 8)).
    { rewrite <- Z.pow_add_r by lia. apply Z.le_ge, Z.pow_le_mono_r; lia. }
    nia.
  - unfold seg. rewrite Z.sub_diag, Z.shiftl_0_r. done.
Qed.

(** ** The theorems *)

Lemma drop_take_middle {A} (l : list A) (n k : nat) : (k <= n)%nat ->
  take n l = take (n - k) l ++ take k (drop (n - k) l).
Proof. intros H. rewrite take_take_drop. f_equal. lia. Qed.

Lemma bits_take data n : bits (take n data) = take (8 * n) (bits data).
Proof.
  revert n. induction data as [|v data IH]; intros n; [by rewrite !firstn_nil|]. destruct n as [|n]; [done|].
  rewrite firstn_cons, !bits_cons, IH.
  replace (8 * S n)%nat with (length (zbits 8 v) + 8 * n)%nat by (rewrite length_zbits; lia).
  by rewrite take_app_add.
Qed.

Lemma bits_drop data n : bits (drop n data) = drop (8 * n) (bits data).
Proof.
  revert n. induction data as [|v data IH]; intros n; [by rewrite !skipn_nil|]. destruct n as [|n]; [done|].
  rewrite skipn_cons, bits_cons, IH.
  replace (8 * S n)%nat with (length (zbits 8 v) + 8 * n)%nat by (rewrite length_zbits; lia).
  by rewrite drop_app_add.
Qed.

(** The remainder by the generator polynomial, from the aligned register. *)
Lemma crc_bits_remainder x bs : exists q r, 0 <= q /\ 0 <= r < 2 ^ crc_length x /\
  crc_bits (crc_poly x) bs = Z.shiftl r (32 - crc_length x) /\
  of_bits bs * 2 ^ crc_length x = Z.lxor (clmul q (crc_gen x)) r.
Proof.
  pose proof (length_range x) as Hr. destruct (crc_bits_division (crc_poly x) bs (crc_poly_word x)) as (q & Hq & E).
  destruct (crc_bits_ok _ (crc_poly_word x) (32 - crc_length x) ltac:(lia) (poly_al x) bs) as [Wc Ac].
  set (c := crc_bits (crc_poly x) bs) in *. set (k := 32 - crc_length x) in *. exists q, (Z.shiftr c k).
  assert (Hb : 0 <= Z.shiftr c k < 2 ^ crc_length x).
  { rewrite Z.shiftr_div_pow2 by lia. split; [apply Z.div_pos; unfold word in Wc; lia|].
    apply Z.div_lt_upper_bound; [lia|]. rewrite <- Z.pow_add_r by lia. unfold k.
    replace (32 - crc_length x + crc_length x) with 32 by lia. apply Wc. }
  assert (Ec : c = Z.shiftl (Z.shiftr c k) k).
  { rewrite <- (aligned_drop k c) at 1 by (done || lia). apply Z.mod_small.
    rewrite Z.shiftl_mul_pow2 by lia. replace (2 ^ 32) with (2 ^ crc_length x * 2 ^ k)
      by (rewrite <- Z.pow_add_r by lia; f_equal; lia). nia. }
  split; [done|]. split; [done|]. split; [done|].
  rewrite <- crc_gen_aligned, clmul_shiftl in E by lia. fold k in E. rewrite Ec, <- Z.shiftl_lxor in E.
  replace (2 ^ 32) with (2 ^ crc_length x * 2 ^ k) in E by (rewrite <- Z.pow_add_r by lia; f_equal; lia).
  rewrite Z.mul_assoc, Z.shiftl_mul_pow2 in E by lia. apply Z.mul_reg_r in E; [done|lia].
Qed.

Lemma shifts_0 poly k : shifts poly k 0 = 0.
Proof. induction k as [|k IH]; [done|]. cbn [shifts]. by rewrite IH. Qed.

(** Appending the register's bits brings it to 0, and nothing else of that length does. *)
Lemma crc_append_zero x pre suf : zlen suf = crc_length x ->
  (Z.shiftr (crc_bits (crc_poly x) pre) (32 - crc_length x) =? of_bits suf) = (crc_bits (crc_poly x) (pre ++ suf) =? 0).
Proof.
  intros Hsl. pose proof (length_range x) as Hr. pose proof (of_bits_bound suf) as Bs. rewrite Hsl in Bs.
  destruct (crc_bits_ok _ (crc_poly_word x) (32 - crc_length x) ltac:(lia) (poly_al x) pre) as [Wc Ac].
  set (c := crc_bits (crc_poly x) pre) in *.
  assert (Hfeed : crc_bits (crc_poly x) (pre ++ suf) =
    shifts (crc_poly x) (length suf) (Z.lxor c (Z.shiftl (of_bits suf) (32 - crc_length x)))).
  { rewrite crc_bits_app, feed by (apply crc_poly_word || unfold zlen in *; lia). by rewrite Hsl. }
  assert (Wsuf : word (Z.shiftl (of_bits suf) (32 - crc_length x))).
  { rewrite Z.shiftl_mul_pow2 by lia. unfold word. replace (2 ^ 32) with (2 ^ crc_length x * 2 ^ (32 - crc_length x))
      by (rewrite <- Z.pow_add_r by lia; f_equal; lia). nia. }
  rewrite Hfeed. destruct (Z.eqb_spec (Z.shiftr c (32 - crc_length x)) (of_bits suf)) as [Eq|Nq]; symmetry.
  - apply Z.eqb_eq. rewrite <- Eq. rewrite <- (aligned_drop (32 - crc_length x) c) at 1 by (done || lia).
    assert (Eu : u32 (Z.shiftl (Z.shiftr c (32 - crc_length x)) (32 - crc_length x)) =
      Z.shiftl (Z.shiftr c (32 - crc_length x)) (32 - crc_length x)) by (apply Z.mod_small; rewrite Eq; apply Wsuf).
    rewrite Eu, Z.lxor_nilpotent. apply shifts_0.
  - apply Z.eqb_neq. intros E0. apply Nq. apply shifts_kernel in E0;
      [|by apply lxor_word|apply aligned_lxor; [done|apply aligned_shiftl; lia]].
    apply Z.lxor_eq in E0. rewrite E0, Z.shiftr_shiftl_l, Z.sub_diag, Z.shiftl_0_r by lia. done.
Qed.

(** What [check_crc] decides: the bitwise CRC over data and parity bits is 0. *)
Lemma check_crc_spec x ty t data n : crc_type_of x = Some ty -> tables_ok t -> Forall is_byte data -> n mod 8 = 0 ->
  crc_length x <= n <= 8 * zlen data -> n < 2 ^ 31 ->
  check_crc t data n ty = Ok (if crc_bits (crc_poly x) (take (Z.to_nat n) (bits data)) =? 0 then 1 else 0).
Proof.
  intros Hty Ht HF Hm Hn Hmax. pose proof (length_range x) as Hr.
  assert (HL : crc_length x = 8 * crc_len_of ty /\ 0 < crc_len_of ty <= 3)
    by (destruct x; inversion Hty; subst; vm_compute; intuition congruence).
  destruct HL as [HL HL3]. set (L := crc_len_of ty) in *.
  pose proof (Z.div_mod n 8 ltac:(lia)) as En.
  set (pre := take (Z.to_nat (n - 8 * L)) (bits data)).
  set (suf := bits (take (Z.to_nat L) (drop (Z.to_nat (n / 8 - L)) data))).
  assert (Esplit : take (Z.to_nat n) (bits data) = pre ++ suf).
  { rewrite (drop_take_middle (bits data) (Z.to_nat n) (Z.to_nat (8 * L))) by lia. unfold pre, suf.
    rewrite bits_take, bits_drop. f_equal; f_equal; [lia|lia|f_equal; lia]. }
  assert (Hsl : zlen suf = crc_length x).
  { unfold suf, zlen in *. rewrite length_bits, length_take, length_drop. lia. }
  destruct (crc_bits_ok _ (crc_poly_word x) (32 - crc_length x) ltac:(lia) (poly_al x) pre) as [Wc Ac].
  set (c := crc_bits (crc_poly x) pre) in *. pose proof (of_bits_bound suf) as Bs. rewrite Hsl in Bs.
  assert (Eread : read_crc data n L = Ok (of_bits suf)) by (apply read_crc_spec; done || lia).
  assert (Es : s32 (u32 (n - crc_length x)) = n - crc_length x).
  { unfold u32. rewrite Z.mod_small by lia. apply s32_small. lia. }
  assert (Ecrc : crc_fun x t data (n - crc_length x) = Ok c).
  { rewrite crc_fun_spec by (done || lia). unfold c, pre. do 3 f_equal. lia. }
  assert (Emask : Z.land (of_bits suf) (Z.ones (crc_length x)) = of_bits suf)
    by (rewrite Z.land_ones by lia; by apply Z.mod_small).
  assert (Ecmp : (Z.shiftr c (32 - crc_length x) =? of_bits suf) = (crc_bits (crc_poly x) (pre ++ suf) =? 0))
    by (by apply crc_append_zero).
  rewrite Esplit, <- Ecmp. unfold check_crc. fold L. rewrite Eread, bind_Ok.
  destruct x; inversion Hty; subst ty; clear Hty; cbn [crc_length crc_fun] in *.
  all: cbv [CRC24_A CRC24_B CRC16 CRC8 Z.eqb Pos.eqb]; rewrite Es, Ecrc, bind_Ok, bind_Ok.
  all: cbv beta iota; change 0x00ffffff with (Z.ones 24); change 0x0000ffff with (Z.ones 16); change 0x000000ff with (Z.ones 8).
  all: rewrite Emask; exact eq_refl.
Qed.

(** ** A CRC that the coders append *)

(** The octets of a CRC in the order of transmission. *)
Definition crc_octets (x : crc_name) (crc : Z) : bytes :=
  match x with
  | C24a | C24b | C24c => [byte_of crc 2; byte_of crc 1; byte_of crc 0]
  | C16 => [byte_of crc 1; byte_of crc 0]
  | C8 => [byte_of crc 0]
  | _ => []
  end.

Lemma byte_of_byte crc i : is_byte (byte_of crc i).
Proof. apply Z.mod_pos_bound. lia. Qed.

Lemma crc_octets_byte x crc : Forall is_byte (crc_octets x crc).
Proof. destruct x; cbn; eauto 6 using byte_of_byte. Qed.

Lemma of_bits_octets x ty crc : crc_type_of x = Some ty -> 0 <= crc < 2 ^ crc_length x ->
  zlen (bits (crc_octets x crc)) = crc_length x /\ of_bits (bits (crc_octets x crc)) = crc.
Proof.
  intros Hty Hc. assert (Hb : forall i, 0 <= i -> byte_of crc i = crc / 2 ^ (8 * i) mod 256).
  { intros i Hi. unfold byte_of, u8. by rewrite Z.shiftr_div_pow2 by lia. }
  pose proof (Hb 0 ltac:(lia)) as H0. pose proof (Hb 1 ltac:(lia)) as H1. pose proof (Hb 2 ltac:(lia)) as H2.
  cbn [Z.mul Pos.mul Z.pow Z.pow_pos Pos.iter] in H0, H1, H2.
  pose proof (byte_of_byte crc 0) as B0. pose proof (byte_of_byte crc 1) as B1. pose proof (byte_of_byte crc 2) as B2.
  unfold is_byte in *.
  assert (Hz : forall v, of_bits (zbits 8 v) = v mod 256) by (intros v; rewrite of_zbits; reflexivity).
  assert (Hzl : forall v, zlen (zbits 8 v) = 8) by done.
  destruct x; inversion Hty; subst ty; cbn [crc_octets crc_length] in *; (split; [done|]);
    rewrite ?bits_cons; change (bits []) with (@nil bool); rewrite app_nil_r; rewrite ?of_bits_app, ?Hz, ?zlen_app, ?Hzl.
  all: rewrite !Z.mod_small by lia; rewrite H0, ?H1, ?H2; Z.to_euclidean_division_equations; lia.
Qed.

Lemma check_crc_append x ty t d rest : crc_type_of x = Some ty -> tables_ok t -> Forall is_byte d -> Forall is_byte rest ->
  8 * zlen d + crc_length x < 2 ^ 31 ->
  check_crc t (d ++ crc_octets x (Z.shiftr (crc_bits (crc_poly x) (bits d)) (32 - crc_length x)) ++ rest)
    (8 * zlen d + crc_length x) ty = Ok 1.
Proof.
  intros Hty Ht Hd Hr Hmax. pose proof (length_range x) as Hlen.
  destruct (crc_bits_remainder x (bits d)) as (_ & r & _ & Hb & Ec & _).
  set (crc := Z.shiftr (crc_bits (crc_poly x) (bits d)) (32 - crc_length x)).
  assert (Hcrc : crc = r) by (unfold crc; rewrite Ec, Z.shiftr_shiftl_l, Z.sub_diag, Z.shiftl_0_r by lia; done).
  destruct (of_bits_octets x ty crc Hty ltac:(rewrite Hcrc; exact Hb)) as [El Eo].
  assert (H8 : crc_length x = 8 * zlen (crc_octets x crc)).
  { unfold zlen in *. rewrite length_bits in El. lia. }
  rewrite (check_crc_spec x ty).
  - assert (Et : take (Z.to_nat (8 * zlen d + crc_length x)) (bits (d ++ crc_octets x crc ++ rest)) = bits d ++ bits (crc_octets x crc)).
    { rewrite app_assoc, bits_app, bits_app. apply take_app_length'. unfold zlen in *. rewrite length_app, !length_bits. lia. }
    rewrite Et, <- crc_append_zero by done. fold crc. rewrite Eo, Z.eqb_refl. exact eq_refl.
  - exact Hty.
  - exact Ht.
  - apply Forall_app; split; [done|]. apply Forall_app; split; [apply crc_octets_byte|done].
  - rewrite H8, <- Z.mul_add_distr_l, Z.mul_comm. apply Z.mod_mul. lia.
  - rewrite !zlen_app. unfold zlen in *. lia.
  - exact Hmax.
Qed.

(** ** The main results *)


(** [C25] A data block that [check_crc] accepts is rejected by it after any change of its bits that
    stays within a window no longer than the CRC. *)
Theorem check_crc_detects_bursts t x ty data data' n pre b1 b2 post :
  crcTableInit zero_tables = Ok t -> crc_type_of x = Some ty -> Forall is_byte data -> Forall is_byte data' ->
  zlen data' = zlen data -> n mod 8 = 0 -> crc_length x <= n <= 8 * zlen data -> n < 2 ^ 31 ->
  take (Z.to_nat n) (bits data) = pre ++ b1 ++ post -> take (Z.to_nat n) (bits data') = pre ++ b2 ++ post ->
  length b1 = length b2 -> zlen b1 <= crc_length x -> b1 <> b2 ->
  check_crc t data n ty = Ok 1 -> check_crc t data' n ty = Ok 0.
Proof.
  intros Et Hty HF HF' Hl Hm Hn Hmax E1 E2 Hlb Hb Hne. destruct crcTableInit_ok as (t' & Et' & Ht).
  rewrite Et in Et'. apply Ok_inj in Et' as <-.
  rewrite (check_crc_spec x ty t data n Hty Ht HF Hm Hn Hmax), E1.
  rewrite (check_crc_spec x ty t data' n Hty Ht HF' Hm ltac:(rewrite Hl; exact Hn) Hmax), E2. intros H.
  destruct (Z.eqb_spec (crc_bits (crc_poly x) (pre ++ b1 ++ post)) 0) as [Z1|]; [|done].
  destruct (Z.eqb_spec (crc_bits (crc_poly x) (pre ++ b2 ++ post)) 0) as [Z2|]; [|done].
  exfalso. apply Hne, (crc_burst x pre b1 b2 post); [done|done|]. by rewrite Z1, Z2.
Qed.

(** The [default] cases of [check_crc] assert 1: an unknown type accepts every block. *)
Lemma check_crc_unknown_type t data n ty : crc_len_of ty = 0 -> check_crc t data n ty = Ok 1.
Proof.
  unfold crc_len_of, check_crc.
  destruct (ty =? CRC24_A) eqn:E1, (ty =? CRC24_B) eqn:E2, (ty =? CRC16) eqn:E3, (ty =? CRC8) eqn:E4; cbn [orb]; try done.
  intros _. unfold crc_len_of. rewrite E1, E2, E3, E4. done.
Qed.

(** ** Witnesses *)

Definition demo_tables : crc_tables := match crcTableInit zero_tables with Ok t => t | _ => zero_tables end.

Lemma demo_tables_ok : crcTableInit zero_tables = Ok demo_tables.
Proof. vm_compute. reflexivity. Qed.

(** Five octets and their CRC24A. *)
Definition demo_block : bytes := [0x31; 0x32; 0x33; 0x34; 0x35; 25; 142; 192].

Lemma check_crc_detects_bursts_witness : check_crc demo_tables demo_block 64 CRC24_A = Ok 1 /\
  check_crc demo_tables (<[2%nat := 0x30]> demo_block) 64 CRC24_A = Ok 0.
Proof.
  split; [vm_compute; reflexivity|].
  apply (check_crc_detects_bursts demo_tables C24a CRC24_A demo_block (<[2%nat := 0x30]> demo_block) 64
    (take 22 (bits demo_block)) (take 2 (drop 22 (bits demo_block))) [false; false] (drop 24 (bits demo_block))).
  - exact demo_tables_ok.
  - reflexivity.
  - repeat constructor; vm_compute; congruence.
  - repeat constructor; vm_compute; congruence.
  - reflexivity.
  - reflexivity.
  - split; vm_compute; congruence.
  - reflexivity.
  - vm_compute. reflexivity.
  - vm_compute. reflexivity.
  - reflexivity.
  - vm_compute. congruence.
  - vm_compute. congruence.
  - vm_compute. reflexivity.
Defined.
