(* ===== verification/Tbs.v ===== *)
(** * Transport block size and base graph

    [src/openair2/LAYER2/NR_MAC_COMMON/nr_compute_tbs_common.c] and [get_BG] of
    [nr_mac_common.c]: what the scheduler of the gNB and the UE both compute, and the
    channel coder relies on.  [R] is the code rate times 10240. *)

From S2P Require Import Prelude.

Module Tbs.

(** ** The code *)

Definition NR_MAX_PDSCH_TBS : Z := 3824.

Definition CEILIDIV (a b : Z) : Z := u32 (a + b - 1) / b.
Definition ROUNDIDIV (a b : Z) : Z := u32 (u32 (Z.shiftl a 1) + b) / u32 (Z.shiftl b 1).

Definition Tbstable_nr : list Z := [
  24; 32; 40; 48; 56; 64; 72; 80; 88; 96; 104; 112; 120; 128; 136; 144; 152; 160; 168;
  176; 184; 192; 208; 224; 240; 256; 272; 288; 304; 320; 336; 352; 368; 384; 408; 432; 456; 480;
  504; 528; 552; 576; 608; 640; 672; 704; 736; 768; 808; 848; 888; 928; 984; 1032; 1064; 1128; 1160;
  1192; 1224; 1256; 1288; 1320; 1352; 1416; 1480; 1544; 1608; 1672; 1736; 1800; 1864; 1928; 2024; 2088; 2152; 2216;
  2280; 2408; 2472; 2536; 2600; 2664; 2728; 2792; 2856; 2976; 3104; 3240; 3368; 3496; 3624; 3752; 3824].

Definition NPRB_LBRM : list Z := [32; 66; 107; 135; 162; 217; 273].

(** The loop that looks for the first entry that is not smaller, and its [break]; [d] when there is none. *)
Fixpoint first_ge (tab : list Z) (v d : Z) : Z :=
  match tab with [] => d | a :: tab => if a >=? v then a else first_ge tab v d end.

(** [floor(log2(Ninfo)) - 6] is minus infinity for 0. *)
Definition small_shift (Ninfo : Z) : Z := if Ninfo =? 0 then 3 else Z.max 3 (Z.log2 Ninfo - 6).

Definition tbs_small (Ninfo : Z) : Z :=
  let n := small_shift Ninfo in
  let Np_info := Z.max 24 (u32 (Z.shiftl (Z.shiftr Ninfo n) n)) in
  first_ge Tbstable_nr Np_info 0.

(** The case above 3824 bits; [low_rate] is the test on [R]. *)
Definition tbs_large (Ninfo : Z) (low_rate : bool) : Z :=
  let n := Z.log2 (Ninfo - 24) - 5 in
  let Np_info := Z.max 3840 (u32 (Z.shiftl (ROUNDIDIV (Ninfo - 24) (Z.shiftl 1 n)) n)) in
  let np24 := u32 (Np_info + 24) in
  if low_rate then
    let C := CEILIDIV np24 3816 in
    u32 (u32 (u32 (Z.shiftl C 3) * CEILIDIV np24 (u32 (Z.shiftl C 3))) - 24)
  else if Np_info >? 8424 then
    let C := CEILIDIV np24 8424 in
    u32 (u32 (u32 (Z.shiftl C 3) * CEILIDIV np24 (u32 (Z.shiftl C 3))) - 24)
  else u32 (u32 (Z.shiftl (CEILIDIV np24 8) 3) - 24).

(** [Ninfo]: the unsigned subtraction and products wrap around. *)
Definition tbs_Ninfo (Qm R nb_rb nb_symb_sch nb_dmrs_prb nb_rb_oh tb_scaling Nl : Z) : Z :=
  let nbp_re := u32 (12 * nb_symb_sch - nb_dmrs_prb - nb_rb_oh) in
  let nb_re := u32 (Z.min 156 nbp_re * nb_rb) in
  let R_5 := R / 5 in
  Z.shiftr (Z.shiftr (u32 (u32 (u32 (nb_re * R_5) * Qm) * Nl)) 11) tb_scaling.

Definition nr_compute_tbs (Qm R nb_rb nb_symb_sch nb_dmrs_prb nb_rb_oh tb_scaling Nl : Z) : Z :=
  let Ninfo := tbs_Ninfo Qm R nb_rb nb_symb_sch nb_dmrs_prb nb_rb_oh tb_scaling Nl in
  if Ninfo <=? NR_MAX_PDSCH_TBS then tbs_small Ninfo else tbs_large Ninfo (R <=? 2560).

(** [R] is 948 there, so its test on 256 is false. *)
Definition nr_compute_tbslbrm (table nb_rb Nl : Z) : Z :=
  let nb_rb_lbrm := first_ge NPRB_LBRM nb_rb 0 in
  let Qm := if table =? 1 then 8 else 6 in
  let R := 948 in
  let nb_re := u16 (156 * nb_rb_lbrm) in
  let Ninfo := u32 (Z.shiftr (nb_re * R * Qm * Nl) 10) in
  if Ninfo <=? NR_MAX_PDSCH_TBS then tbs_small Ninfo else tbs_large Ninfo (R <=? 256).

(** [code_rate <= 0.6667] and [code_rate <= 0.25] for [code_rate = R / 10240.0f]: the rounding of
    the division, at most 2^-24 relative, does not cross a bound for an integral [R]. *)
Definition get_BG (A R : Z) : Z :=
  if (A <=? 292) || ((A <=? NR_MAX_PDSCH_TBS) && (R * 10000 <=? 6667 * 10240)) || (R * 4 <=? 10240) then 2 else 1.

(** ** Ranges *)

Lemma CEILIDIV_spec a b : 0 < b -> 0 <= a -> a + b < 2 ^ 32 ->
  b * (CEILIDIV a b) < a + b /\ a <= b * CEILIDIV a b /\ 0 <= CEILIDIV a b.
Proof.
  intros Hb Ha Hs. unfold CEILIDIV, u32. rewrite Z.mod_small by lia.
  pose proof (Z.div_mod (a + b - 1) b ltac:(lia)). pose proof (Z.mod_pos_bound (a + b - 1) b ltac:(lia)).
  assert (0 <= (a + b - 1) / b) by (apply Z.div_pos; lia). lia.
Qed.

Lemma first_ge_in tab v d : first_ge tab v d ∈ tab \/ first_ge tab v d = d.
Proof.
  induction tab as [|a tab IH]; [by right|]. cbn. case_if; [left; constructor|].
  destruct IH; [left; by constructor|by right].
Qed.

(** The number of information bits is below 2^21 whatever the parameters. *)
Lemma tbs_Ninfo_range Qm R nb_rb nb_symb_sch nb_dmrs_prb nb_rb_oh tb_scaling Nl : 0 <= tb_scaling ->
  0 <= tbs_Ninfo Qm R nb_rb nb_symb_sch nb_dmrs_prb nb_rb_oh tb_scaling Nl < 2 ^ 21.
Proof.
  intros Hs. unfold tbs_Ninfo. set (x := u32 (u32 _ * Nl)). assert (Hx : 0 <= x < 2 ^ 32) by (apply Z.mod_pos_bound; lia).
  rewrite !Z.shiftr_div_pow2 by lia. clearbody x.
  assert (Hd : 0 <= x / 2 ^ 11 < 2 ^ 21).
  { split; [apply Z.div_pos; lia|]. apply Z.div_lt_upper_bound; lia. }
  pose proof (Z.pow_pos_nonneg 2 tb_scaling ltac:(lia) Hs). split; [apply Z.div_pos; lia|].
  apply Z.div_lt_upper_bound; [lia|]. nia.
Qed.

(** The quantised number of information bits above 3824. *)
Lemma Np_info_range Ninfo : 3824 < Ninfo < 2 ^ 21 ->
  let n := Z.log2 (Ninfo - 24) - 5 in
  let Np_info := Z.max 3840 (u32 (Z.shiftl (ROUNDIDIV (Ninfo - 24) (Z.shiftl 1 n)) n)) in
  3840 <= Np_info < 2 ^ 22.
Proof.
  intros H n Np. split; [unfold Np; lia|]. assert (Hn : 0 <= n <= 15).
  { unfold n. pose proof (Z.log2_le_mono 3801 (Ninfo - 24) ltac:(lia)). change (Z.log2 3801) with 11 in *.
    pose proof (Z.log2_lt_pow2 (Ninfo - 24) 21 ltac:(lia)). lia. }
  unfold Np, ROUNDIDIV, u32. rewrite !Z.shiftl_mul_pow2 by lia. rewrite Z.mul_1_l.
  assert (Hp : 1 <= 2 ^ n <= 2 ^ 15) by (split; [pose proof (Z.pow_pos_nonneg 2 n); lia|apply Z.pow_le_mono_r; lia]).
  rewrite (Z.mod_small ((Ninfo - 24) * 2 ^ 1)), (Z.mod_small (2 ^ n * 2 ^ 1)), (Z.mod_small (_ + 2 ^ n)) by lia.
  set (q := ((Ninfo - 24) * 2 ^ 1 + 2 ^ n) / (2 ^ n * 2 ^ 1)).
  assert (Hq : 0 <= q * 2 ^ n < 2 ^ 22).
  { pose proof (Z.div_mod ((Ninfo - 24) * 2 ^ 1 + 2 ^ n) (2 ^ n * 2 ^ 1) ltac:(lia)) as E. fold q in E.
    pose proof (Z.mod_pos_bound ((Ninfo - 24) * 2 ^ 1 + 2 ^ n) (2 ^ n * 2 ^ 1) ltac:(lia)).
    assert (0 <= q) by (apply Z.div_pos; lia). split; nia. }
  rewrite Z.mod_small by lia. lia.
Qed.

End Tbs.
