(* ===== verification/Segmentation.v ===== *)
(** * Code block segmentation

    [src/openair1/PHY/CODING/nr_segmentation.c]: the transport block with its CRC is cut
    into code blocks, each with its own CRC24B when there are several, and filler; the
    lengths and CRC types of [src/openair1/PHY/defs_gNB.h]. *)

From S2P Require Import Prelude RlcPdu Crc Tbs.

Import Crc Tbs.

Module Segmentation.

(** ** The code *)

(** The variables the caller passes by reference. *)
Record seg_vars := mk_seg_vars { C : Z; K : Z; Zout : Z; F : Z }.

(** The number of code blocks, the CRC length and the size with the CRCs. *)
Definition seg_count (B Kcb : Z) : Z * Z * Z :=
  if B <=? Kcb then (0, 1, B)
  else
    let L := 24 in
    let c := B / (Kcb - L) in
    let c := if u32 ((Kcb - L) * c) <? B then u32 (c + 1) else c in
    (L, c, u32 (B + u32 (c * L))).

Definition seg_Kb (B BG : Z) : Z :=
  if BG =? 1 then 22
  else if B >? 640 then 10 else if B >? 560 then 9 else if B >? 192 then 8 else 6.

(** [*K = (Z>>s)<<s; if ( *K < Z) *K = *K + (1<<s);] *)
Definition round_up (z s : Z) : Z :=
  let k := Z.shiftl (Z.shiftr z s) s in if k <? z then k + Z.shiftl 1 s else k.

(** The cascade that finds the lifting size; [None] is [return -1]. *)
Definition lifting_size (z : Z) : option Z :=
  if z <=? 2 then Some 2
  else if z <=? 16 then Some z
  else if z <=? 32 then Some (round_up z 1)
  else if z <=? 64 then Some (round_up z 2)
  else if z <=? 128 then Some (round_up z 3)
  else if z <=? 256 then Some (round_up z 4)
  else if z <=? 384 then Some (round_up z 5)
  else None.

(** One round of [for (r=0; r<*C; r++)]: [s] is the read position in the input. *)
Definition seg_block (t : crc_tables) (input_buffer : bytes) (L Kprime : Z) (v : seg_vars) (r : Z)
    (st : Z * list bytes) : res (Z * list bytes) :=
  let '(s, output_buffers) := st in
  let len := Z.shiftr (Kprime - L) 3 in
  buf ← rd output_buffers r;
  '(s, buf) ← for_loop 0 len (fun k '(s, buf) =>
    x ← rd input_buffer s; buf ← wr buf k x; mret (s + 1, buf)) (s, buf);
  buf ← (if C v >? 1 then
           c ← crc24b t buf (Kprime - L);
           let crc := Z.shiftr c 8 in
           buf ← wr buf len (byte_of crc 2);
           buf ← wr buf (1 + len) (byte_of crc 1);
           wr buf (2 + len) (byte_of crc 0)
         else mret buf);
  buf ← (if F v >? 0 then for_loop (Z.shiftr Kprime 3) (Z.shiftr (K v) 3) (fun k buf => wr buf k 0) buf else mret buf);
  output_buffers ← wr output_buffers r buf;
  mret (s, output_buffers).

(** [bufs] are [input_buffer] and [output_buffers], [None] when one of them is NULL. *)
Definition nr_segmentation (t : crc_tables) (bufs : option (bytes * list bytes)) (B BG : Z) (v : seg_vars) :
    res (Z * seg_vars * option (list bytes)) :=
  let Kcb := if BG =? 1 then 8448 else 3840 in
  let '(L, c, Bprime) := seg_count B Kcb in
  let v := mk_seg_vars c (K v) (Zout v) (F v) in
  let Kprime := Bprime / c in
  let Kb := seg_Kb B BG in
  let z := if Kprime mod Kb >? 0 then Kprime / Kb + 1 else Kprime / Kb in
  match lifting_size z with
  | None => mret (-1, v, snd <$> bufs)
  | Some zc =>
      let k := if BG =? 1 then u32 (zc * 22) else u32 (zc * 10) in
      let v := mk_seg_vars c k zc (u32 (k - Kprime)) in
      match bufs with
      | None => mret (Kb, v, None)
      | Some (input_buffer, output_buffers) =>
          '(_, output_buffers) ← for_loop 0 c (seg_block t input_buffer L Kprime v) (0, output_buffers);
          mret (Kb, v, Some output_buffers)
      end
  end.

(** [lenWithCrc] and [crcType] of [defs_gNB.h]: the length the CRC of a segment covers, and its type. *)
Definition lenWithCrc (nbSeg len : Z) : Z :=
  if nbSeg >? 1 then Z.quot (len + 24 + 24 * nbSeg) nbSeg else len + (if len >? NR_MAX_PDSCH_TBS then 24 else 16).

Definition crcType (nbSeg len : Z) : Z :=
  if nbSeg >? 1 then CRC24_B else if len >? NR_MAX_PDSCH_TBS then CRC24_A else CRC16.

End Segmentation.
