(* ===== verification/SegmentationProps.v ===== *)
(** * Segmentation against TS 38.212, and its inverse

    The lifting sizes, the parameters, the content of every code block, and that a
    transport block of a size [nr_compute_tbs] returns is cut into equal whole octets. *)

From S2P Require Import Prelude RlcPdu Crc CrcProps Tbs Segmentation.

Import Crc Tbs Segmentation.

(** ** Lifting sizes *)

(** Table 5.3.2-1 of TS 38.212: [a * 2^j]. *)
Definition lifting_sizes : list Z :=
  filter (fun z => z <= 384) (a ← [2; 3; 5; 7; 9; 11; 13; 15]; j ← [0; 1; 2; 3; 4; 5; 6; 7]; [Z.shiftl a j]).

(** [zc] is the least lifting size that is not below [z]. *)
Definition least_lifting (z : Z) (r : option Z) : Prop :=
  match r with
  | Some zc => zc ∈ lifting_sizes /\ z <= zc /\ Forall (fun y => z <= y -> zc <= y) lifting_sizes
  | None => Forall (fun y => y < z) lifting_sizes
  end.

#[local] Instance least_lifting_dec z r : Decision (least_lifting z r).
Proof. destruct r; unfold least_lifting; apply _. Defined.

Lemma lifting_size_small : Forall (fun z => least_lifting z (lifting_size z)) (seqZ 0 385).
Proof. apply (bool_decide_unpack _). vm_compute. exact I. Qed.

Lemma lifting_size_spec z : 0 <= z -> least_lifting z (lifting_size z).
Proof.
  intros Hz. destruct (Z.le_gt_cases z 384) as [Hs|Hs].
  - assert (Hin : z ∈ seqZ 0 385) by (apply elem_of_seqZ; lia).
    exact (proj1 (Forall_forall _ _) lifting_size_small z Hin).
  - unfold lifting_size.
    rewrite (proj2 (Z.leb_gt z 2)), (proj2 (Z.leb_gt z 16)), (proj2 (Z.leb_gt z 32)), (proj2 (Z.leb_gt z 64)),
      (proj2 (Z.leb_gt z 128)), (proj2 (Z.leb_gt z 256)), (proj2 (Z.leb_gt z 384)) by lia.
    apply Forall_forall. intros y Hy. apply list_elem_of_filter in Hy as [Hy _]. lia.
Qed.

Lemma lifting_size_ok z : 0 <= z <= 384 -> exists zc, lifting_size z = Some zc /\ z <= zc <= 384 /\ 2 <= zc.
Proof.
  intros Hz. pose proof (lifting_size_spec z ltac:(lia)) as H. destruct (lifting_size z) as [zc|] eqn:E.
  - exists zc. destruct H as (Hin & Hle & _). apply list_elem_of_filter in Hin as [H3 Hin]. split; [done|]. split; [lia|].
    unfold lifting_size in E. repeat case_if_in E; inversion E; subst; bool_prop; try lia.
  - exfalso. unfold least_lifting in H. rewrite Forall_forall in H. specialize (H 384). enough (384 < z) by lia. apply H.
    apply (bool_decide_unpack _). vm_compute. exact I.
Qed.

(** ** The parameters *)

Lemma div_bounds a b : 0 < b -> b * (a / b) <= a < b * (a / b) + b.
Proof. intros Hb. pose proof (Z.div_mod a b ltac:(lia)). pose proof (Z.mod_pos_bound a b Hb). lia. Qed.

(** The number of code blocks is the least that leaves each at most [Kcb] bits. *)
Lemma seg_count_spec B Kcb : 0 <= B < 2 ^ 31 -> 24 < Kcb <= 8448 -> 3000 < Kcb ->
  exists L c Bp, seg_count B Kcb = (L, c, Bp) /\ 1 <= c <= 2 ^ 21 /\ 0 <= L <= 24 /\ Bp = B + c * L /\ Bp < 2 ^ 32 /\
    Bp / c = L + B / c /\ L + B / c <= Kcb /\ (c = 1 /\ L = 0 /\ B <= Kcb \/
    1 < c /\ L = 24 /\ Kcb < B /\ (c - 1) * (Kcb - 24) < B <= c * (Kcb - 24)).
Proof.
  intros HB HK HK2. unfold seg_count. destruct (Z.leb_spec B Kcb) as [Hle|Hgt].
  - exists 0, 1, B. rewrite !Z.div_1_r. split_and!; lia || done.
  - set (m := Kcb - 24) in *. pose proof (div_bounds B m ltac:(lia)) as Hd. set (q := B / m) in *.
    assert (Hq : 1 <= q <= B / 2976).
    { split; [apply Z.div_le_lower_bound; lia|]. apply Z.div_le_compat_l; lia. }
    assert (B / 2976 < 2 ^ 20) by (apply Z.div_lt_upper_bound; lia).
    assert (Eu : u32 (m * q) = m * q) by (apply Z.mod_small; lia). rewrite Eu.
    assert (Hc : exists c, (if m * q <? B then u32 (q + 1) else q) = c /\ 1 < c <= 2 ^ 20 /\ (c - 1) * m < B <= c * m).
    { destruct (Z.ltb_spec (m * q) B).
      - exists (q + 1). split; [apply Z.mod_small; lia|]. split; [lia|]. nia.
      - exists q. split; [done|]. assert (Hlt : m < B) by lia. split; [nia|]. nia. }
    destruct Hc as (c & -> & Hc & Hcm).
    assert (E1 : u32 (c * 24) = c * 24) by (apply Z.mod_small; lia). rewrite E1.
    assert (E2 : u32 (B + c * 24) = B + c * 24) by (apply Z.mod_small; lia). rewrite E2.
    exists 24, c, (B + c * 24). split; [done|]. split; [lia|]. split; [lia|]. split; [lia|]. split; [lia|].
    split; [rewrite (Z.mul_comm c 24), Z.div_add by lia; lia|]. split.
    + assert (B / c <= m); [|lia]. apply Z.div_le_upper_bound; lia.
    + right. lia.
Qed.

Definition Kcb_of (BG : Z) : Z := if BG =? 1 then 8448 else 3840.

(** The values [nr_segmentation] returns by reference. *)
Record seg_params (B BG : Z) (v : seg_vars) (L Kp : Z) : Prop := {
  sp_count : 1 <= C v;
  sp_L : L = if C v >? 1 then 24 else 0;
  sp_single : C v = 1 <-> B <= Kcb_of BG;
  sp_least : 1 < C v -> (C v - 1) * (Kcb_of BG - 24) < B <= C v * (Kcb_of BG - 24);
  sp_Kp : Kp = L + B / C v;
  sp_K : K v = (if BG =? 1 then 22 else 10) * Zout v;
  sp_F : F v = K v - Kp;
  sp_Z : least_lifting (- ((- Kp) / seg_Kb B BG)) (Some (Zout v));
  sp_range : 0 <= L <= Kp /\ Kp <= K v <= 8448 /\ 2 <= Zout v <= 384 /\ C v <= 2 ^ 21 }.

Lemma seg_Kb_range B BG : 6 <= seg_Kb B BG <= (if BG =? 1 then 22 else 10).
Proof. unfold seg_Kb. repeat case_if; lia. Qed.

Lemma ceil_div a b : 0 < b -> (if a mod b >? 0 then a / b + 1 else a / b) = - ((- a) / b).
Proof.
  intros Hb. pose proof (Z.mod_pos_bound a b Hb). destruct (Z.gtb_spec (a mod b) 0).
  - rewrite Z.div_opp_l_nz by lia. lia.
  - rewrite Z.div_opp_l_z by lia. lia.
Qed.

(** The lifting size exists: the search never fails. *)
Lemma seg_lifting B BG Kp : 0 <= B -> 0 <= Kp -> BG = 1 \/ BG = 2 -> Kp <= Kcb_of BG -> (B <= 640 -> Kp <= 640) ->
  exists zc, lifting_size (- ((- Kp) / seg_Kb B BG)) = Some zc /\ 2 <= zc <= 384 /\ Kp <= seg_Kb B BG * zc.
Proof.
  intros HB HK HBG Hmax Hsmall. pose proof (seg_Kb_range B BG) as Hkb. set (kb := seg_Kb B BG) in *.
  pose proof (div_bounds (- Kp) kb ltac:(lia)) as Hd. set (z := - ((- Kp) / kb)).
  assert (Hkp : Kp <= kb * 384).
  { unfold kb, seg_Kb, Kcb_of in *. destruct HBG as [-> | ->]; [change (1 =? 1) with true in *; cbv iota in *; lia|].
    change (2 =? 1) with false in *. cbv iota in *.
    destruct (Z.gtb_spec B 640); [lia|]. specialize (Hsmall ltac:(lia)). repeat case_if; lia. }
  assert (Hz : 0 <= z <= 384) by (unfold z; nia).
  destruct (lifting_size_ok z Hz) as (zc & E & H1 & H2). exists zc. split; [done|]. split; [lia|]. unfold z in *. nia.
Qed.

(** What the call does besides the buffers. *)
Lemma nr_segmentation_params t B BG v0 : 0 <= B < 2 ^ 31 -> BG = 1 \/ BG = 2 ->
  exists v L Kp, seg_params B BG v L Kp /\ nr_segmentation t None B BG v0 = Ok (seg_Kb B BG, v, None) /\
    forall input outs, nr_segmentation t (Some (input, outs)) B BG v0 =
      '(_, outs) ← for_loop 0 (C v) (seg_block t input L Kp v) (0, outs); mret (seg_Kb B BG, v, Some outs).
Proof.
  intros HB HBG. assert (HK : 3000 < Kcb_of BG <= 8448) by (destruct HBG as [-> | ->]; split; vm_compute; congruence).
  destruct (seg_count_spec B (Kcb_of BG) HB ltac:(lia) ltac:(lia)) as (L & c & Bp & E & Hc & HL & EBp & HBp & EKp & HKp & Hcase).
  set (Kp := L + B / c) in *. assert (0 <= B / c) by (apply Z.div_pos; lia).
  destruct (seg_lifting B BG Kp) as (zc & Ez & Hzc & Hk); [lia|lia|done|lia| |].
  { intros H640. destruct Hcase as [(-> & -> & _)|]; [unfold Kp; rewrite Z.div_1_r; lia|lia]. }
  pose proof (seg_Kb_range B BG) as Hkb.
  set (k := (if BG =? 1 then 22 else 10) * zc).
  assert (Hcol : 10 <= (if BG =? 1 then 22 else 10) <= 22) by (case_if; lia).
  assert (Hk2 : Kp <= k <= 8448) by (unfold k; clear EBp EKp; split; nia).
  exists (mk_seg_vars c k zc (k - Kp)), L, Kp.
  assert (Ek : (if BG =? 1 then u32 (zc * 22) else u32 (zc * 10)) = k).
  { unfold k, u32. case_if; rewrite Z.mod_small by lia; lia. }
  assert (EF : u32 (k - Kp) = k - Kp) by (apply Z.mod_small; lia).
  split; [|split].
  - constructor; cbn [C K Zout F]; try done; try lia.
    + destruct Hcase as [(-> & -> & _)|(? & -> & _)]; [done|]. destruct (Z.gtb_spec c 1); lia.
    + pose proof (lifting_size_spec (- (- Kp / seg_Kb B BG))) as Hl. rewrite Ez in Hl. apply Hl.
      unfold lifting_size in Ez. pose proof (div_bounds (- Kp) (seg_Kb B BG) ltac:(lia)). nia.
  - unfold nr_segmentation. fold (Kcb_of BG). rewrite E, EKp, ceil_div, Ez by lia.
    cbn [K Zout F]. rewrite Ek, EF. done.
  - intros input outs. unfold nr_segmentation. fold (Kcb_of BG). rewrite E, EKp, ceil_div, Ez by lia.
    cbn [K Zout F]. rewrite Ek, EF. done.
Qed.

(** ** The content of a code block *)

Lemma wr_middle {A} (l1 l2 : list A) x v i : i = zlen l1 -> wr (l1 ++ x :: l2) i v = Ok (l1 ++ v :: l2).
Proof.
  intros ->. rewrite wr_ok by (rewrite zlen_app; unfold zlen; cbn [length]; lia). f_equal. unfold zlen. rewrite Nat2Z.id.
  replace (length l1) with (length l1 + 0)%nat by lia. by rewrite insert_app_r.
Qed.

Lemma drop_cons {A} (l : list A) n : (n < length l)%nat -> exists x, l !! n = Some x /\ drop n l = x :: drop (S n) l.
Proof. intros H. destruct (lookup_lt_is_Some_2 l n H) as [x E]. exists x. split; [done|]. by apply drop_S. Qed.

(** The copying loop. *)
Lemma copy_loop (input buf : bytes) s n : 0 <= s -> 0 <= n -> s + n <= zlen input -> n <= zlen buf ->
  for_loop 0 n (fun k '(s, buf) => x ← rd input s; buf ← wr buf k x; mret (s + 1, buf)) (s, buf) =
    Ok (s + n, take (Z.to_nat n) (drop (Z.to_nat s) input) ++ drop (Z.to_nat n) buf).
Proof.
  intros Hs Hn Hi Hb. unfold zlen in *.
  match goal with |- for_loop 0 n ?body ?s0 = _ => destruct (for_loop_inv (fun i st => st = (s + i,
    take (Z.to_nat i) (drop (Z.to_nat s) input) ++ drop (Z.to_nat i) buf)) 0 n body s0) as (c & -> & ->) end.
  - lia.
  - rewrite Z.add_0_r. done.
  - intros j st Hj ->. destruct (rd_ok input (s + j)) as (v & -> & Hv); [unfold zlen; lia|]. mon.
    destruct (drop_cons buf (Z.to_nat j)) as (y & _ & ->); [lia|].
    rewrite wr_middle by (unfold zlen; rewrite length_take, length_drop; lia). mon. eexists. split; [done|].
    f_equal; [lia|]. replace (Z.to_nat (j + 1)) with (S (Z.to_nat j)) by lia. rewrite (take_S_r _ _ v).
    + by rewrite <- app_assoc.
    + rewrite lookup_drop, <- Hv. f_equal. lia.
  - done.
Qed.

(** The filler loop. *)
Lemma fill_loop (buf : bytes) a b : 0 <= a <= b -> b <= zlen buf ->
  for_loop a b (fun k buf => wr buf k 0) buf =
    Ok (take (Z.to_nat a) buf ++ replicate (Z.to_nat (b - a)) 0 ++ drop (Z.to_nat b) buf).
Proof.
  intros Ha Hb. unfold zlen in *.
  match goal with |- for_loop a b ?body ?s0 = _ => destruct (for_loop_inv (fun i st => st =
    take (Z.to_nat a) buf ++ replicate (Z.to_nat (i - a)) 0 ++ drop (Z.to_nat i) buf) a b body s0) as (c & -> & ->) end.
  - lia.
  - rewrite Z.sub_diag. change (Z.to_nat 0) with 0%nat. cbn [replicate app]. by rewrite take_drop.
  - intros j st Hj ->. destruct (drop_cons buf (Z.to_nat j)) as (y & _ & ->); [lia|].
    rewrite app_assoc, wr_middle by (unfold zlen; rewrite length_app, length_take, length_replicate; lia).
    eexists. split; [done|]. rewrite <- app_assoc. f_equal.
    replace (Z.to_nat (j + 1 - a)) with (Z.to_nat (j - a) + 1)%nat by lia. rewrite replicate_add, <- app_assoc.
    replace (Z.to_nat (j + 1)) with (S (Z.to_nat j)) by lia. done.
  - done.
Qed.

(** The [r]-th share of the input, its CRC, the filler, and what the buffer [old] had behind. *)
Definition seg_share (input : bytes) (n r : Z) : bytes := take (Z.to_nat n) (drop (Z.to_nat (r * n)) input).

Definition seg_crc (v : seg_vars) (share : bytes) : bytes :=
  if C v >? 1 then crc_octets C24b (Z.shiftr (crc_bits poly24b (bits share)) 8) else [].

Definition code_block (v : seg_vars) (Kp : Z) (share old : bytes) : bytes :=
  share ++ seg_crc v share ++ replicate (Z.to_nat (K v / 8 - Kp / 8)) 0 ++ drop (Z.to_nat (K v / 8)) old.

Lemma length_seg_crc v share : zlen (seg_crc v share) = if C v >? 1 then 3 else 0.
Proof. unfold seg_crc. by case_if. Qed.

Lemma length_share input n r : 0 <= n -> 0 <= r -> (r + 1) * n <= zlen input -> zlen (seg_share input n r) = n.
Proof. intros Hn Hr H. unfold seg_share, zlen in *. rewrite length_take, length_drop. nia. Qed.

(** Three writes. *)
Lemma wr3 (l1 l2 : bytes) x y z a b c i : i = zlen l1 ->
  (buf ← wr (l1 ++ x :: y :: z :: l2) i a; buf ← wr buf (1 + i) b; wr buf (2 + i) c) = Ok (l1 ++ a :: b :: c :: l2).
Proof.
  intros ->. rewrite wr_middle by done. mon. change (a :: y :: z :: l2) with ([a] ++ y :: z :: l2).
  rewrite app_assoc, wr_middle by (rewrite zlen_app; unfold zlen; cbn [length]; lia). mon.
  change (b :: z :: l2) with ([b] ++ z :: l2). rewrite app_assoc.
  rewrite wr_middle by (rewrite !zlen_app; unfold zlen; cbn [length]; lia). by rewrite <- !app_assoc.
Qed.

Section Content.

Context (t : crc_tables) (Ht : tables_ok t) (v : seg_vars) (n L Kp : Z).
Context (Hn : 0 <= n) (HL : L = if C v >? 1 then 24 else 0) (HKp : Kp = L + 8 * n) (HK : Kp <= K v) (HF : F v = K v - Kp).

(** The CRC step on a buffer that starts with the share. *)
Lemma crc_stage (share old : bytes) : zlen share = n -> Forall is_byte share -> Forall is_byte old -> Kp / 8 <= zlen (share ++ old) ->
  (if C v >? 1 then
     c ← crc24b t (share ++ old) (Kp - L);
     let crc := Z.shiftr c 8 in
     buf ← wr (share ++ old) n (byte_of crc 2);
     buf ← wr buf (1 + n) (byte_of crc 1);
     wr buf (2 + n) (byte_of crc 0)
   else mret (share ++ old)) = Ok (share ++ seg_crc v share ++ drop (Z.to_nat (Kp / 8 - n)) old).
Proof.
  intros Hs Hb Hbo Hlen. unfold seg_crc. rewrite zlen_app in Hlen. subst Kp L. destruct (C v >? 1).
  - replace ((24 + 8 * n) / 8) with (n + 3) in * by (Z.to_euclidean_division_equations; lia).
    pose proof (crc_fun_spec C24b t (share ++ old) (24 + 8 * n - 24) Ht) as E. cbn [crc_fun crc_poly] in E.
    rewrite E by (rewrite ?zlen_app; try (apply Forall_app; split; done); lia). clear E. mon.
    assert (Et : take (Z.to_nat (24 + 8 * n - 24)) (bits (share ++ old)) = bits share).
    { rewrite bits_app. apply take_app_length'. rewrite length_bits. unfold zlen in *. lia. }
    rewrite Et. set (crc := Z.shiftr _ 8). destruct old as [|x [|y [|z old]]]; unfold zlen in *; cbn [length] in *; try lia.
    rewrite wr3 by (unfold zlen; lia). cbn [crc_octets]. do 3 f_equal.
    replace (Z.to_nat (n + 3 - n)) with 3%nat by lia. done.
  - replace ((0 + 8 * n) / 8) with n by (Z.to_euclidean_division_equations; lia). rewrite Z.sub_diag. done.
Qed.

Lemma seg_block_spec input r old outs : 0 <= r -> (r + 1) * n <= zlen input -> Forall is_byte input -> Forall is_byte old ->
  outs !! Z.to_nat r = Some old -> K v / 8 <= zlen old ->
  seg_block t input L Kp v r (r * n, outs) =
    Ok ((r + 1) * n, <[Z.to_nat r := code_block v Kp (seg_share input n r) old]> outs).
Proof.
  intros Hr Hi Hb Hbo Ho Hl. pose proof (length_share input n r Hn Hr Hi) as Hsl.
  assert (Hk8 : Kp / 8 <= K v / 8) by (apply Z.div_le_mono; lia).
  assert (Hp8 : Kp / 8 = n + zlen (seg_crc v (seg_share input n r))).
  { rewrite length_seg_crc, HKp, HL. destruct (C v >? 1); Z.to_euclidean_division_equations; lia. }
  pose proof (length_seg_crc v (seg_share input n r)) as Hcl.
  assert (Hcl0 : 0 <= zlen (seg_crc v (seg_share input n r)) <= 3) by (rewrite Hcl; case_if; lia).
  unfold seg_block. rewrite (rd_Some _ _ old), bind_Ok by done.
  assert (En : Z.shiftr (Kp - L) 3 = n).
  { rewrite HKp, Z.add_simpl_l, Z.shiftr_div_pow2, Z.mul_comm by lia. apply Z.div_mul. lia. }
  rewrite En, copy_loop, bind_Ok by nia. fold (seg_share input n r). set (share := seg_share input n r) in *.
  assert (Hshare : Forall is_byte share) by (by apply Forall_take, Forall_drop).
  rewrite crc_stage, bind_Ok; [|done|done|by apply Forall_drop|rewrite zlen_app; unfold zlen in *; rewrite length_drop; lia].
  rewrite drop_drop. replace (Z.to_nat n + Z.to_nat (Kp / 8 - n))%nat with (Z.to_nat (Kp / 8)) by lia.
  rewrite !Z.shiftr_div_pow2 by lia. change (2 ^ 3) with 8.
  assert (Efill : (if F v >? 0 then for_loop (Kp / 8) (K v / 8) (fun k buf => wr buf k 0)
      (share ++ seg_crc v share ++ drop (Z.to_nat (Kp / 8)) old)
    else mret (share ++ seg_crc v share ++ drop (Z.to_nat (Kp / 8)) old)) = Ok (code_block v Kp share old)).
  { unfold code_block. destruct (Z.gtb_spec (F v) 0).
    - rewrite fill_loop by (rewrite ?zlen_app; unfold zlen in *; rewrite ?length_drop; lia).
      rewrite (app_assoc share (seg_crc v share) (drop _ old)).
      rewrite take_app_length', drop_app_ge by (rewrite length_app; unfold zlen in *; lia).
      rewrite <- app_assoc, drop_drop. do 5 f_equal. rewrite length_app. unfold zlen in *. lia.
    - assert (EK : K v = Kp) by lia. rewrite EK, Z.sub_diag. done. }
  rewrite Efill, bind_Ok, wr_ok.
  - mon. do 2 f_equal. lia.
  - apply lookup_lt_Some in Ho. unfold zlen. lia.
Qed.

(** All blocks. *)
Lemma seg_blocks_spec input outs : 0 <= C v -> C v * n <= zlen input -> Forall is_byte input -> Forall (Forall is_byte) outs ->
  C v <= zlen outs -> Forall (fun old => K v / 8 <= zlen old) outs ->
  exists outs', for_loop 0 (C v) (seg_block t input L Kp v) (0, outs) = Ok (C v * n, outs') /\ length outs' = length outs /\
    (forall r old, 0 <= r < C v -> outs !! Z.to_nat r = Some old ->
      outs' !! Z.to_nat r = Some (code_block v Kp (seg_share input n r) old)) /\
    (forall r, C v <= Z.of_nat r -> outs' !! r = outs !! r).
Proof.
  intros HC Hi Hb Hbo Hlen Hbuf.
  match goal with |- context [for_loop 0 _ ?body ?s0] => destruct (for_loop_inv (fun i st => st.1 = i * n /\ length st.2 = length outs /\
    (forall r old, 0 <= r < i -> outs !! Z.to_nat r = Some old ->
      st.2 !! Z.to_nat r = Some (code_block v Kp (seg_share input n r) old)) /\
    (forall r, i <= Z.of_nat r -> st.2 !! r = outs !! r)) 0 (C v) body s0) as ([s outs'] & E & Es & H1 & H2 & H3) end.
  - lia.
  - cbn. split_and!; try done; lia.
  - intros j [s o] Hj (Es & Hl & Hd & Hu). cbn [fst snd] in *. subst s.
    destruct (lookup_lt_is_Some_2 outs (Z.to_nat j)) as [old Hold]; [unfold zlen in *; lia|].
    assert (Ho : o !! Z.to_nat j = Some old) by (rewrite Hu by lia; done).
    rewrite (seg_block_spec input j old o); [|lia|nia|done|by eapply Forall_lookup_1|done|exact (Forall_lookup_1 _ _ _ _ Hbuf Hold)].
    eexists. split; [done|]. cbn [fst snd]. split; [done|]. split; [by rewrite length_insert|]. split.
    + intros r old' Hr Hr'. destruct (decide (r = j)) as [->|Nr].
      * rewrite list_lookup_insert_eq by (rewrite Hl; by eapply lookup_lt_Some). congruence.
      * rewrite list_lookup_insert_ne by lia. apply Hd; [lia|done].
    + intros r Hr. rewrite list_lookup_insert_ne by lia. apply Hu. lia.
  - cbn [fst snd] in *. subst s. exists outs'. done.
Qed.

End Content.

(** ** The whole call *)

Lemma concat_shares input n c : 0 <= n -> (Z.of_nat c) * n <= zlen input ->
  concat ((fun r => seg_share input n (Z.of_nat r)) <$> seq 0 c) = take (c * Z.to_nat n) input.
Proof.
  intros Hn. induction c as [|c IH]; intros Hc; [done|]. rewrite seq_S, fmap_app, concat_app, IH by lia. cbn [fmap list_fmap concat].
  rewrite app_nil_r. unfold seg_share. replace (Z.to_nat (Z.of_nat (0 + c) * n)) with (c * Z.to_nat n)%nat by lia.
  rewrite take_take_drop. f_equal. lia.
Qed.

(** The buffers [nr_segmentation] is given: long enough, and a whole number of octets for each block. *)
Record seg_input (B BG : Z) (v : seg_vars) (input : bytes) (outs : list bytes) : Prop := {
  si_input : Forall is_byte input;
  si_outs : Forall (Forall is_byte) outs;
  si_len : B <= 8 * zlen input;
  si_count : C v <= zlen outs;
  si_room : Forall (fun old => K v / 8 <= zlen old) outs;
  si_octets : (8 * C v | B) }.

Lemma nr_segmentation_content t B BG v0 v L Kp input outs : tables_ok t -> 0 <= B < 2 ^ 31 -> seg_params B BG v L Kp ->
  (forall inp out, nr_segmentation t (Some (inp, out)) B BG v0 =
      '(_, out) ← for_loop 0 (C v) (seg_block t inp L Kp v) (0, out); mret (seg_Kb B BG, v, Some out)) ->
  seg_input B BG v input outs ->
  exists outs', nr_segmentation t (Some (input, outs)) B BG v0 = Ok (seg_Kb B BG, v, Some outs') /\ length outs' = length outs /\
    (forall r old, 0 <= r < C v -> outs !! Z.to_nat r = Some old ->
      outs' !! Z.to_nat r = Some (code_block v Kp (seg_share input (B / C v / 8) r) old)) /\
    (forall r, C v <= Z.of_nat r -> outs' !! r = outs !! r).
Proof.
  intros Ht HB P Hcall I. destruct P, I. destruct si_octets0 as [n En]. pose proof sp_count0 as Hc1.
  assert (Hn : 0 <= n) by nia.
  assert (EB : B / C v = 8 * n) by (rewrite En; replace (n * (8 * C v)) with (8 * n * C v) by ring; apply Z.div_mul; lia).
  assert (E8 : B / C v / 8 = n) by (rewrite EB, Z.mul_comm; apply Z.div_mul; lia).
  destruct (seg_blocks_spec t Ht v n L Kp Hn sp_L0 ltac:(lia) ltac:(lia) sp_F0 input outs) as (outs' & E & H); try done; [lia|nia|].
  exists outs'. rewrite Hcall, E, E8. by split.
Qed.

(** A code block passes the check of the receiver. *)
Lemma code_block_crc t v n L Kp share old : tables_ok t -> 1 < C v -> zlen share = n -> L = 24 -> Kp = L + 8 * n ->
  Kp < 2 ^ 31 -> Forall is_byte share -> Forall is_byte old -> check_crc t (code_block v Kp share old) Kp CRC24_B = Ok 1.
Proof.
  intros Ht HC Hs HL HK Hmax Hb Hbo. unfold code_block, seg_crc. rewrite (proj2 (Z.gtb_lt _ _) HC).
  pose proof (check_crc_append C24b CRC24_B t share
    (replicate (Z.to_nat (K v / 8 - Kp / 8)) 0 ++ drop (Z.to_nat (K v / 8)) old) eq_refl Ht Hb) as H.
  cbn [crc_length crc_poly] in H. replace (8 * zlen share + 24) with Kp in H by lia. apply H; [|done].
  apply Forall_app; split; [|by apply Forall_drop]. apply Forall_replicate. unfold is_byte. lia.
Qed.

(** Its filler octets are 0. *)
Lemma code_block_filler v n L Kp share old i : zlen share = n -> L = (if C v >? 1 then 24 else 0) -> Kp = L + 8 * n ->
  Kp / 8 <= i < K v / 8 -> code_block v Kp share old !! Z.to_nat i = Some 0.
Proof.
  intros Hs HL HK Hi. pose proof (length_seg_crc v share) as Hcr.
  assert (E : Kp / 8 = zlen share + zlen (seg_crc v share))
    by (rewrite Hs, Hcr, HK, HL; destruct (C v >? 1); Z.to_euclidean_division_equations; lia).
  unfold code_block. rewrite app_assoc, lookup_app_r, lookup_app_l, lookup_replicate_2; [exact eq_refl|..].
  all: rewrite ?length_replicate, length_app; unfold zlen in *; lia.
Qed.

(** The shares at the start of the blocks make up the input. *)
Lemma code_blocks_concat v n Kp input outs outs' : 0 <= n -> 0 <= C v <= zlen outs -> C v * n <= zlen input ->
  (forall r old, 0 <= r < C v -> outs !! Z.to_nat r = Some old ->
    outs' !! Z.to_nat r = Some (code_block v Kp (seg_share input n r) old)) ->
  concat (take (Z.to_nat n) <$> take (Z.to_nat (C v)) outs') = take (Z.to_nat (C v * n)) input.
Proof.
  intros Hn HC Hi Hin.
  assert (Hmap : take (Z.to_nat n) <$> take (Z.to_nat (C v)) outs' = (fun r => seg_share input n (Z.of_nat r)) <$> seq 0 (Z.to_nat (C v))).
  { apply list_eq. intros i. rewrite !list_lookup_fmap. destruct (decide (i < Z.to_nat (C v))%nat) as [Hlt|Hge].
    - rewrite lookup_take_lt, lookup_seq_lt by lia.
      destruct (lookup_lt_is_Some_2 outs i) as [old Ho]; [unfold zlen in *; lia|].
      specialize (Hin (Z.of_nat i) old ltac:(lia)). rewrite Nat2Z.id in Hin. rewrite (Hin Ho). cbn [fmap option_fmap option_map].
      change (0 + i)%nat with i. f_equal. unfold code_block. apply take_app_length'.
      pose proof (length_share input n (Z.of_nat i) Hn ltac:(lia) ltac:(nia)) as Hs. unfold zlen in Hs. lia.
    - rewrite lookup_take_ge, lookup_seq_ge by lia. exact eq_refl. }
  rewrite Hmap, concat_shares by (rewrite ?Z2Nat.id by lia; nia). f_equal. by rewrite Z2Nat.inj_mul by lia.
Qed.

(** [C26] For every transport block below 2^31 bits and both base graphs [nr_segmentation] finds its
    parameters: the least number of code blocks of at most 8448 (3840) bits, the least lifting
    size of Table 5.3.2-1 of TS 38.212 whose [Kb] columns hold a block, and the filler up to
    22 (10) columns; it never returns -1. *)
Theorem segmentation_parameters t B BG v0 : 0 <= B < 2 ^ 31 -> BG = 1 \/ BG = 2 ->
  exists v L Kp, nr_segmentation t None B BG v0 = Ok (seg_Kb B BG, v, None) /\ seg_params B BG v L Kp.
Proof.
  intros HB HBG. destruct (nr_segmentation_params t B BG v0 HB HBG) as (v & L & Kp & P & E & _). by exists v, L, Kp.
Qed.

Lemma segmentation_parameters_witness : exists v L Kp,
  nr_segmentation zero_tables None 9000 1 (mk_seg_vars 0 0 0 0) = Ok (22, v, None) /\ seg_params 9000 1 v L Kp.
Proof. apply (segmentation_parameters zero_tables 9000 1 (mk_seg_vars 0 0 0 0)); [lia|by left]. Defined.

(** [C27] Segmentation loses nothing: when the code blocks are whole octets, the first octets of the
    code blocks, put together, are the transport block, every code block of several passes the
    receiver's check with CRC24B, and the filler octets are 0, whatever the buffers held. *)
Theorem segmentation_roundtrip t B BG v0 : crcTableInit zero_tables = Ok t -> 0 <= B < 2 ^ 31 -> BG = 1 \/ BG = 2 ->
  exists v, nr_segmentation t None B BG v0 = Ok (seg_Kb B BG, v, None) /\
  forall input outs, seg_input B BG v input outs ->
    let n := B / C v / 8 in
    exists outs', nr_segmentation t (Some (input, outs)) B BG v0 = Ok (seg_Kb B BG, v, Some outs') /\
      concat (take (Z.to_nat n) <$> take (Z.to_nat (C v)) outs') = take (Z.to_nat (B / 8)) input /\
      forall r buf, 0 <= r < C v -> outs' !! Z.to_nat r = Some buf ->
        (1 < C v -> check_crc t buf (8 * n + 24) CRC24_B = Ok 1) /\
        forall i, (K v - F v) / 8 <= i < K v / 8 -> buf !! Z.to_nat i = Some 0.
Proof.
  intros Et HB HBG. destruct crcTableInit_ok as (t' & Et' & Ht). rewrite Et in Et'. apply Ok_inj in Et' as <-.
  destruct (nr_segmentation_params t B BG v0 HB HBG) as (v & L & Kp & P & E & Hcall). exists v. split; [done|].
  intros input outs I n. destruct (nr_segmentation_content t B BG v0 v L Kp input outs Ht HB P Hcall I) as (outs' & E' & Hl & Hin & _).
  exists outs'. split; [done|]. fold n in Hin. destruct P, I. destruct si_octets0 as [m Em]. pose proof sp_count0 as Hc.
  assert (EB : B / C v = 8 * m) by (rewrite Em; replace (m * (8 * C v)) with (8 * m * C v) by ring; apply Z.div_mul; lia).
  assert (En : n = m) by (unfold n; rewrite EB, Z.mul_comm; apply Z.div_mul; lia).
  assert (E8 : B / 8 = C v * n) by (rewrite Em, En; replace (m * (8 * C v)) with (C v * m * 8) by ring; apply Z.div_mul; lia).
  assert (EKp : Kp = L + 8 * n) by (rewrite sp_Kp0, EB, En; exact eq_refl). assert (Hm : 0 <= n) by nia.
  assert (Hi : C v * n <= zlen input) by nia.
  split; [rewrite E8; apply (code_blocks_concat v n Kp input outs); [exact Hm|lia|exact Hi|exact Hin]|].
  intros r buf Hr Hb. destruct (lookup_lt_is_Some_2 outs (Z.to_nat r)) as [old Ho]; [unfold zlen in *; lia|].
  rewrite (Hin r old Hr Ho) in Hb. injection Hb as <-.
  pose proof (length_share input n r Hm ltac:(lia) ltac:(nia)) as Hs. split.
  - intros H1. rewrite (proj2 (Z.gtb_lt _ _) H1) in sp_L0. replace (8 * n + 24) with Kp by lia.
    apply (code_block_crc t v n L); [exact Ht|exact H1|exact Hs|exact sp_L0|exact EKp|lia| |].
    + by apply Forall_take, Forall_drop.
    + by eapply Forall_lookup_1.
  - intros i Hlt. rewrite sp_F0 in Hlt. replace (K v - (K v - Kp)) with Kp in Hlt by lia.
    apply (code_block_filler v n L); [exact Hs|exact sp_L0|exact EKp|exact Hlt].
Qed.

Definition demo_seg_input : bytes := (fun i => i mod 251) <$> seqZ 0 482.
Definition demo_seg_outs : list bytes := replicate 2 (replicate 488 0xff).
Definition demo_seg_vars : seg_vars := mk_seg_vars 2 2080 208 128.

Lemma segmentation_roundtrip_witness : exists outs',
  nr_segmentation demo_tables (Some (demo_seg_input, demo_seg_outs)) 3856 2 (mk_seg_vars 0 0 0 0) =
    Ok (10, demo_seg_vars, Some outs') /\
  concat (take 241 <$> take 2 outs') = demo_seg_input.
Proof.
  destruct (segmentation_roundtrip demo_tables 3856 2 (mk_seg_vars 0 0 0 0)) as (v & E & H);
    [exact demo_tables_ok|lia|by right|].
  assert (Ev : v = demo_seg_vars) by (vm_compute in E; injection E as <-; reflexivity). subst v.
  destruct (H demo_seg_input demo_seg_outs) as (outs' & E' & Hc & _).
  - constructor.
    + apply Forall_fmap, Forall_forall. intros i _. cbn. unfold is_byte. pose proof (Z.mod_pos_bound i 251). lia.
    + apply Forall_replicate, Forall_replicate. unfold is_byte. lia.
    + vm_compute. congruence.
    + vm_compute. congruence.
    + apply Forall_replicate. vm_compute. congruence.
    + exists 241. reflexivity.
  - exists outs'. split; [exact E'|]. transitivity (take (Z.to_nat (3856 / 8)) demo_seg_input); [exact Hc|vm_compute; reflexivity].
Defined.

(** ** Transport block sizes *)

(** The block count of a size above 3824 bits, for the block limit [m] of its base graph. *)
Lemma tbs_blocks m x C B : 8 < m -> (8 | m) -> 0 <= x < 2 ^ 23 -> m < 2 ^ 14 -> C = CEILIDIV x m -> 1 <= C ->
  B = 8 * C * CEILIDIV x (8 * C) -> (C - 1) * m < B <= C * m /\ x <= B < 2 ^ 30 /\ (8 * C | B).
Proof.
  intros Hm [w Hw] Hx Hm2 HC HC1 HB. destruct (CEILIDIV_spec x m) as (H1 & H2 & _); [lia|lia|lia|]. rewrite <- HC in *.
  assert (Hcm : C < 2 ^ 23) by nia.
  destruct (CEILIDIV_spec x (8 * C)) as (H3 & H4 & H5); [lia|lia|lia|]. set (q := CEILIDIV x (8 * C)) in *.
  assert (Hq : q <= w) by nia.
  split; [|split; [lia|exists q; lia]]. split; [lia|]. rewrite HB, Hw. nia.
Qed.

(** The count of [seg_count] is determined by its bounds. *)
Lemma seg_params_count B BG v L Kp c : seg_params B BG v L Kp -> Kcb_of BG < B -> BG = 1 \/ BG = 2 ->
  (c - 1) * (Kcb_of BG - 24) < B <= c * (Kcb_of BG - 24) -> C v = c.
Proof.
  intros [] HB HBG Hc. assert (HK : 3840 <= Kcb_of BG) by (destruct HBG as [-> | ->]; vm_compute; congruence).
  assert (1 < C v) as H1. { destruct (decide (C v = 1)) as [E|E]; [|lia]. apply sp_single0 in E. lia. }
  specialize (sp_least0 H1). nia.
Qed.

Lemma tbs_table : Forall (fun a => 24 <= a <= 3824 /\ a mod 8 = 0) Tbstable_nr.
Proof. apply (bool_decide_unpack _). vm_compute. exact I. Qed.

(** Up to 3824 bits the table has an entry. *)
Lemma tbs_small_ok Ninfo : 0 <= Ninfo <= 3824 -> 24 <= tbs_small Ninfo <= 3824 /\ tbs_small Ninfo mod 8 = 0.
Proof.
  intros H. unfold tbs_small. set (n := small_shift Ninfo).
  assert (Hn : 0 <= n) by (unfold n, small_shift; case_if; lia).
  rewrite Z.shiftr_div_pow2, Z.shiftl_mul_pow2 by done. pose proof (Z.pow_pos_nonneg 2 n ltac:(lia) Hn) as Hp.
  pose proof (div_bounds Ninfo (2 ^ n) Hp). assert (0 <= Ninfo / 2 ^ n) by (apply Z.div_pos; lia).
  set (Np := Z.max 24 _). assert (HNp : Np <= 3824).
  { unfold Np, u32. rewrite Z.mod_small by lia. lia. }
  clearbody Np. clear -HNp. pose proof tbs_table as Ht. rewrite Forall_forall in Ht.
  apply Ht. assert (Hl : last Tbstable_nr = Some 3824) by reflexivity. revert Hl. generalize Tbstable_nr as l. clear Ht.
  induction l as [|a l IH]; [done|]. intros Hl. cbn [first_ge]. destruct (Z.geb_spec a Np) as [|Hlt]; [constructor|].
  destruct l as [|b l]; [injection Hl as ->; lia|]. apply list_elem_of_further, IH. exact Hl.
Qed.

(** The size above 3824 bits with its CRC, against the base graph that [get_BG] chooses. *)
Lemma tbs_large_ok Ninfo R : 3824 < Ninfo < 2 ^ 21 -> 0 <= R ->
  let A := tbs_large Ninfo (R <=? 2560) in let BG := get_BG A R in let B := A + 24 in
  3824 < A < 2 ^ 30 /\ exists c, 1 <= c /\ (8 * c | B) /\
    (B <= Kcb_of BG /\ c = 1 \/ Kcb_of BG < B /\ (c - 1) * (Kcb_of BG - 24) < B <= c * (Kcb_of BG - 24)).
Proof.
  intros HN HR A BG B. pose proof (Np_info_range Ninfo HN) as Hnp. cbv zeta in Hnp.
  assert (EA : A = tbs_large Ninfo (R <=? 2560)) by exact eq_refl. clearbody A. unfold tbs_large in EA. cbv zeta in EA.
  set (Np := Z.max 3840 _) in *. assert (E24 : u32 (Np + 24) = Np + 24) by (apply Z.mod_small; lia).
  assert (Hbg : 3824 < A -> BG = if R <=? 2560 then 2 else 1).
  { intros HA. unfold BG, get_BG, NR_MAX_PDSCH_TBS. rewrite (proj2 (Z.leb_gt A 292)), (proj2 (Z.leb_gt A 3824)) by lia.
    cbn [orb andb]. destruct (Z.leb_spec R 2560), (Z.leb_spec (R * 4) 10240); done || lia. }
  assert (Hbig : forall m, 3816 <= m <= 8424 -> (8 | m) -> m < Np + 24 ->
    let C := CEILIDIV (Np + 24) m in
    u32 (u32 (u32 (Z.shiftl C 3) * CEILIDIV (Np + 24) (u32 (Z.shiftl C 3))) - 24) + 24 = 8 * C * CEILIDIV (Np + 24) (8 * C) /\
    1 <= C /\ (C - 1) * m < 8 * C * CEILIDIV (Np + 24) (8 * C) <= C * m /\
    Np + 24 <= 8 * C * CEILIDIV (Np + 24) (8 * C) < 2 ^ 30 /\ (8 * C | 8 * C * CEILIDIV (Np + 24) (8 * C))).
  { intros m Hm H8 Hlt C. destruct (CEILIDIV_spec (Np + 24) m) as (G1 & G2 & G3); [lia|lia|lia|]. fold C in G1, G2, G3.
    assert (HC : 1 <= C < 2 ^ 23) by nia.
    destruct (tbs_blocks m (Np + 24) C (8 * C * CEILIDIV (Np + 24) (8 * C))) as (K1 & K2 & K3); try done; try lia.
    assert (Es : u32 (Z.shiftl C 3) = 8 * C) by (rewrite Z.shiftl_mul_pow2 by lia; unfold u32; rewrite Z.mod_small; lia).
    rewrite Es. set (B' := 8 * C * CEILIDIV (Np + 24) (8 * C)) in *.
    assert (E1 : u32 B' = B') by (apply Z.mod_small; lia). rewrite E1.
    assert (E2 : u32 (B' - 24) = B' - 24) by (apply Z.mod_small; lia). rewrite E2. split; [lia|]. split; [lia|]. by split. }
  unfold B. rewrite E24 in EA. destruct (R <=? 2560) eqn:ER.
  - destruct (Hbig 3816 ltac:(lia) ltac:(by exists 477) ltac:(lia)) as (EB & H1 & H2 & H3 & H4).
    cbv zeta in EB. rewrite <- EA in EB. rewrite <- EB in H2, H3, H4. split; [lia|]. exists (CEILIDIV (Np + 24) 3816). split; [done|]. split; [done|].
    right. rewrite Hbg by lia. change (Kcb_of 2) with 3840. lia.
  - destruct (Np >? 8424) eqn:EN; bool_prop.
    + destruct (Hbig 8424 ltac:(lia) ltac:(by exists 1053) ltac:(lia)) as (EB & H1 & H2 & H3 & H4).
      cbv zeta in EB. rewrite <- EA in EB. rewrite <- EB in H2, H3, H4. split; [lia|]. exists (CEILIDIV (Np + 24) 8424). split; [done|]. split; [done|].
      right. rewrite Hbg by lia. change (Kcb_of 1) with 8448. lia.
    + destruct (CEILIDIV_spec (Np + 24) 8) as (G1 & G2 & G3); [lia|lia|lia|]. set (q := CEILIDIV (Np + 24) 8) in *.
      assert (Eq : u32 (Z.shiftl q 3) = q * 8) by (rewrite Z.shiftl_mul_pow2 by lia; apply Z.mod_small; lia).
      assert (EA2 : u32 (q * 8 - 24) = q * 8 - 24) by (apply Z.mod_small; lia). rewrite Eq, EA2 in EA.
      split; [lia|]. exists 1. split; [lia|]. split; [exists q; lia|]. left. rewrite Hbg by lia. change (Kcb_of 1) with 8448. lia.
Qed.

(** Two components agree: for the transport block size that [nr_compute_tbs] returns, whatever the
    allocation, and the base graph of [get_BG], the block with its CRC is cut by
    [nr_segmentation] into code blocks of equal length in whole octets, so its integer
    divisions drop nothing. *)
Theorem tbs_segments_in_octets t v0 Qm R nb_rb nb_symb_sch nb_dmrs_prb nb_rb_oh tb_scaling Nl : 0 <= R -> 0 <= tb_scaling ->
  let A := nr_compute_tbs Qm R nb_rb nb_symb_sch nb_dmrs_prb nb_rb_oh tb_scaling Nl in
  let B := lenWithCrc 1 A in
  exists Kb v, nr_segmentation t None B (get_BG A R) v0 = Ok (Kb, v, None) /\ (8 * C v | B) /\ 24 <= A < 2 ^ 30.
Proof.
  intros HR Hs A B. pose proof (tbs_Ninfo_range Qm R nb_rb nb_symb_sch nb_dmrs_prb nb_rb_oh tb_scaling Nl Hs) as HN.
  unfold nr_compute_tbs in A. set (Ninfo := tbs_Ninfo Qm R nb_rb nb_symb_sch nb_dmrs_prb nb_rb_oh tb_scaling Nl) in *. clearbody Ninfo.
  assert (HBG : get_BG A R = 1 \/ get_BG A R = 2) by (unfold get_BG; case_if; [by right|by left]).
  assert (H : 24 <= A < 2 ^ 30 /\ 0 <= B < 2 ^ 31 /\ exists c, 1 <= c /\ (8 * c | B) /\ (B <= Kcb_of (get_BG A R) /\ c = 1 \/
    Kcb_of (get_BG A R) < B /\ (c - 1) * (Kcb_of (get_BG A R) - 24) < B <= c * (Kcb_of (get_BG A R) - 24))).
  { assert (EB : B = A + (if A >? 3824 then 24 else 16)) by exact eq_refl. rewrite EB. clear EB B.
    assert (EA : A = if Ninfo <=? 3824 then tbs_small Ninfo else tbs_large Ninfo (R <=? 2560)) by exact eq_refl. clearbody A.
    destruct (Z.leb_spec Ninfo 3824).
    - destruct (tbs_small_ok Ninfo ltac:(lia)) as [H1 H2]. rewrite <- EA in H1, H2. rewrite (Z.gtb_ltb A), (proj2 (Z.ltb_ge 3824 A)) by lia.
      split; [lia|]. split; [lia|]. exists 1. split; [lia|]. split; [apply Z.mod_divide in H2 as [q Hq]; [exists (q + 2); lia|lia]|].
      left. assert (3840 <= Kcb_of (get_BG A R)) by (destruct HBG as [-> | ->]; vm_compute; congruence). lia.
    - destruct (tbs_large_ok Ninfo R ltac:(lia) HR) as (H1 & c & H2 & H3 & H4). cbv zeta in H1, H3, H4. rewrite <- EA in H1, H3, H4.
      rewrite (Z.gtb_ltb A), (proj2 (Z.ltb_lt 3824 A)) by lia. split; [lia|]. split; [lia|]. by exists c. }
  destruct H as (HA & HB & c & Hc & Hd & Hcase). destruct (nr_segmentation_params t B (get_BG A R) v0 HB HBG) as (v & L & Kp & P & E & _).
  exists (seg_Kb B (get_BG A R)), v. split; [done|]. split; [|done]. enough (C v = c) as -> by done.
  destruct Hcase as [[Hle ->]|[Hgt Hcount]]; [by apply P|]. by eapply seg_params_count.
Qed.

Lemma tbs_segments_in_octets_witness : let A := nr_compute_tbs 6 4340 106 12 12 0 0 1 in
  exists Kb v, nr_segmentation zero_tables None (lenWithCrc 1 A) (get_BG A 4340) (mk_seg_vars 0 0 0 0) = Ok (Kb, v, None) /\
    (8 * C v | lenWithCrc 1 A) /\ 24 <= A < 2 ^ 30.
Proof. apply (tbs_segments_in_octets zero_tables (mk_seg_vars 0 0 0 0) 6 4340 106 12 12 0 0 1); lia. Defined.

(** The filler loop stops at [K >> 3]: when [K] is no multiple of 8 the last [K mod 8] filler bits
    are what the buffer held before, and the LDPC encoder reads them.  Here a transport block of
    24 bits (70 bits with its CRC and filler) follows a longer one. *)
Lemma segmentation_stale_filler :
  match nr_segmentation demo_tables (Some ([1; 2; 3; 4; 5], [replicate 16 0xff])) 40 2 (mk_seg_vars 0 0 0 0) with
  | Ok (_, v, Some (buf :: _)) => K v = 70 /\ F v = 30 /\ take 6 (drop 64 (bits buf)) = replicate 6 true
  | _ => False
  end.
Proof. vm_compute. done. Qed.
