(* ===== verification/RateMatch.v ===== *)
(** * LDPC rate matching and bit interleaving

    [src/openair1/PHY/CODING/nr_rate_matching.c]: the circular buffer of a code block is
    read from a position given by the redundancy version, without its filler bits, and
    as often as the allocation needs; the receiver adds its soft values up at the same
    positions.  [uint32_t] arithmetic wraps around where it can. *)

From S2P Require Import Prelude.

Module RateMatch.

(** ** The code *)

Definition NR_NULL : Z := 2.

Definition index_k0 : list (list Z) := [[0; 17; 33; 56]; [0; 13; 25; 43]].

(** *** Interleaving

    The four cases unroll the same loops, [f[i+j*Qm] = e[i*EQm+j]]. *)
Definition nr_interleaving_ldpc (E Qm : Z) (e f : bytes) : res bytes :=
  if negb ((Qm =? 2) || (Qm =? 4) || (Qm =? 6) || (Qm =? 8)) then Err Exit
  else
    let EQm := E / Qm in
    f ← blit f 0 (replicate (Z.to_nat E) 0);
    for_loop 0 EQm (fun j f =>
      for_loop 0 Qm (fun i f => v ← rd e (i * EQm + j); wr f (j * Qm + i) v) f) f.

(** [while (f < end)]: [pos] is the distance of [f] from its start, [j] the one of [e] and the [e_i]. *)
Fixpoint deinterleave_loop (fuel : nat) (E Qm EQm : Z) (f : list Z) (pos j : Z) (e : list Z) : res (list Z) :=
  if pos <? E - (Qm - 1) then
    match fuel with
    | O => Err Fuel
    | S fuel =>
        e ← for_loop 0 Qm (fun i e => v ← rd f (pos + i); wr e (i * EQm + j) v) e;
        deinterleave_loop fuel E Qm EQm f (pos + Qm) (j + 1) e
    end
  else mret e.

Definition nr_deinterleaving_ldpc (E Qm : Z) (e f : list Z) : res (list Z) :=
  if negb ((Qm =? 2) || (Qm =? 4) || (Qm =? 6) || (Qm =? 8)) then Err Exit
  else if negb (E mod Qm =? 0) then Err Exit
  else deinterleave_loop (Z.to_nat E) E Qm (E / Qm) f 0 0 e.

(** *** The rate of the decoder

    [(float)s / d < c] for the [double] constant [c = m / 2^p]: the quotient is rounded to the
    nearest 24-bit significand, ties to even; [0/0] is no number. *)
Definition f32_quot_lt (s d m p : Z) : bool :=
  if d =? 0 then false
  else if s =? 0 then true
  else
    let k0 := 23 + Z.log2 d - Z.log2 s in
    let k := if s * 2 ^ k0 <? d * 2 ^ 23 then k0 + 1 else k0 in
    let q := s * 2 ^ k / d in
    let r := (s * 2 ^ k) mod d in
    let q := if (2 * r >? d) || ((2 * r =? d) && Z.odd q) then q + 1 else q in
    q * 2 ^ p <? m * 2 ^ k.

Definition lt_0_3333 (s d : Z) : bool := f32_quot_lt s d 6004199023210345 54.
Definition lt_0_6667 (s d : Z) : bool := f32_quot_lt s d 6005099743135819 53.
Definition lt_0_8889 (s d : Z) : bool := f32_quot_lt s d 2001624854384817 51.

(** The rate and [*llrLen]. *)
Definition nr_get_R_ldpc_decoder (rvidx E BG Zc llrLen round : Z) : res (Z * Z) :=
  if negb ((BG =? 1) || (BG =? 2)) then Err Exit
  else
    row ← rd index_k0 (BG - 1); k0 ← rd row rvidx;
    let Ncb := if BG =? 1 then 66 * Zc else 50 * Zc in
    let infoBits := k0 * Zc + E in
    let llrLen := if round =? 0 then infoBits else llrLen in
    let infoBits := if infoBits >? Ncb then Ncb else infoBits in
    let llrLen := if infoBits >? llrLen then infoBits else llrLen in
    let sysBits := if BG =? 1 then 22 * Zc else 10 * Zc in
    let d := infoBits + 2 * Zc in
    mret (if BG =? 2 then (if lt_0_3333 sysBits d then 15 else if lt_0_6667 sysBits d then 13 else 23)
          else (if lt_0_6667 sysBits d then 13 else if lt_0_8889 sysBits d then 23 else 89), llrLen).

(** *** Bit selection *)

(** [Ncb] and the start [ind], the same text in both directions. *)
Definition rm_start (Tbslbrm BG Zc C rvidx : Z) : res (Z * Z) :=
  let N := if BG =? 1 then 66 * Zc else 50 * Zc in
  let Ncb := if Tbslbrm =? 0 then N else Z.min N (u32 (3 * Tbslbrm) / (2 * C)) in
  row ← rd index_k0 (BG - 1); k0 ← rd row rvidx;
  if N =? 0 then Err Undef else mret (Ncb, u32 (u32 (k0 * Ncb) / N * Zc)).

(** [for (ind=0; (ind<Ncb)&&(k<E); ind++) if (w[ind] != NR_NULL) e[k++]=w[ind];] *)
Fixpoint rm_scan (n : nat) (w : bytes) (ind E : Z) (k : Z) (e : bytes) : res (Z * bytes) :=
  match n with
  | O => mret (k, e)
  | S n =>
      if k <? E then
        x ← rd w ind;
        if negb (x =? NR_NULL) then e ← wr e k x; rm_scan n w (ind + 1) E (k + 1) e
        else rm_scan n w (ind + 1) E k e
      else mret (k, e)
  end.

(** [while (k<E)] *)
Fixpoint rm_repeat (fuel : nat) (w : bytes) (Ncb E k : Z) (e : bytes) : res bytes :=
  if k <? E then
    match fuel with
    | O => Err Fuel
    | S fuel => '(k, e) ← rm_scan (Z.to_nat Ncb) w 0 E k e; rm_repeat fuel w Ncb E k e
    end
  else mret e.

(** [memcpy(e+off, w+from, len)] *)
Definition copy_bits (w : bytes) (from len : Z) (e : bytes) (off : Z) : res bytes :=
  x ← slice w from len; blit e off x.

(** The first pass: [k] and [e]. *)
Definition rm_first (w e : bytes) (Ncb ind F Foffset E : Z) : res (Z * bytes) :=
  let ind := if (ind >=? Foffset) && (ind <? u32 (F + Foffset)) then u32 (F + Foffset) else ind in
  if ind <? Foffset then
    e ← copy_bits w ind (Foffset - ind) e 0;
    if u32 (E + F) <=? u32 (Ncb - ind) then
      e ← copy_bits w (u32 (Foffset + F)) (u32 (E - Foffset + ind)) e (Foffset - ind);
      mret (E, e)
    else
      e ← copy_bits w (u32 (Foffset + F)) (u32 (Ncb - Foffset - F)) e (Foffset - ind);
      mret (u32 (Ncb - F - ind), e)
  else if E <=? u32 (Ncb - ind) then
    e ← copy_bits w ind E e 0; mret (E, e)
  else
    e ← copy_bits w ind (u32 (Ncb - ind)) e 0; mret (u32 (Ncb - ind), e).

Definition nr_rate_matching_ldpc (Tbslbrm BG Zc : Z) (w e : bytes) (C F Foffset rvidx E : Z) : res (Z * bytes) :=
  if C =? 0 then mret (-1, e)
  else
    '(Ncb, ind) ← rm_start Tbslbrm BG Zc C rvidx;
    if Foffset >? E then mret (-1, e)
    else if Foffset >? Ncb then mret (-1, e)
    else
      '(k, e) ← rm_first w e Ncb ind F Foffset E;
      e ← rm_repeat (Z.to_nat E) w Ncb E k e;
      mret (0, e).

(** *** Soft combining *)

(** [for (; (ind<hi)&&(k<E); ind++) w[ind] += soft_input[k++];] *)
Fixpoint rx_run (n : nat) (soft_input : list Z) (E : Z) (ind k : Z) (w : list Z) : res (Z * Z * list Z) :=
  match n with
  | O => mret (ind, k, w)
  | S n =>
      if k <? E then
        a ← rd w ind; b ← rd soft_input k; w ← wr w ind (s16 (a + b));
        rx_run n soft_input E (ind + 1) (k + 1) w
      else mret (ind, k, w)
  end.

Definition rx_upto (hi : Z) (soft_input : list Z) (E ind k : Z) (w : list Z) : res (Z * Z * list Z) :=
  rx_run (Z.to_nat (hi - ind)) soft_input E ind k w.

Fixpoint rx_repeat (fuel : nat) (soft_input : list Z) (Ncb F Foffset E k : Z) (w : list Z) : res (list Z) :=
  if k <? E then
    match fuel with
    | O => Err Fuel
    | S fuel =>
        '(_, k, w) ← rx_upto Foffset soft_input E 0 k w;
        '(_, k, w) ← rx_upto Ncb soft_input E (u32 (Foffset + F)) k w;
        rx_repeat fuel soft_input Ncb F Foffset E k w
    end
  else mret w.

Definition nr_rate_matching_ldpc_rx (Tbslbrm BG Zc : Z) (w soft_input : list Z) (C rvidx clear E F Foffset : Z) :
    res (Z * list Z) :=
  if C =? 0 then mret (-1, w)
  else
    '(Ncb, ind) ← rm_start Tbslbrm BG Zc C rvidx;
    if Foffset >? E then mret (-1, w)
    else if Foffset >? Ncb then mret (-1, w)
    else
      w ← (if clear =? 1 then blit w 0 (replicate (Z.to_nat Ncb) 0) else mret w);
      '(ind, k, w) ← (if ind <? Foffset then rx_upto Foffset soft_input E ind 0 w else mret (ind, 0, w));
      let ind := if (ind >=? Foffset) && (ind <? u32 (Foffset + F)) then u32 (Foffset + F) else ind in
      '(_, k, w) ← rx_upto Ncb soft_input E ind k w;
      w ← rx_repeat (Z.to_nat E) soft_input Ncb F Foffset E k w;
      mret (0, w).

End RateMatch.
