(* ===== verification/RateMatchProps.v ===== *)
(** * Rate matching against TS 38.212, and soft combining as its adjoint

    The positions both directions use, the sequence of clause 5.4.2.1, what the receiver
    adds up, and that deinterleaving undoes interleaving. *)

From S2P Require Import Prelude RateMatch.

Import RateMatch.

(** ** Positions *)

Section Positions.

(** The circular buffer: [Ncb] positions, [F] fillers from [Fo] on. *)
Context (Ncb F Fo : Z).

(** The [i]-th position that is no filler; the number of such positions below [i]. *)
Definition ord (i : Z) : Z := if i <? Fo then i else i + F.
Definition rank (i : Z) : Z := if i <? Fo then i else if i <? Fo + F then Fo else i - F.
Definition usable (i : Z) : bool := (i <? Fo) || (Fo + F <=? i).

(** The position of the [k]-th bit when the reading starts at [k0]. *)
Definition rm_pos (k0 k : Z) : Z := ord ((rank k0 + k) mod (Ncb - F)).

Context (HF : 0 <= F) (HFo : 0 <= Fo) (Hfit : Fo + F <= Ncb) (HU : 0 < Ncb - F).

Lemma ord_usable i : usable (ord i) = true.
Proof. unfold usable, ord. destruct (Z.ltb_spec i Fo); apply orb_true_iff; [left; lia|right; lia]. Qed.

Lemma ord_range i : 0 <= i < Ncb - F -> 0 <= ord i < Ncb.
Proof. unfold ord. case_if; lia. Qed.

Lemma ord_inj i j : ord i = ord j -> i = j.
Proof. unfold ord. destruct (Z.ltb_spec i Fo), (Z.ltb_spec j Fo); lia. Qed.

Lemma rank_range i : 0 <= i <= Ncb -> 0 <= rank i <= Ncb - F.
Proof. unfold rank. repeat case_if; bool_prop; lia. Qed.

Lemma ord_rank i : usable i = true -> ord (rank i) = i.
Proof.
  unfold usable, ord, rank. intros H. bool_prop. destruct (Z.ltb_spec i Fo).
  - rewrite (proj2 (Z.ltb_lt i Fo)) by lia. done.
  - destruct H as [H|H]; bool_prop; [lia|]. rewrite (proj2 (Z.ltb_ge i (Fo + F))) by lia.
    rewrite (proj2 (Z.ltb_ge (i - F) Fo)) by lia. lia.
Qed.

Lemma rank_succ i : rank (i + 1) = if usable i then rank i + 1 else rank i.
Proof.
  unfold usable, rank. destruct (Z.ltb_spec i Fo), (Z.ltb_spec (i + 1) Fo), (Z.leb_spec (Fo + F) i),
    (Z.ltb_spec i (Fo + F)), (Z.ltb_spec (i + 1) (Fo + F)); cbn [orb]; lia.
Qed.

Lemma rm_pos_range k0 k : 0 <= rm_pos k0 k < Ncb.
Proof. apply ord_range, Z.mod_pos_bound. done. Qed.

(** The pseudo-code of clause 5.4.2.1: walk the buffer cyclically and leave out the fillers;
    [m] bits are still to be selected, [i] is the current position. *)
Fixpoint std_select (fuel : nat) (i : Z) (m : nat) : option (list Z) :=
  match m, fuel with
  | O, _ => Some []
  | S _, O => None
  | S m', S fuel =>
      let next := (i + 1) mod Ncb in
      if usable i then (i ::.) <$> std_select fuel next m' else std_select fuel next m
  end.

(** From [i] on: [d] fillers at most come first, then a bit. *)
Lemma std_select_spec m : forall fuel d i, (m * S (Z.to_nat F) + d <= fuel)%nat -> 0 <= i < Ncb ->
  (usable i = false -> Fo + F - i <= Z.of_nat d) ->
  std_select fuel i m = Some ((fun t => ord ((rank i + t) mod (Ncb - F))) <$> seqZ 0 (Z.of_nat m)).
Proof.
  induction m as [|m IHm].
  - intros [|fuel] d i _ _ _; done.
  - intros fuel. induction fuel as [|fuel IHf]; intros d i Hfuel Hi Hd; [lia|]. cbn [std_select].
    assert (Hnext : 0 <= (i + 1) mod Ncb < Ncb) by (apply Z.mod_pos_bound; lia).
    assert (Hr : rank ((i + 1) mod Ncb) mod (Ncb - F) = rank (i + 1) mod (Ncb - F)).
    { destruct (decide (i + 1 = Ncb)) as [E|N].
      - rewrite E, Z.mod_same by lia. assert (E1 : rank 0 = 0) by (unfold rank; repeat case_if; bool_prop; lia).
        assert (E2 : rank Ncb mod (Ncb - F) = 0).
        { unfold rank. rewrite (proj2 (Z.ltb_ge Ncb Fo)), (proj2 (Z.ltb_ge Ncb (Fo + F))) by lia. by apply Z.mod_same; lia. }
        rewrite E1, E2. apply Z.mod_0_l. lia.
      - rewrite (Z.mod_small (i + 1)) by lia. done. }
    assert (Hshift : forall t, (rank ((i + 1) mod Ncb) + t) mod (Ncb - F) = (rank (i + 1) + t) mod (Ncb - F)).
    { intros t. rewrite <- Zplus_mod_idemp_l, Hr, Zplus_mod_idemp_l. done. }
    destruct (usable i) eqn:Eu.
    + rewrite (IHm fuel (Z.to_nat F) ((i + 1) mod Ncb)); [|lia|done|].
      * cbn [fmap option_fmap option_map]. f_equal. rewrite Nat2Z.inj_succ. rewrite (seqZ_cons 0 (Z.succ (Z.of_nat m))) by lia. cbn [fmap list_fmap].
        rewrite Z.add_0_r. f_equal.
        -- assert (Hlt : 0 <= rank i < Ncb - F).
           { pose proof (rank_range i ltac:(lia)). pose proof (rank_succ i) as Hs. rewrite Eu in Hs.
             pose proof (rank_range (i + 1) ltac:(lia)). lia. }
           rewrite Z.mod_small by done. symmetry. by apply ord_rank.
        -- rewrite Z.pred_succ. change (Z.succ 0) with (1 + 0). rewrite <- (fmap_add_seqZ 1 0), <- list_fmap_compose. apply list_fmap_ext. intros _ t _. cbn.
           rewrite Hshift, rank_succ, Eu. do 2 f_equal. lia.
      * intros H. assert (Fo <= (i + 1) mod Ncb); [|lia]. unfold usable in H. apply orb_false_iff in H as [H _]. apply Z.ltb_ge. exact H.
    + assert (Hflt : Fo <= i < Fo + F).
      { unfold usable in Eu. apply orb_false_iff in Eu as [E1 E2]. apply Z.ltb_ge in E1. apply Z.leb_gt in E2. lia. }
      rewrite (IHf (pred d) ((i + 1) mod Ncb)); [|specialize (Hd eq_refl); lia|done|].
      * f_equal. apply list_fmap_ext. intros _ t _. rewrite Hshift, rank_succ, Eu. done.
      * intros H. specialize (Hd eq_refl). destruct (decide (i + 1 = Ncb)) as [E|N].
        -- exfalso. rewrite E, Z.mod_same in H by lia. unfold usable in H. apply orb_false_iff in H as [H _]. apply Z.ltb_ge in H. lia.
        -- rewrite Z.mod_small by lia. lia.
Qed.

End Positions.

(** ** The transmitter *)

Lemma copy_bits_spec w from len e off : 0 <= from -> 0 <= len -> from + len <= zlen w -> 0 <= off -> off + len <= zlen e ->
  exists e', copy_bits w from len e off = Ok e' /\ zlen e' = zlen e /\
    forall j, 0 <= j -> e' !! Z.to_nat j = if (off <=? j) && (j <? off + len) then w !! Z.to_nat (from + (j - off)) else e !! Z.to_nat j.
Proof.
  intros Hf Hl Hw Ho He. unfold copy_bits. rewrite slice_ok by lia. mon.
  set (x := take (Z.to_nat len) (drop (Z.to_nat from) w)).
  assert (Hx : zlen x = len) by (unfold x, zlen in *; rewrite length_take, length_drop; lia).
  rewrite blit_ok by lia. eexists. split; [done|]. rewrite Hx.
  assert (Hto : length (take (Z.to_nat off) e) = Z.to_nat off) by (rewrite length_take; unfold zlen in *; lia).
  split.
  - rewrite !zlen_app, Hx. unfold zlen in *. rewrite Hto, length_drop. lia.
  - intros j Hj. destruct (Z.leb_spec off j) as [H1|H1]; cbn [andb].
    + rewrite lookup_app_r by lia. rewrite Hto. destruct (Z.ltb_spec j (off + len)) as [H2|H2].
      * rewrite lookup_app_l by (unfold zlen in *; lia). unfold x. rewrite lookup_take_lt by lia. rewrite lookup_drop. f_equal. lia.
      * rewrite lookup_app_r by (unfold zlen in *; lia). rewrite lookup_drop. f_equal. unfold zlen in *. lia.
    + rewrite lookup_app_l by lia. by rewrite lookup_take_lt by lia.
Qed.

Section Transmit.

Context (Ncb F Fo k0 E : Z) (w : bytes).
Context (HF : 0 <= F) (HFo : 0 <= Fo) (Hfit : Fo + F <= Ncb) (HU : 0 < Ncb - F) (Hk0 : 0 <= k0 < Ncb) (HE : 0 <= E < 2 ^ 30).
Context (Hmax : Ncb < 2 ^ 30) (Hw : Ncb <= zlen w).
#[local] Abbreviation U := (Ncb - F).
#[local] Abbreviation ord := (ord F Fo).
#[local] Abbreviation rank := (rank F Fo).
#[local] Abbreviation pos := (rm_pos Ncb F Fo k0).

(** The first [k] bits of [e] are the selected ones. *)
Definition selected (k : Z) (e : bytes) : Prop :=
  zlen e = E /\ forall j, 0 <= j < k -> e !! Z.to_nat j = w !! Z.to_nat (pos j).

(** The positions of the first pass. *)
Lemma pos_first j : 0 <= j < U - rank k0 -> pos j = ord (rank k0 + j).
Proof.
  intros Hj. unfold rm_pos. assert (0 <= rank k0 <= U) by (apply rank_range; lia). by rewrite Z.mod_small by lia.
Qed.

Lemma rm_first_spec e : zlen e = E -> Fo <= E -> exists k e', rm_first w e Ncb k0 F Fo E = Ok (k, e') /\
  k = Z.min E (U - rank k0) /\ selected k e'.
Proof.
  intros He HFE. unfold rm_first. assert (EuF : u32 (F + Fo) = F + Fo) by (apply Z.mod_small; lia).
  assert (EuF' : u32 (Fo + F) = Fo + F) by (apply Z.mod_small; lia). rewrite EuF, EuF'.
  set (ind := if (k0 >=? Fo) && (k0 <? F + Fo) then F + Fo else k0).
  assert (Hind : 0 <= ind <= Ncb /\ (ind < Fo /\ rank k0 = ind /\ ind = k0 \/ Fo + F <= ind /\ rank k0 = ind - F)).
  { unfold ind, RateMatchProps.rank. destruct (Z.geb_spec k0 Fo), (Z.ltb_spec k0 (F + Fo)), (Z.ltb_spec k0 Fo), (Z.ltb_spec k0 (Fo + F));
      cbn [andb]; lia. }
  destruct Hind as [Hi [(Hlt & Hr & Hk)|(Hge & Hr)]].
  - rewrite (proj2 (Z.ltb_lt ind Fo) Hlt).
    destruct (copy_bits_spec w ind (Fo - ind) e 0) as (e1 & -> & Hl1 & H1); [lia|lia|lia|lia|lia|]. mon.
    assert (Hfin : forall len, 0 <= len -> Fo + F + len <= Ncb -> Fo - ind + len <= E ->
      exists e', copy_bits w (Fo + F) len e1 (Fo - ind) = Ok e' /\ selected (Fo - ind + len) e').
    { intros len Hln Hn Hm. destruct (copy_bits_spec w (Fo + F) len e1 (Fo - ind)) as (e2 & E2 & Hl2 & H2); [lia|lia|lia|lia|lia|].
      exists e2. split; [done|]. split; [lia|]. intros j Hj. rewrite H2 by lia. rewrite pos_first by lia.
      unfold RateMatchProps.ord. rewrite Hr. destruct (Z.leb_spec (Fo - ind) j) as [Ha|Ha]; cbn [andb].
      - rewrite (proj2 (Z.ltb_lt j _)), (proj2 (Z.ltb_ge (ind + j) Fo)) by lia. f_equal. lia.
      - rewrite H1 by lia. rewrite (proj2 (Z.leb_le 0 j)), (proj2 (Z.ltb_lt j (0 + (Fo - ind)))), (proj2 (Z.ltb_lt (ind + j) Fo)) by lia.
        cbn [andb]. do 2 f_equal. lia. }
    assert (E1 : u32 (E + F) = E + F) by (apply Z.mod_small; lia). assert (E2 : u32 (Ncb - ind) = Ncb - ind) by (apply Z.mod_small; lia).
    rewrite E1, E2. destruct (Z.leb_spec (E + F) (Ncb - ind)).
    + assert (E3 : u32 (E - Fo + ind) = E - Fo + ind) by (apply Z.mod_small; lia). rewrite E3.
      destruct (Hfin (E - Fo + ind)) as (e2 & -> & H2); [lia|lia|lia|]. mon. exists E, e2. split; [done|]. split; [lia|].
      by replace E with (Fo - ind + (E - Fo + ind)) at 1 by lia.
    + assert (E3 : u32 (Ncb - Fo - F) = Ncb - Fo - F) by (apply Z.mod_small; lia).
      assert (E4 : u32 (Ncb - F - ind) = Ncb - F - ind) by (apply Z.mod_small; lia). rewrite E3, E4.
      destruct (Hfin (Ncb - Fo - F)) as (e2 & -> & H2); [lia|lia|lia|]. mon. eexists _, e2. split; [done|]. split; [lia|].
      by replace (Ncb - F - ind) with (Fo - ind + (Ncb - Fo - F)) by lia.
  - rewrite (proj2 (Z.ltb_ge ind Fo)) by lia. assert (E2 : u32 (Ncb - ind) = Ncb - ind) by (apply Z.mod_small; lia). rewrite E2.
    assert (Hfin : forall len, 0 <= len <= Ncb - ind -> len <= E ->
      exists e', copy_bits w ind len e 0 = Ok e' /\ selected len e').
    { intros len Hn Hm. destruct (copy_bits_spec w ind len e 0) as (e2 & E3 & Hl2 & H2); [lia|lia|lia|lia|lia|].
      exists e2. split; [done|]. split; [lia|]. intros j Hj. rewrite H2, pos_first by lia. unfold RateMatchProps.ord. rewrite Hr.
      rewrite (proj2 (Z.leb_le 0 j)), (proj2 (Z.ltb_lt j (0 + len))), (proj2 (Z.ltb_ge (ind - F + j) Fo)) by lia. cbn [andb].
      f_equal. lia. }
    destruct (Z.leb_spec E (Ncb - ind)).
    + destruct (Hfin E) as (e2 & -> & H2); [lia|lia|]. mon. exists E, e2. split; [done|]. split; [lia|done].
    + destruct (Hfin (Ncb - ind)) as (e2 & -> & H2); [lia|lia|]. mon. eexists _, e2. split; [done|]. split; [lia|done].
Qed.

(** The fillers, and only they, are marked in [w]. *)
Context (Hnull : forall i x, 0 <= i < Ncb -> w !! Z.to_nat i = Some x -> (x = NR_NULL <-> usable F Fo i = false)).

Lemma selected_wr k e x : selected k e -> 0 <= k < E -> w !! Z.to_nat (pos k) = Some x ->
  exists e', wr e k x = Ok e' /\ selected (k + 1) e'.
Proof.
  intros [Hl Hs] Hk Hx. rewrite wr_ok by lia. eexists. split; [done|]. split.
  - unfold zlen in *. by rewrite length_insert.
  - intros j Hj. destruct (decide (j = k)) as [->|N].
    + rewrite list_lookup_insert_eq by (unfold zlen in *; lia). done.
    + rewrite list_lookup_insert_ne by lia. apply Hs. lia.
Qed.

(** A pass from position [ind] on, where the next bit is the one of rank [rank ind]. *)
Lemma rm_scan_spec n : forall ind k e, Z.of_nat n = Ncb - ind -> 0 <= ind -> 0 <= k -> selected k e ->
  (rank k0 + k) mod U = rank ind mod U -> k <= E ->
  exists e', rm_scan n w ind E k e = Ok (Z.min E (k + (U - rank ind)), e') /\ selected (Z.min E (k + (U - rank ind))) e'.
Proof.
  induction n as [|n IH]; intros ind k e Hn Hi Hk Hs Hpos HkE.
  - assert (ind = Ncb) as -> by lia. assert (rank Ncb = U) as ->.
    { unfold RateMatchProps.rank. rewrite (proj2 (Z.ltb_ge Ncb Fo)), (proj2 (Z.ltb_ge Ncb (Fo + F))) by lia. done. }
    exists e. cbn. replace (Z.min E (k + (U - U))) with k by lia. done.
  - cbn [rm_scan]. assert (Hr : 0 <= rank ind <= U) by (apply rank_range; lia).
    assert (Hr1 : 0 <= rank (ind + 1) <= U) by (apply rank_range; lia).
    pose proof (rank_succ F Fo HF ind) as Hsucc. destruct (Z.ltb_spec k E) as [HkE'|HkE'].
    + destruct (rd_ok w ind) as (x & -> & Hx); [lia|]. mon. specialize (Hnull ind x ltac:(lia) Hx).
      destruct (usable F Fo ind) eqn:Eu.
      * rewrite (proj2 (Z.eqb_neq x NR_NULL)) by (intros ->; destruct Hnull as [H _]; by specialize (H eq_refl)). cbn [negb].
        assert (Hp : pos k = ind).
        { unfold rm_pos. rewrite Hpos, Z.mod_small by lia. by apply ord_rank. }
        destruct (selected_wr k e x Hs) as (e1 & -> & Hs1); [lia|by rewrite Hp|]. mon.
        destruct (IH (ind + 1) (k + 1) e1) as (e2 & -> & Hs2); [lia|lia|lia|done| |lia|].
        { rewrite Hsucc. rewrite Z.add_assoc, <- Zplus_mod_idemp_l, Hpos, Zplus_mod_idemp_l. done. }
        replace (k + 1 + (U - rank (ind + 1))) with (k + (U - rank ind)) in * by lia. by exists e2.
      * rewrite (proj2 (Z.eqb_eq x NR_NULL)) by (by apply Hnull). cbn [negb].
        destruct (IH (ind + 1) k e) as (e2 & -> & Hs2); [lia|lia|lia|done|by rewrite Hsucc|lia|].
        rewrite Hsucc in *. by exists e2.
    + exists e. replace (Z.min E (k + (U - rank ind))) with k by lia. done.
Qed.

Lemma rm_repeat_spec fuel : forall k e, E - k <= Z.of_nat fuel -> 0 <= k <= E -> selected k e ->
  (k < E -> (rank k0 + k) mod U = 0) ->
  exists e', rm_repeat fuel w Ncb E k e = Ok e' /\ selected E e'.
Proof.
  assert (Hr0 : rank 0 = 0) by (unfold RateMatchProps.rank; repeat case_if; bool_prop; lia).
  induction fuel as [|fuel IH]; intros k e Hf Hk Hs Hpos; cbn [rm_repeat].
  - rewrite (proj2 (Z.ltb_ge k E)) by lia. assert (k = E) as -> by lia. by exists e.
  - destruct (Z.ltb_spec k E) as [H|H]; [|assert (k = E) as -> by lia; by exists e].
    destruct (rm_scan_spec (Z.to_nat Ncb) 0 k e) as (e1 & -> & Hs1); [lia|lia|lia|done| |lia|].
    { rewrite Hr0, Hpos by done. by rewrite Z.mod_0_l by lia. }
    rewrite Hr0 in *. mon. apply IH; [lia|lia|done|]. intros Hlt.
    replace (rank k0 + Z.min E (k + (U - 0))) with (rank k0 + k + 1 * U) by lia. rewrite Z.mod_add by lia. auto.
Qed.

(** The whole selection. *)
Lemma rm_select_spec e : zlen e = E -> Fo <= E -> exists k e1 e', rm_first w e Ncb k0 F Fo E = Ok (k, e1) /\
  rm_repeat (Z.to_nat E) w Ncb E k e1 = Ok e' /\ selected E e'.
Proof.
  intros He HFE. destruct (rm_first_spec e He HFE) as (k & e1 & E1 & Ek & Hs).
  assert (Hr : 0 <= rank k0 <= U) by (apply rank_range; lia).
  destruct (rm_repeat_spec (Z.to_nat E) k e1) as (e2 & E2 & Hs2); [lia|lia|done| |by exists k, e1, e2].
  intros Hlt. replace (rank k0 + k) with U by lia. apply Z.mod_same. lia.
Qed.

End Transmit.

(** ** The receiver *)

(** One soft value. *)
Definition add_soft (soft : list Z) (p k : Z) (w : list Z) : list Z :=
  alter (fun a => s16 (a + soft !!! Z.to_nat k)) (Z.to_nat p) w.

(** [m] soft values from the [k]-th on, at the positions [pos]. *)
Definition combine (pos : Z -> Z) (soft : list Z) (k : Z) (m : nat) (w : list Z) : list Z :=
  fold_left (fun w j => add_soft soft (pos j) j w) (seqZ k (Z.of_nat m)) w.

Lemma length_combine pos soft m : forall k w, length (combine pos soft k m w) = length w.
Proof.
  induction m as [|m IH]; intros k w; [done|]. unfold combine in *. rewrite Nat2Z.inj_succ, seqZ_cons, Z.pred_succ by lia. cbn [fold_left].
  rewrite IH. unfold add_soft. by rewrite length_alter.
Qed.

Lemma combine_S pos soft k m w : combine pos soft k (S m) w = combine pos soft (k + 1) m (add_soft soft (pos k) k w).
Proof. unfold combine. rewrite Nat2Z.inj_succ, seqZ_cons, Z.pred_succ by lia. done. Qed.

Lemma combine_app pos soft m1 m2 : forall k w,
  combine pos soft k (m1 + m2) w = combine pos soft (k + Z.of_nat m1) m2 (combine pos soft k m1 w).
Proof.
  induction m1 as [|m1 IH]; intros k w; [by rewrite Z.add_0_r|]. rewrite Nat.add_succ_l, !combine_S, IH. f_equal. lia.
Qed.

Section Receive.

Context (Ncb F Fo k0 E : Z) (soft : list Z).
Context (HF : 0 <= F) (HFo : 0 <= Fo) (Hfit : Fo + F <= Ncb) (HU : 0 < Ncb - F) (Hk0 : 0 <= k0 < Ncb) (HE : 0 <= E < 2 ^ 30).
Context (Hmax : Ncb < 2 ^ 30) (Hsoft : E <= zlen soft).
#[local] Abbreviation U := (Ncb - F).
#[local] Abbreviation ord := (ord F Fo).
#[local] Abbreviation rank := (rank F Fo).
#[local] Abbreviation pos := (rm_pos Ncb F Fo k0).

Lemma add_soft_ok w ind k : 0 <= ind < zlen w -> 0 <= k < E ->
  (a ← rd w ind; b ← rd soft k; wr w ind (s16 (a + b))) = Ok (add_soft soft ind k w).
Proof.
  intros Hi Hk. destruct (rd_ok w ind) as (a & -> & Ha); [lia|]. mon. destruct (rd_ok soft k) as (b & -> & Hb); [lia|]. mon.
  rewrite wr_ok by lia. f_equal. unfold add_soft. rewrite (list_lookup_total_correct _ _ _ Hb).
  apply list_eq. intros i. destruct (decide (i = Z.to_nat ind)) as [->|N].
  - rewrite list_lookup_insert_eq, list_lookup_alter_eq, Ha by (unfold zlen in *; lia). done.
  - by rewrite list_lookup_insert_ne, list_lookup_alter_ne.
Qed.

(** A run over positions without a gap. *)
Lemma rx_run_spec n : forall ind k w, 0 <= ind -> ind + Z.of_nat n <= zlen w -> 0 <= k <= E ->
  (forall t, 0 <= t < Z.of_nat n -> k + t < E -> pos (k + t) = ind + t) ->
  let m := Z.min (Z.of_nat n) (E - k) in
  rx_run n soft E ind k w = Ok (ind + m, k + m, combine pos soft k (Z.to_nat m) w).
Proof.
  induction n as [|n IH]; intros ind k w Hi Hn Hk Hpos m; cbn [rx_run].
  - unfold m. replace (Z.min (Z.of_nat 0) (E - k)) with 0 by lia. by rewrite !Z.add_0_r.
  - destruct (Z.ltb_spec k E) as [Hlt|Hge].
    + pose proof (add_soft_ok w ind k ltac:(lia) ltac:(lia)) as Es.
      destruct (rd w ind) as [a|]; [|done]. cbn [mbind res_bind] in *. destruct (rd soft k) as [b|]; [|done].
      cbn [mbind res_bind] in *. rewrite Es. cbn [mbind res_bind].
      rewrite IH; [|lia|unfold add_soft, zlen in *; rewrite length_alter; lia|lia|].
      * assert (Em : m = 1 + Z.min (Z.of_nat n) (E - (k + 1))) by lia. rewrite Em.
        replace (Z.to_nat (1 + Z.min (Z.of_nat n) (E - (k + 1)))) with (S (Z.to_nat (Z.min (Z.of_nat n) (E - (k + 1))))) by lia.
        rewrite combine_S. specialize (Hpos 0 ltac:(lia) ltac:(lia)). rewrite !Z.add_0_r in Hpos. rewrite Hpos.
        f_equal. f_equal. f_equal; lia.
      * intros t Ht Hk2. specialize (Hpos (1 + t) ltac:(lia) ltac:(lia)). rewrite !Z.add_assoc in Hpos. exact Hpos.
    + unfold m. replace (Z.min (Z.of_nat (S n)) (E - k)) with 0 by lia. by rewrite !Z.add_0_r.
Qed.

(** The positions of the ranks from [rank ind] on, as long as there is no gap. *)
Lemma pos_run ind k t : 0 <= ind -> 0 <= t -> (rank k0 + k) mod U = rank ind mod U -> usable F Fo ind = true ->
  (ind + t < Fo \/ Fo + F <= ind /\ ind + t < Ncb) -> pos (k + t) = ind + t.
Proof.
  intros Hi Ht Hp Hu Hrun. unfold rm_pos. rewrite Z.add_assoc, <- Zplus_mod_idemp_l, Hp, Zplus_mod_idemp_l.
  assert (Er : rank ind + t = rank (ind + t)).
  { unfold RateMatchProps.rank. destruct Hrun as [Hr|[Hr1 Hr2]].
    - by rewrite (proj2 (Z.ltb_lt ind Fo)), (proj2 (Z.ltb_lt (ind + t) Fo)) by lia.
    - rewrite (proj2 (Z.ltb_ge ind Fo)), (proj2 (Z.ltb_ge ind (Fo + F))), (proj2 (Z.ltb_ge (ind + t) Fo)),
        (proj2 (Z.ltb_ge (ind + t) (Fo + F))) by lia. lia. }
  assert (Hu2 : usable F Fo (ind + t) = true) by (unfold usable; apply orb_true_iff; destruct Hrun; [left; lia|right; lia]).
  rewrite Er, Z.mod_small; [by apply ord_rank|].
  pose proof (rank_succ F Fo HF (ind + t)) as Hs. rewrite Hu2 in Hs.
  assert (0 <= rank (ind + t) <= U) by (apply rank_range; lia). assert (0 <= rank (ind + t + 1) <= U) by (apply rank_range; lia). lia.
Qed.

(** From position 0 or behind the fillers to the end of its part. *)
Lemma rx_upto_spec hi ind k w : 0 <= ind -> Ncb <= zlen w -> 0 <= k <= E ->
  (k < E -> (rank k0 + k) mod U = rank ind mod U) -> (hi = Fo \/ Fo + F <= ind /\ hi = Ncb) ->
  let m := Z.min (Z.max 0 (hi - ind)) (E - k) in
  rx_upto hi soft E ind k w = Ok (ind + m, k + m, combine pos soft k (Z.to_nat m) w).
Proof.
  intros Hi Hw Hk Hp Hhi m. unfold rx_upto. destruct (Z.le_gt_cases hi ind) as [Hle|Hgt].
  - replace (Z.to_nat (hi - ind)) with 0%nat by lia. unfold m. replace (Z.min _ _) with 0 by lia. cbn. by rewrite !Z.add_0_r.
  - rewrite rx_run_spec; [|lia|lia|lia|].
    + unfold m. rewrite Z2Nat.id by lia. by replace (Z.max 0 (hi - ind)) with (hi - ind) by lia.
    + intros t Ht HkE. apply pos_run; [done|lia|apply Hp; lia| |lia].
      unfold usable. apply orb_true_iff. destruct Hhi; [left; lia|right; lia].
Qed.

Lemma rank_0 : rank 0 = 0.
Proof. unfold RateMatchProps.rank. repeat case_if; bool_prop; lia. Qed.

Lemma rank_behind i : Fo + F <= i -> rank i = i - F.
Proof. intros H. unfold RateMatchProps.rank. by rewrite (proj2 (Z.ltb_ge i Fo)), (proj2 (Z.ltb_ge i (Fo + F))) by lia. Qed.

(** The part from [ind] behind the fillers to the end of the buffer. *)
Lemma rx_tail_spec ind k w : Fo + F <= ind <= Ncb -> Ncb <= zlen w -> 0 <= k <= E ->
  (k < E -> (rank k0 + k) mod U = (ind - F) mod U) ->
  let m := Z.min (Ncb - ind) (E - k) in
  rx_upto Ncb soft E ind k w = Ok (ind + m, k + m, combine pos soft k (Z.to_nat m) w).
Proof.
  intros Hi Hw Hk Hp m. rewrite rx_upto_spec; [unfold m; by replace (Z.max 0 (Ncb - ind)) with (Ncb - ind) by lia|lia|done|done| |right; lia].
  rewrite (rank_behind ind) by lia. done.
Qed.

Lemma rx_repeat_spec fuel : forall k w, E - k <= Z.of_nat fuel -> 0 <= k <= E -> Ncb <= zlen w ->
  (k < E -> (rank k0 + k) mod U = 0) ->
  rx_repeat fuel soft Ncb F Fo E k w = Ok (combine pos soft k (Z.to_nat (E - k)) w).
Proof.
  induction fuel as [|fuel IH]; intros k w Hf Hk Hw Hp; cbn [rx_repeat].
  - rewrite (proj2 (Z.ltb_ge k E)) by lia. by replace (Z.to_nat (E - k)) with 0%nat by lia.
  - destruct (Z.ltb_spec k E) as [Hlt|Hge]; [|by replace (Z.to_nat (E - k)) with 0%nat by lia].
    rewrite rx_upto_spec, bind_Ok; [|lia|done|lia|intros _; rewrite rank_0, Z.mod_0_l by lia; auto|by left].
    rewrite Z.sub_0_r, (Z.max_r 0 Fo) by lia. set (m1 := Z.min Fo (E - k)).
    assert (EuF : u32 (Fo + F) = Fo + F) by (apply Z.mod_small; lia). rewrite EuF.
    rewrite rx_tail_spec, bind_Ok; [|lia|unfold zlen in *; rewrite length_combine; lia|lia|].
    2: { intros H. replace (rank k0 + (k + m1)) with (rank k0 + k + Fo) by lia. rewrite <- Zplus_mod_idemp_l, (Hp Hlt). f_equal. lia. }
    set (m2 := Z.min _ _). rewrite <- Z2Nat.id with (n := m1) at 2 by lia. rewrite <- combine_app.
    rewrite IH.
    + rewrite <- Z2Nat.inj_add by lia. replace (k + m1 + m2) with (k + Z.of_nat (Z.to_nat (m1 + m2))) at 1 by lia.
      rewrite <- combine_app. do 2 f_equal. lia.
    + lia.
    + lia.
    + unfold zlen in *. by rewrite length_combine.
    + intros H. replace (rank k0 + (k + m1 + m2)) with (rank k0 + k + 1 * U) by lia. rewrite Z.mod_add by lia. auto.
Qed.

Lemma rx_core w : Fo <= E -> Ncb <= zlen w ->
  ('(ind, k, w) ← (if k0 <? Fo then rx_upto Fo soft E k0 0 w else mret (k0, 0, w));
   let ind := if (ind >=? Fo) && (ind <? u32 (Fo + F)) then u32 (Fo + F) else ind in
   '(_, k, w) ← rx_upto Ncb soft E ind k w;
   rx_repeat (Z.to_nat E) soft Ncb F Fo E k w) = Ok (combine pos soft 0 (Z.to_nat E) w).
Proof.
  intros HFE Hw. assert (EuF : u32 (Fo + F) = Fo + F) by (apply Z.mod_small; lia).
  assert (Hr : 0 <= rank k0 <= U) by (apply rank_range; lia).
  assert (H1 : exists ind1 k1, (if k0 <? Fo then rx_upto Fo soft E k0 0 w else mret (k0, 0, w)) =
      Ok (ind1, k1, combine pos soft 0 (Z.to_nat k1) w) /\ 0 <= k1 <= E /\
    exists ind, (if (ind1 >=? Fo) && (ind1 <? Fo + F) then Fo + F else ind1) = ind /\ Fo + F <= ind <= Ncb /\ rank k0 + k1 = ind - F).
  { unfold RateMatchProps.rank. destruct (Z.ltb_spec k0 Fo) as [Hlt|Hge].
    - exists Fo, (Fo - k0). rewrite rx_upto_spec; [|lia|done|lia|intros _; by rewrite Z.add_0_r|by left].
      replace (Z.min (Z.max 0 (Fo - k0)) (E - 0)) with (Fo - k0) by lia. split; [f_equal; f_equal; f_equal; lia|]. split; [lia|].
      exists (Fo + F). rewrite (proj2 (Z.geb_le Fo Fo)) by lia. cbn [andb]. split; [destruct (Z.ltb_spec Fo (Fo + F)); lia|lia].
    - exists k0, 0. split; [done|]. split; [lia|]. rewrite (proj2 (Z.geb_le k0 Fo)) by lia. cbn [andb].
      destruct (Z.ltb_spec k0 (Fo + F)); eexists; (split; [done|]); lia. }
  destruct H1 as (ind1 & k1 & -> & Hk1 & ind & Hind & Hi & Hrank). rewrite bind_Ok. cbv zeta. rewrite EuF, Hind.
  rewrite rx_tail_spec, bind_Ok; [|done|unfold zlen in *; by rewrite length_combine|done|intros _; by rewrite Hrank].
  set (m2 := Z.min _ _). rewrite <- (Z2Nat.id k1) at 2 by lia. rewrite <- (Z.add_0_l (Z.of_nat (Z.to_nat k1))), <- combine_app.
  rewrite rx_repeat_spec.
  - rewrite <- Z2Nat.inj_add by lia. replace (k1 + m2) with (0 + Z.of_nat (Z.to_nat (k1 + m2))) at 1 by lia.
    rewrite <- combine_app. do 2 f_equal. lia.
  - lia.
  - lia.
  - unfold zlen in *. by rewrite length_combine.
  - intros H. replace (rank k0 + (k1 + m2)) with U by lia. apply Z.mod_same. lia.
Qed.

End Receive.

(** ** What the receiver holds at a position *)

Definition int16 (a : Z) : Prop := - 2 ^ 15 <= a < 2 ^ 15.

Lemma s16_small a : int16 a -> s16 a = a.
Proof. unfold int16, s16. intros H. rewrite Z.mod_small by lia. lia. Qed.

Lemma s16_range a : int16 (s16 a).
Proof. unfold int16, s16. pose proof (Z.mod_pos_bound (a + 2 ^ 15) (2 ^ 16) ltac:(lia)). lia. Qed.

Lemma s16_add a b : s16 (s16 a + b) = s16 (a + b).
Proof.
  unfold s16. replace ((a + 2 ^ 15) mod 2 ^ 16 - 2 ^ 15 + b + 2 ^ 15) with ((a + 2 ^ 15) mod 2 ^ 16 + b) by lia.
  rewrite Zplus_mod_idemp_l. do 2 f_equal. lia.
Qed.

(** The sum of the soft values received for position [i]. *)
Fixpoint soft_sum (i : Z) (ps soft : list Z) : Z :=
  match ps, soft with
  | p :: ps, x :: soft => (if p =? i then x else 0) + soft_sum i ps soft
  | _, _ => 0
  end.

Lemma combine_lookup pos soft m : forall k w i, 0 <= k -> 0 <= i -> (forall t, 0 <= pos t) -> k + Z.of_nat m <= zlen soft -> Forall int16 w ->
  combine pos soft k m w !! Z.to_nat i =
    (fun a => s16 (a + soft_sum i (pos <$> seqZ k (Z.of_nat m)) (drop (Z.to_nat k) soft))) <$> w !! Z.to_nat i.
Proof.
  induction m as [|m IH]; intros k w i Hk Hi Hpos Hl Hw.
  - change (combine pos soft k 0 w) with w. destruct (w !! Z.to_nat i) as [a|] eqn:Ea; [|done].
    cbn [fmap option_fmap option_map]. f_equal. change (soft_sum i (pos <$> seqZ k (Z.of_nat 0)) _) with 0.
    rewrite Z.add_0_r, s16_small; [done|]. by eapply Forall_lookup_1.
  - rewrite combine_S, IH; [|lia|lia|done|lia|].
    2: { apply Forall_alter; [done|]. intros; apply s16_range. }
    rewrite Nat2Z.inj_succ, (seqZ_cons k (Z.succ (Z.of_nat m))), Z.pred_succ by lia. cbn [fmap list_fmap].
    destruct (lookup_lt_is_Some_2 soft (Z.to_nat k)) as [b Hb]; [unfold zlen in *; lia|].
    rewrite (drop_S _ _ _ Hb). cbn [soft_sum]. replace (Z.to_nat (k + 1)) with (S (Z.to_nat k)) by lia.
    change (Z.succ k) with (k + 1). unfold add_soft. rewrite (list_lookup_total_correct _ _ _ Hb).
    destruct (Z.eqb_spec (pos k) i) as [<-|N].
    + rewrite list_lookup_alter_eq, <- option_fmap_compose. destruct (w !! Z.to_nat (pos k)) as [a|]; [|done].
      cbn. f_equal. rewrite s16_add. f_equal. lia.
    + rewrite list_lookup_alter_ne by (specialize (Hpos k); lia). destruct (w !! Z.to_nat i) as [a|]; [|done]. cbn. do 2 f_equal; lia.
Qed.

(** ** The two functions *)

Definition Ncb_of (Tbslbrm BG Zc C : Z) : Z :=
  let N := (if BG =? 1 then 66 else 50) * Zc in if Tbslbrm =? 0 then N else Z.min N (3 * Tbslbrm / (2 * C)).

Definition k0_of (Tbslbrm BG Zc C rvidx : Z) : Z :=
  (default 0 (row ← index_k0 !! Z.to_nat (BG - 1); row !! Z.to_nat rvidx)) * Ncb_of Tbslbrm BG Zc C / ((if BG =? 1 then 66 else 50) * Zc) * Zc.

(** The parameters of a code block: the fillers are in the circular buffer and do not fill it. *)
Record rm_params (Tbslbrm BG Zc C rvidx F Fo E : Z) : Prop := {
  rp_BG : BG = 1 \/ BG = 2;
  rp_rv : 0 <= rvidx < 4;
  rp_Z : 0 < Zc <= 384;
  rp_C : 0 < C < 256;
  rp_lbrm : 0 <= Tbslbrm < 2 ^ 30;
  rp_F : 0 <= F;
  rp_Fo : 0 <= Fo;
  rp_fit : Fo + F <= Ncb_of Tbslbrm BG Zc C;
  rp_some : 0 < Ncb_of Tbslbrm BG Zc C - F;
  rp_E : Fo <= E < 2 ^ 30 }.

Lemma k0_index BG rvidx : BG = 1 \/ BG = 2 -> 0 <= rvidx < 4 -> exists row k, rd index_k0 (BG - 1) = Ok row /\ rd row rvidx = Ok k /\
  default 0 (row ← index_k0 !! Z.to_nat (BG - 1); row !! Z.to_nat rvidx) = k /\ 0 <= k < (if BG =? 1 then 66 else 50).
Proof.
  intros HBG Hrv. assert (Hc : rvidx = 0 \/ rvidx = 1 \/ rvidx = 2 \/ rvidx = 3) by lia.
  destruct HBG as [-> | ->]; destruct Hc as [->|[->|[-> | ->]]]; eexists _, _; (split; [reflexivity|]); (split; [reflexivity|]);
    (split; [reflexivity|]); vm_compute; split; congruence.
Qed.

Lemma rm_start_spec Tbslbrm BG Zc C rvidx F Fo E : rm_params Tbslbrm BG Zc C rvidx F Fo E ->
  rm_start Tbslbrm BG Zc C rvidx = Ok (Ncb_of Tbslbrm BG Zc C, k0_of Tbslbrm BG Zc C rvidx) /\
  0 <= k0_of Tbslbrm BG Zc C rvidx < Ncb_of Tbslbrm BG Zc C /\ Ncb_of Tbslbrm BG Zc C <= 66 * 384.
Proof.
  intros []. destruct (k0_index BG rvidx rp_BG0 rp_rv0) as (row & k & Er & Ek & Ed & Hk).
  unfold rm_start. set (c := if BG =? 1 then 66 else 50) in *. assert (Hc : 50 <= c <= 66) by (unfold c; case_if; lia).
  assert (EN : (if BG =? 1 then 66 * Zc else 50 * Zc) = c * Zc) by (unfold c; by case_if). rewrite EN.
  assert (E3 : u32 (3 * Tbslbrm) = 3 * Tbslbrm) by (apply Z.mod_small; lia). rewrite E3, Er, bind_Ok, Ek, bind_Ok.
  rewrite (proj2 (Z.eqb_neq (c * Zc) 0)) by lia. unfold k0_of. rewrite Ed. fold c.
  assert (ENcb : (if Tbslbrm =? 0 then c * Zc else Z.min (c * Zc) (3 * Tbslbrm / (2 * C))) = Ncb_of Tbslbrm BG Zc C) by exact eq_refl.
  rewrite ENcb. set (Ncb := Ncb_of Tbslbrm BG Zc C) in *.
  assert (HN : 0 < Ncb <= c * Zc) by (split; [lia|]; rewrite <- ENcb; destruct (Tbslbrm =? 0); lia). clearbody Ncb c.
  assert (HcZ : c * Zc <= 66 * 384) by nia.
  assert (Hd : 0 <= k * Ncb / (c * Zc) * Zc < Ncb).
  { pose proof (Z.div_mod (k * Ncb) (c * Zc) ltac:(lia)) as Em. pose proof (Z.mod_pos_bound (k * Ncb) (c * Zc) ltac:(lia)).
    assert (0 <= k * Ncb / (c * Zc)) by (apply Z.div_pos; lia). set (q := k * Ncb / (c * Zc)) in *. split; [lia|].
    assert (c * (q * Zc) <= k * Ncb) by lia. nia. }
  assert (E4 : u32 (k * Ncb) = k * Ncb) by (apply Z.mod_small; nia). rewrite E4.
  assert (E5 : u32 (k * Ncb / (c * Zc) * Zc) = k * Ncb / (c * Zc) * Zc) by (apply Z.mod_small; lia). rewrite E5.
  split; [done|]. split; [done|lia].
Qed.

(** The positions of TS 38.212 for the parameters of a call. *)
Definition std_positions (Tbslbrm BG Zc C rvidx F Fo E : Z) : option (list Z) :=
  std_select (Ncb_of Tbslbrm BG Zc C) F Fo (Z.to_nat E * S (Z.to_nat F) + Z.to_nat F) (k0_of Tbslbrm BG Zc C rvidx) (Z.to_nat E).

Definition rm_positions (Tbslbrm BG Zc C rvidx F Fo E : Z) : list Z :=
  rm_pos (Ncb_of Tbslbrm BG Zc C) F Fo (k0_of Tbslbrm BG Zc C rvidx) <$> seqZ 0 E.

Lemma std_positions_spec Tbslbrm BG Zc C rvidx F Fo E : rm_params Tbslbrm BG Zc C rvidx F Fo E ->
  std_positions Tbslbrm BG Zc C rvidx F Fo E = Some (rm_positions Tbslbrm BG Zc C rvidx F Fo E).
Proof.
  intros P. destruct (rm_start_spec _ _ _ _ _ _ _ _ P) as (_ & Hk & _). destruct P. unfold std_positions, rm_positions.
  rewrite (std_select_spec _ F Fo rp_F0 rp_Fo0 rp_fit0 rp_some0 _ _ (Z.to_nat F)); [|lia|done|].
  - by rewrite Z2Nat.id by lia.
  - unfold usable. intros H. apply orb_false_iff in H as [H _]. apply Z.ltb_ge in H. lia.
Qed.

(** The fillers of [w] are marked, and nothing else is. *)
Definition fillers_marked (Ncb F Fo : Z) (w : bytes) : Prop :=
  forall i x, 0 <= i < Ncb -> w !! Z.to_nat i = Some x -> (x = NR_NULL <-> usable F Fo i = false).

Lemma rate_matching_spec Tbslbrm BG Zc C rvidx F Fo E w e : rm_params Tbslbrm BG Zc C rvidx F Fo E ->
  zlen e = E -> Ncb_of Tbslbrm BG Zc C <= zlen w -> fillers_marked (Ncb_of Tbslbrm BG Zc C) F Fo w ->
  exists e', nr_rate_matching_ldpc Tbslbrm BG Zc w e C F Fo rvidx E = Ok (0, e') /\ zlen e' = E /\
    forall k p, rm_positions Tbslbrm BG Zc C rvidx F Fo E !! k = Some p -> e' !! k = w !! Z.to_nat p.
Proof.
  intros P He Hw Hm. destruct (rm_start_spec _ _ _ _ _ _ _ _ P) as (Es & Hk & Hmax). destruct P.
  destruct (rm_select_spec (Ncb_of Tbslbrm BG Zc C) F Fo (k0_of Tbslbrm BG Zc C rvidx) E w) with (e := e)
    as (k & e1 & e2 & E1 & E2 & Hl & Hs); try done; try lia.
  exists e2. unfold nr_rate_matching_ldpc. rewrite (proj2 (Z.eqb_neq C 0)), Es, bind_Ok by lia.
  rewrite !Z.gtb_ltb, (proj2 (Z.ltb_ge E Fo)), (proj2 (Z.ltb_ge (Ncb_of Tbslbrm BG Zc C) Fo)) by lia.
  rewrite E1, bind_Ok, E2, bind_Ok. split; [done|]. split; [done|]. intros j p Hj. unfold rm_positions in Hj.
  apply list_lookup_fmap_Some in Hj as (t & -> & Ht). apply lookup_seqZ in Ht as [-> Ht].
  rewrite <- Hs by lia. f_equal. lia.
Qed.

(** What [w] holds before the soft values are added. *)
Definition cleared (Ncb clear : Z) (w : list Z) : list Z :=
  if clear =? 1 then replicate (Z.to_nat Ncb) 0 ++ drop (Z.to_nat Ncb) w else w.

Lemma rate_unmatching_spec Tbslbrm BG Zc C rvidx clear F Fo E w soft : rm_params Tbslbrm BG Zc C rvidx F Fo E ->
  Ncb_of Tbslbrm BG Zc C <= zlen w -> E <= zlen soft -> Forall int16 w ->
  exists w', nr_rate_matching_ldpc_rx Tbslbrm BG Zc w soft C rvidx clear E F Fo = Ok (0, w') /\ zlen w' = zlen w /\
    forall i, 0 <= i -> w' !! Z.to_nat i =
      (fun a => s16 (a + soft_sum i (rm_positions Tbslbrm BG Zc C rvidx F Fo E) soft)) <$> cleared (Ncb_of Tbslbrm BG Zc C) clear w !! Z.to_nat i.
Proof.
  intros P Hw Hsoft Hint. destruct (rm_start_spec _ _ _ _ _ _ _ _ P) as (Es & Hk & Hmax). pose proof P as P'. destruct P'.
  unfold rm_positions. set (Ncb := Ncb_of Tbslbrm BG Zc C) in *. set (k0 := k0_of Tbslbrm BG Zc C rvidx) in *.
  assert (H0 : (if clear =? 1 then blit w 0 (replicate (Z.to_nat Ncb) 0) else mret w) = Ok (cleared Ncb clear w) /\
    zlen (cleared Ncb clear w) = zlen w /\ Forall int16 (cleared Ncb clear w)).
  { unfold cleared. case_if; [|done]. assert (Hr : zlen (replicate (Z.to_nat Ncb) 0) = Ncb) by (unfold zlen; rewrite length_replicate; lia).
    rewrite blit_ok, Hr by lia. split; [done|]. split.
    - rewrite zlen_app, Hr. unfold zlen in *. rewrite length_drop. lia.
    - apply Forall_app; split; [apply Forall_replicate; unfold int16; lia|by apply Forall_drop]. }
  destruct H0 as (Ec & Hlc & Hic). exists (combine (rm_pos Ncb F Fo k0) soft 0 (Z.to_nat E) (cleared Ncb clear w)).
  unfold nr_rate_matching_ldpc_rx. rewrite (proj2 (Z.eqb_neq C 0)), Es, bind_Ok by lia. fold Ncb k0.
  rewrite !Z.gtb_ltb, (proj2 (Z.ltb_ge E Fo)), (proj2 (Z.ltb_ge Ncb Fo)), Ec, bind_Ok by lia.
  pose proof (rx_core Ncb F Fo k0 E soft rp_F0 rp_Fo0 rp_fit0 rp_some0 Hk ltac:(lia) ltac:(lia) Hsoft (cleared Ncb clear w) ltac:(lia) ltac:(lia)) as Hcore.
  split; [|split; [unfold zlen in *; by rewrite length_combine|]].
  - destruct (if k0 <? Fo then _ else _) as [[[ind k] w1]|]; [|done]. cbn [mbind res_bind] in *. cbv zeta in *.
    destruct (rx_upto Ncb soft E _ k w1) as [[[ind2 k2] w2]|]; [|done]. cbn [mbind res_bind] in *. by rewrite Hcore.
  - intros i Hi. rewrite combine_lookup; [|lia|lia|intros t; apply rm_pos_range; lia|lia|done].
    change (Z.to_nat 0) with 0%nat. rewrite drop_0, Z2Nat.id by lia. done.
Qed.

(** ** Interleaving *)

Definition good_Qm (Qm : Z) : Prop := Qm = 2 \/ Qm = 4 \/ Qm = 6 \/ Qm = 8.

Section Interleave.

Context (E Qm : Z) (HQ : good_Qm Qm) (HE : 0 <= E) (Hdiv : E mod Qm = 0).
#[local] Abbreviation EQm := (E / Qm).

(** The source of the [p]-th bit. *)
Definition il_src (p : Z) : Z := p mod Qm * EQm + p / Qm.

Lemma Qm_pos : 2 <= Qm.
Proof. unfold good_Qm in HQ. lia. Qed.

Lemma E_split : E = EQm * Qm.
Proof. pose proof Qm_pos. pose proof (Z.div_mod E Qm ltac:(lia)). lia. Qed.

Lemma il_src_at j i : 0 <= i < Qm -> il_src (j * Qm + i) = i * EQm + j.
Proof.
  intros Hi. unfold il_src. rewrite (Z.add_comm (j * Qm)), Z.mod_add, Z.div_add, (Z.mod_small i), (Z.div_small i) by lia. lia.
Qed.

Lemma il_src_range p : 0 <= p < E -> 0 <= il_src p < E.
Proof.
  intros Hp. pose proof Qm_pos. pose proof E_split. unfold il_src. pose proof (Z.mod_pos_bound p Qm ltac:(lia)).
  assert (0 <= p / Qm < EQm) by (split; [apply Z.div_pos; lia|apply Z.div_lt_upper_bound; lia]). nia.
Qed.

Lemma il_src_inj p q : 0 <= p < E -> 0 <= q < E -> il_src p = il_src q -> p = q.
Proof.
  intros Hp Hq H. pose proof Qm_pos. pose proof E_split. unfold il_src in H.
  assert (Hb : forall x, 0 <= x < E -> 0 <= x / Qm < EQm) by (intros x Hx; split; [apply Z.div_pos; lia|apply Z.div_lt_upper_bound; lia]).
  pose proof (Hb p Hp). pose proof (Hb q Hq). pose proof (Z.div_mod p Qm ltac:(lia)). pose proof (Z.div_mod q Qm ltac:(lia)).
  assert (p mod Qm = q mod Qm) by nia. assert (p / Qm = q / Qm) by nia. lia.
Qed.

Lemma il_src_surj r : 0 <= r < E -> exists p, 0 <= p < E /\ il_src p = r.
Proof.
  intros Hr. pose proof Qm_pos. pose proof E_split. assert (0 < EQm) by nia. exists (r mod EQm * Qm + r / EQm).
  pose proof (Z.mod_pos_bound r EQm ltac:(lia)). assert (0 <= r / EQm < Qm) by (split; [apply Z.div_pos; lia|apply Z.div_lt_upper_bound; lia]).
  split; [nia|]. rewrite il_src_at by done. pose proof (Z.div_mod r EQm ltac:(lia)). lia.
Qed.

(** Two nested loops that write the positions one after the other. *)
Definition il_done (e f0 : bytes) (p : Z) (f : bytes) : Prop := length f = length f0 /\
  (forall q, 0 <= q < p -> f !! Z.to_nat q = e !! Z.to_nat (il_src q)) /\ (forall q, p <= q -> 0 <= q -> f !! Z.to_nat q = f0 !! Z.to_nat q).

Lemma interleaving_spec e f : E <= zlen e -> E <= zlen f -> exists f', nr_interleaving_ldpc E Qm e f = Ok f' /\ length f' = length f /\
  (forall q, 0 <= q < E -> f' !! Z.to_nat q = e !! Z.to_nat (il_src q)) /\ (forall q, E <= q -> f' !! Z.to_nat q = f !! Z.to_nat q).
Proof.
  intros He Hf. pose proof Qm_pos as HQ2. pose proof E_split as HEs. unfold nr_interleaving_ldpc.
  assert (Hq : (Qm =? 2) || (Qm =? 4) || (Qm =? 6) || (Qm =? 8) = true).
  { destruct HQ as [->|[->|[-> | ->]]]; done. }
  rewrite Hq. cbn [negb]. assert (Hr : zlen (replicate (Z.to_nat E) 0) = E) by (unfold zlen; rewrite length_replicate; lia).
  rewrite blit_ok, bind_Ok, Hr by lia. set (f0 := take _ f ++ _).
  assert (Hf0 : length f0 = length f /\ forall q, E <= q -> f0 !! Z.to_nat q = f !! Z.to_nat q).
  { unfold f0. change (Z.to_nat 0) with 0%nat. rewrite Z.add_0_l, firstn_O, app_nil_l. split.
    - rewrite length_app, length_replicate, length_drop. unfold zlen in *. lia.
    - intros q Hq1. rewrite lookup_app_r by (rewrite length_replicate; lia). rewrite length_replicate, lookup_drop. f_equal. lia. }
  destruct Hf0 as [Hl0 H0]. clearbody f0.
  match goal with |- context [for_loop 0 EQm ?body f0] => destruct (for_loop_inv (fun j f => il_done e f0 (j * Qm) f) 0 EQm body f0) as (f' & -> & Hd) end.
  - nia.
  - split; [done|]. split; [lia|done].
  - intros j fj Hj Hdone.
    match goal with |- context [for_loop 0 Qm ?body fj] => destruct (for_loop_inv (fun i f => il_done e f0 (j * Qm + i) f) 0 Qm body fj) as (fj' & -> & Hd) end.
    + lia.
    + by rewrite Z.add_0_r.
    + intros i fi Hi (Hl & Hd & Hu). destruct (rd_ok e (i * EQm + j)) as (v & -> & Hv); [nia|]. mon.
      rewrite wr_ok by (unfold zlen in *; nia). eexists. split; [done|]. split; [by rewrite length_insert|]. split.
      * intros q Hq1. destruct (decide (q = j * Qm + i)) as [->|N].
        -- rewrite list_lookup_insert_eq by (unfold zlen in *; nia). by rewrite il_src_at.
        -- rewrite list_lookup_insert_ne by nia. apply Hd. lia.
      * intros q Hq1 Hq2. rewrite list_lookup_insert_ne by nia. apply Hu; lia.
    + exists fj'. split; [done|]. by replace ((j + 1) * Qm) with (j * Qm + Qm) by lia.
  - destruct Hd as (Hl & Hd & Hu). exists f'. split; [done|]. split; [lia|]. split; [intros q Hq1; apply Hd; lia|].
    intros q Hq1. rewrite Hu, H0 by lia. done.
Qed.

Definition dil_done (f : list Z) (p : Z) (e : list Z) : Prop := E <= zlen e /\ forall q, 0 <= q < p -> e !! Z.to_nat (il_src q) = f !! Z.to_nat q.

Lemma deinterleave_loop_spec f fuel : E <= zlen f -> forall j e, EQm - j <= Z.of_nat fuel -> 0 <= j <= EQm -> dil_done f (j * Qm) e ->
  exists e', deinterleave_loop fuel E Qm EQm f (j * Qm) j e = Ok e' /\ length e' = length e /\ dil_done f E e'.
Proof.
  intros Hf. pose proof Qm_pos as HQ2. pose proof E_split as HEs.
  induction fuel as [|fuel IH]; intros j e Hfuel Hj Hd; cbn [deinterleave_loop].
  - assert (j = EQm) as -> by lia. rewrite (proj2 (Z.ltb_ge (EQm * Qm) (E - (Qm - 1)))) by lia. rewrite <- HEs in Hd. by exists e.
  - destruct (Z.ltb_spec (j * Qm) (E - (Qm - 1))) as [Hlt|Hge].
    + assert (j < EQm) by nia.
      match goal with |- context [for_loop 0 Qm ?body e] =>
        destruct (for_loop_inv (fun i e' => length e' = length e /\ dil_done f (j * Qm + i) e') 0 Qm body e) as (e1 & -> & Hl1 & Hd1) end.
      * lia.
      * by rewrite Z.add_0_r.
      * intros i ei Hi (Hl & Hle & Hdi). destruct (rd_ok f (j * Qm + i)) as (v & -> & Hv); [nia|]. mon.
        rewrite wr_ok by nia. eexists. split; [done|]. split; [by rewrite length_insert|]. split; [unfold zlen in *; by rewrite length_insert|].
        intros q Hq. rewrite <- il_src_at by done. destruct (decide (q = j * Qm + i)) as [->|N].
        -- pose proof (il_src_range (j * Qm + i) ltac:(nia)). rewrite list_lookup_insert_eq by (unfold zlen in *; lia). done.
        -- rewrite list_lookup_insert_ne; [apply Hdi; lia|]. pose proof (il_src_range q ltac:(nia)).
           pose proof (il_src_range (j * Qm + i) ltac:(nia)). intros Heq. apply N, il_src_inj; [nia|nia|lia].
      * mon. replace (j * Qm + Qm) with ((j + 1) * Qm) in * by lia.
        destruct (IH (j + 1) e1) as (e2 & -> & Hl2 & Hd2); [lia|lia|done|]. exists e2. split; [done|]. split; [lia|done].
    + assert (j = EQm) as -> by nia. rewrite <- HEs in Hd. by exists e.
Qed.

Lemma deinterleaving_spec f e : E <= zlen f -> E <= zlen e ->
  exists e', nr_deinterleaving_ldpc E Qm e f = Ok e' /\ length e' = length e /\ forall q, 0 <= q < E -> e' !! Z.to_nat (il_src q) = f !! Z.to_nat q.
Proof.
  intros Hf He. pose proof Qm_pos. pose proof E_split. unfold nr_deinterleaving_ldpc.
  assert (Hq : (Qm =? 2) || (Qm =? 4) || (Qm =? 6) || (Qm =? 8) = true) by (destruct HQ as [->|[->|[-> | ->]]]; done).
  rewrite Hq, Hdiv. cbn [negb Z.eqb].
  destruct (deinterleave_loop_spec f (Z.to_nat E) Hf 0 e) as (e' & E' & Hl & _ & Hd); [nia|nia|split; [done|lia]|].
  exists e'. done.
Qed.

End Interleave.

(** ** The main results *)


(** [C29] Soft combining is the adjoint of rate matching: [nr_rate_matching_ldpc_rx] adds each soft value
    to the position the transmitter took the bit from, so that a position holds its old value (0
    after [clear]) plus the sum of all soft values received for it, modulo 2^16. *)
Theorem soft_combining_adds_up Tbslbrm BG Zc C rvidx clear F Fo E w soft : rm_params Tbslbrm BG Zc C rvidx F Fo E ->
  Ncb_of Tbslbrm BG Zc C <= zlen w -> E <= zlen soft -> Forall int16 w ->
  exists ps w', std_positions Tbslbrm BG Zc C rvidx F Fo E = Some ps /\
    nr_rate_matching_ldpc_rx Tbslbrm BG Zc w soft C rvidx clear E F Fo = Ok (0, w') /\ zlen w' = zlen w /\
    forall i, 0 <= i -> w' !! Z.to_nat i =
      (fun a => s16 (a + soft_sum i ps soft)) <$> cleared (Ncb_of Tbslbrm BG Zc C) clear w !! Z.to_nat i.
Proof.
  intros P Hw Hs Hi. destruct (rate_unmatching_spec _ _ _ _ _ clear _ _ _ w soft P Hw Hs Hi) as (w' & E' & Hl & H).
  exists (rm_positions Tbslbrm BG Zc C rvidx F Fo E), w'. split; [by apply std_positions_spec|]. done.
Qed.

(** Deinterleaving undoes interleaving for the four modulation orders: whatever value [g] the
    receiver has for each interleaved bit, it ends up at the place of that bit. *)
Theorem deinterleave_interleave E Qm (g : Z -> Z) e f e0 : good_Qm Qm -> 0 <= E -> E mod Qm = 0 -> zlen e = E -> zlen f = E -> zlen e0 = E ->
  exists f', nr_interleaving_ldpc E Qm e f = Ok f' /\ nr_deinterleaving_ldpc E Qm e0 (g <$> f') = Ok (g <$> e).
Proof.
  intros HQ HE Hd He Hf He0. destruct (interleaving_spec E Qm HQ HE Hd e f) as (f' & E1 & Hl & Hs & _); [lia|lia|].
  exists f'. split; [done|]. destruct (deinterleaving_spec E Qm HQ HE Hd (g <$> f') e0) as (e' & -> & Hl' & Hs').
  - unfold zlen in *. rewrite length_fmap. lia.
  - lia.
  - f_equal. apply list_eq. intros i. destruct (decide (i < Z.to_nat E)%nat) as [Hi|Hi].
    + destruct (il_src_surj E Qm HQ Hd (Z.of_nat i) ltac:(lia)) as (q & Hq & Eq).
      specialize (Hs' q Hq). rewrite Eq, Nat2Z.id in Hs'. rewrite Hs', !list_lookup_fmap, Hs, Eq, Nat2Z.id by done. done.
    + rewrite !lookup_ge_None_2; [done|rewrite length_fmap; unfold zlen in *; lia|unfold zlen in *; lia].
Qed.

(** ** Witnesses *)

(** Base graph 2 with lifting size 2, 3 fillers from position 12 on, redundancy version 2, and more bits than the buffer has. *)
Lemma demo_rm_params : rm_params 0 2 2 1 2 3 12 120.
Proof. constructor; try (vm_compute; intuition congruence). Qed.

Definition demo_w : bytes := (fun i => if (12 <=? i) && (i <? 15) then NR_NULL else i mod 2) <$> seqZ 0 100.

Lemma demo_w_marked : fillers_marked 100 3 12 demo_w.
Proof.
  intros i x Hi Hx. unfold demo_w in Hx. apply list_lookup_fmap_Some in Hx as (t & -> & Ht). apply lookup_seqZ in Ht as [-> _].
  rewrite Z2Nat.id, Z.add_0_l by lia. unfold usable, NR_NULL. pose proof (Z.mod_pos_bound i 2 ltac:(lia)).
  destruct (Z.leb_spec 12 i), (Z.ltb_spec i 15), (Z.ltb_spec i 12), (Z.leb_spec (12 + 3) i); cbn [andb orb]; (split; intros; try done; lia).
Qed.


Lemma soft_combining_adds_up_witness : exists w',
  nr_rate_matching_ldpc_rx 0 2 2 (replicate 110 5) (replicate 120 7) 1 2 1 120 3 12 = Ok (0, w') /\ zlen w' = 110.
Proof.
  destruct (soft_combining_adds_up 0 2 2 1 2 1 3 12 120 (replicate 110 5) (replicate 120 7) demo_rm_params) as (ps & w' & _ & E & Hl & _).
  - vm_compute. congruence.
  - vm_compute. congruence.
  - apply Forall_replicate. unfold int16. lia.
  - exists w'. split; [exact E|exact Hl].
Defined.

Lemma deinterleave_interleave_witness : exists f', nr_interleaving_ldpc 12 4 (seqZ 1 12) (replicate 12 0) = Ok f' /\
  nr_deinterleaving_ldpc 12 4 (replicate 12 0) (Z.opp <$> f') = Ok (Z.opp <$> seqZ 1 12).
Proof.
  apply (deinterleave_interleave 12 4 Z.opp (seqZ 1 12) (replicate 12 0) (replicate 12 0)); try reflexivity; [right; left; reflexivity|lia].
Defined.
