(* ===== verification/Dlsch.v ===== *)
(** * The downlink shared channel

    [src/openair1/PHY/NR_TRANSPORT/nr_dlsch_coding.c] at the gNB and
    [src/openair1/PHY/NR_UE_TRANSPORT/nr_dlsch_decoding.c] at the UE: a transport block is
    given its CRC, cut into code blocks, encoded, rate matched and interleaved; the receiver
    goes the same way back, with soft combining over the HARQ rounds.  The LDPC coder is
    loaded at run time behind [ldpc_interface]: it is a parameter.  Time measurement, KPI
    counters, tracing and the offload card are left out; the jobs of the thread pool work on
    disjoint parts of the buffers and run one after the other here. *)

From S2P Require Import Prelude Crc Tbs Segmentation RateMatch.

Import Crc Tbs Segmentation RateMatch.

Module Dlsch.

(** ** The interface to the LDPC library *)

(** The parameters [nr_dlsch_decoding] sets for the decoder. *)
Record dec_params := mk_dec_params {
  dp_BG : Z; dp_Z : Z; dp_R : Z; dp_numMaxIter : Z; dp_E : Z; dp_crc_type : Z }.

(** [ldpc_encode BG Zc Kb K c]: the bits [LDPCencoder] writes for the segment [c];
    [ldpc_decode p l abort]: the number of iterations, the decoded octets and the abort flag. *)
Class Ldpc := {
  ldpc_encode : Z -> Z -> Z -> Z -> bytes -> list Z;
  ldpc_decode : dec_params -> list Z -> bool -> Z * bytes * bool }.

(** ** Both sides *)

Definition MAX_NUM_NR_DLSCH_SEGMENTS_PER_LAYER : Z := 36.

Definition get_num_dmrs (dmrs_mask : Z) : Z :=
  fold_left (fun n i => n + Z.land (Z.shiftr dmrs_mask i) 1) (seqZ 0 16) 0.

Definition nr_get_G (nb_rb nb_symb_sch nb_re_dmrs length_dmrs unav_res Qm Nl : Z) : Z :=
  u32 (u32 ((12 * nb_symb_sch - nb_re_dmrs * length_dmrs) * nb_rb * Qm * Nl) - u32 (unav_res * Qm * Nl)).

Definition nr_get_E (G C Qm Nl r : Z) : res Z :=
  if negb (Nl >? 0) then Err Exit
  else if negb (Qm >? 0) then Err Exit
  else if C =? 0 then Err Undef
  else if r <=? u32 (C - (G / (Nl * Qm)) mod C - 1) then mret (u32 (Nl * Qm * (G / (Nl * Qm * C))))
  else mret (u32 (Nl * Qm * (G / (Nl * Qm * C) + 1))).

(** ** The gNB *)

Record pdsch_pdu := mk_pdsch_pdu {
  TBSize : Z; qamModOrder : Z; rbSize : Z; NrOfSymbols : Z; dlDmrsSymbPos : Z; dmrsConfigType : Z;
  numDmrsCdmGrpsNoData : Z; nrOfLayers : Z; ldpcBaseGraph : Z; tbSizeLbrmBytes : Z; rvIndex : Z }.

(** [NR_DL_gNB_HARQ_t] *)
Record gnb_harq := mk_gnb_harq { pdu : bytes; hb : bytes; hc : list bytes; unav_res : Z; rel15 : pdsch_pdu }.

(** [nb_re_dmrs], a [uint8_t] in both files *)
Definition re_dmrs (dmrs_type cdm_groups : Z) : Z := u8 (if dmrs_type =? 0 then 6 * cdm_groups else 4 * cdm_groups).

Definition dlsch_G (p : pdsch_pdu) (unav : Z) : Z :=
  nr_get_G (rbSize p) (NrOfSymbols p) (re_dmrs (dmrsConfigType p) (numDmrsCdmGrpsNoData p)) (get_num_dmrs (dlDmrsSymbPos p))
    unav (qamModOrder p) (nrOfLayers p).

(** The CRC of the transport block is written behind it and the whole copied to [b]; returns [B]. *)
Definition attach_crc (t : crc_tables) (h : gnb_harq) (max_bytes : Z) : res (Z * gnb_harq) :=
  let A := u32 (Z.shiftl (TBSize (rel15 h)) 3) in
  let a := pdu h in
  if A >? NR_MAX_PDSCH_TBS then
    c ← crc24a t a A;
    let crc := Z.shiftr c 8 in
    a ← wr a (Z.shiftr A 3) (byte_of crc 2);
    a ← wr a (1 + Z.shiftr A 3) (byte_of crc 1);
    a ← wr a (2 + Z.shiftr A 3) (byte_of crc 0);
    if negb (A / 8 + 4 <=? max_bytes) then Err Exit
    else
      x ← slice a 0 (A / 8 + 4); b ← blit (hb h) 0 x;
      mret (A + 24, mk_gnb_harq a b (hc h) (unav_res h) (rel15 h))
  else
    c ← crc16 t a A;
    let crc := Z.shiftr c 16 in
    a ← wr a (Z.shiftr A 3) (byte_of crc 1);
    a ← wr a (1 + Z.shiftr A 3) (byte_of crc 0);
    if negb (A / 8 + 3 <=? max_bytes) then Err Exit
    else
      x ← slice a 0 (A / 8 + 3); b ← blit (hb h) 0 x;
      mret (A + 16, mk_gnb_harq a b (hc h) (unav_res h) (rel15 h)).

Section Encode.

Context `{Ldpc}.

(** What [ldpc8blocks] does with segment [rr]: the fillers are marked in the encoder's output, which is
    rate matched (a failure leaves [e] zero) and interleaved to its place in [output]. *)
Definition encode_segment (h : gnb_harq) (Kb BG : Z) (v : seg_vars) (rr : Z) (st : Z * bytes) : res (Z * bytes) :=
  let '(r_offset, output) := st in
  let p := rel15 h in
  let Fo := u32 (K v - F v - 2 * Zout v) in
  c ← rd (hc h) rr;
  let d := ldpc_encode BG (Zout v) Kb (K v) c in
  d ← (if F v >? 0 then blit d Fo (replicate (Z.to_nat (F v)) NR_NULL) else mret d);
  E ← nr_get_E (dlsch_G p (unav_res h)) (u8 (C v)) (qamModOrder p) (nrOfLayers p) (u8 rr);
  '(_, e) ← nr_rate_matching_ldpc (tbSizeLbrmBytes p) BG (Zout v) d (replicate (Z.to_nat E) 0) (u8 (C v)) (F v) Fo (rvIndex p) E;
  f ← slice output r_offset (zlen output - r_offset);
  f ← nr_interleaving_ldpc E (qamModOrder p) e f;
  output ← blit output r_offset f;
  mret (r_offset + E, output).

(** One job: up to eight segments, placed behind those of the earlier jobs. *)
Definition ldpc8blocks (h : gnb_harq) (Kb BG : Z) (v : seg_vars) (macro_num : Z) (output : bytes) : res bytes :=
  let p := rel15 h in
  r_offset ← for_loop 0 (macro_num * 8) (fun i off =>
    E ← nr_get_E (dlsch_G p (unav_res h)) (u8 (C v)) (qamModOrder p) (nrOfLayers p) (u8 i); mret (off + E)) 0;
  '(_, output) ← for_loop (macro_num * 8) (Z.min (C v) ((macro_num + 1) * 8)) (encode_segment h Kb BG v) (r_offset, output);
  mret output.

Definition nr_dlsch_encoding (t : crc_tables) (h : gnb_harq) (output : bytes) : res (Z * gnb_harq * bytes) :=
  let p := rel15 h in
  let max_bytes := MAX_NUM_NR_DLSCH_SEGMENTS_PER_LAYER * nrOfLayers p * 1056 in
  '(B, h) ← attach_crc t h max_bytes;
  let BG := ldpcBaseGraph p in
  '(Kb, v, outs) ← nr_segmentation t (Some (hb h, hc h)) B BG (mk_seg_vars 0 0 0 0);
  let h := mk_gnb_harq (pdu h) (hb h) (default (hc h) outs) (unav_res h) p in
  if C v >? MAX_NUM_NR_DLSCH_SEGMENTS_PER_LAYER * nrOfLayers p then mret (-1, h, output)
  else
    let n_seg := C v / 8 + (if Z.land (C v) 7 =? 0 then 0 else 1) in
    output ← for_loop 0 n_seg (ldpc8blocks h Kb BG v) output;
    mret (0, h, output).

End Encode.

(** ** The UE *)

(** [NR_DL_UE_HARQ_t]; [busy] is its status other than [SCH_IDLE]. *)
Record ue_harq := mk_ue_harq {
  first_rx : Z; ud : list (list Z); uc : list bytes; useg : seg_vars; DLround : Z; llrLen : Z;
  decodeResult : bool; busy : bool; abort_decode : bool }.

(** [NR_UE_DLSCH_t] and the fields of its [dlsch_config] *)
Record ue_dlsch := mk_ue_dlsch {
  TBS : Z; d_ldpcBaseGraph : Z; d_qamModOrder : Z; d_Nl : Z; d_rv : Z; d_tbslbrm : Z; number_rbs : Z;
  d_dmrsConfigType : Z; max_ldpc_iterations : Z; last_iteration_cnt : Z }.

(** [last_iteration_cnt] is a [uint8_t]. *)
Definition set_iterations (ds : ue_dlsch) (n : Z) : ue_dlsch :=
  mk_ue_dlsch (TBS ds) (d_ldpcBaseGraph ds) (d_qamModOrder ds) (d_Nl ds) (d_rv ds) (d_tbslbrm ds) (number_rbs ds)
    (d_dmrsConfigType ds) (max_ldpc_iterations ds) (u8 n).

(** [ldpcDecode_ue_t]: what a job is given, and what it leaves behind ([completed] is the answer
    [join_task_ans] waits for). *)
Record rdata := mk_rdata {
  r_params : dec_params; segment_r : Z; r_E : Z; r_off : Z; offset : Z; Kr_bytes : Z;
  decodeIterations : Z; completed : bool }.

(** [simde_mm_packs_epi16] *)
Definition sat8 (x : Z) : Z := Z.max (-128) (Z.min 127 x).

(** The soft values of a whole code word, from those of the circular buffer: the [2*Z] punctured bits are
    unknown, the fillers known ([memset(z, 127, ...)] gives 0x7f7f).  Of the array [l] the first [kc*Z]
    values are kept; the ones behind come from uninitialised memory. *)
Definition llr_input (v : seg_vars) (kc : Z) (d : list Z) : res (list Z) :=
  let K_bits_F := K v - F v in
  x1 ← slice d 0 (K_bits_F - 2 * Zout v);
  x2 ← slice d (K v - 2 * Zout v) (kc * Zout v - K v);
  mret (sat8 <$> (replicate (Z.to_nat (2 * Zout v)) 0 ++ x1 ++ replicate (Z.to_nat (F v)) 0x7f7f ++ x2)).

Section Decode.

Context `{Ldpc}.

(** [nr_processDLSegment]: when the rate matching fails it returns without [completed_task_ans]. *)
Definition nr_processDLSegment (ds : ue_dlsch) (llr : list Z) (kc : Z) (h : ue_harq) (rd0 : rdata) : res (ue_harq * rdata) :=
  let v := useg h in
  let p := r_params rd0 in
  let r := segment_r rd0 in
  let E := r_E rd0 in
  f ← slice llr (r_off rd0) (zlen llr - r_off rd0);
  w ← nr_deinterleaving_ldpc E (d_qamModOrder ds) (replicate (Z.to_nat E) 0) f;
  d ← rd (ud h) r;
  '(ret, d) ← nr_rate_matching_ldpc_rx (d_tbslbrm ds) (dp_BG p) (dp_Z p) d w (u8 (C v)) (d_rv ds) (first_rx h) E (F v)
    (u32 (K v - F v - 2 * dp_Z p));
  ds' ← wr (ud h) r d;
  let h := mk_ue_harq (first_rx h) ds' (uc h) v (DLround h) (llrLen h) (decodeResult h) (busy h) (abort_decode h) in
  if ret =? -1 then
    mret (h, mk_rdata p r E (r_off rd0) (offset rd0) (Kr_bytes rd0) (max_ldpc_iterations ds + 1) false)
  else
    l ← llr_input v kc d;
    let p := mk_dec_params (dp_BG p) (dp_Z p) (dp_R p) (dp_numMaxIter p) (lenWithCrc (C v) (TBS ds)) (crcType (C v) (TBS ds)) in
    let '(iter, out, ab) := ldpc_decode p l (abort_decode h) in
    c ← (if iter <=? max_ldpc_iterations ds then
           buf ← rd (uc h) r; x ← slice out 0 (Z.shiftr (K v) 3); buf ← blit buf 0 x; wr (uc h) r buf
         else mret (uc h));
    mret (mk_ue_harq (first_rx h) (ud h) c v (DLround h) (llrLen h) (decodeResult h) (busy h) ab,
          mk_rdata p r E (r_off rd0) (offset rd0) (Kr_bytes rd0) iter true).

(** The loop of the check for a transport block of zeros: [while (b[i] == 0 && i < sz) i++] *)
Fixpoint zero_run (n : nat) (b : bytes) (i sz : Z) : res Z :=
  x ← rd b i;
  if (x =? 0) && (i <? sz) then match n with O => Err Fuel | S n => zero_run n b (i + 1) sz end else mret i.

Definition all_zero (b : bytes) (sz : Z) : res bool :=
  x ← rd b sz;
  if x =? 0 then
    y ← rd b (sz + 1);
    if y =? 0 then i ← zero_run (Z.to_nat sz) b 0 sz; mret (i =? sz) else mret false
  else mret false.

(** The octets of a segment that belong to the transport block *)
Definition payload_len (v : seg_vars) (kr_bytes : Z) : Z := kr_bytes - Z.shiftr (F v) 3 - (if C v >? 1 then 3 else 0).

(** The first half of [nr_ue_postDecode]: a decoded segment is copied to its place in the transport block. *)
Definition copy_segment (v : seg_vars) (c : list bytes) (max : Z) (rd0 : rdata) (b : bytes) (num_seg_ok : Z) : res (bytes * Z) :=
  if decodeIterations rd0 <? 1 + max then
    c ← rd c (segment_r rd0);
    x ← slice c 0 (payload_len v (Kr_bytes rd0));
    b ← blit b (offset rd0) x; mret (b, num_seg_ok + 1)
  else mret (b, num_seg_ok).

(** [harq_process->decodeResult] once all segments are done. *)
Definition tb_result (t : crc_tables) (v : seg_vars) (tbs : Z) (b : bytes) (num_seg_ok : Z) : res bool :=
  let ok := num_seg_ok =? C v in
  ok ← (if ok && (C v >? 1) then
          x ← check_crc t b (lenWithCrc 1 tbs) (crcType 1 tbs); mret (negb (x =? 0))
        else mret ok);
  if ok : bool then z ← all_zero b (tbs / 8); mret (negb z) else mret false.

Definition nr_ue_postDecode (t : crc_tables) (rd0 : rdata) (last : bool) (st : ue_harq * ue_dlsch * bytes * Z) :
    res (ue_harq * ue_dlsch * bytes * Z) :=
  let '(h, ds, b, num_seg_ok) := st in
  '(b, num_seg_ok) ← copy_segment (useg h) (uc h) (max_ldpc_iterations ds) rd0 b num_seg_ok;
  if negb last then mret (h, ds, b, num_seg_ok)
  else
    ok ← tb_result t (useg h) (TBS ds) b num_seg_ok;
    let iters := if ok : bool then decodeIterations rd0 else max_ldpc_iterations ds + 1 in
    mret (mk_ue_harq (first_rx h) (ud h) (uc h) (useg h) (DLround h) (llrLen h) ok (if ok : bool then false else busy h) (abort_decode h),
          set_iterations ds iters, b, num_seg_ok).

(** [join_task_ans], when the jobs have run: [j] moves down over the completed ones, again and again until it is -1
    ([n] is [j + 1]; [spin] bounds the rounds of the outer loop). *)
Fixpoint join_scan (status : list bool) (n : nat) : nat :=
  match n with O => O | S j => if default false (status !! j) then join_scan status j else n end.

Fixpoint join_task_ans (spin : nat) (status : list bool) (n : nat) : res unit :=
  match n with
  | O => mret ()
  | _ => match spin with O => Err Fuel | S spin => join_task_ans spin status (join_scan status n) end
  end.

(** The loop that prepares and pushes the jobs; a job's result is appended to the list. *)
Definition push_segment (ds : ue_dlsch) (llr : list Z) (G kc : Z) (r : Z) (st : ue_harq * list rdata * Z * Z) :
    res (ue_harq * list rdata * Z * Z) :=
  let '(h, arr, r_offset, off) := st in
  let v := useg h in
  let BG := d_ldpcBaseGraph ds in
  E ← nr_get_E G (u8 (C v)) (d_qamModOrder ds) (d_Nl ds) (u8 r);
  '(R, len) ← nr_get_R_ldpc_decoder (d_rv ds) E BG (Zout v) (llrLen h) (DLround h);
  let h := mk_ue_harq (first_rx h) (ud h) (uc h) v (DLround h) len (decodeResult h) (busy h) (abort_decode h) in
  let kr_bytes := Z.shiftr (K v) 3 in
  let job := mk_rdata (mk_dec_params BG (Zout v) R (max_ldpc_iterations ds) 0 0) r E r_offset off kr_bytes 0 false in
  '(h, job) ← nr_processDLSegment ds llr kc h job;
  mret (h, arr ++ [job], r_offset + E, off + payload_len v kr_bytes).

(** The segmentation parameters of a new transport block, and its cleared soft buffers; [false] when there are too many segments. *)
Definition new_block (t : crc_tables) (ds : ue_dlsch) (h : ue_harq) : res (bool * ue_harq) :=
  if first_rx h =? 1 then
    '(_, v, _) ← nr_segmentation t None (lenWithCrc 1 (TBS ds)) (d_ldpcBaseGraph ds) (useg h);
    let h := mk_ue_harq (first_rx h) (ud h) (uc h) v (DLround h) (llrLen h) (decodeResult h) (busy h) (abort_decode h) in
    if C v >? MAX_NUM_NR_DLSCH_SEGMENTS_PER_LAYER * d_Nl ds then mret (false, h)
    else
      dd ← for_loop 0 (C v) (fun i dd =>
        d ← rd dd i; d ← blit d 0 (replicate (Z.to_nat (5 * 8448)) 0); wr dd i d) (ud h);
      mret (true, mk_ue_harq (first_rx h) dd (uc h) v (DLround h) (llrLen h) (decodeResult h) (busy h) (abort_decode h))
  else mret (true, h).

(** The number of segments for which there are buffers. *)
Definition a_segments (Nl nb_rb : Z) : Z :=
  let a := u16 (MAX_NUM_NR_DLSCH_SEGMENTS_PER_LAYER * Nl) in
  if nb_rb =? 273 then a else u16 (u16 (a * nb_rb) / 273 + 1).

(** [nr_dlsch_decoding]: the return value, the HARQ process, the channel and the transport block.  [-1] is returned as a [uint32_t]. *)
Definition nr_dlsch_decoding (spin : nat) (t : crc_tables) (llr : list Z) (ds : ue_dlsch) (h0 : ue_harq) (b : bytes) (G : Z) :
    res (Z * ue_harq * ue_dlsch * bytes) :=
  if negb ((d_dmrsConfigType ds =? 0) || (d_dmrsConfigType ds =? 1)) then Err Exit
  else
    let ds := set_iterations ds (max_ldpc_iterations ds + 1) in
    let kc := if d_ldpcBaseGraph ds =? 2 then 52 else 68 in
    '(few, h) ← new_block t ds h0;
    if negb few then mret (u32 (-1), h, ds, b)
    else
        let v := useg h in
        if C v >? a_segments (d_Nl ds) (number_rbs ds) then mret (1 + max_ldpc_iterations ds, h, ds, b)
        else
          let h := mk_ue_harq (first_rx h) (ud h) (uc h) v (DLround h) (llrLen h) (decodeResult h) (busy h) false in
          '(h, arr, _, _) ← for_loop 0 (C v) (push_segment ds llr G kc) (h, [], 0, 0);
          _ ← join_task_ans spin (completed <$> arr) (length arr);
          '(h, ds, b, _) ← for_loop 0 (C v) (fun i st =>
            job ← rd arr i; nr_ue_postDecode t job (i =? C v - 1) st) (h, ds, b, 0);
          mret (last_iteration_cnt ds, h, ds, b).

End Decode.

End Dlsch.
