(* ===== verification/DlschTx.v ===== *)
(** * The coded bits of a transport block

    The shares of the allocation the segments get, and the output of [nr_dlsch_encoding]:
    at every position which bit of which code word. *)

From S2P Require Import Prelude RlcPdu Crc CrcProps Tbs Segmentation SegmentationProps RateMatch RateMatchProps Dlsch.

Import Crc Tbs Segmentation RateMatch Dlsch.

(** ** The share of a segment *)

Section Shares.

(** [Q] bits of a layer group, [c] segments. *)
Context (G c Q : Z) (HG : 0 <= G < 2 ^ 32) (Hc : 0 < c) (HQ : 0 < Q).

Definition extra : Z := (G / Q) mod c.

Definition E_of (r : Z) : Z := Q * (G / Q / c + (if r <=? c - extra - 1 then 0 else 1)).

Definition off_of (r : Z) : Z := Q * (r * (G / Q / c) + Z.max 0 (r - (c - extra))).

Lemma extra_range : 0 <= extra < c.
Proof. apply Z.mod_pos_bound. done. Qed.

Lemma share_nonneg : 0 <= G / Q / c.
Proof. apply Z.div_pos; [apply Z.div_pos; lia|lia]. Qed.

Lemma off_0 : off_of 0 = 0.
Proof. unfold off_of. pose proof extra_range. lia. Qed.

Lemma off_succ r : off_of (r + 1) = off_of r + E_of r.
Proof. unfold off_of, E_of. pose proof extra_range. destruct (Z.leb_spec r (c - extra - 1)); nia. Qed.

Lemma E_nonneg r : 0 <= E_of r.
Proof. unfold E_of. pose proof share_nonneg. case_if; nia. Qed.

(** The segments share out the whole allocation, up to less than a layer group. *)
Lemma off_total : off_of c = Q * (G / Q) /\ G - Q < off_of c <= G.
Proof.
  assert (E : off_of c = Q * (G / Q)).
  { unfold off_of. pose proof extra_range. replace (Z.max 0 (c - (c - extra))) with extra by lia.
    unfold extra. pose proof (Z.div_mod (G / Q) c ltac:(lia)). lia. }
  split; [done|]. rewrite E. pose proof (Z.div_mod G Q ltac:(lia)). pose proof (Z.mod_pos_bound G Q HQ). lia.
Qed.

Lemma off_mono r s : r <= s -> off_of r <= off_of s.
Proof.
  intros H. unfold off_of. pose proof share_nonneg. assert (r * (G / Q / c) <= s * (G / Q / c)) by nia.
  apply Z.mul_le_mono_nonneg_l; lia.
Qed.

Lemma off_nonneg r : 0 <= r -> 0 <= off_of r.
Proof. intros Hr. rewrite <- off_0. by apply off_mono. Qed.

Lemma E_bound r : 0 <= r < c -> E_of r <= G.
Proof.
  intros Hr. pose proof (off_succ r). pose proof (off_mono (r + 1) c ltac:(lia)). pose proof (off_nonneg r ltac:(lia)).
  pose proof off_total. lia.
Qed.

End Shares.

(** [nr_get_E] computes the share. *)
Lemma nr_get_E_spec G c Qm Nl r : 0 <= G < 2 ^ 32 -> 0 < c < 256 -> 0 < Qm -> 0 < Nl -> 0 <= r < c ->
  nr_get_E G (u8 c) Qm Nl (u8 r) = Ok (E_of G c (Nl * Qm) r).
Proof.
  intros HG Hc HQ HN Hr. assert (Ec : u8 c = c) by (apply Z.mod_small; lia). assert (Er : u8 r = r) by (apply Z.mod_small; lia).
  assert (HQN : 0 < Nl * Qm) by nia. rewrite Ec, Er. unfold nr_get_E.
  rewrite (proj2 (Z.gtb_lt Nl 0)), (proj2 (Z.gtb_lt Qm 0)), (proj2 (Z.eqb_neq c 0)) by lia. cbn [negb].
  pose proof (extra_range G c (Nl * Qm) ltac:(lia)) as Hx. unfold extra in Hx.
  assert (Ex : u32 (c - (G / (Nl * Qm)) mod c - 1) = c - (G / (Nl * Qm)) mod c - 1) by (apply Z.mod_small; lia). rewrite Ex.
  pose proof (E_bound G c (Nl * Qm) HG ltac:(lia) HQN r Hr) as Hb. pose proof (E_nonneg G c (Nl * Qm) HG ltac:(lia) HQN r) as Hn.
  unfold E_of, extra in *. rewrite <- !(Z.div_div G (Nl * Qm) c) by lia.
  destruct (r <=? c - (G / (Nl * Qm)) mod c - 1); mon; f_equal; rewrite ?Z.add_0_r in *; apply Z.mod_small; lia.
Qed.

(** A share is a multiple of the modulation order. *)
Lemma E_of_mod G c Qm Nl r : 0 < Qm -> E_of G c (Nl * Qm) r mod Qm = 0.
Proof. intros H. unfold E_of. rewrite (Z.mul_comm Nl), <- Z.mul_assoc, Z.mul_comm. apply Z.mod_mul. lia. Qed.

(** ** The parameters of a transmission *)

(** [v] and [Kp] are the result of the segmentation of the transport block of [p] ([G] bits are allocated). *)
Record dl_params (p : pdsch_pdu) (G : Z) (v : seg_vars) (L Kp : Z) : Prop := {
  dl_size : 0 < TBSize p < 2 ^ 26;
  dl_BG : ldpcBaseGraph p = 1 \/ ldpcBaseGraph p = 2;
  dl_seg : seg_params (lenWithCrc 1 (8 * TBSize p)) (ldpcBaseGraph p) v L Kp;
  dl_octets : (8 * C v | lenWithCrc 1 (8 * TBSize p));
  dl_Qm : good_Qm (qamModOrder p);
  dl_layers : 0 < nrOfLayers p <= 7;
  dl_count : C v <= MAX_NUM_NR_DLSCH_SEGMENTS_PER_LAYER * nrOfLayers p;
  dl_G : 0 <= G < 2 ^ 30;
  dl_rm : forall r, 0 <= r < C v -> rm_params (tbSizeLbrmBytes p) (ldpcBaseGraph p) (Zout v) (C v) (rvIndex p) (F v)
    (K v - F v - 2 * Zout v) (E_of G (C v) (nrOfLayers p * qamModOrder p) r) }.

(** The bits of the mother code. *)
Definition N_of (BG Zc : Z) : Z := (if BG =? 1 then 66 else 50) * Zc.

Lemma Ncb_le_N Tbslbrm BG Zc C : 0 < Zc -> 0 < C -> 0 <= Tbslbrm -> Ncb_of Tbslbrm BG Zc C <= N_of BG Zc.
Proof. intros. unfold Ncb_of, N_of. case_if; lia. Qed.

(** The encoder's output with its fillers marked. *)
Definition marked (Fo F : Z) (d : bytes) : bytes := take (Z.to_nat Fo) d ++ replicate (Z.to_nat F) NR_NULL ++ drop (Z.to_nat (Fo + F)) d.

Definition is_bit (x : Z) : Prop := x = 0 \/ x = 1.

Lemma marked_lookup Fo F d i : 0 <= Fo -> 0 <= F -> Fo + F <= zlen d -> 0 <= i ->
  marked Fo F d !! Z.to_nat i = if usable F Fo i then d !! Z.to_nat i else Some NR_NULL.
Proof.
  intros HFo HF Hl Hi. unfold marked, usable, zlen in *. assert (Ht : length (take (Z.to_nat Fo) d) = Z.to_nat Fo) by (rewrite length_take; lia).
  destruct (Z.ltb_spec i Fo); cbn [orb].
  - rewrite lookup_app_l by lia. by rewrite lookup_take_lt by lia.
  - rewrite lookup_app_r, Ht by lia. destruct (Z.leb_spec (Fo + F) i).
    + rewrite lookup_app_r by (rewrite length_replicate; lia). rewrite length_replicate, lookup_drop. f_equal. lia.
    + rewrite lookup_app_l by (rewrite length_replicate; lia). apply lookup_replicate_2. lia.
Qed.

Lemma zlen_marked Fo F d : 0 <= Fo -> 0 <= F -> Fo + F <= zlen d -> zlen (marked Fo F d) = zlen d.
Proof. intros. unfold marked, zlen in *. rewrite !length_app, length_take, length_replicate, length_drop. lia. Qed.

Lemma marked_fillers Ncb Fo F d : 0 <= Fo -> 0 <= F -> Fo + F <= zlen d -> Forall is_bit d -> fillers_marked Ncb F Fo (marked Fo F d).
Proof.
  intros HFo HF Hl Hd i x Hi Hx. rewrite marked_lookup in Hx by lia. destruct (usable F Fo i).
  - split; [|done]. intros ->. pose proof (Forall_lookup_1 _ _ _ _ Hd Hx) as [H|H]; unfold NR_NULL in H; lia.
  - injection Hx as <-. done.
Qed.

(** The marking in [ldpc8blocks]. *)
Lemma mark_ok Fo F d : 0 <= Fo -> 0 <= F -> Fo + F <= zlen d ->
  (if F >? 0 then blit d Fo (replicate (Z.to_nat F) NR_NULL) else mret d) = Ok (marked Fo F d).
Proof.
  intros HFo HF Hl. assert (Hr : zlen (replicate (Z.to_nat F) NR_NULL) = F) by (unfold zlen; rewrite length_replicate; lia).
  destruct (Z.gtb_spec F 0).
  - rewrite blit_ok, Hr by lia. done.
  - assert (F = 0) as -> by lia. unfold marked. rewrite Z.add_0_r. change (replicate (Z.to_nat 0) NR_NULL) with (@nil Z). by rewrite app_nil_l, take_drop.
Qed.

(** What is relied on of the encoder: it writes the bits of the mother code without the first two columns, and the
    code is systematic. *)
Class LdpcCode `{Ldpc} := {
  code_length BG Zc Kb K c : BG = 1 \/ BG = 2 -> 0 < Zc -> zlen (ldpc_encode BG Zc Kb K c) = N_of BG Zc;
  code_bits BG Zc Kb K c : Forall is_bit (ldpc_encode BG Zc Kb K c);
  code_systematic BG Zc Kb K c i : BG = 1 \/ BG = 2 -> 0 < Zc -> K = (if BG =? 1 then 22 else 10) * Zc ->
    Forall is_byte c -> K <= 8 * zlen c -> 0 <= i < K - 2 * Zc ->
    ldpc_encode BG Zc Kb K c !! Z.to_nat i = b2z <$> bits c !! Z.to_nat (2 * Zc + i) }.

(** ** One segment *)

Section Segments.

Context `{LdpcCode} (h : gnb_harq) (v : seg_vars) (L Kp Kb : Z).
#[local] Abbreviation p := (rel15 h).
#[local] Abbreviation G := (dlsch_G p (unav_res h)).
Context (P : dl_params p G v L Kp).
#[local] Abbreviation BG := (ldpcBaseGraph p).
#[local] Abbreviation Q := (nrOfLayers p * qamModOrder p).
#[local] Abbreviation Fo := (K v - F v - 2 * Zout v).
#[local] Abbreviation E := (E_of G (C v) Q).
#[local] Abbreviation off := (off_of G (C v) Q).
#[local] Abbreviation Ncb := (Ncb_of (tbSizeLbrmBytes p) BG (Zout v) (C v)).
#[local] Abbreviation k0 := (k0_of (tbSizeLbrmBytes p) BG (Zout v) (C v) (rvIndex p)).

(** Position [q] of the share of segment [r] carries this bit of its circular buffer. *)
Definition sent_pos (r q : Z) : Z := rm_pos Ncb (F v) Fo k0 (il_src (E r) (qamModOrder p) q).

Definition sent_ok (r : Z) (c output : bytes) : Prop := forall q, 0 <= q < E r ->
  output !! Z.to_nat (off r + q) = marked Fo (F v) (ldpc_encode BG (Zout v) Kb (K v) c) !! Z.to_nat (sent_pos r q).

Lemma C_range : 1 <= C v < 256.
Proof.
  destruct P. pose proof (sp_count _ _ _ _ _ dl_seg0). unfold MAX_NUM_NR_DLSCH_SEGMENTS_PER_LAYER in *. lia.
Qed.

Lemma Q_pos : 0 < Q.
Proof. destruct P. unfold good_Qm in *. nia. Qed.

Lemma Qm_gt0 : 0 < qamModOrder p.
Proof. destruct P. unfold good_Qm in *. lia. Qed.

Lemma get_E_ok r : 0 <= r < C v -> nr_get_E G (u8 (C v)) (qamModOrder p) (nrOfLayers p) (u8 r) = Ok (E r).
Proof.
  intros Hr. pose proof C_range. pose proof Qm_gt0. destruct P. apply nr_get_E_spec; lia.
Qed.

Lemma share_facts r : 0 <= r < C v -> 0 <= off r /\ 0 <= E r /\ off (r + 1) = off r + E r /\ off (r + 1) <= G /\ E r mod qamModOrder p = 0.
Proof.
  intros Hr. pose proof C_range. pose proof Q_pos. pose proof Qm_gt0. destruct P.
  pose proof (off_total G (C v) Q ltac:(lia) ltac:(lia)). pose proof (off_mono G (C v) Q ltac:(lia) ltac:(lia) ltac:(lia) (r + 1) (C v) ltac:(lia)).
  split; [apply off_nonneg; lia|]. split; [apply E_nonneg; lia|]. split; [apply off_succ; lia|]. split; [lia|]. by apply E_of_mod.
Qed.

(** The fillers of the circular buffer. *)
Lemma filler_facts : 0 <= F v /\ 0 <= Fo /\ Fo + F v <= N_of BG (Zout v) /\ 0 < Zout v /\ Ncb <= N_of BG (Zout v) /\ u32 Fo = Fo.
Proof.
  pose proof C_range. destruct P. destruct (dl_rm0 0 ltac:(lia)). pose proof (Ncb_le_N (tbSizeLbrmBytes p) BG (Zout v) (C v)).
  assert (u32 Fo = Fo) by (apply Z.mod_small; lia). lia.
Qed.

Lemma encode_segment_spec r c output : 0 <= r < C v -> hc h !! Z.to_nat r = Some c -> G <= zlen output ->
  exists output', encode_segment h Kb BG v r (off r, output) = Ok (off (r + 1), output') /\ length output' = length output /\
    sent_ok r c output' /\ forall i, 0 <= i -> ~ off r <= i < off (r + 1) -> output' !! Z.to_nat i = output !! Z.to_nat i.
Proof.
  intros Hr Hc Ho. destruct (share_facts r Hr) as (Hoff & HE & Hs & Hle & Hmod). destruct filler_facts as (HF & HFo & HN & HZ & HNcb & Eu).
  pose proof C_range as HC. pose proof P as P'. destruct P'. unfold encode_segment. rewrite (rd_Some _ _ c), bind_Ok by (done || lia).
  set (d := ldpc_encode BG (Zout v) Kb (K v) c). assert (Hd : zlen d = N_of BG (Zout v)) by (by apply code_length).
  rewrite Eu, mark_ok, bind_Ok by lia. rewrite (get_E_ok r Hr), bind_Ok.
  assert (Ec : u8 (C v) = C v) by (apply Z.mod_small; lia). rewrite Ec.
  destruct (rate_matching_spec (tbSizeLbrmBytes p) BG (Zout v) (C v) (rvIndex p) (F v) Fo (E r) (marked Fo (F v) d) (replicate (Z.to_nat (E r)) 0))
    as (e & Ee & Hel & Hsel).
  - by apply dl_rm0.
  - unfold zlen. rewrite length_replicate. lia.
  - rewrite zlen_marked; lia.
  - apply marked_fillers; [lia|lia|lia|apply code_bits].
  - rewrite Ee, bind_Ok, slice_ok, bind_Ok by lia. rewrite take_ge by (rewrite length_drop; unfold zlen; lia).
    destruct (interleaving_spec (E r) (qamModOrder p) dl_Qm0 HE Hmod e (drop (Z.to_nat (off r)) output)) as (f & Ef & Hfl & Hf1 & Hf2).
    { lia. }
    { unfold zlen in *. rewrite length_drop. lia. }
    assert (Hfz : zlen f = zlen output - off r) by (unfold zlen in *; rewrite Hfl, length_drop; lia).
    rewrite Ef, bind_Ok, blit_ok, bind_Ok by lia. rewrite <- Hs. eexists. split; [reflexivity|].
    rewrite (drop_ge output) by (unfold zlen in *; lia). rewrite app_nil_r.
    assert (Ht : length (take (Z.to_nat (off r)) output) = Z.to_nat (off r)) by (rewrite length_take; unfold zlen in *; lia).
    split; [|split].
    + rewrite length_app, Ht, Hfl, length_drop. unfold zlen in *. lia.
    + intros q Hq. rewrite lookup_app_r, Ht by lia. replace (Z.to_nat (off r + q) - Z.to_nat (off r))%nat with (Z.to_nat q) by lia.
      rewrite Hf1 by done. apply Hsel. unfold rm_positions. rewrite list_lookup_fmap.
      assert (0 <= il_src (E r) (qamModOrder p) q < E r) by (by apply il_src_range). rewrite lookup_seqZ_lt by lia. cbn [fmap option_fmap option_map].
      f_equal. unfold sent_pos. f_equal. lia.
    + intros i Hi Hni. destruct (Z.lt_ge_cases i (off r)).
      * rewrite lookup_app_l by lia. by rewrite lookup_take_lt by lia.
      * rewrite lookup_app_r, Ht by lia. replace (Z.to_nat i - Z.to_nat (off r))%nat with (Z.to_nat (i - off r)) by lia.
        rewrite Hf2 by lia. rewrite lookup_drop. f_equal. lia.
Qed.

(** ** All segments *)

(** The segments of [cs] below [n] are in place. *)
Definition sent_below (n : Z) (output : bytes) : Prop :=
  G <= zlen output /\ forall r c, 0 <= r < n -> hc h !! Z.to_nat r = Some c -> sent_ok r c output.

Lemma ldpc8blocks_spec j output : 0 <= j -> j * 8 < C v -> C v <= zlen (hc h) -> sent_below (j * 8) output ->
  exists output', ldpc8blocks h Kb BG v j output = Ok output' /\ length output' = length output /\ sent_below (Z.min (C v) ((j + 1) * 8)) output'.
Proof.
  intros Hj Hlt Hlen [Hout Hb]. unfold ldpc8blocks.
  match goal with |- context [for_loop 0 (j * 8) ?body 0] => destruct (for_loop_inv (fun i o => o = off i) 0 (j * 8) body 0) as (o & -> & ->) end.
  - lia.
  - symmetry. apply off_0. pose proof C_range. lia.
  - intros i o Hi ->. rewrite get_E_ok, bind_Ok by lia. eexists. split; [done|]. destruct (share_facts i ltac:(lia)) as (_ & _ & -> & _). done.
  - rewrite bind_Ok.
    match goal with |- context [for_loop (j * 8) ?hi ?body ?s0] =>
      destruct (for_loop_inv (fun i st => st.1 = off i /\ length st.2 = length output /\ sent_below i st.2) (j * 8) hi body s0) as ([o output'] & -> & _ & Hl & Hd) end.
    + lia.
    + done.
    + intros r [o out] Hr (Eo & Hl & Hbo & Hd). cbn [fst snd] in *. subst o.
      destruct (lookup_lt_is_Some_2 (hc h) (Z.to_nat r)) as [c Hc]; [unfold zlen in *; lia|].
      destruct (encode_segment_spec r c out) as (out' & -> & Hl' & Hs & Hu); [lia|done|done|].
      eexists. split; [done|]. cbn [fst snd]. split; [done|]. split; [lia|]. split; [unfold zlen in *; lia|].
      intros r' c' Hr' Hc'. destruct (decide (r' = r)) as [->|N]; [rewrite Hc in Hc'; by injection Hc' as <-|]. intros q Hq.
      destruct (share_facts r ltac:(lia)) as (H1 & H2 & H3 & H4 & _). destruct (share_facts r' ltac:(lia)) as (H5 & H6 & H7 & H8 & _).
      pose proof C_range. pose proof Q_pos. destruct P.
      pose proof (off_mono G (C v) Q ltac:(lia) ltac:(lia) ltac:(lia) (r' + 1) r ltac:(lia)).
      rewrite Hu by lia. apply Hd; [lia|done|done].
    + cbn [fst snd] in *. mon. by exists output'.
Qed.

Lemma all_blocks_spec output : C v <= zlen (hc h) -> G <= zlen output ->
  exists output', for_loop 0 (C v / 8 + (if Z.land (C v) 7 =? 0 then 0 else 1)) (ldpc8blocks h Kb BG v) output = Ok output' /\
    length output' = length output /\ sent_below (C v) output'.
Proof.
  intros Hlen Hout. pose proof C_range as HC.
  assert (Hn : exists n, C v / 8 + (if Z.land (C v) 7 =? 0 then 0 else 1) = n /\ 0 <= n /\ (n - 1) * 8 < C v <= n * 8).
  { change 7 with (Z.ones 3). rewrite Z.land_ones by lia. change (2 ^ 3) with 8. eexists. split; [reflexivity|].
    pose proof (Z.div_mod (C v) 8 ltac:(lia)). pose proof (Z.mod_pos_bound (C v) 8 ltac:(lia)). destruct (Z.eqb_spec (C v mod 8) 0); lia. }
  destruct Hn as (n & -> & Hn & Hcover).
  destruct (for_loop_inv (fun j out => length out = length output /\ sent_below (Z.min (C v) (j * 8)) out) 0 n (ldpc8blocks h Kb BG v) output)
    as (out' & E' & Hl & Hd).
  - lia.
  - split; [done|]. split; [done|]. intros r c Hr. lia.
  - intros j out Hj [Hl Hd]. replace (Z.min (C v) (j * 8)) with (j * 8) in Hd by lia.
    destruct (ldpc8blocks_spec j out) as (out' & -> & Hl' & Hd'); [lia|lia|done|done|]. exists out'. split; [done|]. split; [lia|done].
  - exists out'. replace (Z.min (C v) (n * 8)) with (C v) in Hd by lia. done.
Qed.

End Segments.

(** ** The CRC of the transport block *)

Definition tb_crc (a : bytes) : bytes :=
  if 8 * zlen a >? NR_MAX_PDSCH_TBS then crc_octets C24a (Z.shiftr (crc_bits poly24a (bits a)) 8)
  else crc_octets C16 (Z.shiftr (crc_bits poly16 (bits a)) 16).

Lemma zlen_tb a : 8 * zlen (a ++ tb_crc a) = lenWithCrc 1 (8 * zlen a).
Proof.
  rewrite zlen_app. unfold tb_crc, lenWithCrc. change (1 >? 1) with false. cbv iota. destruct (8 * zlen a >? NR_MAX_PDSCH_TBS);
    cbn [crc_octets]; rewrite ?zlen_cons, zlen_nil; lia.
Qed.

Lemma tb_bytes a : Forall is_byte a -> Forall is_byte (a ++ tb_crc a).
Proof. intros Ha. apply Forall_app. split; [done|]. unfold tb_crc. case_if; apply crc_octets_byte. Qed.

(** The CRC functions on a block in front of other octets. *)
Lemma crc_fun_prefix x t a rest : tables_ok t -> Forall is_byte (a ++ rest) ->
  crc_fun x t (a ++ rest) (8 * zlen a) = Ok (crc_bits (crc_poly x) (bits a)).
Proof.
  intros Ht Hb. rewrite crc_fun_spec; [|done|done|rewrite zlen_app; unfold zlen; lia]. do 2 f_equal.
  rewrite bits_app. apply take_app_length'. rewrite length_bits. unfold zlen. lia.
Qed.

(** Two writes. *)
Lemma wr2 (l1 l2 : bytes) x y a b i : i = zlen l1 ->
  (buf ← wr (l1 ++ x :: y :: l2) i a; wr buf (1 + i) b) = Ok (l1 ++ a :: b :: l2).
Proof.
  intros ->. rewrite wr_middle by done. mon. change (a :: y :: l2) with ([a] ++ y :: l2).
  rewrite app_assoc, wr_middle by (rewrite zlen_app; unfold zlen; cbn [length]; lia). by rewrite <- app_assoc.
Qed.

(** The block and its CRC are copied with one octet more. *)
Lemma copy_tb (x rest b : bytes) : Forall is_byte (x ++ rest) -> Forall is_byte b -> 1 <= zlen rest -> zlen x + 1 <= zlen b ->
  exists y, slice (x ++ rest) 0 (zlen x + 1) = Ok y /\ exists b', blit b 0 y = Ok b' /\ Forall is_byte b' /\ zlen b' = zlen b /\ take (length x) b' = x.
Proof.
  intros Hx Hb Hr Hl. unfold zlen in *. destruct rest as [|z rest]; [cbn [length] in Hr; lia|].
  assert (Es : slice (x ++ z :: rest) 0 (Z.of_nat (length x) + 1) = Ok (x ++ [z])).
  { rewrite slice_ok by (unfold zlen; rewrite ?length_app; cbn [length]; lia). f_equal. change (Z.to_nat 0) with 0%nat. rewrite drop_0.
    change (z :: rest) with ([z] ++ rest). rewrite app_assoc. apply take_app_length'. rewrite length_app. cbn [length]. lia. }
  exists (x ++ [z]). split; [done|]. rewrite blit_ok by (unfold zlen; rewrite ?length_app; cbn [length]; lia).
  eexists. split; [done|]. change (Z.to_nat 0) with 0%nat. rewrite firstn_O, app_nil_l. split; [|split].
  - apply Forall_app. split; [|by apply Forall_drop]. apply Forall_app in Hx as [H1 H2]. apply Forall_app. split; [done|]. inversion H2; subst. constructor; [done|constructor].
  - rewrite !length_app, length_drop. unfold zlen. rewrite length_app. cbn [length]. lia.
  - rewrite <- app_assoc. apply take_app_length.
Qed.

(** What the buffers of a transport block hold before it is encoded. *)
Record tx_buffers (h : gnb_harq) (a : bytes) : Prop := {
  tb_pdu : exists rest, pdu h = a ++ rest /\ 4 <= zlen rest /\ Forall is_byte (a ++ rest);
  tb_size : zlen a = TBSize (rel15 h);
  tb_max : 0 < TBSize (rel15 h) < 2 ^ 26 /\ TBSize (rel15 h) + 4 <= MAX_NUM_NR_DLSCH_SEGMENTS_PER_LAYER * nrOfLayers (rel15 h) * 1056;
  tb_b : TBSize (rel15 h) + 4 <= zlen (hb h) /\ Forall is_byte (hb h) }.

Lemma attach_crc_spec t h a : tables_ok t -> tx_buffers h a ->
  exists h', attach_crc t h (MAX_NUM_NR_DLSCH_SEGMENTS_PER_LAYER * nrOfLayers (rel15 h) * 1056) = Ok (lenWithCrc 1 (8 * zlen a), h') /\
    hc h' = hc h /\ unav_res h' = unav_res h /\ rel15 h' = rel15 h /\ Forall is_byte (hb h') /\ zlen (hb h') = zlen (hb h) /\
    take (length (a ++ tb_crc a)) (hb h') = a ++ tb_crc a.
Proof.
  intros Ht [(rest & Ep & Hrest & Hb) Hs [Hm1 Hm2] [Hb1 Hb2]]. unfold attach_crc. rewrite Ep, <- Hs in *.
  set (M := MAX_NUM_NR_DLSCH_SEGMENTS_PER_LAYER * nrOfLayers (rel15 h) * 1056) in *. clearbody M.
  assert (EA : u32 (Z.shiftl (zlen a) 3) = 8 * zlen a).
  { rewrite Z.shiftl_mul_pow2 by lia. unfold u32. rewrite Z.mod_small by lia. lia. }
  assert (E3 : Z.shiftr (8 * zlen a) 3 = zlen a) by (rewrite Z.shiftr_div_pow2, Z.mul_comm by lia; apply Z.div_mul; lia).
  assert (E8 : 8 * zlen a / 8 = zlen a) by (rewrite Z.mul_comm; apply Z.div_mul; lia). rewrite EA, E3, E8.
  assert (Hrb : Forall is_byte rest) by (by apply Forall_app in Hb as [_ ?]). pose proof (tb_bytes a) as Htb. unfold tb_crc, lenWithCrc in *.
  change (1 >? 1) with false. cbv iota. assert (Ha : Forall is_byte a) by (by apply Forall_app in Hb as [? _]). specialize (Htb Ha).
  destruct rest as [|x [|y [|z [|w rest]]]]; try (unfold zlen in Hrest; cbn [length] in Hrest; lia).
  inversion_clear Hrb as [|? ? Hx Hrb1]. inversion_clear Hrb1 as [|? ? Hy Hrb2]. inversion_clear Hrb2 as [|? ? Hz Hrb3].
  destruct (8 * zlen a >? NR_MAX_PDSCH_TBS).
  - pose proof (crc_fun_prefix C24a t a (x :: y :: z :: w :: rest) Ht Hb) as Ec. cbn [crc_fun crc_poly] in Ec. rewrite Ec, bind_Ok. cbv zeta.
    pose proof (wr3 a (w :: rest) x y z (byte_of (Z.shiftr (crc_bits poly24a (bits a)) 8) 2) (byte_of (Z.shiftr (crc_bits poly24a (bits a)) 8) 1)
      (byte_of (Z.shiftr (crc_bits poly24a (bits a)) 8) 0) (zlen a) eq_refl) as Ew.
    apply bind_ok in Ew as (a1 & -> & Ew). rewrite bind_Ok. apply bind_ok in Ew as (a2 & -> & Ew). rewrite bind_Ok, Ew, bind_Ok.
    rewrite (proj2 (Z.leb_le _ _) Hm2). cbn [negb]. set (crc := crc_octets C24a (Z.shiftr (crc_bits poly24a (bits a)) 8)) in *.
    change (a ++ _ :: _ :: _ :: w :: rest) with (a ++ crc ++ w :: rest). rewrite app_assoc.
    assert (Hl : zlen (a ++ crc) = zlen a + 3) by (rewrite zlen_app; done). replace (zlen a + 4) with (zlen (a ++ crc) + 1) in * by lia.
    destruct (copy_tb (a ++ crc) (w :: rest) (hb h)) as (y' & -> & b' & Eb & Hb' & Hl' & Ht'); [by apply Forall_app|done|rewrite zlen_cons; unfold zlen; lia|lia|].
    rewrite bind_Ok, Eb, bind_Ok. eexists. split; [reflexivity|]. done.
  - pose proof (crc_fun_prefix C16 t a (x :: y :: z :: w :: rest) Ht Hb) as Ec. cbn [crc_fun crc_poly] in Ec. rewrite Ec, bind_Ok. cbv zeta.
    pose proof (wr2 a (z :: w :: rest) x y (byte_of (Z.shiftr (crc_bits poly16 (bits a)) 16) 1)
      (byte_of (Z.shiftr (crc_bits poly16 (bits a)) 16) 0) (zlen a) eq_refl) as Ew.
    apply bind_ok in Ew as (a1 & -> & Ew). rewrite bind_Ok, Ew, bind_Ok.
    rewrite (proj2 (Z.leb_le (zlen a + 3) M)) by lia. cbn [negb]. set (crc := crc_octets C16 (Z.shiftr (crc_bits poly16 (bits a)) 16)) in *.
    change (a ++ _ :: _ :: z :: w :: rest) with (a ++ crc ++ z :: w :: rest). rewrite app_assoc.
    assert (Hl : zlen (a ++ crc) = zlen a + 2) by (rewrite zlen_app; done). replace (zlen a + 3) with (zlen (a ++ crc) + 1) in * by lia.
    destruct (copy_tb (a ++ crc) (z :: w :: rest) (hb h)) as (y' & -> & b' & Eb & Hb' & Hl' & Ht');
      [apply Forall_app; split; [done|by constructor]|done|rewrite !zlen_cons; unfold zlen; lia|lia|].
    rewrite bind_Ok, Eb, bind_Ok. eexists. split; [reflexivity|]. done.
Qed.

(** ** The whole encoder *)

Lemma seg_share_prefix (x y : bytes) n r : 0 <= n -> 0 <= r -> (r + 1) * n <= zlen x -> seg_share (x ++ y) n r = seg_share x n r.
Proof.
  intros Hn Hr Hl. unfold seg_share, zlen in *. rewrite drop_app_le by nia. apply take_app_le. rewrite length_drop. nia.
Qed.

(** The code block of segment [r] of the transport block [a]. *)
Definition tx_block (v : seg_vars) (Kp : Z) (a : bytes) (r : Z) (old : bytes) : bytes :=
  code_block v Kp (seg_share (a ++ tb_crc a) (lenWithCrc 1 (8 * zlen a) / C v / 8) r) old.

Lemma nr_dlsch_encoding_spec `{LdpcCode} t h a output v L Kp : tables_ok t -> tx_buffers h a ->
  dl_params (rel15 h) (dlsch_G (rel15 h) (unav_res h)) v L Kp ->
  (forall v0, nr_segmentation t None (lenWithCrc 1 (8 * zlen a)) (ldpcBaseGraph (rel15 h)) v0 =
    Ok (seg_Kb (lenWithCrc 1 (8 * zlen a)) (ldpcBaseGraph (rel15 h)), v, None)) ->
  C v <= zlen (hc h) -> Forall (Forall is_byte) (hc h) -> Forall (fun old => K v / 8 <= zlen old) (hc h) ->
  dlsch_G (rel15 h) (unav_res h) <= zlen output ->
  exists h' output', nr_dlsch_encoding t h output = Ok (0, h', output') /\ length output' = length output /\
    rel15 h' = rel15 h /\ unav_res h' = unav_res h /\
    forall r old, 0 <= r < C v -> hc h !! Z.to_nat r = Some old ->
      sent_ok h v (seg_Kb (lenWithCrc 1 (8 * zlen a)) (ldpcBaseGraph (rel15 h))) r (tx_block v Kp a r old) output'.
Proof.
  intros Ht Hbuf P Hv Hc Hcb Hroom Hout. unfold nr_dlsch_encoding.
  destruct (attach_crc_spec t h a Ht Hbuf) as (h1 & -> & E1 & E2 & E3 & Hb1 & Hbl & Htake). rewrite bind_Ok.
  destruct Hbuf as [_ Hsize [Hpos _] [Hbroom _]]. pose proof (zlen_tb a) as Hz. set (B := lenWithCrc 1 (8 * zlen a)) in *.
  assert (HB : 0 <= B < 2 ^ 31 /\ B <= 8 * zlen a + 24).
  { unfold B, lenWithCrc. change (1 >? 1) with false. cbv iota. case_if; lia. }
  destruct HB as [HB HB24]. pose proof P as P'. destruct P'.
  destruct (nr_segmentation_params t B (ldpcBaseGraph (rel15 h)) (mk_seg_vars 0 0 0 0) HB dl_BG0) as (v' & L' & Kp' & P2 & Ev & Hcall).
  rewrite Hv in Ev. apply Ok_inj in Ev. injection Ev as <-.
  assert (EL : L' = L /\ Kp' = Kp).
  { rewrite <- Hsize in dl_seg0. fold B in dl_seg0. pose proof (sp_L _ _ _ _ _ P2). pose proof (sp_L _ _ _ _ _ dl_seg0).
    pose proof (sp_Kp _ _ _ _ _ P2). pose proof (sp_Kp _ _ _ _ _ dl_seg0). split; congruence. }
  destruct EL as [-> ->].
  destruct (nr_segmentation_content t B (ldpcBaseGraph (rel15 h)) (mk_seg_vars 0 0 0 0) v L Kp (hb h1) (hc h1) Ht HB P2 Hcall)
    as (outs & -> & Hlen & Hin & _).
  { constructor; rewrite ?E1; try done; [rewrite Hbl; lia|by rewrite <- Hsize in dl_octets0]. }
  rewrite bind_Ok. cbn [default]. rewrite Z.gtb_ltb, (proj2 (Z.ltb_ge _ _) dl_count0).
  set (h2 := mk_gnb_harq _ _ _ _ _).
  assert (P3 : dl_params (rel15 h2) (dlsch_G (rel15 h2) (unav_res h2)) v L Kp) by (cbn; by rewrite E2).
  destruct (all_blocks_spec h2 v L Kp (seg_Kb B (ldpcBaseGraph (rel15 h))) P3 output) as (out' & Eo & Hol & _ & Hsent).
  { cbn. rewrite E1 in Hlen. unfold zlen in *. rewrite Hlen. lia. }
  { cbn. by rewrite E2. }
  cbn [rel15 h2] in Eo. rewrite Eo, bind_Ok. exists h2, out'. split; [done|]. split; [done|]. split; [done|]. split; [done|].
  intros r old Hr Hold. specialize (Hin r old Hr ltac:(by rewrite E1)). specialize (Hsent r _ Hr Hin).
  unfold sent_ok, sent_pos in *. cbn [h2 rel15 unav_res] in Hsent. rewrite E2 in Hsent. unfold tx_block. fold B.
  assert (Es : seg_share (hb h1) (B / C v / 8) r = seg_share (a ++ tb_crc a) (B / C v / 8) r).
  { rewrite <- (take_drop (length (a ++ tb_crc a)) (hb h1)), Htake. apply seg_share_prefix; [|lia|].
    - apply Z.div_pos; [apply Z.div_pos; lia|lia].
    - destruct (P2). assert (8 * (B / C v / 8) <= B / C v) by (apply Z.mul_div_le; lia).
      assert (C v * (B / C v) <= B) by (apply Z.mul_div_le; lia). nia. }
  rewrite <- Es. exact Hsent.
Qed.
