(* ===== verification/DlschRx.v ===== *)
(** * The receiver of the downlink shared channel

    What the soft values of a code word are when the channel adds no noise, and what
    [nr_processDLSegment] and [nr_dlsch_decoding] make of them. *)

From S2P Require Import Prelude RlcPdu Crc CrcProps Tbs Segmentation SegmentationProps RateMatch RateMatchProps Dlsch DlschTx.

Import Crc Tbs Segmentation RateMatch Dlsch.

(** ** The range of [check_crc] *)

(** A type [check_crc] does not know has length 0. *)
Lemma crc_type_known ty : crc_len_of ty = 0 \/ exists x, crc_type_of x = Some ty /\ crc_length x <= 24.
Proof.
  unfold crc_len_of. destruct (Z.eqb_spec ty CRC24_A) as [->|_]; [right; by exists C24a|]. destruct (Z.eqb_spec ty CRC24_B) as [->|_]; [right; by exists C24b|].
  destruct (Z.eqb_spec ty CRC16) as [->|_]; [right; by exists C16|]. destruct (Z.eqb_spec ty CRC8) as [->|_]; [right; by exists C8|by left].
Qed.

(** [check_crc] reads the first [n] bits only. *)
Lemma check_crc_prefix t b b' n ty : tables_ok t -> Forall is_byte b -> Forall is_byte b' -> n mod 8 = 0 -> 24 <= n < 2 ^ 31 ->
  n <= 8 * zlen b -> n <= 8 * zlen b' -> take (Z.to_nat (n / 8)) b = take (Z.to_nat (n / 8)) b' -> check_crc t b n ty = check_crc t b' n ty.
Proof.
  intros Ht Hb Hb' Hm Hn Hl Hl' E. destruct (crc_type_known ty) as [Ez|(x & Hx & Hx24)]; [by rewrite !check_crc_unknown_type|].
  rewrite !(check_crc_spec x ty) by (done || lia).
  assert (Et : take (Z.to_nat n) (bits b) = take (Z.to_nat n) (bits b')).
  { assert (En : Z.to_nat n = (8 * Z.to_nat (n / 8))%nat) by (Z.to_euclidean_division_equations; lia). by rewrite En, <- !bits_take, E. }
  by rewrite Et.
Qed.

(** [check_crc] answers 0 or 1. *)
Lemma check_crc_total t b n ty : tables_ok t -> Forall is_byte b -> n mod 8 = 0 -> 24 <= n < 2 ^ 31 -> n <= 8 * zlen b ->
  check_crc t b n ty = Ok 0 \/ check_crc t b n ty = Ok 1.
Proof.
  intros Ht Hb Hm Hn Hl. destruct (crc_type_known ty) as [Ez|(x & Hx & Hx24)]; [right; by apply check_crc_unknown_type|].
  rewrite (check_crc_spec x ty) by (done || lia). destruct (_ =? 0); [by right|by left].
Qed.

(** ** Repetitions of a position *)

Fixpoint occ (i : Z) (ps : list Z) : Z := match ps with [] => 0 | p :: ps => b2z (p =? i) + occ i ps end.

Lemma occ_app i l1 l2 : occ i (l1 ++ l2) = occ i l1 + occ i l2.
Proof. induction l1 as [|p l1 IH]; [done|]. cbn [app occ]. rewrite IH. lia. Qed.

Lemma occ_nonneg i ps : 0 <= occ i ps.
Proof. induction ps as [|p ps IH]; cbn [occ]; [lia|]. destruct (p =? i); cbn [b2z]; lia. Qed.

Lemma occ_pos i ps : i ∈ ps -> 0 < occ i ps.
Proof.
  induction ps as [|p ps IH]; intros H; [by apply not_elem_of_nil in H|]. cbn [occ]. apply elem_of_cons in H as [->|H].
  - rewrite Z.eqb_refl. pose proof (occ_nonneg p ps). cbn [b2z]. lia.
  - specialize (IH H). destruct (p =? i); cbn [b2z]; lia.
Qed.

Lemma occ_none i ps : (i ∉ ps) -> occ i ps = 0.
Proof.
  induction ps as [|p ps IH]; intros H; [done|]. apply not_elem_of_cons in H as [H1 H2]. cbn [occ]. rewrite (proj2 (Z.eqb_neq p i)) by done.
  rewrite IH by done. done.
Qed.

Lemma occ_nodup i ps : NoDup ps -> occ i ps <= 1.
Proof.
  induction 1 as [|p ps Hn _ IH]; cbn [occ]; [lia|]. destruct (Z.eqb_spec p i) as [->|]; cbn [b2z]; [|lia]. rewrite occ_none by done. lia.
Qed.

(** The soft values of one position agree. *)
Lemma soft_sum_const (f : Z -> Z) i ps : forall soft, length ps = length soft -> (forall k p, ps !! k = Some p -> soft !! k = Some (f p)) ->
  soft_sum i ps soft = occ i ps * f i.
Proof.
  induction ps as [|p ps IH]; intros [|x soft] Hl Hf; try done. cbn [soft_sum occ].
  rewrite (IH soft); [|by injection Hl|intros k q Hq; apply (Hf (S k) q Hq)]. specialize (Hf 0%nat p eq_refl). injection Hf as ->.
  destruct (Z.eqb_spec p i) as [->|]; cbn [b2z]; lia.
Qed.

Section Repetitions.

Context (Ncb F Fo k0 : Z) (HF : 0 <= F) (HFo : 0 <= Fo) (HU : 0 < Ncb - F).
#[local] Abbreviation pos := (rm_pos Ncb F Fo k0).

(** Within one turn no position comes twice. *)
Lemma rm_pos_inj a b : 0 <= b - a < Ncb - F -> pos a = pos b -> a = b.
Proof.
  intros Hab H. unfold rm_pos in H. apply ord_inj in H; [|done].
  set (s := rank F Fo k0) in *. pose proof (Z.div_mod (s + a) (Ncb - F) ltac:(lia)). pose proof (Z.div_mod (s + b) (Ncb - F) ltac:(lia)).
  set (q1 := (s + a) / (Ncb - F)) in *. set (q2 := (s + b) / (Ncb - F)) in *. assert (b - a = (Ncb - F) * (q2 - q1)) by lia.
  assert (q2 = q1) by nia. lia.
Qed.

Lemma rm_turn_nodup a n : 0 <= n <= Ncb - F -> NoDup (pos <$> seqZ a n).
Proof.
  intros Hn. apply NoDup_alt. intros i j x Hi Hj. apply list_lookup_fmap_Some in Hi as (y & -> & Hy). apply list_lookup_fmap_Some in Hj as (z & E & Hz).
  apply lookup_seqZ in Hy as [-> Hi]. apply lookup_seqZ in Hz as [-> Hj]. destruct (Z.le_ge_cases (Z.of_nat i) (Z.of_nat j)).
  - apply rm_pos_inj in E; lia.
  - symmetry in E. apply rm_pos_inj in E; lia.
Qed.

Lemma occ_turns i q : forall a m, 0 <= m <= Ncb - F -> occ i (pos <$> seqZ a (Z.of_nat q * (Ncb - F) + m)) <= Z.of_nat q + 1.
Proof.
  induction q as [|q IH]; intros a m Hm.
  - rewrite Z.mul_0_l, Z.add_0_l. apply occ_nodup. apply rm_turn_nodup. lia.
  - replace (Z.of_nat (S q) * (Ncb - F) + m) with ((Ncb - F) + (Z.of_nat q * (Ncb - F) + m)) by lia.
    rewrite seqZ_app by nia. rewrite fmap_app, occ_app. pose proof (IH (a + (Ncb - F)) m Hm).
    pose proof (occ_nodup i _ (rm_turn_nodup a (Ncb - F) ltac:(lia))). lia.
Qed.

Lemma occ_bound i E : 0 <= E -> occ i (pos <$> seqZ 0 E) <= E / (Ncb - F) + 1.
Proof.
  intros HE. pose proof (Z.div_mod E (Ncb - F) ltac:(lia)). pose proof (Z.mod_pos_bound E (Ncb - F) HU).
  assert (0 <= E / (Ncb - F)) by (apply Z.div_pos; lia). set (q := E / (Ncb - F)) in *.
  set (m := E mod (Ncb - F)) in *. clearbody q m. assert (EE : E = Z.of_nat (Z.to_nat q) * (Ncb - F) + m) by (rewrite Z2Nat.id by lia; lia).
  rewrite EE. pose proof (occ_turns i (Z.to_nat q) 0 m ltac:(lia)). lia.
Qed.

End Repetitions.

(** ** The input of the decoder *)

Lemma llr_input_spec v kc d N : 0 <= F v -> 0 <= K v - F v - 2 * Zout v -> 0 < Zout v -> kc * Zout v = N + 2 * Zout v ->
  K v <= kc * Zout v -> N <= zlen d ->
  exists l, llr_input v kc d = Ok l /\ zlen l = N + 2 * Zout v /\ (forall p, 0 <= p < 2 * Zout v -> l !! Z.to_nat p = Some 0) /\
    forall i, 0 <= i < N -> l !! Z.to_nat (2 * Zout v + i) =
      if usable (F v) (K v - F v - 2 * Zout v) i then sat8 <$> d !! Z.to_nat i else Some 127.
Proof.
  intros HF HFo HZ Hkc HK Hd. unfold llr_input. cbv zeta. rewrite !slice_ok by lia. mon. eexists. split; [reflexivity|].
  change (Z.to_nat 0) with 0%nat. rewrite drop_0. set (Fo := K v - F v - 2 * Zout v) in *.
  set (x1 := take _ d). set (x2 := take _ (drop _ d)).
  assert (H1 : length x1 = Z.to_nat Fo) by (unfold x1; rewrite length_take; unfold zlen in *; lia).
  assert (H2 : length x2 = Z.to_nat (N - Fo - F v)) by (unfold x2; rewrite length_take, length_drop; unfold zlen in *; lia).
  split; [|split].
  - unfold zlen. rewrite length_fmap, !length_app, !length_replicate, H1, H2. lia.
  - intros p Hp. rewrite list_lookup_fmap, lookup_app_l, lookup_replicate_2 by (rewrite ?length_replicate; lia). done.
  - intros i Hi. rewrite list_lookup_fmap, lookup_app_r by (rewrite length_replicate; lia). rewrite length_replicate.
    replace (Z.to_nat (2 * Zout v + i) - Z.to_nat (2 * Zout v))%nat with (Z.to_nat i) by lia. unfold usable.
    destruct (Z.ltb_spec i Fo); cbn [orb].
    + rewrite lookup_app_l by lia. unfold x1. by rewrite lookup_take_lt by lia.
    + rewrite lookup_app_r, H1 by lia. destruct (Z.leb_spec (Fo + F v) i).
      * rewrite lookup_app_r by (rewrite length_replicate; lia). rewrite length_replicate. unfold x2. rewrite lookup_take_lt, lookup_drop by lia.
        do 2 f_equal. lia.
      * rewrite lookup_app_l, lookup_replicate_2 by (rewrite ?length_replicate; lia). done.
Qed.

(** Soft values [l] of the code word [cw] without noise: nothing is known of the punctured bits, the fillers are
    known, the positions [ps] have the sign of their bit, and the others are unknown. *)
Definition noise_free (BG Zc F Fo : Z) (ps : list Z) (cw l : list Z) : Prop :=
  zlen l = N_of BG Zc + 2 * Zc /\ (forall p, 0 <= p < 2 * Zc -> l !! Z.to_nat p = Some 0) /\
  forall i, 0 <= i < N_of BG Zc -> exists x, l !! Z.to_nat (2 * Zc + i) = Some x /\
    (usable F Fo i = false -> x = 127) /\
    (usable F Fo i = true -> i ∈ ps -> (cw !! Z.to_nat i = Some 0 -> 0 < x) /\ (cw !! Z.to_nat i = Some 1 -> x < 0)) /\
    (usable F Fo i = true -> (i ∉ ps) -> x = 0).

(** The bits of a segment. *)
Definition K_of (BG Zc : Z) : Z := (if BG =? 1 then 22 else 10) * Zc.

(** What is relied on of the decoder, which is given [check_crc]: a result within the allowed iterations is the one
    that passed the check; and without noise the segment is recovered from enough positions. *)
Class LdpcDecoder (t : crc_tables) `{LdpcCode} := {
  ldpc_enough : Z -> Z -> Z -> Z -> list Z -> Prop;
  decode_checked p l ab it out ab' : dp_BG p = 1 \/ dp_BG p = 2 -> 0 < dp_Z p -> zlen l = N_of (dp_BG p) (dp_Z p) + 2 * dp_Z p ->
    ldpc_decode p l ab = (it, out, ab') -> it <= dp_numMaxIter p ->
    0 <= it /\ Forall is_byte out /\ K_of (dp_BG p) (dp_Z p) / 8 <= zlen out /\ check_crc t out (dp_E p) (dp_crc_type p) = Ok 1;
  decode_recovers p Kb K F c ps l : dp_BG p = 1 \/ dp_BG p = 2 -> 0 < dp_Z p <= 384 -> K = K_of (dp_BG p) (dp_Z p) ->
    0 <= F -> 0 <= K - F - 2 * dp_Z p -> 3 <= dp_numMaxIter p -> Forall is_byte c -> K <= 8 * zlen c ->
    (forall i, K - F <= i < K -> bits c !! Z.to_nat i = Some false) ->
    24 <= dp_E p <= K - F -> dp_E p mod 8 = 0 -> check_crc t c (dp_E p) (dp_crc_type p) = Ok 1 ->
    ldpc_enough (dp_BG p) (dp_Z p) F (K - F - 2 * dp_Z p) ps ->
    noise_free (dp_BG p) (dp_Z p) F (K - F - 2 * dp_Z p) ps (ldpc_encode (dp_BG p) (dp_Z p) Kb K c) l ->
    exists it out, ldpc_decode p l false = (it, out, false) /\ 0 <= it <= dp_numMaxIter p /\ K / 8 <= zlen out /\
      take (Z.to_nat (K / 8)) out = take (Z.to_nat (K / 8)) c }.

(** ** One segment without noise *)

Section Segment.

Context `{LdpcCode} (h : gnb_harq) (v : seg_vars) (L Kp Kb : Z).
#[local] Abbreviation p := (rel15 h).
#[local] Abbreviation G := (dlsch_G p (unav_res h)).
Context (P : dl_params p G v L Kp).
#[local] Abbreviation BG := (ldpcBaseGraph p).
#[local] Abbreviation Q := (nrOfLayers p * qamModOrder p).
#[local] Abbreviation Fo := (K v - F v - 2 * Zout v).
#[local] Abbreviation E := (E_of G (C v) Q).
#[local] Abbreviation off := (off_of G (C v) Q).
#[local] Abbreviation Ncb := (Ncb_of (tbSizeLbrmBytes p) BG (Zout v) (C v)).
#[local] Abbreviation N := (N_of BG (Zout v)).

(** The positions of the circular buffer that segment [r] sends. *)
Definition seg_positions (r : Z) : list Z := rm_positions (tbSizeLbrmBytes p) BG (Zout v) (C v) (rvIndex p) (F v) Fo (E r).

Lemma seg_positions_usable r i : i ∈ seg_positions r -> usable (F v) Fo i = true.
Proof. unfold seg_positions, rm_positions. intros Hi. apply list_elem_of_fmap in Hi as (k & -> & _). apply ord_usable. Qed.

(** The soft value of a bit: [x] for 0 and [-x] for 1, small enough that no sum leaves 16 bits. *)
Context (x : Z) (g : Z -> Z) (Hx : 0 < x) (Hg0 : g 0 = x) (Hg1 : g 1 = - x).

Lemma deinterleaved r c output : 0 <= r < C v -> sent_ok h v Kb r c output -> G <= zlen output ->
  exists w, nr_deinterleaving_ldpc (E r) (qamModOrder p) (replicate (Z.to_nat (E r)) 0) (drop (Z.to_nat (off r)) (g <$> output)) = Ok w /\
    length w = Z.to_nat (E r) /\
    forall k q, seg_positions r !! k = Some q -> w !! k = g <$> marked Fo (F v) (ldpc_encode BG (Zout v) Kb (K v) c) !! Z.to_nat q.
Proof.
  intros Hr Hs Ho. destruct (share_facts h v L Kp P r Hr) as (Hoff & HE & Hsu & Hle & Hmod). destruct P.
  destruct (deinterleaving_spec (E r) (qamModOrder p) dl_Qm HE Hmod (drop (Z.to_nat (off r)) (g <$> output)) (replicate (Z.to_nat (E r)) 0))
    as (w & Ew & Hl & Hw).
  - unfold zlen in *. rewrite length_drop, length_fmap. lia.
  - unfold zlen. rewrite length_replicate. lia.
  - rewrite length_replicate in Hl. exists w. split; [done|]. split; [done|]. intros k q Hk. unfold seg_positions, rm_positions in Hk.
    apply list_lookup_fmap_Some in Hk as (k' & -> & Hk). apply lookup_seqZ in Hk as [-> Hk]. rewrite Z.add_0_l.
    destruct (il_src_surj (E r) (qamModOrder p) dl_Qm Hmod (Z.of_nat k) ltac:(lia)) as (q & Hq & Eq).
    specialize (Hw q Hq). rewrite Eq, Nat2Z.id in Hw. rewrite Hw, lookup_drop, list_lookup_fmap. specialize (Hs q Hq).
    replace (Z.to_nat (off r) + Z.to_nat q)%nat with (Z.to_nat (off r + q)) by lia. rewrite Hs. unfold sent_pos. by rewrite Eq.
Qed.

(** The soft buffer after the reception: the value of a position, as often as it was sent. *)
Lemma combined r c output d clear : 0 <= r < C v -> sent_ok h v Kb r c output -> G <= zlen output ->
  N <= zlen d -> Forall (fun a => a = 0) d -> x * (E r / (Ncb - F v) + 1) < 2 ^ 15 ->
  exists w d', nr_deinterleaving_ldpc (E r) (qamModOrder p) (replicate (Z.to_nat (E r)) 0) (drop (Z.to_nat (off r)) (g <$> output)) = Ok w /\
    nr_rate_matching_ldpc_rx (tbSizeLbrmBytes p) BG (Zout v) d w (C v) (rvIndex p) clear (E r) (F v) Fo = Ok (0, d') /\ zlen d' = zlen d /\
    forall i, 0 <= i < N -> exists s, d' !! Z.to_nat i = Some s /\
      ((i ∉ seg_positions r) -> s = 0) /\
      (i ∈ seg_positions r -> (ldpc_encode BG (Zout v) Kb (K v) c !! Z.to_nat i = Some 0 -> 0 < s) /\
                              (ldpc_encode BG (Zout v) Kb (K v) c !! Z.to_nat i = Some 1 -> s < 0)).
Proof.
  intros Hr Hs Ho Hd Hz Hamp. destruct (deinterleaved r c output Hr Hs Ho) as (w & Ew & Hwl & Hw).
  destruct (share_facts h v L Kp P r Hr) as (_ & HE & _). destruct (filler_facts h v L Kp P) as (HF & HFo & HFN & HZ & HNcb & _).
  pose proof P as P'. destruct P'. pose proof (dl_rm r Hr) as R. exists w.
  assert (H16 : Forall int16 d) by (eapply Forall_impl; [exact Hz|]; intros a ->; unfold int16; lia).
  destruct (rate_unmatching_spec _ _ _ _ _ clear _ _ _ d w R) as (d' & Ed & Hdl & Hd'); [lia|unfold zlen; lia|done|].
  exists d'. split; [done|]. split; [done|]. split; [done|]. intros i Hi. fold (seg_positions r) in Hd'.
  assert (Hcl : cleared Ncb clear d !! Z.to_nat i = Some 0).
  { assert (Hall : Forall (fun a => a = 0) (cleared Ncb clear d)).
    { unfold cleared. case_if; [|done]. apply Forall_app. split; [by apply Forall_replicate|by apply Forall_drop]. }
    destruct (lookup_lt_is_Some_2 (cleared Ncb clear d) (Z.to_nat i)) as [a Ha].
    { unfold cleared. case_if; [rewrite length_app, length_replicate, length_drop|]; unfold zlen in *; lia. }
    rewrite Ha. f_equal. by eapply Forall_lookup_1 in Hall. }
  specialize (Hd' i ltac:(lia)). rewrite Hcl in Hd'. cbn [fmap option_fmap option_map] in Hd'. rewrite Z.add_0_l in Hd'.
  set (cw := ldpc_encode BG (Zout v) Kb (K v) c) in *. assert (Hcw : zlen cw = N) by (by apply code_length).
  set (val q := g (default 0 (marked Fo (F v) cw !! Z.to_nat q))).
  assert (Esum : soft_sum i (seg_positions r) w = occ i (seg_positions r) * val i).
  { apply soft_sum_const.
    - unfold seg_positions, rm_positions. rewrite length_fmap, length_seqZ. lia.
    - intros k q Hk. rewrite (Hw k q Hk). unfold val. assert (Hq : 0 <= q < Ncb).
      { unfold seg_positions, rm_positions in Hk. apply list_lookup_fmap_Some in Hk as (k' & -> & _). destruct R. apply rm_pos_range; lia. }
      destruct (lookup_lt_is_Some_2 (marked Fo (F v) cw) (Z.to_nat q)) as [y ->]; [|done].
      pose proof (zlen_marked Fo (F v) cw HFo HF ltac:(lia)). unfold zlen in *. lia. }
  rewrite Esum in Hd'. eexists. split; [exact Hd'|]. split.
  - intros Hni. rewrite occ_none by done. done.
  - intros Hin. pose proof (occ_pos _ _ Hin) as Hpos.
    assert (Hocc : occ i (seg_positions r) <= E r / (Ncb - F v) + 1) by (destruct R; by apply occ_bound).
    assert (Hval : val i = g (default 0 (cw !! Z.to_nat i))).
    { unfold val. rewrite marked_lookup, (seg_positions_usable r i Hin) by lia. done. }
    rewrite Hval. set (o := occ i (seg_positions r)) in *. set (M := E r / (Ncb - F v) + 1) in *. clearbody o M.
    assert (Hox : 0 < o * x < 2 ^ 15) by nia.
    split; intros ->; cbn [from_option id]; rewrite ?Hg0, ?Hg1, ?Z.mul_opp_r, s16_small; unfold int16; lia.
Qed.

(** The decoder's input. *)
Lemma segment_input r c output d clear kc : 0 <= r < C v -> sent_ok h v Kb r c output -> G <= zlen output ->
  N <= zlen d -> Forall (fun a => a = 0) d -> x * (E r / (Ncb - F v) + 1) < 2 ^ 15 -> kc = (if BG =? 2 then 52 else 68) ->
  exists w d' l, nr_deinterleaving_ldpc (E r) (qamModOrder p) (replicate (Z.to_nat (E r)) 0) (drop (Z.to_nat (off r)) (g <$> output)) = Ok w /\
    nr_rate_matching_ldpc_rx (tbSizeLbrmBytes p) BG (Zout v) d w (C v) (rvIndex p) clear (E r) (F v) Fo = Ok (0, d') /\ zlen d' = zlen d /\
    llr_input v kc d' = Ok l /\ noise_free BG (Zout v) (F v) Fo (seg_positions r) (ldpc_encode BG (Zout v) Kb (K v) c) l.
Proof.
  intros Hr Hs Ho Hd Hz Hamp Hkc. destruct (combined r c output d clear Hr Hs Ho Hd Hz Hamp) as (w & d' & Ew & Ed & Hl & Hsoft).
  destruct (filler_facts h v L Kp P) as (HF & HFo & HFN & HZ & HNcb & _). destruct P.
  pose proof (sp_K _ _ _ _ _ dl_seg) as HK.
  assert (Ekc : kc * Zout v = N + 2 * Zout v /\ K v <= kc * Zout v).
  { rewrite Hkc, HK. unfold N_of. destruct dl_BG as [-> | ->];
    [change (1 =? 2) with false; change (1 =? 1) with true|change (2 =? 2) with true; change (2 =? 1) with false]; cbv iota; lia. }
  destruct Ekc as [Ekc HKk].
  destruct (llr_input_spec v kc d' N HF HFo HZ Ekc HKk ltac:(lia)) as (l & El & Hll & Hp & Hi).
  exists w, d', l. split; [done|]. split; [done|]. split; [done|]. split; [done|]. split; [done|]. split; [done|].
  intros i Hi'. specialize (Hi i Hi'). destruct (Hsoft i Hi') as (s & Es & Hn & Hy). rewrite Es in Hi. cbn [fmap option_fmap option_map] in Hi.
  destruct (usable (F v) Fo i).
  - eexists. split; [exact Hi|]. split; [done|]. unfold sat8. split.
    + intros _ Hin. destruct (Hy Hin) as [Hb0 Hb1]. split; intros E1; [specialize (Hb0 E1)|specialize (Hb1 E1)]; lia.
    + intros _ Hni. rewrite (Hn Hni). done.
  - exists 127. done.
Qed.

End Segment.

(** ** The code blocks of a transport block *)

Section Blocks.

Context (t : crc_tables) (Ht : tables_ok t) (p : pdsch_pdu) (G : Z) (v : seg_vars) (L Kp : Z) (P : dl_params p G v L Kp).
Context (a : bytes) (Ha : Forall is_byte a) (Hlen : zlen a = TBSize p).
#[local] Abbreviation B := (lenWithCrc 1 (8 * zlen a)).
#[local] Abbreviation n := (B / C v / 8).

Lemma B_value : B = 8 * zlen a + (if 8 * zlen a >? 3824 then 24 else 16).
Proof. exact eq_refl. Qed.

(** The sizes in octets. *)
Lemma block_sizes : 1 <= C v /\ 0 <= n /\ B = 8 * n * C v /\ Kp = L + 8 * n /\ L = (if C v >? 1 then 24 else 0) /\
  Kp <= K v <= 8448 /\ F v = K v - Kp /\ zlen (a ++ tb_crc a) = n * C v.
Proof.
  pose proof (zlen_tb a) as Hz. destruct P. rewrite <- Hlen in *. destruct dl_seg. destruct dl_octets as [m Em].
  assert (Hm : B / C v / 8 = m).
  { rewrite Em. replace (m * (8 * C v)) with (m * 8 * C v) by ring. rewrite !Z.div_mul by lia. done. }
  pose proof B_value as HB. assert (0 < B) by (rewrite HB; case_if; lia). rewrite Hm.
  assert (Em2 : B / C v = m * 8) by (rewrite Em; replace (m * (8 * C v)) with (m * 8 * C v) by ring; apply Z.div_mul; lia).
  rewrite Em2 in sp_Kp. split; [done|]. split; [nia|]. split; [lia|]. split; [lia|]. split; [done|]. split; [lia|]. split; [done|]. lia.
Qed.

(** The CRC of a segment covers its [Kp] bits, whatever the number of segments. *)
Lemma len_with_crc : lenWithCrc (C v) (8 * zlen a) = Kp.
Proof.
  destruct block_sizes as (HC & Hn & HB & HK & HL & _). pose proof B_value as HBv.
  set (m := n) in *. clearbody m. destruct (decide (C v = 1)) as [E|E].
  - rewrite HK, HL, E in *. change (1 >? 1) with false. cbv iota. lia.
  - unfold lenWithCrc. rewrite Z.gtb_ltb in *. rewrite (proj2 (Z.ltb_lt 1 (C v))) in * by lia. rewrite HK, HL.
    assert (HA : 8 * zlen a + 24 = B).
    { destruct P. destruct dl_seg. rewrite <- Hlen in *.
      assert (Kcb_of (ldpcBaseGraph p) < B) by (destruct (Z.lt_ge_cases (Kcb_of (ldpcBaseGraph p)) B) as [|Hge]; [done|apply sp_single in Hge; lia]).
      assert (3840 <= Kcb_of (ldpcBaseGraph p)) by (destruct dl_BG as [-> | ->]; vm_compute; congruence).
      revert HBv. destruct (Z.ltb_spec 3824 (8 * zlen a)); lia. }
    rewrite HA, HB, Z.quot_div_nonneg by nia. replace (8 * m * C v + 24 * C v) with ((24 + 8 * m) * C v) by ring. apply Z.div_mul. lia.
Qed.

Context (r : Z) (Hr : 0 <= r < C v) (old : bytes) (Hold : Forall is_byte old) (Hroom : 1056 <= zlen old).
(** The octet the filler loop does not reach. *)
Context (Hstale : K v mod 8 = 0 \/ old !! Z.to_nat (K v / 8) = Some 0).
#[local] Abbreviation share := (seg_share (a ++ tb_crc a) n r).
#[local] Abbreviation c := (tx_block v Kp a r old).

Lemma share_ok : zlen share = n /\ Forall is_byte share.
Proof.
  destruct block_sizes as (HC & Hn & _ & _ & _ & _ & _ & Hz). split; [apply length_share; [lia|lia|nia]|].
  apply Forall_take, Forall_drop, tb_bytes. done.
Qed.

Lemma code_block_bytes : Forall is_byte c /\ zlen c = zlen old.
Proof.
  destruct block_sizes as (HC & Hn & HB & HK & HL & HKK & HF & Hz). destruct share_ok as [Hs1 Hs2]. unfold tx_block, code_block.
  assert (HK8 : K v / 8 <= 1056) by (apply Z.div_le_upper_bound; lia).
  assert (Hp8 : Kp / 8 = n + (if C v >? 1 then 3 else 0)) by (rewrite HK, HL; destruct (C v >? 1); Z.to_euclidean_division_equations; lia).
  assert (Hle : Kp / 8 <= K v / 8) by (apply Z.div_le_mono; lia). split.
  - repeat (apply Forall_app; split); [done| |apply Forall_replicate; unfold is_byte; lia|by apply Forall_drop].
    unfold seg_crc. case_if; [apply crc_octets_byte|constructor].
  - rewrite !zlen_app, length_seg_crc, Hs1. unfold zlen in *. rewrite length_replicate, length_drop. destruct (C v >? 1); lia.
Qed.

Lemma block_fillers i : K v - F v <= i < K v -> bits c !! Z.to_nat i = Some false.
Proof.
  intros Hi. destruct block_sizes as (HC & Hn & HB & HK & HL & HKK & HF & Hz). destruct share_ok as [Hs1 Hs2]. destruct code_block_bytes as [Hb1 Hb2].
  assert (Hoct : c !! Z.to_nat (i / 8) = Some 0).
  { assert (H1 : Kp / 8 <= i / 8) by (apply Z.div_le_mono; lia). destruct (Z.lt_ge_cases (i / 8) (K v / 8)) as [Hlt|Hge].
    - apply (code_block_filler v n L Kp share old (i / 8) Hs1 HL HK). lia.
    - assert (E8 : i / 8 = K v / 8) by (assert (i / 8 <= K v / 8) by (apply Z.div_le_mono; lia); lia). rewrite E8.
      destruct Hstale as [H0|H0]; [exfalso; Z.to_euclidean_division_equations; lia|].
      assert (Hp8 : Kp / 8 = n + (if C v >? 1 then 3 else 0)) by (rewrite HK, HL; destruct (C v >? 1); Z.to_euclidean_division_equations; lia).
      unfold tx_block, code_block. pose proof (length_seg_crc v share) as Hcr.
      assert (Hle : Kp / 8 <= K v / 8) by (apply Z.div_le_mono; lia).
      rewrite !app_assoc, lookup_app_r by (rewrite !length_app, length_replicate; unfold zlen in *; destruct (C v >? 1); lia).
      rewrite lookup_drop, !length_app, length_replicate. rewrite <- H0. f_equal. unfold zlen in *; destruct (C v >? 1); lia. }
  assert (Ei : i = 8 * (i / 8) + i mod 8) by (apply Z.div_mod; lia). pose proof (Z.mod_pos_bound i 8 ltac:(lia)) as Hm.
  assert (H0 : 0 <= i / 8) by (apply Z.div_pos; [rewrite HF, HK, HL in Hi; destruct (C v >? 1); lia|lia]).
  set (q := i / 8) in *. set (m := i mod 8) in *. clearbody q m. subst i.
  rewrite <- (take_drop_middle c _ _ Hoct), bits_app, bits_cons.
  assert (Hl1 : length (bits (take (Z.to_nat q) c)) = (8 * Z.to_nat q)%nat).
  { rewrite length_bits, length_take. apply lookup_lt_Some in Hoct. lia. }
  rewrite lookup_app_r by lia. rewrite Hl1, lookup_app_l by (rewrite length_zbits; lia). rewrite lookup_zbits by lia. by rewrite Z.bits_0.
Qed.

(** It passes the check the decoder makes. *)
Lemma block_crc : check_crc t c (lenWithCrc (C v) (8 * zlen a)) (crcType (C v) (8 * zlen a)) = Ok 1.
Proof.
  destruct block_sizes as (HC & Hn & HB & HK & HL & HKK & HF & Hz). destruct share_ok as [Hs1 Hs2]. rewrite len_with_crc. unfold crcType.
  destruct (decide (C v = 1)) as [E|E].
  - assert (Hshare : share = a ++ tb_crc a).
    { assert (r = 0) as -> by lia. unfold seg_share. rewrite Z.mul_0_l. change (Z.to_nat 0) with 0%nat. rewrite drop_0. apply take_ge. unfold zlen in *. nia. }
    assert (Egt : (C v >? 1) = false) by (rewrite E; exact eq_refl). unfold tx_block, code_block, seg_crc. rewrite Egt in *.
    rewrite Hshare, HK, HL, app_nil_l, <- app_assoc.
    set (rest := replicate _ 0 ++ _). assert (Hrest : Forall is_byte rest).
    { apply Forall_app. split; [apply Forall_replicate; unfold is_byte; lia|by apply Forall_drop]. }
    unfold tb_crc, NR_MAX_PDSCH_TBS in *. pose proof B_value as HBv.
    destruct (8 * zlen a >? 3824).
    + pose proof (check_crc_append C24a CRC24_A t a rest eq_refl Ht Ha Hrest) as Hc. cbn [crc_length crc_poly] in Hc.
      replace (0 + 8 * n) with (8 * zlen a + 24) by nia. apply Hc. nia.
    + pose proof (check_crc_append C16 CRC16 t a rest eq_refl Ht Ha Hrest) as Hc. cbn [crc_length crc_poly] in Hc.
      replace (0 + 8 * n) with (8 * zlen a + 16) by nia. apply Hc. nia.
  - rewrite Z.gtb_ltb in *. rewrite (proj2 (Z.ltb_lt 1 (C v))) in * by lia.
    apply (code_block_crc t v n L Kp share old); [done|lia|done|done|done|lia|done|done].
Qed.

End Blocks.
