(* ===== verification/DlschLink.v ===== *)
(** * A transport block from the gNB to the UE

    The loops of [nr_dlsch_decoding] over the segments of a block that [nr_dlsch_encoding]
    sent, and the end-to-end theorems. *)

From S2P Require Import Prelude RlcPdu Crc CrcProps Tbs Segmentation SegmentationProps RateMatch RateMatchProps Dlsch DlschTx DlschRx.

Import Crc Tbs Segmentation RateMatch Dlsch.

(** ** The test for a block of zeros *)

Lemma zero_run_spec n : forall b i sz, 0 <= i <= sz -> sz < zlen b -> sz - i <= Z.of_nat n ->
  exists j, zero_run n b i sz = Ok j /\ i <= j <= sz /\ (forall k, i <= k < j -> b !! Z.to_nat k = Some 0) /\
    (j < sz -> exists x, b !! Z.to_nat j = Some x /\ x <> 0).
Proof.
  induction n as [|n IH]; intros b i sz Hi Hb Hn; cbn [zero_run]; destruct (rd_ok b i) as (x & -> & Hx); [lia| |lia|]; rewrite bind_Ok.
  - rewrite (proj2 (Z.ltb_ge i sz)), andb_false_r by lia. exists i. split; [done|]. split; [lia|]. split; lia.
  - destruct (Z.eqb_spec x 0) as [->|Nx]; cbn [andb].
    + destruct (Z.ltb_spec i sz).
      * destruct (IH b (i + 1) sz) as (j & -> & Hj & Hz & Hn'); [lia|lia|lia|]. exists j. split; [done|]. split; [lia|]. split; [|done].
        intros k Hk. destruct (decide (k = i)) as [->|]; [done|]. apply Hz. lia.
      * exists i. split; [done|]. split; [lia|]. split; lia.
    + exists i. split; [done|]. split; [lia|]. split; [lia|]. intros _. by exists x.
Qed.

Lemma crc_bits_zero poly bs : Forall (fun b => b = false) bs -> crc_bits poly bs = 0.
Proof.
  intros H. unfold crc_bits. induction H as [|b bs -> _ IH]; [done|]. exact IH.
Qed.

Lemma bits_zero a : Forall (fun x => x = 0) a -> Forall (fun b => b = false) (bits a).
Proof. induction 1 as [|x a -> _ IH]; [constructor|]. rewrite bits_cons. apply Forall_app. split; [by repeat constructor|done]. Qed.

(** The CRC of zeros is zero, and starts with two octets. *)
Lemma tb_crc_octets a : exists x y rest, tb_crc a = x :: y :: rest /\ (Forall (fun z => z = 0) a -> x = 0 /\ y = 0).
Proof.
  unfold tb_crc. case_if; cbn [crc_octets]; eexists _, _, _; (split; [reflexivity|]); intros Hz; rewrite crc_bits_zero by (by apply bits_zero); done.
Qed.

(** The test, on a buffer that starts with a transport block and its CRC. *)
Lemma all_zero_spec a rest : 0 < zlen a -> all_zero (a ++ tb_crc a ++ rest) (zlen a) = Ok (bool_decide (Forall (fun x => x = 0) a)).
Proof.
  intros Ha. destruct (tb_crc_octets a) as (x & y & crc & Ec & Hz). rewrite Ec. unfold all_zero. set (b := a ++ (x :: y :: crc) ++ rest).
  assert (H1 : b !! Z.to_nat (zlen a) = Some x) by (unfold b, zlen; rewrite lookup_app_r, Nat2Z.id, Nat.sub_diag by lia; done).
  assert (H2 : b !! Z.to_nat (zlen a + 1) = Some y).
  { unfold b, zlen. rewrite lookup_app_r by lia. replace (Z.to_nat (Z.of_nat (length a) + 1) - length a)%nat with 1%nat by lia. done. }
  rewrite (rd_Some b (zlen a) x ltac:(lia) H1), bind_Ok.
  destruct (Z.eqb_spec x 0) as [->|Nx].
  - rewrite (rd_Some b (zlen a + 1) y ltac:(lia) H2), bind_Ok. destruct (Z.eqb_spec y 0) as [->|Ny].
    + destruct (zero_run_spec (Z.to_nat (zlen a)) b 0 (zlen a)) as (j & -> & Hj & Hrun & Hstop).
      { lia. } { unfold b. rewrite !zlen_app, !zlen_cons. unfold zlen. lia. } { lia. }
      rewrite bind_Ok. mon. f_equal. assert (Hla : forall k, 0 <= k < zlen a -> b !! Z.to_nat k = a !! Z.to_nat k).
      { intros k Hk. unfold b. apply lookup_app_l. unfold zlen in Hk. lia. }
      destruct (Z.eqb_spec j (zlen a)) as [->|Nj]; symmetry.
      * apply bool_decide_eq_true_2, Forall_lookup_2. intros i z Hi. pose proof (lookup_lt_Some _ _ _ Hi) as Hlt.
        specialize (Hrun (Z.of_nat i) ltac:(unfold zlen; lia)). rewrite Hla, Nat2Z.id in Hrun by (unfold zlen; lia). congruence.
      * apply bool_decide_eq_false_2. intros Hf. destruct (Hstop ltac:(lia)) as (z & Hz1 & Hz2). rewrite Hla in Hz1 by lia.
        by apply (Forall_lookup_1 _ _ _ _ Hf) in Hz1.
    + f_equal. symmetry. apply bool_decide_eq_false_2. intros Hf. by destruct (Hz Hf).
  - f_equal. symmetry. apply bool_decide_eq_false_2. intros Hf. by destruct (Hz Hf).
Qed.

(** ** The join *)

Lemma join_scan_done status n : (n <= length status)%nat -> Forall (fun b => b = true) status -> join_scan status n = O.
Proof.
  intros Hn Ha. induction n as [|n IH]; [done|]. cbn [join_scan]. destruct (lookup_lt_is_Some_2 status n) as [b Eb]; [lia|].
  rewrite Eb. apply (Forall_lookup_1 _ _ _ _ Ha) in Eb as ->. cbn [from_option id]. apply IH. lia.
Qed.

(** One round is enough when all jobs have completed. *)
Lemma join_ok spin (arr : list rdata) : Forall (fun job => completed job = true) arr -> join_task_ans (S spin) (completed <$> arr) (length arr) = Ok ().
Proof.
  intros Ha. destruct (length arr) as [|n] eqn:El; [done|]. cbn [join_task_ans]. rewrite <- El, join_scan_done; [by destruct spin| |].
  - by rewrite length_fmap.
  - apply Forall_fmap. exact Ha.
Qed.

(** No number of rounds is when one has not. *)
Lemma join_spins spin : forall status n j, (j < n)%nat -> status !! j = Some false -> join_task_ans spin status n = Err Fuel.
Proof.
  assert (Hs : forall status n j, (j < n)%nat -> status !! j = Some false -> (j < join_scan status n)%nat).
  { intros status n j Hj Es. induction n as [|n IH]; [lia|]. cbn [join_scan]. destruct (decide (j = n)) as [->|]; [rewrite Es; cbn; lia|].
    destruct (default false (status !! n)); [apply IH; lia|lia]. }
  induction spin as [|spin IH]; intros status n j Hj Es; destruct n as [|n]; try lia; cbn [join_task_ans]; [done|].
  apply (IH status _ j); [by apply Hs|done].
Qed.

(** ** The two ends agree *)

(** The UE has decoded the parameters of the allocation. *)
Record rx_match (ds : ue_dlsch) (p : pdsch_pdu) : Prop := {
  rm_tbs : TBS ds = 8 * TBSize p;
  rm_bg : d_ldpcBaseGraph ds = ldpcBaseGraph p;
  rm_qm : d_qamModOrder ds = qamModOrder p;
  rm_nl : d_Nl ds = nrOfLayers p;
  rm_rv : d_rv ds = rvIndex p;
  rm_lbrm : d_tbslbrm ds = tbSizeLbrmBytes p;
  rm_dmrs : d_dmrsConfigType ds = 0 \/ d_dmrsConfigType ds = 1;
  rm_iter : 3 <= max_ldpc_iterations ds < 255 }.

Section Link.

Context (t : crc_tables) (Ht : tables_ok t) `{LdpcDecoder t}.
Context (h : gnb_harq) (v : seg_vars) (L Kp : Z).
#[local] Abbreviation p := (rel15 h).
#[local] Abbreviation G := (dlsch_G p (unav_res h)).
Context (P : dl_params p G v L Kp).
#[local] Abbreviation BG := (ldpcBaseGraph p).
#[local] Abbreviation Q := (nrOfLayers p * qamModOrder p).
#[local] Abbreviation E := (E_of G (C v) Q).
#[local] Abbreviation off := (off_of G (C v) Q).
#[local] Abbreviation Ncb := (Ncb_of (tbSizeLbrmBytes p) BG (Zout v) (C v)).
#[local] Abbreviation N := (N_of BG (Zout v)).

(** The transport block, and the segment buffers it was written to. *)
Context (a : bytes) (Ha : Forall is_byte a) (Hlen : zlen a = TBSize p).
#[local] Abbreviation B := (lenWithCrc 1 (8 * zlen a)).
#[local] Abbreviation n := (B / C v / 8).
#[local] Abbreviation Kb := (seg_Kb B BG).
#[local] Abbreviation c r old := (tx_block v Kp a r old).
Context (Hc : C v <= zlen (hc h)) (Hcb : Forall (Forall is_byte) (hc h)) (Hroom : Forall (fun old => 1056 <= zlen old) (hc h)).
Context (Hstale : Forall (fun old => K v mod 8 = 0 \/ old !! Z.to_nat (K v / 8) = Some 0) (hc h)).

(** What is on the air, and the soft values the UE has of it. *)
Context (output : bytes) (Hout : G <= zlen output).
Context (Hsent : forall r old, 0 <= r < C v -> hc h !! Z.to_nat r = Some old -> sent_ok h v Kb r (c r old) output).
Context (x : Z) (g : Z -> Z) (Hx : 0 < x) (Hg0 : g 0 = x) (Hg1 : g 1 = - x).
Context (Hamp : forall r, 0 <= r < C v -> x * (E r / (Ncb - F v) + 1) < 2 ^ 15).
Context (Henough : forall r, 0 <= r < C v -> ldpc_enough BG (Zout v) (F v) (K v - F v - 2 * Zout v) (seg_positions h v r)).
Context (ds : ue_dlsch) (M : rx_match ds p).
#[local] Abbreviation llr := (g <$> output).
#[local] Abbreviation kc := (if d_ldpcBaseGraph ds =? 2 then 52 else 68).

(** The decoded octets of segment [r] in a buffer [buf]. *)
Definition decoded (r : Z) (old buf : bytes) : bytes := take (Z.to_nat (K v / 8)) (c r old) ++ drop (Z.to_nat (K v / 8)) buf.

Lemma old_facts r old : hc h !! Z.to_nat r = Some old ->
  Forall is_byte old /\ 1056 <= zlen old /\ (K v mod 8 = 0 \/ old !! Z.to_nat (K v / 8) = Some 0).
Proof. intros Ho. split; [by eapply Forall_lookup_1|]. split; [exact (Forall_lookup_1 _ _ _ _ Hroom Ho)|exact (Forall_lookup_1 _ _ _ _ Hstale Ho)]. Qed.

Lemma Kp_octets : 24 <= Kp /\ Kp mod 8 = 0.
Proof.
  destruct (block_sizes p G v L Kp P a Hlen) as (HC & Hn & HB & HK & HL & _). pose proof (dl_size _ _ _ _ _ P) as Hs. rewrite <- Hlen in Hs.
  assert (HBv : 24 <= B) by (unfold lenWithCrc; change (1 >? 1) with false; cbv iota; case_if; lia). set (m := n) in *. clearbody m.
  rewrite HK, HL. split; [|destruct (C v >? 1); Z.to_euclidean_division_equations; lia]. destruct (Z.gtb_spec (C v) 1); [lia|]. assert (C v = 1) as E1 by lia.
  rewrite E1 in HB. lia.
Qed.

(** A job of the thread pool. *)
Lemma process_segment_spec r old hu R o d buf : 0 <= r < C v -> hc h !! Z.to_nat r = Some old ->
  useg hu = v -> abort_decode hu = false -> ud hu !! Z.to_nat r = Some d -> N <= zlen d -> Forall (fun z => z = 0) d ->
  uc hu !! Z.to_nat r = Some buf -> K v / 8 <= zlen buf ->
  exists d' dp it, 0 <= it <= max_ldpc_iterations ds /\
    nr_processDLSegment ds llr kc hu (mk_rdata (mk_dec_params (d_ldpcBaseGraph ds) (Zout v) R (max_ldpc_iterations ds) 0 0) r (E r) (off r) o (Z.shiftr (K v) 3) 0 false) =
      Ok (mk_ue_harq (first_rx hu) (<[Z.to_nat r := d']> (ud hu)) (<[Z.to_nat r := decoded r old buf]> (uc hu)) v (DLround hu) (llrLen hu)
            (decodeResult hu) (busy hu) false,
          mk_rdata dp r (E r) (off r) o (K v / 8) it true).
Proof.
  intros Hr Hold Eu Eab Hd Hdl Hdz Hbuf Hbl. destruct (old_facts r old Hold) as (Ho1 & Ho2 & Ho3). specialize (Hsent r old Hr Hold).
  destruct (segment_input h v L Kp Kb P x g Hx Hg0 Hg1 r (c r old) output d (first_rx hu) kc Hr Hsent Hout Hdl Hdz (Hamp r Hr)) as (w & d' & l & Ew & Ed & Hdl' & El & Hnf).
  { by rewrite (rm_bg _ _ M). }
  destruct (share_facts h v L Kp P r Hr) as (Hoff & HE & Hsu & Hle & _). destruct (filler_facts h v L Kp P) as (HF & HFo & HFN & HZ & _ & Eu32).
  pose proof (C_range h v L Kp P) as HC. assert (Eu8 : u8 (C v) = C v) by (apply Z.mod_small; lia).
  destruct (block_sizes p G v L Kp P a Hlen) as (_ & _ & _ & _ & _ & HKK & HFK & _). destruct Kp_octets as [Kp_min Kp_mod].
  destruct (code_block_bytes p G v L Kp P a Ha Hlen r Hr old Ho1 Ho2) as [Hb1 Hb2].
  unfold nr_processDLSegment. rewrite Eu. cbn [r_params segment_r r_E r_off offset Kr_bytes dp_BG dp_Z dp_R dp_numMaxIter].
  rewrite slice_ok, bind_Ok by (unfold zlen in *; rewrite ?length_fmap; lia).
  rewrite take_ge by (rewrite length_drop; unfold zlen; lia).
  rewrite (rm_qm _ _ M), Ew, bind_Ok, (rd_Some (ud hu) r d), bind_Ok by (lia || exact Hd).
  rewrite (rm_lbrm _ _ M), (rm_bg _ _ M), (rm_rv _ _ M), Eu8, Eu32, Ed, bind_Ok.
  assert (Hud : 0 <= r < zlen (ud hu)) by (apply lookup_lt_Some in Hd; unfold zlen; lia). rewrite wr_ok, bind_Ok by done.
  change (0 =? -1) with false. cbv iota. rewrite (rm_bg _ _ M) in El. rewrite El, bind_Ok. cbv zeta. cbn [abort_decode uc ud first_rx DLround llrLen decodeResult busy].
  rewrite Eab, (rm_tbs _ _ M), <- Hlen.
  set (dp := mk_dec_params BG (Zout v) R (max_ldpc_iterations ds) (lenWithCrc (C v) (8 * zlen a)) (crcType (C v) (8 * zlen a))).
  destruct (decode_recovers dp Kb (K v) (F v) (c r old) (seg_positions h v r) l) as (it & out & Edec & Hit & Hol & Eout).
  - exact (dl_BG _ _ _ _ _ P).
  - cbn [dp_Z dp]. pose proof (sp_range _ _ _ _ _ (dl_seg _ _ _ _ _ P)). lia.
  - exact (sp_K _ _ _ _ _ (dl_seg _ _ _ _ _ P)).
  - exact HF.
  - exact HFo.
  - exact (proj1 (rm_iter _ _ M)).
  - exact Hb1.
  - lia.
  - intros i Hi. exact (block_fillers p G v L Kp P a Ha Hlen r Hr old Ho1 Ho2 Ho3 i Hi).
  - cbn [dp_E dp]. rewrite (len_with_crc p G v L Kp P a Hlen). lia.
  - cbn [dp_E dp]. rewrite (len_with_crc p G v L Kp P a Hlen). exact Kp_mod.
  - exact (block_crc t Ht p G v L Kp P a Ha Hlen r Hr old Ho1).
  - exact (Henough r Hr).
  - exact Hnf.
  - rewrite Edec. exists d', dp, it. split; [exact Hit|]. cbn [dp_numMaxIter] in Hit. rewrite (proj2 (Z.leb_le it (max_ldpc_iterations ds)) (proj2 Hit)).
    rewrite (rd_Some (uc hu) r buf), bind_Ok by (lia || exact Hbuf).
    assert (EK : Z.shiftr (K v) 3 = K v / 8) by (by rewrite Z.shiftr_div_pow2 by lia). rewrite EK.
    assert (HK0 : 0 <= K v / 8) by (apply Z.div_pos; lia).
    rewrite slice_ok, bind_Ok by lia. change (Z.to_nat 0) with 0%nat. rewrite drop_0, Eout.
    assert (Hcl : zlen (take (Z.to_nat (K v / 8)) (c r old)) = K v / 8) by (unfold zlen in *; rewrite length_take; assert (K v / 8 <= 1056) by (apply Z.div_le_upper_bound; lia); lia).
    rewrite blit_ok, bind_Ok, Hcl by lia. change (Z.to_nat 0) with 0%nat. rewrite firstn_O, app_nil_l, Z.add_0_l.
    rewrite wr_ok by (apply lookup_lt_Some in Hbuf; unfold zlen; lia). rewrite bind_Ok. exact eq_refl.
Qed.

(** ** The loop that pushes the jobs *)

Lemma payload_ok : payload_len v (K v / 8) = n.
Proof.
  destruct (block_sizes p G v L Kp P a Hlen) as (_ & Hn & _ & HK & HL & HKK & HF & _). unfold payload_len. rewrite HF, Z.shiftr_div_pow2 by lia.
  change (2 ^ 3) with 8. rewrite HK, HL. set (m := n) in *. clearbody m. destruct (C v >? 1); Z.to_euclidean_division_equations; lia.
Qed.

Lemma get_R_ok E' len round : exists R len', nr_get_R_ldpc_decoder (d_rv ds) E' (d_ldpcBaseGraph ds) (Zout v) len round = Ok (R, len').
Proof.
  pose proof (C_range h v L Kp P) as HC. destruct (dl_rm _ _ _ _ _ P 0 ltac:(lia)) as []. rewrite (rm_rv _ _ M), (rm_bg _ _ M).
  unfold nr_get_R_ldpc_decoder. destruct (dl_BG _ _ _ _ _ P) as [-> | ->]; 
    [change (rd index_k0 (1 - 1)) with (Ok [0; 17; 33; 56])|change (rd index_k0 (2 - 1)) with (Ok [0; 13; 25; 43])]; cbn [negb orb Z.eqb Pos.eqb];
    rewrite bind_Ok; match goal with |- context [rd ?l ?i] => destruct (rd_ok l i) as (k & -> & _); [unfold zlen; cbn [length]; lia|] end;
    rewrite bind_Ok; by eexists _, _.
Qed.

(** The buffers of the UE for the segments from [r] on. *)
Definition rx_ready (r : Z) (hu : ue_harq) : Prop := forall k, r <= k < C v ->
  (exists d, ud hu !! Z.to_nat k = Some d /\ N <= zlen d /\ Forall (fun z => z = 0) d) /\
  exists buf, uc hu !! Z.to_nat k = Some buf /\ K v / 8 <= zlen buf.

(** A finished job, and what it left in the buffer of its segment. *)
Record job_done (hu : ue_harq) (k : Z) (job : rdata) : Prop := {
  jd_segment : segment_r job = k; jd_offset : offset job = k * n; jd_bytes : Kr_bytes job = K v / 8;
  jd_iter : 0 <= decodeIterations job <= max_ldpc_iterations ds; jd_completed : completed job = true;
  jd_content : exists old buf, hc h !! Z.to_nat k = Some old /\ uc hu !! Z.to_nat k = Some (decoded k old buf) }.

Record push_inv (hu0 : ue_harq) (r : Z) (st : ue_harq * list rdata * Z * Z) : Prop := {
  pi_seg : useg st.1.1.1 = v;
  pi_abort : abort_decode st.1.1.1 = false;
  pi_kept : busy st.1.1.1 = busy hu0;
  pi_ready : rx_ready r st.1.1.1;
  pi_jobs : zlen st.1.1.2 = r /\ forall k job, 0 <= k -> st.1.1.2 !! Z.to_nat k = Some job -> job_done st.1.1.1 k job;
  pi_offsets : st.1.2 = off r /\ st.2 = r * n }.

Lemma push_step hu0 r st : 0 <= r < C v -> push_inv hu0 r st -> exists st', push_segment ds llr G kc r st = Ok st' /\ push_inv hu0 (r + 1) st'.
Proof.
  destruct st as [[[hu arr] ro] o]. intros Hr [Eu Eab Ebusy Hready [Hal Hjobs] [Ero Eo]]. cbn [fst snd] in *. subst ro o.
  destruct (Hready r ltac:(lia)) as ((d & Hd & Hdl & Hdz) & buf & Hbuf & Hbl).
  destruct (lookup_lt_is_Some_2 (hc h) (Z.to_nat r)) as [old Hold]; [unfold zlen in *; lia|].
  unfold push_segment. rewrite Eu, (rm_qm _ _ M), (rm_nl _ _ M), (get_E_ok h v L Kp P r Hr), bind_Ok.
  destruct (get_R_ok (E r) (llrLen hu) (DLround hu)) as (R & len & ->). rewrite bind_Ok. cbv zeta.
  set (hu1 := mk_ue_harq _ _ _ _ _ len _ _ _).
  destruct (process_segment_spec r old hu1 R (r * n) d buf Hr Hold eq_refl Eab Hd Hdl Hdz Hbuf Hbl) as (d' & dp & it & Hit & Ep).
  rewrite Ep, bind_Ok. eexists. split; [reflexivity|]. assert (EK : Z.shiftr (K v) 3 = K v / 8) by (by rewrite Z.shiftr_div_pow2 by lia).
  destruct (share_facts h v L Kp P r Hr) as (_ & _ & Hs & _). constructor; cbn [fst snd useg abort_decode busy ud uc hu1].
  - done.
  - done.
  - done.
  - intros k Hk. cbn [ud uc]. rewrite !list_lookup_insert_ne by lia. apply Hready. lia.
  - split; [rewrite zlen_app, Hal; done|]. intros k job Hk Hj. destruct (decide (k = r)) as [->|Nk].
    + rewrite lookup_app_r in Hj by (unfold zlen in Hal; lia). replace (Z.to_nat r - length arr)%nat with 0%nat in Hj by (unfold zlen in Hal; lia).
      injection Hj as <-. constructor; try done. exists old, buf. split; [done|]. cbn [uc]. apply list_lookup_insert_eq. apply lookup_lt_Some in Hbuf. done.
    + assert (Hlt : k < r).
      { apply lookup_lt_Some in Hj. rewrite length_app in Hj. cbn [length] in Hj. unfold zlen in Hal. lia. }
      rewrite lookup_app_l in Hj by (unfold zlen in Hal; lia). destruct (Hjobs k job Hk Hj) as [? ? ? ? ? (ol & bu & ? & Hu)]. constructor; try done.
      exists ol, bu. split; [done|]. cbn [uc]. by rewrite list_lookup_insert_ne by lia.
  - rewrite EK, payload_ok, Hs. split; [done|]. lia.
Qed.

Lemma push_all hu : useg hu = v -> abort_decode hu = false -> rx_ready 0 hu ->
  exists st, for_loop 0 (C v) (push_segment ds llr G kc) (hu, [], 0, 0) = Ok st /\ push_inv hu (C v) st.
Proof.
  intros Eu Ea Hready. pose proof (C_range h v L Kp P) as HC. apply (for_loop_inv (push_inv hu)).
  - lia.
  - constructor; try done. split; [symmetry; apply off_0; lia|done].
  - intros r st Hr. by apply push_step.
Qed.

(** ** The loop that puts the block together *)

#[local] Abbreviation tb := (a ++ tb_crc a).

(** The octets of segment [k] that belong to the transport block. *)
Lemma decoded_payload k old buf : 0 <= k < C v -> hc h !! Z.to_nat k = Some old -> slice (decoded k old buf) 0 n = Ok (seg_share tb n k).
Proof.
  intros Hk Hold. destruct (old_facts k old Hold) as (Ho1 & Ho2 & _). destruct (block_sizes p G v L Kp P a Hlen) as (_ & Hn & _ & HK & HL & HKK & _).
  destruct (code_block_bytes p G v L Kp P a Ha Hlen k Hk old Ho1 Ho2) as [_ Hcl]. destruct (share_ok p G v L Kp P a Ha Hlen k Hk) as [Hs _].
  assert (Hle : n <= K v / 8) by (apply Z.div_le_lower_bound; destruct (C v >? 1); lia).
  assert (HK8 : K v / 8 <= 1056) by (apply Z.div_le_upper_bound; lia).
  assert (Hbl : length (take (Z.to_nat (K v / 8)) (c k old)) = Z.to_nat (K v / 8)) by (rewrite length_take; unfold zlen in *; lia).
  assert (Hdl : K v / 8 <= zlen (decoded k old buf)) by (unfold decoded; rewrite zlen_app; unfold zlen at 1; rewrite Hbl; unfold zlen; lia).
  rewrite slice_ok by lia. f_equal. change (Z.to_nat 0) with 0%nat. rewrite drop_0. unfold decoded.
  rewrite take_app_le, take_take by lia. replace (Z.to_nat n `min` Z.to_nat (K v / 8))%nat with (Z.to_nat n) by lia.
  unfold tx_block, code_block. apply take_app_length'. apply (f_equal Z.to_nat) in Hs. unfold zlen at 1 in Hs. rewrite Nat2Z.id in Hs. exact (eq_sym Hs).
Qed.

(** Segment by segment the block is written over [b]. *)
Lemma take_share (b : bytes) k : 0 <= k -> (k + 1) * n <= zlen tb -> 0 <= n -> take (Z.to_nat (k * n)) b = take (Z.to_nat (k * n)) tb ->
  (k + 1) * n <= zlen b -> Forall is_byte b ->
  exists b', blit b (k * n) (seg_share tb n k) = Ok b' /\ zlen b' = zlen b /\ Forall is_byte b' /\ take (Z.to_nat ((k + 1) * n)) b' = take (Z.to_nat ((k + 1) * n)) tb.
Proof.
  intros Hk Htb Hn Hb Hl Hby. set (m := n) in *. clearbody m. set (s := seg_share tb m k).
  assert (Hs : zlen s = m) by (apply length_share; lia). assert (0 <= k * m) by nia. rewrite blit_ok by lia. eexists. split; [reflexivity|].
  assert (Htk : length (take (Z.to_nat (k * m)) b) = Z.to_nat (k * m)) by (rewrite length_take; unfold zlen in *; nia). split; [|split].
  - unfold zlen in *. rewrite !length_app, Htk, length_drop. nia.
  - repeat (apply Forall_app; split); [by apply Forall_take| |by apply Forall_drop]. by apply Forall_take, Forall_drop, tb_bytes.
  - rewrite Hb, app_assoc. rewrite Hb in Htk. rewrite take_app_length' by (rewrite length_app, Htk; unfold zlen in Hs; nia).
    unfold s, seg_share. replace (Z.to_nat ((k + 1) * m)) with (Z.to_nat (k * m) + Z.to_nat m)%nat by nia. by rewrite take_take_drop.
Qed.

(** One segment more. *)
Lemma copy_segment_spec hu job k b : 0 <= k < C v -> zlen tb <= zlen b -> job_done hu k job -> take (Z.to_nat (k * n)) b = take (Z.to_nat (k * n)) tb ->
  Forall is_byte b -> exists b', copy_segment v (uc hu) (max_ldpc_iterations ds) job b k = Ok (b', k + 1) /\
    zlen b' = zlen b /\ Forall is_byte b' /\ take (Z.to_nat ((k + 1) * n)) b' = take (Z.to_nat ((k + 1) * n)) tb.
Proof.
  intros Hk Hb [Es Eo Eb Hit Hcp (old & buf & Hold & Hu)] Hbt Hby. unfold copy_segment. rewrite (proj2 (Z.ltb_lt _ _)) by lia.
  rewrite Es, Eo, Eb, payload_ok. rewrite (rd_Some (uc hu) k (decoded k old buf)), bind_Ok by (lia || exact Hu).
  rewrite (decoded_payload k old buf Hk Hold), bind_Ok. destruct (block_sizes p G v L Kp P a Hlen) as (_ & Hn & _ & _ & _ & _ & _ & Hz).
  destruct (take_share b k ltac:(lia)) as (b' & -> & Hbl' & Hby' & Hbt'); [nia|lia|done|nia|done|].
  rewrite bind_Ok. by exists b'.
Qed.

(** The checks on the whole block. *)
Lemma tb_result_spec b : take (length tb) b = tb -> Forall is_byte b ->
  tb_result t v (8 * zlen a) b (C v) = Ok (negb (bool_decide (Forall (fun z => z = 0) a))).
Proof.
  intros Hb Hby. assert (exists rest, b = tb ++ rest /\ Forall is_byte rest) as (rest & -> & Hrest).
  { exists (drop (length tb) b). split; [by rewrite <- Hb at 1; rewrite take_drop|by apply Forall_drop]. }
  unfold tb_result. rewrite Z.eqb_refl. cbn [andb].
  assert (Hpos : 0 < zlen a < 2 ^ 26) by (pose proof (dl_size _ _ _ _ _ P); lia).
  assert (Hck : check_crc t (tb ++ rest) (lenWithCrc 1 (8 * zlen a)) (crcType 1 (8 * zlen a)) = Ok 1).
  { rewrite <- app_assoc. unfold lenWithCrc, crcType, tb_crc, NR_MAX_PDSCH_TBS. change (1 >? 1) with false. cbv iota. destruct (8 * zlen a >? 3824).
    - pose proof (check_crc_append C24a CRC24_A t a rest eq_refl Ht Ha Hrest) as Hcr. cbn [crc_length crc_poly] in Hcr. apply Hcr. lia.
    - pose proof (check_crc_append C16 CRC16 t a rest eq_refl Ht Ha Hrest) as Hcr. cbn [crc_length crc_poly] in Hcr. apply Hcr. lia. }
  assert (Hok : (if C v >? 1 then x ← check_crc t (tb ++ rest) (lenWithCrc 1 (8 * zlen a)) (crcType 1 (8 * zlen a)); mret (negb (x =? 0)) else mret true) = Ok true).
  { destruct (C v >? 1); [rewrite Hck, bind_Ok|]; exact eq_refl. }
  rewrite Hok, bind_Ok. assert (E8 : 8 * zlen a / 8 = zlen a) by (rewrite Z.mul_comm; apply Z.div_mul; lia).
  rewrite E8, <- app_assoc, all_zero_spec, bind_Ok by lia. exact eq_refl.
Qed.

#[local] Abbreviation nonzero := (negb (bool_decide (Forall (fun z => z = 0) a))).

(** The state after [k] segments; after the last the result is set. *)
Record post_inv (hu : ue_harq) (dd : ue_dlsch) (b0 : bytes) (k : Z) (st : ue_harq * ue_dlsch * bytes * Z) : Prop := {
  po_count : st.2 = k;
  po_len : zlen st.1.2 = zlen b0 /\ Forall is_byte st.1.2;
  po_take : take (Z.to_nat (k * n)) st.1.2 = take (Z.to_nat (k * n)) tb;
  po_before : k < C v -> st.1.1 = (hu, dd);
  po_after : k = C v -> decodeResult st.1.1.1 = nonzero /\ busy st.1.1.1 = (if nonzero then false else busy hu) /\
    exists it, 0 <= it <= max_ldpc_iterations ds /\ st.1.1.2 = set_iterations dd (if nonzero then it else max_ldpc_iterations ds + 1) }.

Lemma post_step hu dd b0 k job st : max_ldpc_iterations dd = max_ldpc_iterations ds -> TBS dd = 8 * zlen a -> useg hu = v -> 0 <= k < C v ->
  zlen tb <= zlen b0 -> job_done hu k job -> post_inv hu dd b0 k st ->
  exists st', nr_ue_postDecode t job (k =? C v - 1) st = Ok st' /\ post_inv hu dd b0 (k + 1) st'.
Proof.
  destruct st as [[[h' d'] b] cnt]. intros Emax Etbs Eu Hk Hroomb Hjob [Ec [Hbl Hby] Hbt Hbef _]. cbn [fst snd] in *. specialize (Hbef ltac:(lia)).
  injection Hbef as -> ->. subst cnt. unfold nr_ue_postDecode. rewrite Emax, Eu, Etbs.
  destruct (copy_segment_spec hu job k b Hk ltac:(lia) Hjob Hbt Hby) as (b' & -> & Hbl' & Hby' & Hbt'). rewrite bind_Ok.
  destruct (Z.eqb_spec k (C v - 1)) as [E|E]; cbn [negb].
  - assert (EC : k + 1 = C v) by lia. rewrite EC in *. destruct (block_sizes p G v L Kp P a Hlen) as (_ & _ & _ & _ & _ & _ & _ & Hz).
    assert (Htb : take (length tb) b' = tb).
    { assert (El : Z.to_nat (C v * n) = length tb) by (rewrite Z.mul_comm, <- Hz; unfold zlen; lia). rewrite El in Hbt'. rewrite Hbt'. by apply take_ge. }
    rewrite (tb_result_spec b' Htb Hby'), bind_Ok. eexists. split; [reflexivity|]. constructor; cbn [fst snd]; [done|split; [lia|done]|done|lia|].
    intros _. split; [done|]. split; [done|]. exists (decodeIterations job). split; [apply (jd_iter _ _ _ Hjob)|done].
  - eexists. split; [reflexivity|]. constructor; cbn [fst snd]; [done|split; [lia|done]|done|done|lia].
Qed.

Lemma post_all hu dd b0 arr : max_ldpc_iterations dd = max_ldpc_iterations ds -> TBS dd = 8 * zlen a -> useg hu = v ->
  zlen tb <= zlen b0 -> Forall is_byte b0 -> zlen arr = C v -> (forall k job, 0 <= k -> arr !! Z.to_nat k = Some job -> job_done hu k job) ->
  exists st, for_loop 0 (C v) (fun i st => job ← rd arr i; nr_ue_postDecode t job (i =? C v - 1) st) (hu, dd, b0, 0) = Ok st /\ post_inv hu dd b0 (C v) st.
Proof.
  intros Emax Etbs Eu Hb Hby Harr Hjobs. pose proof (C_range h v L Kp P) as HC. apply (for_loop_inv (post_inv hu dd b0)).
  - lia.
  - constructor; [done|done|done|done|lia].
  - intros k st Hk Hinv. destruct (rd_ok arr k) as (job & -> & Hj); [lia|]. rewrite bind_Ok. apply post_step; try done. apply Hjobs; [lia|done].
Qed.

(** ** The whole decoder *)

Context (Hv : forall v0, nr_segmentation t None B BG v0 = Ok (Kb, v, None)).

(** The buffers [nr_init_dl_harq_processes] allocated. *)
Definition rx_buffers (hu : ue_harq) : Prop := forall k, 0 <= k < C v ->
  (exists d, ud hu !! Z.to_nat k = Some d /\ zlen d = 5 * 8448) /\ exists buf, uc hu !! Z.to_nat k = Some buf /\ 1056 <= zlen buf.

Lemma N_room : N <= 5 * 8448 /\ K v / 8 <= 1056.
Proof.
  destruct (block_sizes p G v L Kp P a Hlen) as (_ & _ & _ & _ & _ & HKK & _). split; [|apply Z.div_le_upper_bound; lia].
  pose proof (sp_K _ _ _ _ _ (dl_seg _ _ _ _ _ P)) as HK. unfold N_of. destruct (dl_BG _ _ _ _ _ P) as [E1|E1]; rewrite E1 in HK |- *;
    [change (1 =? 1) with true in *|change (2 =? 1) with false in *]; cbv iota in *; clear - HK HKK; lia.
Qed.

Lemma clear_buffers hu : rx_buffers hu ->
  exists dd, for_loop 0 (C v) (fun i dd => d ← rd dd i; d ← blit d 0 (replicate (Z.to_nat (5 * 8448)) 0); wr dd i d) (ud hu) = Ok dd /\
    forall k, 0 <= k < C v -> dd !! Z.to_nat k = Some (replicate (Z.to_nat (5 * 8448)) 0).
Proof.
  intros Hb. pose proof (C_range h v L Kp P) as HC. clear - HC Hb. set (z := replicate (Z.to_nat (5 * 8448)) 0).
  assert (Hz : zlen z = 5 * 8448) by (unfold zlen, z; rewrite length_replicate; lia). clearbody z.
  match goal with |- context [for_loop 0 _ ?body _] => destruct (for_loop_inv (fun i dd => (forall k, 0 <= k < i -> dd !! Z.to_nat k = Some z) /\
    forall k, i <= k < C v -> dd !! Z.to_nat k = ud hu !! Z.to_nat k) 0 (C v) body (ud hu)) as (dd & E1 & Hdd & _) end.
  - lia.
  - split; [lia|done].
  - intros i dd Hi [Hlo Hhi]. destruct (Hb i Hi) as ((d & Hd & Hdl) & _). rewrite <- Hhi in Hd by lia. rewrite (rd_Some dd i d), bind_Ok by (lia || exact Hd).
    rewrite blit_ok, bind_Ok by lia. change (Z.to_nat 0) with 0%nat. rewrite firstn_O, app_nil_l, drop_ge, app_nil_r by (unfold zlen in *; lia).
    apply lookup_lt_Some in Hd. rewrite wr_ok by (unfold zlen; lia). eexists. split; [reflexivity|]. split.
    + intros k Hk. destruct (decide (k = i)) as [->|]; [by apply list_lookup_insert_eq|]. rewrite list_lookup_insert_ne by lia. apply Hlo. lia.
    + intros k Hk. rewrite list_lookup_insert_ne by lia. apply Hhi. lia.
  - exists dd. done.
Qed.

Lemma new_block_spec hu dd : first_rx hu = 1 -> TBS dd = 8 * zlen a -> d_ldpcBaseGraph dd = BG -> d_Nl dd = nrOfLayers p -> rx_buffers hu ->
  exists hu', new_block t dd hu = Ok (true, hu') /\ useg hu' = v /\ busy hu' = busy hu /\ rx_ready 0 hu'.
Proof.
  intros Ef Et Eb El Hb. unfold new_block. rewrite Ef, Et, Eb, El. change (1 =? 1) with true. cbv iota. rewrite Hv, bind_Ok.
  rewrite Z.gtb_ltb, (proj2 (Z.ltb_ge _ _) (dl_count _ _ _ _ _ P)). cbn [ud]. destruct (clear_buffers hu Hb) as (x' & -> & Hx'). rewrite bind_Ok.
  eexists. split; [reflexivity|]. split; [done|]. split; [done|]. destruct N_room as [HN HK]. intros k Hk. cbn [ud uc]. split.
  - exists (replicate (Z.to_nat (5 * 8448)) 0). split; [by apply Hx'|]. split; [unfold zlen; rewrite length_replicate; lia|by apply Forall_replicate].
  - destruct (Hb k Hk) as (_ & buf & Hu & Hl). exists buf. split; [done|lia].
Qed.

Lemma decoding_spec spin hu b : first_rx hu = 1 -> rx_buffers hu -> C v <= a_segments (nrOfLayers p) (number_rbs ds) -> zlen tb <= zlen b -> Forall is_byte b ->
  exists ret hu' dd' b', nr_dlsch_decoding (S spin) t llr ds hu b G = Ok (ret, hu', dd', b') /\ zlen b' = zlen b /\ take (length tb) b' = tb /\
    decodeResult hu' = nonzero /\ busy hu' = (if nonzero then false else busy hu) /\
    if nonzero then ret <= max_ldpc_iterations ds else ret = max_ldpc_iterations ds + 1.
Proof.
  intros Ef Hb Hseg Hbl Hby. unfold nr_dlsch_decoding.
  assert (Edm : ((d_dmrsConfigType ds =? 0) || (d_dmrsConfigType ds =? 1)) = true) by (destruct (rm_dmrs _ _ M) as [-> | ->]; done).
  rewrite Edm. cbn [negb]. set (dd := set_iterations ds (max_ldpc_iterations ds + 1)).
  assert (Etbs : TBS dd = 8 * zlen a) by (cbn [TBS dd set_iterations]; rewrite (rm_tbs _ _ M); lia).
  destruct (new_block_spec hu dd Ef Etbs (rm_bg _ _ M) (rm_nl _ _ M) Hb) as (h1 & -> & E1 & E2 & Hready). rewrite bind_Ok. cbn [negb].
  cbn [d_Nl number_rbs d_ldpcBaseGraph max_ldpc_iterations dd set_iterations]. rewrite E1, (rm_nl _ _ M), Z.gtb_ltb, (proj2 (Z.ltb_ge _ _) Hseg). fold dd.
  set (h2 := mk_ue_harq _ _ _ v _ _ _ _ false).
  destruct (push_all h2 eq_refl eq_refl Hready) as ([[[h3 arr] ro] o] & Ep & [Eu _ Ebusy _ [Hal Hjobs] _]). cbn [fst snd] in *.
  change (push_segment dd) with (push_segment ds). rewrite Ep, bind_Ok.
  assert (Hall : Forall (fun job => completed job = true) arr).
  { apply Forall_lookup_2. intros i job Hi. specialize (Hjobs (Z.of_nat i) job ltac:(lia)). rewrite Nat2Z.id in Hjobs.
    by destruct (Hjobs Hi). }
  rewrite (join_ok spin arr Hall), bind_Ok.
  destruct (post_all h3 dd b arr eq_refl Etbs Eu Hbl Hby Hal Hjobs) as ([[[h4 d4] b4] cnt] & -> & [Ec [Hl4 _] Ht4 _ Haft]). cbn [fst snd] in *.
  destruct (Haft eq_refl) as (Eres & Ebu & it & Hit & Ed). rewrite bind_Ok. eexists _, h4, d4, b4. split; [reflexivity|].
  split; [done|]. destruct (block_sizes p G v L Kp P a Hlen) as (_ & _ & _ & _ & _ & _ & _ & Hz). split.
  { assert (El : Z.to_nat (C v * n) = length tb) by (rewrite Z.mul_comm, <- Hz; unfold zlen; lia). rewrite El in Ht4. rewrite Ht4. by apply take_ge. }
  split; [done|]. split; [rewrite Ebu, Ebusy; cbn [busy h2]; by rewrite E2|]. pose proof (rm_iter _ _ M). rewrite Ed. cbn [last_iteration_cnt set_iterations]. unfold u8. destruct nonzero; rewrite Z.mod_small; lia.
Qed.

End Link.
