(* ===== verification/DlschToy.v ===== *)
(** * A coder behind [ldpc_interface]

    A small code that meets what the theorems on the shared channel rely on: the information bits,
    rotated by the two punctured columns, followed by zeros; the decoder takes the signs and
    keeps a result that passes the CRC. *)

From S2P Require Import Prelude RlcPdu Crc CrcProps Tbs Segmentation SegmentationProps RateMatch RateMatchProps Dlsch DlschTx DlschRx.

Import Crc Tbs Segmentation RateMatch Dlsch.

(** ** The code *)

Definition toy_encode (BG Zc Kb K : Z) (c : bytes) : list Z :=
  (fun i => if i <? K then default 0 (b2z <$> bits c !! Z.to_nat ((i + 2 * Zc) mod K)) else 0) <$> seqZ 0 (N_of BG Zc).

(** The soft value of bit [j] of the segment. *)
Definition toy_soft (Zc K : Z) (l : list Z) (j : Z) : Z := default 0 (l !! Z.to_nat (if j <? 2 * Zc then K + j else j)).

Definition octet_of (bs : list bool) (q : Z) : Z := of_bits (take 8 (drop (Z.to_nat (8 * q)) bs)).

Definition toy_out (BG Zc : Z) (l : list Z) : bytes :=
  let K := K_of BG Zc in
  octet_of ((fun j => toy_soft Zc K l j <? 0) <$> seqZ 0 (8 * (K / 8))) <$> seqZ 0 (K / 8).

Definition toy_decode (t : crc_tables) (p : dec_params) (l : list Z) (abort : bool) : Z * bytes * bool :=
  let out := toy_out (dp_BG p) (dp_Z p) l in
  match check_crc t out (dp_E p) (dp_crc_type p) with
  | Ok 1 => (3, out, abort)
  | _ => (dp_numMaxIter p + 1, out, true)
  end.

#[local] Instance toy_ldpc (t : crc_tables) : Ldpc := {| ldpc_encode := toy_encode; ldpc_decode := toy_decode t |}.

Lemma toy_lookup BG Zc Kb K c i : 0 <= i < N_of BG Zc ->
  toy_encode BG Zc Kb K c !! Z.to_nat i = Some (if i <? K then default 0 (b2z <$> bits c !! Z.to_nat ((i + 2 * Zc) mod K)) else 0).
Proof. intros Hi. unfold toy_encode. rewrite list_lookup_fmap, lookup_seqZ_lt by lia. cbn [fmap option_fmap option_map]. by rewrite Z2Nat.id, Z.add_0_l by lia. Qed.

Lemma K_le_N BG Zc : BG = 1 \/ BG = 2 -> 0 < Zc -> 2 * Zc < K_of BG Zc < N_of BG Zc.
Proof. intros [-> | ->] Hz; unfold K_of, N_of; [change (1 =? 1) with true|change (2 =? 1) with false]; cbv iota; lia. Qed.

Lemma bits_some c i : 0 <= i < 8 * zlen c -> exists b, bits c !! Z.to_nat i = Some b.
Proof. intros Hi. apply lookup_lt_is_Some_2. rewrite length_bits. unfold zlen in Hi. lia. Qed.

#[local] Instance toy_code (t : crc_tables) : @LdpcCode (toy_ldpc t).
Proof.
  split.
  - intros BG Zc Kb K c HBG HZ. cbn [ldpc_encode toy_ldpc]. unfold toy_encode, zlen. rewrite length_fmap, length_seqZ. pose proof (K_le_N BG Zc HBG HZ). lia.
  - intros BG Zc Kb K c. cbn [ldpc_encode toy_ldpc]. apply Forall_fmap, Forall_forall. intros i _. cbn [compose]. unfold is_bit.
    case_if; [|by left]. destruct (bits c !! _) as [[]|]; cbn; auto.
  - intros BG Zc Kb K c i HBG HZ HK Hc Hl Hi. cbn [ldpc_encode toy_ldpc]. pose proof (K_le_N BG Zc HBG HZ) as HKN. unfold K_of in HKN. rewrite <- HK in HKN.
    rewrite toy_lookup, (proj2 (Z.ltb_lt i K)), Z.mod_small by lia. rewrite (Z.add_comm i). destruct (bits_some c (2 * Zc + i)) as [b ->]; [lia|done].
Qed.

(** ** The decoder *)

Lemma toy_out_ok BG Zc l : 0 < K_of BG Zc -> Forall is_byte (toy_out BG Zc l) /\ zlen (toy_out BG Zc l) = K_of BG Zc / 8.
Proof.
  intros HK. unfold toy_out. split.
  - apply Forall_fmap, Forall_forall. intros q _. cbn [compose]. unfold octet_of. set (bs := take 8 _). pose proof (of_bits_bound bs) as Hb.
    assert (zlen bs <= 8) by (unfold bs, zlen; rewrite length_take; lia). unfold is_byte.
    assert (2 ^ zlen bs <= 2 ^ 8) by (apply Z.pow_le_mono_r; lia). lia.
  - assert (0 <= K_of BG Zc / 8) by (apply Z.div_pos; lia). unfold zlen. rewrite length_fmap, length_seqZ. lia.
Qed.

(** Octets of the bits of [c] are those of [c]. *)
Lemma octets_of_bits c n : Forall is_byte c -> 0 <= n <= zlen c -> octet_of (take (Z.to_nat (8 * n)) (bits c)) <$> seqZ 0 n = take (Z.to_nat n) c.
Proof.
  intros Hc Hn. apply list_eq_same_length with (n := Z.to_nat n); [rewrite length_take; unfold zlen in Hn; lia|rewrite length_fmap, length_seqZ; lia|].
  intros i x y Hi Hx Hy. rewrite list_lookup_fmap, lookup_seqZ_lt in Hx by lia. cbn [fmap option_fmap option_map] in Hx. injection Hx as <-.
  rewrite lookup_take_lt in Hy by lia. rewrite Z.add_0_l. unfold octet_of.
  assert (E8 : Z.to_nat (8 * n) = (8 * Z.to_nat n)%nat) by lia. rewrite E8, <- bits_take.
  assert (E9 : Z.to_nat (8 * Z.of_nat i) = (8 * i)%nat) by lia. rewrite E9, <- bits_drop. change 8%nat with (8 * 1)%nat. rewrite <- bits_take.
  assert (Ed : take 1 (drop i (take (Z.to_nat n) c)) = [y]).
  { rewrite (drop_S _ y i) by (rewrite lookup_take_lt by lia; exact Hy). done. }
  rewrite Ed, bits_cons, app_nil_r, of_zbits. apply (Forall_lookup_1 _ _ _ _ Hc) in Hy. apply Z.mod_small. exact Hy.
Qed.

(** All positions of the information bits arrive. *)
Definition toy_enough (BG Zc F Fo : Z) (ps : list Z) : Prop := forall i, 0 <= i < K_of BG Zc -> usable F Fo i = true -> i ∈ ps.

Lemma toy_bit BG Zc Kb F c ps l j : BG = 1 \/ BG = 2 -> 0 < Zc -> let K := K_of BG Zc in 0 <= F -> 0 <= K - F - 2 * Zc ->
  K <= 8 * zlen c -> (forall i, K - F <= i < K -> bits c !! Z.to_nat i = Some false) -> toy_enough BG Zc F (K - F - 2 * Zc) ps ->
  noise_free BG Zc F (K - F - 2 * Zc) ps (toy_encode BG Zc Kb K c) l -> 0 <= j < K ->
  bits c !! Z.to_nat j = Some (toy_soft Zc K l j <? 0).
Proof.
  intros HBG HZ K HF HFo Hc Hfill Hen (_ & _ & Hl) Hj. pose proof (K_le_N BG Zc HBG HZ) as HKN. fold K in HKN.
  set (i := if j <? 2 * Zc then K - 2 * Zc + j else j - 2 * Zc).
  assert (Hi : 0 <= i < K /\ toy_soft Zc K l j = default 0 (l !! Z.to_nat (2 * Zc + i)) /\ (i + 2 * Zc) mod K = j).
  { unfold i, toy_soft. destruct (Z.ltb_spec j (2 * Zc)).
    - split; [lia|]. split; [do 3 f_equal; lia|]. replace (K - 2 * Zc + j + 2 * Zc) with (j + 1 * K) by lia. rewrite Z.mod_add by lia. apply Z.mod_small. lia.
    - split; [lia|]. split; [do 3 f_equal; lia|]. replace (j - 2 * Zc + 2 * Zc) with j by lia. apply Z.mod_small. lia. }
  destruct Hi as (Hi & Es & Em). destruct (Hl i ltac:(lia)) as (x & Ex & Hu & Hs & _). rewrite Es, Ex. cbn [from_option id].
  destruct (usable F (K - F - 2 * Zc) i) eqn:Eu.
  - destruct (Hs eq_refl (Hen i Hi Eu)) as [H0 H1]. rewrite toy_lookup, (proj2 (Z.ltb_lt i K)), Em in H0, H1 by lia.
    destruct (bits_some c j) as [[] Eb]; [lia|rewrite Eb in *|rewrite Eb in *]; cbn [fmap option_fmap option_map from_option b2z id] in H0, H1.
    + specialize (H1 eq_refl). by rewrite (proj2 (Z.ltb_lt x 0)).
    + specialize (H0 eq_refl). by rewrite (proj2 (Z.ltb_ge x 0)) by lia.
  - rewrite (Hu eq_refl). unfold usable in Eu. apply orb_false_iff in Eu as [E1 E2]. apply Z.ltb_ge in E1. apply Z.leb_gt in E2.
    rewrite Hfill; [done|]. unfold i in *. revert E1 E2. destruct (Z.ltb_spec j (2 * Zc)); lia.
Qed.

Lemma toy_checked t p l ab it out ab' : dp_BG p = 1 \/ dp_BG p = 2 -> 0 < dp_Z p -> toy_decode t p l ab = (it, out, ab') -> it <= dp_numMaxIter p ->
  0 <= it /\ Forall is_byte out /\ K_of (dp_BG p) (dp_Z p) / 8 <= zlen out /\ check_crc t out (dp_E p) (dp_crc_type p) = Ok 1.
Proof.
  intros HBG HZ Ed Hit. pose proof (K_le_N _ _ HBG HZ) as HK. unfold toy_decode in Ed.
  destruct (toy_out_ok (dp_BG p) (dp_Z p) l) as [H1 H2]; [lia|]. set (o := toy_out _ _ _) in *. clearbody o.
  destruct (check_crc t o (dp_E p) (dp_crc_type p)) as [[|[| |]|]|] eqn:Ec; injection Ed as <- <- <-; try lia.
  split; [lia|]. split; [done|]. split; [lia|done].
Qed.

Lemma toy_recovers t p Kb F c ps l : tables_ok t -> dp_BG p = 1 \/ dp_BG p = 2 -> 0 < dp_Z p <= 384 -> let K := K_of (dp_BG p) (dp_Z p) in
  0 <= F -> 0 <= K - F - 2 * dp_Z p -> 3 <= dp_numMaxIter p -> Forall is_byte c -> K <= 8 * zlen c ->
  (forall i, K - F <= i < K -> bits c !! Z.to_nat i = Some false) ->
  24 <= dp_E p <= K - F -> dp_E p mod 8 = 0 -> check_crc t c (dp_E p) (dp_crc_type p) = Ok 1 ->
  toy_enough (dp_BG p) (dp_Z p) F (K - F - 2 * dp_Z p) ps ->
  noise_free (dp_BG p) (dp_Z p) F (K - F - 2 * dp_Z p) ps (toy_encode (dp_BG p) (dp_Z p) Kb K c) l ->
  exists it out, toy_decode t p l false = (it, out, false) /\ 0 <= it <= dp_numMaxIter p /\ K / 8 <= zlen out /\
  take (Z.to_nat (K / 8)) out = take (Z.to_nat (K / 8)) c.
Proof.
  intros Ht HBG HZ K HF HFo Hmax Hc Hcl Hfill HE HE8 Hcrc Hen Hnf. assert (HK : K = K_of (dp_BG p) (dp_Z p)) by reflexivity. clearbody K.
  pose proof (K_le_N _ _ HBG (proj1 HZ)) as HKN. rewrite <- HK in HKN.
  assert (HK8 : 0 <= K / 8 /\ 8 * (K / 8) <= K) by (split; [apply Z.div_pos; lia|apply Z.mul_div_le; lia]).
  assert (Eo : toy_out (dp_BG p) (dp_Z p) l = take (Z.to_nat (K / 8)) c).
  { unfold toy_out. rewrite <- HK, <- (octets_of_bits c (K / 8)) by (done || lia). f_equal. f_equal.
    apply list_eq_same_length with (n := Z.to_nat (8 * (K / 8))).
    - rewrite length_take, length_bits. unfold zlen in Hcl. lia.
    - rewrite length_fmap, length_seqZ. lia.
    - intros i x y Hi Hx Hy. rewrite list_lookup_fmap, lookup_seqZ_lt in Hx by lia. cbn [fmap option_fmap option_map] in Hx. injection Hx as <-.
      rewrite lookup_take_lt in Hy by lia. rewrite Z.add_0_l. rewrite HK in Hnf, Hfill, Hen, HFo, Hcl. 
      pose proof (toy_bit _ _ Kb F c ps l (Z.of_nat i) HBG (proj1 HZ) HF HFo Hcl Hfill Hen Hnf ltac:(lia)) as Hb.
      rewrite Nat2Z.id, Hy, <- HK in Hb. by injection Hb as ->. }
  exists 3, (take (Z.to_nat (K / 8)) c). unfold toy_decode. rewrite Eo.
  assert (Htl : zlen (take (Z.to_nat (K / 8)) c) = K / 8) by (unfold zlen in *; rewrite length_take; lia).
  assert (HK384 : K <= 8448) by (rewrite HK; unfold K_of; case_if; lia).
  assert (HE' : 8 * (dp_E p / 8) = dp_E p) by (Z.to_euclidean_division_equations; lia).
  assert (HEK : dp_E p / 8 <= K / 8) by (apply Z.div_le_mono; lia).
  rewrite (check_crc_prefix t _ c), Hcrc; [|done|by apply Forall_take|done|done|lia|lia|lia|].
  + split; [done|]. split; [lia|]. split; [lia|]. rewrite take_take. f_equal. lia.
  + rewrite take_take. f_equal. lia.
Qed.

#[local] Instance toy_decoder (t : crc_tables) (Ht : tables_ok t) : @LdpcDecoder t (toy_ldpc t) (toy_code t).
Proof.
  refine {| ldpc_enough := toy_enough |}.
  - intros p l ab it out ab' HBG HZ _. by apply toy_checked.
  - intros p Kb K F c ps l HBG HZ ->. by apply toy_recovers.
Defined.
