(* ===== verification/DlschProps.v ===== *)
(** * The downlink shared channel: theorems

    A transport block from the gNB's encoder to the UE's decoder; and an LDPC coder that shows
    that what is relied on of [ldpc_interface] can hold. *)

From S2P Require Import Prelude RlcPdu Crc CrcProps Tbs Segmentation SegmentationProps RateMatch RateMatchProps Dlsch DlschTx DlschRx DlschLink DlschToy.

Import Crc Tbs Segmentation RateMatch Dlsch.

(** What the gNB has when it encodes the transport block [a], with the parameters [v] of its segmentation. *)
Record dl_ready (t : crc_tables) (h : gnb_harq) (a output : bytes) (v : seg_vars) (L Kp : Z) : Prop := {
  dr_buffers : tx_buffers h a;
  dr_params : dl_params (rel15 h) (dlsch_G (rel15 h) (unav_res h)) v L Kp;
  dr_seg : forall v0, nr_segmentation t None (lenWithCrc 1 (8 * zlen a)) (ldpcBaseGraph (rel15 h)) v0 =
    Ok (seg_Kb (lenWithCrc 1 (8 * zlen a)) (ldpcBaseGraph (rel15 h)), v, None);
  dr_count : C v <= zlen (hc h);
  dr_bytes : Forall (Forall is_byte) (hc h);
  dr_room : Forall (fun old => 1056 <= zlen old) (hc h);
  dr_stale : Forall (fun old => K v mod 8 = 0 \/ old !! Z.to_nat (K v / 8) = Some 0) (hc h);
  dr_output : dlsch_G (rel15 h) (unav_res h) <= zlen output }.

(** What the UE needs to receive the first transmission of it: matching parameters, soft values of size [x] that no sum takes out of
    16 bits, enough positions for the decoder, and buffers of their sizes. *)
Record rx_ready (t : crc_tables) `{LdpcDecoder t} (h : gnb_harq) (a : bytes) (v : seg_vars) (x : Z) (ds : ue_dlsch) (hu : ue_harq) (b : bytes) : Prop := {
  rr_match : rx_match ds (rel15 h);
  rr_size : 0 < x;
  rr_soft : forall r, 0 <= r < C v -> let p := rel15 h in
    x * (E_of (dlsch_G p (unav_res h)) (C v) (nrOfLayers p * qamModOrder p) r /
         (Ncb_of (tbSizeLbrmBytes p) (ldpcBaseGraph p) (Zout v) (C v) - F v) + 1) < 2 ^ 15 /\
    ldpc_enough (ldpcBaseGraph p) (Zout v) (F v) (K v - F v - 2 * Zout v) (seg_positions h v r);
  rr_first : first_rx hu = 1;
  rr_buffers : rx_buffers v hu;
  rr_segments : C v <= a_segments (nrOfLayers (rel15 h)) (number_rbs ds);
  rr_b : zlen a + 3 <= zlen b /\ Forall is_byte b }.

Lemma dlsch_delivers t `{LdpcDecoder t} h a output v L Kp x g spin ds hu b :
  crcTableInit zero_tables = Ok t -> dl_ready t h a output v L Kp -> rx_ready t h a v x ds hu b -> g 0 = x -> g 1 = - x ->
  exists h' output' ret hu' ds' b', nr_dlsch_encoding t h output = Ok (0, h', output') /\
    nr_dlsch_decoding (S spin) t (g <$> output') ds hu b (dlsch_G (rel15 h) (unav_res h)) = Ok (ret, hu', ds', b') /\
    take (length a) b' = a /\ decodeResult hu' = negb (bool_decide (Forall (fun z => z = 0) a)) /\
    (decodeResult hu' = true -> busy hu' = false /\ ret <= max_ldpc_iterations ds) /\
    (decodeResult hu' = false -> ret = max_ldpc_iterations ds + 1).
Proof.
  intros Et [Hbuf P Hv Hc Hcb Hroom Hstale Hout] [M Hx Hsoft Hf Hrx Hseg [Hb Hby]] Hg0 Hg1.
  destruct crcTableInit_ok as (t' & Et' & Ht). rewrite Et in Et'. apply Ok_inj in Et' as <-.
  destruct (nr_dlsch_encoding_spec t h a output v L Kp Ht Hbuf P Hv Hc Hcb) as (h' & out' & Ee & Hl & E1 & E2 & Hsent); [|done|].
  { eapply Forall_impl; [exact Hroom|]. intros old Ho. cbn beta in *. pose proof (sp_range _ _ _ _ _ (dl_seg _ _ _ _ _ P)).
    assert (K v / 8 <= 1056) by (apply Z.div_le_upper_bound; lia). lia. }
  assert (Ha : Forall is_byte a) by (destruct Hbuf as [(rest & _ & _ & Hf') _ _ _]; by apply Forall_app in Hf' as [? _]).
  pose proof (tb_size _ _ Hbuf) as Hsize.
  assert (Htb : zlen (a ++ tb_crc a) <= zlen b).
  { pose proof (zlen_tb a) as Hz. unfold lenWithCrc in Hz. change (1 >? 1) with false in Hz. cbv iota in Hz. revert Hz. case_if; lia. }
  edestruct (decoding_spec t Ht h v L Kp P a Ha Hsize Hc Hcb Hroom Hstale out') as (ret & hu' & ds' & b' & Ed & Hbl & Htake & Hres & Hbusy & Hret).
  - unfold zlen in *. rewrite Hl. exact Hout.
  - exact Hsent.
  - exact Hx.
  - exact Hg0.
  - exact Hg1.
  - intros r Hr. apply (Hsoft r Hr).
  - intros r Hr. apply (Hsoft r Hr).
  - exact M.
  - exact Hv.
  - exact Hf.
  - exact Hrx.
  - exact Hseg.
  - exact Htb.
  - exact Hby.
  - exists h', out', ret, hu', ds', b'. split; [done|]. split; [done|]. split; [|split; [done|]].
    + transitivity (take (length a) (take (length (a ++ tb_crc a)) b')); [rewrite take_take; f_equal; rewrite length_app; lia|].
      rewrite Htake. apply take_app_length.
    + rewrite Hbusy, Hres. clear - Hret. destruct (negb _); (split; intros E); [split; [reflexivity|exact Hret]|discriminate E|discriminate E|exact Hret].
Qed.

(** [C18] The downlink shared channel delivers the transport block: what [nr_dlsch_encoding] puts out for [a], received
    as soft values with the sign of each bit (and of a size that no sum leaves 16 bits), makes [nr_dlsch_decoding]
    of the first transmission return with [a] in [b].  It is accepted exactly when it is not all zeros, and then the
    HARQ process is idle and the return value within the allowed iterations. *)
Theorem dlsch_roundtrip t `{LdpcDecoder t} h a output v L Kp x g spin ds hu b :
  crcTableInit zero_tables = Ok t -> dl_ready t h a output v L Kp -> rx_match ds (rel15 h) ->
  0 < x -> g 0 = x -> g 1 = - x ->
  (forall r, 0 <= r < C v -> let p := rel15 h in
    x * (E_of (dlsch_G p (unav_res h)) (C v) (nrOfLayers p * qamModOrder p) r /
         (Ncb_of (tbSizeLbrmBytes p) (ldpcBaseGraph p) (Zout v) (C v) - F v) + 1) < 2 ^ 15 /\
    ldpc_enough (ldpcBaseGraph p) (Zout v) (F v) (K v - F v - 2 * Zout v) (seg_positions h v r)) ->
  first_rx hu = 1 -> rx_buffers v hu -> C v <= a_segments (nrOfLayers (rel15 h)) (number_rbs ds) ->
  zlen a + 3 <= zlen b -> Forall is_byte b ->
  exists h' output' ret hu' ds' b', nr_dlsch_encoding t h output = Ok (0, h', output') /\
    nr_dlsch_decoding (S spin) t (g <$> output') ds hu b (dlsch_G (rel15 h) (unav_res h)) = Ok (ret, hu', ds', b') /\
    take (length a) b' = a /\ decodeResult hu' = negb (bool_decide (Forall (fun z => z = 0) a)) /\
    (decodeResult hu' = true -> busy hu' = false /\ ret <= max_ldpc_iterations ds) /\
    (decodeResult hu' = false -> ret = max_ldpc_iterations ds + 1).
Proof. intros Et R M Hx Hg0 Hg1 Hsoft Hf Hrx Hseg Hb Hby. eapply dlsch_delivers; [exact Et|exact R| |exact Hg0|exact Hg1]. constructor; [exact M|exact Hx|exact Hsoft|exact Hf|exact Hrx|exact Hseg|exact (conj Hb Hby)]. Qed.

(** A block of three octets on two resource blocks, with the coder of [DlschToy]. *)
Definition demo_pdu : pdsch_pdu := mk_pdsch_pdu 3 2 2 12 4 0 1 1 2 0 0.
Definition demo_tb : bytes := [0x11; 0; 0xa5].
Definition demo_gnb_of (tb : bytes) : gnb_harq := mk_gnb_harq (tb ++ replicate 5 0) (replicate 16 0) [replicate 1056 0] 0 demo_pdu.
Definition demo_gnb : gnb_harq := demo_gnb_of demo_tb.
Definition demo_ue : ue_harq := mk_ue_harq 1 [replicate (Z.to_nat 42240) 7] [replicate 1056 9] (mk_seg_vars 0 0 0 0) 0 0 false true false.
Definition demo_dlsch : ue_dlsch := mk_ue_dlsch 24 2 2 1 0 0 106 0 5 0.
Definition demo_v : seg_vars := mk_seg_vars 1 70 7 30.

Lemma demo_tables_fine : tables_ok demo_tables.
Proof. destruct crcTableInit_ok as (t & E & Ht). rewrite demo_tables_ok in E. apply Ok_inj in E as ->. exact Ht. Qed.

Lemma zero_bytes n x : is_byte x -> Forall is_byte (replicate n x).
Proof. apply Forall_replicate. Qed.

Lemma demo_params : dl_params demo_pdu (dlsch_G demo_pdu 0) demo_v 0 40.
Proof.
  destruct (nr_segmentation_params demo_tables 40 2 (mk_seg_vars 0 0 0 0) ltac:(lia) ltac:(by right)) as (v & L & Kp & P & E & _).
  assert (Ev : v = demo_v) by (vm_compute in E; injection E as <-; reflexivity). subst v.
  pose proof (sp_L _ _ _ _ _ P) as EL. pose proof (sp_Kp _ _ _ _ _ P) as EK. vm_compute in EL. subst L. vm_compute in EK. subst Kp.
  constructor.
  - cbn. lia.
  - by right.
  - exact P.
  - exists 5. reflexivity.
  - by left.
  - cbn. lia.
  - vm_compute. congruence.
  - vm_compute. split; congruence.
  - intros r Hr. assert (r = 0) as -> by (cbn in Hr; lia). constructor; try (vm_compute; split; congruence); try (vm_compute; congruence); by right.
Qed.

Lemma demo_ready_of tb : zlen tb = 3 -> Forall is_byte tb -> dl_ready demo_tables (demo_gnb_of tb) tb (replicate 600 0) demo_v 0 40.
Proof.
  intros Hl Hb. destruct tb as [|x [|y [|z [|w tb]]]]; try discriminate Hl; [|unfold zlen in Hl; cbn [length] in Hl; lia]. constructor.
  - constructor.
    + exists (replicate 5 0). split; [reflexivity|]. split; [vm_compute; congruence|]. apply Forall_app. split; [exact Hb|]. apply zero_bytes. unfold is_byte. lia.
    + reflexivity.
    + vm_compute. repeat split; congruence.
    + split; [vm_compute; congruence|]. apply zero_bytes. unfold is_byte. lia.
  - exact demo_params.
  - intros v0. vm_compute. reflexivity.
  - vm_compute. congruence.
  - constructor; [|constructor]. apply zero_bytes. unfold is_byte. lia.
  - constructor; [|constructor]. vm_compute. congruence.
  - constructor; [|constructor]. right. vm_compute. reflexivity.
  - vm_compute. congruence.
Qed.

Lemma demo_ready : dl_ready demo_tables demo_gnb demo_tb (replicate 600 0) demo_v 0 40.
Proof. apply demo_ready_of; [reflexivity|]. repeat constructor; vm_compute; congruence. Qed.

Lemma demo_enough tb : toy_enough 2 7 30 26 (seg_positions (demo_gnb_of tb) demo_v 0).
Proof.
  assert (Hb : forallb (fun i => negb (usable 30 26 i) || bool_decide (i ∈ seg_positions (demo_gnb_of tb) demo_v 0)) (seqZ 0 70) = true)
    by (vm_compute; reflexivity).
  intros i Hi Hu. change (K_of 2 7) with 70 in Hi. rewrite forallb_forall in Hb. specialize (Hb i).
  rewrite Hu in Hb. cbn [negb orb] in Hb. eapply bool_decide_eq_true_1, Hb, list_elem_of_In, elem_of_seqZ. lia.
Qed.

Lemma dlsch_roundtrip_witness : exists h' output' ret hu' ds' b',
  @nr_dlsch_encoding (toy_ldpc demo_tables) demo_tables demo_gnb (replicate 600 0) = Ok (0, h', output') /\
  @nr_dlsch_decoding (toy_ldpc demo_tables) 1 demo_tables ((fun z => if z =? 0 then 10 else -10) <$> output') demo_dlsch demo_ue (replicate 20 0)
    (dlsch_G demo_pdu 0) = Ok (ret, hu', ds', b') /\ take 3 b' = demo_tb /\ decodeResult hu' = true.
Proof.
  destruct (@dlsch_roundtrip demo_tables (toy_ldpc demo_tables) (toy_code demo_tables) (toy_decoder demo_tables demo_tables_fine)
    demo_gnb demo_tb (replicate 600 0) demo_v 0 40 10 (fun z => if z =? 0 then 10 else -10) 0 demo_dlsch demo_ue (replicate 20 0))
    as (h' & o & ret & hu' & ds' & b' & H1 & H2 & H3 & H4 & _).
  - exact demo_tables_ok.
  - exact demo_ready.
  - constructor; try reflexivity; [by left|vm_compute; split; congruence].
  - lia.
  - reflexivity.
  - reflexivity.
  - intros r Hr. assert (r = 0) as -> by (cbn in Hr; lia). split; [vm_compute; reflexivity|exact (demo_enough demo_tb)].
  - reflexivity.
  - intros k Hk. assert (k = 0) as -> by (cbn in Hk; lia). split; eexists; (split; [reflexivity|]); vm_compute; congruence.
  - vm_compute. congruence.
  - vm_compute. congruence.
  - apply zero_bytes. unfold is_byte. lia.
  - exists h', o, ret, hu', ds', b'. split; [exact H1|]. split; [exact H2|]. split; [exact H3|]. exact H4.
Defined.
