(* ===== verification/DlschSound.v ===== *)
(** * The decoder of the downlink shared channel on any soft values

    Whatever arrives, [nr_dlsch_decoding] returns, and what it accepts has passed the CRC of the
    transport block and is not all zeros; unless the rate matching refuses its parameters, when the
    join never ends. *)

From S2P Require Import Prelude RlcPdu Crc CrcProps Tbs Segmentation SegmentationProps RateMatch RateMatchProps Dlsch DlschTx DlschRx DlschLink DlschToy DlschProps.

Import Crc Tbs Segmentation RateMatch Dlsch.

(** The test for zeros says what it looks at. *)
Lemma all_zero_total b sz : 0 <= sz -> sz + 1 < zlen b ->
  exists z, all_zero b sz = Ok z /\ (z = false -> ~ Forall (fun x => x = 0) (take (Z.to_nat sz + 2) b)).
Proof.
  intros Hsz Hb. assert (Hall : forall i x, 0 <= i < sz + 2 -> b !! Z.to_nat i = Some x -> x <> 0 -> ~ Forall (fun x => x = 0) (take (Z.to_nat sz + 2) b)).
  { intros i x Hi Hx Nx Hf. apply Nx. apply (Forall_lookup_1 (fun x => x = 0) _ (Z.to_nat i) x Hf). rewrite lookup_take_lt by lia. exact Hx. }
  unfold all_zero. destruct (rd_ok b sz) as (x & -> & Hx); [lia|]. rewrite bind_Ok. destruct (Z.eqb_spec x 0) as [->|Nx].
  2: { exists false. split; [done|]. intros _. apply (Hall sz x); [lia|done|done]. }
  destruct (rd_ok b (sz + 1)) as (y & -> & Hy); [lia|]. rewrite bind_Ok. destruct (Z.eqb_spec y 0) as [->|Ny].
  2: { exists false. split; [done|]. intros _. apply (Hall (sz + 1) y); [lia|done|done]. }
  destruct (zero_run_spec (Z.to_nat sz) b 0 sz) as (j & -> & Hj & _ & Hstop); [lia|lia|lia|]. rewrite bind_Ok. eexists. split; [reflexivity|].
  intros E. apply Z.eqb_neq in E. destruct (Hstop ltac:(lia)) as (z & Hz & Nz). apply (Hall j z); [lia|done|done].
Qed.

Section Sound.

Context (t : crc_tables) (Ht : tables_ok t) `{LdpcDecoder t}.
Context (h : gnb_harq) (v : seg_vars) (L Kp : Z).
#[local] Abbreviation p := (rel15 h).
#[local] Abbreviation G := (dlsch_G p (unav_res h)).
Context (P : dl_params p G v L Kp).
#[local] Abbreviation BG := (ldpcBaseGraph p).
#[local] Abbreviation E := (E_of G (C v) (nrOfLayers p * qamModOrder p)).
#[local] Abbreviation off := (off_of G (C v) (nrOfLayers p * qamModOrder p)).
#[local] Abbreviation A := (8 * TBSize p).
#[local] Abbreviation n := (lenWithCrc 1 A / C v / 8).
Context (ds : ue_dlsch) (M : rx_match ds p).
Context (llr : list Z) (Hllr : G <= zlen llr).
#[local] Abbreviation kc := (if d_ldpcBaseGraph ds =? 2 then 52 else 68).
#[local] Abbreviation max := (max_ldpc_iterations ds).

(** The sizes, with a transport block of zeros in the place of the one that was sent. *)
Lemma sizes : 1 <= C v /\ 0 <= n /\ lenWithCrc 1 A = 8 * n * C v /\ Kp = L + 8 * n /\ L = (if C v >? 1 then 24 else 0) /\
  Kp <= K v <= 8448 /\ F v = K v - Kp /\ payload_len v (K v / 8) = n /\ lenWithCrc (C v) A = Kp /\ 24 <= Kp /\ Kp mod 8 = 0 /\ 24 <= lenWithCrc 1 A < 2 ^ 31.
Proof.
  set (a := replicate (Z.to_nat (TBSize p)) 0). pose proof (dl_size _ _ _ _ _ P) as Hs.
  assert (Hl : zlen a = TBSize p) by (unfold zlen, a; rewrite length_replicate; lia).
  destruct (block_sizes p G v L Kp P a Hl) as (H1' & H2 & H3 & H4 & H5 & H6 & H7 & _). pose proof (len_with_crc p G v L Kp P a Hl) as H8.
  pose proof (payload_ok h v L Kp P a Hl) as H9. destruct (Kp_octets h v L Kp P a Hl) as [H10 H11]. rewrite Hl in *.
  assert (24 <= lenWithCrc 1 A < 2 ^ 31) by (unfold lenWithCrc; change (1 >? 1) with false; cbv iota; case_if; lia). done.
Qed.

(** ** One segment *)

Definition seg_buffers (hu : ue_harq) (k : Z) : Prop :=
  (exists d, ud hu !! Z.to_nat k = Some d /\ N_of BG (Zout v) <= zlen d /\ Forall int16 d) /\
  exists buf, uc hu !! Z.to_nat k = Some buf /\ 1056 <= zlen buf /\ Forall is_byte buf.

(** What a finished job says of the buffer of its segment. *)
Record job_end (hu : ue_harq) (k : Z) (job : rdata) : Prop := {
  je_segment : segment_r job = k; je_offset : offset job = k * n; je_bytes : Kr_bytes job = K v / 8; je_completed : completed job = true;
  je_content : exists buf, uc hu !! Z.to_nat k = Some buf /\ 1056 <= zlen buf /\ Forall is_byte buf /\
    (decodeIterations job <= max -> 0 <= decodeIterations job /\ check_crc t buf Kp (crcType (C v) A) = Ok 1) }.

Lemma process_any r hu R : 0 <= r < C v -> useg hu = v -> seg_buffers hu r ->
  exists d' c' ab job, nr_processDLSegment ds llr kc hu
      (mk_rdata (mk_dec_params (d_ldpcBaseGraph ds) (Zout v) R max 0 0) r (E r) (off r) (r * n) (Z.shiftr (K v) 3) 0 false) =
      Ok (mk_ue_harq (first_rx hu) (<[Z.to_nat r := d']> (ud hu)) (<[Z.to_nat r := c']> (uc hu)) v (DLround hu) (llrLen hu)
            (decodeResult hu) (busy hu) ab, job) /\
    forall hu', uc hu' !! Z.to_nat r = Some c' -> job_end hu' r job.
Proof.
  intros Hr Eu ((d & Hd & Hdl & Hdi) & buf & Hbuf & Hbl & Hbb). destruct sizes as (HC1 & Hn & HB & HK & HL & HKK & HF' & Hpl & Hlen & HKp & HKm & _).
  destruct (share_facts h v L Kp P r Hr) as (Hoff & HE & Hsu & Hle & Hmod). destruct (filler_facts h v L Kp P) as (HF & HFo & HFN & HZ & HNcb & Eu32).
  pose proof (C_range h v L Kp P) as HC. assert (Eu8 : u8 (C v) = C v) by (apply Z.mod_small; lia).
  destruct (deinterleaving_spec (E r) (qamModOrder p) (dl_Qm _ _ _ _ _ P) HE Hmod (drop (Z.to_nat (off r)) llr) (replicate (Z.to_nat (E r)) 0)) as (w & Ew & Hwl & _).
  { unfold zlen in *. rewrite length_drop. lia. } { unfold zlen. rewrite length_replicate. lia. }
  destruct (rate_unmatching_spec _ _ _ _ _ (first_rx hu) _ _ _ d w (dl_rm _ _ _ _ _ P r Hr)) as (d' & Ed & Hdl' & _);
    [lia|unfold zlen; rewrite Hwl, length_replicate; lia|done|].
  assert (Ekc : kc * Zout v = N_of BG (Zout v) + 2 * Zout v /\ K v <= kc * Zout v).
  { rewrite (sp_K _ _ _ _ _ (dl_seg _ _ _ _ _ P)), (rm_bg _ _ M). unfold N_of. destruct (dl_BG _ _ _ _ _ P) as [-> | ->];
    [change (1 =? 2) with false; change (1 =? 1) with true|change (2 =? 2) with true; change (2 =? 1) with false]; cbv iota; lia. }
  destruct (llr_input_spec v kc d' (N_of BG (Zout v)) HF HFo HZ (proj1 Ekc) (proj2 Ekc) ltac:(lia)) as (l & El & Hll & _).
  unfold nr_processDLSegment. rewrite Eu. cbn [r_params segment_r r_E r_off offset Kr_bytes dp_BG dp_Z dp_R dp_numMaxIter].
  rewrite slice_ok, bind_Ok by lia. rewrite take_ge by (rewrite length_drop; unfold zlen; lia).
  rewrite (rm_qm _ _ M), Ew, bind_Ok, (rd_Some (ud hu) r d), bind_Ok by (lia || exact Hd).
  rewrite (rm_lbrm _ _ M), (rm_rv _ _ M), Eu8, Eu32. rewrite (rm_bg _ _ M) in El |- *. rewrite Ed, bind_Ok.
  apply lookup_lt_Some in Hd. rewrite wr_ok, bind_Ok by (unfold zlen; lia).
  change (0 =? -1) with false. cbv iota. rewrite El, bind_Ok. cbv zeta. cbn [abort_decode uc ud first_rx DLround llrLen decodeResult busy].
  rewrite (rm_tbs _ _ M), Hlen. set (dp := mk_dec_params BG (Zout v) R max Kp (crcType (C v) A)).
  destruct (ldpc_decode dp l (abort_decode hu)) as [[it out] ab] eqn:Edec.
  assert (EK : Z.shiftr (K v) 3 = K v / 8) by (by rewrite Z.shiftr_div_pow2 by lia). rewrite EK.
  assert (HK8 : 0 <= K v / 8 <= 1056) by (split; [apply Z.div_pos; lia|apply Z.div_le_upper_bound; lia]).
  destruct (Z.leb_spec it max) as [Hit|Hit].
  - destruct (decode_checked dp l (abort_decode hu) it out ab (dl_BG _ _ _ _ _ P) HZ Hll Edec Hit) as (Hit0 & Hob & Hol & Hcrc). cbn [dp dp_BG dp_Z dp_E dp_crc_type] in *.
    unfold K_of in Hol. rewrite <- (sp_K _ _ _ _ _ (dl_seg _ _ _ _ _ P)) in Hol.
    rewrite (rd_Some (uc hu) r buf), bind_Ok by (lia || exact Hbuf). rewrite slice_ok, bind_Ok by lia. change (Z.to_nat 0) with 0%nat. rewrite drop_0.
    assert (Hcl : zlen (take (Z.to_nat (K v / 8)) out) = K v / 8) by (unfold zlen in *; rewrite length_take; lia).
    rewrite blit_ok, bind_Ok, Hcl by lia. change (Z.to_nat 0) with 0%nat. rewrite firstn_O, app_nil_l, Z.add_0_l.
    apply lookup_lt_Some in Hbuf. rewrite wr_ok by (unfold zlen; lia). rewrite bind_Ok.
    set (c' := take _ out ++ drop _ buf). exists d', c', ab. eexists. split; [exact eq_refl|]. intros hu' Hu. constructor; try done. exists c'. split; [done|].
    assert (Hcb : Forall is_byte c') by (apply Forall_app; split; [by apply Forall_take|by apply Forall_drop]).
    assert (Hcz : zlen c' = zlen buf) by (unfold c'; rewrite zlen_app, Hcl; unfold zlen; rewrite length_drop; unfold zlen in *; lia).
    split; [lia|]. split; [done|]. intros _. split; [exact Hit0|]. rewrite <- Hcrc.
    assert (HE8 : 8 * (Kp / 8) = Kp) by (Z.to_euclidean_division_equations; lia). assert (Kp / 8 <= K v / 8) by (apply Z.div_le_mono; lia).
    apply check_crc_prefix; [done|done|done|done|lia|lia|lia|]. unfold c'. rewrite take_app_le by (unfold zlen in Hcl; lia). rewrite take_take. f_equal. lia.
  - rewrite bind_Ok. exists d', buf, ab. eexists. rewrite (list_insert_id (uc hu) (Z.to_nat r) buf Hbuf). split; [exact eq_refl|].
    intros hu' Hu. constructor; try done. exists buf. split; [done|]. split; [done|]. split; [done|]. cbn [decodeIterations]. lia.
Qed.

(** ** The jobs *)

Record push_any (hu0 : ue_harq) (r : Z) (st : ue_harq * list rdata * Z * Z) : Prop := {
  pa_seg : useg st.1.1.1 = v;
  pa_kept : busy st.1.1.1 = busy hu0;
  pa_ready : forall k, r <= k < C v -> seg_buffers st.1.1.1 k;
  pa_jobs : zlen st.1.1.2 = r /\ forall k job, 0 <= k -> st.1.1.2 !! Z.to_nat k = Some job -> job_end st.1.1.1 k job;
  pa_offsets : st.1.2 = off r /\ st.2 = r * n }.

Lemma push_any_step hu0 r st : 0 <= r < C v -> push_any hu0 r st -> exists st', push_segment ds llr G kc r st = Ok st' /\ push_any hu0 (r + 1) st'.
Proof.
  destruct st as [[[hu arr] ro] o]. intros Hr [Eu Ebusy Hready [Hal Hjobs] [Ero Eo]]. cbn [fst snd] in *. subst ro o.
  unfold push_segment. rewrite Eu, (rm_qm _ _ M), (rm_nl _ _ M), (get_E_ok h v L Kp P r Hr), bind_Ok.
  destruct (get_R_ok h v L Kp P ds M (E r) (llrLen hu) (DLround hu)) as (R & len & ->). rewrite bind_Ok. cbv zeta.
  set (hu1 := mk_ue_harq _ _ _ _ _ len _ _ _).
  destruct (process_any r hu1 R Hr eq_refl (Hready r ltac:(lia))) as (d' & c' & ab & job & Ep & Hjob).
  rewrite Ep, bind_Ok. eexists. split; [reflexivity|]. assert (EK : Z.shiftr (K v) 3 = K v / 8) by (by rewrite Z.shiftr_div_pow2 by lia).
  destruct (share_facts h v L Kp P r Hr) as (_ & _ & Hs & _). destruct sizes as (_ & _ & _ & _ & _ & _ & _ & Hpl & _).
  constructor; cbn [fst snd useg busy ud uc hu1].
  - done.
  - done.
  - intros k Hk. unfold seg_buffers. cbn [ud uc]. rewrite !list_lookup_insert_ne by lia. apply Hready. lia.
  - split; [rewrite zlen_app, Hal; done|]. intros k jb Hk Hj. destruct (decide (k = r)) as [->|Nk].
    + rewrite lookup_app_r in Hj by (unfold zlen in Hal; lia). replace (Z.to_nat r - length arr)%nat with 0%nat in Hj by (unfold zlen in Hal; lia).
      injection Hj as <-. apply Hjob. cbn [uc]. apply list_lookup_insert_eq. destruct (Hready r ltac:(lia)) as (_ & buf & Hbuf & _). by apply lookup_lt_Some in Hbuf.
    + assert (Hlt : k < r).
      { apply lookup_lt_Some in Hj. rewrite length_app in Hj. cbn [length] in Hj. unfold zlen in Hal. lia. }
      rewrite lookup_app_l in Hj by (unfold zlen in Hal; lia). destruct (Hjobs k jb Hk Hj) as [? ? ? ? (bu & Hu & ?)]. constructor; try done.
      exists bu. split; [|done]. cbn [uc]. by rewrite list_lookup_insert_ne by lia.
  - rewrite EK, Hpl, Hs. split; [done|]. lia.
Qed.

(** ** The result *)

#[local] Abbreviation B := (lenWithCrc 1 A).
#[local] Abbreviation tb_ok b := (check_crc t b B (crcType 1 A) = Ok 1).

Lemma copy_any hu job k b cnt : 0 <= k < C v -> job_end hu k job -> C v * n <= zlen b -> Forall is_byte b ->
  exists b' cnt', copy_segment v (uc hu) max job b cnt = Ok (b', cnt') /\ zlen b' = zlen b /\ Forall is_byte b' /\
    (cnt' = cnt \/ cnt' = cnt + 1 /\ 0 <= decodeIterations job <= max /\ (C v = 1 -> tb_ok b')).
Proof.
  intros Hk [Es Eo Eb _ (buf & Hu & Hbl & Hby & Hck')] Hb Hbb. destruct sizes as (HC1 & Hn & HB & HK & HL & HKK & _ & Hpl & _ & HKp & HKm & HB31). unfold copy_segment.
  destruct (Z.ltb_spec (decodeIterations job) (1 + max)) as [Hit|Hit]; [|exists b, cnt; split; [done|]; split; [done|]; split; [done|]; by left].
  destruct (Hck' ltac:(lia)) as [Hit0 Hck]. rewrite Es, Eo, Eb, Hpl, (rd_Some (uc hu) k buf), bind_Ok by (lia || exact Hu).
  assert (Hn56 : n <= 1056) by (revert HL; destruct (C v >? 1); lia). rewrite slice_ok, bind_Ok by lia. change (Z.to_nat 0) with 0%nat. rewrite drop_0.
  assert (Hsl : zlen (take (Z.to_nat n) buf) = n) by (unfold zlen at 1; rewrite length_take; unfold zlen in Hbl; lia).
  rewrite blit_ok, bind_Ok, Hsl by nia. eexists _, _. split; [reflexivity|]. split; [|split].
  - rewrite !zlen_app, Hsl. unfold zlen. rewrite length_take, length_drop. unfold zlen in Hb. nia.
  - repeat (apply Forall_app; split); [by apply Forall_take|by apply Forall_take|by apply Forall_drop].
  - right. split; [done|]. split; [lia|]. intros E1. assert (Ek : k = 0) by lia. rewrite Ek, Z.mul_0_l, Z.add_0_l. change (Z.to_nat 0) with 0%nat. rewrite firstn_O, app_nil_l.
    assert (EL : L = 0) by (rewrite HL, E1; exact eq_refl). assert (EKB : Kp = B) by (set (m := n) in *; clearbody m; rewrite E1 in HB; lia).
    assert (EnK : B / 8 = n) by (rewrite <- EKB, HK, EL, Z.add_0_l, Z.mul_comm at 1; apply Z.div_mul; lia).
    rewrite E1, EKB in Hck. rewrite EKB in HKK, HKm. rewrite <- Hck.
    apply check_crc_prefix; [done| |done|done|lia| |lia|].
    + apply Forall_app. split; [by apply Forall_take|by apply Forall_drop].
    + rewrite zlen_app, Hsl. unfold zlen. rewrite length_drop. unfold zlen in Hb. nia.
    + rewrite EnK. rewrite take_app_le by (unfold zlen in Hsl; lia). rewrite take_take. f_equal. lia.
Qed.

Lemma result_any b cnt : C v * n <= zlen b -> Forall is_byte b -> (cnt = C v -> C v = 1 -> tb_ok b) ->
  exists ok, tb_result t v A b cnt = Ok ok /\
    (ok = true -> cnt = C v /\ tb_ok b /\ ~ Forall (fun z => z = 0) (take (Z.to_nat (TBSize p) + 2) b)).
Proof.
  intros Hb Hby H1'. destruct sizes as (HC1 & Hn & HB & _ & _ & _ & _ & _ & _ & _ & _ & HB31). pose proof (dl_size _ _ _ _ _ P) as Hs.
  assert (HBm : B mod 8 = 0) by (rewrite HB, <- Z.mul_assoc, Z.mul_comm; apply Z.mod_mul; lia).
  assert (Hbl : B <= 8 * zlen b) by lia. unfold tb_result.
  assert (Hok : exists ok, (if (cnt =? C v) && (C v >? 1) then x ← check_crc t b B (crcType 1 A); mret (negb (x =? 0)) else mret (cnt =? C v)) = Ok ok /\
    (ok = true -> cnt = C v /\ tb_ok b)).
  { destruct (Z.eqb_spec cnt (C v)) as [E1|N1]; cbn [andb]; [|by exists false]. destruct (Z.gtb_spec (C v) 1).
    - destruct (check_crc_total t b B (crcType 1 A) Ht Hby HBm ltac:(lia) Hbl) as [E2|E2]; rewrite E2, bind_Ok; eexists; (split; [exact eq_refl|]); [discriminate|done].
    - exists true. split; [done|]. intros _. split; [done|]. apply H1'; lia. }
  destruct Hok as (ok & -> & Hok). rewrite bind_Ok. destruct ok; [|by exists false]. destruct (Hok eq_refl) as [Hc Htb].
  assert (E8 : A / 8 = TBSize p) by (rewrite Z.mul_comm; apply Z.div_mul; lia). rewrite E8.
  destruct (all_zero_total b (TBSize p)) as (z & -> & Hz); [lia| |].
  { assert (B = A + 16 \/ B = A + 24) by (unfold lenWithCrc; change (1 >? 1) with false; cbv iota; case_if; lia). lia. }
  rewrite bind_Ok. eexists. split; [reflexivity|]. intros E1. apply negb_true_iff in E1. split; [done|]. split; [done|]. by apply Hz.
Qed.

(** The block is accepted: it has passed the check; or it is refused. *)
Definition verdict (was_busy : bool) (hu : ue_harq) (ret : Z) (b : bytes) : Prop :=
  (decodeResult hu = true /\ busy hu = false /\ ret <= max /\ tb_ok b /\ ~ Forall (fun z => z = 0) (take (Z.to_nat (TBSize p) + 2) b)) \/
  (decodeResult hu = false /\ busy hu = was_busy /\ ret = max + 1).

Record post_any (hu : ue_harq) (dd : ue_dlsch) (b0 : bytes) (k : Z) (st : ue_harq * ue_dlsch * bytes * Z) : Prop := {
  pp_count : st.2 <= k;
  pp_len : zlen st.1.2 = zlen b0 /\ Forall is_byte st.1.2;
  pp_before : k < C v -> st.1.1 = (hu, dd);
  pp_after : k = C v -> verdict (busy hu) st.1.1.1 (last_iteration_cnt st.1.1.2) st.1.2 }.

Lemma post_any_step hu dd b0 k job st : max_ldpc_iterations dd = max -> TBS dd = A -> useg hu = v -> 0 <= k < C v ->
  C v * n <= zlen b0 -> job_end hu k job -> post_any hu dd b0 k st ->
  exists st', nr_ue_postDecode t job (k =? C v - 1) st = Ok st' /\ post_any hu dd b0 (k + 1) st'.
Proof.
  destruct st as [[[h' d'] b] cnt]. intros Emax Etbs Eu Hk Hroomb Hjob [Ec [Hbl Hby] Hbef _]. cbn [fst snd] in *. specialize (Hbef ltac:(lia)).
  injection Hbef as -> ->. unfold nr_ue_postDecode. rewrite Emax, Eu, Etbs.
  destruct (copy_any hu job k b cnt Hk Hjob ltac:(lia) Hby) as (b' & cnt' & -> & Hbl' & Hby' & Hc'). rewrite bind_Ok.
  destruct (Z.eqb_spec k (C v - 1)) as [Ek|Ek]; cbn [negb].
  - destruct (result_any b' cnt') as (ok & -> & Hok); [lia|done| |].
    { intros E1 E2. destruct Hc' as [Hc'|(_ & _ & Hc')]; [lia|by apply Hc']. }
    rewrite bind_Ok. eexists. split; [reflexivity|]. constructor; cbn [fst snd]; [lia|split; [lia|done]|lia|]. intros _.
    pose proof (rm_iter _ _ M) as Hmax. destruct ok; [left|right; split; [done|]; split; [done|]; cbn [last_iteration_cnt set_iterations]; unfold u8; rewrite Z.mod_small; lia]. destruct (Hok eq_refl) as (E1 & Htb & Hz). split; [done|]. split; [done|]. split; [|done].
    cbn [last_iteration_cnt set_iterations]. pose proof (rm_iter _ _ M). unfold u8. destruct Hc' as [Hc'|(_ & Hit & _)]; [lia|]. rewrite Z.mod_small; lia.
  - eexists. split; [reflexivity|]. constructor; cbn [fst snd]; [lia|split; [lia|done]|done|lia].
Qed.

(** ** The whole decoder *)

Context (Hv : forall v0, nr_segmentation t None B BG v0 = Ok (seg_Kb B BG, v, None)).

(** The buffers of a HARQ process, in a first reception or a later one. *)
Definition harq_buffers (hu : ue_harq) : Prop := (first_rx hu = 1 \/ useg hu = v) /\ forall k, 0 <= k < C v ->
  (exists d, ud hu !! Z.to_nat k = Some d /\ zlen d = 5 * 8448 /\ Forall int16 d) /\
  exists buf, uc hu !! Z.to_nat k = Some buf /\ 1056 <= zlen buf /\ Forall is_byte buf.

Lemma N_fits : N_of BG (Zout v) <= 5 * 8448.
Proof.
  pose proof (dl_size _ _ _ _ _ P) as Hs. apply (N_room h v L Kp P (replicate (Z.to_nat (TBSize p)) 0)). unfold zlen. rewrite length_replicate. lia.
Qed.

Lemma new_block_any hu dd : TBS dd = A -> d_ldpcBaseGraph dd = BG -> d_Nl dd = nrOfLayers p -> harq_buffers hu ->
  exists hu', new_block t dd hu = Ok (true, hu') /\ useg hu' = v /\ busy hu' = busy hu /\ forall k, 0 <= k < C v -> seg_buffers hu' k.
Proof.
  intros Et Eb El [Hf Hb]. unfold new_block. pose proof N_fits as HN. destruct (Z.eqb_spec (first_rx hu) 1) as [E1|N1].
  - rewrite Et, Eb, El, Hv, bind_Ok, Z.gtb_ltb, (proj2 (Z.ltb_ge _ _) (dl_count _ _ _ _ _ P)). cbn [ud].
    destruct (clear_buffers h v L Kp P hu) as (x' & -> & Hx').
    { intros k Hk. destruct (Hb k Hk) as ((d & H1' & H2' & _) & buf & H3' & H4' & _). split; [by exists d|by exists buf]. }
    rewrite bind_Ok. eexists. split; [reflexivity|]. split; [done|]. split; [done|]. intros k Hk. split.
    + exists (replicate (Z.to_nat (5 * 8448)) 0). split; [by apply Hx'|]. split; [unfold zlen; rewrite length_replicate; lia|]. apply Forall_replicate. unfold int16. lia.
    + exact (proj2 (Hb k Hk)).
  - exists hu. split; [done|]. split; [by destruct Hf|]. split; [done|]. intros k Hk. destruct (Hb k Hk) as ((d & H1' & H2' & H3') & Hc). split; [|done].
    exists d. split; [done|]. split; [lia|done].
Qed.

Lemma decoding_any spin hu b : harq_buffers hu -> C v <= a_segments (nrOfLayers p) (number_rbs ds) -> B <= 8 * zlen b -> Forall is_byte b ->
  exists ret hu' dd' b', nr_dlsch_decoding (S spin) t llr ds hu b G = Ok (ret, hu', dd', b') /\ zlen b' = zlen b /\ verdict (busy hu) hu' ret b'.
Proof.
  intros Hb Hseg Hbl Hby. destruct sizes as (HC1 & Hn & HB & _). unfold nr_dlsch_decoding.
  assert (Edm : ((d_dmrsConfigType ds =? 0) || (d_dmrsConfigType ds =? 1)) = true) by (destruct (rm_dmrs _ _ M) as [-> | ->]; done).
  rewrite Edm. cbn [negb]. set (dd := set_iterations ds (max + 1)).
  destruct (new_block_any hu dd (rm_tbs _ _ M) (rm_bg _ _ M) (rm_nl _ _ M) Hb) as (h1 & -> & E1 & E2 & Hready). rewrite bind_Ok. cbn [negb].
  cbn [d_Nl number_rbs d_ldpcBaseGraph max_ldpc_iterations dd set_iterations]. rewrite E1, (rm_nl _ _ M), Z.gtb_ltb, (proj2 (Z.ltb_ge _ _) Hseg). fold dd.
  set (h2 := mk_ue_harq _ _ _ v _ _ _ _ false). change (push_segment dd) with (push_segment ds).
  destruct (for_loop_inv (push_any h2) 0 (C v) (push_segment ds llr G kc) (h2, [], 0, 0)) as ([[[h3 arr] ro] o] & -> & [Eu Ebusy _ [Hal Hjobs] _]).
  { lia. }
  { constructor; try done. split; [symmetry; apply off_0; lia|done]. }
  { intros r st Hr. by apply push_any_step. }
  rewrite bind_Ok. cbn [fst snd] in *.
  assert (Hall : Forall (fun job => completed job = true) arr).
  { apply Forall_lookup_2. intros i job Hi. specialize (Hjobs (Z.of_nat i) job ltac:(lia)).
    rewrite Nat2Z.id in Hjobs. by destruct (Hjobs Hi). }
  rewrite (join_ok spin arr Hall), bind_Ok.
  match goal with |- context [for_loop 0 (C v) ?body _] => destruct (for_loop_inv (post_any h3 dd b) 0 (C v) body (h3, dd, b, 0))
    as ([[[h4 d4] b4] cnt] & -> & [_ [Hl4 _] _ Haft]) end.
  - lia.
  - constructor; [done|done|done|lia].
  - intros k st Hk Hinv. destruct (rd_ok arr k) as (job & -> & Hj); [lia|]. rewrite bind_Ok. apply post_any_step; try done; [exact (rm_tbs _ _ M)|lia|]. apply Hjobs; [lia|done].
  - rewrite bind_Ok. cbn [fst snd] in *. exists (last_iteration_cnt d4), h4, d4, b4. split; [reflexivity|]. split; [done|].
    specialize (Haft eq_refl). assert (Eb : busy h3 = busy hu) by (rewrite Ebusy; exact E2). rewrite Eb in Haft. exact Haft.
Qed.

End Sound.

(** ** A retransmission with too few resources *)

Section Hang.

Context `{Ldpc} (t : crc_tables) (v : seg_vars) (ds : ue_dlsch) (G : Z) (llr : list Z).
#[local] Abbreviation Q := (d_Nl ds * d_qamModOrder ds).
#[local] Abbreviation E := (E_of G (C v) Q).
#[local] Abbreviation off := (off_of G (C v) Q).
#[local] Abbreviation Fo := (u32 (K v - F v - 2 * Zout v)).
#[local] Abbreviation BG := (d_ldpcBaseGraph ds).

(** The share of every segment ends before the fillers of its circular buffer start. *)
Record small_grant : Prop := {
  sg_count : 1 <= C v < 256;
  sg_Qm : good_Qm (d_qamModOrder ds);
  sg_layers : 0 < d_Nl ds;
  sg_BG : BG = 1 \/ BG = 2;
  sg_rv : 0 <= d_rv ds < 4;
  sg_Z : 0 < Zout v;
  sg_G : 0 <= G < 2 ^ 30 /\ G <= zlen llr;
  sg_small : forall r, 0 <= r < C v -> E r < Fo }.

Context (Sg : small_grant).

Lemma unmatching_refuses d w r clear : 0 <= r < C v ->
  nr_rate_matching_ldpc_rx (d_tbslbrm ds) BG (Zout v) d w (u8 (C v)) (d_rv ds) clear (E r) (F v) Fo = Ok (-1, d).
Proof.
  intros Hr. destruct Sg. assert (Eu : u8 (C v) = C v) by (apply Z.mod_small; lia). rewrite Eu. unfold nr_rate_matching_ldpc_rx.
  rewrite (proj2 (Z.eqb_neq (C v) 0)) by lia. destruct (k0_index BG (d_rv ds) sg_BG0 sg_rv0) as (row & k & E1 & E2 & _). unfold rm_start.
  rewrite E1, bind_Ok, E2, bind_Ok.
  assert (EN : ((if BG =? 1 then 66 * Zout v else 50 * Zout v) =? 0) = false) by (apply Z.eqb_neq; case_if; lia). rewrite EN.
  rewrite bind_Ok. rewrite (proj2 (Z.gtb_lt Fo (E r)) (sg_small0 r Hr)). exact eq_refl.
Qed.

(** The jobs that were pushed and never complete. *)
Definition stuck (r : Z) (st : ue_harq * list rdata * Z * Z) : Prop :=
  useg st.1.1.1 = v /\ C v <= zlen (ud st.1.1.1) /\ (zlen st.1.1.2 = r /\ Forall (fun job => completed job = false) st.1.1.2) /\ st.1.2 = off r.

Lemma push_stuck kc r st : 0 <= r < C v -> stuck r st -> exists st', push_segment ds llr G kc r st = Ok st' /\ stuck (r + 1) st'.
Proof.
  destruct st as [[[hu arr] ro] o]. intros Hr (Eu & Hud & (Hal & Hst) & Ero). cbn [fst snd] in *. subst ro. pose proof Sg as S'. destruct S'.
  assert (HQm : 0 < d_qamModOrder ds) by (unfold good_Qm in sg_Qm0; lia). assert (HQ : 0 < Q) by nia.
  assert (Hs : off (r + 1) = off r + E r) by (apply off_succ; lia). pose proof (off_total G (C v) Q ltac:(lia) HQ) as Htot.
  pose proof (off_mono G (C v) Q ltac:(lia) ltac:(lia) HQ (r + 1) (C v) ltac:(lia)) as Hmono.
  pose proof (off_nonneg G (C v) Q ltac:(lia) ltac:(lia) HQ r ltac:(lia)) as Hoff. pose proof (E_nonneg G (C v) Q ltac:(lia) ltac:(lia) HQ r) as HE.
  unfold push_segment. rewrite Eu, nr_get_E_spec, bind_Ok by lia.
  destruct (k0_index BG (d_rv ds) sg_BG0 sg_rv0) as (row & k & E1 & E2 & _). unfold nr_get_R_ldpc_decoder.
  assert (EBG : ((BG =? 1) || (BG =? 2)) = true) by (destruct sg_BG0 as [-> | ->]; done). rewrite EBG. cbn [negb]. rewrite E1, bind_Ok, E2, bind_Ok. cbv zeta. mon.
  unfold nr_processDLSegment. cbn [r_params segment_r r_E r_off offset Kr_bytes dp_BG dp_Z dp_R dp_numMaxIter useg ud first_rx].
  rewrite slice_ok, bind_Ok by lia. rewrite take_ge by (rewrite length_drop; unfold zlen; lia).
  destruct (deinterleaving_spec (E r) (d_qamModOrder ds) sg_Qm0 HE (E_of_mod G (C v) (d_qamModOrder ds) (d_Nl ds) r HQm)
    (drop (Z.to_nat (off r)) llr) (replicate (Z.to_nat (E r)) 0)) as (w & -> & _).
  { unfold zlen in *. rewrite length_drop. lia. } { unfold zlen. rewrite length_replicate. lia. }
  rewrite bind_Ok. destruct (rd_ok (ud hu) r) as (d & -> & Hd); [lia|]. rewrite bind_Ok, unmatching_refuses, bind_Ok, wr_ok, bind_Ok by lia.
  change (-1 =? -1) with true. cbv iota. rewrite bind_Ok. eexists. split; [reflexivity|]. unfold stuck. cbn [fst snd useg ud]. split; [done|].
  split; [unfold zlen in *; rewrite length_insert; lia|]. split; [|lia]. rewrite zlen_app, Hal. split; [done|]. apply Forall_app. split; [done|by repeat constructor].
Qed.

End Hang.

(** ** The main results *)


(** [C20] A retransmission on too few resources hangs the receiver: when the share of every segment is shorter than its
    bits in front of the fillers, the rate matching refuses, the jobs return without completing, and
    [join_task_ans] never ends, however long it spins. *)
Theorem dlsch_small_grant_hangs `{Ldpc} t v ds G llr hu b : small_grant v ds G llr -> first_rx hu <> 1 -> useg hu = v -> C v <= zlen (ud hu) ->
  d_dmrsConfigType ds = 0 \/ d_dmrsConfigType ds = 1 -> C v <= a_segments (d_Nl ds) (number_rbs ds) ->
  forall spin, nr_dlsch_decoding spin t llr ds hu b G = Err Fuel.
Proof.
  intros Sg Hf Eu Hud Hdm Hseg spin. unfold nr_dlsch_decoding.
  assert (Edm : ((d_dmrsConfigType ds =? 0) || (d_dmrsConfigType ds =? 1)) = true) by (destruct Hdm as [-> | ->]; done).
  rewrite Edm. cbn [negb]. set (dd := set_iterations ds _). unfold new_block. rewrite (proj2 (Z.eqb_neq _ _) Hf), bind_Ok. cbn [negb].
  cbn [d_Nl number_rbs d_ldpcBaseGraph dd set_iterations]. rewrite Eu, Z.gtb_ltb, (proj2 (Z.ltb_ge _ _) Hseg). fold dd. change (push_segment dd) with (push_segment ds).
  pose proof (sg_count _ _ _ _ Sg) as HC.
  match goal with |- context [for_loop 0 (C v) ?body ?s] => destruct (for_loop_inv (stuck v ds G) 0 (C v) body s) as ([[[h3 arr] ro] o] & -> & _ & _ & (Hal & Hst) & _) end.
  - lia.
  - split; [done|]. split; [done|]. split; [done|]. symmetry. apply off_0. lia.
  - intros r st Hr. by apply push_stuck.
  - cbn [fst snd] in *. rewrite bind_Ok. destruct arr as [|job arr]; [unfold zlen in Hal; cbn [length] in Hal; lia|].
    rewrite (join_spins spin _ _ 0%nat); [done|cbn [length]; lia|]. rewrite fmap_cons. inversion Hst as [|? ? Hj ?]; subst. cbn. by rewrite Hj.
Qed.

(** ** Witnesses *)


(** The block of [demo_gnb] again, on 24 bits instead of 26 or more. *)
Definition demo_retx : ue_harq := mk_ue_harq 0 [replicate (Z.to_nat 42240) 7] [replicate 1056 9] demo_v 1 552 false true false.

Lemma dlsch_small_grant_hangs_witness :
  @nr_dlsch_decoding (toy_ldpc demo_tables) 1000 demo_tables (replicate 24 5) demo_dlsch demo_retx (replicate 20 0) 24 = Err Fuel.
Proof.
  apply (@dlsch_small_grant_hangs (toy_ldpc demo_tables) demo_tables demo_v demo_dlsch 24 (replicate 24 5) demo_retx (replicate 20 0)).
  - constructor; [cbn; lia|by left|cbn; lia|by right|cbn; lia|cbn; lia|split; [lia|vm_compute; congruence]|].
    intros r Hr. assert (r = 0) as -> by (cbn in Hr; lia). vm_compute. reflexivity.
  - discriminate.
  - reflexivity.
  - vm_compute. congruence.
  - by left.
  - vm_compute. congruence.
Defined.
