(* ===== verification/LdpcTables.v ===== *)
(** * Tables of the LDPC code

    [src/openair1/PHY/CODING/nrLDPC_encoder/Gen_shift_value.h]: the generator matrices.  For each parity
    row and information column [no_shift_values] is the number of circulant shifts and
    [pointer_shift_values] where they start in [Gen_shift_values].  Of the 51 lifting sizes the
    largest of each of the eight sets is given; the array of a smaller size of the set is
    this one reduced modulo the size.

    [src/openair1/PHY/CODING/nrLDPC_decoder_LYC/bgs/]: the base graphs of the parity check matrices, for
    the eight sets; a row is the list of its columns with their shifts (-1 in the array, for
    an unused column, is left out). *)

From Stdlib Require Import ZArith List.
Import ListNotations.

#[local] Open Scope Z_scope.

Module LdpcTables.

Definition no_shift_values_BG1 : list Z :=
  [4; 3; 3; 3; 3; 3; 3; 3; 3; 3; 3; 3; 3; 3; 3; 3; 3; 3; 3; 3; 3; 3; 5; 4; 4; 4; 3; 4; 4; 3; 3; 4; 4; 4; 4; 4; 3; 4;
   4; 3; 4; 4; 4; 4; 6; 5; 4; 4; 5; 4; 5; 5; 5; 4; 5; 4; 4; 5; 5; 4; 4; 5; 5; 4; 5; 4; 5; 4; 3; 4; 4; 3; 4; 4; 4; 3;
   4; 4; 4; 4; 4; 3; 4; 4; 4; 3; 4; 4; 1; 1; 0; 0; 0; 0; 0; 0; 0; 0; 0; 0; 0; 0; 0; 0; 0; 0; 0; 0; 0; 0; 5; 4; 3; 4;
   3; 3; 3; 3; 3; 3; 3; 3; 4; 3; 3; 3; 4; 3; 3; 3; 3; 4; 1; 0; 0; 0; 0; 0; 1; 0; 0; 0; 1; 1; 0; 1; 0; 0; 0; 1; 1; 0;
   1; 0; 1; 1; 0; 0; 1; 0; 0; 1; 1; 0; 0; 0; 0; 0; 1; 0; 0; 0; 0; 0; 0; 0; 11; 9; 7; 8; 8; 7; 8; 8; 8; 7; 8; 7; 8; 8;
   8; 7; 8; 8; 8; 8; 8; 8; 1; 1; 0; 0; 0; 0; 0; 0; 0; 0; 1; 1; 0; 1; 0; 0; 0; 1; 1; 0; 1; 0; 0; 1; 1; 0; 1; 0; 0; 1;
   1; 0; 0; 0; 0; 0; 1; 0; 0; 0; 0; 0; 0; 0; 10; 8; 7; 7; 6; 7; 7; 6; 6; 7; 7; 7; 8; 7; 6; 7; 8; 6; 7; 7; 7; 8; 1; 1;
   0; 0; 0; 0; 0; 0; 0; 0; 1; 1; 0; 1; 0; 0; 0; 0; 1; 0; 0; 0; 6; 4; 4; 5; 3; 4; 4; 4; 3; 4; 4; 4; 4; 4; 3; 4; 4; 3;
   4; 4; 5; 4; 1; 0; 0; 0; 0; 0; 0; 0; 0; 0; 0; 0; 1; 0; 0; 1; 1; 1; 0; 0; 0; 1; 6; 5; 3; 4; 4; 3; 4; 4; 4; 3; 5; 4;
   4; 5; 4; 3; 4; 4; 5; 3; 4; 4; 4; 4; 3; 4; 3; 3; 3; 3; 3; 3; 3; 4; 3; 3; 3; 3; 3; 3; 3; 3; 4; 3; 1; 0; 0; 0; 0; 0;
   0; 0; 0; 0; 0; 0; 0; 0; 1; 0; 1; 1; 0; 0; 0; 1; 0; 1; 0; 0; 0; 0; 0; 0; 0; 0; 0; 0; 1; 1; 0; 0; 0; 0; 1; 1; 0; 0;
   1; 1; 0; 0; 0; 0; 0; 1; 1; 0; 1; 0; 0; 0; 0; 0; 0; 0; 0; 0; 0; 0; 5; 3; 3; 4; 3; 3; 3; 3; 3; 4; 3; 4; 3; 3; 3; 3;
   3; 3; 3; 3; 3; 3; 0; 1; 0; 0; 0; 1; 0; 0; 0; 0; 0; 0; 0; 0; 0; 0; 1; 0; 0; 0; 1; 1; 1; 0; 0; 0; 0; 0; 0; 0; 0; 0;
   0; 0; 1; 1; 0; 0; 0; 1; 0; 0; 0; 0; 0; 1; 1; 0; 0; 0; 0; 0; 0; 0; 1; 0; 0; 0; 0; 0; 0; 0; 1; 0; 0; 0; 5; 3; 3; 4;
   4; 3; 3; 3; 3; 3; 3; 4; 3; 3; 3; 3; 3; 3; 3; 3; 3; 3; 0; 1; 0; 0; 0; 0; 1; 1; 0; 0; 0; 0; 0; 0; 1; 0; 0; 0; 0; 0;
   0; 0; 1; 0; 1; 0; 1; 0; 0; 0; 0; 0; 0; 0; 0; 0; 0; 1; 0; 0; 0; 0; 0; 0; 0; 1; 0; 0; 0; 0; 1; 0; 1; 0; 0; 0; 0; 0;
   0; 0; 0; 0; 0; 0; 0; 0; 1; 0; 0; 0; 1; 0; 0; 0; 0; 0; 0; 0; 0; 0; 0; 0; 0; 0; 0; 1; 0; 1; 5; 5; 3; 4; 4; 3; 4; 4;
   4; 3; 4; 4; 4; 4; 5; 3; 4; 4; 5; 3; 4; 4; 7; 5; 4; 4; 5; 4; 5; 5; 5; 4; 6; 4; 4; 6; 5; 4; 4; 5; 5; 4; 5; 4; 9; 8;
   6; 7; 7; 6; 7; 8; 7; 6; 7; 7; 7; 7; 7; 6; 7; 7; 7; 6; 7; 7; 7; 5; 4; 4; 5; 4; 5; 5; 5; 4; 5; 4; 5; 5; 6; 4; 4; 5;
   5; 4; 5; 4; 0; 1; 1; 0; 0; 0; 0; 0; 0; 0; 0; 1; 0; 0; 0; 0; 0; 0; 0; 0; 0; 1; 1; 0; 0; 0; 0; 0; 0; 1; 0; 0; 0; 0;
   0; 0; 0; 1; 0; 1; 0; 0; 0; 0; 4; 4; 3; 3; 3; 3; 4; 3; 3; 3; 3; 3; 4; 3; 3; 3; 3; 3; 3; 3; 3; 3; 1; 0; 0; 0; 0; 0;
   0; 0; 0; 0; 0; 0; 0; 0; 1; 1; 0; 0; 1; 0; 0; 0; 5; 5; 4; 4; 3; 4; 4; 3; 3; 4; 4; 4; 4; 5; 3; 4; 4; 3; 4; 4; 4; 4;
   1; 0; 0; 0; 0; 0; 0; 0; 0; 1; 1; 0; 1; 0; 0; 0; 0; 0; 0; 0; 0; 0; 0; 1; 0; 1; 0; 0; 0; 1; 0; 0; 0; 0; 0; 0; 0; 0;
   0; 0; 0; 1; 0; 0; 1; 0; 0; 0; 0; 0; 0; 0; 1; 0; 0; 0; 0; 0; 0; 0; 0; 1; 0; 0; 0; 0; 0; 1; 0; 1; 0; 0; 0; 0; 0; 1;
   0; 0; 0; 0; 0; 0; 0; 0; 1; 0; 0; 0; 7; 5; 4; 4; 6; 4; 5; 5; 5; 4; 5; 4; 4; 5; 5; 4; 4; 5; 5; 4; 5; 4; 5; 5; 3; 4;
   4; 3; 4; 4; 4; 3; 4; 4; 4; 4; 4; 3; 5; 4; 5; 3; 4; 4; 5; 3; 3; 3; 3; 3; 3; 4; 3; 4; 3; 3; 3; 3; 3; 3; 3; 3; 3; 3;
   3; 3; 0; 1; 0; 0; 0; 0; 1; 0; 0; 0; 1; 0; 0; 0; 0; 0; 0; 0; 0; 0; 0; 0].

Definition pointer_shift_values_BG1 : list Z :=
  [0; 4; 7; 10; 13; 16; 19; 22; 25; 28; 31; 34; 37; 40; 43; 46; 49; 52; 55; 58; 61; 64; 67; 72; 76; 80; 84; 87; 91;
   95; 98; 101; 105; 109; 113; 117; 121; 124; 128; 132; 135; 139; 143; 147; 151; 157; 162; 166; 170; 175; 179; 184;
   189; 194; 198; 203; 207; 211; 216; 221; 225; 229; 234; 239; 243; 248; 252; 257; 261; 264; 268; 272; 275; 279; 283;
   287; 290; 294; 298; 302; 306; 310; 313; 317; 321; 325; 328; 332; 336; 337; 338; 338; 338; 338; 338; 338; 338; 338;
   338; 338; 338; 338; 338; 338; 338; 338; 338; 338; 338; 338; 338; 343; 347; 350; 354; 357; 360; 363; 366; 369; 372;
   375; 378; 382; 385; 388; 391; 395; 398; 401; 404; 407; 411; 412; 412; 412; 412; 412; 412; 413; 413; 413; 413; 414;
   415; 415; 416; 416; 416; 416; 417; 418; 418; 419; 419; 420; 421; 421; 421; 422; 422; 422; 423; 424; 424; 424; 424;
   424; 424; 425; 425; 425; 425; 425; 425; 425; 425; 436; 445; 452; 460; 468; 475; 483; 491; 499; 506; 514; 521; 529;
   537; 545; 552; 560; 568; 576; 584; 592; 600; 601; 602; 602; 602; 602; 602; 602; 602; 602; 602; 603; 604; 604; 605;
   605; 605; 605; 606; 607; 607; 608; 608; 608; 609; 610; 610; 611; 611; 611; 612; 613; 613; 613; 613; 613; 613; 614;
   614; 614; 614; 614; 614; 614; 614; 624; 632; 639; 646; 652; 659; 666; 672; 678; 685; 692; 699; 707; 714; 720; 727;
   735; 741; 748; 755; 762; 770; 771; 772; 772; 772; 772; 772; 772; 772; 772; 772; 773; 774; 774; 775; 775; 775; 775;
   775; 776; 776; 776; 776; 782; 786; 790; 795; 798; 802; 806; 810; 813; 817; 821; 825; 829; 833; 836; 840; 844; 847;
   851; 855; 860; 864; 865; 865; 865; 865; 865; 865; 865; 865; 865; 865; 865; 865; 866; 866; 866; 867; 868; 869; 869;
   869; 869; 870; 876; 881; 884; 888; 892; 895; 899; 903; 907; 910; 915; 919; 923; 928; 932; 935; 939; 943; 948; 951;
   955; 959; 963; 967; 970; 974; 977; 980; 983; 986; 989; 992; 995; 999; 1002; 1005; 1008; 1011; 1014; 1017; 1020;
   1023; 1027; 1030; 1031; 1031; 1031; 1031; 1031; 1031; 1031; 1031; 1031; 1031; 1031; 1031; 1031; 1031; 1032; 1032;
   1033; 1034; 1034; 1034; 1034; 1035; 1035; 1036; 1036; 1036; 1036; 1036; 1036; 1036; 1036; 1036; 1036; 1036; 1037;
   1038; 1038; 1038; 1038; 1038; 1039; 1040; 1040; 1040; 1041; 1042; 1042; 1042; 1042; 1042; 1042; 1043; 1044; 1044;
   1045; 1045; 1045; 1045; 1045; 1045; 1045; 1045; 1045; 1045; 1045; 1045; 1050; 1053; 1056; 1060; 1063; 1066; 1069;
   1072; 1075; 1079; 1082; 1086; 1089; 1092; 1095; 1098; 1101; 1104; 1107; 1110; 1113; 1116; 1116; 1117; 1117; 1117;
   1117; 1118; 1118; 1118; 1118; 1118; 1118; 1118; 1118; 1118; 1118; 1118; 1119; 1119; 1119; 1119; 1120; 1121; 1122;
   1122; 1122; 1122; 1122; 1122; 1122; 1122; 1122; 1122; 1122; 1122; 1123; 1124; 1124; 1124; 1124; 1125; 1125; 1125;
   1125; 1125; 1125; 1126; 1127; 1127; 1127; 1127; 1127; 1127; 1127; 1127; 1128; 1128; 1128; 1128; 1128; 1128; 1128;
   1128; 1129; 1129; 1129; 1129; 1134; 1137; 1140; 1144; 1148; 1151; 1154; 1157; 1160; 1163; 1166; 1170; 1173; 1176;
   1179; 1182; 1185; 1188; 1191; 1194; 1197; 1200; 1200; 1201; 1201; 1201; 1201; 1201; 1202; 1203; 1203; 1203; 1203;
   1203; 1203; 1203; 1204; 1204; 1204; 1204; 1204; 1204; 1204; 1204; 1205; 1205; 1206; 1206; 1207; 1207; 1207; 1207;
   1207; 1207; 1207; 1207; 1207; 1207; 1207; 1208; 1208; 1208; 1208; 1208; 1208; 1208; 1208; 1209; 1209; 1209; 1209;
   1209; 1210; 1210; 1211; 1211; 1211; 1211; 1211; 1211; 1211; 1211; 1211; 1211; 1211; 1211; 1211; 1211; 1212; 1212;
   1212; 1212; 1213; 1213; 1213; 1213; 1213; 1213; 1213; 1213; 1213; 1213; 1213; 1213; 1213; 1213; 1213; 1214; 1214;
   1215; 1220; 1225; 1228; 1232; 1236; 1239; 1243; 1247; 1251; 1254; 1258; 1262; 1266; 1270; 1275; 1278; 1282; 1286;
   1291; 1294; 1298; 1302; 1309; 1314; 1318; 1322; 1327; 1331; 1336; 1341; 1346; 1350; 1356; 1360; 1364; 1370; 1375;
   1379; 1383; 1388; 1393; 1397; 1402; 1406; 1415; 1423; 1429; 1436; 1443; 1449; 1456; 1464; 1471; 1477; 1484; 1491;
   1498; 1505; 1512; 1518; 1525; 1532; 1539; 1545; 1552; 1559; 1566; 1571; 1575; 1579; 1584; 1588; 1593; 1598; 1603;
   1607; 1612; 1616; 1621; 1626; 1632; 1636; 1640; 1645; 1650; 1654; 1659; 1663; 1663; 1664; 1665; 1665; 1665; 1665;
   1665; 1665; 1665; 1665; 1665; 1666; 1666; 1666; 1666; 1666; 1666; 1666; 1666; 1666; 1666; 1667; 1668; 1668; 1668;
   1668; 1668; 1668; 1668; 1669; 1669; 1669; 1669; 1669; 1669; 1669; 1669; 1670; 1670; 1671; 1671; 1671; 1671; 1671;
   1675; 1679; 1682; 1685; 1688; 1691; 1695; 1698; 1701; 1704; 1707; 1710; 1714; 1717; 1720; 1723; 1726; 1729; 1732;
   1735; 1738; 1741; 1742; 1742; 1742; 1742; 1742; 1742; 1742; 1742; 1742; 1742; 1742; 1742; 1742; 1742; 1743; 1744;
   1744; 1744; 1745; 1745; 1745; 1745; 1750; 1755; 1759; 1763; 1766; 1770; 1774; 1777; 1780; 1784; 1788; 1792; 1796;
   1801; 1804; 1808; 1812; 1815; 1819; 1823; 1827; 1831; 1832; 1832; 1832; 1832; 1832; 1832; 1832; 1832; 1832; 1833;
   1834; 1834; 1835; 1835; 1835; 1835; 1835; 1835; 1835; 1835; 1835; 1835; 1835; 1836; 1836; 1837; 1837; 1837; 1837;
   1838; 1838; 1838; 1838; 1838; 1838; 1838; 1838; 1838; 1838; 1838; 1838; 1839; 1839; 1839; 1840; 1840; 1840; 1840;
   1840; 1840; 1840; 1840; 1841; 1841; 1841; 1841; 1841; 1841; 1841; 1841; 1841; 1842; 1842; 1842; 1842; 1842; 1842;
   1843; 1843; 1844; 1844; 1844; 1844; 1844; 1844; 1845; 1845; 1845; 1845; 1845; 1845; 1845; 1845; 1845; 1846; 1846;
   1846; 1846; 1853; 1858; 1862; 1866; 1872; 1876; 1881; 1886; 1891; 1895; 1900; 1904; 1908; 1913; 1918; 1922; 1926;
   1931; 1936; 1940; 1945; 1949; 1954; 1959; 1962; 1966; 1970; 1973; 1977; 1981; 1985; 1988; 1992; 1996; 2000; 2004;
   2008; 2011; 2016; 2020; 2025; 2028; 2032; 2036; 2041; 2044; 2047; 2050; 2053; 2056; 2059; 2063; 2066; 2070; 2073;
   2076; 2079; 2082; 2085; 2088; 2091; 2094; 2097; 2100; 2103; 2106; 2106; 2107; 2107; 2107; 2107; 2107; 2108; 2108;
   2108; 2108; 2109; 2109; 2109; 2109; 2109; 2109; 2109; 2109; 2109; 2109; 2109].

Definition Gen_shift_values_BG1_Z_256 : list Z :=
  [249; 1; 105; 120; 68; 110; 88; 225; 238; 184; 158; 116; 83; 123; 62; 19; 99; 70; 116; 9; 92; 149; 221; 228; 130;
   103; 176; 242; 58; 172; 94; 228; 38; 135; 109; 219; 85; 190; 101; 245; 8; 141; 218; 108; 224; 210; 194; 131; 224;
   22; 141; 239; 154; 244; 75; 189; 204; 243; 34; 254; 250; 238; 116; 143; 30; 27; 11; 249; 250; 2; 106; 121; 68; 69;
   111; 89; 225; 226; 239; 185; 158; 159; 117; 84; 124; 63; 20; 99; 100; 71; 117; 9; 10; 93; 150; 222; 229; 131; 104;
   177; 243; 58; 59; 173; 95; 228; 229; 39; 136; 109; 110; 220; 86; 190; 191; 102; 246; 8; 9; 142; 219; 109; 225;
   211; 194; 195; 132; 225; 22; 23; 142; 240; 155; 245; 76; 189; 190; 205; 244; 34; 35; 255; 251; 238; 239; 117; 144;
   30; 31; 28; 12; 250; 2; 105; 106; 120; 121; 69; 110; 111; 88; 89; 226; 239; 184; 185; 159; 117; 83; 84; 124; 62;
   63; 19; 20; 100; 71; 116; 117; 10; 92; 93; 149; 150; 222; 228; 229; 130; 131; 104; 176; 177; 242; 243; 59; 173;
   94; 95; 229; 38; 39; 135; 136; 110; 220; 85; 86; 191; 102; 245; 246; 9; 141; 142; 218; 219; 109; 224; 225; 210;
   211; 195; 132; 224; 225; 23; 142; 239; 240; 155; 244; 245; 75; 76; 190; 204; 205; 243; 244; 35; 255; 250; 251;
   239; 116; 117; 143; 144; 31; 28; 11; 12; 250; 2; 106; 120; 121; 69; 111; 88; 89; 226; 239; 185; 159; 117; 83; 84;
   124; 63; 19; 20; 100; 71; 117; 10; 93; 149; 150; 222; 229; 130; 131; 104; 177; 242; 243; 59; 173; 95; 229; 39;
   135; 136; 110; 220; 85; 86; 191; 102; 245; 246; 9; 142; 218; 219; 109; 225; 210; 211; 195; 132; 225; 23; 142; 239;
   240; 155; 245; 75; 76; 190; 205; 243; 244; 35; 255; 251; 239; 117; 143; 144; 31; 28; 11; 12; 156; 101; 108; 116;
   220; 235; 204; 183; 225; 203; 235; 84; 97; 43; 17; 231; 198; 193; 238; 177; 134; 214; 185; 231; 124; 207; 8; 80;
   87; 245; 218; 35; 101; 173; 31; 209; 87; 153; 250; 224; 78; 200; 49; 216; 104; 230; 123; 0; 77; 223; 83; 69; 53;
   246; 83; 137; 0; 98; 27; 13; 103; 190; 48; 63; 102; 149; 113; 109; 97; 231; 2; 145; 142; 126; 122; 182; 21; 27;
   66; 243; 10; 156; 210; 219; 43; 158; 30; 166; 103; 234; 84; 242; 92; 90; 195; 196; 105; 210; 211; 111; 53; 159;
   95; 200; 201; 73; 178; 179; 3; 210; 60; 223; 73; 169; 18; 19; 143; 249; 101; 207; 68; 173; 174; 6; 108; 214; 47;
   152; 153; 4; 109; 110; 84; 190; 55; 161; 101; 206; 207; 250; 100; 77; 182; 183; 134; 239; 240; 206; 56; 213; 62;
   63; 115; 220; 221; 88; 194; 161; 10; 11; 227; 76; 77; 43; 149; 157; 7; 79; 184; 185; 213; 63; 23; 128; 129; 120;
   225; 226; 94; 200; 204; 54; 70; 175; 176; 175; 25; 86; 192; 230; 79; 80; 210; 249; 99; 126; 231; 232; 203; 52; 53;
   93; 199; 209; 58; 59; 195; 44; 45; 179; 29; 116; 222; 209; 58; 59; 7; 113; 126; 232; 224; 73; 74; 101; 139; 245;
   229; 78; 79; 60; 165; 166; 174; 24; 189; 38; 39; 228; 77; 78; 19; 125; 239; 89; 235; 84; 85; 163; 223; 73; 101;
   206; 207; 128; 233; 234; 15; 121; 12; 118; 252; 101; 102; 108; 102; 181; 108; 20; 141; 13; 60; 215; 97; 148; 166;
   159; 48; 57; 245; 15; 16; 253; 24; 101; 128; 116; 143; 76; 64; 90; 91; 106; 133; 84; 111; 40; 221; 247; 248; 234;
   5; 180; 207; 154; 180; 181; 112; 139; 79; 106; 119; 146; 58; 85; 15; 42; 95; 121; 122; 66; 93; 112; 139; 5; 31;
   32; 88; 115; 145; 172; 217; 244; 224; 251; 126; 153; 99; 126; 172; 199; 238; 9; 54; 80; 81; 168; 195; 90; 117;
   224; 250; 251; 34; 61; 131; 158; 105; 131; 132; 215; 242; 81; 108; 186; 212; 213; 97; 124; 241; 12; 82; 4; 30; 31;
   137; 164; 214; 241; 104; 131; 220; 247; 206; 233; 190; 216; 217; 127; 154; 220; 247; 18; 44; 45; 137; 164; 235; 6;
   181; 150; 177; 240; 11; 71; 98; 185; 211; 212; 200; 227; 239; 10; 30; 56; 57; 250; 21; 246; 17; 234; 4; 5; 112;
   139; 139; 166; 26; 52; 53; 23; 50; 7; 34; 77; 159; 41; 20; 31; 233; 6; 55; 56; 64; 168; 183; 176; 130; 131; 173;
   151; 31; 32; 45; 247; 220; 221; 179; 146; 247; 186; 125; 82; 161; 162; 133; 179; 71; 72; 155; 212; 28; 35; 193;
   150; 166; 239; 49; 120; 121; 235; 157; 34; 35; 101; 198; 171; 172; 26; 148; 252; 253; 164; 52; 70; 71; 204; 25;
   171; 31; 17; 0; 1; 194; 31; 84; 85; 204; 46; 217; 51; 138; 251; 252; 11; 50; 96; 97; 61; 57; 44; 45; 179; 206;
   184; 92; 93; 90; 74; 205; 54; 205; 126; 15; 228; 173; 181; 29; 43; 44; 39; 248; 34; 11; 12; 95; 149; 162; 108; 82;
   40; 6; 7; 47; 242; 198; 199; 23; 250; 40; 189; 16; 72; 73; 145; 152; 53; 54; 27; 100; 165; 166; 238; 96; 18; 152;
   218; 58; 59; 64; 33; 143; 8; 9; 114; 25; 168; 169; 188; 65; 141; 142; 62; 32; 148; 133; 134; 118; 55; 148; 202;
   65; 162; 163; 78; 168; 254; 255; 113; 128; 166; 167; 74; 214; 178; 174; 162; 40; 66; 67; 210; 207; 190; 191; 147;
   155; 3; 18; 222; 8; 242; 63; 123; 136; 82; 56; 14; 237; 48; 21; 216; 173; 253; 224; 14; 163; 246; 47; 119; 126;
   28; 1; 74; 140; 212; 70; 248; 126; 192; 33; 7; 117; 239; 48; 88; 255; 143; 162; 39; 116; 6; 122; 108; 92; 29; 122;
   176; 39; 137; 52; 142; 229; 87; 102; 141; 188; 152; 148; 136; 14; 41; 50; 184; 181; 165; 6; 163; 58; 0; 143; 41;
   232; 7; 154; 146; 59; 72; 71; 126; 223; 153; 161; 9; 24; 150; 228; 14; 248; 129; 142; 88; 62; 20; 243; 185; 27;
   222; 179; 3; 230; 20; 169; 252; 53; 125; 132; 34; 7; 80; 146; 218; 76; 254; 216; 132; 198; 39; 13; 123; 245; 46;
   94; 5; 149; 168; 45; 122; 12; 128; 114; 98; 35; 128; 182; 45; 143; 58; 148; 235; 93; 108; 147; 194; 158; 154; 142;
   20; 47; 190; 187; 171; 248; 120; 108; 130; 170; 63; 141; 187; 157; 155; 146; 169; 151; 215; 223; 71; 86; 111; 34;
   76; 54; 191; 204; 150; 124; 82; 49; 85; 89; 28; 241; 235; 65; 36; 82; 231; 58; 115; 187; 194; 96; 69; 142; 208;
   24; 138; 60; 194; 4; 101; 75; 185; 51; 115; 156; 67; 211; 230; 107; 184; 74; 190; 176; 160; 97; 190; 244; 107;
   205; 120; 210; 41; 155; 170; 209; 0; 220; 216; 204; 82; 109; 252; 249; 233; 22; 135; 115; 181; 194; 242; 214; 60;
   24; 103; 193; 127; 164; 180; 62; 0; 8; 112; 126; 127; 75; 117; 94; 95; 85; 232; 245; 191; 165; 123; 89; 90; 130;
   69; 25; 26; 106; 77; 123; 16; 99; 155; 156; 228; 235; 136; 137; 110; 183; 248; 249; 65; 179; 101; 235; 45; 141;
   142; 116; 226; 91; 92; 197; 108; 251; 252; 15; 148; 224; 225; 115; 231; 216; 217; 235; 201; 138; 231; 29; 148;
   245; 246; 161; 251; 81; 82; 196; 211; 249; 250; 83; 41; 5; 1; 245; 123; 149; 150; 37; 34; 17; 18; 3; 11; 114; 115;
   129; 130; 215; 78; 119; 120; 97; 98; 235; 248; 193; 194; 168; 126; 92; 93; 133; 71; 72; 28; 29; 109; 80; 125; 126;
   19; 101; 102; 158; 159; 231; 237; 238; 139; 140; 113; 185; 186; 251; 252; 68; 182; 103; 104; 238; 47; 48; 144;
   145; 72; 119; 229; 94; 95; 200; 111; 254; 255; 18; 150; 151; 227; 228; 119; 118; 233; 234; 219; 220; 204; 141;
   233; 234; 32; 151; 248; 249; 164; 253; 254; 84; 85; 199; 213; 214; 252; 253; 44; 8; 3; 4; 248; 125; 126; 152; 153;
   40; 37; 20; 21; 165; 55; 173; 63; 21; 167; 36; 181; 182; 240; 130; 26; 172; 4; 149; 150; 94; 141; 31; 154; 44;
   100; 246; 74; 220; 32; 178; 255; 144; 145; 39; 185; 234; 124; 191; 80; 81; 15; 161; 242; 132; 32; 178; 181; 71; 8;
   154; 65; 210; 211; 137; 27; 144; 34; 46; 191; 192; 176; 19; 165; 92; 238; 158; 47; 48; 230; 120; 88; 234; 10; 156;
   144; 34; 210; 100; 51; 196; 197; 25; 171; 135; 25; 1; 146; 147; 106; 252; 17; 163; 161; 50; 51; 180; 70; 57; 203;
   134; 23; 24; 24; 170; 140; 30; 126; 15; 16; 110; 0; 47; 193; 140; 30; 194; 84; 57; 203; 155; 44; 45; 70; 216; 160;
   50; 247; 136; 137; 105; 251; 120; 10; 159; 48; 49; 206; 96; 170; 60; 166; 56; 154; 44; 32; 178; 59; 204; 205; 202;
   92; 199; 89; 183; 72; 73; 115; 123; 226; 227; 241; 242; 220; 190; 231; 232; 209; 210; 91; 104; 49; 50; 24; 238;
   204; 205; 245; 183; 184; 140; 141; 221; 192; 237; 238; 131; 213; 214; 14; 15; 87; 93; 94; 251; 252; 225; 41; 42;
   107; 108; 180; 38; 215; 216; 94; 159; 160; 0; 1; 231; 85; 206; 207; 56; 223; 110; 111; 111; 130; 6; 7; 83; 84;
   230; 89; 90; 75; 76; 198; 60; 253; 89; 90; 144; 7; 104; 105; 20; 109; 110; 196; 197; 55; 69; 70; 108; 109; 156;
   120; 115; 116; 104; 237; 238; 8; 9; 152; 149; 132; 133; 1; 186; 40; 210; 126; 166; 163; 158; 96; 104; 208; 223;
   171; 213; 191; 160; 72; 85; 31; 5; 219; 186; 226; 165; 122; 202; 173; 219; 112; 195; 252; 196; 68; 75; 233; 206;
   23; 89; 161; 19; 197; 75; 141; 238; 212; 66; 188; 37; 204; 92; 206; 111; 244; 65; 211; 71; 57; 41; 234; 71; 125;
   244; 86; 1; 91; 178; 36; 51; 90; 137; 101; 97; 85; 219; 246; 133; 130; 114; 36; 104; 50; 119; 115; 116; 124; 228;
   243; 190; 191; 233; 211; 197; 91; 92; 105; 51; 24; 25; 239; 206; 246; 185; 142; 221; 222; 193; 239; 131; 132; 215;
   16; 88; 95; 253; 226; 43; 109; 180; 181; 39; 217; 94; 95; 161; 2; 231; 232; 86; 208; 56; 57; 224; 112; 130; 131;
   8; 85; 219; 231; 91; 77; 60; 61; 254; 91; 144; 145; 8; 106; 21; 111; 198; 55; 56; 71; 110; 156; 157; 121; 117;
   104; 105; 239; 10; 152; 153; 150; 134; 166; 150; 156; 162; 172; 138; 148; 255; 156; 136; 148; 166; 172; 138; 150;
   131; 139; 242; 243; 1; 2; 148; 206; 247; 248; 225; 226; 107; 120; 65; 66; 40; 254; 220; 221; 5; 199; 200; 156;
   157; 156; 237; 208; 253; 254; 147; 229; 230; 30; 31; 103; 109; 110; 11; 12; 241; 57; 58; 123; 124; 196; 54; 231;
   232; 110; 175; 176; 16; 17; 247; 101; 222; 223; 72; 239; 126; 127; 146; 22; 23; 99; 100; 246; 105; 106; 91; 92;
   76; 13; 105; 106; 160; 23; 120; 121; 36; 125; 126; 212; 213; 71; 85; 86; 124; 125; 172; 136; 131; 132; 120; 253;
   254; 24; 25; 168; 165; 148; 149; 133; 141; 245; 3; 4; 208; 250; 227; 228; 150; 109; 122; 68; 42; 0; 222; 223; 7;
   202; 158; 159; 239; 210; 0; 149; 232; 32; 33; 105; 112; 13; 14; 243; 60; 125; 126; 198; 56; 234; 112; 178; 18; 19;
   249; 103; 224; 225; 74; 241; 128; 129; 148; 25; 101; 102; 248; 108; 93; 94; 78; 15; 108; 162; 25; 122; 123; 162;
   38; 128; 214; 215; 73; 88; 126; 127; 172; 174; 138; 134; 122; 0; 26; 27; 170; 167; 150; 151; 166; 174; 22; 37;
   138; 241; 27; 5; 142; 155; 101; 75; 33; 0; 40; 235; 192; 16; 243; 33; 182; 9; 66; 138; 145; 47; 156; 20; 93; 159;
   231; 89; 11; 162; 145; 211; 52; 26; 136; 2; 107; 18; 162; 181; 58; 135; 25; 141; 127; 111; 48; 141; 195; 58; 156;
   71; 161; 248; 106; 121; 160; 207; 171; 167; 155; 33; 60; 203; 200; 184; 148; 150; 166].

Definition Gen_shift_values_BG1_Z_384 : list Z :=
  [306; 75; 204; 275; 18; 249; 86; 49; 75; 327; 368; 72; 383; 287; 331; 274; 180; 143; 255; 215; 160; 198; 330; 266;
   152; 330; 159; 55; 316; 177; 62; 287; 128; 131; 108; 294; 304; 16; 341; 230; 356; 199; 340; 216; 87; 211; 214; 98;
   52; 105; 353; 303; 113; 130; 299; 241; 239; 270; 179; 330; 204; 329; 12; 38; 345; 111; 356; 306; 307; 76; 205;
   276; 18; 19; 250; 87; 49; 50; 76; 328; 368; 369; 73; 0; 288; 332; 275; 180; 181; 144; 256; 215; 216; 161; 199;
   331; 267; 153; 331; 160; 56; 316; 317; 178; 63; 287; 288; 129; 132; 108; 109; 295; 305; 16; 17; 342; 231; 356;
   357; 200; 341; 217; 88; 212; 214; 215; 99; 53; 105; 106; 354; 304; 114; 131; 300; 241; 242; 240; 271; 179; 180;
   331; 205; 329; 330; 13; 39; 345; 346; 112; 357; 307; 76; 204; 205; 275; 276; 19; 249; 250; 86; 87; 50; 76; 327;
   328; 369; 73; 383; 0; 288; 331; 332; 274; 275; 181; 144; 255; 256; 216; 160; 161; 198; 199; 331; 266; 267; 152;
   153; 331; 159; 160; 55; 56; 317; 178; 62; 63; 288; 128; 129; 131; 132; 109; 295; 304; 305; 17; 342; 230; 231; 357;
   199; 200; 340; 341; 217; 87; 88; 211; 212; 215; 99; 52; 53; 106; 354; 303; 304; 114; 130; 131; 299; 300; 242; 239;
   240; 270; 271; 180; 331; 204; 205; 330; 12; 13; 38; 39; 346; 112; 356; 357; 307; 76; 205; 275; 276; 19; 250; 86;
   87; 50; 76; 328; 369; 73; 383; 0; 288; 332; 274; 275; 181; 144; 256; 216; 161; 198; 199; 331; 267; 152; 153; 331;
   160; 55; 56; 317; 178; 63; 288; 129; 131; 132; 109; 295; 304; 305; 17; 342; 230; 231; 357; 200; 340; 341; 217; 88;
   211; 212; 215; 99; 53; 106; 354; 303; 304; 114; 131; 299; 300; 242; 240; 270; 271; 180; 331; 205; 330; 13; 38; 39;
   346; 112; 356; 357; 331; 180; 79; 232; 361; 48; 194; 175; 22; 243; 13; 206; 232; 100; 141; 229; 156; 114; 60; 104;
   47; 337; 300; 28; 372; 317; 355; 103; 39; 309; 103; 316; 212; 89; 334; 219; 60; 285; 288; 265; 67; 77; 173; 114;
   3; 165; 129; 356; 113; 373; 244; 368; 371; 255; 209; 262; 126; 76; 240; 270; 287; 72; 14; 12; 43; 336; 103; 361;
   102; 169; 195; 118; 268; 129; 50; 277; 256; 0; 350; 91; 252; 17; 224; 8; 61; 315; 332; 289; 113; 373; 93; 142;
   246; 271; 374; 375; 342; 61; 62; 306; 85; 189; 316; 35; 36; 153; 256; 257; 178; 116; 220; 142; 246; 10; 113; 114;
   51; 155; 139; 243; 66; 169; 170; 164; 354; 74; 14; 117; 118; 341; 60; 61; 247; 351; 210; 314; 322; 41; 42; 282; 2;
   227; 330; 331; 265; 368; 369; 13; 117; 333; 52; 53; 219; 322; 323; 13; 117; 226; 329; 330; 122; 225; 226; 383;
   103; 244; 348; 129; 232; 233; 354; 74; 195; 298; 299; 198; 301; 302; 175; 279; 361; 81; 371; 90; 91; 83; 187; 24;
   128; 297; 16; 17; 17; 39; 143; 266; 369; 370; 23; 126; 127; 283; 3; 154; 257; 258; 278; 381; 382; 281; 1; 165;
   269; 119; 222; 223; 172; 276; 36; 140; 370; 89; 90; 38; 180; 284; 197; 300; 301; 366; 85; 86; 308; 28; 306; 25;
   26; 337; 56; 57; 246; 350; 13; 117; 271; 374; 375; 223; 12; 116; 79; 182; 183; 105; 208; 209; 28; 132; 178; 282;
   39; 142; 143; 367; 365; 231; 320; 132; 56; 302; 62; 81; 100; 338; 273; 110; 382; 353; 256; 37; 38; 25; 191; 154;
   320; 225; 7; 47; 352; 133; 134; 199; 365; 36; 202; 101; 383; 164; 165; 25; 191; 277; 59; 318; 99; 100; 22; 188;
   333; 115; 237; 19; 281; 63; 224; 6; 130; 295; 296; 93; 259; 205; 371; 165; 330; 331; 110; 276; 148; 314; 280; 62;
   216; 382; 102; 268; 280; 62; 109; 275; 5; 171; 266; 47; 48; 127; 293; 12; 178; 237; 18; 19; 78; 244; 81; 247; 58;
   223; 224; 244; 26; 254; 36; 350; 131; 132; 291; 73; 180; 346; 7; 306; 87; 88; 149; 315; 290; 72; 166; 332; 37;
   203; 161; 327; 164; 329; 330; 48; 214; 2; 168; 55; 220; 221; 303; 85; 253; 35; 46; 63; 229; 80; 246; 249; 31; 191;
   356; 357; 189; 355; 220; 2; 129; 294; 295; 280; 62; 154; 320; 279; 60; 61; 346; 128; 372; 154; 295; 76; 77; 61;
   227; 306; 88; 187; 76; 185; 173; 231; 49; 73; 292; 293; 62; 191; 262; 312; 4; 5; 236; 73; 35; 36; 62; 314; 354;
   355; 59; 370; 176; 274; 318; 261; 166; 167; 130; 242; 201; 202; 147; 185; 317; 253; 139; 265; 317; 146; 42; 302;
   303; 164; 49; 273; 274; 115; 118; 94; 95; 281; 291; 2; 3; 328; 217; 342; 343; 186; 327; 203; 74; 198; 200; 201;
   85; 39; 91; 92; 340; 290; 100; 117; 286; 227; 228; 226; 257; 165; 166; 317; 191; 315; 316; 383; 25; 114; 331; 332;
   98; 343; 141; 247; 136; 88; 346; 11; 192; 345; 90; 160; 161; 240; 288; 135; 355; 356; 1; 319; 345; 213; 254; 342;
   268; 269; 173; 217; 159; 160; 66; 29; 141; 101; 46; 83; 84; 216; 152; 37; 38; 216; 45; 324; 325; 202; 63; 332;
   173; 14; 16; 17; 209; 378; 180; 189; 190; 286; 227; 115; 116; 242; 85; 225; 226; 317; 102; 357; 96; 97; 100; 368;
   322; 375; 239; 188; 189; 383; 16; 184; 185; 127; 125; 155; 156; 54; 65; 216; 90; 215; 282; 307; 308; 231; 381;
   241; 242; 363; 132; 261; 332; 75; 306; 143; 12; 106; 132; 0; 41; 129; 56; 337; 344; 4; 331; 237; 200; 312; 272;
   217; 255; 3; 323; 209; 3; 216; 112; 373; 234; 119; 344; 185; 188; 165; 351; 361; 56; 73; 14; 287; 29; 256; 13;
   273; 144; 268; 271; 155; 109; 162; 26; 360; 170; 187; 356; 298; 296; 327; 236; 3; 261; 2; 69; 95; 288; 18; 168;
   29; 259; 302; 80; 357; 374; 129; 162; 279; 131; 3; 144; 212; 343; 241; 196; 365; 134; 263; 334; 186; 77; 308; 145;
   108; 134; 2; 43; 131; 58; 205; 346; 6; 333; 239; 202; 314; 274; 219; 257; 5; 325; 211; 5; 218; 114; 375; 236; 121;
   263; 346; 187; 190; 167; 353; 363; 340; 75; 16; 289; 31; 258; 15; 275; 146; 270; 273; 157; 111; 164; 28; 362; 172;
   189; 358; 300; 298; 329; 238; 5; 263; 4; 71; 97; 20; 170; 31; 204; 101; 327; 212; 96; 29; 10; 232; 21; 23; 88; 60;
   26; 156; 309; 54; 125; 297; 252; 99; 320; 283; 309; 177; 218; 306; 233; 157; 137; 181; 124; 234; 30; 377; 105; 65;
   10; 48; 180; 116; 2; 180; 9; 289; 166; 27; 296; 137; 362; 365; 342; 144; 154; 338; 250; 191; 80; 206; 49; 190; 66;
   321; 61; 64; 332; 286; 339; 203; 153; 347; 364; 149; 91; 89; 120; 29; 180; 54; 179; 246; 272; 195; 345; 206; 71;
   16; 382; 311; 70; 80; 75; 135; 193; 193; 100; 221; 18; 243; 273; 1; 154; 283; 353; 354; 97; 328; 164; 165; 251;
   128; 154; 22; 63; 151; 77; 78; 366; 26; 352; 353; 259; 222; 334; 294; 239; 276; 277; 25; 345; 230; 231; 25; 238;
   133; 134; 11; 256; 141; 366; 207; 209; 210; 187; 373; 382; 383; 95; 36; 308; 309; 51; 278; 34; 35; 295; 166; 289;
   290; 4; 293; 177; 131; 184; 48; 381; 382; 192; 209; 377; 378; 320; 318; 348; 349; 146; 258; 25; 283; 24; 91; 116;
   117; 40; 190; 50; 51; 13; 166; 294; 295; 365; 366; 158; 109; 339; 340; 176; 177; 140; 166; 33; 34; 75; 163; 89;
   90; 378; 37; 38; 364; 365; 271; 234; 345; 346; 306; 250; 251; 288; 289; 37; 356; 357; 242; 243; 37; 249; 250; 145;
   146; 23; 268; 152; 153; 378; 218; 219; 221; 222; 228; 199; 1; 10; 11; 107; 48; 320; 321; 63; 289; 290; 46; 47;
   259; 307; 177; 178; 301; 302; 305; 189; 142; 143; 196; 60; 9; 10; 204; 220; 221; 5; 6; 332; 329; 330; 360; 361;
   270; 37; 294; 295; 36; 102; 103; 128; 129; 52; 202; 62; 63; 180; 179; 333; 332; 78; 77; 149; 147; 148; 276; 275;
   123; 122; 344; 342; 343; 99; 307; 306; 333; 332; 201; 200; 242; 241; 330; 329; 257; 255; 256; 161; 160; 205; 204;
   148; 146; 147; 54; 53; 17; 16; 129; 128; 89; 88; 34; 33; 72; 70; 71; 204; 203; 140; 139; 26; 24; 25; 214; 204;
   203; 33; 32; 313; 311; 312; 190; 189; 51; 50; 320; 319; 161; 160; 2; 1; 5; 3; 4; 366; 365; 168; 167; 178; 176;
   177; 274; 273; 215; 214; 104; 102; 103; 230; 229; 73; 72; 214; 212; 213; 90; 89; 345; 344; 85; 83; 84; 88; 87;
   356; 355; 310; 309; 363; 362; 227; 226; 177; 175; 176; 371; 370; 4; 3; 173; 171; 172; 115; 114; 113; 112; 144;
   142; 143; 53; 52; 204; 203; 78; 77; 203; 202; 270; 269; 296; 294; 295; 219; 218; 369; 368; 230; 228; 229; 210;
   363; 107; 108; 178; 179; 101; 306; 152; 153; 373; 374; 337; 363; 230; 231; 272; 360; 286; 287; 191; 234; 235; 177;
   178; 84; 47; 158; 159; 119; 63; 64; 101; 102; 234; 169; 170; 55; 56; 234; 62; 63; 342; 343; 220; 81; 349; 350;
   191; 31; 32; 34; 35; 12; 198; 207; 208; 304; 245; 133; 134; 200; 260; 102; 103; 243; 244; 120; 374; 375; 114; 115;
   174; 118; 2; 339; 340; 9; 257; 206; 207; 17; 33; 34; 202; 203; 145; 142; 143; 173; 174; 83; 234; 107; 108; 233;
   299; 300; 325; 326; 249; 15; 259; 260; 322; 7; 360; 104; 229; 147; 201; 311; 188; 341; 86; 157; 284; 131; 352;
   319; 315; 341; 209; 250; 338; 265; 169; 213; 156; 62; 25; 137; 97; 42; 80; 334; 212; 148; 34; 212; 41; 321; 198;
   59; 328; 169; 10; 13; 374; 176; 186; 282; 223; 112; 1; 238; 81; 222; 98; 353; 93; 96; 364; 318; 371; 235; 185;
   379; 12; 181; 123; 121; 152; 61; 212; 86; 211; 278; 304; 227; 377; 238; 209; 312; 296; 20; 37; 38; 191; 320; 7;
   133; 134; 365; 202; 268; 164; 165; 191; 59; 99; 100; 188; 115; 19; 63; 6; 295; 296; 259; 371; 330; 331; 276; 314;
   62; 382; 268; 62; 275; 171; 47; 48; 293; 178; 18; 19; 244; 247; 223; 224; 26; 36; 131; 132; 73; 346; 87; 88; 315;
   72; 81; 332; 203; 327; 329; 330; 214; 168; 220; 221; 85; 35; 229; 246; 31; 356; 357; 355; 2; 294; 295; 62; 320;
   60; 61; 128; 154; 76; 77; 227; 88; 184; 176; 288; 213; 257; 92; 345; 296; 174; 36; 311; 51; 313; 138; 287; 141;
   294; 38; 39; 109; 110; 112; 237; 83; 84; 304; 305; 268; 294; 161; 162; 203; 291; 217; 218; 122; 165; 166; 108;
   109; 13; 15; 362; 89; 90; 50; 378; 379; 32; 33; 165; 100; 101; 370; 371; 165; 377; 378; 273; 274; 151; 12; 280;
   281; 122; 346; 347; 349; 350; 327; 129; 138; 139; 235; 176; 64; 65; 191; 33; 34; 174; 175; 51; 305; 306; 45; 46;
   49; 317; 270; 271; 324; 188; 137; 138; 332; 348; 349; 133; 134; 76; 73; 74; 104; 105; 14; 165; 38; 39; 164; 230;
   231; 256; 257; 180; 330; 190; 191; 91; 244; 373; 59; 60; 187; 34; 254; 255; 112; 218; 244; 112; 153; 241; 167;
   168; 72; 116; 58; 59; 349; 312; 40; 0; 329; 366; 367; 115; 51; 320; 321; 115; 328; 223; 224; 101; 346; 231; 72;
   297; 299; 300; 277; 79; 88; 89; 185; 126; 14; 15; 141; 368; 124; 125; 1; 256; 379; 380; 383; 267; 221; 274; 138;
   87; 88; 131; 282; 299; 83; 84; 26; 24; 54; 55; 113; 348; 115; 373; 114; 181; 206; 207; 130; 280; 140; 141; 196;
   349; 94; 165; 79; 292; 139; 360; 323; 349; 217; 258; 346; 273; 177; 221; 164; 70; 33; 145; 105; 50; 88; 220; 156;
   42; 77; 220; 49; 329; 206; 67; 336; 162; 177; 18; 21; 382; 184; 194; 290; 231; 120; 246; 89; 230; 106; 361; 101;
   104; 372; 326; 379; 243; 193; 3; 20; 189; 131; 129; 160; 69; 220; 94; 219; 286; 312; 235; 1; 246; 134; 148; 14].

Definition Gen_shift_values_BG1_Z_320 : list Z :=
  [72; 302; 67; 219; 14; 6; 207; 102; 293; 79; 48; 26; 29; 260; 279; 196; 239; 160; 37; 38; 226; 60; 132; 201; 174;
   3; 199; 78; 14; 79; 70; 161; 105; 280; 214; 128; 302; 163; 299; 252; 132; 294; 163; 75; 282; 52; 297; 265; 300;
   109; 71; 43; 82; 183; 27; 112; 245; 76; 15; 259; 229; 188; 275; 318; 31; 300; 67; 72; 73; 303; 68; 220; 14; 15; 7;
   208; 102; 103; 294; 80; 48; 49; 27; 30; 261; 280; 197; 239; 240; 161; 38; 38; 39; 227; 61; 133; 202; 175; 4; 200;
   79; 14; 15; 80; 71; 161; 162; 106; 281; 214; 215; 129; 303; 163; 164; 300; 253; 132; 133; 295; 164; 76; 283; 53;
   297; 298; 266; 301; 109; 110; 72; 44; 83; 184; 28; 112; 113; 246; 77; 15; 16; 260; 230; 188; 189; 276; 319; 31;
   32; 301; 68; 73; 303; 67; 68; 219; 220; 15; 6; 7; 207; 208; 103; 294; 79; 80; 49; 27; 29; 30; 261; 279; 280; 196;
   197; 240; 161; 37; 38; 39; 226; 227; 60; 61; 133; 201; 202; 174; 175; 4; 199; 200; 78; 79; 15; 80; 70; 71; 162;
   105; 106; 280; 281; 215; 129; 302; 303; 164; 300; 252; 253; 133; 294; 295; 163; 164; 76; 282; 283; 52; 53; 298;
   266; 300; 301; 110; 72; 43; 44; 83; 183; 184; 27; 28; 113; 245; 246; 76; 77; 16; 260; 229; 230; 189; 275; 276;
   318; 319; 32; 301; 67; 68; 73; 303; 68; 219; 220; 15; 7; 207; 208; 103; 294; 80; 49; 27; 29; 30; 261; 280; 196;
   197; 240; 161; 38; 39; 227; 60; 61; 133; 202; 174; 175; 4; 200; 78; 79; 15; 80; 71; 162; 106; 280; 281; 215; 129;
   302; 303; 164; 300; 252; 253; 133; 295; 163; 164; 76; 283; 52; 53; 298; 266; 301; 110; 72; 43; 44; 83; 184; 27;
   28; 113; 246; 76; 77; 16; 260; 230; 189; 276; 318; 319; 32; 301; 67; 68; 232; 204; 31; 261; 26; 178; 82; 293; 285;
   166; 291; 61; 252; 38; 7; 305; 308; 49; 219; 238; 155; 198; 119; 316; 317; 185; 19; 91; 160; 133; 282; 158; 37;
   293; 38; 29; 120; 64; 239; 173; 87; 261; 122; 258; 211; 317; 91; 253; 122; 34; 241; 11; 256; 224; 259; 68; 30; 2;
   200; 41; 142; 306; 71; 204; 35; 294; 218; 188; 147; 234; 277; 310; 259; 26; 266; 288; 20; 292; 12; 231; 301; 137;
   234; 11; 87; 206; 49; 24; 75; 317; 227; 227; 137; 312; 221; 222; 144; 53; 54; 294; 259; 169; 251; 160; 161; 132;
   41; 42; 132; 27; 257; 218; 128; 4; 233; 234; 293; 203; 271; 181; 274; 183; 184; 129; 185; 95; 204; 113; 114; 121;
   30; 31; 164; 74; 85; 315; 282; 191; 192; 283; 193; 151; 60; 61; 305; 214; 215; 57; 287; 126; 35; 36; 99; 8; 9;
   248; 158; 124; 33; 34; 3; 232; 233; 259; 169; 4; 234; 315; 224; 225; 86; 316; 30; 259; 260; 205; 114; 115; 139;
   49; 53; 283; 227; 136; 137; 88; 318; 224; 134; 177; 86; 87; 230; 57; 287; 219; 128; 129; 88; 317; 318; 0; 230;
   207; 116; 117; 297; 206; 207; 222; 132; 190; 100; 225; 134; 135; 34; 264; 316; 226; 288; 197; 198; 295; 7; 237;
   108; 17; 18; 272; 181; 182; 37; 267; 170; 79; 80; 1; 230; 231; 260; 170; 184; 94; 154; 63; 64; 109; 113; 23; 200;
   109; 110; 243; 152; 153; 276; 186; 225; 135; 312; 221; 222; 268; 188; 243; 35; 285; 150; 266; 134; 208; 13; 79;
   210; 74; 160; 310; 115; 32; 33; 25; 263; 110; 28; 262; 180; 15; 57; 294; 295; 49; 287; 250; 168; 146; 145; 62; 63;
   16; 254; 122; 40; 91; 8; 9; 69; 307; 72; 310; 303; 221; 2; 240; 239; 157; 282; 199; 200; 203; 121; 80; 318; 81;
   318; 319; 269; 187; 103; 21; 175; 93; 244; 162; 217; 135; 46; 284; 242; 160; 121; 39; 57; 294; 295; 122; 40; 113;
   31; 204; 121; 122; 148; 66; 3; 241; 257; 174; 175; 171; 89; 25; 263; 206; 123; 124; 22; 260; 295; 213; 289; 175;
   92; 93; 17; 255; 206; 124; 118; 36; 5; 243; 95; 13; 20; 257; 258; 308; 226; 23; 261; 152; 69; 70; 114; 32; 86; 4;
   288; 125; 43; 226; 144; 70; 308; 155; 72; 73; 288; 206; 119; 37; 58; 295; 296; 302; 220; 272; 190; 231; 148; 149;
   318; 236; 41; 279; 74; 311; 312; 23; 261; 110; 28; 176; 228; 234; 168; 47; 104; 51; 109; 110; 20; 105; 257; 38;
   51; 52; 44; 245; 139; 140; 11; 117; 85; 86; 64; 67; 301; 298; 317; 234; 276; 277; 198; 75; 75; 76; 264; 98; 170;
   239; 212; 302; 41; 237; 116; 51; 52; 117; 108; 198; 199; 143; 318; 251; 252; 166; 20; 200; 201; 17; 290; 169; 170;
   12; 201; 113; 0; 90; 14; 15; 303; 18; 146; 147; 109; 81; 120; 221; 65; 149; 150; 283; 114; 52; 53; 297; 267; 225;
   226; 313; 36; 159; 68; 69; 18; 105; 77; 298; 53; 60; 178; 257; 124; 34; 119; 270; 271; 228; 66; 58; 258; 259; 289;
   154; 25; 131; 100; 78; 80; 81; 312; 11; 247; 248; 291; 212; 89; 90; 278; 111; 112; 184; 253; 225; 226; 55; 251;
   129; 130; 66; 131; 122; 213; 157; 11; 12; 59; 266; 180; 33; 34; 215; 31; 303; 304; 184; 26; 214; 215; 129; 127;
   14; 103; 104; 29; 317; 32; 161; 123; 94; 95; 134; 235; 78; 79; 164; 297; 127; 128; 183; 67; 311; 281; 240; 7; 49;
   50; 83; 32; 118; 119; 52; 282; 47; 199; 314; 306; 187; 68; 82; 273; 59; 28; 6; 9; 139; 240; 259; 176; 219; 140;
   17; 18; 206; 40; 112; 181; 154; 303; 179; 58; 314; 59; 50; 141; 85; 260; 194; 108; 282; 44; 143; 279; 232; 112;
   274; 143; 55; 262; 32; 277; 245; 280; 89; 51; 23; 62; 163; 7; 92; 225; 56; 315; 239; 209; 168; 255; 298; 114; 11;
   280; 47; 256; 146; 127; 50; 227; 259; 293; 290; 140; 294; 63; 180; 100; 269; 40; 82; 312; 77; 229; 300; 24; 16;
   217; 112; 303; 89; 58; 36; 39; 161; 270; 289; 206; 249; 170; 47; 48; 236; 70; 142; 211; 184; 13; 209; 88; 24; 89;
   80; 39; 171; 115; 290; 224; 138; 312; 129; 173; 309; 262; 142; 304; 173; 85; 292; 62; 307; 275; 310; 119; 81; 53;
   92; 193; 37; 122; 255; 86; 25; 269; 239; 198; 285; 8; 41; 310; 77; 78; 174; 131; 282; 102; 176; 19; 54; 315; 248;
   49; 132; 104; 33; 263; 28; 180; 288; 295; 287; 168; 63; 254; 40; 9; 307; 310; 279; 221; 240; 157; 109; 200; 121;
   318; 319; 187; 21; 93; 162; 135; 284; 160; 39; 295; 40; 31; 122; 66; 241; 175; 89; 263; 186; 124; 260; 213; 93;
   255; 124; 36; 243; 13; 258; 226; 261; 70; 32; 4; 43; 144; 308; 73; 206; 37; 296; 220; 190; 149; 236; 279; 312;
   261; 28; 171; 294; 95; 45; 269; 109; 317; 66; 209; 28; 303; 10; 292; 49; 233; 102; 12; 97; 248; 249; 44; 36; 236;
   237; 26; 132; 3; 109; 78; 56; 58; 59; 290; 309; 225; 226; 269; 190; 67; 68; 256; 89; 90; 162; 231; 203; 204; 33;
   229; 107; 108; 44; 109; 100; 191; 135; 309; 310; 244; 158; 11; 12; 193; 9; 281; 282; 162; 4; 192; 193; 105; 312;
   81; 82; 307; 7; 295; 10; 139; 101; 72; 73; 112; 213; 56; 57; 142; 275; 105; 106; 116; 45; 289; 259; 218; 305; 27;
   28; 61; 10; 96; 97; 208; 118; 202; 203; 34; 35; 90; 150; 141; 142; 22; 23; 238; 109; 214; 215; 184; 162; 164; 165;
   76; 94; 95; 11; 12; 55; 296; 172; 173; 174; 41; 42; 195; 196; 268; 16; 17; 309; 310; 139; 14; 15; 213; 214; 150;
   215; 205; 206; 297; 240; 241; 95; 96; 22; 30; 264; 117; 118; 299; 115; 67; 68; 268; 109; 110; 298; 299; 104; 211;
   97; 98; 187; 188; 113; 81; 115; 116; 245; 207; 178; 179; 218; 318; 319; 162; 163; 248; 60; 61; 211; 212; 151; 75;
   44; 45; 4; 90; 91; 133; 134; 167; 116; 202; 203; 138; 235; 48; 145; 133; 230; 285; 61; 62; 80; 177; 72; 169; 273;
   49; 50; 221; 168; 265; 39; 136; 145; 242; 114; 211; 92; 189; 95; 191; 192; 6; 103; 25; 122; 262; 38; 39; 305; 82;
   226; 3; 103; 200; 104; 201; 292; 69; 126; 222; 223; 198; 295; 267; 44; 240; 16; 17; 307; 69; 166; 265; 42; 144;
   240; 241; 80; 177; 145; 242; 136; 233; 227; 4; 171; 268; 26; 122; 123; 280; 57; 194; 291; 48; 144; 145; 229; 6;
   45; 142; 318; 94; 95; 198; 295; 40; 137; 229; 5; 6; 141; 238; 28; 125; 118; 214; 215; 43; 140; 11; 108; 46; 143;
   175; 272; 137; 234; 109; 205; 206; 148; 245; 249; 26; 93; 189; 190; 178; 275; 311; 88; 142; 238; 239; 81; 178; 5;
   102; 295; 72; 254; 31; 21; 118; 64; 160; 161; 97; 194; 46; 143; 133; 229; 230; 290; 200; 284; 285; 116; 117; 209;
   232; 223; 224; 104; 105; 0; 191; 296; 297; 266; 244; 246; 247; 158; 176; 177; 93; 94; 137; 58; 254; 255; 256; 123;
   124; 277; 278; 30; 98; 99; 71; 72; 221; 96; 97; 295; 296; 232; 297; 287; 288; 59; 2; 3; 177; 178; 112; 26; 199;
   200; 61; 197; 149; 150; 21; 30; 191; 192; 60; 61; 293; 179; 180; 269; 270; 270; 195; 163; 197; 198; 7; 289; 260;
   261; 300; 80; 81; 244; 245; 10; 142; 143; 293; 294; 233; 157; 126; 127; 86; 172; 173; 215; 216; 249; 198; 284;
   285; 169; 19; 139; 32; 186; 295; 4; 43; 37; 267; 32; 184; 299; 291; 172; 206; 67; 258; 44; 13; 311; 314; 225; 244;
   161; 204; 125; 2; 3; 191; 25; 157; 97; 166; 139; 288; 164; 43; 299; 44; 35; 126; 70; 245; 179; 93; 267; 128; 264;
   217; 54; 97; 259; 128; 40; 247; 17; 262; 230; 265; 74; 36; 8; 47; 148; 312; 77; 210; 41; 300; 224; 194; 153; 240;
   283; 316; 265; 32; 258; 178; 177; 159; 187; 188; 98; 183; 15; 129; 130; 122; 3; 297; 217; 218; 89; 195; 163; 164;
   142; 145; 56; 75; 312; 34; 35; 276; 153; 153; 154; 22; 176; 248; 317; 290; 119; 315; 194; 129; 130; 195; 186; 276;
   277; 221; 76; 9; 10; 244; 98; 278; 279; 95; 48; 247; 248; 90; 279; 14; 191; 78; 168; 92; 93; 61; 96; 224; 225;
   187; 159; 198; 299; 143; 227; 228; 41; 192; 130; 131; 55; 25; 303; 304; 71; 114; 146; 147; 96; 183; 150; 178; 63;
   180; 101; 76; 191; 207; 31; 79; 196; 153; 46; 123; 206; 199; 109; 193; 194; 25; 26; 225; 141; 132; 133; 13; 14;
   229; 100; 205; 206; 175; 153; 155; 156; 67; 85; 86; 2; 3; 64; 46; 287; 163; 164; 165; 32; 33; 186; 187; 259; 7; 8;
   300; 301; 130; 5; 6; 204; 205; 141; 206; 196; 197; 288; 231; 232; 86; 87; 21; 255; 108; 109; 290; 106; 58; 59;
   259; 100; 101; 289; 290; 202; 88; 89; 178; 179; 104; 72; 106; 107; 236; 198; 169; 170; 209; 309; 310; 153; 154;
   239; 51; 52; 202; 203; 142; 66; 35; 36; 315; 81; 82; 124; 125; 158; 107; 193; 194; 175; 85; 170; 1; 2; 117; 109;
   309; 310; 227; 205; 76; 182; 151; 129; 131; 132; 43; 62; 298; 299; 22; 263; 140; 141; 9; 162; 163; 235; 304; 276;
   277; 106; 302; 180; 181; 117; 182; 173; 264; 208; 62; 63; 317; 231; 84; 85; 266; 82; 34; 35; 235; 77; 265; 266;
   178; 65; 154; 155; 80; 48; 83; 212; 174; 145; 146; 68; 185; 286; 129; 130; 215; 28; 178; 179; 175; 118; 42; 12;
   291; 58; 100; 101; 134; 83; 169; 170; 12; 242; 7; 159; 233; 274; 266; 147; 42; 233; 19; 308; 286; 289; 200; 219;
   136; 179; 100; 297; 298; 166; 0; 72; 141; 114; 226; 263; 139; 18; 274; 19; 10; 258; 101; 45; 220; 154; 68; 242;
   103; 239; 192; 72; 234; 103; 15; 222; 312; 237; 205; 240; 49; 11; 303; 22; 123; 287; 52; 185; 16; 275; 199; 169;
   128; 215; 258; 291; 240; 7; 100; 227; 125].

Definition Gen_shift_values_BG1_Z_224 : list Z :=
  [222; 140; 206; 200; 15; 202; 17; 93; 44; 30; 90; 150; 164; 45; 175; 4; 73; 118; 179; 9; 185; 44; 156; 94; 141;
   132; 152; 15; 223; 86; 176; 204; 69; 33; 215; 205; 154; 20; 92; 212; 214; 76; 146; 78; 213; 68; 13; 8; 76; 69;
   117; 95; 193; 197; 73; 140; 116; 98; 197; 30; 222; 103; 89; 29; 80; 186; 157; 222; 223; 141; 207; 201; 15; 16;
   203; 18; 93; 94; 45; 31; 90; 91; 151; 165; 46; 176; 5; 73; 74; 119; 180; 9; 10; 186; 45; 157; 95; 142; 133; 153;
   16; 223; 0; 87; 177; 204; 205; 70; 34; 215; 216; 206; 155; 20; 21; 93; 213; 214; 215; 77; 147; 79; 214; 69; 13;
   14; 9; 77; 69; 70; 118; 96; 194; 198; 74; 140; 141; 117; 99; 197; 198; 31; 223; 103; 104; 90; 30; 80; 81; 187;
   158; 223; 141; 206; 207; 200; 201; 16; 202; 203; 17; 18; 94; 45; 30; 31; 91; 151; 164; 165; 46; 175; 176; 4; 5;
   74; 119; 179; 180; 10; 185; 186; 44; 45; 157; 94; 95; 141; 142; 133; 152; 153; 15; 16; 0; 87; 176; 177; 205; 69;
   70; 33; 34; 216; 206; 154; 155; 21; 93; 212; 213; 215; 76; 77; 146; 147; 79; 213; 214; 68; 69; 14; 9; 76; 77; 70;
   118; 95; 96; 194; 197; 198; 73; 74; 141; 116; 117; 98; 99; 198; 31; 222; 223; 104; 89; 90; 29; 30; 81; 187; 157;
   158; 223; 141; 207; 200; 201; 16; 203; 17; 18; 94; 45; 31; 91; 151; 164; 165; 46; 176; 4; 5; 74; 119; 180; 10;
   186; 44; 45; 157; 95; 141; 142; 133; 153; 15; 16; 0; 87; 177; 205; 70; 33; 34; 216; 206; 154; 155; 21; 93; 212;
   213; 215; 77; 146; 147; 79; 214; 68; 69; 14; 9; 77; 70; 118; 95; 96; 194; 198; 73; 74; 141; 117; 98; 99; 198; 31;
   223; 104; 90; 29; 30; 81; 187; 157; 158; 169; 9; 151; 69; 135; 129; 163; 168; 131; 170; 58; 22; 197; 183; 19; 79;
   93; 85; 198; 104; 157; 2; 47; 108; 162; 114; 197; 85; 23; 70; 61; 81; 168; 152; 15; 105; 133; 222; 186; 144; 134;
   83; 173; 21; 141; 79; 143; 5; 75; 7; 142; 221; 166; 161; 5; 222; 46; 24; 181; 122; 126; 2; 69; 45; 27; 126; 183;
   151; 32; 18; 182; 9; 115; 86; 129; 157; 118; 112; 20; 62; 50; 135; 115; 16; 75; 103; 99; 149; 157; 42; 200; 184;
   118; 26; 183; 184; 20; 177; 178; 32; 59; 217; 22; 179; 180; 61; 218; 219; 94; 137; 71; 88; 22; 74; 7; 8; 134; 68;
   194; 128; 208; 141; 142; 3; 89; 23; 219; 152; 153; 48; 205; 206; 117; 51; 162; 96; 223; 156; 157; 53; 211; 5; 162;
   163; 88; 21; 22; 200; 134; 138; 71; 72; 185; 118; 119; 176; 110; 196; 129; 130; 59; 216; 217; 43; 201; 130; 64;
   220; 153; 154; 24; 182; 113; 46; 47; 77; 10; 11; 35; 193; 25; 183; 198; 131; 132; 64; 222; 136; 70; 32; 189; 190;
   216; 34; 192; 120; 53; 54; 190; 123; 124; 122; 56; 33; 190; 191; 112; 45; 46; 57; 215; 52; 210; 120; 53; 54; 113;
   47; 161; 95; 139; 72; 73; 203; 13; 171; 17; 174; 175; 117; 50; 51; 184; 118; 160; 93; 94; 142; 75; 76; 17; 175;
   74; 8; 42; 199; 200; 38; 147; 81; 133; 66; 67; 73; 6; 7; 124; 58; 6; 164; 201; 134; 135; 57; 8; 36; 212; 104; 88;
   184; 108; 217; 81; 164; 173; 18; 193; 102; 82; 199; 200; 0; 118; 66; 184; 60; 178; 51; 99; 216; 217; 62; 180; 101;
   219; 10; 177; 70; 71; 128; 22; 114; 8; 174; 67; 68; 10; 128; 24; 142; 129; 23; 35; 153; 88; 206; 157; 50; 51; 202;
   96; 39; 157; 93; 210; 211; 45; 163; 128; 22; 16; 134; 178; 72; 1; 119; 216; 110; 12; 130; 99; 217; 83; 200; 201;
   170; 64; 36; 154; 64; 181; 182; 153; 47; 117; 11; 75; 192; 193; 65; 183; 14; 132; 104; 221; 222; 176; 70; 72; 190;
   1; 74; 191; 192; 160; 54; 6; 124; 162; 56; 73; 191; 152; 46; 97; 214; 215; 92; 210; 160; 54; 153; 46; 47; 201; 95;
   179; 73; 34; 53; 171; 57; 175; 157; 51; 0; 117; 118; 200; 94; 182; 76; 57; 174; 175; 114; 8; 82; 200; 187; 80; 81;
   173; 67; 113; 7; 164; 57; 58; 46; 164; 17; 135; 31; 141; 174; 135; 2; 27; 181; 76; 77; 219; 61; 55; 80; 93; 94;
   57; 96; 171; 172; 123; 109; 168; 169; 5; 19; 55; 124; 30; 83; 151; 152; 197; 34; 87; 88; 40; 123; 11; 173; 220;
   71; 211; 7; 94; 77; 78; 165; 31; 58; 59; 148; 112; 69; 70; 60; 9; 98; 99; 171; 67; 68; 69; 155; 1; 157; 68; 147;
   91; 92; 87; 155; 147; 148; 196; 174; 48; 52; 152; 218; 219; 195; 177; 51; 52; 109; 77; 181; 182; 168; 108; 216;
   158; 159; 41; 12; 13; 174; 210; 190; 50; 42; 80; 222; 64; 57; 58; 89; 97; 60; 98; 99; 119; 175; 126; 112; 172; 8;
   21; 22; 127; 33; 85; 86; 155; 200; 37; 91; 43; 125; 126; 14; 176; 222; 223; 214; 10; 96; 97; 81; 168; 34; 62; 151;
   114; 115; 130; 73; 63; 11; 12; 102; 174; 69; 70; 72; 158; 3; 4; 208; 160; 71; 149; 150; 95; 90; 158; 151; 199;
   176; 177; 51; 55; 154; 155; 222; 198; 179; 180; 208; 55; 112; 80; 185; 171; 110; 111; 162; 44; 14; 15; 99; 17; 83;
   77; 116; 79; 118; 153; 194; 145; 131; 191; 27; 41; 163; 146; 52; 105; 174; 219; 56; 110; 62; 145; 33; 195; 18; 9;
   29; 116; 100; 187; 53; 81; 170; 134; 92; 82; 31; 42; 121; 193; 89; 91; 177; 23; 179; 90; 169; 114; 109; 177; 170;
   218; 196; 70; 74; 174; 17; 217; 199; 74; 131; 99; 204; 190; 130; 188; 181; 63; 34; 55; 109; 199; 62; 3; 198; 109;
   199; 142; 185; 7; 5; 102; 197; 7; 181; 99; 165; 159; 104; 198; 161; 200; 52; 3; 213; 49; 109; 123; 209; 4; 134;
   187; 32; 77; 138; 192; 144; 3; 115; 53; 100; 91; 111; 198; 182; 45; 135; 120; 163; 28; 216; 174; 164; 113; 213;
   203; 51; 171; 173; 35; 105; 37; 172; 27; 196; 191; 35; 28; 76; 54; 152; 156; 32; 99; 75; 57; 156; 213; 181; 62;
   48; 212; 39; 145; 116; 191; 130; 219; 49; 105; 52; 223; 2; 147; 87; 202; 167; 121; 122; 40; 106; 100; 48; 139;
   102; 141; 217; 168; 154; 214; 50; 64; 156; 169; 75; 128; 63; 197; 18; 79; 133; 85; 168; 56; 218; 41; 32; 52; 139;
   123; 210; 76; 104; 193; 157; 115; 105; 54; 192; 144; 216; 112; 114; 200; 46; 202; 113; 192; 137; 132; 200; 193;
   17; 219; 93; 97; 197; 40; 16; 222; 97; 154; 122; 3; 213; 153; 204; 86; 57; 0; 165; 64; 80; 106; 175; 211; 126;
   207; 140; 173; 145; 152; 216; 113; 67; 209; 51; 44; 45; 84; 47; 85; 86; 149; 162; 113; 99; 159; 219; 8; 9; 114;
   20; 72; 73; 142; 187; 24; 78; 30; 112; 113; 1; 163; 209; 210; 201; 221; 83; 84; 68; 155; 21; 49; 138; 101; 102;
   60; 50; 222; 223; 89; 161; 56; 57; 59; 145; 214; 215; 147; 58; 136; 137; 10; 82; 77; 145; 138; 186; 163; 164; 38;
   42; 141; 142; 209; 185; 166; 167; 52; 42; 99; 67; 172; 158; 97; 98; 149; 31; 1; 2; 122; 40; 105; 106; 99; 100; 33;
   139; 101; 102; 140; 141; 217; 168; 153; 154; 214; 50; 63; 64; 169; 74; 75; 127; 128; 197; 18; 78; 79; 133; 84; 85;
   167; 168; 56; 217; 218; 40; 41; 32; 51; 52; 138; 139; 123; 210; 75; 76; 104; 192; 193; 156; 157; 129; 115; 105;
   53; 54; 144; 216; 111; 112; 114; 199; 200; 45; 46; 209; 202; 112; 113; 191; 192; 137; 132; 199; 200; 193; 17; 218;
   219; 93; 96; 97; 196; 197; 40; 15; 16; 221; 222; 97; 154; 121; 122; 3; 212; 213; 152; 153; 204; 86; 56; 57; 175;
   127; 93; 45; 159; 111; 153; 104; 105; 192; 144; 155; 107; 194; 145; 146; 174; 46; 222; 221; 173; 207; 159; 43;
   219; 103; 55; 117; 68; 69; 222; 174; 128; 80; 181; 132; 133; 26; 202; 71; 23; 132; 84; 186; 138; 138; 90; 221;
   172; 173; 109; 61; 47; 223; 94; 45; 46; 48; 85; 37; 105; 57; 192; 143; 144; 176; 128; 39; 215; 129; 81; 157; 109;
   22; 198; 210; 161; 162; 168; 120; 158; 110; 107; 58; 59; 197; 149; 45; 221; 165; 116; 117; 167; 119; 29; 205; 99;
   50; 51; 31; 207; 166; 118; 21; 196; 197; 190; 142; 185; 137; 29; 205; 22; 198; 70; 22; 48; 223; 0; 146; 98; 150;
   102; 26; 201; 202; 93; 45; 69; 21; 51; 2; 3; 150; 102; 207; 159; 175; 127; 56; 8; 42; 218; 206; 157; 158; 33; 209;
   139; 91; 110; 61; 62; 29; 171; 12; 13; 6; 7; 191; 46; 8; 9; 47; 48; 124; 75; 60; 61; 121; 181; 194; 195; 76; 205;
   206; 34; 35; 104; 149; 209; 210; 40; 215; 216; 74; 75; 187; 124; 125; 171; 172; 163; 182; 183; 45; 46; 30; 117;
   206; 207; 11; 99; 100; 63; 64; 22; 12; 184; 185; 51; 123; 18; 19; 208; 21; 106; 107; 176; 177; 109; 19; 20; 98;
   99; 57; 44; 39; 106; 107; 100; 148; 125; 126; 0; 3; 4; 103; 104; 171; 146; 147; 128; 129; 4; 61; 28; 29; 134; 119;
   120; 59; 60; 111; 217; 187; 188; 113; 48; 160; 136; 81; 185; 67; 149; 185; 103; 169; 163; 202; 165; 204; 191; 56;
   7; 217; 53; 113; 127; 8; 138; 191; 36; 81; 142; 196; 148; 7; 172; 119; 57; 104; 95; 115; 202; 186; 49; 139; 167;
   32; 220; 178; 168; 117; 207; 55; 175; 25; 177; 39; 109; 41; 176; 31; 200; 195; 39; 32; 80; 58; 156; 160; 36; 103;
   79; 61; 160; 217; 185; 66; 52; 216; 43; 149; 120; 221; 156; 223; 5; 136; 137; 55; 121; 115; 153; 154; 117; 156;
   80; 7; 8; 183; 169; 4; 5; 65; 79; 184; 90; 143; 211; 212; 33; 94; 147; 148; 100; 183; 71; 9; 56; 47; 67; 154; 137;
   138; 1; 91; 118; 119; 208; 172; 129; 130; 120; 69; 158; 159; 7; 127; 128; 129; 215; 61; 194; 217; 128; 207; 151;
   152; 147; 215; 207; 208; 32; 10; 108; 112; 212; 54; 55; 31; 13; 111; 112; 169; 137; 17; 18; 4; 168; 218; 219; 101;
   72; 122; 89; 72; 9; 11; 76; 48; 113; 66; 44; 95; 22; 214; 59; 166; 77; 219; 60; 61; 54; 55; 113; 94; 56; 57; 95;
   96; 172; 123; 108; 109; 169; 5; 18; 19; 124; 29; 30; 82; 83; 90; 152; 197; 33; 34; 88; 39; 40; 122; 123; 11; 172;
   173; 219; 220; 211; 6; 7; 93; 94; 78; 165; 30; 31; 59; 147; 148; 111; 112; 70; 60; 8; 9; 99; 171; 66; 67; 69; 154;
   155; 0; 1; 157; 67; 68; 146; 147; 92; 87; 154; 155; 148; 196; 173; 174; 48; 51; 52; 151; 152; 219; 194; 195; 176;
   177; 52; 109; 76; 77; 182; 167; 168; 107; 108; 159; 41; 11; 12; 160; 78; 144; 137; 138; 177; 140; 178; 179; 205;
   31; 206; 192; 28; 88; 101; 102; 207; 113; 165; 166; 11; 56; 117; 171; 123; 205; 206; 94; 32; 78; 79; 70; 90; 176;
   177; 161; 24; 114; 142; 7; 194; 195; 153; 143; 91; 92; 182; 30; 149; 150; 152; 14; 83; 84; 16; 151; 5; 6; 175;
   170; 14; 7; 55; 32; 33; 21; 131; 135; 10; 11; 78; 54; 35; 36; 133; 135; 192; 160; 41; 27; 190; 191; 18; 124; 94;
   95; 10; 152; 218; 212; 83; 27; 214; 29; 105; 56; 42; 102; 162; 176; 57; 187; 16; 85; 130; 191; 21; 197; 56; 168;
   106; 153; 3; 144; 164; 27; 11; 98; 188; 8; 216; 81; 45; 3; 217; 166; 32; 104; 0; 2; 88; 158; 90; 1; 80; 25; 20;
   88; 81; 129; 107; 205; 209; 85; 152; 128; 110; 209; 42; 10; 115; 101; 41; 92; 198; 169; 183; 120; 28].

Definition Gen_shift_values_BG1_Z_288 : list Z :=
  [210; 178; 257; 186; 197; 166; 144; 187; 161; 219; 185; 222; 165; 255; 132; 107; 218; 159; 242; 3; 201; 81; 75;
   217; 131; 201; 62; 196; 28; 116; 287; 143; 2; 40; 115; 108; 161; 215; 14; 56; 114; 73; 35; 71; 228; 114; 232; 151;
   287; 143; 157; 241; 146; 215; 164; 94; 268; 287; 215; 155; 199; 72; 233; 112; 260; 118; 107; 210; 211; 179; 258;
   187; 197; 198; 167; 145; 187; 188; 162; 220; 185; 186; 223; 166; 256; 133; 108; 218; 219; 160; 243; 3; 4; 202; 82;
   76; 218; 132; 202; 63; 197; 28; 29; 117; 0; 143; 144; 3; 41; 115; 116; 109; 162; 215; 216; 15; 57; 114; 115; 74;
   36; 72; 229; 115; 232; 233; 152; 0; 143; 144; 158; 242; 147; 216; 165; 94; 95; 269; 0; 215; 216; 156; 200; 72; 73;
   234; 113; 260; 261; 119; 108; 211; 179; 257; 258; 186; 187; 198; 166; 167; 144; 145; 188; 162; 219; 220; 186; 223;
   165; 166; 256; 132; 133; 107; 108; 219; 160; 242; 243; 4; 201; 202; 81; 82; 76; 217; 218; 131; 132; 202; 62; 63;
   196; 197; 29; 117; 287; 0; 144; 2; 3; 40; 41; 116; 109; 161; 162; 216; 15; 56; 57; 115; 73; 74; 35; 36; 72; 228;
   229; 114; 115; 233; 152; 287; 0; 144; 158; 241; 242; 147; 215; 216; 164; 165; 95; 268; 269; 287; 0; 216; 156; 199;
   200; 73; 233; 234; 112; 113; 261; 119; 107; 108; 211; 179; 258; 186; 187; 198; 167; 144; 145; 188; 162; 220; 186;
   223; 165; 166; 256; 133; 107; 108; 219; 160; 243; 4; 202; 81; 82; 76; 218; 131; 132; 202; 63; 196; 197; 29; 117;
   0; 144; 3; 40; 41; 116; 109; 161; 162; 216; 15; 56; 57; 115; 74; 35; 36; 72; 229; 114; 115; 233; 152; 0; 144; 158;
   241; 242; 147; 216; 164; 165; 95; 269; 287; 0; 216; 156; 200; 73; 234; 112; 113; 261; 119; 107; 108; 245; 234; 66;
   34; 113; 42; 260; 53; 22; 0; 180; 43; 17; 75; 41; 78; 21; 71; 111; 276; 251; 74; 15; 98; 147; 57; 225; 219; 73;
   275; 57; 206; 52; 172; 260; 143; 287; 146; 184; 259; 252; 17; 71; 158; 200; 282; 258; 217; 179; 215; 84; 258; 88;
   7; 143; 287; 13; 97; 253; 2; 71; 20; 238; 124; 143; 71; 11; 55; 216; 89; 256; 116; 262; 251; 78; 79; 143; 168; 89;
   58; 176; 150; 107; 168; 188; 153; 183; 103; 163; 152; 265; 120; 233; 199; 23; 24; 128; 240; 241; 53; 139; 252;
   108; 220; 221; 86; 198; 199; 287; 129; 242; 103; 216; 161; 273; 274; 127; 240; 164; 277; 107; 219; 220; 251; 197;
   22; 74; 186; 187; 49; 161; 162; 160; 273; 101; 214; 184; 8; 9; 233; 58; 143; 255; 256; 23; 135; 136; 17; 130; 159;
   271; 272; 73; 185; 186; 143; 256; 4; 116; 117; 138; 250; 251; 258; 83; 58; 171; 229; 53; 54; 85; 198; 232; 56; 57;
   270; 94; 95; 57; 170; 50; 163; 103; 215; 216; 157; 270; 244; 69; 286; 110; 111; 40; 56; 169; 15; 127; 128; 265;
   89; 90; 13; 126; 170; 282; 283; 56; 168; 169; 174; 287; 93; 206; 229; 53; 54; 85; 198; 99; 212; 183; 7; 8; 97; 88;
   201; 157; 269; 270; 106; 218; 219; 36; 149; 210; 34; 35; 229; 53; 54; 157; 270; 97; 210; 141; 253; 254; 45; 14;
   127; 175; 287; 0; 54; 166; 167; 202; 27; 60; 173; 49; 161; 162; 14; 161; 158; 92; 133; 44; 131; 75; 208; 177; 0;
   27; 266; 233; 200; 249; 236; 237; 217; 205; 8; 284; 225; 213; 54; 236; 223; 224; 205; 193; 183; 171; 22; 226; 213;
   214; 200; 188; 258; 246; 224; 211; 212; 261; 249; 204; 192; 6; 282; 171; 159; 146; 134; 257; 244; 245; 198; 186;
   281; 269; 42; 29; 30; 240; 228; 120; 108; 114; 102; 256; 244; 170; 158; 240; 228; 101; 89; 235; 223; 67; 54; 55;
   155; 143; 38; 26; 182; 169; 170; 41; 29; 79; 67; 154; 141; 142; 147; 135; 200; 188; 254; 241; 242; 53; 41; 95; 83;
   273; 153; 140; 141; 112; 100; 74; 62; 110; 98; 267; 255; 153; 141; 271; 258; 259; 190; 178; 38; 26; 182; 169; 170;
   196; 184; 280; 268; 180; 185; 173; 254; 242; 203; 191; 133; 120; 121; 19; 7; 38; 26; 254; 241; 242; 194; 182; 238;
   226; 111; 98; 99; 272; 260; 151; 139; 11; 286; 287; 157; 145; 146; 134; 272; 224; 161; 243; 150; 237; 242; 246;
   247; 215; 6; 223; 230; 233; 234; 203; 181; 223; 224; 198; 256; 221; 222; 259; 202; 287; 4; 169; 144; 254; 255;
   196; 279; 39; 40; 238; 118; 112; 254; 168; 215; 238; 99; 233; 64; 65; 153; 36; 179; 180; 39; 77; 151; 152; 145;
   198; 251; 252; 51; 93; 150; 151; 110; 72; 108; 265; 151; 268; 269; 188; 36; 179; 180; 194; 278; 183; 252; 201;
   130; 131; 17; 36; 251; 252; 192; 236; 108; 109; 270; 149; 46; 8; 9; 155; 144; 287; 185; 252; 15; 287; 78; 275;
   243; 34; 250; 251; 169; 262; 231; 208; 209; 287; 252; 226; 284; 250; 287; 229; 230; 32; 197; 171; 172; 283; 224;
   19; 68; 266; 145; 146; 140; 282; 195; 196; 266; 127; 260; 261; 93; 181; 64; 208; 67; 104; 105; 182; 180; 173; 225;
   226; 280; 79; 120; 121; 179; 138; 99; 100; 107; 136; 5; 178; 179; 9; 216; 64; 208; 222; 17; 18; 211; 280; 228;
   229; 159; 45; 63; 64; 67; 280; 220; 264; 137; 10; 176; 177; 37; 183; 171; 172; 210; 178; 257; 186; 197; 166; 144;
   269; 187; 161; 219; 185; 222; 165; 12; 255; 132; 107; 218; 159; 242; 3; 201; 81; 75; 217; 131; 201; 62; 196; 28;
   116; 287; 143; 2; 40; 115; 108; 161; 98; 215; 14; 56; 114; 73; 35; 71; 228; 114; 232; 151; 287; 143; 157; 241;
   146; 215; 164; 94; 268; 287; 215; 155; 199; 72; 233; 112; 53; 260; 118; 107; 152; 136; 287; 287; 161; 160; 150;
   287; 240; 143; 287; 287; 117; 143; 287; 150; 118; 197; 126; 264; 137; 106; 84; 127; 101; 159; 125; 162; 105; 80;
   195; 72; 47; 158; 99; 182; 231; 141; 21; 15; 157; 71; 141; 2; 136; 256; 56; 227; 89; 83; 230; 268; 55; 48; 101;
   143; 155; 242; 284; 54; 13; 263; 11; 168; 54; 172; 91; 227; 83; 97; 181; 86; 155; 104; 34; 208; 227; 155; 95; 139;
   12; 173; 52; 200; 58; 47; 63; 45; 265; 8; 17; 71; 188; 71; 256; 179; 287; 287; 164; 210; 178; 257; 186; 235; 197;
   166; 144; 187; 161; 219; 185; 222; 165; 198; 255; 132; 107; 287; 218; 159; 242; 3; 201; 81; 75; 217; 131; 201; 62;
   196; 28; 116; 287; 143; 2; 40; 115; 108; 161; 265; 215; 14; 56; 114; 73; 35; 71; 228; 114; 232; 151; 287; 143;
   157; 241; 146; 215; 164; 94; 268; 287; 215; 155; 199; 72; 233; 112; 260; 118; 107; 204; 287; 287; 182; 287; 287;
   287; 276; 44; 35; 71; 274; 287; 154; 61; 253; 221; 12; 228; 229; 240; 209; 186; 187; 287; 230; 204; 262; 228; 265;
   207; 208; 10; 175; 149; 150; 261; 202; 285; 46; 244; 123; 124; 118; 260; 173; 174; 244; 105; 238; 239; 71; 159;
   42; 186; 45; 82; 83; 158; 151; 203; 204; 258; 57; 98; 99; 157; 116; 77; 78; 114; 271; 156; 157; 179; 275; 194; 42;
   186; 200; 283; 284; 189; 258; 206; 207; 137; 23; 41; 42; 287; 258; 198; 242; 115; 276; 154; 155; 15; 161; 149;
   150; 96; 64; 142; 143; 71; 72; 287; 83; 51; 52; 29; 30; 73; 47; 104; 105; 71; 108; 50; 51; 141; 17; 18; 280; 281;
   104; 45; 127; 128; 177; 86; 87; 254; 255; 249; 102; 103; 16; 17; 87; 235; 236; 81; 82; 202; 2; 172; 173; 29; 175;
   176; 213; 214; 89; 1; 282; 46; 47; 101; 188; 229; 230; 0; 246; 247; 208; 209; 251; 245; 113; 114; 287; 0; 118; 37;
   172; 173; 29; 43; 126; 127; 32; 100; 101; 49; 50; 268; 153; 154; 172; 173; 101; 41; 84; 85; 246; 118; 119; 285;
   286; 146; 4; 280; 281; 88; 230; 56; 198; 135; 277; 64; 205; 206; 75; 217; 44; 186; 22; 163; 164; 143; 65; 207; 39;
   181; 97; 239; 63; 205; 100; 242; 43; 184; 185; 133; 275; 10; 152; 273; 126; 127; 96; 238; 37; 179; 120; 262; 169;
   23; 79; 221; 247; 100; 101; 241; 95; 95; 237; 9; 150; 151; 143; 79; 221; 228; 82; 74; 215; 216; 194; 48; 282; 136;
   165; 19; 21; 163; 168; 22; 206; 59; 60; 281; 135; 274; 128; 39; 180; 181; 93; 235; 180; 34; 222; 75; 76; 280; 134;
   239; 93; 201; 54; 55; 237; 91; 106; 248; 280; 133; 134; 110; 252; 29; 171; 165; 19; 21; 163; 35; 177; 119; 260;
   261; 24; 166; 93; 235; 42; 183; 184; 260; 114; 146; 0; 165; 18; 19; 93; 235; 33; 175; 77; 219; 238; 92; 111; 253;
   278; 131; 132; 138; 280; 284; 138; 273; 126; 127; 85; 53; 131; 132; 60; 61; 287; 72; 40; 41; 18; 19; 62; 36; 93;
   94; 60; 97; 39; 40; 130; 6; 7; 269; 270; 93; 34; 116; 117; 166; 75; 76; 243; 244; 238; 91; 92; 5; 6; 76; 224; 225;
   70; 71; 191; 279; 161; 162; 18; 164; 165; 202; 203; 278; 271; 35; 36; 90; 177; 218; 219; 210; 277; 235; 236; 197;
   198; 234; 102; 103; 276; 277; 35; 107; 26; 161; 162; 18; 32; 115; 116; 21; 89; 90; 38; 39; 257; 142; 143; 161;
   162; 90; 30; 73; 74; 235; 107; 108; 274; 275; 135; 281; 269; 270; 287; 287; 75; 17; 196; 287; 107; 287; 127; 95;
   174; 103; 114; 83; 61; 198; 104; 78; 136; 102; 139; 82; 172; 49; 24; 135; 76; 159; 208; 118; 286; 277; 280; 134;
   48; 118; 267; 113; 233; 33; 204; 60; 207; 245; 32; 25; 78; 132; 219; 261; 287; 31; 278; 240; 276; 145; 31; 149;
   68; 204; 60; 74; 158; 63; 132; 81; 11; 185; 204; 132; 72; 116; 277; 150; 29; 177; 35; 24; 215; 15; 287; 287; 210;
   211; 179; 258; 187; 197; 198; 167; 145; 71; 187; 188; 162; 220; 185; 186; 223; 166; 256; 133; 108; 218; 219; 160;
   243; 3; 4; 202; 82; 76; 218; 132; 202; 63; 197; 28; 29; 117; 0; 143; 144; 3; 41; 115; 116; 109; 162; 215; 216; 15;
   57; 114; 115; 74; 36; 143; 72; 229; 115; 232; 233; 152; 0; 143; 144; 158; 242; 147; 216; 165; 94; 95; 269; 0; 215;
   216; 156; 200; 72; 73; 234; 113; 260; 261; 119; 108; 189; 287; 287; 287; 152; 287; 164; 116; 215; 143; 1; 287;
   287; 287; 182; 246; 214; 4; 5; 221; 222; 26; 233; 201; 202; 179; 180; 223; 197; 254; 255; 221; 258; 200; 201; 3;
   167; 168; 142; 143; 287; 254; 195; 277; 278; 39; 236; 237; 116; 117; 111; 252; 253; 166; 167; 237; 97; 98; 231;
   232; 64; 152; 34; 35; 179; 37; 38; 75; 76; 151; 144; 196; 197; 251; 50; 91; 92; 150; 108; 109; 70; 71; 107; 263;
   264; 149; 150; 268; 187; 34; 35; 179; 193; 276; 277; 182; 250; 251; 199; 200; 130; 15; 16; 34; 35; 251; 191; 234;
   235; 108; 268; 269; 147; 148; 8; 154; 142; 143; 193; 161; 240; 168; 169; 180; 149; 126; 127; 51; 170; 144; 202;
   168; 205; 147; 148; 238; 115; 89; 90; 201; 142; 225; 274; 184; 63; 64; 58; 200; 113; 114; 184; 45; 178; 179; 11;
   99; 270; 126; 273; 22; 23; 98; 91; 143; 144; 198; 285; 38; 39; 97; 56; 17; 18; 54; 211; 96; 97; 215; 134; 270;
   126; 140; 223; 224; 242; 129; 198; 146; 147; 77; 251; 269; 270; 287; 198; 138; 182; 55; 216; 94; 95; 243; 101; 89;
   90; 267; 235; 26; 243; 17; 254; 223; 201; 244; 218; 276; 242; 279; 222; 24; 189; 164; 275; 216; 11; 60; 258; 138;
   132; 274; 188; 287; 258; 119; 253; 85; 173; 56; 287; 200; 59; 97; 172; 165; 218; 272; 71; 113; 171; 130; 92; 128;
   285; 171; 1; 208; 56; 200; 214; 10; 203; 272; 221; 151; 37; 56; 272; 212; 256; 129; 2; 169; 29; 175; 164; 167;
   287; 143].

Definition Gen_shift_values_BG1_Z_352 : list Z :=
  [293; 76; 225; 96; 117; 34; 93; 166; 224; 212; 329; 95; 48; 337; 301; 278; 206; 267; 110; 164; 264; 138; 111; 127;
   165; 301; 236; 90; 242; 49; 293; 249; 126; 105; 0; 166; 245; 338; 252; 344; 200; 109; 268; 333; 285; 184; 52; 241;
   124; 346; 256; 248; 132; 130; 214; 303; 162; 142; 166; 8; 209; 46; 6; 120; 187; 301; 120; 293; 294; 77; 226; 97;
   117; 118; 35; 94; 166; 167; 225; 213; 329; 330; 96; 49; 338; 302; 279; 206; 207; 268; 111; 164; 165; 265; 139;
   112; 128; 166; 302; 237; 91; 242; 243; 50; 294; 249; 250; 127; 106; 0; 1; 167; 246; 338; 339; 253; 345; 200; 201;
   110; 269; 334; 286; 185; 52; 53; 242; 125; 346; 347; 257; 249; 133; 131; 215; 303; 304; 163; 143; 166; 167; 9;
   210; 46; 47; 7; 121; 187; 188; 302; 121; 294; 77; 225; 226; 96; 97; 118; 34; 35; 93; 94; 167; 225; 212; 213; 330;
   96; 48; 49; 338; 301; 302; 278; 279; 207; 268; 110; 111; 165; 264; 265; 138; 139; 112; 127; 128; 165; 166; 302;
   236; 237; 90; 91; 243; 50; 293; 294; 250; 126; 127; 105; 106; 1; 167; 245; 246; 339; 253; 344; 345; 201; 109; 110;
   268; 269; 334; 285; 286; 184; 185; 53; 242; 124; 125; 347; 257; 248; 249; 133; 130; 131; 214; 215; 304; 162; 163;
   142; 143; 167; 9; 209; 210; 47; 6; 7; 120; 121; 188; 302; 120; 121; 294; 77; 226; 96; 97; 118; 35; 93; 94; 167;
   225; 213; 330; 96; 48; 49; 338; 302; 278; 279; 207; 268; 111; 165; 265; 138; 139; 112; 128; 165; 166; 302; 237;
   90; 91; 243; 50; 294; 250; 127; 105; 106; 1; 167; 245; 246; 339; 253; 344; 345; 201; 110; 268; 269; 334; 286; 184;
   185; 53; 242; 125; 347; 257; 248; 249; 133; 131; 214; 215; 304; 163; 142; 143; 167; 9; 210; 47; 7; 120; 121; 188;
   302; 120; 121; 41; 255; 224; 7; 156; 27; 218; 48; 317; 24; 129; 97; 155; 143; 260; 26; 331; 250; 268; 232; 209;
   137; 198; 41; 95; 195; 69; 42; 58; 96; 232; 167; 21; 173; 332; 224; 180; 57; 36; 283; 97; 176; 269; 183; 275; 321;
   131; 40; 199; 264; 216; 115; 335; 172; 55; 277; 187; 179; 294; 63; 61; 145; 234; 93; 73; 97; 291; 140; 329; 289;
   51; 118; 232; 51; 257; 293; 72; 329; 98; 171; 149; 283; 304; 2; 102; 223; 296; 214; 38; 255; 186; 38; 321; 187;
   117; 118; 58; 340; 341; 347; 79; 10; 348; 278; 279; 55; 337; 338; 74; 128; 59; 186; 117; 174; 104; 105; 291; 222;
   57; 340; 10; 292; 293; 21; 299; 230; 263; 193; 194; 240; 170; 171; 168; 99; 229; 160; 72; 2; 3; 126; 57; 226; 156;
   157; 100; 30; 31; 73; 4; 89; 19; 20; 127; 57; 58; 263; 194; 198; 128; 129; 52; 334; 335; 204; 135; 11; 294; 255;
   185; 186; 211; 142; 88; 18; 19; 67; 349; 350; 314; 245; 128; 59; 207; 137; 138; 300; 231; 214; 145; 306; 236; 237;
   311; 162; 93; 71; 1; 2; 230; 160; 161; 295; 226; 247; 177; 178; 146; 76; 77; 14; 297; 203; 134; 86; 16; 17; 308;
   239; 218; 149; 210; 140; 141; 223; 94; 25; 92; 22; 23; 176; 106; 107; 265; 196; 124; 54; 55; 104; 34; 35; 128; 59;
   322; 253; 171; 101; 102; 16; 8; 291; 320; 250; 251; 82; 12; 13; 149; 80; 263; 194; 82; 12; 13; 58; 155; 87; 292;
   110; 91; 151; 22; 336; 174; 252; 26; 230; 48; 266; 279; 133; 134; 62; 269; 211; 66; 82; 289; 24; 103; 309; 310;
   20; 227; 79; 286; 321; 152; 6; 7; 210; 65; 198; 53; 315; 169; 170; 81; 288; 34; 241; 323; 178; 287; 142; 264; 119;
   192; 46; 47; 253; 108; 96; 303; 150; 4; 5; 250; 105; 124; 331; 97; 304; 113; 320; 151; 6; 287; 142; 222; 77; 76;
   283; 228; 82; 83; 35; 242; 279; 134; 235; 89; 90; 112; 319; 91; 298; 338; 192; 193; 152; 7; 231; 86; 324; 178;
   179; 238; 93; 330; 185; 199; 186; 40; 41; 95; 302; 254; 109; 319; 174; 271; 126; 170; 25; 38; 244; 245; 227; 82;
   110; 317; 332; 186; 187; 242; 97; 234; 89; 350; 118; 325; 116; 323; 200; 55; 289; 143; 144; 148; 3; 128; 335; 152;
   6; 7; 346; 201; 195; 50; 32; 238; 239; 344; 199; 106; 313; 173; 27; 28; 287; 142; 106; 313; 165; 122; 216; 141;
   109; 175; 75; 22; 23; 158; 307; 178; 310; 198; 199; 116; 175; 247; 248; 306; 294; 58; 59; 177; 130; 250; 67; 31;
   8; 287; 288; 349; 192; 245; 246; 346; 220; 193; 209; 247; 264; 31; 318; 172; 323; 324; 131; 23; 330; 331; 208;
   187; 81; 82; 248; 327; 67; 68; 334; 74; 281; 282; 191; 350; 63; 15; 266; 133; 134; 323; 206; 75; 76; 338; 330;
   214; 212; 296; 32; 33; 244; 224; 247; 248; 90; 291; 127; 128; 88; 202; 93; 268; 269; 31; 202; 21; 321; 276; 155;
   65; 77; 55; 190; 339; 209; 210; 175; 231; 148; 206; 207; 347; 280; 338; 326; 91; 209; 161; 162; 99; 63; 39; 40;
   320; 29; 224; 278; 26; 251; 252; 225; 241; 278; 279; 63; 350; 203; 204; 4; 163; 55; 11; 240; 218; 219; 14; 114;
   280; 6; 7; 100; 14; 105; 106; 314; 223; 29; 30; 80; 95; 47; 297; 298; 166; 3; 238; 108; 18; 9; 10; 246; 244; 327;
   328; 65; 276; 255; 256; 175; 280; 122; 323; 160; 120; 233; 234; 301; 63; 233; 234; 55; 190; 339; 210; 231; 148;
   207; 189; 280; 338; 326; 91; 209; 162; 292; 99; 63; 40; 320; 29; 224; 278; 26; 252; 225; 241; 279; 63; 350; 204;
   4; 163; 55; 11; 240; 219; 114; 280; 7; 331; 100; 14; 106; 314; 223; 30; 95; 47; 298; 166; 3; 238; 108; 18; 10;
   246; 244; 328; 65; 276; 256; 280; 122; 323; 160; 120; 234; 330; 301; 63; 234; 109; 227; 246; 115; 189; 46; 285;
   245; 180; 72; 86; 109; 146; 257; 203; 323; 106; 255; 126; 88; 147; 64; 123; 196; 254; 242; 7; 125; 78; 64; 15;
   331; 308; 236; 297; 140; 194; 294; 168; 141; 157; 195; 331; 266; 120; 272; 79; 323; 154; 279; 156; 135; 30; 196;
   275; 243; 16; 282; 22; 230; 139; 298; 11; 315; 214; 82; 271; 154; 24; 286; 278; 162; 160; 244; 333; 192; 172; 196;
   38; 239; 76; 36; 150; 217; 331; 150; 161; 263; 345; 142; 108; 279; 156; 235; 112; 17; 5; 180; 303; 135; 270; 67;
   290; 37; 311; 228; 287; 8; 66; 54; 171; 289; 242; 169; 179; 143; 120; 248; 48; 109; 304; 6; 106; 332; 305; 321; 7;
   143; 78; 284; 84; 243; 135; 91; 320; 299; 194; 8; 87; 287; 180; 94; 186; 42; 303; 110; 175; 127; 26; 246; 83; 318;
   188; 98; 90; 326; 324; 56; 145; 4; 336; 8; 202; 51; 240; 200; 314; 29; 143; 314; 278; 254; 110; 53; 324; 325; 225;
   98; 90; 325; 267; 101; 0; 39; 166; 49; 184; 333; 203; 204; 225; 142; 200; 201; 272; 274; 332; 320; 85; 203; 155;
   156; 93; 57; 33; 34; 314; 23; 218; 272; 20; 245; 246; 219; 235; 272; 273; 57; 344; 197; 198; 350; 157; 49; 5; 234;
   212; 213; 108; 274; 0; 1; 94; 8; 99; 100; 308; 217; 23; 24; 89; 41; 291; 292; 103; 160; 349; 232; 102; 12; 3; 4;
   240; 238; 321; 322; 59; 270; 249; 250; 242; 274; 116; 317; 154; 114; 227; 228; 295; 57; 227; 228; 154; 289; 85;
   86; 308; 309; 170; 330; 246; 247; 305; 306; 27; 85; 72; 73; 190; 308; 260; 261; 198; 161; 162; 138; 139; 67; 128;
   322; 323; 25; 124; 125; 350; 351; 324; 339; 340; 25; 26; 162; 96; 97; 302; 303; 103; 262; 153; 154; 110; 338; 339;
   317; 318; 15; 213; 27; 105; 106; 199; 113; 204; 205; 61; 321; 322; 128; 129; 94; 194; 145; 146; 44; 45; 265; 102;
   336; 337; 207; 117; 108; 109; 345; 342; 343; 74; 75; 164; 22; 23; 2; 3; 27; 221; 69; 70; 259; 218; 219; 332; 333;
   48; 162; 332; 333; 220; 164; 3; 299; 152; 96; 23; 318; 319; 44; 340; 313; 257; 20; 315; 316; 100; 93; 37; 151; 95;
   139; 83; 256; 200; 22; 318; 327; 270; 271; 264; 208; 228; 172; 205; 148; 149; 133; 77; 194; 138; 37; 333; 91; 35;
   191; 135; 65; 8; 9; 38; 334; 54; 350; 92; 35; 36; 296; 228; 172; 163; 107; 17; 312; 313; 169; 113; 328; 272; 220;
   164; 176; 120; 53; 349; 32; 327; 328; 279; 223; 93; 37; 172; 115; 116; 265; 209; 179; 123; 271; 214; 215; 127; 71;
   36; 332; 195; 138; 139; 260; 204; 212; 156; 111; 54; 55; 331; 275; 168; 112; 51; 347; 273; 217; 183; 127; 175;
   118; 119; 59; 3; 57; 1; 141; 84; 85; 230; 174; 89; 33; 69; 12; 13; 93; 37; 287; 231; 136; 80; 325; 269; 285; 229;
   47; 342; 343; 114; 58; 228; 172; 47; 342; 343; 25; 160; 308; 309; 179; 180; 350; 201; 117; 118; 176; 177; 250;
   308; 295; 296; 61; 179; 131; 132; 69; 32; 33; 9; 10; 290; 351; 193; 194; 248; 347; 348; 221; 222; 195; 210; 211;
   248; 249; 33; 319; 320; 173; 174; 326; 133; 24; 25; 333; 209; 210; 188; 189; 84; 250; 328; 329; 70; 336; 75; 76;
   264; 284; 192; 193; 351; 0; 65; 16; 17; 267; 268; 337; 136; 325; 207; 208; 78; 340; 331; 332; 216; 213; 214; 297;
   298; 35; 245; 246; 225; 226; 250; 92; 292; 293; 130; 89; 90; 203; 204; 271; 33; 203; 204; 55; 303; 140; 100; 59;
   319; 111; 53; 209; 344; 141; 12; 33; 302; 9; 99; 82; 140; 128; 245; 11; 316; 253; 217; 194; 122; 183; 26; 80; 180;
   54; 209; 27; 43; 81; 217; 152; 6; 158; 317; 209; 165; 42; 21; 268; 82; 161; 254; 168; 260; 194; 116; 25; 184; 249;
   201; 100; 320; 157; 40; 262; 172; 164; 48; 46; 130; 219; 78; 58; 82; 276; 125; 314; 274; 36; 103; 217; 36; 134;
   14; 34; 187; 26; 27; 162; 311; 182; 202; 203; 120; 179; 318; 251; 252; 310; 298; 62; 63; 181; 134; 71; 35; 12;
   291; 292; 1; 196; 249; 250; 350; 224; 197; 213; 251; 35; 322; 176; 327; 328; 135; 27; 334; 335; 212; 191; 85; 86;
   252; 331; 71; 72; 338; 78; 285; 286; 195; 2; 235; 67; 19; 270; 137; 138; 327; 210; 79; 80; 342; 334; 218; 216;
   300; 36; 37; 248; 228; 251; 252; 94; 295; 131; 132; 92; 206; 272; 273; 35; 206; 163; 195; 208; 245; 235; 263; 36;
   271; 303; 236; 134; 122; 76; 24; 271; 311; 94; 242; 243; 113; 114; 287; 135; 51; 52; 110; 111; 184; 242; 229; 230;
   347; 113; 65; 66; 3; 318; 319; 295; 296; 82; 224; 285; 127; 128; 182; 281; 282; 155; 156; 129; 144; 145; 182; 183;
   319; 253; 254; 107; 108; 260; 67; 310; 311; 267; 143; 144; 122; 123; 18; 184; 262; 263; 4; 270; 9; 10; 218; 126;
   127; 285; 286; 351; 302; 303; 201; 202; 70; 259; 141; 142; 12; 274; 265; 266; 150; 147; 148; 231; 232; 321; 179;
   180; 159; 160; 184; 26; 226; 227; 64; 23; 24; 137; 138; 205; 319; 137; 138; 109; 244; 41; 263; 264; 285; 202; 260;
   261; 209; 334; 40; 28; 145; 263; 215; 216; 153; 117; 93; 94; 22; 83; 278; 332; 80; 305; 306; 279; 295; 332; 333;
   117; 52; 257; 258; 58; 217; 109; 65; 294; 272; 273; 168; 334; 60; 61; 154; 68; 159; 160; 16; 277; 83; 84; 149;
   101; 351; 0; 220; 57; 292; 162; 72; 63; 64; 2; 300; 298; 29; 30; 119; 330; 309; 310; 52; 334; 176; 25; 214; 174;
   287; 288; 3; 117; 287; 288; 213; 348; 145; 16; 78; 37; 306; 13; 86; 144; 132; 249; 15; 320; 257; 221; 198; 126;
   187; 30; 84; 184; 58; 31; 47; 85; 243; 221; 156; 10; 162; 321; 213; 292; 169; 46; 25; 272; 86; 165; 258; 172; 264;
   120; 29; 188; 253; 205; 104; 324; 161; 44; 266; 176; 168; 52; 50; 134; 223; 82; 62; 86; 280; 129; 318; 278; 40;
   107; 221; 40; 81; 66; 234].

Definition Gen_shift_values_BG1_Z_208 : list Z :=
  [102; 124; 26; 106; 102; 139; 108; 102; 113; 123; 102; 18; 135; 102; 74; 7; 102; 112; 106; 102; 43; 151; 102; 150;
   123; 102; 140; 108; 102; 104; 16; 102; 89; 45; 102; 118; 185; 102; 162; 48; 102; 49; 189; 102; 130; 107; 102; 108;
   187; 102; 132; 194; 102; 149; 67; 102; 73; 14; 102; 62; 144; 102; 168; 104; 102; 133; 36; 207; 102; 124; 26; 106;
   207; 102; 139; 108; 207; 102; 113; 123; 207; 102; 18; 135; 102; 74; 7; 207; 102; 112; 106; 207; 102; 43; 151; 102;
   150; 123; 102; 140; 108; 207; 102; 104; 16; 207; 102; 89; 45; 207; 102; 118; 185; 207; 102; 162; 48; 207; 102; 49;
   189; 102; 130; 107; 207; 102; 108; 187; 207; 102; 132; 194; 102; 149; 67; 207; 102; 73; 14; 207; 102; 62; 144;
   207; 102; 168; 104; 207; 102; 133; 36; 102; 124; 131; 26; 3; 106; 102; 36; 139; 5; 108; 102; 113; 20; 123; 102;
   18; 32; 135; 102; 179; 74; 112; 7; 102; 112; 3; 106; 102; 148; 43; 48; 151; 102; 47; 150; 20; 123; 102; 37; 140;
   5; 108; 102; 104; 121; 16; 102; 194; 89; 150; 45; 102; 118; 82; 185; 102; 162; 153; 48; 102; 154; 49; 86; 189;
   102; 27; 130; 4; 107; 102; 108; 84; 187; 102; 132; 91; 194; 102; 46; 149; 172; 67; 102; 178; 73; 119; 14; 102; 62;
   41; 144; 102; 65; 168; 1; 104; 102; 133; 141; 36; 102; 124; 26; 3; 106; 102; 139; 5; 108; 102; 113; 123; 102; 18;
   32; 135; 102; 74; 112; 7; 102; 112; 106; 102; 43; 48; 151; 102; 150; 20; 123; 102; 140; 5; 108; 102; 104; 16; 102;
   89; 150; 45; 102; 118; 82; 185; 102; 162; 153; 48; 102; 49; 86; 189; 102; 130; 4; 107; 102; 108; 187; 102; 132;
   91; 194; 102; 149; 172; 67; 102; 73; 119; 14; 102; 62; 144; 102; 168; 1; 104; 102; 133; 141; 36; 23; 203; 174;
   196; 98; 178; 184; 174; 3; 180; 99; 174; 185; 195; 174; 90; 207; 23; 174; 146; 79; 174; 184; 178; 174; 115; 15;
   174; 14; 195; 174; 4; 180; 174; 176; 88; 174; 161; 117; 174; 190; 49; 174; 26; 120; 64; 174; 121; 53; 174; 202;
   179; 174; 180; 51; 174; 204; 58; 206; 174; 13; 139; 174; 145; 86; 174; 134; 8; 174; 32; 176; 174; 205; 108; 160;
   5; 26; 162; 49; 47; 23; 37; 90; 144; 87; 111; 152; 158; 75; 137; 10; 159; 32; 61; 39; 142; 141; 119; 14; 171; 137;
   10; 174; 152; 47; 143; 121; 16; 1; 137; 10; 148; 21; 158; 136; 31; 137; 10; 53; 134; 170; 148; 43; 130; 137; 10;
   109; 87; 190; 42; 20; 123; 137; 10; 147; 20; 141; 119; 14; 137; 10; 78; 56; 159; 186; 164; 59; 137; 10; 185; 163;
   58; 158; 136; 31; 137; 10; 175; 153; 48; 143; 121; 16; 137; 10; 139; 12; 51; 29; 132; 137; 10; 124; 102; 205; 80;
   58; 161; 137; 10; 153; 26; 12; 198; 93; 137; 10; 197; 70; 83; 61; 164; 140; 137; 10; 84; 62; 165; 16; 202; 97;
   137; 10; 165; 143; 38; 142; 120; 15; 137; 10; 143; 16; 14; 200; 95; 137; 10; 167; 40; 21; 207; 102; 95; 137; 10;
   184; 162; 57; 102; 80; 183; 137; 10; 108; 86; 189; 49; 27; 130; 137; 10; 97; 178; 179; 157; 52; 98; 137; 10; 203;
   181; 76; 139; 117; 12; 137; 10; 168; 41; 71; 49; 152; 100; 5; 9; 144; 52; 200; 3; 163; 172; 125; 76; 155; 15; 11;
   69; 3; 123; 18; 25; 40; 135; 150; 7; 22; 183; 3; 123; 18; 40; 55; 9; 24; 193; 3; 123; 18; 14; 29; 24; 39; 3; 123;
   18; 127; 142; 36; 51; 3; 18; 183; 198; 116; 131; 3; 123; 18; 13; 28; 7; 22; 3; 123; 18; 152; 167; 52; 67; 3; 18;
   51; 66; 24; 39; 3; 18; 41; 56; 9; 24; 3; 123; 18; 5; 20; 125; 140; 3; 123; 18; 198; 5; 154; 169; 3; 123; 18; 19;
   34; 86; 101; 3; 123; 18; 63; 78; 157; 172; 122; 3; 123; 18; 158; 173; 90; 105; 3; 18; 31; 46; 8; 23; 3; 123; 18;
   9; 24; 88; 103; 3; 123; 18; 33; 48; 95; 110; 15; 3; 18; 50; 65; 176; 191; 3; 123; 18; 182; 197; 123; 138; 3; 123;
   18; 171; 186; 45; 60; 3; 123; 18; 69; 84; 5; 20; 3; 123; 18; 34; 49; 145; 160; 103; 5; 19; 202; 152; 103; 206; 45;
   148; 170; 72; 152; 51; 45; 148; 185; 154; 45; 148; 159; 169; 45; 148; 64; 181; 146; 148; 120; 53; 45; 148; 158;
   152; 45; 148; 89; 197; 148; 196; 169; 0; 148; 186; 154; 45; 148; 150; 62; 45; 148; 135; 91; 45; 148; 164; 23; 45;
   148; 0; 94; 45; 148; 95; 27; 148; 176; 153; 45; 148; 154; 25; 45; 148; 178; 32; 148; 195; 113; 45; 148; 119; 60;
   45; 148; 108; 190; 45; 148; 6; 150; 15; 45; 148; 179; 82; 0; 201; 117; 129; 0; 1; 148; 170; 72; 49; 152; 172; 148;
   185; 51; 154; 5; 148; 159; 169; 148; 64; 78; 181; 148; 120; 158; 53; 148; 158; 152; 148; 89; 94; 197; 148; 196;
   66; 169; 148; 186; 51; 154; 148; 150; 62; 148; 135; 196; 91; 80; 148; 164; 128; 23; 148; 0; 199; 94; 148; 95; 132;
   27; 181; 148; 176; 50; 153; 148; 154; 25; 148; 178; 137; 32; 148; 195; 10; 113; 148; 119; 165; 60; 52; 148; 108;
   190; 148; 6; 47; 150; 148; 179; 187; 82; 76; 98; 0; 80; 76; 113; 82; 87; 76; 87; 97; 76; 200; 109; 197; 76; 48;
   189; 76; 86; 80; 76; 17; 125; 76; 124; 97; 76; 114; 82; 76; 78; 198; 76; 63; 19; 76; 92; 159; 159; 76; 136; 22;
   76; 23; 163; 76; 104; 81; 76; 82; 161; 76; 106; 168; 76; 123; 41; 76; 47; 196; 76; 36; 118; 76; 142; 78; 121; 76;
   107; 10; 90; 183; 29; 2; 154; 0; 40; 166; 67; 147; 11; 5; 165; 183; 190; 132; 154; 56; 136; 5; 132; 169; 138; 132;
   143; 153; 132; 48; 165; 11; 132; 104; 37; 132; 142; 136; 132; 73; 181; 132; 180; 153; 132; 170; 138; 132; 134; 46;
   14; 132; 119; 75; 132; 148; 7; 4; 132; 192; 78; 132; 79; 11; 132; 160; 137; 132; 138; 9; 132; 162; 16; 132; 179;
   97; 132; 103; 44; 132; 92; 174; 132; 198; 134; 132; 163; 66; 5; 85; 95; 41; 198; 43; 57; 129; 130; 44; 17; 131;
   99; 108; 130; 32; 112; 8; 108; 145; 114; 108; 119; 129; 108; 24; 141; 124; 108; 80; 13; 190; 108; 118; 112; 108;
   49; 157; 108; 156; 129; 108; 146; 114; 108; 110; 22; 108; 95; 51; 108; 124; 191; 27; 108; 168; 54; 108; 55; 195;
   108; 136; 113; 108; 114; 193; 108; 138; 200; 108; 155; 73; 108; 79; 20; 108; 68; 150; 108; 174; 110; 108; 139; 42;
   3; 73; 15; 27; 20; 141; 191; 196; 97; 139; 21; 3; 0; 39; 92; 108; 130; 32; 9; 112; 108; 145; 11; 114; 91; 108;
   119; 129; 108; 24; 38; 141; 108; 80; 118; 13; 108; 118; 112; 108; 49; 54; 157; 108; 156; 26; 129; 108; 146; 11;
   114; 108; 110; 22; 108; 95; 156; 51; 108; 124; 88; 191; 108; 168; 159; 54; 108; 55; 92; 195; 108; 136; 10; 113;
   135; 108; 114; 193; 108; 138; 97; 200; 108; 155; 178; 73; 108; 79; 125; 20; 105; 108; 68; 150; 108; 174; 7; 110;
   108; 139; 147; 42; 122; 144; 151; 46; 23; 126; 1; 122; 56; 159; 25; 128; 122; 133; 40; 143; 122; 38; 52; 155; 122;
   199; 94; 132; 27; 122; 132; 23; 126; 122; 168; 63; 68; 171; 122; 67; 170; 40; 143; 122; 57; 160; 25; 128; 122;
   124; 141; 36; 122; 6; 109; 170; 65; 87; 122; 138; 102; 205; 122; 182; 173; 68; 122; 174; 69; 106; 1; 111; 122; 47;
   150; 24; 127; 122; 128; 104; 207; 122; 152; 111; 6; 122; 66; 169; 192; 87; 122; 198; 93; 139; 34; 122; 82; 61;
   164; 122; 85; 188; 21; 124; 122; 153; 161; 56; 19; 88; 41; 110; 151; 12; 23; 197; 92; 19; 88; 56; 125; 25; 199;
   94; 3; 19; 88; 30; 99; 40; 109; 19; 88; 143; 4; 52; 18; 121; 19; 88; 199; 60; 132; 98; 201; 19; 88; 29; 98; 23;
   92; 19; 88; 168; 29; 68; 34; 137; 19; 88; 67; 136; 40; 6; 109; 48; 19; 88; 57; 126; 25; 199; 94; 19; 88; 21; 90;
   141; 2; 19; 88; 6; 75; 170; 136; 31; 19; 88; 35; 104; 102; 68; 171; 19; 88; 79; 148; 173; 139; 34; 19; 88; 174;
   35; 106; 72; 175; 19; 88; 47; 116; 24; 198; 93; 19; 88; 25; 94; 104; 173; 19; 88; 49; 118; 111; 77; 180; 19; 88;
   66; 135; 192; 158; 53; 19; 88; 198; 59; 139; 105; 0; 19; 88; 187; 48; 61; 130; 19; 88; 85; 154; 21; 195; 90; 19;
   88; 50; 119; 161; 127; 22; 122; 144; 151; 46; 23; 126; 5; 122; 56; 159; 25; 128; 122; 133; 40; 143; 122; 38; 52;
   155; 122; 199; 94; 132; 27; 122; 132; 23; 126; 122; 168; 63; 68; 171; 122; 67; 170; 40; 143; 122; 57; 160; 25;
   128; 122; 124; 141; 36; 122; 6; 109; 170; 65; 122; 138; 102; 205; 122; 182; 173; 68; 125; 122; 174; 69; 106; 1;
   122; 47; 150; 24; 127; 62; 122; 128; 104; 207; 122; 152; 111; 6; 122; 66; 169; 192; 87; 122; 198; 93; 139; 34;
   122; 82; 61; 164; 122; 85; 188; 21; 124; 122; 153; 161; 56; 9; 29; 5; 91; 3; 152; 196; 154; 79; 101; 3; 83; 79;
   116; 85; 3; 79; 90; 100; 79; 203; 112; 79; 51; 192; 79; 89; 83; 79; 20; 128; 44; 79; 127; 100; 79; 117; 85; 79;
   81; 201; 79; 66; 22; 79; 95; 162; 79; 139; 25; 167; 79; 26; 166; 79; 107; 84; 79; 85; 164; 79; 109; 171; 79; 126;
   44; 79; 50; 199; 79; 39; 121; 79; 145; 81; 79; 110; 13; 5; 199; 176; 42; 134; 29; 51; 161; 33; 134; 29; 66; 35;
   81; 134; 29; 40; 50; 134; 29; 153; 62; 29; 1; 142; 134; 29; 39; 33; 134; 29; 178; 78; 29; 77; 50; 29; 67; 35; 134;
   29; 31; 151; 134; 29; 16; 180; 134; 29; 45; 112; 134; 29; 89; 183; 134; 29; 184; 116; 1; 29; 57; 34; 134; 29; 35;
   114; 134; 29; 59; 121; 29; 76; 202; 134; 29; 0; 149; 134; 29; 197; 71; 134; 29; 95; 31; 134; 29; 60; 171; 90; 63;
   197; 99; 3; 27; 108; 187; 9; 83; 11; 1; 74; 141; 127; 56; 78; 85; 188; 165; 60; 162; 56; 198; 93; 167; 62; 56; 67;
   182; 77; 56; 180; 194; 89; 56; 133; 28; 66; 169; 9; 56; 66; 165; 60; 56; 102; 205; 2; 105; 56; 1; 104; 182; 77;
   56; 199; 94; 167; 62; 56; 58; 75; 178; 56; 148; 43; 104; 207; 56; 72; 36; 139; 56; 116; 107; 2; 56; 108; 3; 40;
   143; 56; 189; 84; 166; 61; 56; 62; 38; 141; 56; 86; 45; 148; 56; 0; 103; 126; 21; 56; 132; 27; 73; 176; 56; 16;
   203; 98; 56; 19; 122; 163; 58; 56; 87; 95; 198; 200; 14; 124; 101; 204; 200; 29; 103; 206; 0; 200; 3; 13; 200;
   116; 130; 25; 200; 172; 2; 105; 200; 2; 204; 200; 141; 146; 41; 200; 40; 118; 13; 200; 30; 103; 206; 200; 202;
   114; 200; 187; 40; 143; 200; 8; 180; 75; 200; 52; 43; 146; 200; 147; 184; 79; 200; 20; 102; 205; 200; 206; 77;
   200; 22; 189; 84; 162; 200; 39; 62; 165; 200; 171; 9; 112; 98; 200; 160; 34; 200; 58; 99; 202; 200; 23; 31; 134;
   105; 127; 29; 109; 3; 105; 142; 111; 105; 116; 126; 105; 21; 138; 105; 77; 10; 105; 115; 109; 105; 46; 154; 105;
   153; 126; 5; 105; 143; 111; 105; 107; 19; 141; 105; 92; 48; 105; 121; 188; 105; 165; 51; 105; 52; 192; 105; 133;
   110; 105; 111; 190; 105; 135; 197; 105; 152; 70; 105; 76; 17; 105; 65; 147; 105; 171; 107; 105; 136; 39; 180; 44;
   152].

Definition Gen_shift_values_BG1_Z_240 : list Z :=
  [134; 95; 188; 127; 226; 3; 22; 125; 235; 224; 133; 135; 161; 220; 150; 219; 83; 127; 235; 82; 116; 42; 91; 178;
   185; 171; 91; 95; 52; 55; 23; 224; 67; 0; 204; 10; 215; 127; 188; 21; 74; 5; 23; 94; 100; 166; 134; 84; 32; 216;
   152; 199; 86; 95; 31; 219; 124; 234; 89; 162; 66; 104; 229; 171; 136; 215; 218; 134; 135; 96; 189; 128; 226; 227;
   4; 23; 125; 126; 236; 225; 133; 134; 136; 162; 221; 151; 220; 83; 84; 128; 236; 82; 83; 117; 43; 92; 179; 186;
   172; 92; 96; 52; 53; 56; 24; 224; 225; 68; 1; 204; 205; 11; 216; 127; 128; 189; 22; 74; 75; 6; 24; 95; 101; 167;
   134; 135; 85; 33; 216; 217; 153; 200; 87; 96; 32; 219; 220; 125; 235; 89; 90; 163; 67; 104; 105; 230; 172; 136;
   137; 216; 219; 135; 96; 188; 189; 127; 128; 227; 3; 4; 22; 23; 126; 236; 224; 225; 134; 136; 161; 162; 221; 150;
   151; 219; 220; 84; 128; 235; 236; 83; 116; 117; 42; 43; 92; 178; 179; 185; 186; 172; 91; 92; 95; 96; 53; 56; 23;
   24; 225; 67; 68; 0; 1; 205; 11; 215; 216; 128; 189; 21; 22; 75; 5; 6; 23; 24; 95; 100; 101; 166; 167; 135; 85; 32;
   33; 217; 153; 199; 200; 87; 95; 96; 31; 32; 220; 124; 125; 234; 235; 90; 163; 66; 67; 105; 229; 230; 171; 172;
   137; 216; 218; 219; 135; 96; 189; 127; 128; 227; 4; 22; 23; 126; 236; 225; 134; 136; 161; 162; 221; 151; 219; 220;
   84; 128; 236; 83; 117; 42; 43; 92; 179; 185; 186; 172; 92; 95; 96; 53; 56; 24; 225; 68; 0; 1; 205; 11; 215; 216;
   128; 189; 21; 22; 75; 6; 23; 24; 95; 101; 166; 167; 135; 85; 33; 217; 153; 199; 200; 87; 96; 31; 32; 220; 125;
   234; 235; 90; 163; 67; 105; 230; 171; 172; 137; 216; 218; 219; 63; 210; 74; 35; 128; 67; 1; 166; 183; 202; 170;
   65; 175; 164; 73; 75; 101; 46; 160; 90; 159; 23; 67; 175; 22; 56; 222; 31; 118; 125; 111; 31; 35; 232; 235; 203;
   164; 7; 180; 144; 190; 155; 67; 128; 201; 142; 14; 185; 203; 34; 40; 106; 74; 24; 212; 156; 92; 139; 209; 26; 35;
   211; 159; 64; 174; 29; 102; 6; 44; 169; 111; 76; 155; 158; 179; 198; 21; 22; 99; 91; 206; 51; 12; 76; 145; 208;
   31; 165; 17; 47; 173; 8; 134; 101; 226; 227; 40; 165; 166; 180; 139; 25; 156; 41; 42; 175; 60; 61; 104; 38; 164;
   148; 34; 137; 22; 23; 46; 172; 48; 174; 74; 199; 200; 140; 133; 19; 63; 188; 189; 132; 17; 18; 236; 122; 40; 166;
   148; 33; 34; 235; 121; 29; 154; 155; 195; 80; 81; 4; 130; 91; 216; 217; 98; 223; 224; 84; 210; 4; 129; 130; 8;
   133; 134; 205; 91; 208; 94; 176; 61; 62; 137; 23; 220; 105; 106; 153; 38; 39; 117; 3; 163; 49; 128; 13; 14; 40;
   166; 101; 227; 174; 59; 60; 222; 227; 113; 158; 43; 44; 176; 61; 62; 7; 133; 13; 138; 139; 79; 204; 205; 47; 173;
   237; 123; 185; 70; 71; 129; 15; 65; 191; 112; 237; 238; 176; 239; 125; 8; 133; 134; 184; 69; 70; 132; 18; 37; 162;
   163; 147; 32; 33; 2; 128; 75; 201; 219; 104; 105; 144; 17; 143; 142; 27; 28; 84; 209; 210; 49; 175; 128; 14; 131;
   16; 17; 198; 168; 11; 205; 220; 16; 211; 91; 204; 115; 150; 69; 229; 114; 83; 59; 1; 2; 20; 203; 113; 56; 52; 235;
   44; 151; 93; 94; 168; 111; 187; 130; 114; 50; 232; 233; 160; 103; 149; 92; 58; 0; 1; 60; 3; 86; 29; 145; 88; 75;
   18; 144; 87; 8; 190; 191; 52; 235; 160; 103; 7; 189; 190; 41; 224; 207; 150; 16; 199; 103; 46; 110; 53; 96; 39;
   16; 199; 20; 203; 217; 159; 160; 220; 163; 188; 131; 149; 91; 92; 232; 175; 165; 108; 129; 71; 72; 175; 118; 140;
   83; 52; 234; 235; 113; 56; 186; 129; 133; 239; 181; 182; 170; 113; 188; 131; 19; 202; 25; 208; 91; 34; 59; 1; 2;
   9; 192; 197; 140; 141; 83; 84; 77; 20; 124; 67; 0; 11; 194; 20; 203; 196; 139; 144; 86; 87; 49; 232; 159; 102; 14;
   196; 197; 87; 30; 231; 174; 29; 211; 212; 154; 97; 96; 39; 61; 3; 4; 140; 83; 143; 86; 151; 185; 214; 123; 179;
   97; 79; 44; 45; 6; 99; 38; 219; 136; 137; 154; 173; 35; 36; 146; 135; 43; 44; 46; 72; 184; 131; 61; 130; 233; 234;
   38; 146; 232; 233; 27; 193; 2; 89; 96; 153; 82; 2; 6; 202; 203; 206; 174; 134; 135; 218; 151; 114; 115; 161; 126;
   37; 38; 99; 172; 224; 225; 156; 174; 5; 11; 77; 44; 45; 235; 183; 126; 127; 63; 110; 237; 6; 182; 129; 130; 35;
   145; 239; 0; 73; 217; 14; 15; 140; 82; 177; 46; 47; 126; 129; 123; 143; 181; 94; 71; 75; 184; 145; 238; 176; 177;
   38; 36; 53; 71; 72; 137; 175; 45; 34; 183; 185; 210; 211; 30; 200; 28; 29; 133; 177; 45; 132; 166; 91; 92; 141;
   228; 234; 235; 221; 141; 144; 145; 102; 105; 73; 34; 117; 49; 50; 219; 14; 60; 24; 25; 177; 238; 70; 71; 124; 55;
   72; 73; 172; 144; 150; 215; 216; 184; 134; 82; 26; 202; 8; 9; 136; 145; 80; 81; 29; 174; 43; 44; 141; 139; 212;
   116; 154; 39; 220; 221; 186; 25; 27; 28; 99; 60; 153; 92; 191; 208; 227; 77; 90; 200; 189; 98; 100; 126; 151; 185;
   115; 184; 48; 92; 200; 47; 81; 7; 56; 143; 150; 136; 56; 60; 17; 20; 228; 189; 32; 205; 169; 215; 180; 83; 92;
   153; 226; 39; 210; 228; 59; 65; 131; 99; 49; 237; 181; 117; 164; 51; 60; 236; 184; 89; 199; 54; 127; 31; 69; 194;
   136; 4; 101; 180; 183; 182; 111; 105; 218; 128; 182; 214; 179; 142; 13; 178; 107; 158; 137; 195; 24; 225; 78; 17;
   76; 116; 133; 152; 15; 125; 114; 23; 25; 51; 186; 110; 40; 109; 213; 17; 125; 212; 6; 172; 221; 68; 75; 61; 221;
   225; 182; 185; 153; 202; 114; 197; 130; 94; 140; 105; 166; 17; 78; 151; 204; 135; 153; 224; 230; 56; 24; 214; 162;
   106; 42; 89; 216; 225; 161; 109; 14; 124; 219; 52; 196; 234; 119; 61; 26; 105; 108; 196; 121; 214; 64; 215; 24;
   46; 125; 177; 184; 126; 116; 198; 192; 153; 6; 185; 31; 44; 61; 80; 183; 53; 42; 191; 193; 219; 177; 38; 208; 37;
   1; 141; 185; 53; 140; 174; 100; 149; 236; 3; 229; 149; 153; 110; 113; 81; 42; 125; 58; 22; 68; 33; 155; 185; 6;
   79; 132; 63; 81; 152; 158; 224; 192; 142; 90; 34; 210; 17; 144; 153; 89; 37; 182; 52; 147; 220; 124; 162; 47; 229;
   194; 33; 36; 26; 140; 10; 180; 162; 130; 168; 97; 164; 231; 8; 31; 42; 199; 204; 238; 199; 52; 230; 231; 90; 107;
   125; 126; 231; 229; 99; 88; 237; 239; 24; 25; 84; 14; 82; 83; 187; 231; 99; 186; 220; 145; 146; 195; 42; 48; 49;
   35; 195; 198; 199; 156; 159; 127; 88; 171; 103; 104; 68; 114; 78; 79; 231; 52; 124; 125; 178; 109; 126; 127; 198;
   204; 29; 30; 31; 238; 188; 136; 80; 16; 62; 63; 190; 199; 134; 135; 83; 228; 97; 98; 117; 193; 26; 170; 208; 93;
   34; 35; 0; 79; 81; 82; 0; 201; 53; 54; 232; 233; 169; 92; 108; 109; 127; 128; 231; 101; 89; 90; 239; 1; 26; 27;
   86; 15; 16; 84; 85; 189; 233; 100; 101; 188; 221; 222; 147; 148; 197; 43; 44; 50; 51; 37; 196; 197; 200; 201; 158;
   161; 128; 129; 90; 172; 173; 105; 106; 198; 70; 116; 80; 81; 233; 54; 126; 127; 180; 110; 111; 128; 129; 25; 200;
   205; 206; 31; 32; 0; 190; 137; 138; 82; 18; 64; 65; 192; 200; 201; 136; 137; 85; 229; 230; 99; 100; 195; 28; 171;
   172; 210; 94; 95; 36; 37; 2; 81; 83; 84; 69; 3; 30; 204; 123; 57; 62; 235; 236; 161; 95; 178; 112; 197; 130; 131;
   72; 60; 234; 170; 104; 159; 93; 68; 2; 70; 4; 96; 29; 30; 155; 89; 85; 19; 154; 87; 88; 18; 192; 62; 236; 170;
   104; 17; 191; 51; 225; 217; 150; 151; 26; 200; 113; 47; 120; 53; 54; 148; 106; 40; 26; 200; 30; 203; 204; 227;
   161; 230; 164; 198; 132; 159; 93; 2; 176; 175; 108; 109; 139; 73; 185; 119; 150; 83; 84; 62; 236; 123; 57; 196;
   129; 130; 9; 183; 180; 114; 198; 131; 132; 29; 203; 35; 209; 101; 34; 35; 69; 3; 19; 193; 207; 141; 151; 85; 87;
   21; 134; 67; 68; 21; 195; 30; 204; 206; 139; 140; 154; 88; 59; 233; 169; 102; 103; 24; 198; 97; 31; 1; 175; 39;
   213; 164; 98; 106; 39; 40; 71; 5; 150; 84; 153; 86; 87; 106; 67; 159; 160; 98; 99; 102; 198; 214; 215; 233; 234;
   97; 207; 195; 196; 105; 107; 132; 133; 192; 121; 122; 190; 191; 55; 99; 206; 207; 54; 87; 88; 13; 14; 63; 149;
   150; 156; 157; 143; 62; 63; 66; 67; 24; 27; 234; 235; 196; 38; 39; 211; 212; 176; 222; 186; 187; 99; 160; 232;
   233; 109; 46; 216; 217; 234; 235; 66; 71; 72; 137; 138; 150; 106; 56; 3; 4; 188; 124; 170; 171; 58; 66; 67; 2; 3;
   191; 95; 96; 205; 206; 61; 134; 37; 38; 76; 200; 201; 142; 143; 108; 187; 189; 190; 198; 131; 171; 64; 160; 236;
   141; 179; 234; 195; 48; 227; 86; 103; 122; 230; 225; 95; 84; 233; 235; 21; 80; 10; 79; 183; 227; 95; 182; 216;
   142; 173; 191; 38; 45; 31; 191; 195; 152; 155; 123; 84; 167; 100; 64; 110; 75; 227; 48; 121; 144; 174; 105; 123;
   194; 200; 26; 234; 184; 132; 76; 12; 59; 186; 195; 131; 79; 224; 94; 189; 22; 166; 204; 89; 31; 236; 75; 78; 10;
   206; 41; 99; 55; 56; 17; 110; 49; 147; 148; 165; 184; 58; 46; 47; 157; 146; 54; 55; 57; 83; 142; 72; 141; 4; 5;
   49; 157; 3; 4; 38; 204; 13; 100; 107; 93; 13; 17; 213; 214; 217; 185; 145; 146; 229; 162; 125; 126; 172; 137; 48;
   49; 110; 183; 235; 236; 167; 185; 203; 16; 22; 88; 55; 56; 6; 194; 137; 138; 74; 121; 8; 17; 193; 140; 141; 46;
   156; 10; 11; 84; 228; 25; 26; 151; 93; 57; 58; 137; 140; 120; 89; 25; 139; 114; 187; 167; 51; 3; 102; 29; 52; 188;
   214; 23; 206; 167; 19; 20; 198; 199; 221; 58; 74; 75; 93; 94; 197; 67; 55; 56; 205; 207; 232; 233; 52; 221; 222;
   50; 51; 169; 155; 199; 66; 67; 154; 187; 188; 113; 114; 163; 9; 10; 16; 17; 3; 162; 163; 166; 167; 124; 127; 94;
   95; 56; 138; 139; 71; 72; 36; 82; 46; 47; 199; 20; 92; 93; 146; 76; 77; 94; 95; 166; 171; 172; 237; 238; 206; 156;
   103; 104; 48; 224; 30; 31; 158; 166; 167; 102; 103; 51; 195; 196; 65; 66; 161; 234; 137; 138; 176; 60; 61; 2; 3;
   208; 47; 49; 50; 20; 221; 74; 12; 13; 112; 129; 147; 148; 21; 11; 121; 110; 19; 21; 46; 47; 106; 36; 104; 105;
   209; 13; 121; 208; 2; 167; 168; 217; 64; 70; 71; 57; 217; 220; 221; 178; 181; 149; 110; 193; 125; 126; 90; 136;
   100; 101; 13; 74; 146; 147; 200; 131; 148; 149; 220; 226; 51; 52; 20; 210; 158; 102; 38; 84; 85; 126; 212; 221;
   156; 157; 105; 10; 119; 120; 48; 215; 48; 192; 230; 115; 56; 57; 22; 101; 103; 104; 42; 3; 96; 35; 190; 134; 151;
   170; 33; 143; 132; 41; 43; 69; 128; 58; 127; 231; 35; 143; 230; 24; 190; 239; 86; 93; 210; 79; 239; 3; 200; 203;
   171; 186; 132; 215; 148; 112; 158; 123; 35; 96; 169; 222; 153; 171; 2; 8; 74; 42; 232; 180; 124; 60; 107; 234; 3;
   179; 127; 32; 142; 237; 70; 214; 12; 137; 79; 44; 123; 126; 176; 113; 92].

Definition no_shift_values_BG2 : list Z :=
  [3; 3; 2; 3; 3; 2; 3; 2; 3; 3; 4; 4; 3; 4; 3; 2; 4; 2; 3; 4; 5; 4; 3; 5; 4; 3; 5; 3; 4; 5; 3; 4; 3; 3; 4; 3; 4; 3;
   4; 4; 5; 5; 3; 4; 3; 2; 4; 2; 3; 4; 5; 5; 3; 4; 3; 3; 4; 3; 3; 4; 5; 4; 3; 4; 3; 3; 4; 3; 3; 5; 7; 9; 6; 7; 7; 6;
   8; 6; 7; 8; 6; 5; 3; 5; 4; 3; 5; 3; 4; 5; 7; 8; 5; 7; 6; 4; 7; 4; 7; 7; 1; 1; 0; 0; 0; 0; 1; 1; 0; 0; 4; 4; 3; 3;
   4; 3; 4; 4; 4; 5; 4; 5; 3; 5; 3; 2; 4; 2; 3; 4; 4; 5; 3; 3; 4; 3; 4; 3; 5; 4; 7; 9; 6; 7; 7; 5; 9; 5; 7; 8; 8; 7;
   5; 7; 6; 4; 7; 4; 6; 7; 9; 9; 6; 9; 7; 5; 9; 5; 7; 10; 9; 9; 6; 9; 7; 6; 9; 5; 7; 9; 1; 0; 0; 0; 0; 0; 1; 1; 0; 0;
   4; 4; 2; 3; 3; 2; 3; 2; 3; 3; 4; 5; 3; 4; 4; 2; 4; 2; 3; 4; 4; 4; 3; 3; 4; 3; 4; 3; 5; 4; 0; 1; 1; 0; 0; 0; 0; 0;
   0; 0; 1; 0; 0; 1; 0; 1; 0; 0; 0; 0; 0; 1; 1; 0; 0; 0; 0; 0; 0; 1; 1; 0; 0; 0; 0; 1; 0; 0; 0; 0; 8; 8; 7; 8; 8; 6;
   9; 7; 8; 9; 1; 0; 0; 0; 0; 0; 1; 0; 0; 0; 0; 1; 1; 0; 0; 1; 0; 0; 0; 0; 1; 0; 0; 0; 1; 0; 0; 0; 0; 0; 0; 0; 1; 0;
   0; 1; 0; 1; 0; 1; 3; 5; 3; 3; 4; 3; 4; 3; 4; 4; 6; 4; 3; 5; 4; 4; 5; 3; 4; 5; 3; 3; 3; 3; 3; 2; 3; 3; 3; 3; 9; 8;
   6; 8; 8; 6; 9; 6; 8; 9; 4; 5; 3; 4; 3; 3; 4; 2; 3; 4; 1; 0; 1; 0; 0; 0; 0; 1; 0; 0; 6; 7; 5; 6; 7; 5; 7; 5; 7; 7;
   4; 5; 3; 4; 3; 3; 4; 2; 3; 4; 6; 4; 3; 5; 4; 3; 5; 4; 4; 5; 6; 7; 6; 6; 7; 5; 7; 5; 7; 7; 4; 5; 3; 4; 3; 3; 4; 2;
   3; 4].

Definition pointer_shift_values_BG2 : list Z :=
  [0; 3; 6; 8; 11; 14; 16; 19; 21; 24; 27; 31; 35; 38; 42; 45; 47; 51; 53; 56; 60; 65; 69; 72; 77; 81; 84; 89; 92;
   96; 101; 104; 108; 111; 114; 118; 121; 125; 128; 132; 136; 141; 146; 149; 153; 156; 158; 162; 164; 167; 171; 176;
   181; 184; 188; 191; 194; 198; 201; 204; 208; 213; 217; 220; 224; 227; 230; 234; 237; 240; 245; 252; 261; 267; 274;
   281; 287; 295; 301; 308; 316; 322; 327; 330; 335; 339; 342; 347; 350; 354; 359; 366; 374; 379; 386; 392; 396; 403;
   407; 414; 421; 422; 423; 423; 423; 423; 423; 424; 425; 425; 425; 429; 433; 436; 439; 443; 446; 450; 454; 458; 463;
   467; 472; 475; 480; 483; 485; 489; 491; 494; 498; 502; 507; 510; 513; 517; 520; 524; 527; 532; 536; 543; 552; 558;
   565; 572; 577; 586; 591; 598; 606; 614; 621; 626; 633; 639; 643; 650; 654; 660; 667; 676; 685; 691; 700; 707; 712;
   721; 726; 733; 743; 752; 761; 767; 776; 783; 789; 798; 803; 810; 819; 820; 820; 820; 820; 820; 820; 821; 822; 822;
   822; 826; 830; 832; 835; 838; 840; 843; 845; 848; 851; 855; 860; 863; 867; 871; 873; 877; 879; 882; 886; 890; 894;
   897; 900; 904; 907; 911; 914; 919; 923; 923; 924; 925; 925; 925; 925; 925; 925; 925; 925; 926; 926; 926; 927; 927;
   928; 928; 928; 928; 928; 928; 929; 930; 930; 930; 930; 930; 930; 930; 931; 932; 932; 932; 932; 932; 933; 933; 933;
   933; 933; 941; 949; 956; 964; 972; 978; 987; 994; 1002; 1011; 1012; 1012; 1012; 1012; 1012; 1012; 1013; 1013;
   1013; 1013; 1013; 1014; 1015; 1015; 1015; 1016; 1016; 1016; 1016; 1016; 1017; 1017; 1017; 1017; 1018; 1018; 1018;
   1018; 1018; 1018; 1018; 1018; 1019; 1019; 1019; 1020; 1020; 1021; 1021; 1022; 1025; 1030; 1033; 1036; 1040; 1043;
   1047; 1050; 1054; 1058; 1064; 1068; 1071; 1076; 1080; 1084; 1089; 1092; 1096; 1101; 1104; 1107; 1110; 1113; 1116;
   1118; 1121; 1124; 1127; 1130; 1139; 1147; 1153; 1161; 1169; 1175; 1184; 1190; 1198; 1207; 1211; 1216; 1219; 1223;
   1226; 1229; 1233; 1235; 1238; 1242; 1243; 1243; 1244; 1244; 1244; 1244; 1244; 1245; 1245; 1245; 1251; 1258; 1263;
   1269; 1276; 1281; 1288; 1293; 1300; 1307; 1311; 1316; 1319; 1323; 1326; 1329; 1333; 1335; 1338; 1342; 1348; 1352;
   1355; 1360; 1364; 1367; 1372; 1376; 1380; 1385; 1391; 1398; 1404; 1410; 1417; 1422; 1429; 1434; 1441; 1448; 1452;
   1457; 1460; 1464; 1467; 1470; 1474; 1476; 1479].

Definition Gen_shift_values_BG2_Z_256 : list Z :=
  [7; 165; 79; 115; 112; 6; 202; 56; 24; 164; 42; 251; 50; 156; 123; 102; 187; 224; 207; 154; 52; 222; 238; 16; 203;
   250; 126; 8; 7; 165; 79; 116; 115; 112; 6; 203; 202; 56; 25; 24; 164; 42; 251; 50; 156; 123; 102; 188; 187; 224;
   207; 154; 52; 222; 238; 16; 204; 203; 250; 126; 8; 7; 166; 165; 79; 116; 115; 112; 6; 203; 202; 56; 25; 24; 165;
   164; 42; 252; 251; 50; 156; 124; 123; 102; 188; 187; 225; 224; 207; 155; 154; 52; 223; 222; 238; 16; 204; 203;
   251; 250; 126; 7; 165; 79; 115; 112; 7; 6; 202; 57; 56; 24; 164; 42; 251; 50; 157; 156; 123; 103; 102; 187; 224;
   208; 207; 154; 53; 52; 222; 238; 17; 16; 203; 250; 127; 126; 79; 78; 236; 150; 178; 187; 186; 183; 77; 213; 18;
   17; 127; 96; 95; 235; 113; 66; 121; 227; 194; 173; 3; 2; 39; 22; 225; 123; 37; 53; 87; 19; 18; 65; 197; 111; 110;
   12; 182; 230; 219; 218; 215; 109; 40; 50; 49; 159; 128; 127; 11; 145; 98; 153; 3; 226; 205; 193; 35; 34; 71; 54;
   1; 155; 158; 69; 85; 119; 51; 50; 97; 229; 166; 165; 67; 237; 154; 18; 17; 14; 164; 105; 104; 214; 183; 182; 66;
   200; 153; 208; 58; 25; 4; 227; 90; 89; 126; 109; 56; 210; 44; 124; 140; 174; 106; 105; 152; 28; 27; 11; 10; 123;
   168; 25; 82; 195; 119; 118; 231; 115; 228; 123; 9; 122; 128; 206; 205; 62; 173; 59; 172; 28; 27; 140; 167; 24; 45;
   158; 254; 111; 53; 166; 17; 159; 16; 126; 239; 219; 105; 218; 146; 191; 190; 47; 227; 84; 68; 210; 67; 157; 14;
   169; 55; 168; 139; 225; 82; 241; 98; 133; 19; 132; 207; 206; 63; 253; 110; 243; 129; 242; 238; 237; 140; 139; 53;
   141; 90; 89; 86; 236; 93; 177; 176; 30; 255; 254; 139; 138; 16; 226; 225; 24; 130; 98; 97; 76; 162; 161; 199; 198;
   181; 129; 128; 26; 197; 196; 212; 246; 178; 177; 225; 224; 100; 255; 68; 254; 226; 156; 140; 70; 107; 176; 106;
   173; 103; 67; 253; 202; 194; 7; 193; 117; 47; 16; 85; 15; 225; 155; 103; 33; 56; 242; 111; 41; 217; 147; 184; 114;
   163; 93; 179; 248; 178; 29; 215; 12; 198; 215; 145; 113; 43; 27; 213; 43; 229; 77; 7; 204; 195; 8; 194; 55; 241;
   187; 117; 10; 184; 255; 116; 63; 221; 135; 10; 171; 168; 63; 62; 2; 113; 112; 80; 220; 98; 51; 106; 213; 212; 179;
   159; 158; 243; 24; 8; 7; 210; 109; 108; 235; 22; 38; 73; 72; 3; 50; 183; 182; 209; 22; 21; 179; 93; 130; 129; 126;
   20; 62; 217; 216; 70; 39; 38; 178; 56; 110; 9; 64; 170; 137; 116; 202; 201; 238; 221; 168; 66; 236; 252; 30; 218;
   217; 8; 140; 229; 131; 45; 82; 81; 78; 229; 228; 1; 168; 23; 22; 246; 130; 8; 217; 16; 123; 122; 89; 69; 68; 153;
   190; 174; 173; 120; 19; 18; 188; 204; 239; 238; 37; 169; 216; 93; 92; 11; 10; 239; 168; 141; 82; 55; 119; 118; 91;
   115; 88; 239; 9; 238; 114; 206; 205; 178; 33; 59; 32; 28; 27; 0; 167; 140; 45; 18; 254; 227; 53; 26; 133; 159;
   132; 126; 99; 79; 105; 78; 191; 190; 163; 227; 200; 184; 210; 183; 144; 157; 130; 29; 55; 28; 225; 198; 241; 214;
   249; 19; 248; 207; 206; 179; 253; 226; 103; 129; 102; 221; 182; 220; 84; 122; 254; 36; 50; 73; 34; 72; 31; 69;
   181; 219; 160; 121; 159; 231; 13; 238; 199; 237; 83; 121; 217; 255; 170; 208; 225; 7; 75; 113; 42; 80; 21; 59;
   145; 106; 144; 143; 181; 126; 164; 73; 111; 227; 9; 141; 179; 157; 195; 191; 229; 161; 122; 160; 169; 207; 45; 83;
   16; 250; 15; 249; 152; 173; 151; 87; 65; 124; 102; 123; 101; 120; 98; 14; 248; 202; 211; 189; 210; 188; 64; 42;
   33; 11; 32; 10; 151; 172; 150; 50; 28; 238; 3; 237; 58; 36; 164; 142; 110; 131; 109; 110; 88; 196; 174; 195; 173;
   211; 232; 210; 215; 193; 141; 162; 140; 60; 38; 209; 230; 208; 246; 224; 24; 2; 212; 190; 211; 189; 237; 2; 236;
   134; 112; 141; 122; 72; 121; 71; 230; 23; 229; 193; 143; 230; 180; 229; 179; 226; 176; 120; 70; 253; 61; 11; 60;
   10; 170; 120; 139; 89; 138; 88; 229; 22; 228; 156; 106; 60; 109; 59; 164; 114; 14; 220; 188; 237; 187; 216; 166;
   123; 46; 252; 45; 251; 33; 82; 32; 65; 15; 219; 12; 218; 166; 116; 31; 80; 30; 96; 46; 130; 80; 62; 12; 61; 11;
   59; 108; 58; 240; 190; 219; 193; 49; 192; 94; 8; 86; 44; 41; 191; 19; 131; 241; 209; 93; 227; 180; 235; 85; 52;
   31; 116; 153; 136; 83; 237; 151; 167; 201; 132; 179; 55; 37; 36; 194; 108; 145; 144; 141; 35; 25; 232; 231; 85;
   54; 53; 193; 71; 24; 79; 185; 104; 152; 131; 217; 216; 253; 236; 183; 81; 251; 11; 45; 233; 232; 23; 155; 217;
   119; 33; 75; 69; 66; 217; 216; 156; 11; 10; 234; 118; 252; 205; 4; 111; 110; 77; 57; 56; 141; 178; 162; 161; 108;
   7; 6; 176; 192; 227; 226; 41; 157; 204; 81; 80; 221; 62; 22; 234; 237; 45; 138; 7; 227; 155; 168; 167; 129; 70;
   69; 31; 239; 201; 20; 19; 237; 16; 234; 129; 166; 128; 107; 106; 68; 179; 216; 178; 28; 185; 184; 146; 69; 68; 30;
   202; 164; 156; 155; 117; 210; 172; 23; 60; 22; 28; 27; 245; 225; 6; 224; 92; 91; 53; 129; 128; 90; 74; 111; 73;
   59; 58; 20; 175; 212; 174; 142; 127; 126; 88; 142; 104; 139; 176; 138; 108; 107; 69; 155; 154; 116; 249; 30; 248;
   7; 150; 97; 100; 134; 17; 27; 70; 239; 8; 83; 8; 166; 80; 116; 113; 8; 7; 105; 203; 58; 57; 25; 165; 43; 252; 51;
   158; 157; 124; 104; 103; 188; 225; 209; 208; 155; 54; 53; 223; 239; 18; 17; 204; 251; 128; 127; 174; 173; 76; 75;
   245; 241; 26; 25; 22; 172; 113; 112; 222; 191; 190; 75; 74; 208; 162; 161; 216; 66; 34; 33; 12; 43; 98; 97; 135;
   134; 117; 65; 64; 218; 133; 132; 148; 182; 114; 113; 161; 160; 36; 242; 144; 58; 94; 91; 241; 181; 35; 131; 3;
   143; 21; 230; 29; 135; 102; 81; 166; 203; 186; 133; 31; 163; 201; 217; 251; 182; 229; 105; 93; 92; 43; 251; 250;
   201; 164; 115; 146; 201; 200; 151; 197; 148; 43; 91; 42; 32; 31; 238; 93; 141; 92; 110; 109; 60; 250; 249; 200;
   127; 78; 81; 80; 31; 135; 86; 193; 241; 192; 209; 208; 159; 139; 187; 138; 17; 16; 223; 54; 53; 4; 244; 36; 243;
   240; 239; 190; 89; 137; 88; 52; 51; 2; 67; 18; 53; 101; 52; 33; 32; 239; 80; 79; 30; 163; 211; 162; 71; 70; 228;
   142; 179; 178; 175; 69; 56; 10; 9; 119; 88; 87; 227; 105; 58; 113; 219; 186; 165; 39; 251; 250; 31; 14; 217; 115;
   29; 45; 79; 11; 10; 57; 189; 139; 37; 153; 226; 158; 128; 60; 42; 230; 78; 10; 75; 7; 158; 225; 157; 165; 97; 208;
   19; 207; 243; 175; 127; 59; 5; 193; 214; 146; 13; 201; 52; 119; 51; 86; 18; 254; 65; 253; 150; 82; 187; 119; 103;
   170; 102; 117; 49; 204; 15; 203; 185; 117; 201; 133; 168; 235; 167; 166; 98; 213; 145; 22; 89; 21; 46; 45; 203;
   117; 154; 153; 150; 44; 30; 241; 240; 94; 63; 62; 202; 80; 33; 88; 194; 161; 140; 65; 226; 225; 6; 245; 192; 90;
   4; 20; 54; 242; 241; 32; 164; 42; 41; 200; 199; 113; 238; 150; 149; 146; 40; 237; 236; 90; 59; 58; 199; 198; 76;
   30; 29; 84; 190; 158; 157; 136; 222; 221; 3; 2; 241; 189; 188; 86; 171; 1; 0; 16; 50; 238; 237; 29; 28; 160; 82;
   127; 240; 29; 154; 199; 190; 235; 187; 232; 127; 81; 126; 21; 66; 177; 131; 176; 255; 99; 144; 239; 28; 117; 162;
   70; 115; 125; 170; 21; 231; 20; 198; 243; 223; 177; 222; 6; 51; 43; 88; 72; 26; 71; 229; 18; 173; 127; 172; 41;
   86; 57; 102; 137; 91; 136; 22; 67; 69; 114; 247; 201; 246; 126; 125; 27; 197; 234; 233; 230; 124; 128; 65; 64;
   174; 143; 142; 26; 160; 113; 168; 18; 241; 220; 228; 50; 49; 86; 69; 16; 170; 84; 100; 134; 66; 65; 112; 244].

Definition Gen_shift_values_BG2_Z_384 : list Z :=
  [172; 25; 23; 95; 112; 134; 164; 173; 64; 34; 115; 46; 108; 111; 90; 70; 69; 29; 121; 185; 116; 183; 112; 26; 170;
   1; 184; 173; 172; 25; 23; 96; 95; 112; 134; 165; 164; 173; 65; 64; 34; 115; 46; 108; 111; 90; 70; 70; 69; 29; 121;
   185; 116; 183; 112; 26; 171; 170; 1; 184; 173; 172; 26; 25; 23; 96; 95; 112; 134; 165; 164; 173; 65; 64; 35; 34;
   115; 47; 46; 108; 111; 91; 90; 70; 70; 69; 30; 29; 121; 186; 185; 116; 184; 183; 112; 26; 171; 170; 2; 1; 184;
   172; 25; 23; 95; 112; 135; 134; 164; 174; 173; 64; 34; 115; 46; 108; 112; 111; 90; 71; 70; 69; 29; 122; 121; 185;
   117; 116; 183; 112; 27; 26; 170; 1; 185; 184; 202; 201; 54; 52; 71; 125; 124; 141; 163; 73; 194; 193; 202; 94; 93;
   63; 144; 75; 137; 140; 119; 99; 99; 98; 58; 150; 214; 145; 212; 141; 55; 200; 199; 30; 213; 221; 220; 73; 71; 9;
   144; 143; 160; 182; 43; 213; 212; 221; 113; 112; 82; 163; 94; 156; 159; 138; 118; 120; 118; 117; 77; 169; 233;
   164; 79; 231; 160; 74; 219; 218; 49; 232; 357; 356; 209; 207; 128; 280; 279; 296; 318; 349; 348; 357; 249; 248;
   218; 299; 230; 292; 295; 274; 254; 91; 254; 253; 213; 305; 369; 300; 99; 367; 296; 210; 355; 354; 185; 368; 48;
   275; 274; 315; 127; 168; 125; 166; 198; 197; 238; 214; 255; 236; 278; 277; 79; 267; 266; 307; 275; 317; 316; 167;
   166; 207; 136; 177; 217; 258; 148; 189; 210; 251; 213; 255; 254; 192; 233; 172; 214; 213; 185; 172; 171; 212; 131;
   172; 223; 265; 264; 287; 328; 218; 260; 259; 15; 285; 326; 214; 255; 128; 170; 169; 273; 272; 313; 103; 144; 286;
   328; 327; 325; 324; 178; 177; 175; 117; 248; 247; 264; 286; 69; 317; 316; 325; 217; 216; 187; 186; 267; 199; 198;
   260; 263; 243; 242; 222; 222; 221; 182; 181; 273; 338; 337; 268; 336; 335; 264; 178; 323; 322; 154; 153; 336; 357;
   351; 350; 210; 203; 208; 201; 280; 274; 273; 297; 290; 319; 312; 27; 349; 343; 342; 358; 351; 249; 243; 242; 219;
   212; 300; 293; 231; 224; 293; 286; 296; 289; 275; 268; 255; 248; 254; 248; 247; 214; 207; 306; 299; 370; 363; 301;
   294; 368; 361; 297; 290; 211; 204; 131; 355; 349; 348; 186; 179; 369; 362; 58; 103; 21; 51; 326; 179; 177; 31;
   249; 266; 289; 288; 318; 328; 327; 218; 188; 269; 200; 262; 266; 265; 244; 225; 224; 223; 183; 276; 275; 339; 271;
   270; 91; 337; 266; 181; 180; 324; 155; 339; 338; 173; 184; 183; 36; 34; 107; 106; 123; 145; 38; 176; 175; 184; 76;
   75; 45; 126; 92; 57; 119; 122; 101; 81; 81; 80; 40; 132; 196; 127; 194; 123; 37; 182; 181; 12; 195; 338; 191; 189;
   48; 261; 278; 301; 300; 124; 330; 340; 339; 230; 200; 281; 212; 274; 278; 277; 256; 237; 236; 235; 195; 288; 287;
   351; 283; 282; 349; 278; 193; 192; 34; 336; 167; 351; 350; 194; 193; 335; 46; 188; 44; 186; 117; 116; 258; 133;
   275; 155; 298; 297; 18; 186; 185; 327; 194; 337; 336; 86; 85; 227; 55; 197; 136; 278; 67; 209; 129; 271; 132; 275;
   274; 111; 253; 91; 234; 233; 91; 90; 232; 50; 192; 142; 285; 284; 117; 206; 348; 137; 280; 279; 204; 346; 133;
   275; 47; 190; 189; 192; 191; 333; 22; 164; 205; 348; 347; 235; 254; 253; 88; 106; 86; 104; 67; 158; 177; 176; 175;
   193; 197; 215; 227; 246; 245; 236; 254; 127; 146; 145; 97; 115; 178; 196; 109; 127; 171; 189; 174; 192; 153; 171;
   133; 151; 132; 151; 150; 92; 110; 184; 202; 248; 266; 179; 197; 246; 264; 175; 193; 89; 107; 233; 252; 251; 64;
   82; 247; 265; 308; 307; 237; 236; 160; 90; 89; 158; 87; 231; 230; 160; 159; 247; 176; 269; 198; 86; 300; 299; 229;
   228; 308; 237; 200; 199; 129; 128; 169; 99; 98; 250; 179; 181; 111; 110; 243; 172; 246; 175; 225; 155; 154; 205;
   134; 205; 204; 134; 133; 164; 94; 93; 256; 185; 320; 250; 249; 251; 180; 318; 248; 247; 247; 176; 161; 90; 306;
   305; 235; 234; 136; 66; 65; 319; 248; 176; 182; 181; 179; 178; 34; 32; 31; 32; 29; 105; 104; 102; 101; 121; 118;
   143; 140; 157; 174; 173; 171; 170; 182; 179; 74; 73; 71; 70; 43; 41; 40; 124; 121; 55; 53; 52; 117; 114; 120; 117;
   99; 97; 96; 79; 76; 22; 79; 78; 76; 75; 38; 36; 35; 130; 127; 194; 192; 191; 125; 122; 192; 190; 189; 121; 118;
   35; 32; 180; 179; 177; 176; 10; 8; 7; 193; 190; 185; 5; 45; 328; 181; 179; 57; 251; 268; 290; 41; 320; 329; 220;
   190; 271; 202; 264; 267; 246; 226; 225; 185; 277; 341; 272; 339; 268; 182; 326; 157; 340; 326; 325; 178; 176; 249;
   248; 265; 287; 75; 318; 317; 326; 218; 217; 187; 268; 199; 261; 264; 60; 243; 223; 223; 222; 182; 274; 338; 269;
   336; 265; 179; 324; 323; 154; 337; 239; 92; 90; 156; 162; 179; 202; 201; 231; 241; 240; 131; 101; 182; 113; 175;
   179; 178; 157; 138; 137; 136; 96; 189; 188; 252; 184; 183; 250; 179; 94; 93; 174; 237; 68; 252; 251; 19; 51; 105;
   85; 94; 181; 152; 63; 44; 20; 228; 227; 257; 81; 80; 110; 78; 108; 151; 150; 180; 167; 197; 189; 220; 219; 220;
   219; 249; 228; 259; 258; 66; 120; 119; 149; 90; 89; 119; 170; 200; 102; 101; 131; 163; 193; 166; 197; 196; 146;
   145; 175; 125; 156; 155; 125; 124; 154; 85; 84; 114; 176; 207; 206; 241; 240; 270; 171; 202; 201; 136; 239; 238;
   268; 167; 197; 81; 112; 111; 226; 225; 255; 57; 56; 86; 239; 270; 269; 102; 49; 69; 110; 167; 109; 16; 119; 153;
   51; 55; 342; 195; 193; 265; 282; 305; 304; 2; 334; 344; 343; 234; 204; 285; 216; 278; 282; 281; 260; 241; 240;
   239; 199; 292; 291; 355; 287; 286; 353; 282; 197; 196; 340; 171; 355; 354; 190; 189; 43; 42; 40; 83; 113; 112;
   129; 151; 182; 181; 190; 82; 81; 52; 51; 132; 64; 63; 125; 128; 108; 107; 87; 7; 87; 86; 47; 46; 138; 203; 202;
   133; 201; 200; 129; 43; 188; 187; 19; 18; 201; 296; 149; 147; 219; 236; 258; 288; 297; 164; 188; 158; 239; 170;
   232; 235; 214; 194; 193; 153; 245; 309; 240; 178; 307; 236; 150; 294; 125; 308; 350; 349; 184; 203; 202; 37; 200;
   35; 172; 273; 272; 107; 289; 124; 311; 147; 146; 342; 341; 176; 350; 186; 185; 242; 241; 76; 212; 211; 46; 292;
   127; 224; 223; 58; 285; 120; 288; 124; 123; 268; 267; 102; 247; 83; 82; 247; 246; 81; 207; 206; 41; 298; 134; 133;
   363; 362; 197; 293; 129; 128; 361; 360; 195; 289; 124; 203; 39; 38; 348; 347; 182; 179; 178; 13; 361; 197; 196;
   191; 190; 43; 41; 114; 113; 130; 152; 76; 183; 182; 191; 83; 82; 52; 133; 64; 126; 129; 108; 88; 183; 88; 87; 47;
   139; 203; 134; 201; 130; 44; 189; 188; 19; 202; 24; 150; 169; 209; 203; 62; 56; 60; 54; 132; 126; 149; 143; 171;
   166; 165; 201; 195; 210; 205; 204; 101; 95; 71; 65; 152; 146; 83; 77; 145; 139; 148; 143; 142; 127; 121; 107; 102;
   101; 106; 100; 66; 60; 158; 153; 152; 222; 216; 153; 148; 147; 220; 214; 149; 143; 63; 58; 57; 207; 201; 38; 32;
   221; 216; 215; 363; 362; 215; 213; 286; 285; 302; 324; 83; 355; 354; 363; 255; 254; 224; 305; 236; 298; 301; 280;
   260; 150; 260; 259; 219; 311; 375; 306; 373; 302; 216; 361; 360; 191; 374; 230; 229; 83; 82; 80; 92; 153; 152;
   169; 191; 222; 221; 230; 122; 121; 92; 91; 172; 104; 103; 165; 168; 148; 147; 127; 127; 126; 87; 86; 178; 243;
   242; 173; 131; 241; 240; 169; 83; 228; 227; 59; 58; 241; 279; 335; 132; 188; 130; 186; 202; 258; 219; 275; 241;
   298; 297; 271; 327; 280; 337; 336; 102; 171; 227; 141; 197; 222; 278; 153; 209; 215; 271; 218; 275; 274; 197; 253;
   177; 234; 233; 176; 232; 136; 192; 228; 285; 284; 292; 348; 223; 280; 279; 290; 346; 219; 275; 133; 190; 189; 277;
   333; 108; 164; 291; 348; 347; 233; 232; 85; 83; 156; 155; 172; 194; 146; 225; 224; 233; 125; 124; 94; 175; 106;
   168; 171; 150; 130; 6; 130; 129; 89; 181; 245; 176; 243; 172; 86; 231; 230; 61; 244].

Definition Gen_shift_values_BG2_Z_320 : list Z :=
  [318; 135; 18; 318; 92; 36; 318; 13; 318; 122; 97; 318; 7; 100; 318; 144; 318; 86; 10; 318; 55; 318; 106; 51; 318;
   53; 44; 319; 318; 135; 18; 319; 318; 92; 36; 319; 318; 13; 319; 318; 122; 97; 318; 7; 100; 318; 144; 319; 318; 86;
   10; 318; 55; 318; 106; 51; 319; 318; 53; 44; 319; 318; 136; 135; 18; 319; 318; 92; 36; 319; 318; 13; 319; 318;
   123; 122; 97; 319; 318; 7; 100; 319; 318; 144; 319; 318; 87; 86; 10; 319; 318; 55; 319; 318; 106; 51; 319; 318;
   54; 53; 44; 318; 135; 18; 318; 92; 37; 36; 318; 14; 13; 318; 122; 97; 318; 7; 101; 100; 318; 145; 144; 318; 86;
   11; 10; 318; 56; 55; 318; 106; 52; 51; 318; 53; 45; 44; 156; 155; 292; 175; 319; 156; 155; 249; 193; 135; 156;
   155; 170; 156; 155; 279; 254; 155; 164; 257; 155; 301; 156; 155; 243; 167; 155; 212; 155; 263; 208; 156; 155; 210;
   201; 63; 62; 199; 82; 319; 63; 62; 156; 100; 130; 63; 62; 77; 63; 62; 186; 161; 62; 71; 164; 62; 208; 141; 63; 62;
   150; 74; 62; 119; 140; 62; 170; 115; 63; 62; 117; 108; 147; 146; 283; 166; 319; 147; 146; 240; 184; 147; 146; 161;
   147; 146; 270; 245; 146; 155; 248; 146; 292; 123; 147; 146; 234; 158; 146; 203; 98; 146; 254; 199; 147; 146; 201;
   192; 44; 95; 94; 76; 231; 213; 114; 96; 95; 94; 76; 188; 170; 132; 115; 114; 319; 95; 94; 76; 109; 92; 91; 95; 94;
   76; 218; 200; 193; 175; 94; 76; 103; 85; 196; 179; 178; 94; 76; 240; 223; 222; 44; 95; 94; 76; 182; 164; 106; 89;
   88; 94; 76; 151; 134; 133; 147; 94; 76; 202; 184; 147; 130; 129; 95; 94; 76; 149; 131; 140; 123; 122; 86; 85; 223;
   222; 105; 319; 86; 85; 179; 123; 64; 86; 85; 100; 86; 85; 210; 209; 184; 86; 85; 94; 187; 86; 85; 231; 86; 85;
   174; 173; 97; 86; 85; 142; 86; 85; 193; 138; 86; 85; 141; 140; 131; 49; 84; 83; 186; 220; 69; 103; 49; 84; 83;
   143; 177; 87; 121; 319; 49; 84; 83; 64; 98; 49; 84; 83; 173; 207; 148; 182; 49; 83; 58; 92; 151; 185; 49; 83; 195;
   229; 49; 84; 83; 137; 171; 61; 95; 49; 83; 106; 140; 49; 83; 157; 191; 102; 136; 96; 49; 84; 83; 104; 138; 95;
   129; 319; 16; 155; 19; 0; 137; 20; 319; 0; 94; 39; 38; 0; 16; 15; 0; 124; 99; 0; 9; 103; 102; 0; 147; 146; 0; 88;
   13; 12; 0; 58; 57; 6; 0; 108; 54; 53; 0; 55; 47; 46; 3; 47; 46; 183; 66; 47; 46; 140; 84; 319; 47; 46; 61; 47; 46;
   170; 145; 112; 46; 55; 148; 46; 192; 47; 46; 134; 58; 46; 103; 46; 154; 99; 47; 46; 101; 92; 24; 161; 44; 319; 24;
   118; 63; 62; 111; 24; 40; 39; 24; 148; 123; 24; 33; 127; 126; 24; 171; 170; 24; 112; 37; 36; 24; 82; 81; 24; 132;
   78; 77; 101; 24; 79; 71; 70; 56; 55; 25; 192; 162; 75; 45; 56; 55; 25; 149; 119; 93; 64; 63; 319; 56; 55; 25; 70;
   41; 40; 56; 55; 25; 179; 149; 154; 124; 55; 25; 64; 34; 157; 128; 127; 55; 25; 201; 172; 171; 56; 55; 25; 143;
   113; 67; 38; 37; 137; 55; 25; 112; 83; 82; 55; 25; 163; 133; 108; 79; 78; 56; 55; 25; 110; 80; 101; 72; 71; 71;
   98; 97; 208; 234; 91; 117; 319; 71; 98; 97; 165; 191; 109; 135; 71; 98; 97; 86; 112; 71; 98; 97; 195; 221; 170;
   196; 71; 97; 80; 106; 173; 199; 71; 97; 217; 243; 71; 98; 97; 159; 185; 83; 109; 71; 97; 128; 154; 71; 97; 179;
   205; 124; 150; 71; 98; 97; 126; 152; 117; 143; 110; 109; 142; 141; 246; 279; 278; 129; 161; 110; 109; 142; 141;
   203; 235; 147; 179; 319; 110; 109; 142; 141; 124; 156; 110; 109; 142; 141; 233; 266; 265; 208; 240; 109; 142; 141;
   118; 150; 211; 243; 109; 142; 141; 255; 287; 110; 109; 142; 141; 197; 230; 229; 121; 153; 109; 142; 141; 166; 198;
   109; 142; 141; 217; 249; 162; 194; 110; 109; 142; 141; 164; 197; 196; 155; 187; 78; 108; 107; 17; 16; 244; 154;
   153; 127; 36; 108; 107; 17; 16; 201; 110; 145; 54; 319; 108; 107; 17; 16; 122; 31; 108; 107; 17; 16; 231; 141;
   140; 206; 115; 107; 17; 16; 116; 25; 209; 118; 107; 17; 16; 253; 162; 23; 108; 107; 17; 16; 195; 105; 104; 119;
   28; 107; 17; 16; 164; 73; 107; 17; 16; 215; 124; 160; 69; 108; 107; 17; 16; 162; 72; 71; 153; 62; 319; 17; 85;
   152; 289; 172; 319; 152; 246; 190; 157; 152; 167; 152; 276; 251; 152; 161; 254; 152; 298; 152; 240; 164; 152; 209;
   152; 260; 205; 152; 207; 198; 103; 102; 239; 122; 103; 102; 196; 140; 319; 103; 102; 117; 103; 102; 226; 201; 102;
   111; 204; 147; 102; 248; 103; 102; 190; 114; 102; 159; 102; 210; 155; 103; 102; 157; 148; 31; 168; 51; 319; 31;
   125; 70; 69; 31; 47; 46; 31; 155; 130; 31; 40; 134; 133; 31; 178; 177; 31; 119; 44; 43; 31; 89; 88; 31; 139; 85;
   84; 16; 31; 86; 78; 77; 319; 3; 319; 74; 157; 319; 68; 86; 319; 64; 12; 11; 5; 149; 148; 142; 31; 25; 12; 11; 5;
   105; 99; 49; 44; 43; 12; 11; 5; 26; 21; 20; 319; 12; 11; 5; 136; 135; 129; 110; 104; 12; 11; 5; 20; 14; 113; 108;
   107; 12; 11; 5; 157; 152; 151; 12; 11; 5; 100; 99; 93; 23; 18; 17; 12; 11; 5; 68; 63; 62; 99; 12; 11; 5; 119; 113;
   64; 59; 58; 12; 11; 5; 67; 66; 60; 57; 52; 51; 319; 31; 319; 125; 109; 319; 153; 319; 34; 50; 133; 18; 155; 38;
   18; 112; 57; 56; 319; 18; 34; 33; 18; 142; 117; 18; 27; 121; 120; 18; 165; 164; 18; 106; 31; 30; 18; 76; 75; 18;
   126; 72; 71; 18; 73; 65; 64; 121; 120; 258; 257; 140; 319; 121; 120; 214; 158; 121; 120; 135; 121; 120; 245; 244;
   219; 121; 120; 129; 222; 121; 120; 266; 19; 121; 120; 209; 208; 132; 121; 120; 177; 121; 120; 228; 173; 121; 120;
   176; 175; 166; 11; 148; 31; 11; 105; 49; 11; 26; 319; 11; 135; 110; 11; 20; 113; 11; 157; 11; 99; 23; 11; 68; 87;
   11; 119; 64; 11; 66; 57; 18; 17; 76; 155; 154; 213; 37; 96; 319; 18; 17; 76; 111; 170; 55; 115; 114; 18; 17; 76;
   32; 92; 91; 18; 17; 76; 142; 141; 200; 116; 175; 18; 17; 76; 26; 85; 119; 179; 178; 18; 17; 76; 163; 223; 222; 18;
   17; 76; 106; 105; 164; 29; 89; 88; 18; 17; 76; 74; 134; 133; 18; 17; 76; 125; 184; 70; 130; 129; 18; 17; 76; 73;
   72; 131; 63; 123; 122; 5; 4; 141; 24; 5; 4; 98; 42; 319; 5; 4; 19; 5; 4; 128; 103; 4; 13; 106; 4; 150; 156; 5; 4;
   92; 16; 4; 61; 4; 112; 57; 5; 4; 59; 50; 319; 62; 81; 318; 142; 135; 279; 18; 162; 318; 142; 92; 236; 36; 181;
   180; 318; 142; 13; 158; 157; 318; 142; 122; 266; 97; 241; 318; 142; 7; 151; 100; 245; 244; 318; 142; 144; 289;
   288; 318; 142; 86; 230; 10; 155; 154; 318; 142; 55; 200; 199; 318; 142; 106; 250; 51; 196; 195; 318; 142; 53; 197;
   44; 189; 188; 18; 17; 154; 37; 18; 17; 111; 55; 319; 18; 17; 32; 18; 17; 141; 116; 17; 26; 119; 17; 163; 92; 18;
   17; 105; 29; 17; 74; 17; 125; 70; 18; 17; 72; 63; 137; 136; 274; 273; 156; 319; 137; 136; 230; 174; 137; 136; 151;
   137; 136; 261; 260; 235; 137; 136; 145; 238; 137; 136; 282; 137; 136; 225; 224; 148; 137; 136; 193; 23; 137; 136;
   244; 189; 137; 136; 192; 191; 182; 34; 141; 171; 278; 54; 161; 34; 141; 128; 235; 72; 180; 179; 34; 141; 49; 157;
   156; 319; 34; 141; 158; 265; 133; 240; 34; 141; 43; 150; 136; 244; 243; 34; 141; 180; 288; 287; 34; 141; 122; 229;
   46; 154; 153; 34; 141; 91; 199; 198; 34; 141; 142; 249; 87; 195; 194; 34; 141; 89; 196; 80; 188; 187; 54; 53; 190;
   73; 54; 53; 147; 91; 319; 54; 53; 68; 54; 53; 177; 152; 53; 62; 155; 53; 199; 1; 54; 53; 141; 65; 53; 110; 53;
   161; 106; 54; 53; 108; 99].

Definition Gen_shift_values_BG2_Z_224 : list Z :=
  [71; 52; 151; 109; 130; 184; 22; 5; 180; 155; 45; 114; 190; 35; 155; 123; 94; 114; 123; 199; 109; 28; 90; 155; 7;
   30; 132; 71; 72; 53; 152; 109; 110; 131; 185; 22; 23; 6; 180; 181; 156; 46; 115; 191; 36; 156; 124; 94; 95; 115;
   124; 200; 110; 29; 91; 156; 7; 8; 31; 133; 71; 72; 52; 53; 152; 109; 110; 131; 185; 22; 23; 6; 180; 181; 155; 156;
   46; 114; 115; 191; 36; 155; 156; 124; 94; 95; 114; 115; 124; 199; 200; 110; 28; 29; 91; 156; 7; 8; 30; 31; 133;
   72; 53; 152; 110; 131; 184; 185; 23; 5; 6; 181; 156; 46; 115; 191; 35; 36; 156; 123; 124; 95; 115; 123; 124; 200;
   109; 110; 29; 91; 155; 156; 8; 31; 132; 133; 172; 173; 154; 29; 199; 210; 211; 8; 62; 15; 123; 124; 107; 57; 58;
   33; 147; 216; 68; 137; 33; 1; 195; 196; 216; 1; 77; 211; 130; 192; 33; 108; 109; 132; 10; 40; 41; 22; 121; 184;
   78; 79; 100; 154; 137; 215; 216; 199; 149; 150; 125; 15; 84; 160; 5; 125; 93; 169; 63; 64; 84; 93; 169; 79; 218;
   222; 60; 125; 200; 201; 0; 102; 56; 57; 38; 137; 122; 94; 95; 116; 170; 7; 8; 215; 165; 166; 141; 31; 100; 176;
   21; 141; 109; 54; 79; 80; 100; 109; 185; 95; 30; 14; 76; 141; 216; 217; 16; 118; 221; 221; 222; 29; 203; 10; 78;
   109; 35; 36; 67; 57; 88; 111; 141; 142; 102; 172; 173; 204; 156; 186; 187; 106; 107; 138; 82; 113; 196; 3; 41; 72;
   117; 148; 186; 216; 217; 82; 113; 50; 80; 81; 12; 20; 21; 52; 41; 72; 50; 80; 81; 126; 157; 36; 66; 67; 104; 179;
   210; 17; 48; 82; 112; 113; 157; 158; 189; 181; 212; 59; 89; 90; 223; 0; 204; 205; 80; 146; 37; 38; 59; 113; 42;
   174; 175; 158; 108; 109; 83; 84; 198; 42; 43; 119; 188; 83; 84; 52; 22; 23; 42; 43; 52; 127; 128; 38; 180; 181;
   19; 84; 159; 160; 182; 183; 61; 31; 154; 155; 12; 136; 111; 11; 69; 192; 193; 90; 214; 144; 44; 1; 206; 105; 106;
   189; 89; 140; 39; 40; 115; 15; 5; 129; 74; 198; 150; 50; 219; 119; 115; 15; 83; 207; 54; 177; 178; 74; 198; 83;
   207; 159; 59; 69; 193; 212; 112; 50; 174; 115; 15; 29; 191; 90; 91; 214; 114; 92; 216; 173; 149; 7; 55; 171; 152;
   27; 98; 209; 6; 59; 60; 122; 104; 105; 56; 31; 145; 214; 66; 134; 135; 31; 222; 223; 194; 214; 222; 223; 75; 208;
   209; 137; 128; 190; 30; 31; 107; 130; 7; 8; 109; 180; 181; 162; 37; 218; 219; 16; 70; 45; 131; 132; 115; 65; 66;
   41; 155; 216; 0; 76; 145; 41; 9; 203; 204; 0; 9; 85; 219; 138; 200; 41; 116; 117; 140; 18; 212; 193; 68; 36; 26;
   47; 100; 101; 112; 163; 145; 146; 97; 72; 186; 31; 107; 175; 176; 72; 39; 40; 11; 31; 39; 40; 116; 25; 26; 169; 7;
   71; 72; 142; 148; 171; 48; 49; 111; 112; 188; 93; 169; 192; 44; 149; 150; 2; 171; 23; 1; 76; 77; 35; 62; 63; 139;
   46; 121; 122; 220; 221; 73; 196; 48; 86; 162; 155; 7; 7; 83; 76; 151; 152; 196; 48; 164; 15; 16; 134; 135; 211;
   155; 7; 164; 15; 16; 94; 16; 92; 150; 1; 2; 69; 145; 131; 207; 196; 47; 48; 47; 48; 124; 71; 147; 173; 24; 25; 47;
   181; 182; 28; 163; 127; 38; 115; 85; 219; 220; 106; 17; 160; 71; 222; 132; 133; 205; 116; 156; 66; 67; 131; 42;
   21; 156; 90; 1; 166; 77; 11; 146; 131; 42; 99; 10; 70; 204; 205; 90; 1; 99; 10; 175; 86; 85; 220; 4; 139; 66; 201;
   131; 42; 207; 117; 118; 6; 141; 108; 19; 205; 206; 168; 169; 187; 149; 150; 62; 25; 19; 20; 206; 207; 41; 4; 95;
   58; 74; 156; 157; 119; 120; 140; 103; 90; 91; 53; 54; 66; 28; 29; 180; 143; 25; 211; 212; 101; 64; 170; 133; 66;
   28; 29; 34; 221; 4; 5; 191; 192; 25; 211; 212; 34; 221; 110; 72; 73; 20; 207; 163; 125; 126; 1; 188; 66; 29; 141;
   142; 104; 105; 165; 127; 128; 43; 6; 157; 53; 54; 73; 74; 35; 54; 55; 134; 154; 91; 92; 111; 112; 113; 133; 167;
   187; 47; 4; 5; 24; 25; 212; 8; 162; 163; 182; 183; 138; 157; 158; 28; 48; 97; 116; 117; 173; 193; 18; 38; 138;
   157; 158; 106; 126; 131; 76; 77; 96; 97; 97; 116; 117; 106; 126; 182; 201; 202; 92; 112; 11; 30; 31; 73; 93; 138;
   158; 213; 214; 9; 10; 13; 32; 33; 115; 135; 67; 15; 155; 157; 138; 13; 34; 195; 216; 46; 137; 108; 91; 42; 17;
   131; 200; 52; 121; 17; 209; 180; 200; 209; 61; 195; 114; 176; 17; 93; 116; 218; 212; 213; 194; 69; 26; 27; 48;
   102; 5; 163; 164; 147; 97; 98; 73; 187; 32; 108; 177; 19; 73; 41; 11; 12; 32; 41; 117; 27; 170; 8; 73; 148; 149;
   172; 50; 153; 134; 9; 79; 191; 212; 41; 42; 104; 86; 87; 38; 13; 127; 196; 48; 116; 117; 13; 204; 205; 176; 196;
   204; 205; 57; 190; 191; 110; 172; 12; 13; 42; 89; 112; 213; 214; 48; 0; 155; 53; 133; 152; 87; 62; 210; 93; 68;
   69; 78; 49; 50; 59; 149; 158; 106; 107; 116; 128; 137; 182; 190; 191; 19; 20; 29; 3; 11; 12; 89; 177; 178; 187;
   152; 153; 162; 43; 52; 111; 112; 121; 188; 197; 33; 41; 42; 152; 153; 162; 121; 129; 130; 91; 92; 101; 111; 112;
   121; 121; 129; 130; 196; 197; 206; 107; 115; 116; 5; 25; 26; 35; 88; 97; 153; 161; 162; 4; 5; 14; 27; 28; 37; 130;
   138; 139; 26; 117; 215; 211; 192; 107; 60; 105; 43; 184; 175; 30; 11; 110; 68; 89; 142; 143; 146; 205; 187; 188;
   139; 114; 4; 73; 149; 217; 218; 114; 81; 82; 53; 73; 81; 82; 158; 67; 68; 211; 49; 113; 114; 190; 213; 90; 91;
   181; 182; 162; 163; 38; 107; 219; 220; 17; 71; 132; 133; 116; 66; 67; 41; 42; 156; 0; 1; 77; 146; 41; 42; 10; 20;
   204; 205; 0; 1; 10; 85; 86; 220; 138; 139; 201; 42; 117; 118; 140; 141; 19; 180; 161; 36; 218; 15; 69; 131; 114;
   70; 65; 40; 154; 223; 75; 144; 40; 8; 203; 223; 8; 84; 218; 11; 137; 199; 40; 116; 139; 17; 48; 49; 141; 29; 30;
   122; 129; 221; 28; 86; 87; 179; 108; 200; 162; 29; 30; 223; 0; 92; 207; 74; 75; 157; 158; 26; 132; 133; 1; 23;
   115; 91; 92; 184; 168; 36; 13; 104; 105; 132; 133; 1; 101; 192; 193; 71; 72; 164; 91; 92; 184; 101; 192; 193; 176;
   177; 45; 87; 178; 179; 5; 6; 98; 68; 160; 133; 0; 1; 208; 209; 77; 7; 8; 100; 110; 201; 202; 126; 127; 108; 207;
   164; 165; 186; 16; 90; 77; 78; 61; 11; 12; 211; 101; 170; 22; 91; 211; 179; 164; 149; 150; 170; 179; 31; 165; 84;
   146; 211; 62; 63; 86; 188; 0; 174; 82; 111; 84; 92; 65; 191; 164; 149; 122; 170; 143; 0; 196; 197; 62; 35; 45; 17;
   18; 220; 193; 195; 168; 85; 58; 154; 127; 6; 203; 75; 47; 48; 195; 168; 163; 135; 136; 134; 107; 154; 127; 163;
   135; 136; 15; 212; 149; 121; 122; 68; 41; 130; 103; 195; 167; 168; 47; 20; 70; 43; 172; 144; 145; 117; 118; 99;
   198; 155; 156; 177; 7; 36; 68; 69; 52; 2; 3; 202; 92; 161; 13; 82; 202; 170; 96; 140; 141; 161; 170; 22; 156; 75;
   137; 202; 53; 54; 77; 179; 1; 2; 206; 207; 82; 105; 39; 40; 61; 115; 176; 177; 160; 110; 111; 85; 86; 200; 44; 45;
   121; 190; 85; 86; 54; 24; 25; 44; 45; 54; 129; 130; 40; 180; 182; 183; 21; 86; 161; 162; 184; 185; 63; 106; 108;
   87; 89; 186; 188; 144; 146; 165; 167; 219; 220; 221; 57; 59; 40; 41; 42; 97; 215; 217; 190; 192; 80; 82; 149; 151;
   1; 3; 70; 71; 72; 190; 192; 158; 159; 160; 129; 131; 149; 151; 158; 159; 160; 10; 12; 144; 145; 146; 63; 65; 125;
   127; 190; 191; 192; 42; 44; 65; 67; 167; 168; 169; 152; 153; 134; 9; 190; 191; 212; 42; 119; 103; 104; 87; 37; 38;
   13; 127; 196; 48; 117; 13; 205; 100; 175; 176; 196; 205; 57; 191; 110; 172; 13; 88; 89; 112; 214].

Definition Gen_shift_values_BG2_Z_288 : list Z :=
  [1; 17; 93; 24; 104; 118; 51; 119; 33; 92; 90; 102; 108; 20; 64; 2; 113; 82; 71; 96; 47; 67; 109; 126; 125; 48; 77;
   2; 1; 17; 93; 25; 24; 104; 118; 52; 51; 119; 34; 33; 92; 90; 102; 108; 20; 64; 2; 114; 113; 82; 71; 96; 47; 67;
   109; 126; 126; 125; 48; 77; 2; 1; 18; 17; 93; 25; 24; 104; 118; 52; 51; 119; 34; 33; 93; 92; 90; 103; 102; 108;
   20; 65; 64; 2; 114; 113; 83; 82; 71; 97; 96; 47; 68; 67; 109; 126; 126; 125; 49; 48; 77; 1; 17; 93; 24; 104; 119;
   118; 51; 120; 119; 33; 92; 90; 102; 108; 21; 20; 64; 3; 2; 113; 82; 72; 71; 96; 48; 47; 67; 109; 127; 126; 125;
   48; 78; 77; 53; 52; 68; 144; 41; 76; 75; 155; 169; 23; 103; 102; 170; 85; 84; 143; 141; 153; 159; 71; 115; 53;
   165; 164; 133; 122; 147; 98; 118; 160; 177; 177; 176; 99; 128; 73; 72; 88; 164; 39; 96; 95; 175; 189; 139; 123;
   122; 190; 105; 104; 163; 161; 173; 179; 91; 135; 73; 83; 185; 184; 153; 142; 167; 118; 136; 138; 180; 197; 197;
   196; 119; 148; 141; 140; 156; 232; 108; 164; 163; 243; 257; 191; 190; 258; 173; 172; 231; 229; 241; 247; 159; 203;
   141; 86; 253; 252; 221; 210; 235; 186; 106; 206; 248; 265; 265; 264; 187; 216; 132; 110; 109; 66; 125; 82; 201;
   158; 133; 132; 89; 212; 169; 226; 184; 183; 96; 160; 159; 116; 227; 185; 184; 142; 141; 98; 200; 157; 198; 155;
   210; 167; 216; 173; 128; 86; 85; 172; 129; 110; 68; 67; 134; 222; 221; 178; 190; 147; 179; 137; 136; 204; 161;
   155; 113; 112; 34; 175; 132; 217; 174; 234; 192; 191; 234; 233; 190; 156; 113; 185; 143; 142; 90; 89; 106; 105;
   181; 69; 113; 112; 192; 206; 68; 140; 139; 207; 122; 121; 181; 180; 178; 191; 190; 196; 108; 153; 152; 90; 202;
   201; 171; 170; 159; 185; 184; 135; 156; 155; 197; 214; 214; 213; 137; 136; 165; 25; 51; 50; 41; 66; 117; 142; 48;
   74; 73; 128; 153; 142; 167; 96; 75; 101; 100; 143; 168; 57; 83; 82; 116; 141; 114; 139; 126; 151; 132; 157; 44;
   69; 88; 113; 26; 51; 137; 163; 162; 106; 131; 95; 120; 120; 145; 71; 96; 91; 116; 133; 158; 150; 175; 39; 149;
   175; 174; 72; 97; 101; 126; 45; 40; 100; 95; 65; 81; 157; 27; 88; 168; 183; 182; 115; 184; 183; 97; 156; 154; 166;
   172; 85; 84; 128; 67; 66; 177; 146; 136; 135; 160; 112; 111; 29; 131; 173; 191; 190; 189; 112; 142; 141; 115; 133;
   132; 148; 224; 156; 155; 235; 249; 32; 183; 182; 250; 165; 164; 223; 221; 121; 233; 239; 151; 195; 133; 245; 244;
   213; 202; 227; 178; 198; 240; 257; 257; 256; 179; 208; 48; 64; 140; 75; 71; 151; 166; 165; 36; 98; 167; 166; 80;
   139; 137; 149; 155; 68; 67; 111; 50; 49; 160; 129; 119; 118; 143; 95; 94; 114; 156; 174; 173; 61; 172; 95; 125;
   124; 132; 131; 98; 147; 114; 223; 190; 155; 154; 121; 234; 201; 248; 216; 215; 142; 182; 181; 148; 249; 217; 216;
   164; 163; 130; 222; 189; 220; 187; 232; 199; 238; 205; 150; 118; 117; 194; 161; 132; 100; 99; 244; 243; 210; 212;
   179; 201; 169; 168; 50; 226; 193; 177; 145; 144; 197; 164; 239; 206; 256; 224; 223; 256; 255; 222; 178; 145; 207;
   175; 174; 97; 130; 129; 113; 145; 189; 221; 138; 120; 153; 152; 200; 232; 214; 246; 147; 180; 179; 215; 247; 129;
   162; 161; 188; 220; 186; 218; 198; 230; 204; 236; 116; 148; 160; 192; 98; 130; 209; 242; 241; 178; 210; 167; 199;
   192; 224; 143; 175; 163; 195; 205; 237; 222; 254; 221; 254; 253; 144; 176; 173; 205; 30; 29; 10; 9; 45; 26; 25;
   121; 101; 53; 52; 33; 32; 132; 112; 146; 126; 47; 80; 79; 60; 59; 147; 127; 62; 61; 42; 41; 120; 101; 100; 118;
   98; 130; 111; 110; 136; 116; 48; 28; 92; 73; 72; 30; 10; 142; 141; 122; 121; 110; 91; 90; 99; 79; 124; 105; 104;
   75; 55; 95; 76; 75; 137; 117; 154; 134; 154; 153; 134; 133; 76; 57; 56; 105; 85; 8; 67; 66; 44; 43; 82; 60; 59;
   158; 135; 90; 89; 67; 66; 169; 146; 183; 160; 119; 117; 116; 94; 93; 184; 161; 99; 98; 76; 75; 157; 135; 134; 155;
   132; 167; 145; 144; 173; 150; 85; 62; 129; 107; 106; 67; 44; 42; 179; 178; 156; 155; 147; 125; 124; 136; 113; 161;
   139; 138; 112; 89; 132; 110; 109; 174; 151; 191; 168; 191; 190; 168; 167; 113; 91; 90; 142; 119; 16; 105; 141; 42;
   58; 134; 78; 65; 145; 159; 27; 92; 160; 74; 133; 131; 143; 149; 61; 105; 43; 154; 123; 112; 137; 88; 108; 150;
   167; 166; 89; 118; 80; 79; 95; 171; 103; 102; 182; 196; 1; 130; 129; 197; 112; 111; 170; 168; 180; 186; 98; 102;
   142; 80; 192; 191; 160; 149; 174; 125; 145; 187; 204; 204; 203; 126; 155; 82; 98; 174; 90; 105; 185; 200; 199;
   132; 201; 200; 114; 173; 171; 183; 189; 102; 101; 145; 84; 83; 194; 163; 153; 152; 177; 129; 128; 148; 190; 208;
   207; 74; 206; 129; 159; 158; 53; 131; 67; 114; 55; 29; 41; 100; 127; 62; 102; 101; 134; 118; 117; 150; 193; 226;
   125; 124; 157; 204; 237; 218; 252; 251; 152; 151; 184; 219; 253; 252; 141; 134; 133; 166; 193; 192; 225; 190; 223;
   203; 202; 235; 208; 241; 120; 154; 153; 165; 164; 197; 102; 136; 135; 214; 213; 246; 183; 182; 215; 171; 205; 204;
   197; 196; 229; 147; 181; 180; 27; 168; 167; 200; 209; 242; 226; 260; 259; 226; 225; 258; 149; 148; 181; 177; 211;
   210; 12; 9; 105; 76; 42; 132; 24; 86; 55; 103; 69; 140; 156; 232; 163; 243; 258; 257; 79; 190; 259; 258; 172; 231;
   229; 241; 247; 160; 159; 203; 142; 141; 252; 221; 211; 210; 235; 187; 186; 206; 248; 266; 265; 264; 187; 217; 216;
   73; 72; 89; 88; 164; 31; 96; 95; 175; 189; 123; 122; 190; 105; 104; 164; 163; 161; 174; 173; 179; 91; 136; 135;
   73; 88; 185; 184; 154; 153; 142; 168; 167; 118; 139; 138; 180; 197; 197; 196; 120; 119; 148; 3; 19; 95; 26; 106;
   120; 53; 121; 134; 35; 94; 92; 104; 110; 22; 66; 4; 115; 84; 73; 98; 49; 5; 69; 111; 128; 127; 50; 79; 27; 26;
   115; 43; 42; 131; 118; 207; 36; 50; 49; 138; 129; 218; 143; 233; 232; 77; 76; 165; 144; 234; 233; 59; 58; 147;
   118; 117; 206; 115; 204; 128; 127; 216; 133; 222; 45; 135; 134; 90; 89; 178; 27; 117; 116; 139; 138; 227; 108;
   107; 196; 96; 186; 185; 122; 121; 210; 72; 162; 161; 93; 92; 181; 134; 223; 151; 241; 240; 151; 150; 239; 74; 73;
   162; 102; 192; 191; 95; 94; 110; 186; 118; 117; 197; 211; 59; 145; 144; 212; 127; 126; 185; 183; 195; 201; 113;
   157; 95; 136; 207; 206; 175; 164; 189; 140; 160; 202; 219; 219; 218; 141; 170; 120; 128; 25; 98; 57; 114; 73; 190;
   149; 121; 80; 201; 160; 215; 175; 174; 148; 107; 216; 176; 175; 130; 89; 189; 148; 187; 146; 199; 158; 205; 164;
   117; 77; 76; 161; 120; 99; 59; 58; 210; 169; 179; 138; 168; 128; 127; 193; 152; 144; 104; 103; 164; 123; 206; 165;
   223; 183; 182; 222; 181; 145; 104; 174; 134; 133; 3; 2; 18; 94; 26; 25; 105; 119; 0; 53; 52; 120; 35; 34; 93; 91;
   103; 109; 21; 65; 3; 69; 115; 114; 83; 72; 97; 48; 68; 110; 127; 127; 126; 49; 78; 144; 143; 160; 159; 235; 118;
   167; 166; 246; 260; 194; 193; 261; 176; 175; 235; 234; 232; 245; 244; 250; 162; 207; 206; 144; 256; 255; 225; 224;
   213; 239; 238; 189; 31; 210; 209; 251; 268; 268; 267; 191; 190; 219; 74; 103; 90; 119; 166; 195; 97; 126; 177;
   206; 191; 221; 220; 124; 153; 192; 222; 221; 5; 106; 135; 165; 194; 163; 192; 175; 204; 181; 210; 93; 123; 122;
   137; 166; 75; 105; 104; 186; 215; 155; 184; 144; 174; 173; 169; 198; 120; 150; 149; 140; 169; 182; 211; 199; 229;
   228; 198; 227; 121; 150; 150; 180; 179; 21; 20; 36; 112; 44; 43; 123; 137; 47; 71; 70; 138; 53; 52; 111; 109; 121;
   127; 39; 83; 21; 46; 133; 132; 101; 90; 115; 66; 86; 128; 145; 145; 144; 67; 96].

Definition Gen_shift_values_BG2_Z_352 : list Z :=
  [154; 15; 96; 141; 166; 51; 12; 172; 1; 63; 105; 61; 80; 172; 351; 125; 38; 53; 15; 35; 87; 169; 140; 15; 121; 131;
   103; 155; 154; 15; 96; 142; 141; 166; 51; 13; 12; 172; 2; 1; 63; 105; 61; 80; 172; 351; 125; 39; 38; 53; 15; 35;
   87; 169; 140; 15; 122; 121; 131; 103; 155; 154; 16; 15; 96; 142; 141; 166; 51; 13; 12; 172; 2; 1; 64; 63; 105; 62;
   61; 80; 172; 0; 351; 125; 39; 38; 54; 53; 15; 36; 35; 87; 170; 169; 140; 15; 122; 121; 132; 131; 103; 154; 15; 96;
   141; 166; 52; 51; 12; 173; 172; 1; 63; 105; 61; 80; 173; 172; 351; 126; 125; 38; 53; 16; 15; 35; 88; 87; 169; 140;
   16; 15; 121; 131; 104; 103; 238; 237; 98; 179; 85; 225; 224; 249; 134; 66; 96; 95; 255; 85; 84; 146; 188; 144;
   163; 255; 82; 208; 122; 121; 136; 98; 118; 170; 252; 223; 98; 205; 204; 214; 186; 215; 214; 75; 156; 78; 202; 201;
   226; 111; 83; 73; 72; 232; 62; 61; 123; 165; 121; 140; 232; 59; 185; 34; 99; 98; 113; 75; 95; 147; 102; 229; 200;
   75; 182; 181; 191; 163; 184; 183; 44; 125; 46; 171; 170; 195; 80; 42; 41; 201; 31; 30; 92; 134; 90; 109; 201; 28;
   154; 153; 68; 67; 82; 44; 64; 116; 9; 198; 169; 44; 151; 150; 160; 132; 154; 202; 201; 209; 62; 70; 143; 151; 189;
   188; 196; 213; 221; 98; 107; 106; 47; 60; 59; 67; 219; 228; 227; 49; 48; 56; 110; 118; 152; 160; 108; 116; 127;
   135; 219; 228; 227; 46; 54; 172; 181; 180; 124; 86; 85; 93; 100; 108; 62; 71; 70; 82; 90; 134; 143; 142; 23; 216;
   224; 187; 195; 62; 71; 70; 169; 168; 176; 178; 186; 150; 159; 158; 316; 315; 177; 176; 257; 52; 303; 302; 327;
   212; 30; 174; 173; 333; 163; 162; 225; 224; 266; 223; 222; 241; 333; 161; 160; 286; 200; 199; 215; 214; 176; 197;
   196; 248; 331; 330; 301; 176; 283; 282; 293; 292; 264; 253; 219; 218; 114; 79; 195; 160; 240; 206; 205; 265; 230;
   150; 115; 103; 111; 77; 76; 271; 236; 100; 66; 65; 162; 127; 204; 169; 160; 125; 179; 144; 271; 236; 98; 63; 224;
   189; 137; 103; 102; 152; 117; 114; 79; 134; 99; 186; 151; 268; 233; 239; 204; 114; 79; 141; 220; 186; 185; 230;
   195; 202; 167; 110; 24; 173; 22; 295; 156; 237; 90; 282; 307; 193; 192; 153; 314; 313; 142; 204; 246; 202; 221;
   314; 313; 140; 267; 266; 179; 194; 157; 156; 176; 229; 228; 174; 310; 281; 157; 156; 262; 272; 245; 244; 23; 159;
   158; 19; 100; 146; 145; 170; 55; 121; 17; 16; 176; 6; 5; 67; 109; 10; 65; 84; 176; 3; 129; 43; 42; 57; 19; 39; 91;
   173; 144; 19; 126; 125; 135; 107; 281; 142; 223; 28; 268; 293; 179; 178; 90; 139; 300; 299; 128; 190; 232; 188;
   207; 300; 299; 126; 253; 252; 165; 180; 143; 142; 162; 215; 214; 296; 267; 143; 142; 26; 248; 258; 231; 230; 163;
   162; 320; 23; 181; 104; 262; 150; 149; 307; 174; 332; 59; 218; 217; 10; 21; 20; 178; 180; 339; 338; 10; 9; 167;
   71; 229; 113; 271; 69; 227; 88; 246; 180; 339; 338; 7; 165; 133; 292; 291; 47; 46; 204; 61; 219; 23; 182; 181;
   144; 43; 201; 95; 254; 253; 177; 335; 148; 306; 23; 182; 181; 130; 129; 287; 139; 297; 111; 270; 269; 257; 195;
   194; 118; 55; 199; 136; 136; 244; 182; 181; 269; 206; 154; 91; 115; 53; 52; 275; 212; 104; 42; 41; 166; 103; 208;
   145; 164; 101; 183; 120; 275; 212; 102; 39; 228; 165; 141; 79; 78; 156; 93; 118; 55; 138; 75; 190; 127; 272; 209;
   243; 180; 118; 55; 224; 162; 161; 234; 171; 206; 143; 172; 171; 320; 319; 32; 181; 180; 113; 261; 159; 158; 307;
   306; 183; 331; 68; 216; 77; 30; 29; 178; 177; 189; 337; 19; 18; 167; 166; 80; 229; 228; 122; 270; 78; 227; 226;
   97; 245; 189; 337; 16; 165; 164; 142; 290; 56; 55; 204; 203; 70; 219; 218; 32; 180; 52; 201; 200; 104; 252; 186;
   335; 334; 157; 305; 32; 180; 139; 138; 287; 286; 148; 297; 296; 120; 268; 157; 217; 216; 318; 317; 77; 179; 178;
   158; 259; 204; 203; 305; 304; 228; 329; 113; 214; 133; 75; 74; 176; 175; 234; 335; 64; 63; 165; 164; 125; 227;
   226; 167; 268; 123; 225; 224; 142; 243; 234; 335; 61; 163; 162; 187; 288; 22; 101; 100; 202; 201; 115; 217; 216;
   77; 178; 97; 199; 198; 149; 250; 231; 333; 332; 202; 303; 77; 178; 184; 183; 285; 284; 193; 295; 294; 165; 266;
   172; 30; 21; 299; 160; 241; 12; 286; 311; 196; 134; 157; 317; 146; 208; 250; 206; 225; 317; 144; 270; 183; 198;
   160; 180; 232; 314; 285; 160; 266; 276; 248; 328; 327; 188; 269; 315; 314; 339; 224; 127; 186; 185; 345; 175; 174;
   236; 278; 234; 253; 345; 51; 172; 298; 212; 211; 226; 188; 208; 260; 342; 313; 188; 295; 294; 304; 276; 194; 55;
   136; 155; 181; 206; 92; 91; 52; 213; 212; 41; 103; 145; 101; 120; 213; 212; 39; 166; 165; 78; 93; 56; 55; 75; 128;
   127; 209; 180; 56; 55; 165; 161; 171; 144; 143; 17; 162; 109; 131; 149; 112; 107; 60; 71; 135; 208; 207; 299; 69;
   68; 160; 149; 241; 195; 194; 286; 219; 311; 104; 197; 196; 66; 65; 157; 225; 318; 317; 35; 55; 54; 146; 117; 116;
   208; 158; 250; 115; 114; 206; 133; 225; 225; 318; 317; 53; 52; 144; 178; 271; 270; 92; 91; 183; 107; 106; 198; 68;
   161; 160; 89; 88; 180; 140; 233; 232; 37; 223; 222; 314; 193; 285; 68; 161; 160; 175; 174; 266; 185; 184; 276;
   156; 249; 248; 41; 103; 63; 23; 148; 138; 160; 83; 172; 92; 28; 302; 163; 244; 289; 314; 200; 199; 116; 160; 321;
   320; 149; 211; 253; 209; 228; 321; 320; 147; 274; 273; 186; 201; 164; 163; 183; 236; 235; 317; 288; 164; 163; 269;
   279; 252; 251; 297; 296; 158; 157; 238; 115; 284; 283; 308; 193; 155; 154; 314; 144; 143; 206; 205; 247; 204; 203;
   222; 314; 142; 141; 267; 72; 181; 180; 196; 195; 157; 178; 177; 229; 312; 311; 282; 157; 264; 263; 274; 273; 245;
   183; 44; 125; 170; 195; 80; 41; 201; 104; 30; 92; 134; 90; 109; 201; 28; 154; 67; 82; 44; 64; 116; 136; 198; 169;
   44; 150; 160; 132; 196; 195; 316; 57; 56; 177; 137; 258; 10; 183; 182; 303; 207; 328; 92; 214; 213; 54; 53; 174;
   213; 335; 334; 43; 42; 163; 105; 104; 225; 146; 267; 103; 102; 223; 121; 242; 213; 335; 334; 41; 40; 161; 166;
   288; 287; 80; 79; 200; 95; 94; 215; 56; 178; 177; 77; 76; 197; 128; 250; 249; 211; 210; 331; 181; 302; 56; 178;
   177; 163; 162; 283; 173; 172; 293; 144; 266; 265; 327; 326; 187; 268; 314; 313; 338; 223; 125; 185; 184; 344; 174;
   173; 235; 277; 233; 252; 344; 171; 297; 151; 211; 210; 225; 187; 207; 259; 341; 312; 187; 294; 293; 303; 275; 72;
   153; 128; 321; 192; 182; 53; 263; 134; 308; 179; 333; 204; 218; 90; 89; 179; 50; 339; 211; 210; 168; 39; 230; 101;
   272; 143; 228; 99; 247; 118; 339; 211; 210; 166; 37; 292; 164; 163; 205; 76; 220; 91; 182; 54; 53; 202; 73; 254;
   126; 125; 336; 207; 307; 178; 182; 54; 53; 288; 159; 298; 169; 270; 142; 141; 174; 173; 34; 115; 161; 160; 185;
   70; 111; 32; 31; 191; 21; 20; 82; 124; 80; 99; 191; 18; 144; 6; 58; 57; 72; 34; 54; 106; 188; 159; 34; 141; 140;
   150; 122; 260; 259; 121; 120; 201; 108; 247; 246; 271; 156; 118; 117; 277; 107; 106; 169; 168; 210; 167; 166; 185;
   277; 105; 104; 230; 144; 143; 159; 158; 120; 141; 140; 192; 5; 275; 274; 245; 120; 227; 226; 237; 236; 208; 310;
   236; 171; 97; 252; 178; 297; 223; 322; 248; 207; 134; 133; 168; 94; 328; 255; 254; 159; 157; 83; 219; 145; 261;
   187; 217; 143; 236; 162; 328; 255; 254; 155; 81; 281; 208; 207; 194; 120; 209; 135; 171; 98; 97; 191; 117; 243;
   170; 169; 325; 251; 296; 222; 171; 98; 97; 277; 203; 287; 213; 259; 186; 185; 163; 162; 23; 104; 150; 149; 174;
   59; 131; 21; 20; 180; 10; 9; 71; 113; 69; 88; 180; 7; 133; 5; 47; 46; 61; 23; 43; 95; 177; 148; 23; 130; 129; 139;
   111].

Definition Gen_shift_values_BG2_Z_208 : list Z :=
  [141; 16; 124; 17; 161; 34; 174; 46; 163; 25; 45; 1; 181; 16; 100; 109; 194; 183; 201; 15; 1; 12; 130; 189; 11;
   178; 158; 142; 141; 16; 124; 18; 17; 161; 34; 175; 174; 46; 164; 163; 25; 45; 1; 181; 16; 100; 109; 195; 194; 183;
   201; 15; 1; 12; 130; 189; 12; 11; 178; 158; 142; 141; 17; 16; 124; 18; 17; 161; 34; 175; 174; 46; 164; 163; 26;
   25; 45; 2; 1; 181; 16; 101; 100; 109; 195; 194; 184; 183; 201; 16; 15; 1; 13; 12; 130; 189; 12; 11; 179; 178; 158;
   141; 16; 124; 17; 161; 35; 34; 174; 47; 46; 163; 25; 45; 1; 181; 17; 16; 100; 110; 109; 194; 183; 202; 201; 15; 2;
   1; 12; 130; 190; 189; 11; 178; 159; 158; 51; 50; 133; 33; 42; 135; 134; 70; 151; 26; 84; 83; 163; 73; 72; 142;
   162; 118; 90; 133; 9; 18; 104; 103; 92; 110; 132; 118; 129; 39; 98; 129; 128; 87; 67; 204; 203; 78; 186; 135; 80;
   79; 15; 96; 48; 29; 28; 108; 18; 17; 87; 107; 63; 35; 78; 162; 171; 35; 49; 48; 37; 55; 77; 63; 131; 74; 192; 43;
   74; 73; 32; 12; 154; 153; 28; 136; 6; 30; 29; 173; 46; 187; 186; 58; 176; 175; 37; 57; 13; 193; 28; 112; 121; 33;
   207; 206; 195; 5; 27; 13; 197; 24; 142; 201; 24; 23; 190; 170; 167; 41; 40; 199; 123; 74; 23; 182; 125; 124; 75;
   60; 11; 141; 93; 92; 162; 74; 73; 24; 153; 105; 104; 63; 62; 13; 132; 83; 152; 103; 108; 59; 80; 31; 123; 75; 74;
   207; 158; 8; 168; 167; 77; 94; 93; 44; 82; 33; 100; 52; 51; 122; 73; 108; 60; 59; 142; 119; 70; 29; 188; 88; 40;
   39; 119; 118; 69; 77; 28; 57; 9; 8; 164; 163; 39; 38; 146; 100; 40; 39; 183; 56; 176; 197; 196; 68; 186; 185; 48;
   47; 67; 24; 23; 203; 38; 123; 122; 131; 9; 8; 206; 205; 15; 38; 37; 23; 35; 34; 152; 3; 34; 33; 201; 200; 180;
   138; 15; 14; 13; 97; 121; 205; 14; 99; 98; 158; 34; 31; 115; 185; 171; 48; 47; 43; 127; 160; 37; 36; 22; 106; 42;
   126; 206; 82; 178; 54; 13; 97; 97; 181; 106; 190; 191; 68; 67; 180; 56; 198; 74; 12; 96; 206; 82; 9; 93; 127; 3;
   186; 62; 26; 8; 93; 92; 175; 51; 155; 31; 124; 59; 176; 50; 149; 24; 132; 38; 25; 169; 43; 42; 182; 55; 54; 171;
   33; 53; 9; 189; 25; 24; 108; 118; 117; 202; 191; 2; 1; 23; 10; 9; 28; 20; 138; 198; 197; 19; 186; 167; 166; 34;
   191; 190; 65; 173; 67; 66; 2; 83; 17; 16; 15; 95; 5; 4; 74; 94; 154; 50; 22; 65; 149; 158; 36; 35; 24; 42; 64; 50;
   61; 179; 30; 61; 60; 19; 207; 119; 202; 102; 31; 203; 139; 13; 12; 52; 152; 25; 24; 141; 3; 23; 187; 159; 203;
   202; 78; 88; 87; 172; 161; 180; 179; 201; 188; 187; 198; 108; 168; 167; 94; 197; 156; 137; 136; 194; 193; 42; 68;
   125; 176; 25; 70; 69; 126; 5; 62; 86; 144; 143; 90; 19; 18; 75; 98; 156; 155; 8; 7; 64; 77; 134; 97; 154; 53; 110;
   25; 82; 68; 126; 125; 152; 1; 161; 11; 10; 39; 38; 95; 27; 84; 45; 103; 102; 19; 67; 124; 53; 111; 110; 64; 121;
   182; 31; 33; 91; 90; 64; 63; 120; 22; 79; 2; 60; 59; 41; 36; 35; 124; 118; 24; 18; 173; 125; 120; 119; 61; 55;
   142; 136; 74; 69; 68; 154; 148; 63; 58; 57; 133; 127; 153; 147; 109; 103; 81; 75; 124; 118; 0; 202; 9; 3; 94; 89;
   88; 83; 77; 101; 95; 123; 117; 109; 103; 120; 114; 30; 24; 89; 83; 119; 114; 113; 78; 72; 58; 52; 196; 195; 110;
   109; 70; 193; 192; 178; 92; 72; 71; 194; 193; 7; 129; 88; 2; 124; 21; 20; 143; 142; 100; 14; 10; 9; 132; 131; 79;
   202; 201; 99; 13; 55; 178; 177; 27; 149; 70; 192; 154; 69; 68; 163; 77; 41; 40; 163; 162; 29; 152; 151; 47; 169;
   69; 192; 191; 55; 177; 66; 189; 188; 184; 98; 35; 157; 66; 65; 188; 187; 24; 147; 146; 4; 126; 30; 76; 75; 177;
   176; 158; 52; 51; 58; 159; 160; 159; 53; 52; 95; 196; 176; 69; 56; 109; 108; 2; 1; 188; 81; 98; 97; 199; 198; 167;
   61; 60; 187; 80; 143; 37; 36; 115; 8; 158; 51; 34; 136; 135; 43; 144; 200; 129; 128; 22; 21; 117; 11; 10; 135; 28;
   157; 51; 50; 143; 36; 154; 48; 47; 64; 165; 123; 16; 154; 153; 47; 46; 112; 6; 5; 92; 193; 128; 202; 139; 193; 68;
   176; 109; 69; 5; 86; 123; 18; 98; 7; 77; 97; 53; 25; 68; 152; 161; 38; 27; 45; 67; 53; 64; 182; 33; 63; 22; 2; 48;
   47; 130; 30; 132; 131; 67; 148; 195; 81; 80; 160; 70; 69; 139; 159; 115; 87; 130; 34; 6; 15; 101; 100; 89; 107;
   129; 115; 126; 36; 95; 126; 125; 84; 64; 164; 39; 147; 9; 40; 184; 58; 57; 197; 70; 69; 186; 48; 68; 24; 204; 40;
   39; 123; 133; 132; 9; 206; 17; 16; 38; 25; 24; 35; 153; 5; 4; 121; 34; 201; 182; 181; 201; 125; 51; 169; 12; 112;
   160; 87; 196; 193; 191; 190; 94; 66; 65; 177; 173; 77; 67; 66; 178; 2; 114; 83; 196; 195; 16; 15; 127; 95; 0; 207;
   163; 5; 4; 116; 75; 74; 186; 94; 206; 51; 50; 162; 22; 134; 65; 178; 177; 150; 149; 53; 158; 63; 62; 36; 35; 147;
   25; 24; 136; 42; 155; 154; 65; 64; 176; 50; 163; 162; 171; 62; 61; 173; 179; 83; 30; 143; 142; 61; 60; 172; 20;
   19; 131; 207; 112; 111; 167; 192; 13; 185; 45; 49; 26; 69; 16; 49; 5; 122; 205; 105; 206; 142; 16; 15; 114; 155;
   28; 27; 144; 6; 26; 190; 162; 206; 205; 81; 91; 90; 175; 164; 183; 182; 204; 191; 190; 201; 111; 171; 170; 200;
   159; 140; 139; 97; 96; 180; 179; 79; 109; 181; 180; 116; 197; 130; 129; 1; 119; 118; 189; 188; 0; 165; 164; 136;
   179; 56; 55; 64; 207; 150; 149; 139; 138; 156; 179; 178; 164; 176; 175; 85; 144; 175; 174; 134; 133; 113; 112;
   195; 95; 196; 132; 5; 145; 17; 162; 134; 204; 16; 180; 152; 195; 71; 80; 165; 154; 172; 194; 180; 172; 191; 101;
   160; 190; 149; 129; 125; 124; 126; 0; 207; 1; 107; 109; 196; 1; 0; 2; 144; 146; 17; 20; 19; 158; 157; 159; 29; 32;
   31; 147; 146; 148; 9; 8; 10; 28; 30; 193; 192; 194; 164; 166; 207; 2; 1; 84; 83; 85; 92; 95; 94; 178; 177; 179;
   167; 166; 168; 184; 187; 186; 207; 206; 0; 192; 195; 194; 204; 203; 205; 113; 115; 172; 175; 174; 203; 202; 204;
   162; 161; 163; 141; 144; 143; 115; 114; 197; 97; 199; 198; 134; 7; 156; 148; 147; 19; 137; 136; 206; 18; 182; 154;
   197; 73; 82; 166; 168; 167; 156; 174; 196; 182; 193; 103; 162; 193; 192; 151; 131; 196; 166; 178; 114; 126; 197;
   1; 97; 109; 198; 2; 134; 146; 7; 20; 19; 147; 159; 19; 32; 31; 136; 148; 206; 10; 18; 30; 182; 194; 154; 166; 197;
   2; 1; 73; 85; 82; 95; 94; 167; 179; 156; 168; 174; 187; 186; 196; 0; 182; 195; 194; 193; 205; 103; 115; 162; 175;
   174; 192; 204; 151; 163; 131; 144; 143; 125; 124; 207; 107; 1; 0; 144; 17; 156; 158; 157; 29; 147; 146; 8; 28;
   192; 164; 207; 83; 92; 172; 178; 177; 166; 184; 206; 192; 203; 113; 172; 203; 202; 161; 141; 107; 106; 190; 189;
   89; 180; 191; 190; 126; 207; 140; 139; 11; 129; 128; 199; 198; 10; 175; 174; 146; 189; 66; 65; 74; 160; 159; 149;
   148; 166; 189; 188; 174; 156; 186; 185; 95; 154; 185; 184; 144; 143; 123; 96; 112; 179; 195; 79; 95; 180; 196;
   116; 132; 197; 6; 5; 129; 145; 1; 18; 17; 192; 118; 134; 188; 204; 0; 16; 164; 180; 136; 152; 179; 196; 195; 55;
   71; 64; 81; 80; 149; 165; 138; 154; 156; 173; 172; 178; 194; 164; 181; 180; 175; 191; 85; 101; 144; 161; 160; 174;
   190; 133; 149; 113; 130; 129; 101; 100; 183; 83; 185; 184; 120; 201; 190; 134; 133; 5; 123; 122; 192; 4; 168; 140;
   183; 59; 68; 196; 154; 153; 142; 160; 182; 168; 179; 89; 148; 179; 178; 137; 117].

Definition Gen_shift_values_BG2_Z_240 : list Z :=
  [144; 141; 73; 130; 30; 238; 70; 170; 20; 173; 2; 182; 52; 94; 26; 109; 22; 95; 158; 22; 198; 8; 154; 42; 111; 166;
   74; 144; 145; 142; 74; 130; 131; 31; 239; 70; 71; 171; 20; 21; 174; 3; 183; 53; 95; 27; 110; 22; 23; 96; 159; 23;
   199; 9; 155; 43; 111; 112; 167; 75; 144; 145; 141; 142; 74; 130; 131; 31; 239; 70; 71; 171; 20; 21; 173; 174; 3;
   182; 183; 53; 95; 26; 27; 110; 22; 23; 95; 96; 159; 22; 23; 199; 8; 9; 155; 43; 111; 112; 166; 167; 75; 145; 142;
   74; 131; 31; 238; 239; 71; 170; 171; 21; 174; 3; 183; 53; 94; 95; 27; 109; 110; 23; 96; 158; 159; 23; 198; 199; 9;
   155; 42; 43; 112; 167; 74; 75; 84; 85; 82; 14; 28; 70; 71; 211; 179; 139; 10; 11; 111; 200; 201; 114; 183; 123;
   233; 35; 207; 50; 202; 203; 36; 99; 203; 139; 189; 95; 223; 51; 52; 107; 15; 111; 112; 109; 41; 120; 97; 98; 238;
   206; 40; 37; 38; 138; 227; 228; 141; 210; 150; 20; 62; 234; 77; 168; 229; 230; 63; 126; 230; 166; 87; 216; 122;
   10; 78; 79; 134; 42; 200; 201; 198; 130; 136; 186; 187; 87; 55; 126; 127; 227; 76; 77; 230; 59; 239; 109; 151; 83;
   166; 71; 78; 79; 152; 215; 79; 15; 171; 65; 211; 99; 167; 168; 223; 131; 123; 76; 77; 59; 74; 56; 6; 228; 62; 63;
   45; 203; 185; 171; 152; 153; 85; 2; 3; 225; 103; 84; 85; 192; 193; 175; 106; 88; 175; 157; 115; 97; 225; 207; 27;
   8; 9; 199; 181; 42; 23; 24; 185; 194; 195; 177; 28; 10; 91; 72; 73; 195; 177; 131; 112; 113; 86; 181; 163; 87; 69;
   215; 196; 197; 43; 44; 26; 99; 81; 7; 228; 229; 129; 130; 126; 127; 59; 175; 115; 116; 16; 224; 168; 55; 56; 156;
   5; 6; 158; 159; 228; 167; 168; 38; 80; 11; 12; 95; 7; 8; 80; 81; 144; 7; 8; 184; 233; 234; 140; 28; 96; 97; 151;
   152; 60; 192; 212; 213; 189; 210; 121; 142; 178; 198; 199; 78; 99; 46; 67; 166; 118; 138; 139; 218; 239; 68; 88;
   89; 221; 2; 50; 71; 230; 11; 100; 121; 142; 163; 74; 95; 157; 178; 70; 90; 91; 143; 164; 206; 227; 70; 91; 6; 27;
   56; 77; 202; 223; 90; 111; 237; 159; 179; 180; 214; 235; 122; 143; 37; 216; 207; 231; 196; 193; 125; 177; 182; 82;
   49; 50; 122; 221; 222; 72; 225; 54; 234; 104; 145; 146; 78; 160; 161; 74; 147; 209; 210; 74; 9; 10; 213; 60; 206;
   93; 94; 163; 218; 125; 126; 167; 216; 217; 214; 146; 202; 203; 103; 71; 123; 142; 143; 3; 92; 93; 6; 75; 121; 15;
   125; 167; 99; 182; 94; 95; 168; 231; 95; 31; 81; 227; 115; 183; 184; 239; 147; 124; 121; 53; 47; 110; 10; 217;
   218; 56; 50; 149; 150; 0; 153; 222; 162; 32; 73; 74; 6; 88; 89; 2; 75; 137; 138; 2; 177; 178; 228; 134; 21; 22;
   166; 91; 146; 53; 54; 108; 109; 67; 106; 64; 38; 236; 94; 95; 53; 235; 193; 203; 160; 161; 81; 34; 35; 233; 135;
   92; 93; 224; 225; 183; 138; 96; 207; 165; 147; 105; 17; 215; 59; 16; 17; 231; 189; 74; 31; 32; 226; 227; 185; 60;
   18; 123; 80; 81; 231; 227; 185; 163; 120; 121; 213; 171; 119; 77; 7; 204; 205; 75; 76; 34; 131; 89; 39; 236; 237;
   121; 61; 62; 118; 59; 50; 231; 37; 107; 47; 48; 7; 188; 215; 156; 47; 227; 228; 147; 88; 237; 177; 178; 150; 91;
   219; 160; 159; 100; 29; 210; 71; 12; 3; 184; 86; 27; 239; 179; 180; 72; 13; 135; 76; 239; 180; 175; 116; 225; 166;
   131; 72; 19; 200; 88; 28; 29; 143; 84; 51; 232; 79; 80; 106; 107; 77; 103; 104; 9; 36; 65; 66; 92; 93; 206; 233;
   174; 201; 169; 5; 6; 32; 33; 106; 133; 195; 196; 222; 223; 109; 135; 136; 178; 205; 118; 144; 145; 228; 15; 30;
   57; 202; 228; 229; 45; 72; 197; 198; 224; 225; 31; 57; 58; 94; 121; 198; 224; 225; 134; 161; 184; 210; 211; 90;
   117; 218; 5; 46; 47; 73; 74; 102; 128; 129; 10; 37; 22; 99; 100; 122; 123; 97; 119; 120; 29; 52; 85; 86; 108; 109;
   226; 9; 194; 217; 195; 25; 26; 48; 49; 126; 149; 215; 216; 238; 239; 129; 151; 152; 198; 221; 138; 160; 161; 8;
   31; 50; 73; 222; 4; 5; 65; 88; 172; 217; 218; 0; 1; 51; 73; 74; 114; 137; 218; 0; 1; 154; 177; 204; 226; 227; 110;
   133; 238; 21; 66; 67; 89; 90; 122; 144; 145; 30; 53; 127; 210; 209; 232; 229; 161; 38; 218; 118; 86; 83; 158; 18;
   108; 21; 90; 30; 140; 182; 114; 197; 110; 183; 6; 110; 46; 96; 2; 130; 199; 14; 162; 150; 151; 148; 80; 136; 137;
   37; 5; 116; 76; 77; 177; 26; 27; 180; 9; 189; 59; 101; 226; 33; 116; 28; 29; 102; 165; 29; 205; 15; 161; 49; 117;
   118; 173; 81; 156; 153; 85; 237; 142; 42; 9; 10; 82; 181; 182; 32; 185; 14; 194; 64; 105; 106; 38; 120; 121; 34;
   107; 169; 170; 34; 209; 210; 20; 166; 53; 54; 12; 123; 178; 85; 86; 194; 43; 4; 93; 110; 80; 18; 129; 65; 94; 94;
   95; 231; 91; 92; 228; 24; 160; 80; 81; 217; 221; 117; 189; 84; 85; 20; 21; 157; 121; 16; 17; 145; 210; 211; 107;
   123; 124; 20; 193; 89; 132; 133; 29; 3; 139; 45; 180; 181; 216; 217; 113; 60; 195; 196; 212; 213; 109; 45; 46;
   182; 109; 4; 5; 212; 213; 109; 149; 44; 45; 65; 198; 199; 95; 105; 1; 233; 128; 129; 61; 62; 198; 116; 117; 13;
   25; 160; 161; 63; 180; 6; 143; 15; 24; 56; 36; 138; 220; 16; 191; 188; 120; 177; 77; 44; 45; 200; 117; 216; 217;
   67; 220; 49; 229; 99; 140; 141; 73; 155; 156; 69; 142; 204; 205; 69; 4; 5; 55; 201; 88; 89; 158; 213; 120; 121;
   20; 21; 17; 18; 190; 178; 6; 7; 147; 115; 186; 187; 47; 136; 137; 49; 50; 119; 58; 59; 169; 211; 142; 143; 226;
   13; 138; 139; 211; 212; 35; 138; 139; 75; 124; 125; 31; 159; 227; 228; 42; 43; 191; 10; 7; 179; 236; 136; 104;
   176; 36; 45; 126; 39; 108; 48; 158; 200; 132; 215; 128; 201; 24; 128; 64; 1; 114; 20; 148; 217; 32; 180; 39; 40;
   46; 36; 37; 43; 209; 215; 183; 25; 26; 32; 166; 172; 134; 139; 140; 205; 206; 212; 66; 71; 72; 155; 156; 162; 68;
   69; 75; 138; 144; 77; 78; 84; 188; 194; 230; 235; 236; 161; 162; 168; 5; 10; 11; 157; 158; 164; 230; 231; 237; 54;
   59; 60; 157; 158; 164; 94; 99; 100; 143; 144; 150; 50; 56; 178; 183; 184; 6; 7; 13; 61; 62; 68; 210; 215; 216; 79;
   80; 77; 9; 65; 66; 206; 174; 84; 5; 6; 106; 195; 196; 109; 178; 118; 228; 30; 202; 45; 224; 197; 198; 31; 94; 198;
   134; 184; 90; 218; 46; 47; 102; 10; 177; 111; 105; 58; 19; 55; 16; 227; 188; 44; 5; 184; 145; 152; 112; 113; 224;
   185; 84; 44; 45; 174; 135; 87; 48; 156; 117; 96; 57; 206; 167; 8; 208; 209; 180; 141; 23; 223; 224; 176; 137; 9;
   210; 72; 32; 33; 176; 137; 112; 72; 73; 162; 123; 68; 29; 196; 156; 157; 25; 226; 80; 41; 228; 188; 189; 9; 10; 7;
   179; 235; 236; 136; 104; 41; 175; 176; 36; 125; 126; 39; 108; 48; 158; 200; 132; 215; 40; 127; 128; 201; 24; 128;
   64; 114; 20; 148; 216; 217; 32; 180; 93; 94; 90; 91; 23; 166; 79; 80; 220; 188; 19; 20; 120; 209; 210; 122; 123;
   192; 131; 132; 2; 44; 215; 216; 59; 211; 212; 44; 45; 108; 211; 212; 148; 44; 197; 198; 104; 232; 60; 61; 115;
   116; 24; 211; 85; 208; 82; 140; 14; 197; 71; 97; 211; 65; 178; 179; 137; 11; 237; 110; 111; 77; 87; 201; 0; 114;
   69; 183; 9; 123; 119; 233; 161; 34; 35; 93; 207; 176; 49; 50; 89; 203; 162; 36; 225; 98; 99; 89; 203; 25; 138;
   139; 75; 189; 221; 95; 109; 222; 223; 178; 52; 233; 107; 141; 14; 15; 134; 135; 132; 64; 120; 121; 21; 229; 52;
   60; 61; 161; 10; 11; 164; 233; 173; 43; 85; 17; 100; 214; 12; 13; 86; 149; 13; 189; 239; 145; 33; 101; 102; 157;
   65].

Definition h_base_0 : list (list (Z * Z)) := [
  [(0,250); (1,69); (2,226); (3,159); (5,100); (6,10); (9,59); (10,229); (11,110); (12,191); (13,9); (15,195); (16,23); (18,190); (19,35); (20,239); (21,31); (22,1); (23,0)];
  [(0,2); (2,239); (3,117); (4,124); (5,71); (7,222); (8,104); (9,173); (11,220); (12,102); (14,109); (15,132); (16,142); (17,155); (19,255); (21,28); (22,0); (23,0); (24,0)];
  [(0,106); (1,111); (2,185); (4,63); (5,117); (6,93); (7,229); (8,177); (9,95); (10,39); (13,142); (14,225); (15,225); (17,245); (18,205); (19,251); (20,117); (24,0); (25,0)];
  [(0,121); (1,89); (3,84); (4,20); (6,150); (7,131); (8,243); (10,136); (11,86); (12,246); (13,219); (14,211); (16,240); (17,76); (18,244); (20,144); (21,12); (22,1); (25,0)];
  [(0,157); (1,102); (26,0)];
  [(0,205); (1,236); (3,194); (12,231); (16,28); (21,123); (22,115); (27,0)];
  [(0,183); (6,22); (10,28); (11,67); (13,244); (17,11); (18,157); (20,211); (28,0)];
  [(0,220); (1,44); (4,159); (7,31); (8,167); (14,104); (29,0)];
  [(0,112); (1,4); (3,7); (12,211); (16,102); (19,164); (21,109); (22,241); (24,90); (30,0)];
  [(0,103); (1,182); (10,109); (11,21); (13,142); (17,14); (18,61); (20,216); (31,0)];
  [(1,98); (2,149); (4,167); (7,160); (8,49); (14,58); (32,0)];
  [(0,77); (1,41); (12,83); (16,182); (21,78); (22,252); (23,22); (33,0)];
  [(0,160); (1,42); (10,21); (11,32); (13,234); (18,7); (34,0)];
  [(0,177); (3,248); (7,151); (20,185); (23,62); (35,0)];
  [(0,206); (12,55); (15,206); (16,127); (17,16); (21,229); (36,0)];
  [(0,40); (1,96); (10,65); (13,63); (18,75); (25,179); (37,0)];
  [(1,64); (3,49); (11,49); (20,51); (22,154); (38,0)];
  [(0,7); (14,164); (16,59); (17,1); (21,144); (39,0)];
  [(1,42); (12,233); (13,8); (18,155); (19,147); (40,0)];
  [(0,60); (1,73); (7,72); (8,127); (10,224); (41,0)];
  [(0,151); (3,186); (9,217); (11,47); (22,160); (42,0)];
  [(1,249); (5,121); (16,109); (20,131); (21,171); (43,0)];
  [(0,64); (12,142); (13,188); (17,158); (44,0)];
  [(1,156); (2,147); (10,170); (18,152); (45,0)];
  [(0,112); (3,86); (4,236); (11,116); (22,222); (46,0)];
  [(1,23); (6,136); (7,116); (14,182); (47,0)];
  [(0,195); (2,243); (4,215); (15,61); (48,0)];
  [(1,25); (6,104); (8,194); (49,0)];
  [(0,128); (4,165); (19,181); (21,63); (50,0)];
  [(1,86); (14,236); (18,84); (25,6); (51,0)];
  [(0,216); (10,73); (13,120); (24,9); (52,0)];
  [(1,95); (7,177); (22,172); (25,61); (53,0)];
  [(0,221); (12,112); (14,199); (24,121); (54,0)];
  [(1,2); (2,187); (11,41); (21,211); (55,0)];
  [(0,127); (7,167); (15,164); (17,159); (56,0)];
  [(1,161); (6,197); (12,207); (22,103); (57,0)];
  [(0,37); (14,105); (15,51); (18,120); (58,0)];
  [(1,198); (13,220); (23,122); (59,0)];
  [(0,167); (9,151); (10,157); (12,163); (60,0)];
  [(1,173); (3,139); (7,149); (19,0); (61,0)];
  [(0,157); (8,137); (17,149); (62,0)];
  [(1,167); (3,173); (9,139); (18,151); (63,0)];
  [(0,149); (4,157); (24,137); (64,0)];
  [(1,151); (16,163); (18,173); (25,139); (65,0)];
  [(0,139); (7,157); (9,163); (22,173); (66,0)];
  [(1,149); (6,151); (10,167); (67,0)]].

Definition h_base_1 : list (list (Z * Z)) := [
  [(0,307); (1,19); (2,50); (3,369); (5,181); (6,216); (9,317); (10,288); (11,109); (12,17); (13,357); (15,215); (16,106); (18,242); (19,180); (20,330); (21,346); (22,1); (23,0)];
  [(0,76); (2,76); (3,73); (4,288); (5,144); (7,331); (8,331); (9,178); (11,295); (12,342); (14,217); (15,99); (16,354); (17,114); (19,331); (21,112); (22,0); (23,0); (24,0)];
  [(0,205); (1,250); (2,328); (4,332); (5,256); (6,161); (7,267); (8,160); (9,63); (10,129); (13,200); (14,88); (15,53); (17,131); (18,240); (19,205); (20,13); (24,0); (25,0)];
  [(0,276); (1,87); (3,0); (4,275); (6,199); (7,153); (8,56); (10,132); (11,305); (12,231); (13,341); (14,212); (16,304); (17,300); (18,271); (20,39); (21,357); (22,1); (25,0)];
  [(0,332); (1,181); (26,0)];
  [(0,195); (1,14); (3,115); (12,166); (16,241); (21,51); (22,157); (27,0)];
  [(0,278); (6,257); (10,1); (11,351); (13,92); (17,253); (18,18); (20,225); (28,0)];
  [(0,9); (1,62); (4,316); (7,333); (8,290); (14,114); (29,0)];
  [(0,307); (1,179); (3,165); (12,18); (16,39); (19,224); (21,368); (22,67); (24,170); (30,0)];
  [(0,366); (1,232); (10,321); (11,133); (13,57); (17,303); (18,63); (20,82); (31,0)];
  [(1,101); (2,339); (4,274); (7,111); (8,383); (14,354); (32,0)];
  [(0,48); (1,102); (12,8); (16,47); (21,188); (22,334); (23,115); (33,0)];
  [(0,77); (1,186); (10,174); (11,232); (13,50); (18,74); (34,0)];
  [(0,313); (3,177); (7,266); (20,115); (23,370); (35,0)];
  [(0,142); (12,248); (15,137); (16,89); (17,347); (21,12); (36,0)];
  [(0,241); (1,2); (10,210); (13,318); (18,55); (25,269); (37,0)];
  [(1,13); (3,338); (11,57); (20,289); (22,57); (38,0)];
  [(0,260); (14,303); (16,81); (17,358); (21,375); (39,0)];
  [(1,130); (12,163); (13,280); (18,132); (19,4); (40,0)];
  [(0,145); (1,213); (7,344); (8,242); (10,197); (41,0)];
  [(0,187); (3,206); (9,264); (11,341); (22,59); (42,0)];
  [(1,205); (5,102); (16,328); (20,213); (21,97); (43,0)];
  [(0,30); (12,11); (13,233); (17,22); (44,0)];
  [(1,24); (2,89); (10,61); (18,27); (45,0)];
  [(0,298); (3,158); (4,235); (11,339); (22,234); (46,0)];
  [(1,72); (6,17); (7,383); (14,312); (47,0)];
  [(0,71); (2,81); (4,76); (15,136); (48,0)];
  [(1,194); (6,194); (8,101); (49,0)];
  [(0,222); (4,19); (19,244); (21,274); (50,0)];
  [(1,252); (14,5); (18,147); (25,78); (51,0)];
  [(0,159); (10,229); (13,260); (24,90); (52,0)];
  [(1,100); (7,215); (22,258); (25,256); (53,0)];
  [(0,102); (12,201); (14,175); (24,287); (54,0)];
  [(1,323); (2,8); (11,361); (21,105); (55,0)];
  [(0,230); (7,148); (15,202); (17,312); (56,0)];
  [(1,320); (6,335); (12,2); (22,266); (57,0)];
  [(0,210); (14,313); (15,297); (18,21); (58,0)];
  [(1,269); (13,82); (23,115); (59,0)];
  [(0,185); (9,177); (10,289); (12,214); (60,0)];
  [(1,258); (3,93); (7,346); (19,297); (61,0)];
  [(0,175); (8,37); (17,312); (62,0)];
  [(1,52); (3,314); (9,139); (18,288); (63,0)];
  [(0,113); (4,14); (24,218); (64,0)];
  [(1,113); (16,132); (18,114); (25,168); (65,0)];
  [(0,80); (7,78); (9,163); (22,274); (66,0)];
  [(1,135); (6,149); (10,15); (67,0)]].

Definition h_base_2 : list (list (Z * Z)) := [
  [(0,73); (1,15); (2,103); (3,49); (5,240); (6,39); (9,15); (10,162); (11,215); (12,164); (13,133); (15,298); (16,110); (18,113); (19,16); (20,189); (21,32); (22,1); (23,0)];
  [(0,303); (2,294); (3,27); (4,261); (5,161); (7,133); (8,4); (9,80); (11,129); (12,300); (14,76); (15,266); (16,72); (17,83); (19,260); (21,301); (22,0); (23,0); (24,0)];
  [(0,68); (1,7); (2,80); (4,280); (5,38); (6,227); (7,202); (8,200); (9,71); (10,106); (13,295); (14,283); (15,301); (17,184); (18,246); (19,230); (20,276); (24,0); (25,0)];
  [(0,220); (1,208); (3,30); (4,197); (6,61); (7,175); (8,79); (10,281); (11,303); (12,253); (13,164); (14,53); (16,44); (17,28); (18,77); (20,319); (21,68); (22,1); (25,0)];
  [(0,233); (1,205); (26,0)];
  [(0,83); (1,292); (3,50); (12,318); (16,201); (21,267); (22,279); (27,0)];
  [(0,289); (6,21); (10,293); (11,13); (13,232); (17,302); (18,138); (20,235); (28,0)];
  [(0,12); (1,88); (4,207); (7,50); (8,25); (14,76); (29,0)];
  [(0,295); (1,133); (3,130); (12,231); (16,296); (19,110); (21,269); (22,245); (24,154); (30,0)];
  [(0,189); (1,244); (10,36); (11,286); (13,151); (17,267); (18,135); (20,209); (31,0)];
  [(1,14); (2,80); (4,211); (7,75); (8,161); (14,311); (32,0)];
  [(0,16); (1,147); (12,290); (16,289); (21,177); (22,43); (23,280); (33,0)];
  [(0,229); (1,235); (10,169); (11,48); (13,105); (18,52); (34,0)];
  [(0,39); (3,302); (7,303); (20,160); (23,37); (35,0)];
  [(0,78); (12,299); (15,54); (16,61); (17,179); (21,258); (36,0)];
  [(0,229); (1,290); (10,60); (13,130); (18,184); (25,51); (37,0)];
  [(1,69); (3,140); (11,45); (20,115); (22,300); (38,0)];
  [(0,257); (14,147); (16,128); (17,51); (21,228); (39,0)];
  [(1,260); (12,294); (13,291); (18,141); (19,295); (40,0)];
  [(0,64); (1,181); (7,101); (8,270); (10,41); (41,0)];
  [(0,301); (3,162); (9,40); (11,130); (22,10); (42,0)];
  [(1,79); (5,175); (16,132); (20,283); (21,103); (43,0)];
  [(0,177); (12,20); (13,55); (17,316); (44,0)];
  [(1,249); (2,50); (10,133); (18,105); (45,0)];
  [(0,289); (3,280); (4,110); (11,187); (22,281); (46,0)];
  [(1,172); (6,295); (7,96); (14,46); (47,0)];
  [(0,270); (2,110); (4,318); (15,67); (48,0)];
  [(1,210); (6,29); (8,304); (49,0)];
  [(0,11); (4,293); (19,50); (21,234); (50,0)];
  [(1,27); (14,308); (18,117); (25,29); (51,0)];
  [(0,91); (10,23); (13,105); (24,135); (52,0)];
  [(1,222); (7,308); (22,66); (25,162); (53,0)];
  [(0,210); (12,22); (14,271); (24,217); (54,0)];
  [(1,170); (2,20); (11,140); (21,33); (55,0)];
  [(0,187); (7,296); (15,5); (17,44); (56,0)];
  [(1,207); (6,158); (12,55); (22,285); (57,0)];
  [(0,259); (14,179); (15,178); (18,160); (58,0)];
  [(1,298); (13,15); (23,115); (59,0)];
  [(0,151); (9,179); (10,64); (12,181); (60,0)];
  [(1,102); (3,77); (7,192); (19,208); (61,0)];
  [(0,32); (8,80); (17,197); (62,0)];
  [(1,154); (3,47); (9,124); (18,207); (63,0)];
  [(0,226); (4,65); (24,126); (64,0)];
  [(1,228); (16,69); (18,176); (25,102); (65,0)];
  [(0,234); (7,227); (9,259); (22,260); (66,0)];
  [(1,101); (6,228); (10,126); (67,0)]].

Definition h_base_3 : list (list (Z * Z)) := [
  [(0,223); (1,16); (2,94); (3,91); (5,74); (6,10); (9,0); (10,205); (11,216); (12,21); (13,215); (15,14); (16,70); (18,141); (19,198); (20,104); (21,81); (22,1); (23,0)];
  [(0,141); (2,45); (3,151); (4,46); (5,119); (7,157); (8,133); (9,87); (11,206); (12,93); (14,79); (15,9); (16,118); (17,194); (19,31); (21,187); (22,0); (23,0); (24,0)];
  [(0,207); (1,203); (2,31); (4,176); (5,180); (6,186); (7,95); (8,153); (9,177); (10,70); (13,77); (14,214); (15,77); (17,198); (18,117); (19,223); (20,90); (24,0); (25,0)];
  [(0,201); (1,18); (3,165); (4,5); (6,45); (7,142); (8,16); (10,34); (11,155); (12,213); (13,147); (14,69); (16,96); (17,74); (18,99); (20,30); (21,158); (22,1); (25,0)];
  [(0,170); (1,10); (26,0)];
  [(0,164); (1,59); (3,86); (12,80); (16,182); (21,130); (22,153); (27,0)];
  [(0,158); (6,119); (10,113); (11,21); (13,63); (17,51); (18,136); (20,116); (28,0)];
  [(0,17); (1,76); (4,104); (7,100); (8,150); (14,158); (29,0)];
  [(0,33); (1,95); (3,4); (12,217); (16,204); (19,39); (21,58); (22,44); (24,201); (30,0)];
  [(0,9); (1,37); (10,213); (11,105); (13,89); (17,185); (18,109); (20,218); (31,0)];
  [(1,82); (2,165); (4,174); (7,19); (8,194); (14,103); (32,0)];
  [(0,52); (1,11); (12,2); (16,35); (21,32); (22,84); (23,201); (33,0)];
  [(0,142); (1,175); (10,136); (11,3); (13,28); (18,182); (34,0)];
  [(0,81); (3,56); (7,72); (20,217); (23,78); (35,0)];
  [(0,14); (12,175); (15,211); (16,191); (17,51); (21,43); (36,0)];
  [(0,90); (1,120); (10,131); (13,209); (18,209); (25,81); (37,0)];
  [(1,154); (3,164); (11,43); (20,189); (22,101); (38,0)];
  [(0,56); (14,110); (16,200); (17,63); (21,4); (39,0)];
  [(1,199); (12,110); (13,200); (18,143); (19,186); (40,0)];
  [(0,8); (1,6); (7,103); (8,198); (10,8); (41,0)];
  [(0,105); (3,210); (9,121); (11,214); (22,183); (42,0)];
  [(1,192); (5,131); (16,220); (20,50); (21,106); (43,0)];
  [(0,53); (12,0); (13,3); (17,148); (44,0)];
  [(1,88); (2,203); (10,168); (18,122); (45,0)];
  [(0,49); (3,157); (4,64); (11,193); (22,124); (46,0)];
  [(1,1); (6,166); (7,65); (14,81); (47,0)];
  [(0,107); (2,176); (4,212); (15,127); (48,0)];
  [(1,208); (6,141); (8,174); (49,0)];
  [(0,146); (4,153); (19,217); (21,114); (50,0)];
  [(1,150); (14,11); (18,53); (25,68); (51,0)];
  [(0,34); (10,130); (13,210); (24,123); (52,0)];
  [(1,175); (7,49); (22,177); (25,128); (53,0)];
  [(0,192); (12,209); (14,58); (24,30); (54,0)];
  [(1,114); (2,49); (11,161); (21,137); (55,0)];
  [(0,82); (7,186); (15,68); (17,150); (56,0)];
  [(1,192); (6,173); (12,26); (22,187); (57,0)];
  [(0,222); (14,157); (15,0); (18,6); (58,0)];
  [(1,81); (13,195); (23,138); (59,0)];
  [(0,123); (9,90); (10,73); (12,10); (60,0)];
  [(1,12); (3,77); (7,49); (19,114); (61,0)];
  [(0,67); (8,45); (17,96); (62,0)];
  [(1,23); (3,215); (9,60); (18,167); (63,0)];
  [(0,114); (4,91); (24,78); (64,0)];
  [(1,206); (16,22); (18,134); (25,161); (65,0)];
  [(0,84); (7,4); (9,9); (22,12); (66,0)];
  [(1,184); (6,121); (10,29); (67,0)]].

Definition h_base_4 : list (list (Z * Z)) := [
  [(0,211); (1,198); (2,188); (3,186); (5,219); (6,4); (9,29); (10,144); (11,116); (12,216); (13,115); (15,233); (16,144); (18,95); (19,216); (20,73); (21,261); (22,1); (23,0)];
  [(0,179); (2,162); (3,223); (4,256); (5,160); (7,76); (8,202); (9,117); (11,109); (12,15); (14,72); (15,152); (16,158); (17,147); (19,156); (21,119); (22,0); (23,0); (24,0)];
  [(0,258); (1,167); (2,220); (4,133); (5,243); (6,202); (7,218); (8,63); (9,0); (10,3); (13,74); (14,229); (15,0); (17,216); (18,269); (19,200); (20,234); (24,0); (25,0)];
  [(0,187); (1,145); (3,166); (4,108); (6,82); (7,132); (8,197); (10,41); (11,162); (12,57); (13,36); (14,115); (16,242); (17,165); (18,0); (20,113); (21,108); (22,1); (25,0)];
  [(0,246); (1,235); (26,0)];
  [(0,261); (1,181); (3,72); (12,283); (16,254); (21,79); (22,144); (27,0)];
  [(0,80); (6,144); (10,169); (11,90); (13,59); (17,177); (18,151); (20,108); (28,0)];
  [(0,169); (1,189); (4,154); (7,184); (8,104); (14,164); (29,0)];
  [(0,54); (1,0); (3,252); (12,41); (16,98); (19,46); (21,15); (22,230); (24,54); (30,0)];
  [(0,162); (1,159); (10,93); (11,134); (13,45); (17,132); (18,76); (20,209); (31,0)];
  [(1,178); (2,1); (4,28); (7,267); (8,234); (14,201); (32,0)];
  [(0,55); (1,23); (12,274); (16,181); (21,273); (22,39); (23,26); (33,0)];
  [(0,225); (1,162); (10,244); (11,151); (13,238); (18,243); (34,0)];
  [(0,231); (3,0); (7,216); (20,47); (23,36); (35,0)];
  [(0,0); (12,186); (15,253); (16,16); (17,0); (21,79); (36,0)];
  [(0,170); (1,0); (10,183); (13,108); (18,68); (25,64); (37,0)];
  [(1,270); (3,13); (11,99); (20,54); (22,0); (38,0)];
  [(0,153); (14,137); (16,0); (17,0); (21,162); (39,0)];
  [(1,161); (12,151); (13,0); (18,241); (19,144); (40,0)];
  [(0,0); (1,0); (7,118); (8,144); (10,0); (41,0)];
  [(0,265); (3,81); (9,90); (11,144); (22,228); (42,0)];
  [(1,64); (5,46); (16,266); (20,9); (21,18); (43,0)];
  [(0,72); (12,189); (13,72); (17,257); (44,0)];
  [(1,180); (2,0); (10,0); (18,165); (45,0)];
  [(0,236); (3,199); (4,0); (11,266); (22,0); (46,0)];
  [(1,205); (6,0); (7,0); (14,183); (47,0)];
  [(0,0); (2,0); (4,0); (15,277); (48,0)];
  [(1,45); (6,36); (8,72); (49,0)];
  [(0,275); (4,0); (19,155); (21,62); (50,0)];
  [(1,0); (14,180); (18,0); (25,42); (51,0)];
  [(0,0); (10,90); (13,252); (24,173); (52,0)];
  [(1,144); (7,144); (22,166); (25,19); (53,0)];
  [(0,0); (12,211); (14,36); (24,162); (54,0)];
  [(1,0); (2,0); (11,76); (21,18); (55,0)];
  [(0,197); (7,0); (15,108); (17,0); (56,0)];
  [(1,199); (6,278); (12,0); (22,205); (57,0)];
  [(0,216); (14,16); (15,0); (18,0); (58,0)];
  [(1,72); (13,144); (23,0); (59,0)];
  [(0,190); (9,0); (10,0); (12,0); (60,0)];
  [(1,153); (3,0); (7,165); (19,117); (61,0)];
  [(0,216); (8,144); (17,2); (62,0)];
  [(1,0); (3,0); (9,0); (18,183); (63,0)];
  [(0,27); (4,0); (24,35); (64,0)];
  [(1,52); (16,243); (18,0); (25,270); (65,0)];
  [(0,18); (7,0); (9,0); (22,57); (66,0)];
  [(1,168); (6,0); (10,144); (67,0)]].

Definition h_base_5 : list (list (Z * Z)) := [
  [(0,294); (1,118); (2,167); (3,330); (5,207); (6,165); (9,243); (10,250); (11,1); (12,339); (13,201); (15,53); (16,347); (18,304); (19,167); (20,47); (21,188); (22,1); (23,0)];
  [(0,77); (2,225); (3,96); (4,338); (5,268); (7,112); (8,302); (9,50); (11,167); (12,253); (14,334); (15,242); (16,257); (17,133); (19,9); (21,302); (22,0); (23,0); (24,0)];
  [(0,226); (1,35); (2,213); (4,302); (5,111); (6,265); (7,128); (8,237); (9,294); (10,127); (13,110); (14,286); (15,125); (17,131); (18,163); (19,210); (20,7); (24,0); (25,0)];
  [(0,97); (1,94); (3,49); (4,279); (6,139); (7,166); (8,91); (10,106); (11,246); (12,345); (13,269); (14,185); (16,249); (17,215); (18,143); (20,121); (21,121); (22,1); (25,0)];
  [(0,42); (1,256); (26,0)];
  [(0,219); (1,130); (3,251); (12,322); (16,295); (21,258); (22,283); (27,0)];
  [(0,294); (6,73); (10,330); (11,99); (13,172); (17,150); (18,284); (20,305); (28,0)];
  [(0,3); (1,103); (4,224); (7,297); (8,215); (14,39); (29,0)];
  [(0,348); (1,75); (3,22); (12,312); (16,224); (19,17); (21,59); (22,314); (24,244); (30,0)];
  [(0,156); (1,88); (10,293); (11,111); (13,92); (17,152); (18,23); (20,337); (31,0)];
  [(1,175); (2,253); (4,27); (7,231); (8,49); (14,267); (32,0)];
  [(0,25); (1,322); (12,200); (16,351); (21,166); (22,338); (23,192); (33,0)];
  [(0,123); (1,217); (10,142); (11,110); (13,176); (18,76); (34,0)];
  [(0,311); (3,251); (7,265); (20,94); (23,81); (35,0)];
  [(0,22); (12,322); (15,277); (16,156); (17,66); (21,78); (36,0)];
  [(0,176); (1,348); (10,15); (13,81); (18,176); (25,113); (37,0)];
  [(1,190); (3,293); (11,332); (20,331); (22,114); (38,0)];
  [(0,110); (14,228); (16,247); (17,116); (21,190); (39,0)];
  [(1,47); (12,286); (13,246); (18,181); (19,73); (40,0)];
  [(0,87); (1,110); (7,147); (8,258); (10,204); (41,0)];
  [(0,89); (3,65); (9,155); (11,244); (22,30); (42,0)];
  [(1,162); (5,264); (16,346); (20,143); (21,109); (43,0)];
  [(0,280); (12,157); (13,236); (17,113); (44,0)];
  [(1,18); (2,6); (10,181); (18,304); (45,0)];
  [(0,38); (3,170); (4,249); (11,288); (22,194); (46,0)];
  [(1,279); (6,255); (7,111); (14,54); (47,0)];
  [(0,325); (2,326); (4,226); (15,99); (48,0)];
  [(1,91); (6,326); (8,268); (49,0)];
  [(0,102); (4,1); (19,40); (21,167); (50,0)];
  [(1,273); (14,104); (18,243); (25,107); (51,0)];
  [(0,171); (10,16); (13,95); (24,212); (52,0)];
  [(1,101); (7,297); (22,279); (25,222); (53,0)];
  [(0,351); (12,265); (14,338); (24,83); (54,0)];
  [(1,56); (2,304); (11,141); (21,101); (55,0)];
  [(0,60); (7,320); (15,112); (17,54); (56,0)];
  [(1,100); (6,210); (12,195); (22,268); (57,0)];
  [(0,135); (14,15); (15,35); (18,188); (58,0)];
  [(1,319); (13,236); (23,85); (59,0)];
  [(0,164); (9,196); (10,209); (12,246); (60,0)];
  [(1,236); (3,264); (7,37); (19,272); (61,0)];
  [(0,304); (8,237); (17,135); (62,0)];
  [(1,123); (3,77); (9,25); (18,272); (63,0)];
  [(0,288); (4,83); (24,17); (64,0)];
  [(1,210); (16,3); (18,53); (25,167); (65,0)];
  [(0,79); (7,244); (9,293); (22,272); (66,0)];
  [(1,82); (6,67); (10,235); (67,0)]].

Definition h_base_6 : list (list (Z * Z)) := [
  [(0,0); (1,0); (2,0); (3,0); (5,0); (6,0); (9,0); (10,0); (11,0); (12,0); (13,0); (15,0); (16,0); (18,0); (19,0); (20,0); (21,0); (22,0); (23,0)];
  [(0,22); (2,11); (3,124); (4,0); (5,10); (7,0); (8,0); (9,2); (11,16); (12,60); (14,0); (15,6); (16,30); (17,0); (19,168); (21,31); (22,105); (23,0); (24,0)];
  [(0,132); (1,37); (2,21); (4,180); (5,4); (6,149); (7,48); (8,38); (9,122); (10,195); (13,155); (14,28); (15,85); (17,47); (18,179); (19,42); (20,66); (24,0); (25,0)];
  [(0,4); (1,6); (3,33); (4,113); (6,49); (7,21); (8,6); (10,151); (11,83); (12,154); (13,87); (14,5); (16,92); (17,173); (18,120); (20,2); (21,142); (22,0); (25,0)];
  [(0,24); (1,204); (26,0)];
  [(0,185); (1,100); (3,24); (12,65); (16,207); (21,161); (22,72); (27,0)];
  [(0,6); (6,27); (10,163); (11,50); (13,48); (17,24); (18,38); (20,91); (28,0)];
  [(0,145); (1,88); (4,112); (7,153); (8,159); (14,76); (29,0)];
  [(0,172); (1,2); (3,131); (12,141); (16,96); (19,99); (21,101); (22,35); (24,116); (30,0)];
  [(0,6); (1,10); (10,145); (11,53); (13,201); (17,4); (18,164); (20,173); (31,0)];
  [(1,126); (2,77); (4,156); (7,16); (8,12); (14,70); (32,0)];
  [(0,184); (1,194); (12,123); (16,16); (21,104); (22,109); (23,124); (33,0)];
  [(0,6); (1,20); (10,203); (11,153); (13,104); (18,207); (34,0)];
  [(0,52); (3,147); (7,1); (20,16); (23,46); (35,0)];
  [(0,1); (12,202); (15,118); (16,130); (17,1); (21,2); (36,0)];
  [(0,173); (1,6); (10,81); (13,182); (18,53); (25,46); (37,0)];
  [(1,88); (3,198); (11,160); (20,122); (22,182); (38,0)];
  [(0,91); (14,184); (16,30); (17,3); (21,155); (39,0)];
  [(1,1); (12,41); (13,167); (18,68); (19,148); (40,0)];
  [(0,12); (1,6); (7,166); (8,184); (10,191); (41,0)];
  [(0,6); (3,12); (9,15); (11,5); (22,30); (42,0)];
  [(1,6); (5,86); (16,96); (20,42); (21,199); (43,0)];
  [(0,44); (12,58); (13,130); (17,131); (44,0)];
  [(1,45); (2,18); (10,132); (18,100); (45,0)];
  [(0,9); (3,125); (4,191); (11,28); (22,6); (46,0)];
  [(1,4); (6,74); (7,16); (14,28); (47,0)];
  [(0,21); (2,142); (4,192); (15,197); (48,0)];
  [(1,98); (6,140); (8,22); (49,0)];
  [(0,4); (4,1); (19,40); (21,93); (50,0)];
  [(1,92); (14,136); (18,106); (25,6); (51,0)];
  [(0,2); (10,88); (13,112); (24,20); (52,0)];
  [(1,4); (7,49); (22,125); (25,194); (53,0)];
  [(0,6); (12,126); (14,63); (24,20); (54,0)];
  [(1,10); (2,30); (11,6); (21,92); (55,0)];
  [(0,4); (7,153); (15,197); (17,155); (56,0)];
  [(1,4); (6,45); (12,168); (22,185); (57,0)];
  [(0,6); (14,200); (15,177); (18,43); (58,0)];
  [(1,82); (13,2); (23,135); (59,0)];
  [(0,91); (9,64); (10,198); (12,100); (60,0)];
  [(1,4); (3,28); (7,109); (19,188); (61,0)];
  [(0,10); (8,84); (17,12); (62,0)];
  [(1,2); (3,75); (9,142); (18,128); (63,0)];
  [(0,163); (4,10); (24,162); (64,0)];
  [(1,1); (16,163); (18,99); (25,98); (65,0)];
  [(0,4); (7,6); (9,142); (22,3); (66,0)];
  [(1,181); (6,45); (10,153); (67,0)]].

Definition h_base_7 : list (list (Z * Z)) := [
  [(0,135); (1,227); (2,126); (3,134); (5,84); (6,83); (9,53); (10,225); (11,205); (12,128); (13,75); (15,135); (16,217); (18,220); (19,90); (20,105); (21,137); (22,1); (23,0)];
  [(0,96); (2,236); (3,136); (4,221); (5,128); (7,92); (8,172); (9,56); (11,11); (12,189); (14,95); (15,85); (16,153); (17,87); (19,163); (21,216); (22,0); (23,0); (24,0)];
  [(0,189); (1,4); (2,225); (4,151); (5,236); (6,117); (7,179); (8,92); (9,24); (10,68); (13,6); (14,101); (15,33); (17,96); (18,125); (19,67); (20,230); (24,0); (25,0)];
  [(0,128); (1,23); (3,162); (4,220); (6,43); (7,186); (8,96); (10,1); (11,216); (12,22); (13,24); (14,167); (16,200); (17,32); (18,235); (20,172); (21,219); (22,1); (25,0)];
  [(0,64); (1,211); (26,0)];
  [(0,2); (1,171); (3,47); (12,143); (16,210); (21,180); (22,180); (27,0)];
  [(0,199); (6,22); (10,23); (11,100); (13,92); (17,207); (18,52); (20,13); (28,0)];
  [(0,77); (1,146); (4,209); (7,32); (8,166); (14,18); (29,0)];
  [(0,181); (1,105); (3,141); (12,223); (16,177); (19,145); (21,199); (22,153); (24,38); (30,0)];
  [(0,169); (1,12); (10,206); (11,221); (13,17); (17,212); (18,92); (20,205); (31,0)];
  [(1,116); (2,151); (4,70); (7,230); (8,115); (14,84); (32,0)];
  [(0,45); (1,115); (12,134); (16,1); (21,152); (22,165); (23,107); (33,0)];
  [(0,186); (1,215); (10,124); (11,180); (13,98); (18,80); (34,0)];
  [(0,220); (3,185); (7,154); (20,178); (23,150); (35,0)];
  [(0,124); (12,144); (15,182); (16,95); (17,72); (21,76); (36,0)];
  [(0,39); (1,138); (10,220); (13,173); (18,142); (25,49); (37,0)];
  [(1,78); (3,152); (11,84); (20,5); (22,205); (38,0)];
  [(0,183); (14,112); (16,106); (17,219); (21,129); (39,0)];
  [(1,183); (12,215); (13,180); (18,143); (19,14); (40,0)];
  [(0,179); (1,108); (7,159); (8,138); (10,196); (41,0)];
  [(0,77); (3,187); (9,203); (11,167); (22,130); (42,0)];
  [(1,197); (5,122); (16,215); (20,65); (21,216); (43,0)];
  [(0,25); (12,47); (13,126); (17,178); (44,0)];
  [(1,185); (2,127); (10,117); (18,199); (45,0)];
  [(0,32); (3,178); (4,2); (11,156); (22,58); (46,0)];
  [(1,27); (6,141); (7,11); (14,181); (47,0)];
  [(0,163); (2,131); (4,169); (15,98); (48,0)];
  [(1,165); (6,232); (8,9); (49,0)];
  [(0,32); (4,43); (19,200); (21,205); (50,0)];
  [(1,232); (14,32); (18,118); (25,103); (51,0)];
  [(0,170); (10,199); (13,26); (24,105); (52,0)];
  [(1,73); (7,149); (22,175); (25,108); (53,0)];
  [(0,103); (12,110); (14,151); (24,211); (54,0)];
  [(1,199); (2,132); (11,172); (21,65); (55,0)];
  [(0,161); (7,237); (15,142); (17,180); (56,0)];
  [(1,231); (6,174); (12,145); (22,100); (57,0)];
  [(0,11); (14,207); (15,42); (18,100); (58,0)];
  [(1,59); (13,204); (23,161); (59,0)];
  [(0,121); (9,90); (10,26); (12,140); (60,0)];
  [(1,115); (3,188); (7,168); (19,52); (61,0)];
  [(0,4); (8,103); (17,30); (62,0)];
  [(1,53); (3,189); (9,215); (18,24); (63,0)];
  [(0,222); (4,170); (24,71); (64,0)];
  [(1,22); (16,127); (18,49); (25,125); (65,0)];
  [(0,191); (7,211); (9,187); (22,148); (66,0)];
  [(1,177); (6,114); (10,93); (67,0)]].

Definition h_base_8 : list (list (Z * Z)) := [
  [(0,9); (1,117); (2,204); (3,26); (6,189); (9,205); (10,0); (11,0)];
  [(0,167); (3,166); (4,253); (5,125); (6,226); (7,156); (8,224); (9,252); (11,0); (12,0)];
  [(0,81); (1,114); (3,44); (4,52); (8,240); (10,1); (12,0); (13,0)];
  [(1,8); (2,58); (4,158); (5,104); (6,209); (7,54); (8,18); (9,128); (10,0); (13,0)];
  [(0,179); (1,214); (11,71); (14,0)];
  [(0,231); (1,41); (5,194); (7,159); (11,103); (15,0)];
  [(0,155); (5,228); (7,45); (9,28); (11,158); (16,0)];
  [(1,129); (5,147); (7,140); (11,3); (13,116); (17,0)];
  [(0,142); (1,94); (12,230); (18,0)];
  [(1,203); (8,205); (10,61); (11,247); (19,0)];
  [(0,11); (1,185); (6,0); (7,117); (20,0)];
  [(0,11); (7,236); (9,210); (13,56); (21,0)];
  [(1,63); (3,111); (11,14); (22,0)];
  [(0,83); (1,2); (8,38); (13,222); (23,0)];
  [(1,115); (6,145); (11,3); (13,232); (24,0)];
  [(0,51); (10,175); (11,213); (25,0)];
  [(1,203); (9,142); (11,8); (12,242); (26,0)];
  [(1,254); (5,124); (11,114); (12,64); (27,0)];
  [(0,220); (6,194); (7,50); (28,0)];
  [(0,87); (1,20); (10,185); (29,0)];
  [(1,26); (4,105); (11,29); (30,0)];
  [(0,76); (8,42); (13,210); (31,0)];
  [(1,222); (2,63); (32,0)];
  [(0,23); (3,235); (5,238); (33,0)];
  [(1,46); (2,139); (9,8); (34,0)];
  [(0,228); (5,156); (35,0)];
  [(2,29); (7,143); (12,160); (13,122); (36,0)];
  [(0,8); (6,151); (37,0)];
  [(1,98); (2,101); (5,135); (38,0)];
  [(0,18); (4,28); (39,0)];
  [(2,71); (5,240); (7,9); (9,84); (40,0)];
  [(1,106); (13,1); (41,0)];
  [(0,242); (5,44); (12,166); (42,0)];
  [(2,132); (7,164); (10,235); (43,0)];
  [(0,147); (12,85); (13,36); (44,0)];
  [(1,57); (5,40); (11,63); (45,0)];
  [(0,140); (2,38); (7,154); (46,0)];
  [(10,219); (13,151); (47,0)];
  [(1,31); (5,66); (11,38); (48,0)];
  [(0,239); (7,172); (12,34); (49,0)];
  [(2,0); (10,75); (13,120); (50,0)];
  [(1,129); (5,229); (11,118); (51,0)]].

Definition h_base_9 : list (list (Z * Z)) := [
  [(0,174); (1,97); (2,166); (3,66); (6,71); (9,172); (10,0); (11,0)];
  [(0,27); (3,36); (4,48); (5,92); (6,31); (7,187); (8,185); (9,3); (11,0); (12,0)];
  [(0,25); (1,114); (3,117); (4,110); (8,114); (10,1); (12,0); (13,0)];
  [(1,136); (2,175); (4,113); (5,72); (6,123); (7,118); (8,28); (9,186); (10,0); (13,0)];
  [(0,72); (1,74); (11,29); (14,0)];
  [(0,10); (1,44); (5,121); (7,80); (11,48); (15,0)];
  [(0,129); (5,92); (7,100); (9,49); (11,184); (16,0)];
  [(1,80); (5,186); (7,16); (11,102); (13,143); (17,0)];
  [(0,118); (1,70); (12,152); (18,0)];
  [(1,28); (8,132); (10,185); (11,178); (19,0)];
  [(0,59); (1,104); (6,22); (7,52); (20,0)];
  [(0,32); (7,92); (9,174); (13,154); (21,0)];
  [(1,39); (3,93); (11,11); (22,0)];
  [(0,49); (1,125); (8,35); (13,166); (23,0)];
  [(1,19); (6,118); (11,21); (13,163); (24,0)];
  [(0,68); (10,63); (11,81); (25,0)];
  [(1,87); (9,177); (11,135); (12,64); (26,0)];
  [(1,158); (5,23); (11,9); (12,6); (27,0)];
  [(0,186); (6,6); (7,46); (28,0)];
  [(0,58); (1,42); (10,156); (29,0)];
  [(1,76); (4,61); (11,153); (30,0)];
  [(0,157); (8,175); (13,67); (31,0)];
  [(1,20); (2,52); (32,0)];
  [(0,106); (3,86); (5,95); (33,0)];
  [(1,182); (2,153); (9,64); (34,0)];
  [(0,45); (5,21); (35,0)];
  [(2,67); (7,137); (12,55); (13,85); (36,0)];
  [(0,103); (6,50); (37,0)];
  [(1,70); (2,111); (5,168); (38,0)];
  [(0,110); (4,17); (39,0)];
  [(2,120); (5,154); (7,52); (9,56); (40,0)];
  [(1,3); (13,170); (41,0)];
  [(0,84); (5,8); (12,17); (42,0)];
  [(2,165); (7,179); (10,124); (43,0)];
  [(0,173); (12,177); (13,12); (44,0)];
  [(1,77); (5,184); (11,18); (45,0)];
  [(0,25); (2,151); (7,170); (46,0)];
  [(10,37); (13,31); (47,0)];
  [(1,84); (5,151); (11,190); (48,0)];
  [(0,93); (7,132); (12,57); (49,0)];
  [(2,103); (10,107); (13,163); (50,0)];
  [(1,147); (5,7); (11,60); (51,0)]].

Definition h_base_10 : list (list (Z * Z)) := [
  [(0,0); (1,0); (2,0); (3,0); (6,0); (9,0); (10,0); (11,0)];
  [(0,137); (3,124); (4,0); (5,0); (6,88); (7,0); (8,0); (9,55); (11,0); (12,0)];
  [(0,20); (1,94); (3,99); (4,9); (8,108); (10,1); (12,0); (13,0)];
  [(1,38); (2,15); (4,102); (5,146); (6,12); (7,57); (8,53); (9,46); (10,0); (13,0)];
  [(0,0); (1,136); (11,157); (14,0)];
  [(0,0); (1,131); (5,142); (7,141); (11,64); (15,0)];
  [(0,0); (5,124); (7,99); (9,45); (11,148); (16,0)];
  [(1,0); (5,45); (7,148); (11,96); (13,78); (17,0)];
  [(0,0); (1,65); (12,87); (18,0)];
  [(1,0); (8,97); (10,51); (11,85); (19,0)];
  [(0,0); (1,17); (6,156); (7,20); (20,0)];
  [(0,0); (7,7); (9,4); (13,2); (21,0)];
  [(1,0); (3,113); (11,48); (22,0)];
  [(0,0); (1,112); (8,102); (13,26); (23,0)];
  [(1,0); (6,138); (11,57); (13,27); (24,0)];
  [(0,0); (10,73); (11,99); (25,0)];
  [(1,0); (9,79); (11,111); (12,143); (26,0)];
  [(1,0); (5,24); (11,109); (12,18); (27,0)];
  [(0,0); (6,18); (7,86); (28,0)];
  [(0,0); (1,158); (10,154); (29,0)];
  [(1,0); (4,148); (11,104); (30,0)];
  [(0,0); (8,17); (13,33); (31,0)];
  [(1,0); (2,4); (32,0)];
  [(0,0); (3,75); (5,158); (33,0)];
  [(1,0); (2,69); (9,87); (34,0)];
  [(0,0); (5,65); (35,0)];
  [(2,0); (7,100); (12,13); (13,7); (36,0)];
  [(0,0); (6,32); (37,0)];
  [(1,0); (2,126); (5,110); (38,0)];
  [(0,0); (4,154); (39,0)];
  [(2,0); (5,35); (7,51); (9,134); (40,0)];
  [(1,0); (13,20); (41,0)];
  [(0,0); (5,20); (12,122); (42,0)];
  [(2,0); (7,88); (10,13); (43,0)];
  [(0,0); (12,19); (13,78); (44,0)];
  [(1,0); (5,157); (11,6); (45,0)];
  [(0,0); (2,63); (7,82); (46,0)];
  [(10,0); (13,144); (47,0)];
  [(1,0); (5,93); (11,19); (48,0)];
  [(0,0); (7,24); (12,138); (49,0)];
  [(2,0); (10,36); (13,143); (50,0)];
  [(1,0); (5,2); (11,55); (51,0)]].

Definition h_base_11 : list (list (Z * Z)) := [
  [(0,72); (1,110); (2,23); (3,181); (6,95); (9,8); (10,1); (11,0)];
  [(0,53); (3,156); (4,115); (5,156); (6,115); (7,200); (8,29); (9,31); (11,0); (12,0)];
  [(0,152); (1,131); (3,46); (4,191); (8,91); (10,0); (12,0); (13,0)];
  [(1,185); (2,6); (4,36); (5,124); (6,124); (7,110); (8,156); (9,133); (10,1); (13,0)];
  [(0,200); (1,16); (11,101); (14,0)];
  [(0,185); (1,138); (5,170); (7,219); (11,193); (15,0)];
  [(0,123); (5,55); (7,31); (9,222); (11,209); (16,0)];
  [(1,103); (5,13); (7,105); (11,150); (13,181); (17,0)];
  [(0,147); (1,43); (12,152); (18,0)];
  [(1,2); (8,30); (10,184); (11,83); (19,0)];
  [(0,174); (1,150); (6,8); (7,56); (20,0)];
  [(0,99); (7,138); (9,110); (13,99); (21,0)];
  [(1,46); (3,217); (11,109); (22,0)];
  [(0,37); (1,113); (8,143); (13,140); (23,0)];
  [(1,36); (6,95); (11,40); (13,116); (24,0)];
  [(0,116); (10,200); (11,110); (25,0)];
  [(1,75); (9,158); (11,134); (12,97); (26,0)];
  [(1,48); (5,132); (11,206); (12,2); (27,0)];
  [(0,68); (6,16); (7,156); (28,0)];
  [(0,35); (1,138); (10,86); (29,0)];
  [(1,6); (4,20); (11,141); (30,0)];
  [(0,80); (8,43); (13,81); (31,0)];
  [(1,49); (2,1); (32,0)];
  [(0,156); (3,54); (5,134); (33,0)];
  [(1,153); (2,88); (9,63); (34,0)];
  [(0,211); (5,94); (35,0)];
  [(2,90); (7,6); (12,221); (13,6); (36,0)];
  [(0,27); (6,118); (37,0)];
  [(1,216); (2,212); (5,193); (38,0)];
  [(0,108); (4,61); (39,0)];
  [(2,106); (5,44); (7,185); (9,176); (40,0)];
  [(1,147); (13,182); (41,0)];
  [(0,108); (5,21); (12,110); (42,0)];
  [(2,71); (7,12); (10,109); (43,0)];
  [(0,29); (12,201); (13,69); (44,0)];
  [(1,91); (5,165); (11,55); (45,0)];
  [(0,1); (2,175); (7,83); (46,0)];
  [(10,40); (13,12); (47,0)];
  [(1,37); (5,97); (11,46); (48,0)];
  [(0,106); (7,181); (12,154); (49,0)];
  [(2,98); (10,35); (13,36); (50,0)];
  [(1,120); (5,101); (11,81); (51,0)]].

Definition h_base_12 : list (list (Z * Z)) := [
  [(0,3); (1,26); (2,53); (3,35); (6,115); (9,127); (10,0); (11,0)];
  [(0,19); (3,94); (4,104); (5,66); (6,84); (7,98); (8,69); (9,50); (11,0); (12,0)];
  [(0,95); (1,106); (3,92); (4,110); (8,111); (10,1); (12,0); (13,0)];
  [(1,120); (2,121); (4,22); (5,4); (6,73); (7,49); (8,128); (9,79); (10,0); (13,0)];
  [(0,42); (1,24); (11,51); (14,0)];
  [(0,40); (1,140); (5,84); (7,137); (11,71); (15,0)];
  [(0,109); (5,87); (7,107); (9,133); (11,139); (16,0)];
  [(1,97); (5,135); (7,35); (11,108); (13,65); (17,0)];
  [(0,70); (1,69); (12,88); (18,0)];
  [(1,97); (8,40); (10,24); (11,49); (19,0)];
  [(0,46); (1,41); (6,101); (7,96); (20,0)];
  [(0,28); (7,30); (9,116); (13,64); (21,0)];
  [(1,33); (3,122); (11,131); (22,0)];
  [(0,76); (1,37); (8,62); (13,47); (23,0)];
  [(1,143); (6,51); (11,130); (13,97); (24,0)];
  [(0,139); (10,96); (11,128); (25,0)];
  [(1,48); (9,9); (11,28); (12,8); (26,0)];
  [(1,120); (5,43); (11,65); (12,42); (27,0)];
  [(0,17); (6,106); (7,142); (28,0)];
  [(0,79); (1,28); (10,41); (29,0)];
  [(1,2); (4,103); (11,78); (30,0)];
  [(0,91); (8,75); (13,81); (31,0)];
  [(1,54); (2,132); (32,0)];
  [(0,68); (3,115); (5,56); (33,0)];
  [(1,30); (2,42); (9,101); (34,0)];
  [(0,128); (5,63); (35,0)];
  [(2,142); (7,28); (12,100); (13,133); (36,0)];
  [(0,13); (6,10); (37,0)];
  [(1,106); (2,77); (5,43); (38,0)];
  [(0,133); (4,25); (39,0)];
  [(2,87); (5,56); (7,104); (9,70); (40,0)];
  [(1,80); (13,139); (41,0)];
  [(0,32); (5,89); (12,71); (42,0)];
  [(2,135); (7,6); (10,2); (43,0)];
  [(0,37); (12,25); (13,114); (44,0)];
  [(1,60); (5,137); (11,93); (45,0)];
  [(0,121); (2,129); (7,26); (46,0)];
  [(10,97); (13,56); (47,0)];
  [(1,1); (5,70); (11,1); (48,0)];
  [(0,119); (7,32); (12,142); (49,0)];
  [(2,6); (10,73); (13,102); (50,0)];
  [(1,48); (5,47); (11,19); (51,0)]].

Definition h_base_13 : list (list (Z * Z)) := [
  [(0,156); (1,143); (2,14); (3,3); (6,40); (9,123); (10,0); (11,0)];
  [(0,17); (3,65); (4,63); (5,1); (6,55); (7,37); (8,171); (9,133); (11,0); (12,0)];
  [(0,98); (1,168); (3,107); (4,82); (8,142); (10,1); (12,0); (13,0)];
  [(1,53); (2,174); (4,174); (5,127); (6,17); (7,89); (8,17); (9,105); (10,0); (13,0)];
  [(0,86); (1,67); (11,83); (14,0)];
  [(0,79); (1,84); (5,35); (7,103); (11,60); (15,0)];
  [(0,47); (5,154); (7,10); (9,155); (11,29); (16,0)];
  [(1,48); (5,125); (7,24); (11,47); (13,55); (17,0)];
  [(0,53); (1,31); (12,161); (18,0)];
  [(1,104); (8,142); (10,99); (11,64); (19,0)];
  [(0,111); (1,25); (6,174); (7,23); (20,0)];
  [(0,91); (7,175); (9,24); (13,141); (21,0)];
  [(1,122); (3,11); (11,4); (22,0)];
  [(0,29); (1,91); (8,27); (13,127); (23,0)];
  [(1,11); (6,145); (11,8); (13,166); (24,0)];
  [(0,137); (10,103); (11,40); (25,0)];
  [(1,78); (9,158); (11,17); (12,165); (26,0)];
  [(1,134); (5,23); (11,62); (12,163); (27,0)];
  [(0,173); (6,31); (7,22); (28,0)];
  [(0,13); (1,135); (10,145); (29,0)];
  [(1,128); (4,52); (11,173); (30,0)];
  [(0,156); (8,166); (13,40); (31,0)];
  [(1,18); (2,163); (32,0)];
  [(0,110); (3,132); (5,150); (33,0)];
  [(1,113); (2,108); (9,61); (34,0)];
  [(0,72); (5,136); (35,0)];
  [(2,36); (7,38); (12,53); (13,145); (36,0)];
  [(0,42); (6,104); (37,0)];
  [(1,64); (2,24); (5,149); (38,0)];
  [(0,139); (4,161); (39,0)];
  [(2,84); (5,173); (7,93); (9,29); (40,0)];
  [(1,117); (13,148); (41,0)];
  [(0,116); (5,73); (12,142); (42,0)];
  [(2,105); (7,137); (10,29); (43,0)];
  [(0,11); (12,41); (13,162); (44,0)];
  [(1,126); (5,152); (11,172); (45,0)];
  [(0,73); (2,154); (7,129); (46,0)];
  [(10,167); (13,38); (47,0)];
  [(1,112); (5,7); (11,19); (48,0)];
  [(0,109); (7,6); (12,105); (49,0)];
  [(2,160); (10,156); (13,82); (50,0)];
  [(1,132); (5,6); (11,8); (51,0)]].

Definition h_base_14 : list (list (Z * Z)) := [
  [(0,143); (1,19); (2,176); (3,165); (6,196); (9,13); (10,0); (11,0)];
  [(0,18); (3,27); (4,3); (5,102); (6,185); (7,17); (8,14); (9,180); (11,0); (12,0)];
  [(0,126); (1,163); (3,47); (4,183); (8,132); (10,1); (12,0); (13,0)];
  [(1,36); (2,48); (4,18); (5,111); (6,203); (7,3); (8,191); (9,160); (10,0); (13,0)];
  [(0,43); (1,27); (11,117); (14,0)];
  [(0,136); (1,49); (5,36); (7,132); (11,62); (15,0)];
  [(0,7); (5,34); (7,198); (9,168); (11,12); (16,0)];
  [(1,163); (5,78); (7,143); (11,107); (13,58); (17,0)];
  [(0,101); (1,177); (12,22); (18,0)];
  [(1,186); (8,27); (10,205); (11,81); (19,0)];
  [(0,125); (1,60); (6,177); (7,51); (20,0)];
  [(0,39); (7,29); (9,35); (13,8); (21,0)];
  [(1,18); (3,155); (11,49); (22,0)];
  [(0,32); (1,53); (8,95); (13,186); (23,0)];
  [(1,91); (6,20); (11,52); (13,109); (24,0)];
  [(0,174); (10,108); (11,102); (25,0)];
  [(1,125); (9,31); (11,54); (12,176); (26,0)];
  [(1,57); (5,201); (11,142); (12,35); (27,0)];
  [(0,129); (6,203); (7,140); (28,0)];
  [(0,110); (1,124); (10,52); (29,0)];
  [(1,196); (4,35); (11,114); (30,0)];
  [(0,10); (8,122); (13,23); (31,0)];
  [(1,202); (2,126); (32,0)];
  [(0,52); (3,170); (5,13); (33,0)];
  [(1,113); (2,161); (9,88); (34,0)];
  [(0,197); (5,194); (35,0)];
  [(2,164); (7,172); (12,49); (13,161); (36,0)];
  [(0,168); (6,193); (37,0)];
  [(1,14); (2,186); (5,46); (38,0)];
  [(0,50); (4,27); (39,0)];
  [(2,70); (5,17); (7,50); (9,6); (40,0)];
  [(1,115); (13,189); (41,0)];
  [(0,110); (5,0); (12,163); (42,0)];
  [(2,163); (7,173); (10,179); (43,0)];
  [(0,197); (12,191); (13,193); (44,0)];
  [(1,157); (5,167); (11,181); (45,0)];
  [(0,197); (2,167); (7,179); (46,0)];
  [(10,181); (13,193); (47,0)];
  [(1,157); (5,173); (11,191); (48,0)];
  [(0,181); (7,157); (12,173); (49,0)];
  [(2,193); (10,163); (13,179); (50,0)];
  [(1,191); (5,197); (11,167); (51,0)]].

Definition h_base_15 : list (list (Z * Z)) := [
  [(0,145); (1,131); (2,71); (3,21); (6,23); (9,112); (10,1); (11,0)];
  [(0,142); (3,174); (4,183); (5,27); (6,96); (7,23); (8,9); (9,167); (11,0); (12,0)];
  [(0,74); (1,31); (3,3); (4,53); (8,155); (10,0); (12,0); (13,0)];
  [(1,239); (2,171); (4,95); (5,110); (6,159); (7,199); (8,43); (9,75); (10,1); (13,0)];
  [(0,29); (1,140); (11,180); (14,0)];
  [(0,121); (1,41); (5,169); (7,88); (11,207); (15,0)];
  [(0,137); (5,72); (7,172); (9,124); (11,56); (16,0)];
  [(1,86); (5,186); (7,87); (11,172); (13,154); (17,0)];
  [(0,176); (1,169); (12,225); (18,0)];
  [(1,167); (8,238); (10,48); (11,68); (19,0)];
  [(0,38); (1,217); (6,208); (7,232); (20,0)];
  [(0,178); (7,214); (9,168); (13,51); (21,0)];
  [(1,124); (3,122); (11,72); (22,0)];
  [(0,48); (1,57); (8,167); (13,219); (23,0)];
  [(1,82); (6,232); (11,204); (13,162); (24,0)];
  [(0,38); (10,217); (11,157); (25,0)];
  [(1,170); (9,23); (11,175); (12,202); (26,0)];
  [(1,196); (5,173); (11,195); (12,218); (27,0)];
  [(0,128); (6,211); (7,210); (28,0)];
  [(0,39); (1,84); (10,88); (29,0)];
  [(1,117); (4,227); (11,6); (30,0)];
  [(0,238); (8,13); (13,11); (31,0)];
  [(1,195); (2,44); (32,0)];
  [(0,5); (3,94); (5,111); (33,0)];
  [(1,81); (2,19); (9,130); (34,0)];
  [(0,66); (5,95); (35,0)];
  [(2,146); (7,66); (12,190); (13,86); (36,0)];
  [(0,64); (6,181); (37,0)];
  [(1,7); (2,144); (5,16); (38,0)];
  [(0,25); (4,57); (39,0)];
  [(2,37); (5,139); (7,221); (9,17); (40,0)];
  [(1,201); (13,46); (41,0)];
  [(0,179); (5,14); (12,116); (42,0)];
  [(2,46); (7,2); (10,106); (43,0)];
  [(0,184); (12,135); (13,141); (44,0)];
  [(1,85); (5,225); (11,175); (45,0)];
  [(0,178); (2,112); (7,106); (46,0)];
  [(10,154); (13,114); (47,0)];
  [(1,42); (5,41); (11,105); (48,0)];
  [(0,167); (7,45); (12,189); (49,0)];
  [(2,78); (10,67); (13,180); (50,0)];
  [(1,53); (5,215); (11,230); (51,0)]].

End LdpcTables.
