(* ===== verification/Ldpc.v ===== *)
(** * The LDPC encoder

    [src/openair1/PHY/CODING/nrLDPC_encoder/]: the parity computation that follows the generator matrix
    ([ldpc_generate_coefficient.c]), the vectorised one for large lifting sizes
    ([ldpc_encode_parity_check.c] with kernels printed by the generator in [ldpc_encoder.c]), and the
    encoder of up to eight segments at a time ([ldpc_encoder_optim8segmulti.c]), which
    keeps bit [j] of segment [j] in bit [j] of an octet. *)

From S2P Require Import Prelude LdpcTables.

Import LdpcTables.

Module Ldpc.

(** ** The matrices *)

(** The lifting sizes, by set. *)
Definition lift_set : list (list Z) :=
  [[2; 4; 8; 16; 32; 64; 128; 256]; [3; 6; 12; 24; 48; 96; 192; 384]; [5; 10; 20; 40; 80; 160; 320]; [7; 14; 28; 56; 112; 224];
   [9; 18; 36; 72; 144; 288]; [11; 22; 44; 88; 176; 352]; [13; 26; 52; 104; 208]; [15; 30; 60; 120; 240]].

Definition generators (BG : Z) : list (list Z) :=
  if BG =? 1 then
    [Gen_shift_values_BG1_Z_256; Gen_shift_values_BG1_Z_384; Gen_shift_values_BG1_Z_320; Gen_shift_values_BG1_Z_224;
     Gen_shift_values_BG1_Z_288; Gen_shift_values_BG1_Z_352; Gen_shift_values_BG1_Z_208; Gen_shift_values_BG1_Z_240]
  else if BG =? 2 then
    [Gen_shift_values_BG2_Z_256; Gen_shift_values_BG2_Z_384; Gen_shift_values_BG2_Z_320; Gen_shift_values_BG2_Z_224;
     Gen_shift_values_BG2_Z_288; Gen_shift_values_BG2_Z_352; Gen_shift_values_BG2_Z_208; Gen_shift_values_BG2_Z_240]
  else [].

(** The array of each size is that of the largest size of its set, reduced. *)
Definition choose_generator_matrix (BG Zc : Z) : option (list Z) :=
  match list_find (fun e => Zc ∈ e.1) (zip lift_set (generators BG)) with
  | Some (_, e) => Some ((fun s => s mod Zc) <$> e.2)
  | None => None
  end.

(** A base graph: parity rows, information columns, the inverse of the rate and the two arrays of the generator. *)
Record graph := mk_graph { nrows : Z; ncols : Z; rate : Z; no_shift_values : list Z; pointer_shift_values : list Z }.

Definition graph_of (BG : Z) : option graph :=
  if BG =? 1 then Some (mk_graph 46 22 3 no_shift_values_BG1 pointer_shift_values_BG1)
  else if BG =? 2 then Some (mk_graph 42 10 5 no_shift_values_BG2 pointer_shift_values_BG2) else None.

(** Division of [int]: towards 0. *)
Definition idiv (a b : Z) : res Z := if b =? 0 then Err Undef else mret (Z.quot a b).

Definition punctured (g : graph) (Zc block_length : Z) : res Z :=
  idiv ((nrows g - 2) * Zc + block_length - block_length * rate g) Zc.

(** ** The parity part, as the generator matrix says *)

(** One step of a cyclic shift of column [i5]. *)
Definition rotate (Zc i5 : Z) (c : bytes) : res bytes :=
  temp ← rd c (i5 * Zc);
  x ← slice c (i5 * Zc + 1) (Zc - 1);
  c ← blit c (i5 * Zc) x;
  wr c (i5 * Zc + Zc - 1) temp.

Definition rd_gen (gen : option (list Z)) (i : Z) : res Z := match gen with Some l => rd l i | None => Err Null end.

(** [channel_temp] of row [i1]. *)
Definition parity_row (g : graph) (gen : option (list Z)) (Zc Kb i1 : Z) (c : bytes) : res Z :=
  for_loop 0 Kb (fun i3 channel_temp =>
    let temp_prime := i1 * ncols g + i3 in
    n ← rd (no_shift_values g) temp_prime;
    for_loop 0 n (fun i4 channel_temp =>
      p ← rd (pointer_shift_values g) temp_prime;
      s ← rd_gen gen (p + i4);
      x ← rd c (i3 * Zc + s);
      mret (Z.lxor channel_temp x)) channel_temp) 0.

Definition encode_parity_check_part_orig (c d : bytes) (BG Zc Kb block_length : Z) : res (Z * bytes * bytes) :=
  let gen := choose_generator_matrix BG Zc in
  match graph_of BG with
  | None => mret (-1, c, d)
  | Some g =>
      np ← punctured g Zc block_length;
      '(c, d) ← for_loop 0 Zc (fun i2 '(c, d) =>
        c ← for_loop 0 Kb (rotate Zc) c;
        d ← for_loop 0 (nrows g - np) (fun i1 d => x ← parity_row g gen Zc Kb i1 c; wr d (i2 + i1 * Zc) x) d;
        mret (c, d)) (c, d);
      mret (0, c, d)
  end.

(** ** The parity part with vectors *)

(** A printed kernel: octets of a vector, number of vectors in a column, and for each parity row the
    assignment [d2[dst] = xor(c2[i], xor(c2[j], ...))] *)
Record simd_code := mk_simd_code { lane : Z; loops : Z; stmts : list (Z * list Z) }.

(** [shift] for [gen_code] 1 (AVX2) and 2 *)
Definition simd_shift (gen_code Zc : Z) : Z :=
  if (gen_code =? 1) && (Z.land Zc 31 =? 0) then 5
  else if Z.land Zc 15 =? 0 then 4
  else if Z.land Zc 7 =? 0 then 3 else 0.

(** [indlist] of a shift [s] of column [i3] *)
Definition simd_index (Zc ncols shift i3 s : Z) : Z :=
  let mask := Z.ones shift in
  let index := (i3 * Zc + (s + 1) mod Zc) / Zc * 2 * Zc + (i3 * Zc + (s + 1) mod Zc) mod Zc in
  Z.land index mask * Z.shiftr (2 * Zc * ncols) shift + Z.shiftr index shift.

(** The shifts of row [i1] in column [i3] *)
Definition shifts_of (g : graph) (gen : list Z) (i1 i3 : Z) : list Z :=
  let t := Z.to_nat (i1 * ncols g + i3) in
  take (Z.to_nat (default 0 (no_shift_values g !! t))) (drop (Z.to_nat (default 0 (pointer_shift_values g !! t))) gen).

(** What [LDPCencoder] of [ldpc_encoder.c] prints for [gen_code] 1 or 2: the kernels in the repository are its output. *)
Definition kernel (gen_code BG Zc : Z) : option simd_code :=
  match graph_of BG, choose_generator_matrix BG Zc with
  | Some g, Some gen =>
      let shift := simd_shift gen_code Zc in
      if shift =? 0 then None
      else Some (mk_simd_code (2 ^ shift) (Z.shiftr Zc shift)
        ((fun i1 => (Z.shiftr (Zc * i1) shift,
           concat ((fun i3 => simd_index Zc (ncols g) shift i3 <$> shifts_of g gen i1 i3) <$> seqZ 0 (ncols g)))) <$> seqZ 0 (nrows g)))
  | _, _ => None
  end.

Definition xor_vec (a b : bytes) : bytes := zip_with Z.lxor a b.

(** Vector [i] of an array. *)
Definition vec (k : simd_code) (c : bytes) (i : Z) : res bytes := slice c (i * lane k) (lane k).

Fixpoint xor_list (k : simd_code) (c : bytes) (i2 : Z) (l : list Z) : res bytes :=
  match l with
  | [] => Err Undef
  | [i] => vec k c (i + i2)
  | i :: l => x ← vec k c (i + i2); y ← xor_list k c i2 l; mret (xor_vec x y)
  end.

Fixpoint run_stmts (k : simd_code) (c : bytes) (i2 : Z) (l : list (Z * list Z)) (d : bytes) : res bytes :=
  match l with
  | [] => mret d
  | (dst, l') :: l => x ← xor_list k c i2 l'; d ← blit d ((dst + i2) * lane k) x; run_stmts k c i2 l d
  end.

Definition run_kernel (k : simd_code) (c d : bytes) : res bytes := for_loop 0 (loops k) (fun i2 => run_stmts k c i2 (stmts k)) d.

(** The sizes for which there is a kernel. *)
Definition simd_sizes (BG : Z) : list Z :=
  if BG =? 1 then [176; 192; 208; 224; 240; 256; 288; 320; 352; 384]
  else if BG =? 2 then [72; 80; 88; 96; 104; 112; 120; 128; 144; 160; 176; 192; 208; 224; 240; 256; 288; 320; 352; 384] else [].

(** The extended matrix: every column twice, and then the whole [simd_size] times, each time one octet further; [c] is the
    local array before. *)
Definition extend (cc c : bytes) (Zc simd_size ncols : Z) : res bytes :=
  c ← for_loop 0 ncols (fun i1 c =>
    x ← slice cc (i1 * Zc) Zc;
    c ← blit c (2 * i1 * Zc) x;
    blit c ((2 * i1 + 1) * Zc) x) c;
  for_loop 1 simd_size (fun i1 c =>
    x ← slice c i1 (2 * ncols * Zc - i1);
    blit c (2 * ncols * Zc * i1) x) c.

Definition encode_parity_check_part_optim (gen_code : Z) (c cc d : bytes) (BG Zc simd_size ncols : Z) : res bytes :=
  c ← extend cc c Zc simd_size ncols;
  if bool_decide (Zc ∈ simd_sizes BG) then
    match kernel gen_code BG Zc with Some k => run_kernel k c d | None => Err Undef end
  else Err Exit.

(** ** Eight segments at a time *)

(** [encoder_implemparams_t], the fields that are read *)
Record impl_params := mk_impl_params { ip_Zc : Z; ip_Kb : Z; ip_K : Z; ip_BG : Z; macro_num : Z; n_segments : Z }.

(** 32 bits of a segment, an octet each: [and(cmpeq(andnot(shuffle(word), andmask), 0), masks[j])] for the four
    octets of the word *)
Definition andmask : list Z := [0x80; 0x40; 0x20; 0x10; 0x08; 0x04; 0x02; 0x01].

Definition unpack_vec (word : bytes) (mask : Z) : bytes :=
  concat ((fun x => (fun m => Z.land (if Z.land (Z.lnot x) m =? 0 then 0xff else 0) mask) <$> andmask) <$> word).

Definition or_vec (a b : bytes) : bytes := zip_with Z.lor a b.

Definition unpack_block (input : list bytes) (macro_segment macro_segment_end i : Z) : res bytes :=
  seg ← rd input macro_segment;
  w ← slice seg (4 * i) 4;
  for_loop (macro_segment + 1) macro_segment_end (fun j c256 =>
    seg ← rd input j;
    w ← slice seg (4 * i) 4;
    mret (or_vec (unpack_vec w (Z.shiftl 1 (j - macro_segment))) c256)) (unpack_vec w 1).

(** The remaining bits, one by one. *)
Definition unpack_bit (input : list bytes) (macro_segment i j : Z) (cc : bytes) : res bytes :=
  seg ← rd input j;
  x ← rd seg (i / 8);
  let temp := Z.shiftr (Z.land x (Z.shiftr 128 (Z.land i 7))) (7 - Z.land i 7) in
  y ← rd cc i;
  wr cc i (u8 (Z.lor y (Z.shiftl temp (j - macro_segment)))).

Definition unpack (input : list bytes) (macro_segment macro_segment_end block_length : Z) (cc : bytes) : res bytes :=
  let n := Z.shiftr block_length 5 in
  cc ← for_loop 0 n (fun i cc => x ← unpack_block input macro_segment macro_segment_end i; blit cc (32 * i) x) cc;
  for_loop (Z.shiftl n 5) block_length (fun i cc =>
    for_loop macro_segment macro_segment_end (fun j cc => unpack_bit input macro_segment i j cc) cc) cc.

(** [and(srai_epi16(v, n), masks[0])]: pairs of octets are signed 16-bit numbers. *)
Fixpoint pick_vec (v : bytes) (n : Z) : bytes :=
  match v with
  | lo :: hi :: v =>
      let x := Z.shiftr (s16 (lo + 256 * hi)) n in
      Z.land x 1 :: Z.land (Z.shiftr x 8) 1 :: pick_vec v n
  | _ => []
  end.

(** The vectors [from .. from + 32*n) of [src] go to every segment of the job, behind the first [at] vectors. *)
Definition put_vectors (src : bytes) (from n at_ macro_segment macro_segment_end : Z) (output : list bytes) : res (list bytes) :=
  for_loop 0 n (fun i output =>
    v ← slice src (from + 32 * i) 32;
    for_loop macro_segment macro_segment_end (fun j output =>
      o ← rd output j;
      o ← blit o (32 * (at_ + i)) (pick_vec v (j - macro_segment));
      wr output j o) output) output.

(** The same octet by octet. *)
Definition put_octets (src : bytes) (from n at_ macro_segment macro_segment_end : Z) (output : list bytes) : res (list bytes) :=
  for_loop 0 n (fun i output =>
    x ← rd src (from + i);
    for_loop macro_segment macro_segment_end (fun j output =>
      o ← rd output j;
      o ← wr o (at_ + i) (Z.land (Z.shiftr x (j - macro_segment)) 1);
      wr output j o) output) output.

Definition LDPCencoder (gen_code : Z) (stack : bytes) (input output : list bytes) (ip : impl_params) : res (Z * list bytes) :=
  let Zc := ip_Zc ip in
  let BG := ip_BG ip in
  let block_length := ip_K ip in
  let macro_segment := 8 * macro_num ip in
  let macro_segment_end := if n_segments ip >? 8 * (macro_num ip + 1) then 8 * (macro_num ip + 1) else n_segments ip in
  let g := default (mk_graph 0 0 3 [] []) (graph_of BG) in
  if negb (Zc >? 0) then Err Exit
  else
    let simd_size := if Z.land Zc 31 >? 0 then 16 else 32 in
    np ← punctured g Zc block_length;
    let removed_bit := (nrows g - np - 2) * Zc + block_length - block_length * rate g in
    cc ← unpack input macro_segment macro_segment_end block_length (replicate (Z.to_nat (ncols g * Zc)) 0);
    let dd := replicate (Z.to_nat (nrows g * Zc)) 0 in
    '(ret, cc, dd) ←
      (if ((BG =? 1) && (Zc >=? 176)) || ((BG =? 2) && (Zc >=? 72)) then
         dd ← encode_parity_check_part_optim gen_code stack cc dd BG Zc simd_size (ncols g); mret (0, cc, dd)
       else encode_parity_check_part_orig cc dd BG Zc (ip_Kb ip) block_length);
    if negb (ret =? 0) then mret (-1, output)
    else
      let n1 := block_length - 2 * Zc in
      let n2 := (nrows g - np) * Zc - removed_bit in
      output ←
        (if (Z.land (2 * Zc) 31 =? 0) && (Z.land n1 31 =? 0) then
           output ← put_vectors cc (2 * Zc) (Z.shiftr n1 5) 0 macro_segment macro_segment_end output;
           put_vectors dd 0 (Z.shiftr n2 5) (Z.shiftr n1 5) macro_segment macro_segment_end output
         else
           output ← put_octets cc (2 * Zc) n1 0 macro_segment macro_segment_end output;
           put_octets dd 0 n2 n1 macro_segment macro_segment_end output);
      mret (0, output).

End Ldpc.
