(* ===== verification/LdpcSpec.v ===== *)
(** * The LDPC code

    Code words of the generator matrices satisfy the parity checks of the base graphs: the matrices of
    the largest lifting size of each set are multiplied out, and a smaller size divides it. *)

From S2P Require Import Prelude LdpcTables Ldpc.

Import LdpcTables Ldpc.

(** ** Sums of octets *)

Definition xsum (l : list Z) : Z := foldr Z.lxor 0 l.

Lemma xsum_app l1 l2 : xsum (l1 ++ l2) = Z.lxor (xsum l1) (xsum l2).
Proof. induction l1 as [|x l1 IH]; cbn; [by rewrite Z.lxor_0_l|]. unfold xsum in IH. by rewrite IH, Z.lxor_assoc. Qed.

Lemma xsum_zeros {A} (f : A -> Z) l : (forall x, x ∈ l -> f x = 0) -> xsum (f <$> l) = 0.
Proof.
  induction l as [|x l IH]; intros Hf; [done|]. rewrite fmap_cons. cbn [xsum foldr]. rewrite Hf by apply list_elem_of_here.
  rewrite Z.lxor_0_l. apply IH. intros y Hy. apply Hf. by apply list_elem_of_further.
Qed.

(** Equal elements cancel. *)
Fixpoint remove_one (x : Z) (l : list Z) : option (list Z) :=
  match l with
  | [] => None
  | y :: l => if x =? y then Some l else match remove_one x l with Some l' => Some (y :: l') | None => None end
  end.

Fixpoint cancels (fuel : nat) (l : list Z) : bool :=
  match l, fuel with
  | [], _ => true
  | _, O => false
  | x :: l, S fuel => match remove_one x l with Some l' => cancels fuel l' | None => false end
  end.

Lemma remove_one_sum f x l l' : remove_one x l = Some l' -> xsum (f <$> l) = Z.lxor (f x) (xsum (f <$> l')).
Proof.
  revert l'. induction l as [|y l IH]; intros l' H; [done|]. cbn [remove_one] in H. destruct (Z.eqb_spec x y) as [->|_].
  - injection H as <-. done.
  - destruct (remove_one x l) as [l2|] eqn:E; [|done]. injection H as <-. rewrite !fmap_cons. cbn [xsum foldr]. fold (xsum (f <$> l)).
    rewrite (IH l2 eq_refl). fold (xsum (f <$> l2)). rewrite <- !Z.lxor_assoc. f_equal. apply Z.lxor_comm.
Qed.

Lemma cancels_sum f n : forall l, cancels n l = true -> xsum (f <$> l) = 0.
Proof.
  induction n as [|n IH]; intros [|x l] H; try done. cbn [cancels] in H. destruct (remove_one x l) as [l'|] eqn:E; [|done].
  rewrite fmap_cons. cbn [xsum foldr]. fold (xsum (f <$> l)). rewrite (remove_one_sum f x l l' E), (IH l' H), Z.lxor_0_r. apply Z.lxor_nilpotent.
Qed.

(** ** Code words *)

(** The octet at position [i]. *)
Definition oct (c : bytes) (i : Z) : Z := default 0 (c !! Z.to_nat i).

(** Octet [k] of parity row [i1], from the first [Kb] columns. *)
Definition parity (g : graph) (gen : list Z) (Zc Kb : Z) (c : bytes) (i1 k : Z) : Z :=
  xsum ((fun i3 => xsum ((fun s => oct c (i3 * Zc + (s + k + 1) mod Zc)) <$> shifts_of g gen i1 i3)) <$> seqZ 0 Kb).

Definition parity_part (g : graph) (gen : list Z) (Zc Kb : Z) (c : bytes) : bytes :=
  (fun q => parity g gen Zc Kb c (q / Zc) (q mod Zc)) <$> seqZ 0 (nrows g * Zc).

(** The base graph of a lifting size. *)
Definition base_graphs (BG : Z) : list (list (list (Z * Z))) :=
  if BG =? 1 then [h_base_0; h_base_1; h_base_2; h_base_3; h_base_4; h_base_5; h_base_6; h_base_7]
  else if BG =? 2 then [h_base_8; h_base_9; h_base_10; h_base_11; h_base_12; h_base_13; h_base_14; h_base_15] else [].

Definition h_base (BG Zc : Z) : list (list (Z * Z)) :=
  match list_find (fun e => Zc ∈ e.1) (zip lift_set (base_graphs BG)) with Some (_, e) => e.2 | None => [] end.

(** Check [z] of a block row: the octets at its columns, each at its shift, cancel. *)
Definition check_sum (Zc : Z) (row : list (Z * Z)) (w : bytes) (z : Z) : Z :=
  xsum ((fun e => oct w (e.1 * Zc + (z + e.2) mod Zc)) <$> row).

Definition parity_checks (BG Zc : Z) (w : bytes) : Prop :=
  Forall (fun row => forall z, 0 <= z < Zc -> check_sum Zc row w z = 0) (h_base BG Zc).

(** ** The arrays of the generator *)

Fixpoint split_shifts (ns gen : list Z) : list (list Z) :=
  match ns with [] => [] | n :: ns => take (Z.to_nat n) gen :: split_shifts ns (drop (Z.to_nat n) gen) end.

Fixpoint starts (p : Z) (ns : list Z) : list Z := match ns with [] => [] | n :: ns => p :: starts (p + n) ns end.

Lemma split_lookup ns gen : forall t p n s, Forall (fun n => 0 <= n) ns -> 0 <= p ->
  ns !! t = Some n -> starts p ns !! t = Some s ->
  forall gen0, drop (Z.to_nat p) gen0 = gen -> split_shifts ns gen !! t = Some (take (Z.to_nat n) (drop (Z.to_nat s) gen0)) /\ p <= s.
Proof.
  revert gen. induction ns as [|m ns IH]; intros gen t p n s Hns Hp Hn Hs gen0 Eg; [done|]. inversion Hns as [|? ? Hm Hns']; subst.
  destruct t as [|t]; cbn in Hn, Hs |- *.
  - injection Hn as <-. injection Hs as <-. split; [done|lia].
  - destruct (IH (drop (Z.to_nat m) (drop (Z.to_nat p) gen0)) t (p + m) n s Hns' ltac:(lia) Hn Hs gen0) as [E Hps].
    + rewrite drop_drop. f_equal. lia.
    + split; [exact E|lia].
Qed.

Record graph_ok (g : graph) : Prop := {
  go_dims : 0 < nrows g /\ 0 < ncols g;
  go_len : zlen (no_shift_values g) = nrows g * ncols g;
  go_nonneg : Forall (fun n => 0 <= n) (no_shift_values g);
  go_starts : pointer_shift_values g = starts 0 (no_shift_values g) }.

Lemma graphs_ok BG g : graph_of BG = Some g -> graph_ok g /\ (BG = 1 \/ BG = 2).
Proof.
  unfold graph_of. assert (Hb : forall l, forallb (fun n => 0 <=? n) l = true -> Forall (fun n => 0 <= n) l).
  { intros l Hl. apply Forall_forall. intros x Hx. rewrite forallb_forall in Hl. apply Z.leb_le, Hl. by apply list_elem_of_In. }
  destruct (Z.eqb_spec BG 1) as [->|_]; [|destruct (Z.eqb_spec BG 2) as [->|_]; [|done]]; injection 1 as <-.
  - split; [|by left]. constructor; cbn [nrows ncols no_shift_values pointer_shift_values]; [lia|vm_compute; reflexivity|apply Hb; vm_compute; reflexivity|vm_compute; reflexivity].
  - split; [|by right]. constructor; cbn [nrows ncols no_shift_values pointer_shift_values]; [lia|vm_compute; reflexivity|apply Hb; vm_compute; reflexivity|vm_compute; reflexivity].
Qed.

Lemma length_starts ns : forall p, length (starts p ns) = length ns.
Proof. induction ns as [|n ns IH]; intros p; cbn; [done|]. by rewrite IH. Qed.

(** The shifts of a cell, read off the split arrays. *)
Lemma shifts_of_split g gen i1 i3 : graph_ok g -> 0 <= i1 < nrows g -> 0 <= i3 < ncols g ->
  split_shifts (no_shift_values g) gen !! Z.to_nat (i1 * ncols g + i3) = Some (shifts_of g gen i1 i3).
Proof.
  intros [Hd Hl Hn Hs] H1 H3. unfold shifts_of. set (t := Z.to_nat (i1 * ncols g + i3)).
  assert (Ht : (t < length (no_shift_values g))%nat) by (unfold zlen in Hl; unfold t; nia).
  destruct (lookup_lt_is_Some_2 (no_shift_values g) t Ht) as [n En]. destruct (lookup_lt_is_Some_2 (starts 0 (no_shift_values g)) t) as [s Es]; [by rewrite length_starts|].
  rewrite Hs, En, Es. cbn [from_option id]. by apply (split_lookup _ gen t 0 n s Hn ltac:(lia) En Es gen).
Qed.

(** ** Multiplying out *)

(** The shifts at which the columns of the information part enter a block row through its entry [e]. *)
Definition contrib (g : graph) (Zm : Z) (cells : list (list Z)) (e : Z * Z) : list (list Z) :=
  if e.1 <? ncols g then (fun i3 => if i3 =? e.1 then [e.2 mod Zm] else []) <$> seqZ 0 (ncols g)
  else (fun l : list Z => (fun s => (s + e.2 + 1) mod Zm) <$> l) <$> take (Z.to_nat (ncols g)) (drop (Z.to_nat ((e.1 - ncols g) * ncols g)) cells).

Definition row_terms (g : graph) (Zm : Z) (cells : list (list Z)) (row : list (Z * Z)) : list (list Z) :=
  foldr (fun e acc => zip_with app (contrib g Zm cells e) acc) (replicate (Z.to_nat (ncols g)) []) row.

Definition row_ok (g : graph) (Zm : Z) (cells : list (list Z)) (row : list (Z * Z)) : bool :=
  forallb (fun e => (0 <=? e.1) && (e.1 <? ncols g + nrows g)) row &&
  forallb (fun l => cancels (length l) l) (row_terms g Zm cells row).

(** The largest size of a set; the others divide it. *)
Definition top_size (sizes : list Z) : Z := foldr Z.max 0 sizes.

Definition set_ok (g : graph) (e : list Z * list Z * list (list (Z * Z))) : bool :=
  let '(sizes, gen, rows) := e in
  let Zm := top_size sizes in
  let cells := split_shifts (no_shift_values g) gen in
  forallb (row_ok g Zm cells) rows && forallb (fun Zc => (0 <? Zc) && (Zm mod Zc =? 0)) sizes.

Lemma codes_ok : forallb (fun BG => match graph_of BG with
  | Some g => forallb (set_ok g) (zip (zip lift_set (generators BG)) (base_graphs BG)) | None => false end) [1; 2] = true.
Proof. vm_compute. reflexivity. Qed.

Section Row.

Context (g : graph) (Hg : graph_ok g) (gen : list Z) (Zm Zc : Z) (HZ : 0 < Zc) (Hdiv : Zm mod Zc = 0) (HZm : 0 < Zm).
#[local] Abbreviation cells := (split_shifts (no_shift_values g) gen).
#[local] Abbreviation genc := ((fun s => s mod Zc) <$> gen).
Context (c : bytes) (z : Z).

(** The information octet that shift [x] of column [i] meets. *)
Definition meets (i x : Z) : Z := oct c (i * Zc + (z + x) mod Zc).

Fixpoint total (i : Z) (vs : list (list Z)) : Z :=
  match vs with [] => 0 | v :: vs => Z.lxor (xsum (meets i <$> v)) (total (i + 1) vs) end.

Lemma total_zip a : forall b i, length a = length b -> total i (zip_with app a b) = Z.lxor (total i a) (total i b).
Proof.
  induction a as [|v a IH]; intros [|w b] i Hl; try done. cbn [zip_with total]. rewrite fmap_app, xsum_app, IH by (by injection Hl).
  rewrite !Z.lxor_assoc. f_equal. rewrite <- !Z.lxor_assoc. f_equal. apply Z.lxor_comm.
Qed.

Lemma total_cancel vs : forall i, forallb (fun l => cancels (length l) l) vs = true -> total i vs = 0.
Proof.
  induction vs as [|v vs IH]; intros i H; [done|]. cbn [forallb] in H. apply andb_true_iff in H as [H1 H2]. cbn [total].
  by rewrite (cancels_sum _ _ _ H1), IH.
Qed.

Lemma total_seq (f : Z -> list Z) n : forall i, 0 <= n -> total i (f <$> seqZ i n) = xsum ((fun k => xsum (meets k <$> f k)) <$> seqZ i n).
Proof.
  intros i Hn. remember (Z.to_nat n) as m eqn:Em. revert i n Hn Em. induction m as [|m IH]; intros i n Hn Em.
  - assert (n = 0) as -> by lia. done.
  - rewrite seqZ_cons by lia. rewrite !fmap_cons. cbn [total]. change (i + 1) with (Z.succ i). rewrite (IH (Z.succ i) (Z.pred n)) by lia. done.
Qed.

Lemma mod_Zm a : (z + a mod Zm) mod Zc = (z + a) mod Zc.
Proof.
  rewrite <- (Zplus_mod_idemp_r (a mod Zm)), <- (Zplus_mod_idemp_r a). do 2 f_equal.
  assert (Ek : Zm = Zm / Zc * Zc) by (pose proof (Z.div_mod Zm Zc ltac:(lia)); lia).
  rewrite (Z.div_mod a Zm) at 2 by lia. rewrite Ek at 2. replace (Zm / Zc * Zc * (a / Zm)) with (Zm / Zc * (a / Zm) * Zc) by ring.
  rewrite Z.add_comm, Z.mod_add by lia. done.
Qed.

(** The reduced array has the reduced shifts. *)
Lemma shifts_of_mod i1 i3 : shifts_of g genc i1 i3 = (fun s => s mod Zc) <$> shifts_of g gen i1 i3.
Proof. unfold shifts_of. by rewrite <- fmap_drop, <- fmap_take. Qed.

Lemma length_split ns : forall gen', length (split_shifts ns gen') = length ns.
Proof. induction ns as [|n ns IH]; intros gen'; cbn; [done|]. by rewrite IH. Qed.

(** The cells of parity row [i1]. *)
Lemma cells_row i1 : 0 <= i1 < nrows g ->
  take (Z.to_nat (ncols g)) (drop (Z.to_nat (i1 * ncols g)) cells) = shifts_of g gen i1 <$> seqZ 0 (ncols g).
Proof.
  intros Hi. pose proof (go_dims g Hg) as Hd. pose proof (go_len g Hg) as Hl. unfold zlen in Hl.
  apply list_eq_same_length with (n := Z.to_nat (ncols g)).
  - rewrite length_fmap, length_seqZ. done.
  - rewrite length_take, length_drop, length_split. nia.
  - intros k x y Hk Hx Hy. rewrite lookup_take_lt, lookup_drop in Hx by lia. rewrite list_lookup_fmap, lookup_seqZ_lt in Hy by lia.
    cbn [fmap option_fmap option_map] in Hy. injection Hy as <-. rewrite Z.add_0_l.
    pose proof (shifts_of_split g gen i1 (Z.of_nat k) Hg Hi ltac:(lia)) as Hs.
    replace (Z.to_nat (i1 * ncols g + Z.of_nat k)) with (Z.to_nat (i1 * ncols g) + k)%nat in Hs by nia. rewrite Hs in Hx. by injection Hx.
Qed.

Lemma contrib_length e : 0 <= e.1 < ncols g + nrows g -> length (contrib g Zm cells e) = Z.to_nat (ncols g).
Proof.
  intros He. unfold contrib. pose proof (go_dims g Hg). destruct (Z.ltb_spec e.1 (ncols g)).
  - by rewrite length_fmap, length_seqZ.
  - rewrite cells_row by lia. by rewrite !length_fmap, length_seqZ.
Qed.

(** An entry of the row is what its contributions meet. *)
Lemma contrib_total e : 0 <= e.1 < ncols g + nrows g ->
  total 0 (contrib g Zm cells e) =
    if e.1 <? ncols g then oct c (e.1 * Zc + (z + e.2) mod Zc) else parity g genc Zc (ncols g) c (e.1 - ncols g) ((z + e.2) mod Zc).
Proof.
  intros He. unfold contrib. pose proof (go_dims g Hg) as Hd. destruct (Z.ltb_spec e.1 (ncols g)) as [Hlt|Hge].
  - rewrite total_seq by lia.
    replace (ncols g) with (e.1 + (1 + (ncols g - e.1 - 1))) by lia. rewrite seqZ_app, Z.add_0_l by lia. rewrite (seqZ_app e.1 1) by lia.
    rewrite !fmap_app, !xsum_app. rewrite (xsum_zeros _ (seqZ 0 e.1)), (xsum_zeros _ (seqZ (e.1 + 1) _)).
    + rewrite Z.lxor_0_l, Z.lxor_0_r.
      rewrite (seqZ_cons e.1 1) by lia. change (seqZ (Z.succ e.1) (Z.pred 1)) with (@nil Z). rewrite fmap_cons, Z.eqb_refl. cbn [fmap list_fmap xsum foldr].
      rewrite !Z.lxor_0_r. unfold meets. by rewrite mod_Zm.
    + intros k Hk. apply elem_of_seqZ in Hk. rewrite (proj2 (Z.eqb_neq k e.1)) by lia. done.
    + intros k Hk. apply elem_of_seqZ in Hk. rewrite (proj2 (Z.eqb_neq k e.1)) by lia. done.
  - rewrite cells_row by lia. rewrite <- list_fmap_compose. rewrite total_seq by lia. unfold parity. f_equal. apply list_fmap_ext. intros _ i3 _. cbn [compose].
    rewrite shifts_of_mod, <- !list_fmap_compose. f_equal. apply list_fmap_ext. intros _ s _. cbn [compose]. unfold meets. rewrite mod_Zm. do 2 f_equal.
    replace (s mod Zc + (z + e.2) mod Zc + 1) with (s mod Zc + ((z + e.2) mod Zc + 1)) by ring. rewrite Zplus_mod_idemp_l.
    replace (s + ((z + e.2) mod Zc + 1)) with (s + 1 + (z + e.2) mod Zc) by ring. rewrite Zplus_mod_idemp_r. f_equal. ring.
Qed.

(** The word: information part and parity part. *)
Context (Hc : zlen c = ncols g * Zc).

Lemma word_octet e : 0 <= e.1 < ncols g + nrows g ->
  oct (c ++ parity_part g genc Zc (ncols g) c) (e.1 * Zc + (z + e.2) mod Zc) = total 0 (contrib g Zm cells e).
Proof.
  intros He. rewrite contrib_total by done. set (k := (z + e.2) mod Zc). assert (Hk : 0 <= k < Zc) by (apply Z.mod_pos_bound; lia). unfold oct.
  destruct (Z.ltb_spec e.1 (ncols g)) as [Hlt|Hge].
  - rewrite lookup_app_l by (unfold zlen in Hc; nia). done.
  - rewrite lookup_app_r by (unfold zlen in Hc; nia). unfold parity_part. rewrite list_lookup_fmap.
    assert (Eq : (Z.to_nat (e.1 * Zc + k) - length c)%nat = Z.to_nat ((e.1 - ncols g) * Zc + k)) by (unfold zlen in Hc; nia). rewrite Eq.
    rewrite lookup_seqZ_lt by nia. cbn [fmap option_fmap option_map from_option id]. rewrite Z.add_0_l, Z2Nat.id by nia.
    rewrite Z.div_add_l by lia. rewrite (Z.div_small k) by lia. rewrite Z.add_0_r. f_equal. rewrite Z.add_comm, Z.mod_add by lia. apply Z.mod_small. lia.
Qed.

Lemma row_zero row : row_ok g Zm cells row = true -> check_sum Zc row (c ++ parity_part g genc Zc (ncols g) c) z = 0.
Proof.
  unfold row_ok. intros H. apply andb_true_iff in H as [Hb Hc']. pose proof (go_dims g Hg).
  assert (Hrow : Forall (fun e => 0 <= e.1 < ncols g + nrows g) row).
  { apply Forall_forall. intros e He. rewrite forallb_forall in Hb. specialize (Hb e ltac:(by apply list_elem_of_In)). lia. }
  assert (Hsum : check_sum Zc row (c ++ parity_part g genc Zc (ncols g) c) z = total 0 (row_terms g Zm cells row) /\
    length (row_terms g Zm cells row) = Z.to_nat (ncols g)).
  { clear Hb Hc'. unfold check_sum. induction Hrow as [|e row He _ IH].
    - split; [|apply length_replicate]. cbn [row_terms foldr fmap list_fmap xsum]. symmetry. clear. generalize 0 at 1 as i. induction (Z.to_nat (ncols g)) as [|n IHn]; intros i; [done|]. exact (IHn (i + 1)).
    - destruct IH as [IH1 IH2]. cbn [row_terms foldr]. fold (row_terms g Zm cells row). rewrite fmap_cons. cbn [xsum foldr].
      fold (xsum ((fun e => oct (c ++ parity_part g genc Zc (ncols g) c) (e.1 * Zc + (z + e.2) mod Zc)) <$> row)). rewrite IH1.
      rewrite total_zip by (by rewrite contrib_length, IH2). rewrite <- word_octet by done. split; [done|]. rewrite length_zip_with, contrib_length, IH2 by done. lia. }
  destruct Hsum as [-> _]. by apply total_cancel.
Qed.

End Row.

(** ** All lifting sizes *)

Lemma find_zip {A B} (P : A -> Prop) `{forall x, Decision (P x)} (l : list A) : forall k : list B, length l = length k ->
  list_find (fun e => P e.1) (zip l k) = match list_find P l with Some (i, x) => (fun y => (i, (x, y))) <$> k !! i | None => None end.
Proof.
  induction l as [|x l IH]; intros [|y k] Hl; try done. cbn [zip_with list_find fst]. destruct (decide (P x)); [done|].
  rewrite IH by (by injection Hl). destruct (list_find P l) as [[i a]|]; [|done]. cbn. by destruct (k !! i).
Qed.

Lemma tables_length BG : BG = 1 \/ BG = 2 -> length lift_set = length (generators BG) /\ length lift_set = length (base_graphs BG).
Proof. by intros [-> | ->]. Qed.

(** The arrays of a lifting size come from one set. *)
Lemma set_of BG Zc gen : BG = 1 \/ BG = 2 -> choose_generator_matrix BG Zc = Some gen ->
  exists sizes gen0 rows, (sizes, gen0, rows) ∈ zip (zip lift_set (generators BG)) (base_graphs BG) /\
    Zc ∈ sizes /\ gen = ((fun s => s mod Zc) <$> gen0) /\ h_base BG Zc = rows.
Proof.
  intros HBG. destruct (tables_length BG HBG) as [L1 L2]. unfold choose_generator_matrix, h_base.
  rewrite !(find_zip (fun s => Zc ∈ s)) by done. destruct (list_find (fun s => Zc ∈ s) lift_set) as [[i sizes]|] eqn:Ef; [|done].
  apply list_find_Some in Ef as (Hi & HZ & _). apply lookup_lt_Some in Hi as Hlt.
  destruct (lookup_lt_is_Some_2 (generators BG) i) as [gen0 Eg]; [lia|]. destruct (lookup_lt_is_Some_2 (base_graphs BG) i) as [rows Er]; [lia|].
  rewrite Eg, Er. cbn [fmap option_fmap option_map snd]. injection 1 as <-. exists sizes, gen0, rows. split; [|done].
  apply list_elem_of_lookup. exists i. rewrite !lookup_zip_with, Hi, Eg, Er. done.
Qed.

(** Every code word of the generator matrix satisfies the parity checks. *)
Lemma generator_checks BG Zc g gen c : graph_of BG = Some g -> choose_generator_matrix BG Zc = Some gen -> zlen c = ncols g * Zc ->
  parity_checks BG Zc (c ++ parity_part g gen Zc (ncols g) c).
Proof.
  intros Eg Ec Hc. destruct (graphs_ok BG g Eg) as [Hg HBG]. destruct (set_of BG Zc gen HBG Ec) as (sizes & gen0 & rows & Hin & HZ & -> & Eh).
  assert (Hok : set_ok g (sizes, gen0, rows) = true).
  { pose proof codes_ok as Hall. rewrite forallb_forall in Hall. specialize (Hall BG ltac:(destruct HBG as [-> | ->]; cbn; auto)). rewrite Eg in Hall.
    rewrite forallb_forall in Hall. apply Hall. by apply list_elem_of_In. }
  unfold set_ok in Hok. apply andb_true_iff in Hok as [Hrows Hsizes]. rewrite forallb_forall in Hrows, Hsizes.
  specialize (Hsizes Zc ltac:(by apply list_elem_of_In)). apply andb_true_iff in Hsizes as [H0 Hm]. apply Z.ltb_lt in H0. apply Z.eqb_eq in Hm.
  assert (HZm : 0 < top_size sizes).
  { clear - HZ H0. unfold top_size. induction sizes as [|s l IH]; [by apply not_elem_of_nil in HZ|]. cbn [foldr]. apply elem_of_cons in HZ as [->|HZ]; [lia|specialize (IH HZ); lia]. }
  unfold parity_checks. rewrite Eh. apply Forall_forall. intros row Hrow z _. by apply (row_zero g Hg gen0 (top_size sizes) Zc H0 Hm HZm c z Hc), Hrows, list_elem_of_In.
Qed.
