(* ===== verification/LdpcEnc.v ===== *)
(** * The parity computations

    [encode_parity_check_part_orig], which turns the columns one step at a time, and
    [encode_parity_check_part_optim], which adds vectors of the extended matrix, both compute the parity part of
    the code word. *)

From S2P Require Import Prelude LdpcTables Ldpc LdpcSpec.

Import LdpcTables Ldpc.

(** ** Sums in loops *)

Lemma lxor_loop (f : Z -> Z) lo hi (body : Z -> Z -> res Z) a : lo <= hi ->
  (forall i x, lo <= i < hi -> body i x = Ok (Z.lxor x (f i))) -> for_loop lo hi body a = Ok (Z.lxor a (xsum (f <$> seqZ lo (hi - lo)))).
Proof.
  intros Hle Hb. destruct (for_loop_inv (fun i x => x = Z.lxor a (xsum (f <$> seqZ lo (i - lo)))) lo hi body a) as (x & -> & ->).
  - done.
  - by rewrite Z.sub_diag, Z.lxor_0_r.
  - intros i x Hi ->. rewrite Hb by done. eexists. split; [reflexivity|]. replace (i + 1 - lo) with (i - lo + 1) by lia. rewrite (seqZ_app lo (i - lo) 1) by lia.
    rewrite fmap_app, xsum_app, <- Z.lxor_assoc. f_equal. replace (lo + (i - lo)) with i by lia. rewrite seqZ_cons by lia. change (seqZ (Z.succ i) (Z.pred 1)) with (@nil Z).
    cbn [fmap list_fmap xsum foldr]. by rewrite Z.lxor_0_r.
  - done.
Qed.

Lemma oct_lookup c i : 0 <= i < zlen c -> c !! Z.to_nat i = Some (oct c i).
Proof. intros Hi. unfold oct. destruct (lookup_lt_is_Some_2 c (Z.to_nat i)) as [x ->]; [unfold zlen in Hi; lia|done]. Qed.

Lemma rd_oct c i : 0 <= i < zlen c -> rd c i = Ok (oct c i).
Proof. intros Hi. apply rd_Some; [lia|]. by apply oct_lookup. Qed.

Lemma oct_wr c i v k : 0 <= i < zlen c -> 0 <= k -> oct (<[Z.to_nat i := v]> c) k = if k =? i then v else oct c k.
Proof.
  intros Hi Hk. unfold oct. destruct (Z.eqb_spec k i) as [->|N].
  - rewrite list_lookup_insert_eq by (unfold zlen in Hi; lia). done.
  - by rewrite list_lookup_insert_ne by lia.
Qed.

Lemma zlen_insert {A} (l : list A) i x : zlen (<[i := x]> l) = zlen l.
Proof. unfold zlen. by rewrite length_insert. Qed.

(** Octets of a block copy. *)
Lemma blit_oct b off src : 0 <= off -> off + zlen src <= zlen b -> exists b', blit b off src = Ok b' /\ zlen b' = zlen b /\
  forall k, 0 <= k -> oct b' k = if (off <=? k) && (k <? off + zlen src) then oct src (k - off) else oct b k.
Proof.
  intros Ho Hl. rewrite blit_ok by done. eexists. split; [reflexivity|]. pose proof (zlen_nonneg src) as Hs.
  assert (Ht : length (take (Z.to_nat off) b) = Z.to_nat off) by (rewrite length_take; unfold zlen in *; lia). split.
  - unfold zlen in *. rewrite !length_app, Ht, length_drop. lia.
  - intros k Hk. unfold oct. destruct (Z.leb_spec off k) as [H1|H1]; cbn [andb].
    + rewrite lookup_app_r, Ht by lia. replace (Z.to_nat k - Z.to_nat off)%nat with (Z.to_nat (k - off)) by lia.
      destruct (Z.ltb_spec k (off + zlen src)) as [H2|H2].
      * by rewrite lookup_app_l by (unfold zlen in *; lia).
      * rewrite lookup_app_r, lookup_drop by (unfold zlen in *; lia). do 2 f_equal. unfold zlen in *. lia.
    + rewrite lookup_app_l by lia. by rewrite lookup_take_lt by lia.
Qed.

Lemma slice_oct b off len : 0 <= off -> 0 <= len -> off + len <= zlen b -> exists x, slice b off len = Ok x /\ zlen x = len /\
  forall k, 0 <= k < len -> oct x k = oct b (off + k).
Proof.
  intros Ho Hl Hb. rewrite slice_ok by done. eexists. split; [reflexivity|]. split.
  - unfold zlen in *. rewrite length_take, length_drop. lia.
  - intros k Hk. unfold oct. rewrite lookup_take_lt, lookup_drop by lia. do 2 f_equal. lia.
Qed.

Lemma oct_eq c c' : zlen c = zlen c' -> (forall i, 0 <= i < zlen c -> oct c i = oct c' i) -> c = c'.
Proof.
  intros Hl H. apply list_eq. intros i. destruct (decide (i < length c)%nat) as [Hi|Hi].
  - specialize (H (Z.of_nat i) ltac:(unfold zlen; lia)). pose proof (oct_lookup c (Z.of_nat i) ltac:(unfold zlen; lia)) as H1.
    pose proof (oct_lookup c' (Z.of_nat i) ltac:(rewrite <- Hl; unfold zlen; lia)) as H2. rewrite Nat2Z.id in H1, H2. congruence.
  - rewrite !lookup_ge_None_2; [done|unfold zlen in Hl; lia|lia].
Qed.

(** ** The arrays *)

Lemma starts_bound ns : forall p t n s, Forall (fun n => 0 <= n) ns -> ns !! t = Some n -> starts p ns !! t = Some s -> p <= s /\ s + n <= p + foldr Z.add 0 ns.
Proof.
  induction ns as [|m ns IH]; intros p t n s Hf Hn Hs; [done|]. inversion Hf as [|? ? Hm Hf']; subst. cbn [foldr].
  assert (Hsum : 0 <= foldr Z.add 0 ns) by (clear - Hf'; induction Hf'; cbn [foldr]; lia). destruct t as [|t]; cbn in Hn, Hs.
  - injection Hn as ->. injection Hs as ->. lia.
  - destruct (IH (p + m) t n s Hf' Hn Hs). lia.
Qed.

Lemma generators_length : forallb (fun BG => match graph_of BG with
  | Some g => forallb (fun gen => zlen gen =? foldr Z.add 0 (no_shift_values g)) (generators BG) | None => false end) [1; 2] = true.
Proof. vm_compute. reflexivity. Qed.

(** What is known of the generator of a lifting size. *)
Record gen_ok (g : graph) (gen : list Z) (Zc : Z) : Prop := {
  gk_graph : graph_ok g;
  gk_Z : 0 < Zc;
  gk_len : zlen gen = foldr Z.add 0 (no_shift_values g);
  gk_range : Forall (fun s => 0 <= s < Zc) gen }.

Lemma choose_ok BG Zc g gen : graph_of BG = Some g -> choose_generator_matrix BG Zc = Some gen -> gen_ok g gen Zc.
Proof.
  intros Eg Ec. destruct (graphs_ok BG g Eg) as [Hg HBG]. destruct (set_of BG Zc gen HBG Ec) as (sizes & gen0 & rows & Hin & HZ & -> & _).
  assert (HBGin : In BG [1; 2]) by (destruct HBG as [-> | ->]; cbn; auto).
  assert (Hz : 0 < Zc).
  { pose proof codes_ok as Hall. rewrite forallb_forall in Hall. specialize (Hall BG HBGin). rewrite Eg in Hall. rewrite forallb_forall in Hall.
    specialize (Hall _ ltac:(by apply list_elem_of_In)). unfold set_ok in Hall. apply andb_true_iff in Hall as [_ Hs]. rewrite forallb_forall in Hs.
    specialize (Hs Zc ltac:(by apply list_elem_of_In)). lia. }
  constructor; [done|done| |].
  - pose proof generators_length as Hall. rewrite forallb_forall in Hall. specialize (Hall BG HBGin). rewrite Eg in Hall. rewrite forallb_forall in Hall.
    unfold zlen. rewrite length_fmap. apply Z.eqb_eq. apply (Hall gen0). apply list_elem_of_In, list_elem_of_lookup in Hin || idtac.
    apply list_elem_of_lookup in Hin as [i Hi]. apply list_elem_of_In, list_elem_of_lookup. exists i. rewrite !lookup_zip_with in Hi.
    destruct (lift_set !! i); [|done]. destruct (generators BG !! i); [|done]. destruct (base_graphs BG !! i); [|done]. cbn in Hi. congruence.
  - apply Forall_fmap, Forall_forall. intros s _. cbn [compose]. by apply Z.mod_pos_bound.
Qed.

(** ** The generator matrix, step by step *)

Section Orig.

Context (g : graph) (gen : list Z) (Zc : Z) (G : gen_ok g gen Zc) (Kb : Z) (HKb : 0 <= Kb <= ncols g).

Lemma shifts_range i1 i3 : Forall (fun s => 0 <= s < Zc) (shifts_of g gen i1 i3).
Proof. apply Forall_take, Forall_drop, (gk_range _ _ _ G). Qed.

Lemma parity_row_spec i1 c : 0 <= i1 < nrows g -> zlen c = ncols g * Zc ->
  parity_row g (Some gen) Zc Kb i1 c = Ok (xsum ((fun i3 => xsum ((fun s => oct c (i3 * Zc + s)) <$> shifts_of g gen i1 i3)) <$> seqZ 0 Kb)).
Proof.
  intros Hi1 Hc. unfold parity_row. destruct G as [[Hd Hl Hn Hs] HZ Hgl Hgr].
  rewrite (lxor_loop (fun i3 => xsum ((fun s => oct c (i3 * Zc + s)) <$> shifts_of g gen i1 i3)) 0 Kb); [|lia|].
  { by rewrite Z.lxor_0_l, Z.sub_0_r. }
  intros i3 acc Hi3. cbv zeta. set (t := i1 * ncols g + i3). assert (Ht : 0 <= t < zlen (no_shift_values g)) by (rewrite Hl; unfold t; nia).
  destruct (rd_ok (no_shift_values g) t Ht) as (n & -> & En). rewrite bind_Ok.
  destruct (lookup_lt_is_Some_2 (starts 0 (no_shift_values g)) (Z.to_nat t)) as [p Ep]; [rewrite length_starts; unfold zlen in Ht; lia|].
  pose proof (starts_bound _ 0 _ _ _ Hn En Ep) as [Hp0 Hp]. assert (Hn0 : 0 <= n) by (by apply (Forall_lookup_1 _ _ _ _ Hn) in En).
  rewrite (lxor_loop (fun i4 => oct c (i3 * Zc + oct gen (p + i4))) 0 n); [|lia|].
  - do 3 f_equal. rewrite Z.sub_0_r. unfold shifts_of. fold t. rewrite Hs, En, Ep. cbn [from_option id]. apply list_eq_same_length with (n := Z.to_nat n).
    + rewrite length_fmap, length_take, length_drop. unfold zlen in *. lia.
    + rewrite length_fmap, length_seqZ. done.
    + intros k x y Hk Hx Hy. rewrite list_lookup_fmap, lookup_seqZ_lt in Hx by lia. rewrite list_lookup_fmap, lookup_take_lt, lookup_drop in Hy by lia.
      pose proof (oct_lookup gen (p + Z.of_nat k) ltac:(lia)) as Eg. replace (Z.to_nat (p + Z.of_nat k)) with (Z.to_nat p + k)%nat in Eg by lia.
      rewrite Eg in Hy. cbn [fmap option_fmap option_map] in Hx, Hy. injection Hx as <-. injection Hy as <-. done.
  - intros i4 x Hi4. rewrite Hs, (rd_Some _ t p), bind_Ok by (lia || exact Ep). cbn [rd_gen]. rewrite (rd_oct gen) by lia. rewrite bind_Ok.
    assert (Hr : 0 <= oct gen (p + i4) < Zc).
    { apply (Forall_lookup_1 _ gen (Z.to_nat (p + i4)) _ Hgr). apply oct_lookup. lia. }
    rewrite (rd_oct c), bind_Ok by nia. done.
Qed.

(** Columns turned [r] steps, up to column [m] one step more. *)
Definition turned (c : bytes) (r m : Z) (c' : bytes) : Prop := zlen c' = zlen c /\
  forall i k, 0 <= i < ncols g -> 0 <= k < Zc ->
    oct c' (i * Zc + k) = oct c (i * Zc + (if i <? m then (k + r + 1) mod Zc else if i <? Kb then (k + r) mod Zc else k)).

Lemma rotate_spec i c : 0 <= i < ncols g -> zlen c = ncols g * Zc -> exists c', rotate Zc i c = Ok c' /\ zlen c' = zlen c /\
  forall j k, 0 <= j < ncols g -> 0 <= k < Zc -> oct c' (j * Zc + k) = oct c (j * Zc + (if j =? i then (k + 1) mod Zc else k)).
Proof.
  intros Hi Hc. pose proof (gk_Z _ _ _ G) as HZ. unfold rotate. rewrite (rd_oct c), bind_Ok by nia.
  destruct (slice_oct c (i * Zc + 1) (Zc - 1)) as (x & -> & Hx & Hxo); [nia|lia|nia|]. rewrite bind_Ok.
  destruct (blit_oct c (i * Zc) x) as (c1 & -> & Hl1 & Ho1); [nia|nia|]. rewrite bind_Ok, wr_ok by nia.
  eexists. split; [reflexivity|]. split; [by rewrite zlen_insert|]. intros j k Hj Hk. rewrite oct_wr by nia.
  assert (Hcmp : forall u, j <> i -> 0 <= u < Zc -> ~ (i * Zc <= j * Zc + u < i * Zc + Zc)) by (intros; nia).
  destruct (Z.eqb_spec j i) as [->|Nj].
  - destruct (Z.eqb_spec (i * Zc + k) (i * Zc + Zc - 1)) as [E|E].
    + replace (k + 1) with Zc by lia. rewrite Z.mod_same by lia. f_equal. lia.
    + rewrite Ho1 by nia. rewrite (Z.mod_small (k + 1)) by lia. rewrite (proj2 (Z.leb_le (i * Zc) (i * Zc + k))), (proj2 (Z.ltb_lt (i * Zc + k) _)) by lia.
      cbn [andb]. rewrite Hxo by lia. f_equal. lia.
  - specialize (Hcmp k Nj Hk). rewrite (proj2 (Z.eqb_neq (j * Zc + k) (i * Zc + Zc - 1))) by lia. rewrite Ho1 by nia.
    destruct (Z.leb_spec (i * Zc) (j * Zc + k)); cbn [andb]; [|done]. rewrite (proj2 (Z.ltb_ge (j * Zc + k) _)) by lia. done.
Qed.

Lemma rotate_all c r c' : zlen c = ncols g * Zc -> turned c r 0 c' ->
  exists c2, for_loop 0 Kb (rotate Zc) c' = Ok c2 /\ turned c r Kb c2.
Proof.
  intros Hc Ht. pose proof (gk_Z _ _ _ G) as HZ. apply (for_loop_inv (turned c r)); [lia|done|]. intros i c1 Hi [Hl H1].
  destruct (rotate_spec i c1) as (c2 & -> & Hl2 & H2); [lia|lia|]. exists c2. split; [done|]. split; [lia|]. intros j k Hj Hk. rewrite H2 by done.
  destruct (Z.eqb_spec j i) as [->|Nj].
  - rewrite (H1 i ((k + 1) mod Zc)) by (done || (apply Z.mod_pos_bound; lia)). rewrite (proj2 (Z.ltb_ge i i)), (proj2 (Z.ltb_lt i Kb)), (proj2 (Z.ltb_lt i (i + 1))) by lia.
    rewrite Zplus_mod_idemp_l. do 3 f_equal. lia.
  - rewrite H1 by done. destruct (Z.ltb_spec j i), (Z.ltb_spec j (i + 1)); lia || done.
Qed.

Lemma turned_next c r c' : turned c r Kb c' -> turned c (r + 1) 0 c'.
Proof.
  intros [Hl H]. split; [done|]. intros i k Hi Hk. rewrite H by done. rewrite (proj2 (Z.ltb_ge i 0)) by lia. destruct (i <? Kb); [|done].
  by replace (k + (r + 1)) with (k + r + 1) by lia.
Qed.

(** The parity octets of the steps so far. *)
Definition rows_done (c : bytes) (i2 m : Z) (d : bytes) : Prop := zlen d = nrows g * Zc /\
  forall i1 t, 0 <= i1 < nrows g -> 0 <= t < (if i1 <? m then i2 + 1 else i2) -> oct d (i1 * Zc + t) = parity g gen Zc Kb c i1 t.

Lemma one_step c c' d i2 : zlen c = ncols g * Zc -> 0 <= i2 < Zc -> turned c i2 0 c' -> rows_done c i2 0 d ->
  exists c2 d2, (c ← for_loop 0 Kb (rotate Zc) c';
      d ← for_loop 0 (nrows g - 0) (fun i1 d => x ← parity_row g (Some gen) Zc Kb i1 c; wr d (i2 + i1 * Zc) x) d; mret (c, d)) = Ok (c2, d2) /\
    turned c (i2 + 1) 0 c2 /\ rows_done c (i2 + 1) 0 d2.
Proof.
  intros Hc Hi2 Ht Hd. pose proof (gk_Z _ _ _ G) as HZ. pose proof (go_dims _ (gk_graph _ _ _ G)) as Hdim. destruct (rotate_all c i2 c' Hc Ht) as (c2 & -> & Ht2). rewrite bind_Ok.
  match goal with |- context [for_loop 0 _ ?body d] => destruct (for_loop_inv (rows_done c i2) 0 (nrows g - 0) body d) as (d2 & -> & Hd2 & H2) end.
  - lia.
  - done.
  - intros i1 d1 Hi1 [Hl1 H1]. destruct Ht2 as [Hl2 Ho2]. rewrite parity_row_spec, bind_Ok by lia. rewrite wr_ok by nia. eexists. split; [reflexivity|].
    split; [by rewrite zlen_insert|]. intros i t Hi Htt. rewrite oct_wr by nia.
    assert (Ht0 : 0 <= t <= i2) by (destruct (i <? i1 + 1); lia). destruct (Z.eqb_spec (i * Zc + t) (i2 + i1 * Zc)) as [E|E].
    + assert (Ei : i = i1) by nia. assert (t = i2) as -> by nia. rewrite Ei. unfold parity. f_equal. apply list_fmap_ext. intros j i3 Hi3. apply lookup_seqZ in Hi3 as [-> Hi3]. f_equal.
      apply list_fmap_ext. intros q s Hs. apply (Forall_lookup_1 _ _ _ _ (shifts_range _ _)) in Hs.
      rewrite Ho2 by lia. rewrite (proj2 (Z.ltb_lt _ Kb)) by lia. done.
    + apply H1; [done|]. destruct (Z.ltb_spec i i1), (Z.ltb_spec i (i1 + 1)); try lia. assert (i = i1) by lia. subst i.
      destruct (Z.eq_dec t i2); [exfalso; apply E; subst t; lia|lia].
  - rewrite bind_Ok. exists c2, d2. split; [done|]. split; [by apply turned_next|]. split; [done|]. intros i1 t Hi1 Htt.
    rewrite (proj2 (Z.ltb_ge i1 0)) in Htt by lia. apply H2; [done|]. rewrite (proj2 (Z.ltb_lt i1 (nrows g - 0))) by lia. done.
Qed.

Lemma parity_part_octet c d : zlen d = nrows g * Zc -> (forall i1 t, 0 <= i1 < nrows g -> 0 <= t < Zc -> oct d (i1 * Zc + t) = parity g gen Zc Kb c i1 t) ->
  d = parity_part g gen Zc Kb c.
Proof.
  intros Hd H. pose proof (gk_Z _ _ _ G) as HZ. pose proof (go_dims _ (gk_graph _ _ _ G)) as Hdim.
  assert (Hp : zlen (parity_part g gen Zc Kb c) = nrows g * Zc) by (unfold parity_part, zlen; rewrite length_fmap, length_seqZ; nia).
  apply oct_eq; [lia|]. intros q Hq. pose proof (Z.div_mod q Zc ltac:(lia)) as Eq. pose proof (Z.mod_pos_bound q Zc HZ) as Hm.
  assert (Hdiv : 0 <= q / Zc < nrows g) by (split; [apply Z.div_pos; lia|apply Z.div_lt_upper_bound; nia]).
  rewrite Eq at 1. rewrite (Z.mul_comm Zc), H by done. unfold parity_part, oct. rewrite list_lookup_fmap, lookup_seqZ_lt by lia.
  cbn [fmap option_fmap option_map from_option id]. by rewrite Z2Nat.id, Z.add_0_l by lia.
Qed.

End Orig.

(** [encode_parity_check_part_orig] writes the parity part and leaves the columns as they were. *)
Lemma parity_orig_spec BG Zc g gen Kb c d : graph_of BG = Some g -> choose_generator_matrix BG Zc = Some gen -> 0 <= Kb <= ncols g ->
  zlen c = ncols g * Zc -> zlen d = nrows g * Zc ->
  encode_parity_check_part_orig c d BG Zc Kb (ncols g * Zc) = Ok (0, c, parity_part g gen Zc Kb c).
Proof.
  intros Eg Ec HKb Hc Hd. pose proof (choose_ok BG Zc g gen Eg Ec) as G. pose proof (gk_Z _ _ _ G) as HZ. unfold encode_parity_check_part_orig. rewrite Eg, Ec.
  assert (Enp : punctured g Zc (ncols g * Zc) = Ok 0).
  { unfold punctured, idiv. rewrite (proj2 (Z.eqb_neq Zc 0)) by lia. mon. unfold graph_of in Eg.
    destruct (BG =? 1); [|destruct (BG =? 2); [|done]]; injection Eg as <-; cbn [nrows ncols rate]; f_equal;
      [replace ((46 - 2) * Zc + 22 * Zc - 22 * Zc * 3) with 0 by lia|replace ((42 - 2) * Zc + 10 * Zc - 10 * Zc * 5) with 0 by lia]; apply Z.quot_0_l; lia. }
  rewrite Enp, bind_Ok.
  match goal with |- context [for_loop 0 Zc ?body (c, d)] =>
    destruct (for_loop_inv (fun i2 st => turned g Zc Kb c i2 0 st.1 /\ rows_done g gen Zc Kb c i2 0 st.2) 0 Zc body (c, d)) as ([c' d'] & -> & Ht & Hd') end.
  - lia.
  - split; [split; [done|]|split; [done|]].
    + intros i k Hi Hk. cbn [fst]. rewrite (proj2 (Z.ltb_ge i 0)) by lia. destruct (i <? Kb); [|done]. rewrite Z.add_0_r, Z.mod_small by lia. done.
    + intros i1 t Hi1 Hti. rewrite (proj2 (Z.ltb_ge i1 0)) in Hti by lia. lia.
  - intros i2 [c1 d1] Hi2 [H1 H2]. cbn [fst snd] in *. destruct (one_step g gen Zc G Kb HKb c c1 d1 i2 Hc Hi2 H1 H2) as (c2 & d2 & E2 & H3 & H4).
    exists (c2, d2). split; [exact E2|done].
  - cbn [fst snd] in *. rewrite bind_Ok. destruct Ht as [Hl Ho]. destruct Hd' as [Hdl Hdo]. pose proof (go_dims _ (gk_graph _ _ _ G)) as Hdim. do 2 f_equal; [f_equal|].
    + apply oct_eq; [done|]. intros q Hq. pose proof (Z.div_mod q Zc ltac:(lia)) as Eq. pose proof (Z.mod_pos_bound q Zc HZ) as Hm.
      assert (Hdiv : 0 <= q / Zc < ncols g) by (split; [apply Z.div_pos; lia|apply Z.div_lt_upper_bound; nia]).
      rewrite Eq at 1. rewrite (Z.mul_comm Zc), Ho by done. rewrite (proj2 (Z.ltb_ge (q / Zc) 0)) by lia. f_equal. destruct (q / Zc <? Kb); [|lia].
      replace (q mod Zc + Zc) with (q mod Zc + 1 * Zc) by lia. rewrite Z.mod_add, (Z.mod_small (q mod Zc)) by lia. lia.
    + apply (parity_part_octet g gen Zc G Kb); [done|]. intros i1 t Hi1 Hti. apply Hdo; [done|]. rewrite (proj2 (Z.ltb_ge i1 0)) by lia. done.
Qed.

(** Columns that are zero do not matter. *)
Lemma parity_zero_columns g gen Zc Kb c : 0 < Zc -> 0 <= Kb <= ncols g -> (forall q, Kb * Zc <= q < ncols g * Zc -> oct c q = 0) ->
  parity_part g gen Zc Kb c = parity_part g gen Zc (ncols g) c.
Proof.
  intros HZ HKb Hz. unfold parity_part. apply list_fmap_ext. intros _ q _. unfold parity. replace (ncols g) with (Kb + (ncols g - Kb)) by lia.
  rewrite seqZ_app, fmap_app, xsum_app by lia. rewrite (xsum_zeros _ (seqZ (0 + Kb) _)); [by rewrite Z.lxor_0_r|].
  intros i3 Hi3. apply elem_of_seqZ in Hi3. apply xsum_zeros. intros s _. apply Hz. pose proof (Z.mod_pos_bound (s + q mod Zc + 1) Zc HZ). nia.
Qed.

(** ** The extended matrix *)

Lemma xsum_concat ls : xsum (concat ls) = xsum (xsum <$> ls).
Proof. induction ls as [|l ls IH]; [done|]. cbn [concat]. rewrite xsum_app, IH. done. Qed.

Lemma fmap_concat {A B} (f : A -> B) (ls : list (list A)) : f <$> concat ls = concat ((fun l : list A => f <$> l) <$> ls).
Proof. apply concat_map. Qed.

Section Optim.

Context (g : graph) (gen : list Z) (Zc : Z) (G : gen_ok g gen Zc).

(** Octet [e] of the columns, each written twice. *)
Definition doubled (cc : bytes) (e : Z) : Z := oct cc (e / (2 * Zc) * Zc + e mod Zc).

(** Copy [r] of the doubled columns starts [r] octets further. *)
Definition extended (cc c : bytes) (n : Z) : Prop :=
  forall r k, 0 <= r < n -> 0 <= k -> k + r < 2 * ncols g * Zc -> oct c (2 * ncols g * Zc * r + k) = doubled cc (k + r).

Lemma doubled_at cc i h k : 0 <= i -> h = 0 \/ h = 1 -> 0 <= k < Zc -> doubled cc ((2 * i + h) * Zc + k) = oct cc (i * Zc + k).
Proof.
  intros Hi Hh Hk. unfold doubled. do 2 f_equal.
  - f_equal. symmetry. apply (Z.div_unique _ _ i (h * Zc + k)); [left; nia|nia].
  - rewrite Z.add_comm, Z.mod_add, Z.mod_small by lia. done.
Qed.

Lemma double_columns cc c : zlen cc = ncols g * Zc -> 2 * ncols g * Zc <= zlen c ->
  exists c', for_loop 0 (ncols g) (fun i1 c => x ← slice cc (i1 * Zc) Zc; c ← blit c (2 * i1 * Zc) x; blit c ((2 * i1 + 1) * Zc) x) c = Ok c' /\
    zlen c' = zlen c /\ forall e, 0 <= e < 2 * ncols g * Zc -> oct c' e = doubled cc e.
Proof.
  intros Hcc Hc. pose proof (gk_Z _ _ _ G) as HZ. pose proof (go_dims _ (gk_graph _ _ _ G)) as Hdim.
  apply (for_loop_inv (fun i c' => zlen c' = zlen c /\ forall e, 0 <= e < 2 * i * Zc -> oct c' e = doubled cc e)); [lia|split; [done|lia]|].
  intros i c1 Hi [Hl1 H1]. destruct (slice_oct cc (i * Zc) Zc) as (x & -> & Hx & Hxo); [nia|lia|nia|]. rewrite bind_Ok.
  destruct (blit_oct c1 (2 * i * Zc) x) as (c2 & -> & Hl2 & H2); [nia|nia|]. rewrite bind_Ok.
  destruct (blit_oct c2 ((2 * i + 1) * Zc) x) as (c3 & -> & Hl3 & H3); [nia|nia|]. exists c3. split; [done|]. split; [lia|].
  intros e He. rewrite H3, H2 by lia. rewrite Hx. destruct (Z.leb_spec ((2 * i + 1) * Zc) e); cbn [andb].
  - rewrite (proj2 (Z.ltb_lt e _)) by lia. rewrite Hxo by lia. rewrite <- (doubled_at cc i 1) by lia. f_equal. lia.
  - destruct (Z.leb_spec (2 * i * Zc) e); cbn [andb]; [|by apply H1; lia]. rewrite (proj2 (Z.ltb_lt e _)) by lia. rewrite Hxo by lia.
    rewrite <- (doubled_at cc i 0) by lia. f_equal. lia.
Qed.

Lemma extend_spec cc c n : 1 <= n -> n <= 2 * ncols g * Zc -> zlen cc = ncols g * Zc -> 2 * ncols g * Zc * n <= zlen c ->
  exists c', extend cc c Zc n (ncols g) = Ok c' /\ zlen c' = zlen c /\ extended cc c' n.
Proof.
  intros Hn HnR Hcc Hc. pose proof (gk_Z _ _ _ G) as HZ. pose proof (go_dims _ (gk_graph _ _ _ G)) as Hdim. unfold extend.
  destruct (double_columns cc c Hcc) as (c1 & -> & Hl1 & H1); [nia|]. rewrite bind_Ok. unfold extended. set (R := 2 * ncols g * Zc) in *. assert (HR : 0 < R) by (unfold R; nia).
  destruct (for_loop_inv (fun m c' => zlen c' = zlen c /\ forall r k, 0 <= r < m -> 0 <= k -> k + r < R -> oct c' (R * r + k) = doubled cc (k + r)) 1 n
    (fun i1 c => x ← slice c i1 (R - i1); blit c (R * i1) x) c1) as (c' & -> & H'); [lia| | |by exists c'].
  - split; [done|]. intros r k Hr Hk Hkr. assert (r = 0) as -> by lia. rewrite Z.mul_0_r, Z.add_0_l, H1 by lia. f_equal. lia.
  - intros i c2 Hi [Hl2 H2]. destruct (slice_oct c2 i (R - i)) as (x & -> & Hx & Hxo); [lia|lia|nia|]. rewrite bind_Ok.
    destruct (blit_oct c2 (R * i) x) as (c3 & -> & Hl3 & H3); [nia|nia|]. exists c3. split; [done|]. split; [lia|]. intros r k Hr Hk Hkr. rewrite H3, Hx by nia.
    destruct (Z.eq_dec r i) as [->|Nr].
    + rewrite (proj2 (Z.leb_le _ _)), (proj2 (Z.ltb_lt _ _)) by lia. cbn [andb]. replace (R * i + k - R * i) with k by lia. rewrite Hxo by lia.
      specialize (H2 0 (i + k) ltac:(lia) ltac:(lia) ltac:(lia)). rewrite Z.mul_0_r, Z.add_0_l, Z.add_0_r in H2. rewrite H2. f_equal. lia.
    + rewrite (proj2 (Z.leb_gt _ _)) by nia. cbn [andb]. apply H2; lia.
Qed.

End Optim.

(** ** The kernels *)

Lemma xor_list_spec k c i2 l : 0 <= lane k -> l <> [] -> Forall (fun i => 0 <= (i + i2) * lane k /\ (i + i2) * lane k + lane k <= zlen c) l ->
  exists x, xor_list k c i2 l = Ok x /\ zlen x = lane k /\ forall t, 0 <= t < lane k -> oct x t = xsum ((fun i => oct c ((i + i2) * lane k + t)) <$> l).
Proof.
  intros Hk Hne Hl. induction Hl as [|i l [Hi0 Hi1] Hl IH]; [done|]. destruct (slice_oct c ((i + i2) * lane k) (lane k) Hi0 Hk Hi1) as (x & Ex & Hx & Hxo).
  destruct l as [|j l].
  - exists x. split; [exact Ex|]. split; [done|]. intros t Ht. rewrite Hxo by done. cbn [fmap list_fmap xsum foldr]. by rewrite Z.lxor_0_r.
  - destruct IH as (y & Ey & Hy & Hyo); [done|]. change (xor_list k c i2 (i :: j :: l)) with (x ← vec k c (i + i2); y ← xor_list k c i2 (j :: l); mret (xor_vec x y)).
    unfold vec. rewrite Ex, bind_Ok, Ey, bind_Ok. exists (xor_vec x y). unfold xor_vec. split; [done|]. split; [unfold zlen in *; rewrite length_zip_with; lia|].
    intros t Ht. rewrite fmap_cons. change (xsum (?a :: ?b)) with (Z.lxor a (xsum b)). rewrite <- Hyo, <- Hxo by done.
    unfold oct at 1. rewrite lookup_zip_with, (oct_lookup x), (oct_lookup y) by lia. done.
Qed.

Lemma run_stmts_cons k c i2 e l d : run_stmts k c i2 (e :: l) d = (x ← xor_list k c i2 e.2; d ← blit d ((e.1 + i2) * lane k) x; run_stmts k c i2 l d).
Proof. by destruct e. Qed.

Section Kernel.

Context (g : graph) (gen : list Z) (Zc : Z) (G : gen_ok g gen Zc) (shift m : Z) (Hs : 0 <= shift) (Hm : Zc = m * 2 ^ shift).
#[local] Abbreviation L := (2 ^ shift).
Context (cc c : bytes) (n : Z) (HLn : L <= n) (Hc : 2 * ncols g * Zc * n <= zlen c) (Hext : extended g Zc cc c n).
#[local] Abbreviation R := (2 * ncols g * Zc).

(** Vector [simd_index] holds the column, turned by the shift. *)
Lemma simd_index_spec i3 s i2 t : 0 <= i3 < ncols g -> 0 <= i2 < m -> 0 <= t < L ->
  let i := simd_index Zc (ncols g) shift i3 s in
  (0 <= (i + i2) * L /\ (i + i2) * L + L <= zlen c) /\ oct c ((i + i2) * L + t) = oct cc (i3 * Zc + (s + (i2 * L + t) + 1) mod Zc).
Proof.
  intros Hi3 Hi2 Ht. cbv zeta. unfold simd_index. pose proof (gk_Z _ _ _ G) as HZ. pose proof (Z.mod_pos_bound (s + 1) Zc HZ) as Hu. set (u := (s + 1) mod Zc) in *.
  assert (HL : 0 < L) by (apply Z.pow_pos_nonneg; lia). assert (Hm0 : 0 < m) by nia.
  assert (E1 : (i3 * Zc + u) / Zc = i3) by (rewrite Z.div_add_l, Z.div_small by lia; lia).
  assert (E2 : (i3 * Zc + u) mod Zc = u) by (rewrite Z.add_comm, Z.mod_add, Z.mod_small by lia; lia). rewrite E1, E2.
  set (ix := i3 * 2 * Zc + u). rewrite Z.land_ones, !Z.shiftr_div_pow2 by done.
  assert (ER : 2 * Zc * ncols g / L = 2 * m * ncols g) by (rewrite Hm; replace (2 * (m * L) * ncols g) with (2 * m * ncols g * L) by lia; apply Z.div_mul; lia). rewrite ER.
  pose proof (Z.div_mod ix L ltac:(lia)) as Eix. pose proof (Z.mod_pos_bound ix L HL) as Hr. set (r := ix mod L) in *. set (q := ix / L) in *.
  assert (Hcell : r + (q * L + i2 * L + t) = (2 * i3) * Zc + (u + (i2 * L + t))) by (unfold ix in Eix; lia).
  assert (Hw : 0 <= i2 * L + t < Zc) by (rewrite Hm; nia). assert (Hq : 0 <= q) by (unfold q; apply Z.div_pos; [unfold ix; nia|lia]).
  assert (Eoff : (r * (2 * m * ncols g) + q + i2) * L = R * r + (q + i2) * L) by (rewrite Hm; ring).
  assert (Hend : (q + i2) * L + L <= R).
  { assert (q * L <= (2 * i3 + 1) * Zc) by nia. assert ((i2 + 1) * L <= Zc) by (rewrite Hm; nia). nia. }
  rewrite Eoff. split; [split; nia|]. replace (R * r + (q + i2) * L + t) with (R * r + (q * L + i2 * L + t)) by ring.
  rewrite Hext by nia. replace (q * L + i2 * L + t + r) with (2 * i3 * Zc + (u + (i2 * L + t))) by lia.
  assert (Emod : (s + (i2 * L + t) + 1) mod Zc = (u + (i2 * L + t)) mod Zc) by (unfold u; rewrite Zplus_mod_idemp_l; f_equal; lia). rewrite Emod.
  destruct (Z.lt_ge_cases (u + (i2 * L + t)) Zc).
  - rewrite Z.mod_small by lia. replace (2 * i3 * Zc) with ((2 * i3 + 0) * Zc) by lia. rewrite (doubled_at Zc) by lia. done.
  - assert (E : u + (i2 * L + t) = Zc + (u + (i2 * L + t) - Zc)) by lia. rewrite E at 1. rewrite Z.add_assoc. replace (2 * i3 * Zc + Zc) with ((2 * i3 + 1) * Zc) by lia.
    rewrite (doubled_at Zc) by lia. do 2 f_equal. apply (Z.mod_unique _ _ 1); [left; lia|lia].
Qed.

(** The assignment of a parity row. *)
Definition row_stmt (i1 : Z) : Z * list Z :=
  (Z.shiftr (Zc * i1) shift, concat ((fun i3 => simd_index Zc (ncols g) shift i3 <$> shifts_of g gen i1 i3) <$> seqZ 0 (ncols g))).

#[local] Abbreviation code := (mk_simd_code L (Z.shiftr Zc shift) (row_stmt <$> seqZ 0 (nrows g))).

Lemma row_stmt_spec i1 i2 : (row_stmt i1).2 <> [] -> 0 <= i2 < m ->
  exists x, xor_list code c i2 (row_stmt i1).2 = Ok x /\ zlen x = L /\ forall t, 0 <= t < L -> oct x t = parity g gen Zc (ncols g) cc i1 (i2 * L + t).
Proof.
  intros Hne Hi2. assert (HL : 0 < L) by (apply Z.pow_pos_nonneg; lia). destruct (xor_list_spec code c i2 (row_stmt i1).2) as (x & Ex & Hx & Hxo).
  - cbn [lane]. lia.
  - done.
  - apply Forall_forall. intros i Hi. cbn [lane row_stmt snd] in *. apply list_elem_of_In, in_concat in Hi as (l & Hl & Hi).
    apply list_elem_of_In, list_elem_of_fmap in Hl as (i3 & -> & Hi3). apply elem_of_seqZ in Hi3. apply list_elem_of_In, list_elem_of_fmap in Hi as (s & -> & _).
    apply (simd_index_spec i3 s i2 0); lia.
  - exists x. split; [done|]. split; [done|]. intros t Ht. cbn [lane] in Hxo. rewrite Hxo by done. cbn [row_stmt snd]. rewrite fmap_concat, xsum_concat. unfold parity. f_equal. rewrite <- !list_fmap_compose. apply list_fmap_ext. intros j i3 Hi3. apply lookup_seqZ in Hi3 as [-> Hi3]. cbn [compose].
    rewrite <- list_fmap_compose. f_equal. apply list_fmap_ext. intros _ s _. cbn [compose]. exact (proj2 (simd_index_spec (0 + Z.of_nat j) s i2 t ltac:(lia) Hi2 Ht)).
Qed.

(** The assignments of the rows [lo .. lo + k), for vector [i2] of every row. *)
Lemma run_stmts_spec i2 (Hne : forall i1, 0 <= i1 < nrows g -> (row_stmt i1).2 <> []) : 0 <= i2 < m -> forall k lo d, 0 <= lo -> lo + Z.of_nat k <= nrows g -> zlen d = nrows g * Zc ->
  exists d', run_stmts code c i2 (row_stmt <$> seqZ lo (Z.of_nat k)) d = Ok d' /\ zlen d' = zlen d /\
    forall i1 t, 0 <= i1 < nrows g -> 0 <= t < Zc -> oct d' (i1 * Zc + t) =
      if (lo <=? i1) && (i1 <? lo + Z.of_nat k) && (i2 * L <=? t) && (t <? (i2 + 1) * L) then parity g gen Zc (ncols g) cc i1 t else oct d (i1 * Zc + t).
Proof.
  intros Hi2. assert (HL : 0 < L) by (apply Z.pow_pos_nonneg; lia). pose proof (gk_Z _ _ _ G) as HZ. induction k as [|k IH]; intros lo d Hlo Hk Hd.
  - exists d. split; [done|]. split; [done|]. intros i1 t _ _. rewrite Z.add_0_r. destruct (Z.leb_spec lo i1), (Z.ltb_spec i1 lo); cbn [andb]; lia || done.
  - rewrite (seqZ_cons lo), fmap_cons by lia. destruct (row_stmt_spec lo i2) as (x & Ex & Hx & Hxo); [apply Hne; lia|done|].
    rewrite run_stmts_cons, Ex, bind_Ok. cbn [lane row_stmt fst].
    assert (Eo : (Z.shiftr (Zc * lo) shift + i2) * L = lo * Zc + i2 * L).
    { rewrite Z.shiftr_div_pow2 by done. rewrite Hm at 1. replace (m * L * lo) with (m * lo * L) by ring. rewrite Z.div_mul by lia. rewrite Hm. ring. }
    rewrite Eo. assert (Hend : (i2 + 1) * L <= Zc) by (rewrite Hm; nia). destruct (blit_oct d (lo * Zc + i2 * L) x) as (d1 & -> & Hl1 & H1); [nia|nia|]. rewrite bind_Ok.
    replace (Z.pred (Z.of_nat (S k))) with (Z.of_nat k) by lia. destruct (IH (Z.succ lo) d1) as (d2 & -> & Hl2 & H2); [lia|lia|lia|].
    exists d2. split; [done|]. split; [lia|]. intros i1 t Hi1 Ht. rewrite H2 by done. rewrite H1 by nia. rewrite Hx.
    destruct (Z.eq_dec i1 lo) as [->|Ni].
    + rewrite (proj2 (Z.leb_gt (Z.succ lo) lo)), (proj2 (Z.leb_le lo lo)), (proj2 (Z.ltb_lt lo (lo + Z.of_nat (S k)))) by lia. cbn [andb].
      destruct (Z.leb_spec (i2 * L) t), (Z.leb_spec (lo * Zc + i2 * L) (lo * Zc + t)); cbn [andb]; try lia; try done.
      destruct (Z.ltb_spec t ((i2 + 1) * L)), (Z.ltb_spec (lo * Zc + t) (lo * Zc + i2 * L + L)); try lia; try done.
      rewrite Hxo by lia. f_equal. lia.
    + assert (Hout : (lo * Zc + i2 * L <=? i1 * Zc + t) && (i1 * Zc + t <? lo * Zc + i2 * L + L) = false) by (apply andb_false_iff; rewrite Z.leb_gt, Z.ltb_ge; nia).
      rewrite Hout. destruct (Z.leb_spec (Z.succ lo) i1), (Z.leb_spec lo i1); cbn [andb]; try lia; try done.
      destruct (Z.ltb_spec i1 (Z.succ lo + Z.of_nat k)), (Z.ltb_spec i1 (lo + Z.of_nat (S k))); lia || done.
Qed.

(** The kernel writes the parity part. *)
Lemma run_kernel_spec d : (forall i1, 0 <= i1 < nrows g -> (row_stmt i1).2 <> []) -> zlen d = nrows g * Zc ->
  run_kernel code c d = Ok (parity_part g gen Zc (ncols g) cc).
Proof.
  intros Hne Hd. assert (HL : 0 < L) by (apply Z.pow_pos_nonneg; lia). pose proof (gk_Z _ _ _ G) as HZ. pose proof (go_dims _ (gk_graph _ _ _ G)) as Hdim.
  unfold run_kernel. cbn [loops stmts]. assert (El : Z.shiftr Zc shift = m) by (rewrite Z.shiftr_div_pow2 by done; rewrite Hm; apply Z.div_mul; lia). rewrite El.
  assert (Hm0 : 0 < m) by nia.
  match goal with |- for_loop 0 m ?body d = _ => destruct (for_loop_inv (fun i2 d' => zlen d' = nrows g * Zc /\
    forall i1 t, 0 <= i1 < nrows g -> 0 <= t < i2 * L -> oct d' (i1 * Zc + t) = parity g gen Zc (ncols g) cc i1 t) 0 m body d) as (d' & -> & Hl & H') end.
  - lia.
  - split; [done|lia].
  - intros i2 d1 Hi2 [Hl1 H1]. destruct (run_stmts_spec i2 Hne Hi2 (Z.to_nat (nrows g)) 0 d1) as (d2 & E2 & Hl2 & H2); [lia|lia|lia|].
    rewrite Z2Nat.id in E2, H2 by lia. rewrite El in E2. exists d2. split; [exact E2|]. split; [lia|]. intros i1 t Hi1 Ht.
    assert ((i2 + 1) * L <= Zc) by (rewrite Hm; nia). rewrite H2 by nia.
    rewrite (proj2 (Z.leb_le 0 i1)), (proj2 (Z.ltb_lt i1 (0 + nrows g))), (proj2 (Z.ltb_lt t _)) by lia. cbn [andb].
    destruct (Z.leb_spec (i2 * L) t); cbn [andb]; [done|]. apply H1; lia.
  - f_equal. apply (parity_part_octet g gen Zc G (ncols g)); [done|]. intros i1 t Hi1 Ht. apply H'; [done|]. rewrite <- Hm. done.
Qed.

End Kernel.

(** Every parity row has a shift. *)
Lemma rows_nonempty : forallb (fun BG => match graph_of BG with
  | Some g => forallb (fun i1 => existsb (fun i3 => 0 <? oct (no_shift_values g) (i1 * ncols g + i3)) (seqZ 0 (ncols g))) (seqZ 0 (nrows g)) | None => false end) [1; 2] = true.
Proof. vm_compute. reflexivity. Qed.

Lemma row_stmt_nonempty BG Zc g gen shift i1 : graph_of BG = Some g -> gen_ok g gen Zc -> 0 <= i1 < nrows g -> (row_stmt g gen Zc shift i1).2 <> [].
Proof.
  intros Eg G Hi1 Hnil. destruct (graphs_ok BG g Eg) as [_ HBG]. pose proof rows_nonempty as H. rewrite forallb_forall in H.
  specialize (H BG ltac:(destruct HBG as [-> | ->]; cbn; auto)). rewrite Eg in H. rewrite forallb_forall in H.
  specialize (H i1 ltac:(apply list_elem_of_In, elem_of_seqZ; lia)). apply existsb_exists in H as (i3 & Hi3 & Hn). apply list_elem_of_In, elem_of_seqZ in Hi3. apply Z.ltb_lt in Hn.
  assert (Hsh : shifts_of g gen i1 i3 = []).
  { cbn [row_stmt snd] in Hnil. destruct (shifts_of g gen i1 i3) as [|s l] eqn:Es; [done|]. exfalso. apply (not_elem_of_nil (simd_index Zc (ncols g) shift i3 s)). rewrite <- Hnil.
    apply list_elem_of_In, in_concat. eexists. split; [apply list_elem_of_In, list_elem_of_fmap; exists i3; split; [reflexivity|apply elem_of_seqZ; lia]|].
    rewrite Es. apply list_elem_of_In, list_elem_of_here. }
  destruct G as [[Hd Hl Hnn Hs] HZ Hgl _]. unfold shifts_of in Hsh. set (t := i1 * ncols g + i3) in *.
  assert (Ht : 0 <= t < zlen (no_shift_values g)) by (rewrite Hl; unfold t; nia).
  pose proof (oct_lookup _ t Ht) as En. destruct (lookup_lt_is_Some_2 (starts 0 (no_shift_values g)) (Z.to_nat t)) as [p Ep]; [rewrite length_starts; unfold zlen in Ht; lia|].
  rewrite Hs, En, Ep in Hsh. cbn [from_option id] in Hsh. pose proof (starts_bound _ 0 _ _ _ Hnn En Ep).
  apply (f_equal length) in Hsh. rewrite length_take, length_drop in Hsh. cbn [length] in Hsh. unfold zlen in Hgl. lia.
Qed.

(** Octets of a vector in [ldpc_encode_parity_check.c]. *)
Definition simd_size_of (Zc : Z) : Z := if Z.land Zc 31 >? 0 then 16 else 32.

Lemma simd_sizes_ok BG Zc gen_code : Zc ∈ simd_sizes BG -> let shift := simd_shift gen_code Zc in
  0 < shift /\ Zc = Zc / 2 ^ shift * 2 ^ shift /\ 2 ^ shift <= simd_size_of Zc /\ 1 <= simd_size_of Zc <= 32 /\ 72 <= Zc.
Proof.
  intros HZ. cbv zeta. assert (Hin : Zc ∈ simd_sizes 2).
  { unfold simd_sizes in *. destruct (BG =? 1); [|destruct (BG =? 2); [done|by apply not_elem_of_nil in HZ]]. change (2 =? 1) with false. change (2 =? 2) with true. cbv iota. set_solver. }
  set (P b Zc := let shift := (if b && (Z.land Zc 31 =? 0) then 5 else if Z.land Zc 15 =? 0 then 4 else if Z.land Zc 7 =? 0 then 3 else 0) in
    (0 <? shift) && (Zc =? Zc / 2 ^ shift * 2 ^ shift) && (2 ^ shift <=? simd_size_of Zc) && (1 <=? simd_size_of Zc) && (simd_size_of Zc <=? 32) && (72 <=? Zc)).
  assert (HP : forallb (fun Zc => P true Zc && P false Zc) (simd_sizes 2) = true) by (vm_compute; reflexivity).
  rewrite forallb_forall in HP. specialize (HP Zc ltac:(by apply list_elem_of_In)). apply andb_true_iff in HP as [H1 H2].
  unfold simd_shift. assert (H : P (gen_code =? 1) Zc = true) by (by destruct (gen_code =? 1)). unfold P in H. cbv zeta in H. lia.
Qed.

Lemma simd_generator BG Zc : Zc ∈ simd_sizes BG -> exists gen, choose_generator_matrix BG Zc = Some gen.
Proof.
  intros HZ. assert (HBG : BG = 1 \/ BG = 2).
  { unfold simd_sizes in HZ. destruct (Z.eqb_spec BG 1); [by left|]. destruct (Z.eqb_spec BG 2); [by right|by apply not_elem_of_nil in HZ]. }
  assert (Hall : forallb (fun BG => forallb (fun Zc => bool_decide (is_Some (choose_generator_matrix BG Zc))) (simd_sizes BG)) [1; 2] = true) by (vm_compute; reflexivity).
  rewrite forallb_forall in Hall. specialize (Hall BG ltac:(destruct HBG as [-> | ->]; cbn; auto)). rewrite forallb_forall in Hall.
  specialize (Hall Zc ltac:(by apply list_elem_of_In)). by apply bool_decide_eq_true in Hall.
Qed.

(** [encode_parity_check_part_optim] writes the parity part. *)
Lemma parity_optim_spec gen_code BG Zc g gen stack cc d : graph_of BG = Some g -> Zc ∈ simd_sizes BG -> choose_generator_matrix BG Zc = Some gen ->
  zlen cc = ncols g * Zc -> zlen d = nrows g * Zc -> 2 * ncols g * Zc * simd_size_of Zc <= zlen stack ->
  encode_parity_check_part_optim gen_code stack cc d BG Zc (simd_size_of Zc) (ncols g) = Ok (parity_part g gen Zc (ncols g) cc).
Proof.
  intros Eg HZ Ec Hcc Hd Hst. pose proof (choose_ok BG Zc g gen Eg Ec) as G. pose proof (go_dims _ (gk_graph _ _ _ G)) as Hdim.
  destruct (simd_sizes_ok BG Zc gen_code HZ) as (Hs0 & Hm & HL & Hsz & H72). unfold encode_parity_check_part_optim.
  destruct (extend_spec g gen Zc G cc stack (simd_size_of Zc)) as (c & -> & Hl & Hext); [lia|nia|done|done|]. rewrite bind_Ok.
  rewrite bool_decide_true by done. unfold kernel. rewrite Eg, Ec. cbv zeta. rewrite (proj2 (Z.eqb_neq _ 0)) by lia.
  apply (run_kernel_spec g gen Zc G (simd_shift gen_code Zc) (Zc / 2 ^ simd_shift gen_code Zc)) with (n := simd_size_of Zc); [lia|done|done|lia|done| |done].
  intros i1 Hi1. by apply (row_stmt_nonempty BG).
Qed.
