(* ===== verification/LdpcWord.v ===== *)
(** * Eight segments at a time

    [LDPCencoder] keeps bit [j] of an octet for segment [j] of a job: unpacking, the exclusive ors of the
    parity computation and packing act on each bit alone, so every segment gets its own code word. *)

From S2P Require Import Prelude LdpcTables Ldpc LdpcSpec LdpcEnc.

Import LdpcTables Ldpc.

(** ** Bits *)

(** Bit [i] of a segment, the first one the top bit of the first octet. *)
Definition seg_bit (seg : bytes) (i : Z) : bool := Z.testbit (oct seg (i / 8)) (7 - i mod 8).

(** Bit [n] of an octet, as an octet. *)
Definition pick (n x : Z) : Z := Z.land (Z.shiftr x n) 1.

Lemma pick_testbit n x : 0 <= n -> pick n x = b2z (Z.testbit x n).
Proof. intros Hn. unfold pick. rewrite (Z.land_ones _ 1), Z.pow_1_r, <- Z.bit0_mod, Z.shiftr_spec by lia. rewrite Z.add_0_l. by destruct (Z.testbit x n). Qed.

Lemma pick_lxor n a b : 0 <= n -> pick n (Z.lxor a b) = Z.lxor (pick n a) (pick n b).
Proof. intros Hn. rewrite !pick_testbit, Z.lxor_spec by done. by destruct (Z.testbit a n), (Z.testbit b n). Qed.

Lemma pick_xsum n l : 0 <= n -> pick n (xsum l) = xsum (pick n <$> l).
Proof.
  intros Hn. induction l as [|x l IH]; [by rewrite pick_testbit, Z.testbit_0_l|]. rewrite fmap_cons. change (xsum (?a :: ?b)) with (Z.lxor a (xsum b)).
  by rewrite pick_lxor, IH.
Qed.

(** Parity is computed bit by bit. *)
Lemma pick_parity n g gen Zc Kb c i1 k : 0 <= n ->
  pick n (parity g gen Zc Kb c i1 k) = parity g gen Zc Kb (pick n <$> c) i1 k.
Proof.
  intros Hn. unfold parity. rewrite pick_xsum by done. f_equal. rewrite <- list_fmap_compose. apply list_fmap_ext. intros _ i3 _. cbn [compose].
  rewrite pick_xsum by done. f_equal. rewrite <- list_fmap_compose. apply list_fmap_ext. intros _ s _. cbn [compose]. unfold oct. rewrite list_lookup_fmap.
  destruct (c !! _); [done|]. cbn. by rewrite pick_testbit, Z.testbit_0_l.
Qed.

Lemma pick_parity_part n g gen Zc Kb c : 0 <= n -> pick n <$> parity_part g gen Zc Kb c = parity_part g gen Zc Kb (pick n <$> c).
Proof. intros Hn. unfold parity_part. rewrite <- list_fmap_compose. apply list_fmap_ext. intros _ q _. cbn [compose]. by apply pick_parity. Qed.

Lemma land_pow2_zero x k : 0 <= k -> (Z.land (Z.lnot x) (2 ^ k) =? 0) = Z.testbit x k.
Proof.
  intros Hk. destruct (Z.testbit x k) eqn:Eb.
  - apply Z.eqb_eq, Z.bits_inj'. intros b Hb. rewrite Z.land_spec, Z.lnot_spec, Z.pow2_bits_eqb, Z.bits_0 by done. destruct (Z.eqb_spec k b) as [<-|_]; [by rewrite Eb|by rewrite andb_false_r].
  - apply Z.eqb_neq. intros H. apply (f_equal (fun z => Z.testbit z k)) in H. rewrite Z.land_spec, Z.lnot_spec, Z.pow2_bits_eqb, Z.bits_0, Eb, Z.eqb_refl in H by done. done.
Qed.

Lemma testbit_s16 x n : 0 <= n < 16 -> Z.testbit (s16 x) n = Z.testbit x n.
Proof.
  intros Hn. rewrite <- (Z.mod_pow2_bits_low (s16 x) 16 n), <- (Z.mod_pow2_bits_low x 16 n) by lia. f_equal. unfold s16.
  rewrite Zminus_mod_idemp_l. f_equal. lia.
Qed.

(** ** Unpacking *)

Lemma concat_octets (f : Z -> bytes) w : (forall x, zlen (f x) = 8) -> zlen (concat (f <$> w)) = 8 * zlen w /\
  forall t, 0 <= t < 8 * zlen w -> oct (concat (f <$> w)) t = oct (f (oct w (t / 8))) (t mod 8).
Proof.
  intros Hf. induction w as [|x w [IH1 IH2]]; [split; [done|]; unfold zlen; cbn [length]; lia|]. rewrite fmap_cons. cbn [concat]. rewrite zlen_app, zlen_cons, Hf, IH1.
  split; [lia|]. intros t Ht. specialize (Hf x). destruct (Z.lt_ge_cases t 8).
  - rewrite Z.div_small, Z.mod_small by lia. change (oct (x :: w) 0) with x. unfold oct. rewrite lookup_app_l by (unfold zlen in Hf; lia). done.
  - specialize (IH2 (t - 8) ltac:(lia)). unfold oct at 1. rewrite lookup_app_r by (unfold zlen in Hf; lia).
    replace (Z.to_nat t - length (f x))%nat with (Z.to_nat (t - 8)) by (unfold zlen in Hf; lia). fold (oct (concat (f <$> w)) (t - 8)). rewrite IH2.
    replace t with (t - 8 + 1 * 8) at 3 4 by lia. rewrite Z.mod_add, Z.div_add by lia. do 2 f_equal. pose proof (Z.div_pos (t - 8) 8 ltac:(lia) ltac:(lia)) as Hq.
    unfold oct. replace (Z.to_nat ((t - 8) / 8 + 1)) with (S (Z.to_nat ((t - 8) / 8))) by lia. done.
Qed.

Lemma unpack_vec_spec w j : zlen w = 4 -> 0 <= j < 8 -> zlen (unpack_vec w (Z.shiftl 1 j)) = 32 /\
  forall t b, 0 <= t < 32 -> 0 <= b -> Z.testbit (oct (unpack_vec w (Z.shiftl 1 j)) t) b = (b =? j) && Z.testbit (oct w (t / 8)) (7 - t mod 8).
Proof.
  intros Hw Hj. unfold unpack_vec. edestruct (concat_octets (fun x => (fun m => Z.land (if Z.land (Z.lnot x) m =? 0 then 0xff else 0) (Z.shiftl 1 j)) <$> andmask) w) as [H1 H2]; [done|].
  rewrite Hw in H1, H2. split; [done|]. intros t b Ht Hb. rewrite H2 by lia. pose proof (Z.mod_pos_bound t 8 ltac:(lia)) as Hm. set (x := oct w (t / 8)).
  assert (E : andmask !! Z.to_nat (t mod 8) = Some (2 ^ (7 - t mod 8))).
  { set (u := t mod 8) in *. assert (Hu : u = 0 \/ u = 1 \/ u = 2 \/ u = 3 \/ u = 4 \/ u = 5 \/ u = 6 \/ u = 7) by lia. clearbody u. repeat destruct Hu as [->|Hu]; try reflexivity. by rewrite Hu. }
  unfold oct at 1. rewrite list_lookup_fmap, E. cbn [fmap option_fmap option_map from_option id]. rewrite land_pow2_zero by lia. rewrite Z.shiftl_1_l, Z.land_spec, Z.pow2_bits_eqb by lia.
  rewrite (Z.eqb_sym j b). destruct (Z.testbit x (7 - t mod 8)); [|by rewrite Z.bits_0, andb_false_r]. destruct (Z.eqb_spec b j) as [->|_]; [|by rewrite andb_false_r].
  change 255 with (Z.ones 8). rewrite Z.testbit_ones_nonneg by lia. rewrite (proj2 (Z.ltb_lt j 8)) by lia. done.
Qed.

Section Job.

Context (input : list bytes) (ms me K : Z) (Hms : 0 <= ms) (Hme : ms < me <= ms + 8) (Hlen : me <= zlen input) (HK : 0 <= K).

Definition seg (j : Z) : bytes := default [] (input !! Z.to_nat j).

Context (Hseg : forall j, ms <= j < me -> K <= 8 * zlen (seg j)).

Lemma rd_seg j : ms <= j < me -> rd input j = Ok (seg j).
Proof. intros Hj. destruct (rd_ok input j) as (x & -> & E); [lia|]. unfold seg. by rewrite E. Qed.

(** Octet [i] of the mixed segments, from those before [hi]. *)
Definition mixed (hi i b : Z) : bool := (b <? hi - ms) && seg_bit (seg (ms + b)) i.

Lemma seg_bit_word j i t w : slice (seg j) (4 * i) 4 = Ok w -> 0 <= i -> 0 <= t < 32 -> Z.testbit (oct w (t / 8)) (7 - t mod 8) = seg_bit (seg j) (32 * i + t).
Proof.
  intros Hw Hi Ht. pose proof (slice_inv _ _ _ _ Hw) as Hb. destruct (slice_oct (seg j) (4 * i) 4) as (w' & E & _ & Ho); [lia..|]. rewrite E in Hw. apply Ok_inj in Hw as ->.
  assert (Hq : 0 <= t / 8 < 4) by (split; [apply Z.div_pos; lia|apply Z.div_lt_upper_bound; lia]). rewrite Ho by lia. unfold seg_bit.
  replace (32 * i + t) with (t + 4 * i * 8) by lia. rewrite Z.div_add, Z.mod_add by lia. do 2 f_equal. lia.
Qed.

Lemma unpack_block_spec i : 0 <= i -> 32 * (i + 1) <= K -> exists x, unpack_block input ms me i = Ok x /\ zlen x = 32 /\
  forall t b, 0 <= t < 32 -> 0 <= b -> Z.testbit (oct x t) b = mixed me (32 * i + t) b.
Proof.
  intros Hi HiK. unfold unpack_block. rewrite rd_seg, bind_Ok by lia. pose proof (Hseg ms ltac:(lia)) as Hs0.
  destruct (slice_oct (seg ms) (4 * i) 4) as (w & Ew & Hw & _); [lia..|]. rewrite Ew, bind_Ok. change 1 with (Z.shiftl 1 0) at 3. destruct (unpack_vec_spec w 0 Hw ltac:(lia)) as [H1 H2].
  match goal with |- context [for_loop (ms + 1) me ?body ?s] => destruct (for_loop_inv (fun hi x => zlen x = 32 /\
    forall t b, 0 <= t < 32 -> 0 <= b -> Z.testbit (oct x t) b = mixed hi (32 * i + t) b) (ms + 1) me body s) as (x & -> & Hx) end; [lia| | |by exists x].
  - split; [done|]. intros t b Ht Hb. rewrite H2 by done. rewrite (seg_bit_word ms i t w Ew) by done. unfold mixed.
    destruct (Z.eqb_spec b 0) as [->|Nb]; [rewrite (proj2 (Z.ltb_lt 0 _)) by lia; by rewrite Z.add_0_r|by rewrite (proj2 (Z.ltb_ge b _)) by lia].
  - intros j x Hj [Hx1 Hx2]. rewrite rd_seg, bind_Ok by lia. pose proof (Hseg j ltac:(lia)) as Hsj.
    destruct (slice_oct (seg j) (4 * i) 4) as (w' & Ew' & Hw' & _); [lia..|]. rewrite Ew', bind_Ok. destruct (unpack_vec_spec w' (j - ms) Hw' ltac:(lia)) as [H3 H4].
    eexists. split; [reflexivity|]. unfold or_vec. split; [unfold zlen in *; rewrite length_zip_with; lia|]. intros t b Ht Hb.
    unfold oct at 1. rewrite lookup_zip_with, (oct_lookup x), (oct_lookup (unpack_vec w' _)) by lia. cbn [mbind option_bind from_option id].
    rewrite Z.lor_spec, Hx2, H4 by done. rewrite (seg_bit_word j i t w' Ew') by done. unfold mixed.
    destruct (Z.eqb_spec b (j - ms)) as [->|Nb].
    + rewrite (proj2 (Z.ltb_lt (j - ms) (j + 1 - ms))), (proj2 (Z.ltb_ge (j - ms) (j - ms))), orb_false_r by lia. by replace (ms + (j - ms)) with j by lia.
    + destruct (Z.ltb_spec b (j - ms)), (Z.ltb_spec b (j + 1 - ms)); lia || done.
Qed.

Lemma unpack_bit_spec cc i j : 0 <= i < zlen cc -> i < K -> ms <= j < me -> (forall b, 0 <= b -> Z.testbit (oct cc i) b = mixed j i b) ->
  exists cc', unpack_bit input ms i j cc = Ok cc' /\ zlen cc' = zlen cc /\ (forall b, 0 <= b -> Z.testbit (oct cc' i) b = mixed (j + 1) i b) /\
    forall q, 0 <= q -> q <> i -> oct cc' q = oct cc q.
Proof.
  intros Hi HiK Hj Hb. unfold unpack_bit. rewrite rd_seg, bind_Ok by done. pose proof (Hseg j Hj) as Hs. pose proof (Z.mod_pos_bound i 8 ltac:(lia)) as Hm.
  assert (Hq : 0 <= i / 8 < zlen (seg j)) by (split; [apply Z.div_pos; lia|apply Z.div_lt_upper_bound; lia]). rewrite (rd_oct (seg j)), bind_Ok, (rd_oct cc), bind_Ok by done.
  rewrite wr_ok by done. eexists. split; [reflexivity|]. split; [by rewrite zlen_insert|]. split.
  - intros b Hb0. rewrite oct_wr, Z.eqb_refl by lia. change 7 with (Z.ones 3). rewrite Z.land_ones by lia. change (2 ^ 3) with 8. change (Z.ones 3) with 7.
    assert (E : Z.shiftr (Z.land (oct (seg j) (i / 8)) (Z.shiftr 128 (i mod 8))) (7 - i mod 8) = b2z (seg_bit (seg j) i)).
    { rewrite Z.shiftr_land, Z.shiftr_shiftr by lia. replace (i mod 8 + (7 - i mod 8)) with 7 by lia. change (Z.shiftr 128 7) with 1. fold (pick (7 - i mod 8) (oct (seg j) (i / 8))). by apply pick_testbit; lia. }
    rewrite E. unfold u8. destruct (Z.lt_ge_cases b 8) as [Hlt|Hge].
    + rewrite Z.mod_pow2_bits_low, Z.lor_spec, Hb, Z.shiftl_spec by lia. unfold mixed. destruct (Z.eqb_spec b (j - ms)) as [->|Nb].
      * rewrite (proj2 (Z.ltb_lt (j - ms) (j + 1 - ms))), (proj2 (Z.ltb_ge (j - ms) (j - ms))), Z.sub_diag by lia. replace (ms + (j - ms)) with j by lia. by destruct (seg_bit (seg j) i).
      * assert (Ez : Z.testbit (b2z (seg_bit (seg j) i)) (b - (j - ms)) = false).
        { destruct (Z.lt_ge_cases (b - (j - ms)) 0); [by apply Z.testbit_neg_r|]. apply (high_bits 1); [destruct (seg_bit _ _); cbn; lia|lia]. }
        rewrite Ez, orb_false_r. destruct (Z.ltb_spec b (j - ms)), (Z.ltb_spec b (j + 1 - ms)); lia || done.
    + rewrite Z.mod_pow2_bits_high by lia. unfold mixed. by rewrite (proj2 (Z.ltb_ge b _)) by lia.
  - intros q Hq0 Nq. rewrite oct_wr by done. by rewrite (proj2 (Z.eqb_neq q i)).
Qed.

Lemma unpack_spec cc : zlen cc = K -> (forall q, oct cc q = 0) -> exists cc', unpack input ms me K cc = Ok cc' /\ zlen cc' = K /\
  forall i b, 0 <= i < K -> 0 <= b -> Z.testbit (oct cc' i) b = mixed me i b.
Proof.
  intros Hcc Hz. unfold unpack. rewrite Z.shiftr_div_pow2, Z.shiftl_mul_pow2 by lia. change (2 ^ 5) with 32.
  pose proof (Z.div_mod K 32 ltac:(lia)) as EK. pose proof (Z.mod_pos_bound K 32 ltac:(lia)) as Hr. assert (Hn : 0 <= K / 32) by (apply Z.div_pos; lia). set (n := K / 32) in *.
  match goal with |- context [for_loop 0 n ?body cc] => destruct (for_loop_inv (fun m c => zlen c = K /\ (forall q, 32 * m <= q -> oct c q = 0) /\
    forall i b, 0 <= i < 32 * m -> 0 <= b -> Z.testbit (oct c i) b = mixed me i b) 0 n body cc) as (c1 & -> & Hl1 & Hz1 & H1) end.
  - done.
  - split; [done|]. split; [done|lia].
  - intros i c Hi (Hl & Hzc & H). destruct (unpack_block_spec i) as (x & -> & Hx & Hxo); [lia..|]. rewrite bind_Ok. destruct (blit_oct c (32 * i) x) as (c' & -> & Hl' & Ho); [lia..|].
    exists c'. split; [done|]. rewrite Hx in Ho. split; [lia|]. split.
    + intros q Hq. rewrite Ho by lia. rewrite (proj2 (Z.ltb_ge q _)), andb_false_r by lia. apply Hzc. lia.
    + intros q b Hq Hb. rewrite Ho by lia. destruct (Z.leb_spec (32 * i) q); cbn [andb]; [|by apply H; lia]. rewrite (proj2 (Z.ltb_lt q _)) by lia.
      rewrite Hxo by lia. f_equal. lia.
  - rewrite bind_Ok. match goal with |- context [for_loop (n * 32) K ?body c1] => destruct (for_loop_inv (fun m c => zlen c = K /\ (forall q, m <= q -> oct c q = 0) /\
      forall i b, 0 <= i < m -> 0 <= b -> Z.testbit (oct c i) b = mixed me i b) (n * 32) K body c1) as (c2 & -> & Hl2 & _ & H2) end; [lia| | |by exists c2].
    + split; [done|]. split; intros; [apply Hz1|apply H1]; lia.
    + intros i c Hi (Hl & Hzc & H). match goal with |- context [for_loop ms me ?body c] => destruct (for_loop_inv (fun j c' => zlen c' = K /\
        (forall b, 0 <= b -> Z.testbit (oct c' i) b = mixed j i b) /\ forall q, 0 <= q -> q <> i -> oct c' q = oct c q) ms me body c) as (c' & -> & Hl' & Hb' & Ho') end.
      * lia.
      * split; [done|]. split; [|done]. intros b Hb. rewrite Hzc, Z.bits_0 by lia. unfold mixed. by rewrite (proj2 (Z.ltb_ge b _)) by lia.
      * intros j c3 Hj (Hl3 & Hb3 & Ho3). destruct (unpack_bit_spec c3 i j) as (c4 & -> & Hl4 & Hb4 & Ho4); [lia|lia|done|done|]. exists c4. split; [done|]. split; [lia|]. split; [done|].
        intros q Hq Nq. by rewrite Ho4, Ho3.
      * exists c'. split; [done|]. split; [done|]. split; [intros q Hq; rewrite Ho' by lia; apply Hzc; lia|]. intros q b Hq Hb.
        destruct (Z.eq_dec q i) as [->|Nq]; [by apply Hb'|]. rewrite Ho' by lia. apply H; lia.
Qed.

End Job.

(** The bits of a segment, an octet each. *)
Definition info (K : Z) (s : bytes) : bytes := (fun i => b2z (seg_bit s i)) <$> seqZ 0 K.

Lemma info_oct K s i : 0 <= i < K -> oct (info K s) i = b2z (seg_bit s i).
Proof. intros Hi. unfold oct, info. rewrite list_lookup_fmap, lookup_seqZ_lt by lia. cbn [fmap option_fmap option_map from_option id]. by rewrite Z.add_0_l, Z2Nat.id by lia. Qed.

Lemma zlen_info K s : 0 <= K -> zlen (info K s) = K.
Proof. intros HK. unfold info, zlen. rewrite length_fmap, length_seqZ. lia. Qed.

Lemma oct_fmap f c i : f 0 = 0 -> oct (f <$> c) i = f (oct c i).
Proof. intros Hf. unfold oct. rewrite list_lookup_fmap. by destruct (c !! Z.to_nat i). Qed.

Lemma pick_0 n : 0 <= n -> pick n 0 = 0.
Proof. intros Hn. by rewrite pick_testbit, Z.bits_0. Qed.

Lemma zlen_fmap {A B} (f : A -> B) (l : list A) : zlen (f <$> l) = zlen l.
Proof. unfold zlen. by rewrite length_fmap. Qed.

(** Bit [j] of the unpacked octets is segment [j]. *)
Lemma mixed_info input ms me K cc j : ms <= j < me -> zlen cc = K ->
  (forall i b, 0 <= i < K -> 0 <= b -> Z.testbit (oct cc i) b = mixed input ms me i b) -> pick (j - ms) <$> cc = info K (seg input j).
Proof.
  intros Hj Hcc H. pose proof (zlen_nonneg cc) as H0. apply oct_eq; [rewrite zlen_fmap, zlen_info; lia|]. rewrite zlen_fmap. intros i Hi.
  rewrite oct_fmap, info_oct, pick_testbit by (apply pick_0 || lia; lia). rewrite H by lia. unfold mixed. rewrite (proj2 (Z.ltb_lt _ _)) by lia.
  by replace (ms + (j - ms)) with j by lia.
Qed.

(** ** Packing *)

Lemma pick_vec_spec n : 0 <= n < 8 -> forall v, Forall is_byte v -> (exists m, length v = (m + m)%nat) -> pick_vec v n = pick n <$> v.
Proof.
  intros Hn v Hv [m Hm]. revert v Hv Hm. induction m as [|m IH]; intros v Hv Hm; [by destruct v|]. destruct v as [|lo [|hi v]]; [done|cbn in Hm; lia|].
  inversion Hv as [|? ? Hlo Hv']; subst. inversion Hv' as [|? ? Hhi Hv2]; subst. rewrite !fmap_cons. cbn [pick_vec]. rewrite (IH v Hv2) by (cbn in Hm; lia).
  unfold is_byte in *. rewrite Z.shiftr_shiftr by lia. fold (pick n (s16 (lo + 256 * hi))). fold (pick (n + 8) (s16 (lo + 256 * hi))). rewrite !pick_testbit, !testbit_s16 by lia.
  assert (E1 : Z.testbit (lo + 256 * hi) n = Z.testbit lo n).
  { rewrite <- (Z.mod_pow2_bits_low (lo + 256 * hi) 8 n) by lia. change (2 ^ 8) with 256. rewrite Z.mul_comm, Z.mod_add, Z.mod_small by lia. done. }
  assert (E2 : Z.testbit (lo + 256 * hi) (n + 8) = Z.testbit hi n).
  { replace (n + 8) with (n + 8) by lia. rewrite <- Z.shiftr_spec by lia. rewrite Z.shiftr_div_pow2 by lia. change (2 ^ 8) with 256. rewrite Z.mul_comm, Z.div_add, Z.div_small by lia. done. }
  by rewrite E1, E2.
Qed.

Section Put.

Context (ms me : Z) (Hms : 0 <= ms <= me) (Hme : me <= ms + 8).

(** The outputs of the job get [f] at the octets [off .. off + N); nothing else changes. *)
Definition written (off N : Z) (f : Z -> Z -> Z) (output output' : list bytes) : Prop :=
  zlen output' = zlen output /\ (forall j, 0 <= j -> ~ (ms <= j < me) -> seg output' j = seg output j) /\
  forall j, ms <= j < me -> zlen (seg output' j) = zlen (seg output j) /\
    forall k, 0 <= k -> oct (seg output' j) k = if (off <=? k) && (k <? off + N) then f j k else oct (seg output j) k.

Lemma written_nil off f output : written off 0 f output output.
Proof.
  split; [done|]. split; [done|]. intros j Hj. split; [done|]. intros k Hk. rewrite Z.add_0_r. destruct (Z.leb_spec off k), (Z.ltb_spec k off); cbn [andb]; lia || done.
Qed.

Lemma written_trans off N M f o1 o2 o3 : 0 <= N -> 0 <= M -> written off N f o1 o2 -> written (off + N) M f o2 o3 -> written off (N + M) f o1 o3.
Proof.
  intros HN HM (L1 & S1 & W1) (L2 & S2 & W2). split; [lia|]. split; [intros j Hj Hn; by rewrite S2, S1|]. intros j Hj. destruct (W1 j Hj) as [Z1 E1]. destruct (W2 j Hj) as [Z2 E2].
  split; [lia|]. intros k Hk. rewrite E2, E1 by done.
  destruct (Z.leb_spec (off + N) k), (Z.ltb_spec k (off + N + M)), (Z.leb_spec off k), (Z.ltb_spec k (off + N)), (Z.ltb_spec k (off + (N + M))); cbn [andb]; lia || done.
Qed.

Lemma written_ext off N f f' o1 o2 : (forall j k, ms <= j < me -> off <= k < off + N -> f j k = f' j k) -> written off N f o1 o2 -> written off N f' o1 o2.
Proof.
  intros H (L1 & S1 & W1). split; [done|]. split; [done|]. intros j Hj. destruct (W1 j Hj) as [Z1 E1]. split; [done|]. intros k Hk. rewrite E1 by done.
  destruct (Z.leb_spec off k), (Z.ltb_spec k (off + N)); cbn [andb]; try done. by apply H.
Qed.

Lemma seg_insert output i o j : 0 <= i < zlen output -> 0 <= j -> seg (<[Z.to_nat i := o]> output) j = if j =? i then o else seg output j.
Proof.
  intros Hi Hj. unfold seg. destruct (Z.eqb_spec j i) as [->|N]; [by rewrite list_lookup_insert_eq by (unfold zlen in Hi; lia)|by rewrite list_lookup_insert_ne by lia].
Qed.

(** One update of every output of the job. *)
Lemma each_segment (upd : Z -> bytes -> res bytes) off N f output : me <= zlen output ->
  (forall j, ms <= j < me -> exists o', upd j (seg output j) = Ok o' /\ zlen o' = zlen (seg output j) /\
    forall k, 0 <= k -> oct o' k = if (off <=? k) && (k <? off + N) then f j k else oct (seg output j) k) ->
  exists output', for_loop ms me (fun j output => o ← rd output j; o ← upd j o; wr output j o) output = Ok output' /\ written off N f output output'.
Proof.
  intros Hlen Hupd. match goal with |- context [for_loop ms me ?body output] => destruct (for_loop_inv (fun hi out => zlen out = zlen output /\
    (forall j, 0 <= j -> ~ (ms <= j < hi) -> seg out j = seg output j) /\
    forall j, ms <= j < hi -> zlen (seg out j) = zlen (seg output j) /\
      forall k, 0 <= k -> oct (seg out j) k = if (off <=? k) && (k <? off + N) then f j k else oct (seg output j) k) ms me body output) as (out & -> & Ho) end.
  - lia.
  - split; [done|]. split; [done|lia].
  - intros j out Hj (Hl & Hs & Hw). rewrite (rd_seg out ms me), bind_Ok by lia. rewrite Hs by lia. destruct (Hupd j Hj) as (o' & -> & Hz & Hk). rewrite bind_Ok, wr_ok by lia.
    eexists. split; [reflexivity|]. split; [by rewrite zlen_insert|]. split.
    + intros i Hi Hni. rewrite seg_insert by lia. destruct (Z.eqb_spec i j); [lia|]. apply Hs; lia.
    + intros i Hi. rewrite seg_insert by lia. destruct (Z.eqb_spec i j) as [->|]; [done|]. apply Hw. lia.
  - by exists out.
Qed.

(** Octet [k] of a buffer that [src] is packed into at [off]. *)
Definition packed (src : bytes) (from off j k : Z) : Z := pick (j - ms) (oct src (from + (k - off))).

Lemma written_steps w (step : Z -> list bytes -> res (list bytes)) off f n output : 0 <= w -> 0 <= n ->
  (forall i out, 0 <= i < n -> written off (w * i) f output out -> exists out', step i out = Ok out' /\ written (off + w * i) w f out out') ->
  exists output', for_loop 0 n step output = Ok output' /\ written off (w * n) f output output'.
Proof.
  intros Hw Hn Hstep. apply (for_loop_inv (fun i => written off (w * i) f output)); [done|rewrite Z.mul_0_r; apply written_nil|].
  intros i out Hi Ho. destruct (Hstep i out Hi Ho) as (out' & E & H'). exists out'. split; [done|]. replace (w * (i + 1)) with (w * i + w) by lia. apply (written_trans _ _ _ _ _ out); [lia|lia|done|done].
Qed.

Lemma put_vectors_spec src from n at_ output : Forall is_byte src -> 0 <= from -> 0 <= n -> 0 <= at_ -> from + 32 * n <= zlen src -> me <= zlen output ->
  (forall j, ms <= j < me -> 32 * (at_ + n) <= zlen (seg output j)) ->
  exists output', put_vectors src from n at_ ms me output = Ok output' /\ written (32 * at_) (32 * n) (packed src from (32 * at_)) output output'.
Proof.
  intros Hb Hf Hn Ha Hsrc Hlen Hout. apply written_steps; [lia|done|]. intros i out Hi (Hl & _ & Hw). destruct (slice_oct src (from + 32 * i) 32) as (v & Ev & Hv & Hvo); [lia..|].
  rewrite Ev, bind_Ok. apply (each_segment (fun j o => blit o (32 * (at_ + i)) (pick_vec v (j - ms)))); [lia|]. intros j Hj. destruct (Hw j Hj) as [Hz _]. specialize (Hout j Hj).
  assert (Hvb : Forall is_byte v) by (apply slice_inv in Ev as (_ & _ & _ & ->); by apply Forall_take, Forall_drop).
  rewrite (pick_vec_spec (j - ms)); [|lia|done|exists 16%nat; unfold zlen in Hv; lia].
  destruct (blit_oct (seg out j) (32 * (at_ + i)) (pick (j - ms) <$> v)) as (o' & Eo & Hlo & Hoo); [lia|rewrite zlen_fmap; lia|]. exists o'. split; [exact Eo|]. split; [done|].
  intros k Hk. rewrite Hoo by done. rewrite zlen_fmap, Hv. replace (32 * (at_ + i)) with (32 * at_ + 32 * i) by lia.
  destruct (Z.leb_spec (32 * at_ + 32 * i) k), (Z.ltb_spec k (32 * at_ + 32 * i + 32)); cbn [andb]; try done.
  unfold packed. rewrite oct_fmap, Hvo by (apply pick_0; lia) || lia. do 2 f_equal. lia.
Qed.

Lemma put_octets_spec src from n at_ output : 0 <= from -> 0 <= n -> 0 <= at_ -> from + n <= zlen src -> me <= zlen output ->
  (forall j, ms <= j < me -> at_ + n <= zlen (seg output j)) ->
  exists output', put_octets src from n at_ ms me output = Ok output' /\ written at_ n (packed src from at_) output output'.
Proof.
  intros Hf Hn Ha Hsrc Hlen Hout. setoid_rewrite <- (Z.mul_1_l n) at 2. unfold put_octets. apply written_steps; [lia|done|]. intros i out Hi (Hl & _ & Hw). rewrite (rd_oct src), bind_Ok by lia.
  apply (each_segment (fun j o => wr o (at_ + i) (Z.land (Z.shiftr (oct src (from + i)) (j - ms)) 1))); [lia|]. intros j Hj. destruct (Hw j Hj) as [Hz _]. specialize (Hout j Hj).
  rewrite wr_ok by lia. eexists. split; [reflexivity|]. split; [by rewrite zlen_insert|]. intros k Hk. rewrite oct_wr by lia. rewrite Z.mul_1_l.
  destruct (Z.eqb_spec k (at_ + i)) as [->|N].
  - rewrite (proj2 (Z.leb_le _ _)), (proj2 (Z.ltb_lt _ _)) by lia. cbn [andb]. unfold packed, pick. do 4 f_equal. lia.
  - destruct (Z.leb_spec (at_ + i) k), (Z.ltb_spec k (at_ + i + 1)); cbn [andb]; lia || done.
Qed.

End Put.

(** ** The encoder *)

Lemma large_sizes : forallb (fun Zc => ((Zc <? 176) || bool_decide (Zc ∈ simd_sizes 1)) && ((Zc <? 72) || bool_decide (Zc ∈ simd_sizes 2))) (concat lift_set) = true.
Proof. vm_compute. reflexivity. Qed.

(** Large sizes have a kernel. *)
Lemma large_simd BG Zc gen : choose_generator_matrix BG Zc = Some gen ->
  ((BG =? 1) && (Zc >=? 176)) || ((BG =? 2) && (Zc >=? 72)) = true -> Zc ∈ simd_sizes BG.
Proof.
  intros Ec Hb. assert (HBG : BG = 1 \/ BG = 2) by lia. destruct (set_of BG Zc gen HBG Ec) as (sizes & gen0 & rows & Hin & HZ & _).
  assert (Hall : In Zc (concat lift_set)).
  { apply in_concat. exists sizes. split; [|by apply list_elem_of_In]. apply list_elem_of_In, list_elem_of_lookup. apply list_elem_of_lookup in Hin as [i Hi]. exists i.
    rewrite !lookup_zip_with in Hi. destruct (lift_set !! i); [|done]. destruct (generators BG !! i); [|done]. destruct (base_graphs BG !! i); [|done]. cbn in Hi. congruence. }
  pose proof large_sizes as H. rewrite forallb_forall in H. specialize (H Zc Hall). apply andb_true_iff in H as [H1 H2]. apply orb_true_iff in H1, H2. rewrite bool_decide_eq_true in H1, H2.
  destruct HBG as [-> | ->]; [destruct H1|destruct H2]; lia || done.
Qed.

(** The word of a segment: the information bits but the first [2 * Zc], and the parity bits. *)
Definition code_word (g : graph) (gen : list Z) (Zc : Z) (s : bytes) : bytes :=
  let c := info (ncols g * Zc) s in drop (Z.to_nat (2 * Zc)) c ++ parity_part g gen Zc (ncols g) c.

(** A job: its segments are [8 * macro_num .. job_end). *)
Definition job_end (ip : impl_params) : Z := if n_segments ip >? 8 * (macro_num ip + 1) then 8 * (macro_num ip + 1) else n_segments ip.

Record job_ok (stack : bytes) (input output : list bytes) (ip : impl_params) (g : graph) (gen : list Z) : Prop := {
  jo_graph : graph_of (ip_BG ip) = Some g;
  jo_gen : choose_generator_matrix (ip_BG ip) (ip_Zc ip) = Some gen;
  jo_K : ip_K ip = ncols g * ip_Zc ip;
  jo_Kb : 0 <= ip_Kb ip <= ncols g;
  jo_macro : 0 <= macro_num ip /\ 8 * macro_num ip < n_segments ip;
  jo_lists : job_end ip <= zlen input /\ job_end ip <= zlen output;
  jo_stack : zlen stack = 2 * 22 * ip_Zc ip * simd_size_of (ip_Zc ip);
  jo_input j : 8 * macro_num ip <= j < job_end ip -> ip_K ip <= 8 * zlen (seg input j) /\
    forall i, ip_Kb ip * ip_Zc ip <= i < ip_K ip -> seg_bit (seg input j) i = false;
  jo_output j : 8 * macro_num ip <= j < job_end ip -> (nrows g + ncols g - 2) * ip_Zc ip <= zlen (seg output j) }.

Lemma graph_dims BG g : graph_of BG = Some g -> (nrows g = 46 /\ ncols g = 22 /\ rate g = 3) \/ (nrows g = 42 /\ ncols g = 10 /\ rate g = 5).
Proof. unfold graph_of. destruct (BG =? 1); [|destruct (BG =? 2); [|done]]; injection 1 as <-; cbn [nrows ncols rate]; lia. Qed.

Lemma xsum_byte l : Forall is_byte l -> is_byte (xsum l).
Proof. induction 1 as [|x l Hx _ IH]; [unfold is_byte; cbn; lia|]. apply (lxor_bound 8); [lia|done|done]. Qed.

Lemma parity_part_bytes g gen Zc Kb c : (forall i, is_byte (oct c i)) -> Forall is_byte (parity_part g gen Zc Kb c).
Proof.
  intros Hc. apply Forall_fmap, Forall_forall. intros q _. cbn [compose]. apply xsum_byte, Forall_fmap, Forall_forall. intros i3 _. cbn [compose].
  apply xsum_byte, Forall_fmap, Forall_forall. intros s _. apply Hc.
Qed.

Section Encoder.

Context (gen_code : Z) (stack : bytes) (input output : list bytes) (ip : impl_params) (g : graph) (gen : list Z) (J : job_ok stack input output ip g gen).
#[local] Abbreviation Zc := (ip_Zc ip).
#[local] Abbreviation BG := (ip_BG ip).
#[local] Abbreviation K := (ip_K ip).
#[local] Abbreviation ms := (8 * macro_num ip).
#[local] Abbreviation me := (job_end ip).
Context (cc : bytes) (Hcc : zlen cc = K) (Hmix : forall i b, 0 <= i < K -> 0 <= b -> Z.testbit (oct cc i) b = mixed input ms me i b).

Lemma job_bounds : 0 < Zc /\ 0 <= ms < me /\ me <= ms + 8.
Proof.
  pose proof (gk_Z _ _ _ (choose_ok BG Zc g gen (jo_graph _ _ _ _ _ _ J) (jo_gen _ _ _ _ _ _ J))). pose proof (jo_macro _ _ _ _ _ _ J). unfold job_end. destruct (Z.gtb_spec (n_segments ip) (8 * (macro_num ip + 1))); lia.
Qed.

Lemma cc_byte i : is_byte (oct cc i).
Proof.
  pose proof job_bounds as Hj. assert (H : forall q, 0 <= q -> is_byte (oct cc q)).
  { intros q Hq. destruct (Z.lt_ge_cases q K) as [Hi|Hi].
    - apply (bits_bound 8); [lia|]. intros b Hb. rewrite Hmix by lia. unfold mixed. by rewrite (proj2 (Z.ltb_ge b _)) by lia.
    - unfold oct. rewrite lookup_ge_None_2 by (unfold zlen in Hcc; lia). unfold is_byte. cbn. lia. }
  destruct (Z.lt_ge_cases i 0); [|by apply H]. unfold oct. replace (Z.to_nat i) with (Z.to_nat 0) by lia. by apply (H 0).
Qed.

(** Both parity computations give the parity part. *)
Lemma parity_step d : zlen d = nrows g * Zc ->
  (if ((BG =? 1) && (Zc >=? 176)) || ((BG =? 2) && (Zc >=? 72)) then
     dd ← encode_parity_check_part_optim gen_code stack cc d BG Zc (simd_size_of Zc) (ncols g); mret (0, cc, dd)
   else encode_parity_check_part_orig cc d BG Zc (ip_Kb ip) K) = Ok (0, cc, parity_part g gen Zc (ncols g) cc).
Proof.
  intros Hd. pose proof job_bounds as (HZ & Hms & Hme). destruct J as [Jg Jgen JK JKb Jm Jl Js Jin Jout]. destruct (_ || _) eqn:Eb.
  - pose proof (large_simd _ _ _ Jgen Eb) as Hin. rewrite (parity_optim_spec gen_code BG Zc g gen); [done|done|done|done|lia|done|].
    rewrite Js. destruct (simd_sizes_ok BG Zc 1 Hin) as (_ & _ & _ & Hsz & _). destruct (graph_dims BG g Jg) as [(_ & -> & _)|(_ & -> & _)]; nia.
  - rewrite JK, (parity_orig_spec BG Zc g gen) by (done || lia). rewrite parity_zero_columns; [done|done|done|]. intros q Hq. apply Z.bits_inj'. intros b Hb. rewrite Hmix, Z.bits_0 by nia.
    unfold mixed. destruct (Z.ltb_spec b (me - ms)); [|done]. cbn [andb]. apply (Jin (ms + b)); lia.
Qed.

(** Packing both parts gives each segment its word. *)
Lemma output_step : let n1 := K - 2 * Zc in let n2 := nrows g * Zc in let dd := parity_part g gen Zc (ncols g) cc in
  exists output', (if (Z.land (2 * Zc) 31 =? 0) && (Z.land n1 31 =? 0) then
           output ← put_vectors cc (2 * Zc) (Z.shiftr n1 5) 0 ms me output;
           put_vectors dd 0 (Z.shiftr n2 5) (Z.shiftr n1 5) ms me output
         else
           output ← put_octets cc (2 * Zc) n1 0 ms me output;
           put_octets dd 0 n2 n1 ms me output) = Ok output' /\
    written ms me 0 (n1 + n2) (fun j k => oct (code_word g gen Zc (seg input j)) k) output output'.
Proof.
  cbv zeta. pose proof job_bounds as (HZ & Hms & Hme). destruct J as [Jg Jgen JK JKb Jm Jl Js Jin Jout]. set (n1 := K - 2 * Zc). set (n2 := nrows g * Zc). set (dd := parity_part g gen Zc (ncols g) cc).
  assert (Hdims : 10 <= ncols g /\ 42 <= nrows g /\ (nrows g = 46 \/ nrows g = 42)) by (destruct (graph_dims BG g Jg); lia).
  assert (Hn1 : 0 <= n1) by (unfold n1; nia). assert (Hn2 : 0 <= n2) by (unfold n2; nia). assert (Hdd : zlen dd = n2) by (unfold dd, parity_part, zlen; rewrite length_fmap, length_seqZ; unfold n2 in Hn2; lia).
  assert (Hroom : forall j, ms <= j < me -> n1 + n2 <= zlen (seg output j)) by (intros j Hj; specialize (Jout j Hj); unfold n1, n2; nia).
  assert (Hbcc : Forall is_byte cc) by (apply Forall_lookup_2; intros i x Hx; pose proof (cc_byte (Z.of_nat i)) as H; unfold oct in H; rewrite Nat2Z.id, Hx in H; done).
  assert (Hend : exists output' f1 f2, (forall j k, f1 j k = packed ms cc (2 * Zc) 0 j k) /\ (forall j k, f2 j k = packed ms dd 0 n1 j k) /\
    (if (Z.land (2 * Zc) 31 =? 0) && (Z.land n1 31 =? 0) then output ← put_vectors cc (2 * Zc) (Z.shiftr n1 5) 0 ms me output; put_vectors dd 0 (Z.shiftr n2 5) (Z.shiftr n1 5) ms me output
     else output ← put_octets cc (2 * Zc) n1 0 ms me output; put_octets dd 0 n2 n1 ms me output) = Ok output' /\
    exists o1, written ms me 0 n1 f1 output o1 /\ written ms me n1 n2 f2 o1 output').
  { destruct (_ && _) eqn:Eb.
    - change 31 with (Z.ones 5) in Eb. rewrite !Z.land_ones in Eb by lia. change (2 ^ 5) with 32 in Eb. apply andb_true_iff in Eb as [E1 E2]. apply Z.eqb_eq in E1, E2.
      rewrite !Z.shiftr_div_pow2 by lia. change (2 ^ 5) with 32. pose proof (Z.div_mod n1 32 ltac:(lia)) as D1. pose proof (Z.div_mod n2 32 ltac:(lia)) as D2.
      assert (E3 : n2 mod 32 = 0).
      { unfold n2. pose proof (Z.div_mod (2 * Zc) 32 ltac:(lia)) as D. destruct Hdims as (_ & _ & [-> | ->]); [replace (46 * Zc) with (23 * (2 * Zc / 32) * 32) by lia|replace (42 * Zc) with (21 * (2 * Zc / 32) * 32) by lia]; apply Z.mod_mul; lia. }
      destruct (put_vectors_spec ms me ltac:(lia) Hme cc (2 * Zc) (n1 / 32) 0 output) as (o1 & -> & W1); [done|lia|lia|lia|unfold n1 in *; lia|lia|intros j Hj; specialize (Hroom j Hj); lia|].
      rewrite bind_Ok. pose proof W1 as (L1 & _ & Wj).
      destruct (put_vectors_spec ms me ltac:(lia) Hme dd 0 (n2 / 32) (n1 / 32) o1) as (o2 & -> & W2);
        [by apply parity_part_bytes, cc_byte|lia|lia|lia|lia|lia|intros j Hj; specialize (Hroom j Hj); destruct (Wj j Hj); lia|].
      eexists o2, _, _. split; [reflexivity|]. split; [reflexivity|]. split; [done|]. exists o1.
      replace (32 * (n1 / 32)) with n1 in * by lia. replace (32 * (n2 / 32)) with n2 in * by lia. done.
    - destruct (put_octets_spec ms me ltac:(lia) cc (2 * Zc) n1 0 output) as (o1 & -> & W1); [lia|lia|lia|unfold n1; lia|lia|intros j Hj; specialize (Hroom j Hj); lia|].
      rewrite bind_Ok. pose proof W1 as (L1 & _ & Wj).
      destruct (put_octets_spec ms me ltac:(lia) dd 0 n2 n1 o1) as (o2 & -> & W2); [lia|lia|lia|lia|lia|intros j Hj; specialize (Hroom j Hj); destruct (Wj j Hj); lia|].
      eexists o2, _, _. split; [reflexivity|]. split; [reflexivity|]. split; [done|]. by exists o1. }
  destruct Hend as (output' & f1 & f2 & F1 & F2 & -> & o1 & W1 & W2). exists output'. split; [done|].
  apply (written_trans ms me 0 n1 n2 _ output o1 output' Hn1 Hn2).
  - apply (written_ext ms me _ _ f1); [|done]. intros j k Hj Hk. rewrite F1. unfold packed, code_word. rewrite <- JK, <- (mixed_info input ms me K cc j Hj Hcc Hmix).
    unfold oct at 2. rewrite lookup_app_l, lookup_drop by (rewrite length_drop, length_fmap; unfold zlen, n1 in *; lia). rewrite Z.sub_0_r.
    rewrite <- oct_fmap by (apply pick_0; lia). unfold oct. do 2 f_equal. lia.
  - apply (written_ext ms me _ _ f2); [|done]. intros j k Hj Hk. rewrite F2. unfold packed, code_word. rewrite <- JK, <- (mixed_info input ms me K cc j Hj Hcc Hmix).
    unfold oct at 2. rewrite lookup_app_r by (rewrite length_drop, length_fmap; unfold zlen, n1 in *; lia). rewrite length_drop, length_fmap.
    rewrite <- pick_parity_part by lia. fold dd. rewrite <- oct_fmap by (apply pick_0; lia). unfold oct. do 2 f_equal. unfold zlen, n1 in *. lia.
Qed.

End Encoder.

Lemma replicate_oct n i : oct (replicate n 0) i = 0.
Proof. unfold oct. destruct (replicate n 0 !! Z.to_nat i) as [x|] eqn:E; [|done]. by apply lookup_replicate in E as [-> _]. Qed.

(** [LDPCencoder] gives every segment of its job its word. *)
Lemma encoder_spec gen_code stack input output ip g gen : job_ok stack input output ip g gen ->
  exists output', LDPCencoder gen_code stack input output ip = Ok (0, output') /\
    written (8 * macro_num ip) (job_end ip) 0 ((nrows g + ncols g - 2) * ip_Zc ip) (fun j k => oct (code_word g gen (ip_Zc ip) (seg input j)) k) output output'.
Proof.
  intros J. pose proof (job_bounds _ _ _ _ _ _ J) as (HZ & Hms & Hme). pose proof J as [Jg Jgen JK JKb Jm Jl Js Jin Jout]. pose proof (graph_dims _ _ Jg) as Hd.
  unfold LDPCencoder. fold (job_end ip). fold (simd_size_of (ip_Zc ip)). cbv zeta. rewrite Jg. cbn [from_option id]. rewrite (proj2 (Z.gtb_lt (ip_Zc ip) 0)) by lia. cbn [negb].
  assert (Enp : punctured g (ip_Zc ip) (ip_K ip) = Ok 0).
  { unfold punctured, idiv. rewrite (proj2 (Z.eqb_neq _ 0)) by lia. mon. rewrite JK.
    replace (_ - _) with 0 by (destruct Hd as [(-> & -> & ->)|(-> & -> & ->)]; ring). done. }
  rewrite Enp, bind_Ok. assert (HK : 0 <= ip_K ip) by (rewrite JK; nia).
  destruct (unpack_spec input (8 * macro_num ip) (job_end ip) (ip_K ip)) with (cc := replicate (Z.to_nat (ncols g * ip_Zc ip)) 0) as (cc & -> & Hcc & Hmix).
  - lia.
  - lia.
  - lia.
  - done.
  - intros j Hj. by apply Jin.
  - unfold zlen. rewrite length_replicate. lia.
  - intros q. apply replicate_oct.
  - rewrite bind_Ok. rewrite (parity_step gen_code stack input output ip g gen J cc Hcc Hmix) by (unfold zlen; rewrite length_replicate; nia). rewrite bind_Ok. change (0 =? 0) with true. cbn [negb].
    replace ((nrows g - 0) * ip_Zc ip - ((nrows g - 0 - 2) * ip_Zc ip + ip_K ip - ip_K ip * rate g)) with (nrows g * ip_Zc ip) by (rewrite JK; destruct Hd as [(-> & -> & ->)|(-> & -> & ->)]; ring).
    destruct (output_step stack input output ip g gen J cc Hcc Hmix) as (output' & -> & W). rewrite bind_Ok. exists output'. split; [done|].
    replace ((nrows g + ncols g - 2) * ip_Zc ip) with (ip_K ip - 2 * ip_Zc ip + nrows g * ip_Zc ip) by (rewrite JK; ring). done.
Qed.
