(* ===== verification/LdpcLink.v ===== *)
(** * The LDPC encoder behind the downlink shared channel

    The words of [LDPCencoder] are a code as [nr_dlsch_encoding] needs it, and the code blocks that
    [nr_segmentation] leaves are what [LDPCencoder] accepts. *)

From S2P Require Import Prelude RlcPdu Crc CrcProps Segmentation SegmentationProps Dlsch DlschTx LdpcTables Ldpc LdpcSpec LdpcEnc LdpcWord.

Import Crc Segmentation Dlsch LdpcTables Ldpc.

(** ** An instance of the interface *)

(** The word of [LDPCencoder]. *)
Definition oai_encode (BG Zc Kb K : Z) (c : bytes) : list Z :=
  code_word (default (mk_graph 0 0 3 [] []) (graph_of BG)) (default [] (choose_generator_matrix BG Zc)) Zc c.

(** With any decoder. *)
#[local] Instance oai_ldpc (dec : dec_params -> list Z -> bool -> Z * bytes * bool) : Dlsch.Ldpc := {| ldpc_encode := oai_encode; ldpc_decode := dec |}.

Lemma bits_lookup c i : 0 <= i < 8 * zlen c -> bits c !! Z.to_nat i = Some (seg_bit c i).
Proof.
  revert i. induction c as [|x c IH]; intros i Hi; [unfold zlen in Hi; cbn in Hi; lia|]. rewrite zlen_cons in Hi. rewrite bits_cons. unfold seg_bit. destruct (Z.lt_ge_cases i 8) as [Hlt|Hge].
  - rewrite lookup_app_l by (rewrite length_zbits; lia). rewrite lookup_zbits by lia. rewrite Z.div_small, Z.mod_small by lia. change (oct (x :: c) 0) with x. f_equal. f_equal. lia.
  - rewrite lookup_app_r, length_zbits by (rewrite length_zbits; lia). replace (Z.to_nat i - 8)%nat with (Z.to_nat (i - 8)) by lia. rewrite IH by lia. unfold seg_bit. f_equal.
    replace i with (i - 8 + 1 * 8) at 3 4 by lia. rewrite Z.mod_add, Z.div_add by lia. f_equal. pose proof (Z.div_pos (i - 8) 8 ltac:(lia) ltac:(lia)).
    unfold oct. replace (Z.to_nat ((i - 8) / 8 + 1)) with (S (Z.to_nat ((i - 8) / 8))) by lia. done.
Qed.

Lemma xsum_bit l : Forall is_bit l -> is_bit (xsum l).
Proof. induction 1 as [|x l Hx _ IH]; [by left|]. change (xsum (x :: l)) with (Z.lxor x (xsum l)). unfold is_bit in *. destruct Hx as [-> | ->], IH as [-> | ->]; cbn; auto. Qed.

Lemma parity_part_bits g gen Zc Kb c : (forall i, is_bit (oct c i)) -> Forall is_bit (parity_part g gen Zc Kb c).
Proof.
  intros Hc. apply Forall_fmap, Forall_forall. intros q _. cbn [compose]. apply xsum_bit, Forall_fmap, Forall_forall. intros i3 _. cbn [compose].
  apply xsum_bit, Forall_fmap, Forall_forall. intros s _. apply Hc.
Qed.

Lemma info_bits K c : Forall is_bit (info K c).
Proof. apply Forall_fmap, Forall_forall. intros i _. cbn [compose]. unfold is_bit. destruct (seg_bit c i); cbn; auto. Qed.

Lemma zlen_code_word g gen Zc c : 0 < Zc -> 2 <= ncols g -> 0 <= nrows g -> zlen (code_word g gen Zc c) = (nrows g + ncols g - 2) * Zc.
Proof.
  intros HZ Hn Hr. unfold code_word, parity_part. rewrite zlen_app, zlen_fmap. assert (HK : 2 * Zc <= ncols g * Zc) by nia. assert (HR : 0 <= nrows g * Zc) by nia.
  pose proof (zlen_info (ncols g * Zc) c ltac:(lia)) as Hi. unfold zlen in *. rewrite length_drop, length_seqZ. lia.
Qed.

#[local] Instance oai_code dec : @LdpcCode (oai_ldpc dec).
Proof.
  split.
  - intros BG Zc Kb K c HBG HZ. cbn [ldpc_encode oai_ldpc]. unfold oai_encode, N_of.
    destruct HBG as [-> | ->]; (rewrite zlen_code_word; [cbn [default graph_of nrows ncols]; reflexivity|done|vm_compute; congruence|vm_compute; congruence]).
  - intros BG Zc Kb K c. cbn [ldpc_encode oai_ldpc]. unfold oai_encode, code_word. apply Forall_app. split; [apply Forall_drop, info_bits|]. apply parity_part_bits. intros i.
    unfold oct. destruct (info _ c !! Z.to_nat i) as [x|] eqn:E; [|by left]. exact (Forall_lookup_1 _ _ _ _ (info_bits _ c) E).
  - intros BG Zc Kb K c i HBG HZ HK Hc Hl Hi. cbn [ldpc_encode oai_ldpc]. unfold oai_encode, code_word.
    assert (En : ncols (default (mk_graph 0 0 3 [] []) (graph_of BG)) * Zc = K) by (destruct HBG as [-> | ->]; rewrite HK; reflexivity). rewrite En.
    pose proof (zlen_info K c ltac:(lia)) as Hz. rewrite lookup_app_l, lookup_drop by (rewrite ?length_drop; unfold zlen in Hz; lia).
    replace (Z.to_nat (2 * Zc) + Z.to_nat i)%nat with (Z.to_nat (2 * Zc + i)) by lia. rewrite bits_lookup by lia. cbn [fmap option_fmap option_map].
    rewrite oct_lookup, info_oct by lia. done.
Defined.

(** ** Code blocks *)

Lemma lifting_generators : forallb (fun BG => forallb (fun Zc => bool_decide (is_Some (choose_generator_matrix BG Zc))) lifting_sizes) [1; 2] = true.
Proof. vm_compute. reflexivity. Qed.

Lemma lifting_generator BG Zc : BG = 1 \/ BG = 2 -> Zc ∈ lifting_sizes -> exists gen, choose_generator_matrix BG Zc = Some gen.
Proof.
  intros HBG HZ. pose proof lifting_generators as H. rewrite forallb_forall in H. specialize (H BG ltac:(destruct HBG as [-> | ->]; cbn; auto)). rewrite forallb_forall in H.
  specialize (H Zc ltac:(by apply list_elem_of_In)). by apply bool_decide_eq_true in H.
Qed.

Lemma oct_zero_bit c i : c !! Z.to_nat (i / 8) = Some 0 -> seg_bit c i = false.
Proof. intros H. unfold seg_bit, oct. rewrite H. apply Z.bits_0. Qed.

(** A code block has all bits the encoder reads, and zeros for the filler. *)
Lemma block_ready v n L Kp share old : zlen share = n -> L = (if C v >? 1 then 24 else 0) -> Kp = L + 8 * n -> 0 <= Kp <= K v ->
  K v / 8 <= zlen old -> K v mod 8 = 0 \/ old !! Z.to_nat (K v / 8) = Some 0 ->
  K v <= 8 * zlen (code_block v Kp share old) /\ forall i, Kp <= i < K v -> seg_bit (code_block v Kp share old) i = false.
Proof.
  intros Hs HL HK HKp Hold Hst. pose proof (length_seg_crc v share) as Hcr. pose proof (Z.div_mod (K v) 8 ltac:(lia)) as EK. pose proof (Z.mod_pos_bound (K v) 8 ltac:(lia)) as Hm.
  assert (E8 : Kp / 8 = zlen share + zlen (seg_crc v share)) by (rewrite Hs, Hcr, HK, HL; destruct (C v >? 1); Z.to_euclidean_division_equations; lia).
  assert (Hle : Kp / 8 <= K v / 8) by (apply Z.div_le_mono; lia).
  assert (Hlast : K v mod 8 <> 0 -> code_block v Kp share old !! Z.to_nat (K v / 8) = Some 0).
  { intros N. destruct Hst as [E|E]; [done|]. unfold code_block. rewrite !lookup_app_r, lookup_drop, ?length_replicate by (rewrite ?length_replicate; unfold zlen in *; lia).
    rewrite <- E. f_equal. unfold zlen in *. lia. }
  split.
  - destruct (Z.eq_dec (K v mod 8) 0) as [E|N].
    + unfold code_block. rewrite !zlen_app. unfold zlen in *. rewrite length_replicate, length_drop. lia.
    + specialize (Hlast N). apply lookup_lt_Some in Hlast. unfold zlen. lia.
  - intros i Hi. apply oct_zero_bit. assert (H1 : Kp / 8 <= i / 8) by (apply Z.div_le_mono; lia). assert (H2 : i / 8 <= K v / 8) by (apply Z.div_le_mono; lia).
    destruct (Z.lt_ge_cases (i / 8) (K v / 8)) as [Hlt|Hge]; [by apply (code_block_filler v n L)|].
    replace (i / 8) with (K v / 8) by lia. apply Hlast. pose proof (Z.mul_div_le i 8 ltac:(lia)). lia.
Qed.

(** The whole blocks fill columns [0 .. Kb). *)
Lemma columns_enough B BG v L Kp : seg_params B BG v L Kp -> Kp <= seg_Kb B BG * Zout v.
Proof. intros P. destruct (sp_Z _ _ _ _ _ P) as (_ & Hz & _). pose proof (seg_Kb_range B BG). pose proof (div_bounds (- Kp) (seg_Kb B BG) ltac:(lia)). nia. Qed.

Lemma segment_job_end Zc Kb k BG m c : job_end (mk_impl_params Zc Kb k BG m c) = Z.min c (8 * (m + 1)).
Proof. unfold job_end. cbn [n_segments macro_num]. destruct (Z.gtb_spec c (8 * (m + 1))); lia. Qed.

(** Job [m] on the code blocks of a transport block. *)
Lemma segment_job stack B BG v L Kp m input outs outs' d g gen : seg_params B BG v L Kp -> seg_input B BG v input outs ->
  (forall r old, 0 <= r < C v -> outs !! Z.to_nat r = Some old -> outs' !! Z.to_nat r = Some (code_block v Kp (seg_share input (B / C v / 8) r) old)) ->
  length outs' = length outs -> Forall (fun old => K v mod 8 = 0 \/ old !! Z.to_nat (K v / 8) = Some 0) outs ->
  graph_of BG = Some g -> ncols g = (if BG =? 1 then 22 else 10) -> choose_generator_matrix BG (Zout v) = Some gen ->
  (nrows g + ncols g - 2) * Zout v = N_of BG (Zout v) -> 0 <= m /\ 8 * m < C v -> zlen stack = 2 * 22 * Zout v * simd_size_of (Zout v) ->
  C v <= zlen d -> Forall (fun o => N_of BG (Zout v) <= zlen o) d ->
  job_ok stack outs' d (mk_impl_params (Zout v) (seg_Kb B BG) (K v) BG m (C v)) g gen.
Proof.
  intros P I Hin Hl Hst EG Enc Eg EN Hm Hstack Hd Hroom. pose proof (si_count _ _ _ _ _ I) as Hcount.
  constructor; rewrite ?segment_job_end; cbn [ip_BG ip_Zc ip_K ip_Kb macro_num n_segments].
  - exact EG.
  - exact Eg.
  - rewrite Enc. apply (sp_K _ _ _ _ _ P).
  - pose proof (seg_Kb_range B BG). lia.
  - exact Hm.
  - unfold zlen in *. lia.
  - exact Hstack.
  - intros j Hj. destruct (lookup_lt_is_Some_2 outs (Z.to_nat j)) as [old Ho]; [unfold zlen in *; lia|].
    assert (Es : seg outs' j = code_block v Kp (seg_share input (B / C v / 8) j) old) by (unfold seg; rewrite (Hin j old ltac:(lia) Ho); reflexivity). rewrite Es.
    destruct (si_octets _ _ _ _ _ I) as [n En]. pose proof (sp_count _ _ _ _ _ P) as Hc1. pose proof (sp_range _ _ _ _ _ P) as Hrg.
    pose proof (si_len _ _ _ _ _ I) as Hlen. pose proof (columns_enough _ _ _ _ _ P) as Hcols. assert (HKp : Kp = L + B / C v) by apply (sp_Kp _ _ _ _ _ P).
    assert (EB : B / C v = 8 * n) by (rewrite En; replace (n * (8 * C v)) with (8 * n * C v) by ring; apply Z.div_mul; lia).
    assert (E8 : B / C v / 8 = n) by (rewrite EB, Z.mul_comm; apply Z.div_mul; lia).
    assert (Hn0 : 0 <= n) by (assert (0 <= B / C v) by (rewrite EB; destruct (Z.lt_ge_cases n 0); [|lia]; pose proof (sp_L _ _ _ _ _ P) as HL; destruct (C v >? 1); lia); lia).
    destruct (block_ready v n L Kp (seg_share input (B / C v / 8) j) old) as [H1 H2].
    + rewrite E8. apply length_share; [exact Hn0|lia|nia].
    + apply (sp_L _ _ _ _ _ P).
    + rewrite HKp, EB. reflexivity.
    + lia.
    + exact (Forall_lookup_1 _ _ _ _ (si_room _ _ _ _ _ I) Ho).
    + exact (Forall_lookup_1 _ _ _ _ Hst Ho).
    + split; [exact H1|]. intros i Hi. apply H2. lia.
  - intros j Hj. rewrite EN. unfold seg. destruct (lookup_lt_is_Some_2 d (Z.to_nat j)) as [o Ho]; [unfold zlen in Hd; lia|]. rewrite Ho. exact (Forall_lookup_1 _ _ _ _ Hroom Ho).
Qed.
