(* ===== verification/LdpcProps.v ===== *)
(** * The LDPC encoder: theorems

    Both parity computations agree, what [LDPCencoder] writes are code words of the base graphs, and it
    is the encoder that the theorems on the downlink shared channel speak of. *)

From S2P Require Import Prelude RlcPdu Crc CrcProps Segmentation SegmentationProps Dlsch DlschTx LdpcTables Ldpc LdpcSpec LdpcEnc LdpcWord LdpcLink.

Import Crc Segmentation Dlsch LdpcTables Ldpc.

(** Sums over a word with the first columns in front. *)
Lemma word_split g gen Zc s : 0 < Zc -> take (Z.to_nat (2 * Zc)) (info (ncols g * Zc) s) ++ code_word g gen Zc s =
  info (ncols g * Zc) s ++ parity_part g gen Zc (ncols g) (info (ncols g * Zc) s).
Proof. intros HZ. unfold code_word. by rewrite app_assoc, take_drop. Qed.

Lemma take_octets (w o : bytes) n : zlen w = n -> n <= zlen o -> (forall k, 0 <= k < n -> oct o k = oct w k) -> take (Z.to_nat n) o = w.
Proof.
  intros Hw Ho H. apply oct_eq; [unfold zlen in *; rewrite length_take; lia|]. intros k Hk. assert (Hk' : k < n) by (unfold zlen in Hk, Ho; rewrite length_take in Hk; lia).
  rewrite <- H by lia. unfold oct. by rewrite lookup_take_lt by lia.
Qed.

(** The word that a job leaves in an output. *)
Lemma written_word stack input output ip g gen output' j : job_ok stack input output ip g gen ->
  written (8 * macro_num ip) (job_end ip) 0 ((nrows g + ncols g - 2) * ip_Zc ip) (fun j k => oct (code_word g gen (ip_Zc ip) (seg input j)) k) output output' ->
  8 * macro_num ip <= j < job_end ip ->
  take (Z.to_nat ((nrows g + ncols g - 2) * ip_Zc ip)) (seg output' j) = code_word g gen (ip_Zc ip) (seg input j) /\
    drop (Z.to_nat ((nrows g + ncols g - 2) * ip_Zc ip)) (seg output' j) = drop (Z.to_nat ((nrows g + ncols g - 2) * ip_Zc ip)) (seg output j).
Proof.
  intros J (_ & _ & W) Hj. destruct (W j Hj) as [Hl Ho]. pose proof (job_bounds _ _ _ _ _ _ J) as (HZ & Hms & Hme). pose proof (graph_dims _ _ (jo_graph _ _ _ _ _ _ J)) as Hd.
  pose proof (jo_output _ _ _ _ _ _ J j Hj) as Hroom. set (n := (nrows g + ncols g - 2) * ip_Zc ip) in *. assert (Hn : 0 <= n) by (unfold n; nia). split.
  - apply take_octets; [apply zlen_code_word; lia|lia|]. intros k Hk. rewrite Ho by lia. rewrite (proj2 (Z.leb_le 0 k)), (proj2 (Z.ltb_lt k _)) by lia. done.
  - apply oct_eq; [unfold zlen in *; rewrite !length_drop; lia|]. intros k Hk. unfold oct. rewrite !lookup_drop.
    replace (Z.to_nat n + Z.to_nat k)%nat with (Z.to_nat (n + k)) by lia. specialize (Ho (n + k) ltac:(lia)). rewrite (proj2 (Z.ltb_ge (n + k) _)), andb_false_r in Ho by lia. exact Ho.
Qed.

(** [C21] [LDPCencoder] writes code words: for every base graph and lifting size, with either parity computation, whatever the
    number of segments in the job, it returns 0; each segment's word, behind the [2 * Zc] information bits that are
    not sent, satisfies all parity checks of the base graph and starts with the other information bits; nothing else
    is written. *)
Theorem ldpc_encoder_code_words gen_code stack input output ip g gen : job_ok stack input output ip g gen ->
  let N := Z.to_nat ((nrows g + ncols g - 2) * ip_Zc ip) in
  exists output', LDPCencoder gen_code stack input output ip = Ok (0, output') /\
    (forall j, 8 * macro_num ip <= j < job_end ip -> let word := take N (seg output' j) in
      parity_checks (ip_BG ip) (ip_Zc ip) (take (Z.to_nat (2 * ip_Zc ip)) (info (ip_K ip) (seg input j)) ++ word) /\
      take (Z.to_nat (ip_K ip - 2 * ip_Zc ip)) word = drop (Z.to_nat (2 * ip_Zc ip)) (info (ip_K ip) (seg input j)) /\
      drop N (seg output' j) = drop N (seg output j)) /\
    forall j, 0 <= j -> ~ (8 * macro_num ip <= j < job_end ip) -> seg output' j = seg output j.
Proof.
  intros J N. destruct (encoder_spec gen_code _ _ _ _ _ _ J) as (output' & E & W). exists output'. split; [done|]. pose proof (job_bounds _ _ _ _ _ _ J) as (HZ & _).
  pose proof (jo_K _ _ _ _ _ _ J) as HK. pose proof (graph_dims _ _ (jo_graph _ _ _ _ _ _ J)) as Hd. split; [|apply W].
  intros j Hj. destruct (written_word _ _ _ _ _ _ _ j J W Hj) as [Hw Hrest]. fold N in Hw, Hrest. cbv zeta. rewrite Hw, HK.
  pose proof (zlen_info (ncols g * ip_Zc ip) (seg input j) ltac:(nia)) as Hi. split; [|split; [|done]].
  - rewrite word_split by done. apply (generator_checks _ _ g gen); [apply J|apply J|done].
  - unfold code_word. apply take_app_length'. rewrite length_drop. unfold zlen in Hi. lia.
Qed.

(** [C22] The vectors compute what the generator matrix says: for every lifting size with a kernel, the printed AVX2 and SSE
    kernels over the extended matrix and the step by step rotation give the same parity bits, and the rotation
    leaves the columns as they were. *)
Theorem ldpc_vector_parity gen_code BG Zc g Kb stack c d d' : graph_of BG = Some g -> Zc ∈ simd_sizes BG -> 0 <= Kb <= ncols g ->
  zlen c = ncols g * Zc -> zlen d = nrows g * Zc -> zlen d' = nrows g * Zc -> zlen stack = 2 * 22 * Zc * simd_size_of Zc ->
  (forall q, Kb * Zc <= q < ncols g * Zc -> oct c q = 0) ->
  exists p, encode_parity_check_part_optim gen_code stack c d BG Zc (simd_size_of Zc) (ncols g) = Ok p /\
    encode_parity_check_part_orig c d' BG Zc Kb (ncols g * Zc) = Ok (0, c, p).
Proof.
  intros Eg HZ HKb Hc Hd Hd' Hst Hz. destruct (simd_generator BG Zc HZ) as [gen Ec]. destruct (simd_sizes_ok BG Zc gen_code HZ) as (_ & _ & _ & Hsz & H72).
  exists (parity_part g gen Zc (ncols g) c). split.
  - apply parity_optim_spec; try done. rewrite Hst. destruct (graph_dims _ _ Eg) as [(_ & -> & _)|(_ & -> & _)]; nia.
  - rewrite (parity_orig_spec BG Zc g gen) by done. rewrite parity_zero_columns; [done|lia|done|done].
Qed.


(** ** Small instances *)

(** Two segments of 20 bits, of which six columns are used. *)
Definition demo_ip : impl_params := mk_impl_params 2 6 20 2 0 2.
Definition demo_segments : list bytes := [[0xa5; 0x30; 0]; [0xff; 0xf0; 0]].
Definition demo_words : list bytes := replicate 2 (replicate 101 7).
Definition demo_stack (Zc : Z) : bytes := replicate (Z.to_nat (2 * 22 * Zc * simd_size_of Zc)) 9.
Definition demo_graph : graph := mk_graph 42 10 5 no_shift_values_BG2 pointer_shift_values_BG2.
Definition demo_gen : list Z := default [] (choose_generator_matrix 2 2).

Lemma demo_job : job_ok (demo_stack 2) demo_segments demo_words demo_ip demo_graph demo_gen.
Proof.
  constructor.
  - reflexivity.
  - vm_compute. reflexivity.
  - reflexivity.
  - cbn. lia.
  - cbn. lia.
  - vm_compute. split; congruence.
  - vm_compute. reflexivity.
  - change (8 * macro_num demo_ip) with 0. change (job_end demo_ip) with 2. intros j Hj. assert (j = 0 \/ j = 1) as Ej by lia.
    assert (Hb : forall s, forallb (fun i => negb (seg_bit s i)) (seqZ 12 8) = true -> forall i, 12 <= i < 20 -> seg_bit s i = false).
    { intros s Hs i Hi. rewrite forallb_forall in Hs. specialize (Hs i ltac:(apply list_elem_of_In, elem_of_seqZ; lia)). by destruct (seg_bit s i). }
    change (ip_K demo_ip) with 20. change (ip_Kb demo_ip * ip_Zc demo_ip) with 12.
    destruct Ej as [-> | ->]; (split; [vm_compute; congruence|apply Hb; vm_compute; reflexivity]).
  - change (8 * macro_num demo_ip) with 0. change (job_end demo_ip) with 2. intros j Hj. assert (j = 0 \/ j = 1) as Ej by lia. destruct Ej as [-> | ->]; vm_compute; congruence.
Qed.

Lemma ldpc_encoder_code_words_witness : exists output', LDPCencoder 1 (demo_stack 2) demo_segments demo_words demo_ip = Ok (0, output') /\
  parity_checks 2 2 (take 4 (info 20 (seg demo_segments 1)) ++ take 100 (seg output' 1)) /\ drop 100 (seg output' 1) = [7].
Proof.
  destruct (ldpc_encoder_code_words 1 _ _ _ _ _ _ demo_job) as (output' & E & H & _). exists output'. split; [exact E|].
  destruct (H 1 ltac:(vm_compute; split; congruence)) as (H1 & _ & H3). split; [exact H1|exact H3].
Defined.

(** Lifting size 72: vectors of eight octets. *)
Definition demo_columns : bytes := (fun i => i mod 251) <$> seqZ 0 720.

Lemma ldpc_vector_parity_witness : exists p,
  encode_parity_check_part_optim 1 (demo_stack 72) demo_columns (replicate 3024 0) 2 72 16 10 = Ok p /\
  encode_parity_check_part_orig demo_columns (replicate 3024 0) 2 72 10 720 = Ok (0, demo_columns, p).
Proof.
  apply (ldpc_vector_parity 1 2 72 demo_graph 10 (demo_stack 72) demo_columns (replicate 3024 0) (replicate 3024 0)).
  - reflexivity.
  - apply (bool_decide_unpack _). vm_compute. exact I.
  - cbn. lia.
  - vm_compute. reflexivity.
  - vm_compute. reflexivity.
  - vm_compute. reflexivity.
  - vm_compute. reflexivity.
  - cbn [ncols demo_graph]. intros q Hq. lia.
Defined.

(** A transport block of three octets with its CRC in one segment. *)
Definition demo_block : bytes := [0x11; 0; 0xa5; 0x37; 0x90].
Definition demo_block_vars : seg_vars := mk_seg_vars 1 70 7 30.

