(* ===== verification/Mac.v ===== *)
(** * MAC: transport blocks of the downlink shared channel

    [src/openair2/LAYER2/NR_MAC_gNB/gNB_scheduler_dlsch.c]: the gNB fills a transport block with MAC
    control elements, RLC PDUs and padding; [src/openair2/LAYER2/NR_MAC_UE/nr_ue_procedures.c]: the UE takes it
    apart.  MAC calls RLC through the class [RlcMac]. *)

From S2P Require Import Prelude.

Module Mac.

(** ** RLC, as MAC sees it *)

(** [mac_rlc_data_req], [mac_rlc_data_ind] and [mac_rlc_status_ind] for one UE: logical channel, size, buffer;
    [mac_rlc_data_ind] has the index of the gNB first, [mac_rlc_data_req] the clock last. *)
Class RlcMac (St : Type) := {
  rlc_data_req : St -> Z -> Z -> bytes -> Z -> res (Z * bytes * St);
  rlc_data_ind : St -> Z -> Z -> bytes -> Z -> res St;
  rlc_status_ind : St -> Z -> res (Z * St) }.

(** ** Logical channels and octets *)

Definition DL_SCH_LCID_CCCH : Z := 0x00.
Definition DL_SCH_LCID_DTCH : Z := 0x04.
Definition DL_SCH_LCID_RECOMMENDED_BITRATE : Z := 0x2F.
Definition DL_SCH_LCID_SP_ZP_CSI_RS_RES_SET_ACT : Z := 0x30.
Definition DL_SCH_LCID_PUCCH_SPATIAL_RELATION_ACT : Z := 0x31.
Definition DL_SCH_LCID_SP_SRS_ACTIVATION : Z := 0x32.
Definition DL_SCH_LCID_SP_CSI_REP_PUCCH_ACT : Z := 0x33.
Definition DL_SCH_LCID_TCI_STATE_IND_UE_SPEC_PDCCH : Z := 0x34.
Definition DL_SCH_LCID_TCI_STATE_ACT_UE_SPEC_PDSCH : Z := 0x35.
Definition DL_SCH_LCID_APERIODIC_CSI_TRI_STATE_SUBSEL : Z := 0x36.
Definition DL_SCH_LCID_SP_CSI_RS_CSI_IM_RES_SET_ACT : Z := 0x37.
Definition DL_SCH_LCID_DUPLICATION_ACT : Z := 0x38.
Definition DL_SCH_LCID_SCell_ACT_4_OCT : Z := 0x39.
Definition DL_SCH_LCID_SCell_ACT_1_OCT : Z := 0x3A.
Definition DL_SCH_LCID_L_DRX : Z := 0x3B.
Definition DL_SCH_LCID_DRX : Z := 0x3C.
Definition DL_SCH_LCID_TA_COMMAND : Z := 0x3D.
Definition DL_SCH_LCID_CON_RES_ID : Z := 0x3E.
Definition DL_SCH_LCID_PADDING : Z := 0x3F.

(** An octet of bit fields, the lowest first: (width, value). *)
Fixpoint pack (l : list (Z * Z)) : Z :=
  match l with [] => 0 | (w, x) :: l => x mod 2 ^ w + 2 ^ w * pack l end.

Definition NR_MAC_SUBHEADER_FIXED (LCID : Z) : bytes := [pack [(6, LCID); (2, 0)]].
Definition NR_MAC_SUBHEADER_SHORT (LCID L : Z) : bytes := [pack [(6, LCID); (1, 0); (1, 0)]; u8 L].
(** [L] in network order *)
Definition NR_MAC_SUBHEADER_LONG (LCID L : Z) : bytes := [pack [(6, LCID); (1, 1); (1, 0)]; u16 L / 256; u16 L mod 256].

(** ** The gNB: control elements *)

Record sp_zp_csirs_t := mk_sp_zp_csirs { zp_is_scheduled : bool; zp_act_deact : bool; zp_serv_cell_id : Z; zp_bwpid : Z; zp_rsc_id : Z }.

Record csi_rs_im_t := mk_csi_rs_im {
  im_is_scheduled : bool; im_act_deact : bool; im_serv_cellid : Z; im_bwp_id : Z; im : bool; csi_im_rsc_id : Z;
  nzp_csi_rsc_id : Z; nb_tci_resource_set_id : Z; im_tci_state_id : list Z }.

Record pdcchStateInd_t := mk_pdcchStateInd { pi_is_scheduled : bool; pi_servingCellId : Z; coresetId : Z; tciStateId : Z }.

Record SPCSIReportingpucch_t := mk_SPCSIReportingpucch {
  sp_is_scheduled : bool; sp_servingCellId : Z; sp_bwpId : Z; s0tos3_actDeact : list bool }.

(** [aperiodicCSI_triggerStateSelection_t] and [pdschTciStatesActDeact_t]: [highest] is the highest state chosen. *)
Record selection_t := mk_selection { sel_is_scheduled : bool; sel_servingCellId : Z; sel_bwpId : Z; highest : Z; chosen : list bool }.

(** [NR_UE_sched_ctrl_t], the fields that are used here; [transm_interrupt] tells whether that timer is active. *)
Record sched_ctrl := mk_sched_ctrl {
  ta_apply : bool; ta_update : Z; ta_frame : Z;
  pdcch_state_ind : pdcchStateInd_t; SP_CSI_reporting_pucch : SPCSIReportingpucch_t;
  pdsch_TCI_States_ActDeact : selection_t; aperi_CSI_trigger : selection_t;
  sp_zp_csi_rs : sp_zp_csirs_t; csi_im : csi_rs_im_t;
  num_total_bytes : Z; bytes_in_buffer : list Z; lc_config : list Z; transm_interrupt : bool }.

#[export] Instance eta_sched_ctrl : Eta sched_ctrl := fun s =>
  mk_sched_ctrl (ta_apply s) (ta_update s) (ta_frame s) (pdcch_state_ind s) (SP_CSI_reporting_pucch s) (pdsch_TCI_States_ActDeact s)
    (aperi_CSI_trigger s) (sp_zp_csi_rs s) (csi_im s) (num_total_bytes s) (bytes_in_buffer s) (lc_config s) (transm_interrupt s).

(** [memcpy(mac_pdu_ptr, ...)] and [mac_pdu_ptr += ...]: the PDU and the position in it. *)
Definition put (b : bytes) (st : bytes * Z) : res (bytes * Z) :=
  pdu ← blit st.1 st.2 b; mret (pdu, st.2 + zlen b).

Definition when {A} (b : bool) (f : A -> res A) (a : A) : res A := if b then f a else mret a.

Definition NR_MAC_CE_TA (TA_COMMAND TAGID : Z) : bytes := [pack [(6, TA_COMMAND); (2, TAGID)]].

Definition write_ta (sc : sched_ctrl) (tag_Id : Z) (st : bytes * Z) : res (bytes * Z) :=
  st ← put (NR_MAC_SUBHEADER_FIXED DL_SCH_LCID_TA_COMMAND) st;
  if negb (ta_update sc <? 64) then Err Exit else put (NR_MAC_CE_TA (ta_update sc) tag_Id) st.

Definition NR_TCI_PDCCH (p : pdcchStateInd_t) : bytes :=
  [pack [(3, Z.shiftr (Z.land (coresetId p) 0xF) 1); (5, Z.land (pi_servingCellId p) 0x1F)];
   pack [(7, Z.land (tciStateId p) 0x7F); (1, Z.land (coresetId p) 1)]].

(** [R1] is not set: it is what the stack held. *)
Definition NR_PUCCH_CSI_REPORTING (r : SPCSIReportingpucch_t) (R1 : Z) : res bytes :=
  s0 ← rd (s0tos3_actDeact r) 0; s1 ← rd (s0tos3_actDeact r) 1; s2 ← rd (s0tos3_actDeact r) 2; s3 ← rd (s0tos3_actDeact r) 3;
  mret [pack [(2, Z.land (sp_bwpId r) 3); (5, Z.land (sp_servingCellId r) 0x1F); (1, R1)];
        pack [(1, b2z s0); (1, b2z s1); (1, b2z s2); (1, b2z s3); (4, 0)]].

(** [T], a bit for each chosen state *)
Definition selection_octets (s : selection_t) (num_octects : Z) : res bytes :=
  for_loop 0 (num_octects * 8) (fun i T =>
    b ← rd (chosen s) i;
    if (b : bool) then x ← rd T (i / 8); wr T (i / 8) (u8 (Z.lor x (Z.shiftl 1 (i mod 8)))) else mret T)
    (replicate (Z.to_nat num_octects) 0).

Definition write_selection (LCID : Z) (s : selection_t) (st : bytes * Z) : res (bytes * Z) :=
  let num_octects := u8 (highest s / 8 + 1) in
  st ← put (NR_MAC_SUBHEADER_SHORT LCID (1 + num_octects)) st;
  T ← selection_octets s num_octects;
  put (pack [(2, Z.land (sel_bwpId s) 3); (5, Z.land (sel_servingCellId s) 0x1F); (1, 0)] :: T) st.

Definition NR_MAC_CE_SP_ZP_CSI_RS_RES_SET (z : sp_zp_csirs_t) : bytes :=
  [pack [(2, Z.land (zp_bwpid z) 3); (5, Z.land (zp_serv_cell_id z) 0x1F); (1, b2z (zp_act_deact z))];
   pack [(4, Z.land (zp_rsc_id z) 0xF); (4, 0)]].

Definition CSI_RS_CSI_IM_ACT_DEACT_MAC_CE (c : csi_rs_im_t) : bytes :=
  [pack [(2, im_bwp_id c); (5, Z.land (im_serv_cellid c) 0x3F); (1, b2z (im_act_deact c))];
   pack [(6, nzp_csi_rsc_id c); (1, b2z (im c)); (1, 0)]] ++
  (if im c then [pack [(6, csi_im_rsc_id c); (2, 0)]] else []).

Definition write_csi_im (c : csi_rs_im_t) (st : bytes * Z) : res (bytes * Z) :=
  st ← put (NR_MAC_SUBHEADER_FIXED DL_SCH_LCID_SP_CSI_RS_CSI_IM_RES_SET_ACT) st;
  st ← put (CSI_RS_CSI_IM_ACT_DEACT_MAC_CE c) st;
  if im_act_deact c then
    for_loop 0 (nb_tci_resource_set_id c) (fun i st => x ← rd (im_tci_state_id c) i; put [pack [(6, Z.land x 0x7F); (2, 0)]] st) st
  else mret st.

(** Writes all control elements to the start of [mac_pdu] and returns how many octets they take; [R1] is a bit of an
    uninitialised variable, [tag_Id] the gNB's timing advance group. *)
Definition nr_write_ce_dlsch_pdu (sc : sched_ctrl) (tag_Id R1 : Z) (mac_pdu : bytes) (drx_cmd : Z) (ue_cont_res_id : option bytes) :
    res (Z * bytes) :=
  st ← when (negb (drx_cmd =? 255)) (put (NR_MAC_SUBHEADER_FIXED DL_SCH_LCID_DRX)) (mac_pdu, 0);
  st ← when (ta_apply sc) (write_ta sc tag_Id) st;
  st ← match ue_cont_res_id with
       | Some id => x ← slice id 0 6; st ← put (NR_MAC_SUBHEADER_FIXED DL_SCH_LCID_CON_RES_ID) st; put x st
       | None => mret st
       end;
  st ← when (pi_is_scheduled (pdcch_state_ind sc)) (fun st =>
         st ← put (NR_MAC_SUBHEADER_FIXED DL_SCH_LCID_TCI_STATE_IND_UE_SPEC_PDCCH) st;
         put (NR_TCI_PDCCH (pdcch_state_ind sc)) st) st;
  st ← when (sp_is_scheduled (SP_CSI_reporting_pucch sc)) (fun st =>
         st ← put (NR_MAC_SUBHEADER_FIXED DL_SCH_LCID_SP_CSI_REP_PUCCH_ACT) st;
         x ← NR_PUCCH_CSI_REPORTING (SP_CSI_reporting_pucch sc) R1;
         put x st) st;
  st ← when (sel_is_scheduled (pdsch_TCI_States_ActDeact sc))
         (write_selection DL_SCH_LCID_TCI_STATE_ACT_UE_SPEC_PDSCH (pdsch_TCI_States_ActDeact sc)) st;
  st ← when (sel_is_scheduled (aperi_CSI_trigger sc))
         (write_selection DL_SCH_LCID_APERIODIC_CSI_TRI_STATE_SUBSEL (aperi_CSI_trigger sc)) st;
  st ← when (zp_is_scheduled (sp_zp_csi_rs sc)) (fun st =>
         st ← put (NR_MAC_SUBHEADER_FIXED DL_SCH_LCID_SP_ZP_CSI_RS_RES_SET_ACT) st;
         put (NR_MAC_CE_SP_ZP_CSI_RS_RES_SET (sp_zp_csi_rs sc)) st) st;
  st ← when (im_is_scheduled (csi_im sc)) (write_csi_im (csi_im sc)) st;
  mret (st.2, st.1).

(** ** The gNB: a transport block *)

(** [NR_mac_dir_stats_t], the fields that change *)
Record dl_stats := mk_dl_stats {
  lc_bytes : list Z; total_bytes : Z; current_bytes : Z; total_rbs : Z; num_mac_sdu : Z; current_rbs : Z; total_sdu_bytes : Z }.

Section Gnb.

Context {St : Type} `{RlcMac St}.

(** Reads the buffer occupancy of the UE's logical channels. *)
Definition nr_store_dlsch_buffer (sc : sched_ctrl) (m : St) : res (sched_ctrl * St) :=
  foldl (fun acc lcid =>
    '(sc, m) ← acc;
    if (lcid =? DL_SCH_LCID_DTCH) && transm_interrupt sc then mret (sc, m)
    else
      '(n, m) ← rlc_status_ind m lcid;
      l ← wr (bytes_in_buffer sc) lcid n;
      let sc := sc <| bytes_in_buffer := l |> in
      mret (if n =? 0 then sc else sc <| num_total_bytes ::= fun t => u32 (t + n) |>, m))
    (mret (sc <| num_total_bytes := 0 |>, m)) (lc_config sc).

(** The block while it is filled: RLC, the octets, the next free one, data octets and SDUs so far. *)
Record filling := mk_filling { f_rlc : St; f_tb : bytes; f_buf : Z; f_bytes : Z; f_sdus : Z }.

(** [while (bufEnd-buf > sizeof(NR_MAC_SUBHEADER_LONG) + 1)]; a difference of pointers, converted to [size_t]. *)
Fixpoint pull (fuel : nat) (lcid avail bufEnd now : Z) (f : filling) : res filling :=
  if negb (u64 (bufEnd - f_buf f) >? 4) then mret f
  else match fuel with
  | O => Err Fuel
  | S fuel =>
      let ndata := Z.min avail (bufEnd - f_buf f - 3) in
      x ← slice (f_tb f) (f_buf f + 3) ndata;
      '(len, x, m) ← rlc_data_req (f_rlc f) lcid ndata x now;
      tb ← blit (f_tb f) (f_buf f + 3) x;
      if len =? 0 then mret (mk_filling m tb (f_buf f) (f_bytes f) (f_sdus f))
      else
        tb ← blit tb (f_buf f) (NR_MAC_SUBHEADER_LONG lcid len);
        pull fuel lcid avail bufEnd now (mk_filling m tb (f_buf f + len + 3) (f_bytes f + len) (f_sdus f + 1))
  end.

(** The loop over the logical channels. *)
Fixpoint pull_all (sc : sched_ctrl) (bufEnd now : Z) (lcids : list Z) (f : filling) (lc : list Z) : res (filling * list Z) :=
  match lcids with
  | [] => mret (f, lc)
  | lcid :: lcids =>
      n ← rd (bytes_in_buffer sc) lcid;
      if n =? 0 then pull_all sc bufEnd now lcids f lc
      else
        f' ← pull (Z.to_nat bufEnd) lcid n bufEnd now f;
        x ← rd lc lcid;
        lc ← wr lc lcid (u64 (x + (f_bytes f' - f_bytes f)));
        pull_all sc bufEnd now lcids f' lc
  end.

(** Random data behind a long padding header. *)
Definition fill_random (noise : Z -> Z) (bufEnd : Z) (f : filling) : res filling :=
  if u64 (bufEnd - f_buf f) >? 3 then
    let n := bufEnd - (f_buf f + 3) in
    tb ← blit (f_tb f) (f_buf f) (NR_MAC_SUBHEADER_LONG DL_SCH_LCID_PADDING n);
    tb ← blit tb (f_buf f + 3) ((fun i => u8 (noise i)) <$> seqZ 0 n);
    mret (mk_filling (f_rlc f) tb bufEnd (f_bytes f) (f_sdus f + 1))
  else mret f.

Definition add_padding (bufEnd : Z) (tb : bytes) (buf : Z) : res bytes :=
  if bufEnd - buf >? 0 then
    tb ← blit tb buf (NR_MAC_SUBHEADER_FIXED DL_SCH_LCID_PADDING);
    blit tb (buf + 1) (replicate (Z.to_nat (bufEnd - (buf + 1))) 0)
  else mret tb.

(** The initial transmission in [nr_schedule_ue_spec]: [tb] is [harq->transportBlock], of which [TBS] octets are filled;
    [random] stands for the modes that send random data.  The copy of the grant that is kept for retransmissions is left out. *)
Definition fill_transport_block (sc : sched_ctrl) (tag_Id R1 : Z) (random : bool) (noise : Z -> Z) (TBS rbSize frame now : Z)
    (m : St) (tb : bytes) (ds : dl_stats) : res (St * bytes * sched_ctrl * dl_stats) :=
  '(written, tb) ← nr_write_ce_dlsch_pdu sc tag_Id R1 tb 255 None;
  if negb (TBS >? written) then Err Exit
  else
    '(f, lc) ← (if num_total_bytes sc >? 0 then pull_all sc TBS now (lc_config sc) (mk_filling m tb written 0 0) (lc_bytes ds)
                else if random then f ← fill_random noise TBS (mk_filling m tb written 0 0); mret (f, lc_bytes ds)
                else mret (mk_filling m tb written 0 0, lc_bytes ds));
    tb ← add_padding TBS (f_tb f) (f_buf f);
    let ds := mk_dl_stats lc (u64 (total_bytes ds + TBS)) TBS (u32 (total_rbs ds + rbSize)) (u32 (num_mac_sdu ds + f_sdus f)) rbSize
                (u64 (total_sdu_bytes ds + f_bytes f)) in
    mret (f_rlc f, tb, if ta_apply sc then sc <| ta_apply := false |> <| ta_frame := frame |> else sc, ds).

End Gnb.

Arguments filling : clear implicits.
Arguments mk_filling {St}.
Arguments f_rlc {St}.
Arguments f_tb {St}.
Arguments f_buf {St}.
Arguments f_bytes {St}.
Arguments f_sdus {St}.

(** ** The UE *)

Inductive nrRA_UE_state_t :=
| nrRA_UE_IDLE | nrRA_GENERATE_PREAMBLE | nrRA_WAIT_RAR | nrRA_WAIT_MSGB | nrRA_WAIT_CONTENTION_RESOLUTION | nrRA_SUCCEEDED | nrRA_FAILED.

#[export] Instance ra_state_eq_dec : EqDecision nrRA_UE_state_t.
Proof. solve_decision. Defined.

(** [NR_timer_t]; [target] is not used here. *)
Record NR_timer_t := mk_timer { active : bool; counter : Z }.

Definition nr_timer_start (t : NR_timer_t) : NR_timer_t := mk_timer true 0.
Definition nr_timer_stop (t : NR_timer_t) : NR_timer_t := mk_timer false 0.

(** [RA_config_t]; [two_step] is [ra_type == RA_2_STEP], [Msg3_buffer] whether there is one. *)
Record RA_config_t := mk_ra {
  ra_state : nrRA_UE_state_t; cfra : bool; two_step : bool; RA_active : bool; cont_res_id : bytes; t_crnti : Z; RA_window_cnt : Z;
  RA_backoff_indicator : Z; msg3_C_RNTI : bool; Msg3_buffer : bool; contention_resolution_timer : NR_timer_t;
  MsgB_R : Z; MsgB_CH_ACESS_CPEXT : Z; MsgB_TPC : Z; MsgB_HARQ_FTI : Z; PUCCH_RI : Z; timing_advance_command : Z }.

#[export] Instance eta_ra : Eta RA_config_t := fun r =>
  mk_ra (ra_state r) (cfra r) (two_step r) (RA_active r) (cont_res_id r) (t_crnti r) (RA_window_cnt r) (RA_backoff_indicator r)
    (msg3_C_RNTI r) (Msg3_buffer r) (contention_resolution_timer r) (MsgB_R r) (MsgB_CH_ACESS_CPEXT r) (MsgB_TPC r) (MsgB_HARQ_FTI r)
    (PUCCH_RI r) (timing_advance_command r).

Inductive ta_type := no_ta | adjustment_ta | rar_ta.

Record NR_UL_TIME_ALIGNMENT := mk_ul_ta { ul_ta_apply : ta_type; ta_command : Z; ul_frame : Z; ul_slot : Z }.

(** [NR_UE_MAC_INST_t]: [koffset] is [cellSpecificKoffset_r17], [scs] that of the uplink bandwidth part, [ue_rlc] the RLC
    layer, [rrc_ra_ind] the messages to RRC about the random access. *)
Record ue_mac (St : Type) := mk_ue_mac {
  ra : RA_config_t; crnti : Z; connected : bool; ue_tag_Id : Z; ul_time_alignment : NR_UL_TIME_ALIGNMENT; time_alignment_timer : NR_timer_t;
  koffset : option Z; scs : Z; iq_player : bool; ue_rlc : St; rrc_ra_ind : list (Z * bool) }.

Arguments mk_ue_mac {St}.
Arguments ra {St}.
Arguments crnti {St}.
Arguments connected {St}.
Arguments ue_tag_Id {St}.
Arguments ul_time_alignment {St}.
Arguments time_alignment_timer {St}.
Arguments koffset {St}.
Arguments scs {St}.
Arguments iq_player {St}.
Arguments ue_rlc {St}.
Arguments rrc_ra_ind {St}.

#[export] Instance eta_ue_mac St : Eta (ue_mac St) := fun u =>
  mk_ue_mac (ra u) (crnti u) (connected u) (ue_tag_Id u) (ul_time_alignment u) (time_alignment_timer u) (koffset u) (scs u) (iq_player u)
    (ue_rlc u) (rrc_ra_ind u).

Definition nr_slots_per_frame : list Z := [10; 20; 40; 80; 160].

Definition get_NTN_UE_Koffset (cellSpecificKoffset_r17 : option Z) (scs : Z) : Z :=
  match cellSpecificKoffset_r17 with Some k => Z.shiftl k scs | None => 0 end.

Section Ue.

Context {St : Type} `{RlcMac St}.

Definition set_time_alignment (u : ue_mac St) (ta : Z) (type : ta_type) (frame slot : Z) : res (ue_mac St) :=
  let ntn_ue_koffset := get_NTN_UE_Koffset (koffset u) (scs u) in
  n_slots_frame ← rd nr_slots_per_frame (scs u);
  mret (u <| ul_time_alignment := mk_ul_ta type ta (Z.rem (frame + Z.quot (slot + ntn_ue_koffset) n_slots_frame) 0x400)
                                    (Z.rem (slot + ntn_ue_koffset) n_slots_frame) |>
          <| time_alignment_timer ::= nr_timer_start |>).

Definition check_ra_contention_resolution (u : ue_mac St) (pdu : bytes) : bool :=
  iq_player u || bool_decide (pdu = cont_res_id (ra u)).

Definition nr_ra_succeeded (u : ue_mac St) (frame : Z) : ue_mac St :=
  let u :=
    if cfra (ra u) then u <| ra ::= fun r => r <| RA_window_cnt := -1 |> |>
    else if two_step (ra u) then u <| crnti := t_crnti (ra u) |> <| ra ::= fun r => r <| t_crnti := 0 |> |>
    else u <| crnti := t_crnti (ra u) |>
           <| ra ::= fun r => r <| contention_resolution_timer ::= nr_timer_stop |> <| t_crnti := 0 |> |> in
  u <| ra ::= fun r => r <| RA_active := false |> <| msg3_C_RNTI := false |> <| ra_state := nrRA_SUCCEEDED |> <| Msg3_buffer := false |> |>
    <| connected := true |> <| rrc_ra_ind ::= fun l => l ++ [(frame, true)] |>.

(** What both places do with a contention resolution identity. *)
Definition resolve_contention (u : ue_mac St) (id : bytes) (frame : Z) : ue_mac St :=
  let ra_success := check_ra_contention_resolution u id in
  if RA_active (ra u) && ra_success then nr_ra_succeeded u frame
  else if negb ra_success then u <| ra ::= fun r => r <| ra_state := nrRA_UE_IDLE |> <| RA_active := false |> |>
  else u.

(** [while (n < pdu_len && E)] *)
Fixpoint successrar_loop (fuel : nat) (pduP : bytes) (pdu_len frame n : Z) (E : bool) (u : ue_mac St) : res (Z * ue_mac St) :=
  if negb ((n <? pdu_len) && E) then mret (n, u)
  else match fuel with
  | O => Err Fuel
  | S fuel =>
      x ← rd pduP n;
      let E := Z.testbit x 7 in
      if Z.testbit x 6 then Err Exit
      else if negb (Z.testbit x 5) then
        successrar_loop fuel pduP pdu_len frame (n + 1) E (u <| ra ::= fun r => r <| RA_backoff_indicator := Z.land x 0xF |> |>)
      else
        id ← slice pduP (n + 1) 6;
        o7 ← rd pduP (n + 7); o8 ← rd pduP (n + 8); o9 ← rd pduP (n + 9); o10 ← rd pduP (n + 10); o11 ← rd pduP (n + 11);
        let u := u <| ra ::= fun r => r <| MsgB_R := 0 |> <| MsgB_CH_ACESS_CPEXT := Z.land (Z.shiftr o7 5) 3 |>
          <| MsgB_TPC := Z.land (Z.shiftr o7 3) 3 |> <| MsgB_HARQ_FTI := Z.land o7 7 |> <| PUCCH_RI := Z.land (Z.shiftr o8 4) 0xF |>
          <| timing_advance_command := Z.lor (Z.shiftl (Z.land o8 0xF) 8) o9 |> <| t_crnti := Z.lor (Z.shiftl o10 8) o11 |> |> in
        successrar_loop fuel pduP pdu_len frame (n + 12) E (resolve_contention u id frame)
  end.

Definition nr_ue_validate_successrar (pduP : bytes) (pdu_len frame slot : Z) (u : ue_mac St) : res (Z * ue_mac St) :=
  '(n, u) ← successrar_loop (Z.to_nat pdu_len) pduP pdu_len frame 0 true u;
  x ← rd pduP 1;
  u ← set_time_alignment u (Z.land x 0x3F) adjustment_ta frame slot;
  mret (n, u).

(** [*mac_ce_len] and [*mac_subheader_len] are written before the last test; [pdu] is the memory from the subheader on. *)
Definition get_mac_len (pdu : bytes) (pdu_len mac_ce_len mac_subheader_len : Z) : res (bool * Z * Z) :=
  if pdu_len <? 2 then mret (false, mac_ce_len, mac_subheader_len)
  else
    h ← rd pdu 0;
    let F := Z.testbit h 6 in
    if F && (pdu_len <? 3) then mret (false, mac_ce_len, mac_subheader_len)
    else
      x ← rd pdu 1;
      '(sub, len) ← (if F then y ← rd pdu 2; mret (3, 256 * x + y) else mret (2, x));
      mret (negb (len >? pdu_len), len, sub).

(** What an iteration of the loop leaves: the lengths, [done], the state; [None] is [return]. *)
Definition skip (mac_subheader_len mac_len : Z) (u : ue_mac St) : res (option (Z * Z * bool * ue_mac St)) :=
  mret (Some (mac_subheader_len, mac_len, false, u)).

(** [DL_SCH_LCID_CCCH] *)
Definition process_ccch (gNB_index : Z) (pduP : bytes) (pdu_len : Z) (u : ue_mac St) : res (option (Z * Z * bool * ue_mac St)) :=
  '(ret, mac_len, mac_subheader_len) ← get_mac_len pduP pdu_len 0 1;
  if negb ret then Err Exit
  else
    x ← slice pduP 0 (mac_subheader_len + mac_len);
    if forallb (fun o => o =? 0) x then mret (Some (mac_subheader_len, mac_len, true, u))
    else if mac_len >? 0 then
      d ← slice pduP mac_subheader_len mac_len;
      m ← rlc_data_ind (ue_rlc u) gNB_index 0 d mac_len;
      skip mac_subheader_len mac_len (u <| ue_rlc := m |>)
    else skip mac_subheader_len mac_len u.

(** [DL_SCH_LCID_TA_COMMAND] *)
Definition process_ta (pduP : bytes) (frame slot : Z) (u : ue_mac St) : res (option (Z * Z * bool * ue_mac St)) :=
  x ← rd pduP 1;
  if negb (Z.shiftr x 6 =? ue_tag_Id u) then mret (Some (1, 1, true, u))
  else u ← set_time_alignment u (Z.land x 0x3F) adjustment_ta frame slot; skip 1 1 u.

(** A MAC SDU; the data go to RLC. *)
Definition process_sdu (gNB_index : Z) (pduP : bytes) (pdu_len rx_lcid : Z) (u : ue_mac St) : res (option (Z * Z * bool * ue_mac St)) :=
  '(ret, mac_len, mac_subheader_len) ← get_mac_len pduP pdu_len 0 1;
  if negb ret then mret None
  else
    d ← slice pduP mac_subheader_len mac_len;
    m ← rlc_data_ind (ue_rlc u) gNB_index rx_lcid d mac_len;
    skip mac_subheader_len mac_len (u <| ue_rlc := m |>).

(** The [switch] on the LCID. *)
Definition process_subpdu (gNB_index frame slot : Z) (pduP : bytes) (pdu_len : Z) (u : ue_mac St) :
    res (option (Z * Z * bool * ue_mac St)) :=
  h ← rd pduP 0;
  let rx_lcid := Z.land h 0x3F in
  if rx_lcid =? DL_SCH_LCID_CCCH then process_ccch gNB_index pduP pdu_len u
  else if (rx_lcid =? DL_SCH_LCID_TCI_STATE_ACT_UE_SPEC_PDSCH) || (rx_lcid =? DL_SCH_LCID_APERIODIC_CSI_TRI_STATE_SUBSEL)
       || (rx_lcid =? DL_SCH_LCID_SP_CSI_RS_CSI_IM_RES_SET_ACT) || (rx_lcid =? DL_SCH_LCID_SP_SRS_ACTIVATION) then
    '(_, mac_len, mac_subheader_len) ← get_mac_len pduP pdu_len 0 1; skip mac_subheader_len mac_len u
  else if (rx_lcid =? DL_SCH_LCID_RECOMMENDED_BITRATE) || (rx_lcid =? DL_SCH_LCID_SP_ZP_CSI_RS_RES_SET_ACT)
       || (rx_lcid =? DL_SCH_LCID_SP_CSI_REP_PUCCH_ACT) || (rx_lcid =? DL_SCH_LCID_TCI_STATE_IND_UE_SPEC_PDCCH) then skip 1 2 u
  else if rx_lcid =? DL_SCH_LCID_PUCCH_SPATIAL_RELATION_ACT then skip 1 3 u
  else if (rx_lcid =? DL_SCH_LCID_DUPLICATION_ACT) || (rx_lcid =? DL_SCH_LCID_SCell_ACT_1_OCT) then skip 1 1 u
  else if rx_lcid =? DL_SCH_LCID_SCell_ACT_4_OCT then skip 1 4 u
  else if (rx_lcid =? DL_SCH_LCID_L_DRX) || (rx_lcid =? DL_SCH_LCID_DRX) then skip 1 0 u
  else if rx_lcid =? DL_SCH_LCID_TA_COMMAND then process_ta pduP frame slot u
  else if rx_lcid =? DL_SCH_LCID_CON_RES_ID then
    if bool_decide (ra_state (ra u) = nrRA_WAIT_CONTENTION_RESOLUTION) then
      id ← slice pduP 1 6; skip 1 6 (resolve_contention u id frame)
    else skip 1 6 u
  else if rx_lcid =? DL_SCH_LCID_PADDING then mret (Some (1, 0, true, u))
  else if (1 <=? rx_lcid) && (rx_lcid <=? 32) then process_sdu gNB_index pduP pdu_len rx_lcid u
  else skip 1 0 u.

Fixpoint process_loop (fuel : nat) (gNB_index frame slot : Z) (pduP : bytes) (pdu_len : Z) (done : bool) (u : ue_mac St) : res (ue_mac St) :=
  if negb (negb done && (pdu_len >? 0)) then mret u
  else match fuel with
  | O => Err Fuel
  | S fuel =>
      r ← process_subpdu gNB_index frame slot pduP pdu_len u;
      match r with
      | None => mret u
      | Some (mac_subheader_len, mac_len, done, u) =>
          let n := mac_subheader_len + mac_len in
          process_loop fuel gNB_index frame slot (drop (Z.to_nat n) pduP) (pdu_len - n) done u
      end
  end.

(** [pdu] is the memory the PDU starts at, [None] for NULL; [pdu_len] its length. *)
Definition nr_ue_process_mac_pdu (gNB_index frame slot : Z) (pdu : option bytes) (pdu_len : Z) (u : ue_mac St) : res (ue_mac St) :=
  match pdu with
  | None => mret u
  | Some pduP =>
      '(n, u) ← (if two_step (ra u) && bool_decide (ra_state (ra u) = nrRA_WAIT_MSGB)
                 then nr_ue_validate_successrar pduP pdu_len frame slot u else mret (0, u));
      process_loop (Z.to_nat (pdu_len - n)) gNB_index frame slot (drop (Z.to_nat n) pduP) (pdu_len - n) false u
  end.

End Ue.

End Mac.
