(* ===== verification/MacPdu.v ===== *)
(** * MAC PDUs

    A MAC PDU is a sequence of subPDUs (TS 38.321, 6.1.2): what the gNB writes is the encoding of such a sequence, and the
    UE's loop does for each of them what it says. *)

From S2P Require Import Prelude Mac.

Import Mac.

(** ** SubPDUs *)

(** A control element of fixed size, one with a length, a MAC SDU, and padding to the end of the block. *)
Inductive subpdu :=
| Fixed (lcid : Z) (ce : bytes)
| Sized (lcid : Z) (ce : bytes)
| Sdu (lcid : Z) (data : bytes)
| Padding (n : Z).

Definition encode (s : subpdu) : bytes :=
  match s with
  | Fixed lcid ce => NR_MAC_SUBHEADER_FIXED lcid ++ ce
  | Sized lcid ce => NR_MAC_SUBHEADER_SHORT lcid (zlen ce) ++ ce
  | Sdu lcid data => NR_MAC_SUBHEADER_LONG lcid (zlen data) ++ data
  | Padding n => NR_MAC_SUBHEADER_FIXED DL_SCH_LCID_PADDING ++ replicate (Z.to_nat n) 0
  end.

Definition encode_all (l : list subpdu) : bytes := concat (encode <$> l).

Lemma encode_app l1 l2 : encode_all (l1 ++ l2) = encode_all l1 ++ encode_all l2.
Proof. unfold encode_all. by rewrite fmap_app, concat_app. Qed.

Lemma encode_one s : encode_all [s] = encode s.
Proof. unfold encode_all. cbn. apply app_nil_r. Qed.

(** The control elements that are of fixed size for the UE, with that size. *)
Definition ce_sizes : list (Z * Z) :=
  [(DL_SCH_LCID_RECOMMENDED_BITRATE, 2); (DL_SCH_LCID_SP_ZP_CSI_RS_RES_SET_ACT, 2); (DL_SCH_LCID_SP_CSI_REP_PUCCH_ACT, 2);
   (DL_SCH_LCID_TCI_STATE_IND_UE_SPEC_PDCCH, 2); (DL_SCH_LCID_PUCCH_SPATIAL_RELATION_ACT, 3); (DL_SCH_LCID_DUPLICATION_ACT, 1);
   (DL_SCH_LCID_SCell_ACT_1_OCT, 1); (DL_SCH_LCID_TA_COMMAND, 1); (DL_SCH_LCID_SCell_ACT_4_OCT, 4); (DL_SCH_LCID_L_DRX, 0); (DL_SCH_LCID_DRX, 0)].

(** Those with a length. *)
Definition sized_ces : list Z :=
  [DL_SCH_LCID_TCI_STATE_ACT_UE_SPEC_PDSCH; DL_SCH_LCID_APERIODIC_CSI_TRI_STATE_SUBSEL; DL_SCH_LCID_SP_CSI_RS_CSI_IM_RES_SET_ACT;
   DL_SCH_LCID_SP_SRS_ACTIVATION].

Definition well_formed (s : subpdu) : Prop :=
  match s with
  | Fixed lcid ce => (lcid, zlen ce) ∈ ce_sizes
  | Sized lcid ce => lcid ∈ sized_ces /\ zlen ce < 256
  | Sdu lcid data => 1 <= lcid <= 32 /\ zlen data < 2 ^ 16
  | Padding n => 0 <= n
  end.

(** ** What the UE does *)

Section Effects.

Context {St : Type} `{RlcMac St} (gNB_index frame slot : Z).

(** The UE after a subPDU; [None] when the rest of the block is ignored. *)
Definition effect (s : subpdu) (u : ue_mac St) : res (option (ue_mac St)) :=
  match s with
  | Fixed lcid ce =>
      if lcid =? DL_SCH_LCID_TA_COMMAND then
        let x := default 0 (head ce) in
        if Z.shiftr x 6 =? ue_tag_Id u then u ← set_time_alignment u (Z.land x 0x3F) adjustment_ta frame slot; mret (Some u)
        else mret None
      else mret (Some u)
  | Sized _ _ => mret (Some u)
  | Sdu lcid data => m ← rlc_data_ind (ue_rlc u) gNB_index lcid data (zlen data); mret (Some (u <| ue_rlc := m |>))
  | Padding _ => mret None
  end.

(** A sequence of subPDUs, and [k] on what they leave. *)
Fixpoint effects_then (l : list subpdu) (k : ue_mac St -> res (ue_mac St)) (u : ue_mac St) : res (ue_mac St) :=
  match l with
  | [] => k u
  | s :: l => r ← effect s u; match r with Some u => effects_then l k u | None => mret u end
  end.

Definition effects (l : list subpdu) (u : ue_mac St) : res (ue_mac St) := effects_then l mret u.

Lemma effects_then_app l l' k u : effects_then (l ++ l') k u = effects_then l (effects_then l' k) u.
Proof. revert u. induction l as [|s l IH]; intros u; [done|]. cbn [app effects_then]. destruct (effect s u) as [[u'|]|f]; [|done|done]. rewrite !bind_Ok. apply IH. Qed.

(** ** One subPDU at the head of the memory *)

Lemma rd_head {A} (x : A) l : rd (x :: l) 0 = Ok x.
Proof. done. Qed.

Lemma rd_second {A} (x y : A) l : rd (x :: y :: l) 1 = Ok y.
Proof. done. Qed.

Lemma rd_third {A} (x y z : A) l : rd (x :: y :: z :: l) 2 = Ok z.
Proof. done. Qed.

Lemma zlen_cons_pos {A} (x : A) l : 0 < zlen (x :: l).
Proof. rewrite zlen_cons. pose proof (zlen_nonneg l). lia. Qed.

(** The octets of the three subheaders, for all identities. *)
Lemma header_octets lcid : 0 <= lcid < 64 ->
  pack [(6, lcid); (2, 0)] = lcid /\ pack [(6, lcid); (1, 0); (1, 0)] = lcid /\ pack [(6, lcid); (1, 1); (1, 0)] = lcid + 64.
Proof. intros Hl. cbn [pack]. rewrite (Z.mod_small lcid) by lia. change (0 mod 2 ^ 2) with 0. change (0 mod 2 ^ 1) with 0. change (1 mod 2 ^ 1) with 1. lia. Qed.

Lemma header_lcid lcid : 0 <= lcid < 64 -> Z.land lcid 0x3F = lcid /\ Z.land (lcid + 64) 0x3F = lcid /\
  Z.testbit lcid 6 = false /\ Z.testbit (lcid + 64) 6 = true.
Proof.
  intros Hl. change 63 with (Z.ones 6). rewrite !Z.land_ones by lia. split; [by apply Z.mod_small|]. split; [|split].
  - replace (lcid + 64) with (lcid + 1 * 2 ^ 6) by lia. rewrite Z.mod_add by lia. by apply Z.mod_small.
  - apply (high_bits 6); lia.
  - replace (lcid + 64) with (lcid + 1 * 2 ^ 6) by lia. rewrite Z.testbit_odd, Z.shiftr_div_pow2 by lia. rewrite Z.div_add, Z.div_small by lia. done.
Qed.

Lemma slice_body (h ce rest : bytes) n k : zlen h = n -> zlen ce = k -> slice (h ++ ce ++ rest) n k = Ok ce.
Proof. intros <- <-. apply slice_mid. Qed.

(** A list given by its elements. *)
Ltac cases_of H := repeat (apply elem_of_cons in H as [H|H]); [..|by apply not_elem_of_nil in H].

Lemma fixed_step lcid ce rest pdu_len u : (lcid, zlen ce) ∈ ce_sizes ->
  process_subpdu gNB_index frame slot (encode (Fixed lcid ce) ++ rest) pdu_len u =
    r ← effect (Fixed lcid ce) u; match r with Some u => mret (Some (1, zlen ce, false, u)) | None => mret (Some (1, zlen ce, true, u)) end.
Proof.
  intros Hin. cbn [encode]. unfold NR_MAC_SUBHEADER_FIXED. cbn [app].
  cases_of Hin; injection Hin as -> En; rewrite ?En; try reflexivity.
  destruct ce as [|x [|y ce]]; [done| |unfold zlen in En; cbn in En; lia]. unfold process_subpdu. rewrite rd_head, bind_Ok.
  change (Z.land (pack [(6, DL_SCH_LCID_TA_COMMAND); (2, 0)]) 63) with DL_SCH_LCID_TA_COMMAND. cbn -[process_ta]. unfold process_ta. rewrite rd_second, bind_Ok.
  cbn [effect head default]. change (DL_SCH_LCID_TA_COMMAND =? DL_SCH_LCID_TA_COMMAND) with true. cbv iota. cbn [from_option id].
  destruct (Z.shiftr x 6 =? ue_tag_Id u); cbn [negb]; [|done]. unfold set_time_alignment. by destruct (rd nr_slots_per_frame (scs u)).
Qed.

Lemma sized_step lcid ce rest pdu_len u : lcid ∈ sized_ces -> zlen ce < 256 -> 2 + zlen ce <= pdu_len ->
  process_subpdu gNB_index frame slot (encode (Sized lcid ce) ++ rest) pdu_len u = mret (Some (2, zlen ce, false, u)).
Proof.
  intros Hin Hl Hp. cbn [encode]. unfold NR_MAC_SUBHEADER_SHORT, u8. rewrite Z.mod_small by (pose proof (zlen_nonneg ce); lia). cbn [app].
  assert (Hg : forall h, Z.testbit h 6 = false -> get_mac_len (h :: zlen ce :: ce ++ rest) pdu_len 0 1 = Ok (negb (zlen ce >? pdu_len), zlen ce, 2)).
  { intros h Hh. unfold get_mac_len. rewrite (proj2 (Z.ltb_ge pdu_len 2)) by (pose proof (zlen_nonneg ce); lia). rewrite rd_head, bind_Ok, Hh. cbn [andb]. rewrite rd_second, bind_Ok. done. }
  cases_of Hin; rewrite Hin; unfold process_subpdu; rewrite rd_head, bind_Ok; cbn -[get_mac_len]; (rewrite Hg; [done|reflexivity]).
Qed.

(** The LCIDs of the logical channels. *)
Lemma subpdu_sdu h rest pdu_len u lcid : Z.land h 0x3F = lcid -> 1 <= lcid <= 32 ->
  process_subpdu gNB_index frame slot (h :: rest) pdu_len u = process_sdu gNB_index (h :: rest) pdu_len lcid u.
Proof.
  intros El Hl. unfold process_subpdu. rewrite rd_head, bind_Ok. cbv zeta. rewrite El.
  unfold DL_SCH_LCID_CCCH, DL_SCH_LCID_TCI_STATE_ACT_UE_SPEC_PDSCH, DL_SCH_LCID_APERIODIC_CSI_TRI_STATE_SUBSEL, DL_SCH_LCID_SP_CSI_RS_CSI_IM_RES_SET_ACT, DL_SCH_LCID_SP_SRS_ACTIVATION,
    DL_SCH_LCID_RECOMMENDED_BITRATE, DL_SCH_LCID_SP_ZP_CSI_RS_RES_SET_ACT, DL_SCH_LCID_SP_CSI_REP_PUCCH_ACT, DL_SCH_LCID_TCI_STATE_IND_UE_SPEC_PDCCH, DL_SCH_LCID_PUCCH_SPATIAL_RELATION_ACT,
    DL_SCH_LCID_DUPLICATION_ACT, DL_SCH_LCID_SCell_ACT_1_OCT, DL_SCH_LCID_SCell_ACT_4_OCT, DL_SCH_LCID_L_DRX, DL_SCH_LCID_DRX, DL_SCH_LCID_TA_COMMAND, DL_SCH_LCID_CON_RES_ID, DL_SCH_LCID_PADDING.
  rewrite !(proj2 (Z.eqb_neq lcid _)) by lia. cbn [orb]. rewrite (proj2 (Z.leb_le 1 lcid)), (proj2 (Z.leb_le lcid 32)) by lia. cbn [andb]. done.
Qed.

Lemma sdu_step lcid d rest pdu_len u : 1 <= lcid <= 32 -> zlen d < 2 ^ 16 -> 3 + zlen d <= pdu_len ->
  process_subpdu gNB_index frame slot (encode (Sdu lcid d) ++ rest) pdu_len u =
    m ← rlc_data_ind (ue_rlc u) gNB_index lcid d (zlen d); mret (Some (3, zlen d, false, u <| ue_rlc := m |>)).
Proof.
  intros Hl Hd Hp. pose proof (zlen_nonneg d) as Hd0. cbn [encode]. unfold NR_MAC_SUBHEADER_LONG, u16. rewrite (Z.mod_small (zlen d) (2 ^ 16)) by lia.
  destruct (header_octets lcid ltac:(lia)) as (_ & _ & ->). destruct (header_lcid lcid ltac:(lia)) as (_ & El & _ & Eb). cbn [app].
  set (hi := zlen d / 256). set (lo := zlen d mod 256). assert (Ed : 256 * hi + lo = zlen d) by (unfold hi, lo; symmetry; apply Z.div_mod; lia).
  rewrite (subpdu_sdu _ _ _ _ lcid El Hl).
  unfold process_sdu, get_mac_len. rewrite (proj2 (Z.ltb_ge pdu_len 2)) by lia. rewrite rd_head, bind_Ok, Eb, (proj2 (Z.ltb_ge pdu_len 3)) by lia. cbn [andb].
  rewrite rd_second, bind_Ok, rd_third, bind_Ok, bind_Ok, bind_Ok, Ed. rewrite Z.gtb_ltb, (proj2 (Z.ltb_ge pdu_len (zlen d))) by lia. cbn [negb].
  change (lcid + 64 :: hi :: lo :: d ++ rest) with ([lcid + 64; hi; lo] ++ d ++ rest). rewrite (slice_body [lcid + 64; hi; lo] d rest 3 (zlen d)) by done. rewrite bind_Ok. done.
Qed.

Lemma zlen_encode s : zlen (encode s) = match s with Fixed _ ce => 1 + zlen ce | Sized _ ce => 2 + zlen ce | Sdu _ d => 3 + zlen d | Padding n => 1 + Z.of_nat (Z.to_nat n) end.
Proof. destruct s; cbn [encode]; rewrite zlen_app; try done. unfold zlen. rewrite length_replicate. done. Qed.

Lemma encode_pos s : 0 < zlen (encode s).
Proof. rewrite zlen_encode. destruct s as [l ce|l ce|l ce|n]; try (pose proof (zlen_nonneg ce)); lia. Qed.

(** One turn of the loop. *)
Lemma loop_step fuel s rest pdu_len u : well_formed s -> zlen (encode s) <= pdu_len ->
  process_loop (S fuel) gNB_index frame slot (encode s ++ rest) pdu_len false u =
    r ← effect s u;
    match r with
    | Some u => process_loop fuel gNB_index frame slot rest (pdu_len - zlen (encode s)) false u
    | None => mret u
    end.
Proof.
  intros Hw Hp. pose proof (zlen_encode s) as He. assert (Hpos : 0 < pdu_len) by (pose proof (encode_pos s); lia).
  assert (Hdrop : forall n, n = zlen (encode s) -> drop (Z.to_nat n) (encode s ++ rest) = rest) by (intros n ->; unfold zlen; rewrite Nat2Z.id; apply drop_app_length).
  cbn [process_loop negb andb]. rewrite Z.gtb_ltb, (proj2 (Z.ltb_lt 0 pdu_len) Hpos). cbn [negb].
  assert (Hdone : forall f n (p : bytes), process_loop f gNB_index frame slot p n true u = mret u) by (by intros [|f] n p).
  destruct s as [lcid ce|lcid ce|lcid d|n]; cbn [well_formed] in Hw.
  - rewrite fixed_step by done. destruct (effect (Fixed lcid ce) u) as [[u'|]|f] eqn:Ee; [|exact (Hdone _ _ _)|done].
    rewrite !bind_Ok. rewrite Hdrop by lia. by rewrite He.
  - destruct Hw as [Hin Hl]. rewrite sized_step by (done || lia). rewrite !bind_Ok. cbn [effect]. rewrite Hdrop by lia. rewrite He. done.
  - destruct Hw as [Hl Hd]. rewrite sdu_step by (done || lia). cbn [effect]. destruct (rlc_data_ind (ue_rlc u) gNB_index lcid d (zlen d)) as [m|f]; [|done].
    rewrite !bind_Ok. rewrite Hdrop by lia. rewrite He. done.
  - transitivity (process_loop fuel gNB_index frame slot (drop (Z.to_nat (1 + 0)) (encode (Padding n) ++ rest)) (pdu_len - (1 + 0)) true u); [reflexivity|apply Hdone].
Qed.

(** The subPDUs at the start of a block. *)
Lemma process_prefix subs : Forall well_formed subs -> forall fuel rest n u, 0 <= n ->
  process_loop (length subs + fuel) gNB_index frame slot (encode_all subs ++ rest) (zlen (encode_all subs) + n) false u =
    effects_then subs (process_loop fuel gNB_index frame slot rest n false) u.
Proof.
  induction 1 as [|s subs Hs _ IH]; intros fuel rest n u Hn; [done|].
  change (encode_all (s :: subs)) with (encode s ++ encode_all subs). rewrite <- app_assoc, zlen_app. cbn [length plus].
  rewrite loop_step by (done || (pose proof (zlen_nonneg (encode_all subs)); lia)). cbn [effects_then]. destruct (effect s u) as [[u'|]|f]; [|done|done].
  rewrite !bind_Ok. replace (zlen (encode s) + zlen (encode_all subs) + n - zlen (encode s)) with (zlen (encode_all subs) + n) by lia. by apply IH.
Qed.

(** The whole PDU. *)
Lemma process_all subs fuel rest u : Forall well_formed subs -> (length subs <= fuel)%nat ->
  process_loop fuel gNB_index frame slot (encode_all subs ++ rest) (zlen (encode_all subs)) false u = effects subs u.
Proof.
  intros Hw Hf. replace fuel with (length subs + (fuel - length subs))%nat by lia. rewrite <- (Z.add_0_r (zlen (encode_all subs))), process_prefix by (done || lia).
  unfold effects. clear Hw Hf. revert u. generalize (fuel - length subs)%nat. induction subs as [|s subs IH]; intros k u; [by destruct k|].
  cbn [effects_then]. destruct (effect s u) as [[u'|]|f]; [|done|done]. rewrite !bind_Ok. apply IH.
Qed.

Lemma subs_le_octets subs : Z.of_nat (length subs) <= zlen (encode_all subs).
Proof.
  induction subs as [|s subs IH]; [done|]. change (encode_all (s :: subs)) with (encode s ++ encode_all subs). rewrite zlen_app. cbn [length]. pose proof (encode_pos s). lia.
Qed.

(** When the UE does not wait for MsgB the whole block is for the loop. *)
Lemma process_no_msgb pduP pdu_len u : two_step (ra u) = false \/ ra_state (ra u) <> nrRA_WAIT_MSGB ->
  nr_ue_process_mac_pdu gNB_index frame slot (Some pduP) pdu_len u = process_loop (Z.to_nat pdu_len) gNB_index frame slot pduP pdu_len false u.
Proof.
  intros Hra. unfold nr_ue_process_mac_pdu. replace (two_step (ra u) && bool_decide (ra_state (ra u) = nrRA_WAIT_MSGB)) with false.
  - rewrite bind_Ok. by rewrite Z.sub_0_r.
  - destruct Hra as [-> | Hn]; [done|]. rewrite bool_decide_false by done. by rewrite andb_false_r.
Qed.

(** [nr_ue_process_mac_pdu] on the encoding of a sequence of subPDUs. *)
Lemma process_pdu subs rest u : Forall well_formed subs -> two_step (ra u) = false \/ ra_state (ra u) <> nrRA_WAIT_MSGB ->
  nr_ue_process_mac_pdu gNB_index frame slot (Some (encode_all subs ++ rest)) (zlen (encode_all subs)) u = effects subs u.
Proof.
  intros Hw Hra. rewrite process_no_msgb by done. apply process_all; [done|]. pose proof (subs_le_octets subs). lia.
Qed.

End Effects.
