(* ===== verification/MacAny.v ===== *)
(** * The UE on any octets

    Whatever a transport block holds, the loop of [nr_ue_process_mac_pdu] ends, and it reads at most six octets behind the
    block. *)

From S2P Require Import Prelude Mac MacPdu.

Import Mac.

Section Any.

Context {St : Type} `{RlcMac St} (gNB_index frame slot : Z).

(** How a computation ends: well, with the assertion on a CCCH message, or where RLC fails. *)
Definition ends_well {A} (P : A -> Prop) (r : res A) : Prop :=
  match r with
  | Ok a => P a
  | Err e => e = Exit \/ exists m lcid d, rlc_data_ind m gNB_index lcid d (zlen d) = Err e
  end.

Lemma ends_bind {A B} (P : A -> Prop) (Q : B -> Prop) (r : res A) (k : A -> res B) : ends_well P r -> (forall a, P a -> ends_well Q (k a)) -> ends_well Q (r ≫= k).
Proof. intros Hr Hk. destruct r as [a|e]; [by apply Hk|exact Hr]. Qed.

Lemma rd_any (b : bytes) i : Forall is_byte b -> 0 <= i < zlen b -> exists x, rd b i = Ok x /\ is_byte x.
Proof. intros Hb Hi. destruct (rd_ok b i Hi) as (x & E & Ex). exists x. split; [done|]. exact (Forall_lookup_1 _ _ _ _ Hb Ex). Qed.

Definition enough (pduP : bytes) (pdu_len : Z) : Prop := Forall is_byte pduP /\ 0 < pdu_len /\ pdu_len + 6 <= zlen pduP.

Lemma get_mac_len_any pduP pdu_len : enough pduP pdu_len -> exists ok len sub, get_mac_len pduP pdu_len 0 1 = Ok (ok, len, sub) /\ 0 <= len /\ 1 <= sub <= 3 /\ (ok = true -> len <= pdu_len).
Proof.
  intros (Hb & Hp & Hl). unfold get_mac_len. destruct (pdu_len <? 2); [by exists false, 0, 1|]. destruct (rd_any pduP 0 Hb ltac:(lia)) as (h & -> & _). rewrite bind_Ok.
  destruct (Z.testbit h 6 && (pdu_len <? 3)); [by exists false, 0, 1|]. destruct (rd_any pduP 1 Hb ltac:(lia)) as (x & -> & Hx). rewrite bind_Ok. destruct (rd_any pduP 2 Hb ltac:(lia)) as (y & Ey & Hy).
  unfold is_byte in *. destruct (Z.testbit h 6); [rewrite Ey, !bind_Ok|rewrite !bind_Ok].
  - exists (negb (256 * x + y >? pdu_len)), (256 * x + y), 3. split; [done|]. split; [lia|]. split; [lia|]. rewrite Z.gtb_ltb. destruct (Z.ltb_spec pdu_len (256 * x + y)); [done|lia].
  - exists (negb (x >? pdu_len)), x, 2. split; [done|]. split; [lia|]. split; [lia|]. rewrite Z.gtb_ltb. destruct (Z.ltb_spec pdu_len x); [done|lia].
Qed.

(** What an iteration leaves. *)
Definition good_turn (u : ue_mac St) (r : option (Z * Z * bool * ue_mac St)) : Prop :=
  match r with Some (sub, len, _, u') => 1 <= sub /\ 0 <= len /\ scs u' = scs u | None => True end.

Lemma skip_good (u u' : ue_mac St) sub len : 1 <= sub -> 0 <= len -> scs u' = scs u -> ends_well (good_turn u) (skip sub len u').
Proof. done. Qed.

Lemma done_good (u : ue_mac St) sub len : 1 <= sub -> 0 <= len -> ends_well (good_turn u) (mret (Some (sub, len, true, u))).
Proof. done. Qed.

Lemma to_rlc_good (u : ue_mac St) pduP lcid sub len (k : St -> ue_mac St) : 1 <= sub -> 0 <= len -> sub + len <= zlen pduP -> (forall m, scs (k m) = scs u) ->
  ends_well (good_turn u) (d ← slice pduP sub len; m ← rlc_data_ind (ue_rlc u) gNB_index lcid d len; skip sub len (k m)).
Proof.
  intros Hs Hl Hle Hk. destruct (slice pduP sub len) as [d|e] eqn:E.
  - rewrite bind_Ok. apply slice_zlen in E. destruct (rlc_data_ind (ue_rlc u) gNB_index lcid d len) as [m|e] eqn:Ei.
    + rewrite bind_Ok. by apply skip_good.
    + right. exists (ue_rlc u), lcid, d. by rewrite E.
  - rewrite slice_ok in E by lia. done.
Qed.

Lemma ta_good (u : ue_mac St) x : 0 <= scs u < 5 -> ends_well (good_turn u) (u ← set_time_alignment u x adjustment_ta frame slot; skip 1 1 u).
Proof. intros Hs. unfold set_time_alignment. destruct (rd_ok nr_slots_per_frame (scs u) Hs) as (n & -> & _). rewrite !bind_Ok. by apply skip_good. Qed.

Lemma resolve_scs (u : ue_mac St) id : scs (resolve_contention u id frame) = scs u.
Proof. unfold resolve_contention. case_if; [unfold nr_ra_succeeded; repeat case_if; done|]. by case_if. Qed.

Lemma subpdu_any (u : ue_mac St) pduP pdu_len : enough pduP pdu_len -> 0 <= scs u < 5 -> ends_well (good_turn u) (process_subpdu gNB_index frame slot pduP pdu_len u).
Proof.
  intros He Hs. pose proof He as (Hb & Hp & Hl). unfold process_subpdu. destruct (rd_any pduP 0 Hb ltac:(lia)) as (h & -> & _). rewrite bind_Ok. cbv zeta. set (lcid := Z.land h 63). clearbody lcid.
  destruct (get_mac_len_any pduP pdu_len He) as (ok & len & sub & Eg & Hlen & Hsub & Hok).
  case_if.
  { unfold process_ccch. rewrite Eg, bind_Ok. destruct ok; cbn [negb]; [|by left]. specialize (Hok eq_refl). rewrite (slice_ok pduP 0 (sub + len)) by lia. rewrite bind_Ok. case_if; [by apply done_good; [exact (proj1 Hsub)|exact Hlen]|].
    case_if; [|by apply skip_good; [exact (proj1 Hsub)|exact Hlen|]]. clear E E0 E1. apply to_rlc_good; [lia|lia|lia|done]. }
  clear E.
  case_if; [rewrite Eg, bind_Ok; apply skip_good; [exact (proj1 Hsub)|exact Hlen|reflexivity]|clear E].
  case_if; [by apply skip_good|clear E]. case_if; [by apply skip_good|clear E]. case_if; [by apply skip_good|clear E].
  case_if; [by apply skip_good|clear E]. case_if; [by apply skip_good|clear E].
  case_if.
  { unfold process_ta. destruct (rd_any pduP 1 Hb ltac:(lia)) as (x & -> & _). rewrite bind_Ok. case_if; [by apply done_good|]. by apply ta_good. }
  clear E.
  case_if.
  { case_if; [|by apply skip_good]. clear E E0. rewrite slice_ok by lia. rewrite bind_Ok. apply skip_good; [lia|lia|apply resolve_scs]. }
  clear E.
  case_if; [by apply done_good|clear E]. case_if; [clear E|by apply skip_good].
  unfold process_sdu. rewrite Eg, bind_Ok. destruct ok; cbn [negb]; [|done]. specialize (Hok eq_refl). apply to_rlc_good; [lia|lia|lia|done].
Qed.

Lemma loop_any fuel : forall pduP pdu_len done (u : ue_mac St), (0 < pdu_len -> enough pduP pdu_len) -> pdu_len <= Z.of_nat fuel -> 0 <= scs u < 5 ->
  ends_well (fun _ => True) (process_loop fuel gNB_index frame slot pduP pdu_len done u).
Proof.
  induction fuel as [|fuel IH]; intros pduP pdu_len dn u He Hf Hs; cbn [process_loop]; rewrite Z.gtb_ltb.
  - rewrite (proj2 (Z.ltb_ge 0 pdu_len)), andb_false_r by lia. exact I.
  - destruct dn; [exact I|]. cbn [negb andb]. destruct (Z.ltb_spec 0 pdu_len) as [Hpos|]; [|exact I]. cbn [negb]. specialize (He Hpos).
    apply (ends_bind (good_turn u)); [by apply subpdu_any|]. intros [[[[sub len] dn] u']|] Hg; [|exact I]. destruct Hg as (H1 & H2 & H3). apply IH; [|lia|lia].
    intros Hpos'. destruct He as (Hb & _ & Hl). split; [by apply Forall_drop|]. split; [done|]. unfold zlen in *. rewrite length_drop. lia.
Qed.

End Any.
