(* ===== verification/MacBlock.v ===== *)
(** * Filling a transport block

    What the gNB writes to a transport block is the encoding of its control elements, of the RLC PDUs it pulled and of
    padding. *)

From S2P Require Import Prelude Mac MacPdu.

Import Mac.

(** ** Writing behind what is there *)

(** The first octets are [w], and that is where the pointer is. *)
Definition wrote (N : Z) (w : bytes) (st : bytes * Z) : Prop := zlen st.1 = N /\ st.2 = zlen w /\ take (length w) st.1 = w.

Lemma take_blit (b w x : bytes) : take (length w) b = w -> zlen w + zlen x <= zlen b ->
  exists b', blit b (zlen w) x = Ok b' /\ zlen b' = zlen b /\ take (length (w ++ x)) b' = w ++ x.
Proof.
  intros Hw Hl. pose proof (zlen_nonneg w). rewrite blit_ok by lia. eexists. split; [reflexivity|].
  assert (E : take (Z.to_nat (zlen w)) b = w) by (unfold zlen; by rewrite Nat2Z.id). rewrite E. split.
  - rewrite !zlen_app. unfold zlen in *. rewrite length_drop. lia.
  - rewrite app_assoc. apply take_app_length.
Qed.

Lemma put_wrote N w st b : wrote N w st -> zlen w + zlen b <= N -> exists st', put b st = Ok st' /\ wrote N (w ++ b) st'.
Proof.
  destruct st as [pdu pos]. intros (Hl & Hp & Hw) Hb. cbn [fst snd] in *. unfold put. cbn [fst snd]. rewrite Hp.
  destruct (take_blit pdu w b Hw) as (pdu' & -> & Hl' & Hw'); [lia|]. rewrite bind_Ok. eexists. split; [reflexivity|]. split; [cbn; lia|]. split; [cbn; by rewrite zlen_app|done].
Qed.

(** ** Control elements *)

Definition sp_octets (r : SPCSIReportingpucch_t) (R1 : Z) : bytes := match NR_PUCCH_CSI_REPORTING r R1 with Ok x => x | Err _ => [] end.

Definition sel_octets (s : selection_t) : bytes :=
  match selection_octets s (u8 (highest s / 8 + 1)) with
  | Ok T => pack [(2, Z.land (sel_bwpId s) 3); (5, Z.land (sel_servingCellId s) 0x1F); (1, 0)] :: T
  | Err _ => []
  end.

Definition ce_when (b : bool) (s : subpdu) : list subpdu := if b then [s] else [].

Definition ce_list (sc : sched_ctrl) (tag_Id R1 : Z) : list subpdu :=
  ce_when (ta_apply sc) (Fixed DL_SCH_LCID_TA_COMMAND (NR_MAC_CE_TA (ta_update sc) tag_Id)) ++
  ce_when (pi_is_scheduled (pdcch_state_ind sc)) (Fixed DL_SCH_LCID_TCI_STATE_IND_UE_SPEC_PDCCH (NR_TCI_PDCCH (pdcch_state_ind sc))) ++
  ce_when (sp_is_scheduled (SP_CSI_reporting_pucch sc)) (Fixed DL_SCH_LCID_SP_CSI_REP_PUCCH_ACT (sp_octets (SP_CSI_reporting_pucch sc) R1)) ++
  ce_when (sel_is_scheduled (pdsch_TCI_States_ActDeact sc)) (Sized DL_SCH_LCID_TCI_STATE_ACT_UE_SPEC_PDSCH (sel_octets (pdsch_TCI_States_ActDeact sc))) ++
  ce_when (sel_is_scheduled (aperi_CSI_trigger sc)) (Sized DL_SCH_LCID_APERIODIC_CSI_TRI_STATE_SUBSEL (sel_octets (aperi_CSI_trigger sc))) ++
  ce_when (zp_is_scheduled (sp_zp_csi_rs sc)) (Fixed DL_SCH_LCID_SP_ZP_CSI_RS_RES_SET_ACT (NR_MAC_CE_SP_ZP_CSI_RS_RES_SET (sp_zp_csi_rs sc))).

(** The arrays have their sizes and the values are in range. *)
Record ce_ok (sc : sched_ctrl) : Prop := {
  ce_ta : ta_update sc < 64;
  ce_sp : zlen (s0tos3_actDeact (SP_CSI_reporting_pucch sc)) = 4;
  ce_pdsch : 0 <= highest (pdsch_TCI_States_ActDeact sc) < 128 /\ zlen (chosen (pdsch_TCI_States_ActDeact sc)) = 128;
  ce_trigger : 0 <= highest (aperi_CSI_trigger sc) < 128 /\ zlen (chosen (aperi_CSI_trigger sc)) = 128 }.

Lemma sp_octets_ok r R1 : zlen (s0tos3_actDeact r) = 4 -> NR_PUCCH_CSI_REPORTING r R1 = Ok (sp_octets r R1) /\ zlen (sp_octets r R1) = 2.
Proof.
  intros Hl. unfold sp_octets, NR_PUCCH_CSI_REPORTING. destruct (rd_ok (s0tos3_actDeact r) 0 ltac:(lia)) as (a & -> & _). rewrite bind_Ok.
  destruct (rd_ok (s0tos3_actDeact r) 1 ltac:(lia)) as (b & -> & _). rewrite bind_Ok. destruct (rd_ok (s0tos3_actDeact r) 2 ltac:(lia)) as (c & -> & _). rewrite bind_Ok.
  destruct (rd_ok (s0tos3_actDeact r) 3 ltac:(lia)) as (d & -> & _). rewrite bind_Ok. done.
Qed.

Lemma selection_ok s : 0 <= highest s < 128 -> zlen (chosen s) = 128 -> let n := u8 (highest s / 8 + 1) in
  1 <= n <= 16 /\ exists T, selection_octets s n = Ok T /\ zlen T = n.
Proof.
  intros Hh Hc n. assert (Hn : n = highest s / 8 + 1 /\ 1 <= n <= 16).
  { assert (0 <= highest s / 8 <= 15) by (split; [apply Z.div_pos; lia|apply Z.lt_succ_r, Z.div_lt_upper_bound; lia]). unfold n, u8. rewrite Z.mod_small by lia. lia. }
  split; [lia|]. unfold selection_octets.
  match goal with |- context [for_loop 0 _ ?body ?T0] => destruct (for_loop_inv (fun _ T => zlen T = n) 0 (n * 8) body T0) as (T & -> & HT) end; [lia| | |by exists T].
  - unfold zlen. rewrite length_replicate. lia.
  - intros i T Hi HT. destruct (rd_ok (chosen s) i ltac:(lia)) as (b & -> & _). rewrite bind_Ok. destruct b; [|by exists T].
    assert (0 <= i / 8 < zlen T) by (rewrite HT; split; [apply Z.div_pos; lia|apply Z.div_lt_upper_bound; lia]).
    destruct (rd_ok T (i / 8)) as (x & -> & _); [done|]. rewrite bind_Ok, wr_ok by done. eexists. split; [reflexivity|]. unfold zlen in *. by rewrite length_insert.
Qed.

Lemma sel_octets_ok s : 0 <= highest s < 128 -> zlen (chosen s) = 128 -> zlen (sel_octets s) = 1 + u8 (highest s / 8 + 1) /\ 2 <= zlen (sel_octets s) <= 17.
Proof.
  intros Hh Hc. destruct (selection_ok s Hh Hc) as [Hn (T & E & HT)]. unfold sel_octets. rewrite E, zlen_cons, HT. lia.
Qed.

Lemma encode_ce_when b s : encode_all (ce_when b s) = if b then encode s else [].
Proof. unfold ce_when. destruct b; [apply encode_one|done]. Qed.

Lemma ce_list_wf sc tag R1 : ce_ok sc -> Forall well_formed (ce_list sc tag R1) /\ zlen (encode_all (ce_list sc tag R1)) <= 50.
Proof.
  intros [Ht Hs Hp Ha]. destruct (sp_octets_ok _ R1 Hs) as [_ Hsp]. destruct (sel_octets_ok _ (proj1 Hp) (proj2 Hp)) as [_ Hsel1]. destruct (sel_octets_ok _ (proj1 Ha) (proj2 Ha)) as [_ Hsel2].
  assert (Hwhen : forall b s, well_formed s -> Forall well_formed (ce_when b s)) by (intros b s Hw; unfold ce_when; destruct b; [by constructor|constructor]). unfold ce_list. split.
  - repeat (apply Forall_app; split); apply Hwhen; cbn [well_formed].
    + unfold ce_sizes. set_solver.
    + unfold ce_sizes. set_solver.
    + rewrite Hsp. unfold ce_sizes. set_solver.
    + split; [unfold sized_ces; set_solver|lia].
    + split; [unfold sized_ces; set_solver|lia].
    + unfold ce_sizes. set_solver.
  - assert (Hlen : forall b s n, zlen (encode s) <= n -> 0 <= n -> zlen (encode_all (ce_when b s)) <= n) by (intros [] s n H0 H1; rewrite encode_ce_when; [done|change (zlen (@nil Z)) with 0; lia]).
    rewrite !encode_app, !zlen_app.
    pose proof (Hlen (ta_apply sc) (Fixed DL_SCH_LCID_TA_COMMAND (NR_MAC_CE_TA (ta_update sc) tag)) 2 ltac:(rewrite zlen_encode; unfold zlen; cbn; lia) ltac:(lia)).
    pose proof (Hlen (pi_is_scheduled (pdcch_state_ind sc)) (Fixed DL_SCH_LCID_TCI_STATE_IND_UE_SPEC_PDCCH (NR_TCI_PDCCH (pdcch_state_ind sc))) 3 ltac:(rewrite zlen_encode; unfold zlen; cbn; lia) ltac:(lia)).
    pose proof (Hlen (sp_is_scheduled (SP_CSI_reporting_pucch sc)) (Fixed DL_SCH_LCID_SP_CSI_REP_PUCCH_ACT (sp_octets (SP_CSI_reporting_pucch sc) R1)) 3 ltac:(rewrite zlen_encode; lia) ltac:(lia)).
    pose proof (Hlen (sel_is_scheduled (pdsch_TCI_States_ActDeact sc)) (Sized DL_SCH_LCID_TCI_STATE_ACT_UE_SPEC_PDSCH (sel_octets (pdsch_TCI_States_ActDeact sc))) 19 ltac:(rewrite zlen_encode; lia) ltac:(lia)).
    pose proof (Hlen (sel_is_scheduled (aperi_CSI_trigger sc)) (Sized DL_SCH_LCID_APERIODIC_CSI_TRI_STATE_SUBSEL (sel_octets (aperi_CSI_trigger sc))) 19 ltac:(rewrite zlen_encode; lia) ltac:(lia)).
    pose proof (Hlen (zp_is_scheduled (sp_zp_csi_rs sc)) (Fixed DL_SCH_LCID_SP_ZP_CSI_RS_RES_SET_ACT (NR_MAC_CE_SP_ZP_CSI_RS_RES_SET (sp_zp_csi_rs sc))) 3 ltac:(rewrite zlen_encode; unfold zlen; cbn; lia) ltac:(lia)).
    lia.
Qed.

Lemma write_ce_fixed N w lcid ce st : wrote N w st -> zlen w + zlen (encode (Fixed lcid ce)) <= N ->
  exists st', (st ← put (NR_MAC_SUBHEADER_FIXED lcid) st; put ce st) = Ok st' /\ wrote N (w ++ encode (Fixed lcid ce)) st'.
Proof.
  intros Hw Hl. cbn [encode] in *. rewrite zlen_app in Hl. pose proof (zlen_nonneg ce). destruct (put_wrote N w st (NR_MAC_SUBHEADER_FIXED lcid) Hw ltac:(lia)) as (st1 & -> & Hw1). rewrite bind_Ok.
  rewrite app_assoc. apply put_wrote; [done|]. rewrite zlen_app. lia.
Qed.

Lemma write_selection_spec N w lcid s st : 0 <= highest s < 128 -> zlen (chosen s) = 128 -> wrote N w st -> zlen w + zlen (encode (Sized lcid (sel_octets s))) <= N ->
  exists st', write_selection lcid s st = Ok st' /\ wrote N (w ++ encode (Sized lcid (sel_octets s))) st'.
Proof.
  intros Hh Hc Hw Hl. destruct (selection_ok s Hh Hc) as [Hn (T & E & HT)]. destruct (sel_octets_ok s Hh Hc) as [Hz _]. cbn [encode] in *. rewrite Hz in *. rewrite zlen_app, Hz in Hl.
  unfold write_selection. destruct (put_wrote N w st (NR_MAC_SUBHEADER_SHORT lcid (1 + u8 (highest s / 8 + 1))) Hw) as (st1 & -> & Hw1); [lia|]. rewrite bind_Ok, E, bind_Ok.
  unfold sel_octets in *. rewrite E in *. rewrite app_assoc. apply put_wrote; [done|]. rewrite zlen_app. lia.
Qed.

Lemma when_ce N w b f s st : wrote N w st -> zlen w + zlen (encode_all (ce_when b s)) <= N ->
  (zlen w + zlen (encode s) <= N -> exists st', f st = Ok st' /\ wrote N (w ++ encode s) st') ->
  exists st', when b f st = Ok st' /\ wrote N (w ++ encode_all (ce_when b s)) st'.
Proof. intros Hw Hl Hf. rewrite encode_ce_when in *. unfold when. destruct b; [by apply Hf|]. exists st. rewrite app_nil_r. done. Qed.

Ltac ce_next Hw s st' Hw' := match goal with |- context [when ?b ?f ?st] => destruct (when_ce _ _ b f s st Hw) as (st' & -> & Hw') end.

(** [nr_write_ce_dlsch_pdu] writes the control elements one behind the other, the CSI-IM element as the last. *)
Lemma write_ce_before sc tag R1 pdu : ce_ok sc -> 50 <= zlen pdu ->
  exists st, nr_write_ce_dlsch_pdu sc tag R1 pdu 255 None = (st ← when (im_is_scheduled (csi_im sc)) (write_csi_im (csi_im sc)) st; mret (st.2, st.1)) /\ wrote (zlen pdu) (encode_all (ce_list sc tag R1)) st.
Proof.
  intros Hok Hlen. destruct (ce_list_wf sc tag R1 Hok) as [_ H50]. pose proof Hok as [Ht Hs Hp Ha]. destruct (sp_octets_ok _ R1 Hs) as [Esp _].
  unfold nr_write_ce_dlsch_pdu. change (negb (255 =? 255)) with false. cbn [when]. rewrite bind_Ok.
  assert (Hw : wrote (zlen pdu) [] (pdu, 0)) by done. revert H50. unfold ce_list. rewrite !encode_app, !zlen_app. intros H50.
  repeat match type of H50 with context [zlen ?x] => lazymatch goal with _ : 0 <= zlen x |- _ => fail | _ => pose proof (zlen_nonneg x) end end.
  ce_next Hw (Fixed DL_SCH_LCID_TA_COMMAND (NR_MAC_CE_TA (ta_update sc) tag)) st1 Hw1; [change (zlen (@nil Z)) with 0; lia| |].
  { intros Hl. unfold write_ta. rewrite (proj2 (Z.ltb_lt _ 64)) by lia. cbn [negb]. by apply write_ce_fixed. }
  rewrite !bind_Ok. cbn [app] in Hw1.
  ce_next Hw1 (Fixed DL_SCH_LCID_TCI_STATE_IND_UE_SPEC_PDCCH (NR_TCI_PDCCH (pdcch_state_ind sc))) st2 Hw2; [lia|intros Hl; by apply write_ce_fixed|].
  rewrite bind_Ok.
  ce_next Hw2 (Fixed DL_SCH_LCID_SP_CSI_REP_PUCCH_ACT (sp_octets (SP_CSI_reporting_pucch sc) R1)) st3 Hw3; [rewrite zlen_app; lia| |].
  { intros Hl. rewrite Esp. destruct (write_ce_fixed _ _ _ _ _ Hw2 Hl) as (st' & E & W). exists st'. split; [|exact W]. rewrite <- E. by destruct (put _ st2). }
  rewrite bind_Ok.
  ce_next Hw3 (Sized DL_SCH_LCID_TCI_STATE_ACT_UE_SPEC_PDSCH (sel_octets (pdsch_TCI_States_ActDeact sc))) st4 Hw4; [rewrite !zlen_app; lia|intros Hl; apply write_selection_spec; [apply Hp|apply Hp|done|done]|].
  rewrite bind_Ok.
  ce_next Hw4 (Sized DL_SCH_LCID_APERIODIC_CSI_TRI_STATE_SUBSEL (sel_octets (aperi_CSI_trigger sc))) st5 Hw5; [rewrite !zlen_app; lia|intros Hl; apply write_selection_spec; [apply Ha|apply Ha|done|done]|].
  rewrite bind_Ok.
  ce_next Hw5 (Fixed DL_SCH_LCID_SP_ZP_CSI_RS_RES_SET_ACT (NR_MAC_CE_SP_ZP_CSI_RS_RES_SET (sp_zp_csi_rs sc))) st6 Hw6; [rewrite !zlen_app; lia|intros Hl; by apply write_ce_fixed|].
  rewrite bind_Ok. exists st6. split; [done|]. rewrite <- !app_assoc in Hw6. exact Hw6.
Qed.

Lemma write_ce_spec sc tag R1 pdu : ce_ok sc -> im_is_scheduled (csi_im sc) = false -> 50 <= zlen pdu ->
  exists st, nr_write_ce_dlsch_pdu sc tag R1 pdu 255 None = Ok (st.2, st.1) /\ wrote (zlen pdu) (encode_all (ce_list sc tag R1)) st.
Proof. intros Hok Him Hl. destruct (write_ce_before sc tag R1 pdu Hok Hl) as (st & -> & Hw). rewrite Him. by exists st. Qed.

(** The octets of the CSI-IM element behind its subheader. *)
Definition tci_octets (c : csi_rs_im_t) (n : Z) : bytes := (fun x => pack [(6, Z.land x 0x7F); (2, 0)]) <$> take (Z.to_nat n) (im_tci_state_id c).

Definition im_octets (c : csi_rs_im_t) : bytes :=
  CSI_RS_CSI_IM_ACT_DEACT_MAC_CE c ++ (if im_act_deact c then tci_octets c (nb_tci_resource_set_id c) else []).

Lemma tci_octets_S c i x : 0 <= i -> im_tci_state_id c !! Z.to_nat i = Some x -> tci_octets c (i + 1) = tci_octets c i ++ [pack [(6, Z.land x 0x7F); (2, 0)]].
Proof. intros Hi E. unfold tci_octets. replace (Z.to_nat (i + 1)) with (S (Z.to_nat i)) by lia. rewrite (take_S_r _ _ x E), fmap_app. done. Qed.

Lemma zlen_tci c n : 0 <= n <= zlen (im_tci_state_id c) -> zlen (tci_octets c n) = n.
Proof. intros Hn. unfold tci_octets, zlen in *. rewrite length_fmap, length_take. lia. Qed.

Lemma write_csi_im_spec N w c st : 0 <= nb_tci_resource_set_id c <= zlen (im_tci_state_id c) -> wrote N w st -> zlen w + 4 + nb_tci_resource_set_id c <= N ->
  exists st', write_csi_im c st = Ok st' /\ wrote N (w ++ encode (Fixed DL_SCH_LCID_SP_CSI_RS_CSI_IM_RES_SET_ACT (im_octets c))) st'.
Proof.
  intros Hn Hw Hl. unfold write_csi_im. cbn [encode]. set (h := NR_MAC_SUBHEADER_FIXED _). assert (Hh : zlen h = 1) by done.
  assert (Hx : 2 <= zlen (CSI_RS_CSI_IM_ACT_DEACT_MAC_CE c) <= 3) by (unfold CSI_RS_CSI_IM_ACT_DEACT_MAC_CE; rewrite zlen_app; change (zlen [_; _]) with 2; destruct (im c); [change (zlen [_]) with 1|change (zlen (@nil Z)) with 0]; lia).
  destruct (put_wrote N w st h Hw ltac:(lia)) as (st1 & -> & Hw1). rewrite bind_Ok. destruct (put_wrote N _ st1 (CSI_RS_CSI_IM_ACT_DEACT_MAC_CE c) Hw1 ltac:(rewrite zlen_app; lia)) as (st2 & -> & Hw2). rewrite bind_Ok.
  unfold im_octets. destruct (im_act_deact c); [|exists st2; rewrite app_nil_r, app_assoc; done].
  set (w2 := (w ++ h) ++ CSI_RS_CSI_IM_ACT_DEACT_MAC_CE c) in *. assert (Hl2 : zlen w2 + nb_tci_resource_set_id c <= N) by (unfold w2; rewrite !zlen_app; lia).
  match goal with |- context [for_loop 0 ?n ?body ?s0] => destruct (for_loop_inv (fun i st => wrote N (w2 ++ tci_octets c i) st) 0 n body s0) as (st3 & -> & Hw3); [lia| | |] end.
  - rewrite app_nil_r. exact Hw2.
  - intros i s Hi Hs. destruct (rd_ok (im_tci_state_id c) i ltac:(lia)) as (x & -> & Ex). rewrite bind_Ok, (tci_octets_S c i x), app_assoc by (done || lia). apply put_wrote; [done|].
    rewrite zlen_app, zlen_tci by lia. change (zlen [_]) with 1. lia.
  - exists st3. split; [done|]. rewrite !app_assoc. exact Hw3.
Qed.

(** ** RLC PDUs *)

(** What MAC relies on of RLC: it fills at most the octets it is given. *)
Class RlcMacLaws (St : Type) `{RlcMac St} :=
  data_req_bounds : forall m lcid n x now len x' m', 0 <= n -> zlen x = n -> rlc_data_req m lcid n x now = Ok (len, x', m') -> zlen x' = n /\ 0 <= len <= n.

Section Pull.

Context {St : Type} `{RlcMacLaws St} (chans : list Z) (now : Z).

(** A sequence of calls for the logical channels [chans], each with a buffer of the size asked for, and the PDUs they gave. *)
Inductive pulled : St -> list (Z * bytes) -> St -> Prop :=
| pulled_nil m : pulled m [] m
| pulled_pdu m lcid n x len x' m' l m'' : lcid ∈ chans -> 0 <= n -> zlen x = n -> rlc_data_req m lcid n x now = Ok (len, x', m') -> 0 < len -> pulled m' l m'' ->
    pulled m ((lcid, take (Z.to_nat len) x') :: l) m''
| pulled_none m lcid n x x' m' l m'' : lcid ∈ chans -> 0 <= n -> zlen x = n -> rlc_data_req m lcid n x now = Ok (0, x', m') -> pulled m' l m'' -> pulled m l m''.

Lemma pulled_app m l m' l' m'' : pulled m l m' -> pulled m' l' m'' -> pulled m (l ++ l') m''.
Proof. intros Hp. induction Hp as [|? ? ? ? ? ? ? ? ? Hc Hn Hx E Hl _ IH|? ? ? ? ? ? ? ? Hc Hn Hx E _ IH]; intros Hp'; [done|exact (pulled_pdu _ _ _ _ _ _ _ _ _ Hc Hn Hx E Hl (IH Hp'))|exact (pulled_none _ _ _ _ _ _ _ _ Hc Hn Hx E (IH Hp'))]. Qed.

(** After some calls RLC fails. *)
Definition rlc_fails (m : St) (e : fault) : Prop := exists l m' lcid n x, pulled m l m' /\ lcid ∈ chans /\ 0 <= n /\ zlen x = n /\ rlc_data_req m' lcid n x now = Err e.

Lemma rlc_fails_after m l m' e : pulled m l m' -> rlc_fails m' e -> rlc_fails m e.
Proof. intros Hp (l' & m'' & lcid & n & x & Hp' & E). exists (l ++ l'), m'', lcid, n, x. split; [by eapply pulled_app|done]. Qed.

Definition sdu_of_pdu (e : Z * bytes) : subpdu := Sdu e.1 e.2.

Definition data_bytes (l : list (Z * bytes)) : Z := foldr (fun e a => zlen e.2 + a) 0 l.

Lemma data_bytes_app l1 l2 : data_bytes (l1 ++ l2) = data_bytes l1 + data_bytes l2.
Proof. induction l1 as [|e l1 IH]; [done|]. change (data_bytes ((e :: l1) ++ l2)) with (zlen e.2 + data_bytes (l1 ++ l2)). change (data_bytes (e :: l1)) with (zlen e.2 + data_bytes l1). lia. Qed.

(** The block starts with [w], which ends before [bufEnd]. *)
Record filled (N bufEnd : Z) (w : bytes) (f : filling St) : Prop := {
  fl_len : zlen (f_tb f) = N;
  fl_buf : f_buf f = zlen w;
  fl_end : zlen w <= bufEnd;
  fl_tb : exists r, f_tb f = w ++ r }.

(** What a stretch of the loop does: [l] are the PDUs. *)
Record pulls (N bufEnd : Z) (w : bytes) (f : filling St) (l : list (Z * bytes)) (f' : filling St) : Prop := {
  pl_calls : pulled (f_rlc f) l (f_rlc f');
  pl_pdus : Forall (fun e => e.1 ∈ chans /\ 0 < zlen e.2 < 2 ^ 16) l;
  pl_filled : filled N bufEnd (w ++ encode_all (sdu_of_pdu <$> l)) f';
  pl_bytes : f_bytes f' = f_bytes f + data_bytes l;
  pl_sdus : f_sdus f' = f_sdus f + Z.of_nat (length l) }.

Lemma pull_step N bufEnd w lcid avail f : bufEnd <= N -> bufEnd < 2 ^ 16 -> 0 <= avail -> filled N bufEnd w f -> 4 < bufEnd - f_buf f ->
  let ndata := Z.min avail (bufEnd - f_buf f - 3) in
  exists x, slice (f_tb f) (f_buf f + 3) ndata = Ok x /\ zlen x = ndata /\
    forall len x' m, rlc_data_req (f_rlc f) lcid ndata x now = Ok (len, x', m) ->
      exists tb, blit (f_tb f) (f_buf f + 3) x' = Ok tb /\ filled N bufEnd w (mk_filling m tb (f_buf f) (f_bytes f) (f_sdus f)) /\
        (0 < len -> exists tb', blit tb (f_buf f) (NR_MAC_SUBHEADER_LONG lcid len) = Ok tb' /\ zlen (take (Z.to_nat len) x') = len /\ len < 2 ^ 16 /\
          filled N bufEnd (w ++ encode (Sdu lcid (take (Z.to_nat len) x'))) (mk_filling m tb' (f_buf f + len + 3) (f_bytes f + len) (f_sdus f + 1))).
Proof.
  intros Hb H16 Ha [Hl Hbuf Hend (r & Hr)] Hroom ndata. pose proof (zlen_nonneg w) as Hw0. assert (Hnd : 0 <= ndata <= bufEnd - f_buf f - 3) by (unfold ndata; lia).
  rewrite Hr, zlen_app in Hl. destruct (split_at r 3 ltac:(lia)) as (h0 & r1 & -> & Hh). rewrite zlen_app in Hl. destruct (split_at r1 ndata ltac:(lia)) as (d0 & r2 & -> & Hd). rewrite zlen_app in Hl.
  exists d0. rewrite Hr, Hbuf. split.
  { rewrite (app_assoc w h0). replace (zlen w + 3) with (zlen (w ++ h0)) by (rewrite zlen_app; lia). rewrite <- Hd. apply slice_mid. }
  split; [done|]. intros len x' m E. destruct (data_req_bounds _ _ _ _ _ _ _ _ (proj1 Hnd) Hd E) as [Hx Hlen].
  exists (w ++ h0 ++ x' ++ r2). split.
  { rewrite !(app_assoc w h0). replace (zlen w + 3) with (zlen (w ++ h0)) by (rewrite zlen_app; lia). apply blit_mid. lia. }
  split; [constructor; cbn [f_tb f_buf]; [rewrite !zlen_app; lia|lia|lia|by exists (h0 ++ x' ++ r2)]|].
  intros Hpos. assert (Ht : zlen (take (Z.to_nat len) x') = len) by (unfold zlen in *; rewrite length_take; lia).
  exists (w ++ NR_MAC_SUBHEADER_LONG lcid len ++ x' ++ r2). split; [apply blit_mid; rewrite Hh; reflexivity|]. split; [done|]. split; [lia|].
  constructor; cbn [f_tb f_buf].
  - rewrite !zlen_app. unfold zlen at 2. cbn [length NR_MAC_SUBHEADER_LONG]. lia.
  - rewrite zlen_app, zlen_encode, Ht. lia.
  - rewrite zlen_app, zlen_encode, Ht. lia.
  - exists (drop (Z.to_nat len) x' ++ r2). cbn [encode]. rewrite Ht, <- !app_assoc. f_equal. f_equal. rewrite app_assoc, take_drop. done.
Qed.

Lemma pulls_nil N bufEnd w f f' : pulled (f_rlc f) [] (f_rlc f') -> filled N bufEnd w f' -> f_bytes f' = f_bytes f -> f_sdus f' = f_sdus f -> pulls N bufEnd w f [] f'.
Proof. intros Hp Hf Hb Hs. constructor; [done|constructor|by rewrite app_nil_r|cbn; lia|cbn; lia]. Qed.

Lemma pulls_trans N bufEnd w f l f' l' f'' : pulls N bufEnd w f l f' -> pulls N bufEnd (w ++ encode_all (sdu_of_pdu <$> l)) f' l' f'' ->
  pulls N bufEnd w f (l ++ l') f''.
Proof.
  intros [C1 P1 F1 B1 S1] [C2 P2 F2 B2 S2]. constructor.
  - by eapply pulled_app.
  - by apply Forall_app.
  - rewrite fmap_app, encode_app, app_assoc. done.
  - rewrite data_bytes_app. lia.
  - rewrite length_app. lia.
Qed.

(** One logical channel. *)
Lemma pull_spec N bufEnd lcid avail : lcid ∈ chans -> bufEnd <= N -> bufEnd < 2 ^ 16 -> 0 <= avail -> forall fuel w f, filled N bufEnd w f -> bufEnd - f_buf f <= Z.of_nat fuel ->
  (exists l f', pull fuel lcid avail bufEnd now f = Ok f' /\ pulls N bufEnd w f l f') \/ (exists e, pull fuel lcid avail bufEnd now f = Err e /\ rlc_fails (f_rlc f) e).
Proof.
  intros Hc Hb H16 Ha fuel. induction fuel as [|fuel IH]; intros w f Hf Hfuel; pose proof Hf as [Hl Hbuf Hend _]; pose proof (zlen_nonneg w) as Hw0.
  all: assert (Eu : u64 (bufEnd - f_buf f) = bufEnd - f_buf f) by (unfold u64; apply Z.mod_small; lia); cbn [pull]; rewrite Eu, Z.gtb_ltb.
  - rewrite (proj2 (Z.ltb_ge 4 _)) by lia. left. exists [], f. split; [done|]. apply pulls_nil; [constructor|done|done|done].
  - destruct (Z.ltb_spec 4 (bufEnd - f_buf f)) as [Hroom|Hroom]; cbn [negb].
    2: { left. exists [], f. split; [done|]. apply pulls_nil; [constructor|done|done|done]. }
    destruct (pull_step N bufEnd w lcid avail f Hb H16 Ha Hf Hroom) as (x & -> & Hx & Hstep). rewrite bind_Ok.
    destruct (rlc_data_req (f_rlc f) lcid _ x now) as [[[len x'] m]|e] eqn:E.
    2: { right. exists e. split; [done|]. eexists [], (f_rlc f), lcid, _, x. split; [constructor|]. split; [done|]. split; [|split; [exact Hx|exact E]]. rewrite <- Hx. apply zlen_nonneg. }
    destruct (Hstep len x' m eq_refl) as (tb & Etb & Hf1 & Hpos). rewrite bind_Ok, Etb, bind_Ok. pose proof (zlen_nonneg x) as Hn0. rewrite Hx in Hn0. pose proof (data_req_bounds _ _ _ _ _ _ _ _ Hn0 Hx E) as [_ Hlen].
    destruct (Z.eqb_spec len 0) as [->|Hn].
    { left. eexists [], _. split; [reflexivity|]. apply pulls_nil; [exact (pulled_none _ _ _ _ _ _ _ _ Hc Hn0 Hx E (pulled_nil _))|done|done|done]. }
    destruct (Hpos ltac:(lia)) as (tb' & -> & Ht & Hl16 & Hf2). rewrite bind_Ok. set (f2 := mk_filling m tb' (f_buf f + len + 3) (f_bytes f + len) (f_sdus f + 1)) in *.
    assert (P1 : pulls N bufEnd w f [(lcid, take (Z.to_nat len) x')] f2).
    { constructor.
      - exact (pulled_pdu _ _ _ _ _ _ _ _ _ Hc Hn0 Hx E ltac:(lia) (pulled_nil _)).
      - constructor; [|constructor]. cbn [fst snd]. split; [done|lia].
      - change (sdu_of_pdu <$> [(lcid, take (Z.to_nat len) x')]) with [Sdu lcid (take (Z.to_nat len) x')]. rewrite encode_one. exact Hf2.
      - cbn [data_bytes foldr snd f_bytes f2]. lia.
      - done. }
    destruct (IH _ _ (pl_filled _ _ _ _ _ _ P1)) as [(l & f' & E' & P2)|(e & E' & F2)].
    + cbn [f_buf f2]. lia.
    + left. exists ((lcid, take (Z.to_nat len) x') :: l), f'. split; [done|]. exact (pulls_trans _ _ _ _ _ _ _ _ P1 P2).
    + right. exists e. split; [done|]. exact (rlc_fails_after _ _ _ _ (pl_calls _ _ _ _ _ _ P1) F2).
Qed.

(** All logical channels. *)
Lemma pull_all_spec N bufEnd sc : bufEnd <= N -> 0 <= bufEnd < 2 ^ 16 -> Forall (fun n => 0 <= n) (bytes_in_buffer sc) ->
  forall lcids lc w f, Forall (fun c => c ∈ chans /\ 0 <= c < zlen (bytes_in_buffer sc) /\ c < zlen lc) lcids -> filled N bufEnd w f ->
  (exists l f' lc', pull_all sc bufEnd now lcids f lc = Ok (f', lc') /\ pulls N bufEnd w f l f') \/
  (exists e, pull_all sc bufEnd now lcids f lc = Err e /\ rlc_fails (f_rlc f) e).
Proof.
  intros Hb H16 Hpos lcids. induction lcids as [|c lcids IH]; intros lc w f Hl Hf.
  - left. exists [], f, lc. split; [done|]. apply pulls_nil; [constructor|done|done|done].
  - inversion Hl as [|? ? (Hok & Hc & Hlc) Hl']; subst. cbn [pull_all]. destruct (rd_ok (bytes_in_buffer sc) c Hc) as (n & -> & En). rewrite bind_Ok.
    assert (Hn : 0 <= n) by exact (Forall_lookup_1 _ _ _ _ Hpos En). destruct (n =? 0); [by apply IH|].
    pose proof (fl_buf _ _ _ _ Hf) as Hbuf. pose proof (zlen_nonneg w) as Hw0.
    destruct (pull_spec N bufEnd c n Hok Hb ltac:(lia) Hn (Z.to_nat bufEnd) w f Hf ltac:(lia)) as [(l & f1 & -> & P1)|(e & -> & F1)]; [|right; by exists e].
    rewrite bind_Ok. destruct (rd_ok lc c ltac:(lia)) as (x & -> & _). rewrite bind_Ok, wr_ok, bind_Ok by lia.
    destruct (IH (<[Z.to_nat c := u64 (x + (f_bytes f1 - f_bytes f))]> lc) _ f1 ltac:(unfold zlen; rewrite length_insert; exact Hl') (pl_filled _ _ _ _ _ _ P1)) as [(l' & f2 & lc' & E2 & P2)|(e & E2 & F2)].
    + left. exists (l ++ l'), f2, lc'. split; [done|]. by eapply pulls_trans.
    + right. exists e. split; [done|]. by eapply rlc_fails_after, F2; apply P1.
Qed.

(** ** The whole block *)

Definition pad_to (w : bytes) (n : Z) : list subpdu := if zlen w <? n then [Padding (n - zlen w - 1)] else [].

Lemma add_padding_spec N bufEnd w f : bufEnd <= N -> filled N bufEnd w f ->
  exists tb, add_padding bufEnd (f_tb f) (f_buf f) = Ok tb /\ zlen tb = N /\ take (Z.to_nat bufEnd) tb = w ++ encode_all (pad_to w bufEnd).
Proof.
  intros Hb [Hl Hbuf Hend (r & Hr)]. pose proof (zlen_nonneg w) as Hw0. unfold add_padding, pad_to. rewrite Hbuf, Hr, Z.gtb_ltb. rewrite Hr, zlen_app in Hl. destruct (Z.ltb_spec (zlen w) bufEnd) as [H1|H1].
  - rewrite (proj2 (Z.ltb_lt 0 _)) by lia. destruct (split_at r 1 ltac:(lia)) as (h & r1 & -> & Hh). rewrite zlen_app in Hl.
    destruct (split_at r1 (bufEnd - (zlen w + 1)) ltac:(lia)) as (z & r2 & -> & Hz). rewrite zlen_app in Hl. rewrite blit_mid by (rewrite Hh; reflexivity). rewrite bind_Ok.
    set (hd := NR_MAC_SUBHEADER_FIXED DL_SCH_LCID_PADDING). assert (Hhd : zlen hd = 1) by done.
    rewrite (app_assoc w hd). replace (zlen w + 1) with (zlen (w ++ hd)) by (rewrite zlen_app; lia). rewrite blit_mid by (unfold zlen in *; rewrite length_replicate, ?length_app; lia).
    assert (Hlr : zlen (replicate (Z.to_nat (bufEnd - zlen (w ++ hd))) 0) = bufEnd - zlen w - 1) by (rewrite zlen_app, Hhd; unfold zlen; rewrite length_replicate; unfold zlen in *; lia).
    replace (Padding (bufEnd - zlen w - 1)) with (Padding (bufEnd - zlen (w ++ hd))) by (rewrite zlen_app, Hhd; f_equal; lia). rewrite encode_one. cbn [encode]. fold hd.
    set (zz := replicate _ 0) in *. eexists. split; [reflexivity|]. split; [rewrite !zlen_app, Hlr, Hhd; lia|]. rewrite <- app_assoc, !(app_assoc w), (app_assoc (w ++ hd)). apply take_app_length'.
    unfold zlen in *. rewrite !length_app. lia.
  - rewrite (proj2 (Z.ltb_ge 0 _)) by lia. exists (w ++ r). split; [done|]. split; [rewrite zlen_app; lia|]. rewrite app_nil_r. apply take_app_length'. unfold zlen in *. lia.
Qed.

End Pull.

Section Block.

Context {St : Type} `{RlcMacLaws St} (now : Z).

(** What [nr_schedule_ue_spec] has when it fills a block. *)
Record block_ok (sc : sched_ctrl) (TBS : Z) (tb : bytes) (ds : dl_stats) : Prop := {
  bk_ce : ce_ok sc;
  bk_len : 50 <= zlen tb /\ TBS <= zlen tb;
  bk_TBS : TBS < 2 ^ 16;
  bk_lcs : Forall (fun c => 1 <= c <= 32 /\ 0 <= c < zlen (bytes_in_buffer sc) /\ c < zlen (lc_bytes ds)) (lc_config sc);
  bk_buffers : Forall (fun n => 0 <= n) (bytes_in_buffer sc) }.

(** Behind the control elements [ces]: the PDUs that RLC gave, and padding; nothing fails but RLC. *)
Lemma fill_behind sc tag R1 noise TBS rbSize frame m tb ds ces st : block_ok sc TBS tb ds -> zlen ces < TBS ->
  nr_write_ce_dlsch_pdu sc tag R1 tb 255 None = Ok (st.2, st.1) -> wrote (zlen tb) ces st ->
  (exists l m' tb' sc' ds', fill_transport_block sc tag R1 false noise TBS rbSize frame now m tb ds = Ok (m', tb', sc', ds') /\
     pulled (lc_config sc) now m l m' /\ Forall (fun e => 1 <= e.1 <= 32 /\ 0 < zlen e.2 < 2 ^ 16) l /\ zlen tb' = zlen tb /\
     take (Z.to_nat TBS) tb' = ces ++ encode_all (sdu_of_pdu <$> l) ++ encode_all (pad_to (ces ++ encode_all (sdu_of_pdu <$> l)) TBS) /\
     num_mac_sdu ds' = u32 (num_mac_sdu ds + Z.of_nat (length l)) /\ total_sdu_bytes ds' = u64 (total_sdu_bytes ds + data_bytes l)) \/
  (exists e, fill_transport_block sc tag R1 false noise TBS rbSize frame now m tb ds = Err e /\ rlc_fails (lc_config sc) now m e).
Proof.
  intros [Hce [H50 Hlen] HTBS Hlcs Hbuf] Hces Ew Hw. destruct st as [tb1 pos]. unfold fill_transport_block. rewrite Ew, bind_Ok. cbn [fst snd].
  destruct Hw as (Hl1 & Hp1 & Ht1). cbn [fst snd] in Hl1, Hp1, Ht1. pose proof (zlen_nonneg ces) as Hc0. rewrite Hp1, Z.gtb_ltb, (proj2 (Z.ltb_lt _ TBS)) by lia. cbn [negb].
  set (f0 := mk_filling m tb1 (zlen ces) 0 0).
  assert (Hf0 : filled (zlen tb) TBS ces f0) by (constructor; cbn; [done|done|lia|exists (drop (length ces) tb1); rewrite <- Ht1 at 1; symmetry; apply take_drop]).
  assert (Hlcs' : Forall (fun c => c ∈ lc_config sc /\ 0 <= c < zlen (bytes_in_buffer sc) /\ c < zlen (lc_bytes ds)) (lc_config sc)).
  { apply Forall_forall. intros c Hc. split; [done|]. by apply (proj1 (Forall_forall _ _) Hlcs c Hc). }
  assert (Hmid : (exists l f lc, (if num_total_bytes sc >? 0 then pull_all sc TBS now (lc_config sc) f0 (lc_bytes ds) else mret (f0, lc_bytes ds)) = Ok (f, lc) /\
      pulls (lc_config sc) now (zlen tb) TBS ces f0 l f) \/
    (exists e, (if num_total_bytes sc >? 0 then pull_all sc TBS now (lc_config sc) f0 (lc_bytes ds) else mret (f0, lc_bytes ds)) = Err e /\ rlc_fails (lc_config sc) now m e)).
  { destruct (num_total_bytes sc >? 0).
    - destruct (pull_all_spec (lc_config sc) now (zlen tb) TBS sc Hlen ltac:(lia) Hbuf (lc_config sc) (lc_bytes ds) ces f0 Hlcs' Hf0) as [(l & f & lc & E & P)|(e & E & F)]; [left; by exists l, f, lc|right; by exists e].
    - left. exists [], f0, (lc_bytes ds). split; [done|]. apply pulls_nil; [constructor|done|done|done]. }
  destruct Hmid as [(l & f & lc & -> & P)|(e & -> & F)]; [|right; by exists e]. left. rewrite bind_Ok.
  destruct (add_padding_spec _ _ _ _ Hlen (pl_filled _ _ _ _ _ _ _ _ P)) as (tb' & -> & Hl' & Ht'). rewrite bind_Ok.
  exists l, (f_rlc f), tb'. do 2 eexists. split; [reflexivity|]. split; [apply P|].
  split. { eapply Forall_impl; [exact (pl_pdus _ _ _ _ _ _ _ _ P)|]. intros e [He1 He2]. split; [|done]. by apply (proj1 (Forall_forall _ _) Hlcs e.1 He1). } split; [done|]. split; [|split].
  - rewrite Ht', <- app_assoc. done.
  - cbn [num_mac_sdu]. by rewrite (pl_sdus _ _ _ _ _ _ _ _ P).
  - cbn [total_sdu_bytes]. by rewrite (pl_bytes _ _ _ _ _ _ _ _ P).
Qed.

Definition block_of (sc : sched_ctrl) (tag_Id R1 TBS : Z) (l : list (Z * bytes)) : list subpdu :=
  let body := ce_list sc tag_Id R1 ++ (sdu_of_pdu <$> l) in body ++ pad_to (encode_all body) TBS.

(** Without the CSI-IM element the block is the encoding of a sequence of subPDUs. *)
Lemma fill_spec sc tag R1 noise TBS rbSize frame m tb ds : block_ok sc TBS tb ds -> im_is_scheduled (csi_im sc) = false ->
  zlen (encode_all (ce_list sc tag R1)) < TBS ->
  (exists l m' tb' sc' ds', fill_transport_block sc tag R1 false noise TBS rbSize frame now m tb ds = Ok (m', tb', sc', ds') /\
     pulled (lc_config sc) now m l m' /\ Forall (fun e => 1 <= e.1 <= 32 /\ 0 < zlen e.2 < 2 ^ 16) l /\ zlen tb' = zlen tb /\
     take (Z.to_nat TBS) tb' = encode_all (block_of sc tag R1 TBS l) /\
     num_mac_sdu ds' = u32 (num_mac_sdu ds + Z.of_nat (length l)) /\ total_sdu_bytes ds' = u64 (total_sdu_bytes ds + data_bytes l)) \/
  (exists e, fill_transport_block sc tag R1 false noise TBS rbSize frame now m tb ds = Err e /\ rlc_fails (lc_config sc) now m e).
Proof.
  intros Hok Him Hces. destruct (write_ce_spec sc tag R1 tb (bk_ce _ _ _ _ Hok) Him (proj1 (bk_len _ _ _ _ Hok))) as (st & Ew & Hw).
  unfold block_of. setoid_rewrite encode_app. setoid_rewrite encode_app. setoid_rewrite <- app_assoc. by eapply fill_behind.
Qed.

End Block.
