(* ===== verification/MacRlc.v ===== *)
(** * RLC below MAC

    The entry points of [nr_rlc_oai_api.c] are an instance of what MAC calls, and they keep what MAC relies on: a PDU
    fits the octets it was asked for, in all three modes. *)

From S2P Require Import Prelude RlcPdu RlcSdu TimeStat RlcEntity RlcTm RlcUm RlcAm RlcAmStatus RlcAmEntity RlcBearer RlcApi RlcApiProps.
From S2P Require Import Sdap WorkQueue Mac MacPdu MacBlock.

Import Mac.

(** ** The encoder stays inside its buffer *)

Definition inside (n : Z) (en : nr_rlc_pdu_encoder_t) : Prop := zlen (e_buffer en) = n /\ 0 <= e_byte en <= n.

Lemma wr_zlen {A} (b : list A) i v b' : wr b i v = Ok b' -> zlen b' = zlen b /\ 0 <= i < zlen b.
Proof. unfold wr. case_if; intros; inv_res. bool_prop. split; [unfold zlen; by rewrite length_insert|lia]. Qed.

Lemma put_bit_inside n en bit en' : put_bit en bit = Ok en' -> inside n en -> inside n en'.
Proof.
  unfold put_bit. intros H [Hl Hb]. case_if_in H; [done|]. apply bind_ok in H as (v & _ & H). apply bind_ok in H as (b & Hw & H). apply wr_zlen in Hw as [Hz Hr].
  apply mret_ok in H. subst en'. unfold inside. cbn [e_bit e_buffer e_byte eta_encoder setter]. destruct (_ =? 8); cbn; lia.
Qed.

Lemma put_loop_inside n k : forall value x en en', put_bits_loop k value x en = Ok en' -> inside n en -> inside n en'.
Proof.
  induction k as [|k IH]; intros value x en en' H Hi; cbn [put_bits_loop] in H; [by apply mret_ok in H as <-|].
  apply bind_ok in H as (e1 & H1 & H). eapply IH; [exact H|]. by eapply put_bit_inside.
Qed.

Lemma put_bits_inside n en value count en' : nr_rlc_pdu_encoder_put_bits en value count = Ok en' -> inside n en -> inside n en'.
Proof. unfold nr_rlc_pdu_encoder_put_bits. intros H. case_if_in H; [done|]. case_if_in H; [done|]. intros Hi. exact (put_loop_inside n _ _ _ _ _ H Hi). Qed.

Lemma init_inside n b size : zlen b = n -> inside n (nr_rlc_pdu_encoder_init b size).
Proof. intros Hb. pose proof (zlen_nonneg b). split; cbn; lia. Qed.

(** [inside_all]: follow the encoder through the steps of a function. *)
Ltac inside_all := repeat match goal with
  | H : inside ?n ?en, E : nr_rlc_pdu_encoder_put_bits ?en _ _ = Ok _ |- _ => apply (put_bits_inside n) in E; [|exact H]; clear H
  | E : (if ?b then nr_rlc_pdu_encoder_put_bits _ _ _ else _) = Ok _ |- _ => destruct b
  | E : mret _ = Ok _ |- _ => apply mret_ok in E
  end.

Lemma blit_end {A} (b src : list A) off b' : blit b off src = Ok b' -> 0 <= off /\ off + zlen src <= zlen b /\ zlen b' = zlen b.
Proof. intros H. pose proof (blit_zlen _ _ _ _ H). unfold blit in H. case_if_in H; [|done]. bool_prop. lia. Qed.

Definition fits (n : Z) (r : Z) (b : bytes) : Prop := zlen b = n /\ 0 <= r <= n.

Lemma um_serialize_fits e s b size n r b' : Um.serialize_sdu e s b size = Ok (r, b') -> zlen b = n -> fits n r b'.
Proof.
  unfold Um.serialize_sdu. cbv zeta. intros H Hb. pose proof (init_inside n b size Hb) as I0. apply bind_ok in H as (e1 & E1 & H). apply bind_ok in H as (e2 & E2 & H).
  apply bind_ok in H as (d & _ & H). apply bind_ok in H as (e3 & E3 & H). apply bind_ok in H as (e4 & E4 & H). apply bind_ok in H as (src & Es & H). apply bind_ok in H as (b1 & Eb & H).
  apply mret_ok in H. injection H as <- <-. apply slice_zlen in Es as Hsz. apply slice_inv in Es as Hs. apply blit_end in Eb as (H1 & H2 & H3).
  assert (I3 : inside n e3).
  { clear E4. destruct (seg_is_first s && seg_is_last s); [inside_all; done|]. apply bind_ok in E3 as (e5 & E5 & E3). destruct (_ =? 12); inside_all; subst; inside_all; done. }
  clear E1 E2 E3. assert (I4 : inside n e4) by (destruct (negb _); inside_all; subst; done). destruct I4 as [L4 _]. split; lia.
Qed.

Lemma um_generate_fits e b size now n r b' e' : Um.nr_rlc_entity_um_generate_pdu e b size now = Ok (r, b', e') -> zlen b = n -> fits n r b'.
Proof.
  unfold Um.nr_rlc_entity_um_generate_pdu, Um.generate_tx_pdu. intros H Hb. pose proof (zlen_nonneg b) as H0. assert (Hnil : fits n 0 b) by (split; lia).
  assert (Hsend : forall e s r b' e', Um.send_segment e s b size now = Ok (r, b', e') -> fits n r b').
  { clear H. intros e0 s r0 b0 e0' H. unfold Um.send_segment in H. apply bind_ok in H as ([r1 b1] & E1 & H). apply bind_ok in H as (d & _ & H). apply bind_ok in H as (c & _ & H).
    apply bind_ok in H as ([? ?] & _ & H). apply mret_ok in H. injection H as <- <- _. by eapply um_serialize_fits. }
  destruct (Um.tx_list e) as [|s rest]; [by apply mret_ok in H; injection H as <- <- _|]. case_if_in H; [by apply mret_ok in H; injection H as <- <- _|].
  apply bind_ok in H as (h & _ & H). case_if_in H; [|by eapply Hsend]. apply bind_ok in H as ([[[s1 s2]|] e1] & _ & H); [by eapply Hsend|by apply mret_ok in H; injection H as <- <- _].
Qed.

Lemma tm_generate_fits e b size now n r b' e' : Tm.nr_rlc_entity_tm_generate_pdu e b size now = Ok (r, b', e') -> zlen b = n -> fits n r b'.
Proof.
  unfold Tm.nr_rlc_entity_tm_generate_pdu, Tm.generate_tx_pdu. intros H Hb. pose proof (zlen_nonneg b) as H0. assert (Hnil : fits n 0 b) by (split; lia).
  destruct (Tm.tx_list e) as [|s rest]; [by apply mret_ok in H; injection H as <- <- _|]. case_if_in H; [by apply mret_ok in H; injection H as <- <- _|].
  apply bind_ok in H as (d & _ & H). apply bind_ok in H as (src & Es & H). apply bind_ok in H as (b1 & Eb & H). apply bind_ok in H as (c & _ & H). apply bind_ok in H as ([? ?] & _ & H).
  apply mret_ok in H. injection H as <- <- _. apply slice_zlen in Es as Hsz. apply blit_end in Eb as (H1 & H2 & H3). pose proof (zlen_nonneg src). split; lia.
Qed.

(** ** Acknowledged mode *)

Lemma am_serialize_fits e s b size p n r b' e' : Am.serialize_sdu e s b size p = Ok (r, b', e') -> zlen b = n -> fits n r b'.
Proof.
  unfold Am.serialize_sdu. cbv zeta. intros H Hb. pose proof (init_inside n b size Hb) as I0. apply bind_ok in H as (e1 & E1 & H). apply bind_ok in H as (e2 & E2 & H).
  apply bind_ok in H as (e3 & E3 & H). apply bind_ok in H as (e4 & E4 & H). apply bind_ok in H as (e5 & E5 & H). apply bind_ok in H as (d & _ & H). apply bind_ok in H as (e6 & E6 & H).
  apply bind_ok in H as (e7 & E7 & H). apply bind_ok in H as (src & Es & H). apply bind_ok in H as (b1 & Eb & H). apply bind_ok in H as ([e8 b2] & Ep & H). apply mret_ok in H. injection H as <- <- _.
  assert (I4 : inside n e4) by (clear E5 E6 E7; inside_all; done). clear E1 E2 E3 E4 I0. assert (I5 : inside n e5) by (clear E6 E7; destruct (_ =? 18); inside_all; subst; done). clear E5 I4.
  assert (I7 : inside n e7) by (destruct (negb _); inside_all; subst; done). clear E6 E7. apply slice_zlen in Es. pose proof (zlen_nonneg src). apply blit_end in Eb as (H1 & H2 & H3). destruct I7 as [L7 _].
  assert (H4 : zlen b2 = zlen b1).
  { destruct p; [|by apply mret_ok in Ep; injection Ep as _ <-]. unfold Am.include_poll in Ep. apply bind_ok in Ep as (v & _ & Ep). apply bind_ok in Ep as (b3 & Ew & Ep). apply mret_ok in Ep.
    injection Ep as _ <-. by apply wr_zlen in Ew as [-> _]. }
  split; lia.
Qed.

(** A STATUS PDU: the encoder again, with a bit set and octets overwritten behind it. *)
Definition g_inside (n : Z) (g : AmStatus.gen) : Prop := inside n (AmStatus.g_encoder g).

Lemma put_nack_inside n e b c g g' last : AmStatus.put_nack e b c g = Ok (g', last) -> g_inside n g -> g_inside n g'.
Proof.
  unfold AmStatus.put_nack, g_inside. intros H [Hl Hb]. apply bind_ok in H as (v & _ & H). apply bind_ok in H as (buf & Ew & H). apply wr_zlen in Ew as [Ew _].
  set (en := _ <| e_buffer := buf |>) in H. assert (I0 : inside n en) by (split; cbn; lia). clearbody en. destruct (AmStatus.get_e1_position e en) as [e1b e1i].
  apply bind_ok in H as (e1 & E1 & H). apply bind_ok in H as (e2 & E2 & H). apply bind_ok in H as (e3 & E3 & H). apply bind_ok in H as (e4 & E4 & H). apply bind_ok in H as (e5 & E5 & H).
  apply bind_ok in H as ([e6 so] & E6 & H). apply bind_ok in H as ([e7 la] & E7 & H). apply mret_ok in H. injection H as <- _. cbn [AmStatus.g_encoder].
  assert (I5 : inside n e5) by (clear E6 E7; inside_all; done). clear E1 E2 E3 E4 E5 I0.
  assert (I6 : inside n e6).
  { clear E7. case_if_in E6; [|by apply mret_ok in E6; injection E6 as <- _]. apply bind_ok in E6 as (a & Ea & E6). apply bind_ok in E6 as (c1 & Ec & E6). apply mret_ok in E6. injection E6 as <- _. inside_all. done. }
  clear E6 I5. case_if_in E7; [|by apply mret_ok in E7; injection E7 as <- _]. apply bind_ok in E7 as (a & Ea & E7). apply mret_ok in E7. injection E7 as <- _. inside_all. done.
Qed.

Lemma missing_inside n e m fuel : forall s c last g g' l next, AmStatus.generate_missing_loop fuel e m s c last g = Ok (g', l, next) -> g_inside n g -> g_inside n g'.
Proof.
  induction fuel as [|fuel IH]; intros s c last g g' l next H Hg; cbn [AmStatus.generate_missing_loop] in H; case_if_in H; try done; try (apply mret_ok in H; by injection H as <- _ _).
  destruct (AmStatus.nack_block e m s c) as [cc b]. case_if_in H; [apply mret_ok in H; by injection H as <- _ _|].
  apply bind_ok in H as ([g1 l1] & E1 & H). eapply IH; [exact H|]. by eapply put_nack_inside.
Qed.

Lemma nacks_inside n e fuel : forall cur ch last g g' l, AmStatus.generate_nacks fuel e cur ch last g = Ok (g', l) -> g_inside n g -> g_inside n g'.
Proof.
  induction fuel as [|fuel IH]; intros [|p cur] ch last g g' l H Hg; cbn [AmStatus.generate_nacks] in H; try done; try (apply mret_ok in H; by injection H as <- _).
  case_if_in H; [apply mret_ok in H; by injection H as <- _|]. apply bind_ok in H as ([[g1 ln] next] & E1 & H). apply bind_ok in H as (g2 & E2 & H). eapply IH; [exact H|].
  assert (I1 : g_inside n g1) by (eapply missing_inside; [exact E1|exact Hg]). clear E1 H. unfold AmStatus.force_so_end in E2.
  destruct (AmStatus.g_truncated g1); [|by apply mret_ok in E2 as <-]. destruct (AmStatus.g_so_end_address g1) as [a|]; [|by apply mret_ok in E2 as <-].
  apply bind_ok in E2 as (b1 & W1 & E2). apply bind_ok in E2 as (b2 & W2 & E2). apply mret_ok in E2 as <-. apply wr_zlen in W1 as [W1 _]. apply wr_zlen in W2 as [W2 _]. destruct I1. split; cbn; lia.
Qed.

Lemma am_status_fits e b size n r b' e' : AmStatus.generate_status e b size = Ok (r, b', e') -> zlen b = n -> fits n r b'.
Proof.
  unfold AmStatus.generate_status. intros H Hb. pose proof (zlen_nonneg b) as H0. case_if_in H; [apply mret_ok in H; injection H as <- <- _; split; lia|].
  apply bind_ok in H as (en & En & H). apply bind_ok in H as ([g last] & Eg & H). apply bind_ok in H as (b1 & Eb & H). apply mret_ok in H. injection H as <- <- _.
  apply (put_bits_inside n) in En; [|by apply init_inside]. apply (nacks_inside n) in Eg; [|exact En]. destruct Eg as [L1 B1]. split; [|lia].
  unfold AmStatus.put_ack_sn in Eb. case_if_in Eb.
  - apply bind_ok in Eb as (b2 & W1 & W2). apply wr_zlen in W1 as [W1 _]. apply wr_zlen in W2 as [W2 _]. lia.
  - apply bind_ok in Eb as (b2 & W1 & Eb). apply bind_ok in Eb as (b3 & W2 & Eb). apply bind_ok in Eb as (v & _ & W3). apply wr_zlen in W1 as [W1 _]. apply wr_zlen in W2 as [W2 _]. apply wr_zlen in W3 as [W3 _]. lia.
Qed.

Lemma am_generate_fits e b size now n r b' e' : AmEntity.nr_rlc_entity_am_generate_pdu e b size now = Ok (r, b', e') -> zlen b = n -> fits n r b'.
Proof.
  unfold AmEntity.nr_rlc_entity_am_generate_pdu. intros H Hb. pose proof (zlen_nonneg b) as H0.
  assert (Hnil : forall c, zlen c = n -> fits n 0 c) by (intros c Hc; pose proof (zlen_nonneg c); split; lia).
  apply bind_ok in H as ([[r1 b1] e1] & E1 & H). assert (F1 : fits n r1 b1).
  { case_if_in E1; [by eapply am_status_fits|]. apply mret_ok in E1. injection E1 as <- <- _. by apply Hnil. }
  case_if_in H; [apply mret_ok in H; by injection H as <- <- _|]. clear E1 E. destruct F1 as [L1 _]. apply bind_ok in H as ([[r2 b2] e2] & E2 & H). assert (F2 : fits n r2 b2).
  { clear H. destruct (Am.retransmit_list e1) as [|s rest] eqn:El; [apply mret_ok in E2; injection E2 as <- <- _; by apply Hnil|].
    unfold AmEntity.generate_retx_pdu in E2. rewrite El in E2. case_if_in E2; [apply mret_ok in E2; injection E2 as <- <- _; by apply Hnil|].
    assert (Hsend : forall e s r b' e', AmEntity.retx_segment e s b1 size = Ok (r, b', e') -> fits n r b').
    { clear E2. intros e0 s0 r0 b0 e0' H. unfold AmEntity.retx_segment in H. apply bind_ok in H as (e3 & _ & H). destruct (AmEntity.apply_force_poll _ _) as [e4 p].
      apply bind_ok in H as ([[r3 b3] e5] & E3 & H). apply mret_ok in H. injection H as <- <- _. by eapply am_serialize_fits. }
    case_if_in E2; [apply bind_ok in E2 as ([[s1 s2] e3] & _ & E2)|]; by eapply Hsend. }
  case_if_in H; [apply mret_ok in H; by injection H as <- <- _|]. clear E2 E. destruct F2 as [L2 _]. unfold AmEntity.generate_tx_pdu in H.
  case_if_in H; [apply mret_ok in H; injection H as <- <- _; by apply Hnil|]. destruct (Am.tx_list e2) as [|s rest]; [apply mret_ok in H; injection H as <- <- _; by apply Hnil|].
  case_if_in H; [apply mret_ok in H; injection H as <- <- _; by apply Hnil|]. apply bind_ok in H as (d & _ & H). apply bind_ok in H as (e3 & _ & H).
  assert (Hsend : forall e s r b' e', AmEntity.tx_segment e s b2 size now = Ok (r, b', e') -> fits n r b').
  { clear H. intros e0 s0 r0 b0 e0' H. unfold AmEntity.tx_segment in H. apply bind_ok in H as (e4 & _ & H). destruct (AmEntity.apply_force_poll _ _) as [e5 p].
    apply bind_ok in H as ([[r3 b3] e6] & E3 & H). apply bind_ok in H as (d0 & _ & H). apply bind_ok in H as (c & _ & H). apply mret_ok in H. injection H as <- <- _. by eapply am_serialize_fits. }
  case_if_in H; [apply bind_ok in H as ([[s1 s2] e4] & _ & H)|]; by eapply Hsend.
Qed.

Lemma generate_fits (e : rlc_entity) b size now n r b' e' : op_generate_pdu e b size now = Ok (r, b', e') -> zlen b = n -> fits n r b'.
Proof.
  intros H Hb. destruct e as [e|e|e]; cbn [op_generate_pdu entity_ops] in H; apply bind_ok in H as ([[r1 b1] e1] & E1 & H); apply mret_ok in H; injection H as <- <- _.
  - by eapply am_generate_fits.
  - by eapply um_generate_fits.
  - by eapply tm_generate_fits.
Qed.

(** ** The instance *)

(** RLC of one node, for the UE [id]. *)
#[export] Instance rlc_mac (id : Z) : RlcMac RlcApi.rlc_state := {|
  rlc_data_req m lcid size buffer now := RlcApi.mac_rlc_data_req m id lcid size buffer now;
  rlc_data_ind m gNB_index lcid buffer size := RlcApi.mac_rlc_data_ind m id gNB_index false lcid buffer size;
  rlc_status_ind m lcid := RlcApi.mac_rlc_status_ind m id lcid |}.

#[export] Instance rlc_mac_laws id : @RlcMacLaws RlcApi.rlc_state (rlc_mac id).
Proof.
  intros m lcid n x now len x' m' Hn Hx H. cbn [rlc_data_req rlc_mac] in H. unfold RlcApi.mac_rlc_data_req in H. destruct (RlcApi.nr_rlc_manager_get_ue m (u16 id)) as [u m1].
  apply bind_ok in H as ([[loc e]|] & _ & H); [|apply mret_ok in H; injection H as <- <- _; lia].
  apply bind_ok in H as ([[r b] e1] & Eg & H). apply bind_ok in H as (m2 & _ & H). apply mret_ok in H. injection H as <- <- _.
  unfold RlcApi.set_time_then in Eg. apply bind_ok in Eg as (e2 & _ & Eg). by apply (generate_fits e2 x n now n r b e1).
Qed.

(** ** Evaluation *)

(** A UE with one UM bearer: DRB 2 on logical channel 4. *)
Definition demo_rlc (enb : bool) (id : Z) : RlcApi.rlc_state :=
  match RlcApi.nr_rlc_add_drb (RlcApi.new_nr_rlc_ue_manager enb false false None) id 2 (demo_um_bearer 4 2) with
  | Ok m => m
  | Err _ => RlcApi.new_nr_rlc_ue_manager enb false false None
  end.

(** The same with an SDU of five octets. *)
Definition demo_queued : RlcApi.rlc_state :=
  match RlcApi.rlc_data_req (demo_rlc true 70) (mk_ctxt 0 true 0 70 0 false) false 2 0 5 [1; 2; 3; 4; 5] 0 with Ok m => m | Err _ => demo_rlc true 70 end.

(** The UE's MAC after random access. *)
Definition demo_ue_mac : ue_mac RlcApi.rlc_state :=
  mk_ue_mac (mk_ra nrRA_SUCCEEDED false false false [] 0 0 0 false false (mk_timer false 0) 0 0 0 0 0 0) 0x1234 true 1
    (mk_ul_ta no_ta 0 0 0) (mk_timer false 0) None 1 false (demo_rlc false 7) [].

(** Logical channel 4 with [n] octets waiting, a timing advance command, and a CSI-IM element or not. *)
Definition demo_sched (im : bool) (n : Z) : sched_ctrl :=
  mk_sched_ctrl true 31 0 (mk_pdcchStateInd false 0 0 0) (mk_SPCSIReportingpucch false 0 0 (replicate 4 false))
    (mk_selection false 0 0 0 (replicate 128 false)) (mk_selection false 0 0 0 (replicate 128 false)) (mk_sp_zp_csirs false false 0 0 0)
    (mk_csi_rs_im im true 0 1 false 0 3 1 [7]) n (<[4%nat := n]> (replicate 33 0)) [4] false.

Definition demo_stats : dl_stats := mk_dl_stats (replicate 64 0) 0 0 0 0 0 0.

Lemma demo_block_ok im n TBS : 0 <= TBS <= 60 -> 0 <= n -> block_ok (demo_sched im n) TBS (replicate 60 0) demo_stats.
Proof.
  intros HT Hn. constructor; [by constructor| | |by repeat constructor|].
  - change (zlen (replicate 60 0)) with 60. lia.
  - lia.
  - apply Forall_insert; [by apply Forall_replicate|done].
Qed.
