(* ===== verification/MacProps.v ===== *)
(** * MAC: theorems

    From the gNB's RLC to the UE's through a transport block; the UE on any octets; the control element the two sides
    do not agree on. *)

From S2P Require Import Prelude RlcPdu RlcSdu RlcEntity RlcBearer RlcApi.
From S2P Require Import Mac MacPdu MacAny MacBlock MacRlc.

Import Mac.

Section Deliver.

Context {St : Type} `{RlcMac St} (gNB_index frame slot : Z).

(** The PDUs are given to RLC one after the other. *)
Fixpoint deliver (l : list (Z * bytes)) (m : St) : res St :=
  match l with
  | [] => mret m
  | e :: l => m ← rlc_data_ind m gNB_index e.1 e.2 (zlen e.2); deliver l m
  end.

Lemma effects_sdus l n w u : effects gNB_index frame slot ((sdu_of_pdu <$> l) ++ pad_to w n) u = m ← deliver l (ue_rlc u); mret (u <| ue_rlc := m |>).
Proof.
  revert u. unfold effects. induction l as [|e l IH]; intros u.
  - unfold pad_to. cbn [fmap list_fmap app deliver]. rewrite bind_Ok. destruct u. by destruct (zlen w <? n).
  - cbn [fmap list_fmap app effects_then effect sdu_of_pdu deliver]. destruct (rlc_data_ind (ue_rlc u) gNB_index e.1 e.2 (zlen e.2)) as [m|f]; [|done]. rewrite !bind_Ok.
    rewrite IH. cbn [ue_rlc eta_ue_mac setter]. destruct (deliver l m); [|done]. rewrite !bind_Ok. done.
Qed.

(** The octet of a timing advance command. *)
Lemma ta_octet ta tag : 0 <= ta < 64 -> 0 <= tag < 4 -> let x := pack [(6, ta); (2, tag)] in Z.shiftr x 6 = tag /\ Z.land x 0x3F = ta.
Proof.
  intros Ht Hg x. assert (Ex : x = ta + tag * 2 ^ 6) by (unfold x; cbn [pack]; rewrite (Z.mod_small ta), (Z.mod_small tag) by lia; lia). rewrite Ex. split.
  - rewrite Z.shiftr_div_pow2, Z.div_add, Z.div_small by lia. lia.
  - change 63 with (Z.ones 6). rewrite Z.land_ones, Z.mod_add, Z.mod_small by lia. done.
Qed.

Definition no_effect (s : subpdu) : Prop := match s with Fixed lcid _ => lcid <> DL_SCH_LCID_TA_COMMAND | Sized _ _ => True | _ => False end.

Lemma effects_skip l k u : Forall no_effect l -> effects_then gNB_index frame slot l k u = k u.
Proof.
  induction 1 as [|s l Hs _ IH]; [done|]. cbn [effects_then]. destruct s as [lcid ce|lcid ce|?|?]; cbn [no_effect] in Hs; try done. cbn [effect].
  rewrite (proj2 (Z.eqb_neq lcid _)) by done. rewrite bind_Ok. exact IH.
Qed.

(** Of the control elements only the timing advance command does anything. *)
Lemma effects_ces sc tag R1 k u : 0 <= ta_update sc < 64 -> 0 <= tag < 4 -> ue_tag_Id u = tag ->
  effects_then gNB_index frame slot (ce_list sc tag R1) k u = u ← (if ta_apply sc then set_time_alignment u (ta_update sc) adjustment_ta frame slot else mret u); k u.
Proof.
  intros Ht Hg Hu. unfold ce_list.
  match goal with |- effects_then _ _ _ (_ ++ ?t) _ _ = _ => set (rest := t) end.
  assert (Hrest : Forall no_effect rest).
  { assert (Hwhen : forall b s, no_effect s -> Forall no_effect (ce_when b s)) by (intros b s Hw; unfold ce_when; destruct b; [by constructor|constructor]).
    unfold rest. repeat (apply Forall_app; split); apply Hwhen; done. }
  clearbody rest. destruct (ta_apply sc); cbn [ce_when app]; [|by rewrite effects_skip, bind_Ok].
  cbn [effects_then effect]. change (DL_SCH_LCID_TA_COMMAND =? DL_SCH_LCID_TA_COMMAND) with true. cbv iota. cbn [NR_MAC_CE_TA head from_option id].
  destruct (ta_octet (ta_update sc) tag Ht Hg) as [-> ->]. rewrite Hu, Z.eqb_refl. destruct (set_time_alignment u _ _ _ _) as [u'|f]; [|done]. rewrite !bind_Ok. by apply effects_skip.
Qed.

End Deliver.

Lemma block_wf sc tag R1 TBS l : ce_ok sc -> Forall (fun e => 1 <= e.1 <= 32 /\ 0 < zlen e.2 < 2 ^ 16) l -> Forall well_formed (block_of sc tag R1 TBS l).
Proof.
  intros Hce Hl. unfold block_of, pad_to. apply Forall_app. split; [apply Forall_app; split|].
  - by apply ce_list_wf.
  - apply Forall_fmap. eapply Forall_impl; [exact Hl|]. intros e [H1 H2]. cbn. lia.
  - case_if; [|constructor]. constructor; [|constructor]. bool_prop. cbn. lia.
Qed.

Lemma zlen_block sc tag R1 TBS l tb : take (Z.to_nat TBS) tb = encode_all (block_of sc tag R1 TBS l) -> 0 <= TBS <= zlen tb -> zlen (encode_all (block_of sc tag R1 TBS l)) = TBS.
Proof. intros <- Ht. unfold zlen in *. rewrite length_take. lia. Qed.

(** The UE on a block. *)
Lemma process_block {St} `{RlcMac St} gNB_index frame slot sc tag R1 TBS l (u : ue_mac St) tb rest : ce_ok sc -> Forall (fun e => 1 <= e.1 <= 32 /\ 0 < zlen e.2 < 2 ^ 16) l ->
  take (Z.to_nat TBS) tb = encode_all (block_of sc tag R1 TBS l) -> 0 <= TBS <= zlen tb ->
  0 <= ta_update sc -> 0 <= tag < 4 -> ue_tag_Id u = tag -> two_step (ra u) = false \/ ra_state (ra u) <> nrRA_WAIT_MSGB ->
  nr_ue_process_mac_pdu gNB_index frame slot (Some (take (Z.to_nat TBS) tb ++ rest)) TBS u =
    (u ← (if ta_apply sc then set_time_alignment u (ta_update sc) adjustment_ta frame slot else mret u);
     m ← deliver gNB_index l (ue_rlc u); mret (u <| ue_rlc := m |>)).
Proof.
  intros Hce Hl Ht HT Hta Htag Hu Hra. rewrite Ht. rewrite <- (zlen_block sc tag R1 TBS l tb Ht HT) at 2. rewrite process_pdu; [|by apply block_wf|done].
  unfold effects, block_of. rewrite <- app_assoc, effects_then_app, effects_ces; [|pose proof (ce_ta _ Hce); lia|done|done].
  destruct (if ta_apply sc then _ else _) as [u'|f]; [|done]. rewrite !bind_Ok. apply effects_sdus.
Qed.

(** [C3] A transport block carries RLC PDUs to the peer: [fill_transport_block] fails only if RLC does; otherwise there are PDUs
    that the gNB's RLC gave, in that order, such that [nr_ue_process_mac_pdu] on the first [TBS] octets applies the timing advance
    command, if there is one, and hands exactly these PDUs to the UE's RLC, in order, each on its logical channel,
    whatever other control elements were sent (the CSI-IM element excepted). *)
Theorem mac_block_roundtrip {St} `{RlcMacLaws St} {St'} `{RlcMac St'} now sc tag R1 noise TBS rbSize frame (m : St) tb ds gNB_index frame' slot (u : ue_mac St') rest :
  block_ok sc TBS tb ds -> im_is_scheduled (csi_im sc) = false -> zlen (encode_all (ce_list sc tag R1)) < TBS ->
  0 <= ta_update sc -> 0 <= tag < 4 -> ue_tag_Id u = tag -> two_step (ra u) = false \/ ra_state (ra u) <> nrRA_WAIT_MSGB ->
  (exists l m' tb' sc' ds', fill_transport_block sc tag R1 false noise TBS rbSize frame now m tb ds = Ok (m', tb', sc', ds') /\
     pulled (lc_config sc) now m l m' /\ num_mac_sdu ds' = u32 (num_mac_sdu ds + Z.of_nat (length l)) /\
     nr_ue_process_mac_pdu gNB_index frame' slot (Some (take (Z.to_nat TBS) tb' ++ rest)) TBS u =
       (u ← (if ta_apply sc then set_time_alignment u (ta_update sc) adjustment_ta frame' slot else mret u);
        m ← deliver gNB_index l (ue_rlc u); mret (u <| ue_rlc := m |>))) \/
  (exists e, fill_transport_block sc tag R1 false noise TBS rbSize frame now m tb ds = Err e /\ rlc_fails (lc_config sc) now m e).
Proof.
  intros Hok Him HT Hta Htag Hu Hra. destruct (fill_spec now sc tag R1 noise TBS rbSize frame m tb ds Hok Him HT) as [(l & m' & tb' & sc' & ds' & E & Hp & Hl & Hlen & Ht & Hn & _)|Hf]; [left|by right].
  exists l, m', tb', sc', ds'. split; [done|]. split; [done|]. split; [done|]. pose proof (bk_len _ _ _ _ Hok) as Hb. pose proof (zlen_nonneg (encode_all (ce_list sc tag R1))).
  apply (process_block _ _ _ sc tag R1); [apply Hok|done|done|lia|done|done|done|done].
Qed.

(** A block of 20 octets from the gNB's RLC, which holds an SDU of five, to the UE's. *)
Lemma mac_block_roundtrip_witness : exists l m' tb' sc' ds',
  @fill_transport_block _ (rlc_mac 70) (demo_sched false 6) 1 0 false (fun _ => 0) 20 5 100 0 demo_queued (replicate 60 0) demo_stats = Ok (m', tb', sc', ds') /\ l <> [] /\
  @nr_ue_process_mac_pdu _ (rlc_mac 7) 0 100 3 (Some (take 20 tb' ++ [])) 20 demo_ue_mac =
    (u ← set_time_alignment demo_ue_mac 31 adjustment_ta 100 3; m ← @deliver _ (rlc_mac 7) 0 l (ue_rlc u); mret (u <| ue_rlc := m |>)).
Proof.
  destruct (@mac_block_roundtrip _ (rlc_mac 70) (rlc_mac_laws 70) _ (rlc_mac 7) 0 (demo_sched false 6) 1 0 (fun _ => 0) 20 5 100 demo_queued (replicate 60 0) demo_stats 0 100 3 demo_ue_mac [])
    as [(l & m' & tb' & sc' & ds' & E & _ & Hn & P)|(e & E & _)]; [by apply demo_block_ok|done|vm_compute; reflexivity|done|done|done|by left| |].
  - exists l, m', tb', sc', ds'. split; [exact E|]. split; [|exact P].
    assert (N : num_mac_sdu ds' = 1) by (vm_compute in E; injection E as _ _ _ <-; reflexivity). rewrite N in Hn. clear - Hn.
    intros ->. discriminate Hn.
  - vm_compute in E. discriminate E.
Defined.

(** ** The CSI-IM control element *)

Lemma pack_high a b : 128 <= pack [(2, a); (5, b); (1, b2z true)] < 256.
Proof. cbn [pack]. change (b2z true mod 2 ^ 1) with 1. pose proof (Z.mod_pos_bound a (2 ^ 2) ltac:(lia)). pose proof (Z.mod_pos_bound b (2 ^ 5) ltac:(lia)). lia. Qed.

(** The UE takes the first octet of the element for its length. *)
Lemma csi_im_step {St} `{RlcMac St} gNB_index frame slot x rest n fuel (u : ue_mac St) : 128 <= x -> 2 <= n <= 130 ->
  process_loop (S fuel) gNB_index frame slot (NR_MAC_SUBHEADER_FIXED DL_SCH_LCID_SP_CSI_RS_CSI_IM_RES_SET_ACT ++ x :: rest) n false u = Ok u.
Proof.
  intros Hx Hn. cbn [process_loop negb andb]. rewrite Z.gtb_ltb, (proj2 (Z.ltb_lt 0 n)) by lia. cbn [negb].
  change (NR_MAC_SUBHEADER_FIXED DL_SCH_LCID_SP_CSI_RS_CSI_IM_RES_SET_ACT ++ x :: rest) with (55 :: x :: rest).
  assert (E : process_subpdu gNB_index frame slot (55 :: x :: rest) n u = Ok (Some (2, x, false, u))).
  { unfold process_subpdu. rewrite rd_head, bind_Ok. cbn -[get_mac_len]. unfold get_mac_len. rewrite (proj2 (Z.ltb_ge n 2)) by lia. rewrite rd_head, bind_Ok. change (Z.testbit 55 6) with false. cbn [andb]. rewrite rd_second, bind_Ok. done. }
  rewrite E, bind_Ok. destruct fuel; cbn [process_loop negb andb]; rewrite Z.gtb_ltb, (proj2 (Z.ltb_ge 0 _)) by lia; done.
Qed.

(** [C32] The two sides do not agree on the control element that activates CSI-RS and CSI-IM resource sets: the gNB writes it behind
    a subheader without a length, the UE reads a length. With such an element, in a block that ends at most 130 octets behind
    the other control elements, the UE applies the timing advance command, if there is one, and no more: all RLC PDUs of the block
    are lost. *)
Theorem mac_csi_im_drops_block {St} `{RlcMacLaws St} {St'} `{RlcMac St'} now sc tag R1 noise TBS rbSize frame (m : St) tb ds gNB_index frame' slot (u : ue_mac St') rest :
  block_ok sc TBS tb ds -> im_is_scheduled (csi_im sc) = true -> im_act_deact (csi_im sc) = true ->
  0 <= nb_tci_resource_set_id (csi_im sc) <= zlen (im_tci_state_id (csi_im sc)) ->
  zlen (encode_all (ce_list sc tag R1)) + 4 + nb_tci_resource_set_id (csi_im sc) < TBS <= zlen (encode_all (ce_list sc tag R1)) + 130 ->
  0 <= ta_update sc -> 0 <= tag < 4 -> ue_tag_Id u = tag -> two_step (ra u) = false \/ ra_state (ra u) <> nrRA_WAIT_MSGB ->
  (exists l m' tb' sc' ds', fill_transport_block sc tag R1 false noise TBS rbSize frame now m tb ds = Ok (m', tb', sc', ds') /\
     pulled (lc_config sc) now m l m' /\ num_mac_sdu ds' = u32 (num_mac_sdu ds + Z.of_nat (length l)) /\
     nr_ue_process_mac_pdu gNB_index frame' slot (Some (take (Z.to_nat TBS) tb' ++ rest)) TBS u =
       (if ta_apply sc then set_time_alignment u (ta_update sc) adjustment_ta frame' slot else mret u)) \/
  (exists e, fill_transport_block sc tag R1 false noise TBS rbSize frame now m tb ds = Err e /\ rlc_fails (lc_config sc) now m e).
Proof.
  intros Hok Him Had Hnb HT Hta Htag Hu Hra. set (ces := encode_all (ce_list sc tag R1)) in *. pose proof (bk_len _ _ _ _ Hok) as Hb. pose proof (zlen_nonneg ces) as Hc0.
  destruct (write_ce_before sc tag R1 tb (bk_ce _ _ _ _ Hok) (proj1 Hb)) as (st & Ew & Hw). rewrite Him in Ew. cbn [when] in Ew.
  destruct (write_csi_im_spec _ _ (csi_im sc) st Hnb Hw ltac:(fold ces; lia)) as (st' & Es & Hw'). rewrite Es, bind_Ok in Ew. fold ces in Hw'.
  assert (Eim : exists t, im_octets (csi_im sc) = pack [(2, im_bwp_id (csi_im sc)); (5, Z.land (im_serv_cellid (csi_im sc)) 0x3F); (1, b2z true)] :: t /\ zlen t <= 2 + nb_tci_resource_set_id (csi_im sc)).
  { unfold im_octets, CSI_RS_CSI_IM_ACT_DEACT_MAC_CE. rewrite Had, <- app_assoc. cbn [app]. eexists. split; [reflexivity|]. rewrite zlen_cons, zlen_app, zlen_tci by done. destruct (im (csi_im sc)); [change (zlen [_]) with 1|change (zlen (@nil Z)) with 0]; lia. }
  destruct Eim as (t & Et & Ht). rewrite Et in Hw'. cbn [encode] in Hw'. set (x := pack _) in *. remember (NR_MAC_SUBHEADER_FIXED DL_SCH_LCID_SP_CSI_RS_CSI_IM_RES_SET_ACT) as h eqn:Eh. pose proof (pack_high (im_bwp_id (csi_im sc)) (Z.land (im_serv_cellid (csi_im sc)) 0x3F)) as Hx. fold x in Hx. clearbody x.
  assert (Hh : zlen h = 1) by (rewrite Eh; reflexivity). assert (HT' : zlen (ces ++ h ++ x :: t) < TBS) by (rewrite !zlen_app, zlen_cons, Hh; lia).
  destruct (fill_behind now sc tag R1 noise TBS rbSize frame m tb ds _ st' Hok HT' Ew Hw') as [(l & m' & tb' & sc' & ds' & E & Hp & Hl & Hlen & Hz & Hn & _)|Hf]; [left|by right].
  exists l, m', tb', sc', ds'. split; [done|]. split; [done|]. split; [done|]. rewrite process_no_msgb, Hz, <- !app_assoc by done. cbn [app].
  pose proof (subs_le_octets (ce_list sc tag R1)) as Hsubs. fold ces in Hsubs.
  assert (Hf : exists k, Z.to_nat TBS = (length (ce_list sc tag R1) + S k)%nat) by (exists (Z.to_nat TBS - length (ce_list sc tag R1) - 1)%nat; lia).
  assert (Hk : exists k, TBS = zlen ces + k /\ 2 <= k <= 130) by (exists (TBS - zlen ces); lia).
  destruct Hf as [k ->], Hk as (n & -> & Hn'). unfold ces. rewrite process_prefix; [|apply ce_list_wf, Hok|lia].
  rewrite effects_ces; [|pose proof (ce_ta _ (bk_ce _ _ _ _ Hok)); lia|done|done]. destruct (if ta_apply sc then _ else _) as [u'|f]; [|done]. rewrite bind_Ok, Eh. apply csi_im_step; [lia|done].
Qed.

(** The same block with the element: the UE takes the timing advance command, the SDU is lost. *)
Lemma mac_csi_im_drops_block_witness : exists l m' tb' sc' ds',
  @fill_transport_block _ (rlc_mac 70) (demo_sched true 6) 1 0 false (fun _ => 0) 20 5 100 0 demo_queued (replicate 60 0) demo_stats = Ok (m', tb', sc', ds') /\
  @pulled _ (rlc_mac 70) [4] 0 demo_queued l m' /\ l <> [] /\
  @nr_ue_process_mac_pdu _ (rlc_mac 7) 0 100 3 (Some (take 20 tb' ++ [])) 20 demo_ue_mac = set_time_alignment demo_ue_mac 31 adjustment_ta 100 3.
Proof.
  destruct (@mac_csi_im_drops_block _ (rlc_mac 70) (rlc_mac_laws 70) _ (rlc_mac 7) 0 (demo_sched true 6) 1 0 (fun _ => 0) 20 5 100 demo_queued (replicate 60 0) demo_stats 0 100 3 demo_ue_mac [])
    as [(l & m' & tb' & sc' & ds' & E & Hp & Hn & P)|(e & E & _)]; [by apply demo_block_ok|done|done|done|vm_compute; split; [reflexivity|discriminate]|done|done|done|by left| |].
  - exists l, m', tb', sc', ds'. split; [exact E|]. split; [exact Hp|]. split; [|exact P].
    assert (N : num_mac_sdu ds' = 1) by (vm_compute in E; injection E as _ _ _ <-; reflexivity). rewrite N in Hn. clear - Hn. intros ->. discriminate Hn.
  - vm_compute in E. discriminate E.
Defined.

(** ** Any octets *)

(** [C30] Whatever a transport block holds, [nr_ue_process_mac_pdu] ends: it returns, stops at the assertion on the length of
    a CCCH message, or RLC fails; it reads at most six octets behind the block. *)
Theorem mac_pdu_any_octets {St} `{RlcMac St} gNB_index frame slot mem pdu_len (u : ue_mac St) :
  Forall is_byte mem -> pdu_len + 6 <= zlen mem -> 0 <= scs u < 5 -> two_step (ra u) = false \/ ra_state (ra u) <> nrRA_WAIT_MSGB ->
  match nr_ue_process_mac_pdu gNB_index frame slot (Some mem) pdu_len u with
  | Ok _ => True
  | Err e => e = Exit \/ exists m lcid d, rlc_data_ind m gNB_index lcid d (zlen d) = Err e
  end.
Proof.
  intros Hb Hl Hs Hra. rewrite process_no_msgb by done. apply (loop_any gNB_index frame slot (Z.to_nat pdu_len) mem pdu_len false u); [|lia|done]. by intros Hp.
Qed.

(** An SDU that claims more octets than the block has, in a block of four. *)
Lemma mac_pdu_any_octets_witness : match @nr_ue_process_mac_pdu _ (rlc_mac 7) 0 100 3 (Some [0x3D; 0x40; 0x04; 0x03; 9; 9; 9; 9; 9; 9]) 4 demo_ue_mac with
  | Ok _ => True
  | Err e => e = Exit \/ exists m lcid d, @rlc_data_ind _ (rlc_mac 7) m 0 lcid d (zlen d) = Err e
  end.
Proof. apply (@mac_pdu_any_octets _ (rlc_mac 7) 0 100 3 [0x3D; 0x40; 0x04; 0x03; 9; 9; 9; 9; 9; 9] 4 demo_ue_mac); [by repeat constructor|done|done|by left]. Defined.

(** ** What the UE does not check *)

(** A CCCH message that claims more octets than the block has stops the UE. *)
Lemma ccch_length_aborts {St} `{RlcMac St} gNB_index frame slot x rest n (u : ue_mac St) : 2 <= n < x -> two_step (ra u) = false \/ ra_state (ra u) <> nrRA_WAIT_MSGB ->
  nr_ue_process_mac_pdu gNB_index frame slot (Some (0 :: x :: rest)) n u = Err Exit.
Proof.
  intros Hn Hra. rewrite process_no_msgb by done. destruct (Z.to_nat n) as [|k] eqn:Ek; [lia|]. cbn [process_loop negb andb]. rewrite Z.gtb_ltb, (proj2 (Z.ltb_lt 0 n)) by lia. cbn [negb].
  unfold process_subpdu. rewrite rd_head, bind_Ok. change (Z.land 0 63 =? DL_SCH_LCID_CCCH) with true. cbv iota. unfold process_ccch, get_mac_len. rewrite (proj2 (Z.ltb_ge n 2)) by lia.
  rewrite rd_head, bind_Ok. change (Z.testbit 0 6) with false. cbn [andb]. rewrite rd_second, !bind_Ok, Z.gtb_ltb, (proj2 (Z.ltb_lt n x)) by lia. done.
Qed.

(** The length of an SDU is compared with the octets that are left, its subheader included: up to two octets (three with a long
    subheader) behind the block are read as part of the SDU. *)
Lemma sdu_read_behind {St} `{RlcMac St} gNB_index frame slot lcid d x (u : ue_mac St) : 1 <= lcid <= 32 -> zlen d < x <= 2 + zlen d ->
  two_step (ra u) = false \/ ra_state (ra u) <> nrRA_WAIT_MSGB ->
  nr_ue_process_mac_pdu gNB_index frame slot (Some (lcid :: x :: d)) (2 + zlen d) u = Err Oob.
Proof.
  intros Hl Hx Hra. rewrite process_no_msgb by done. pose proof (zlen_nonneg d). destruct (Z.to_nat (2 + zlen d)) as [|k] eqn:Ek; [lia|]. cbn [process_loop negb andb]. rewrite Z.gtb_ltb, (proj2 (Z.ltb_lt 0 _)) by lia. cbn [negb].
  destruct (header_lcid lcid ltac:(lia)) as (El & _ & Eb & _). rewrite (subpdu_sdu _ _ _ _ _ _ _ lcid El Hl).
  unfold process_sdu, get_mac_len. rewrite (proj2 (Z.ltb_ge (2 + zlen d) 2)) by lia. rewrite rd_head, bind_Ok, Eb. cbn [andb]. rewrite rd_second, !bind_Ok, Z.gtb_ltb, (proj2 (Z.ltb_ge _ x)) by lia. cbn [negb].
  unfold slice. rewrite !zlen_cons. case_if; [|done]. bool_prop. lia.
Qed.

(** The timing advance that follows a MsgB is taken from the second octet of the PDU, whatever the RAR says. *)
Lemma successrar_ta_octet {St} (pduP : bytes) pdu_len frame slot (u u' : ue_mac St) n : nr_ue_validate_successrar pduP pdu_len frame slot u = Ok (n, u') ->
  exists x, pduP !! 1%nat = Some x /\ ta_command (ul_time_alignment u') = Z.land x 0x3F.
Proof.
  unfold nr_ue_validate_successrar. intros E. apply bind_ok in E as ([k u1] & _ & E). apply bind_ok in E as (x & Ex & E). apply bind_ok in E as (u2 & E2 & E). apply mret_ok in E. injection E as _ <-.
  unfold rd in Ex. change (1 <? 0) with false in Ex. cbv iota in Ex. change (Z.to_nat 1) with 1%nat in Ex. destruct (pduP !! 1%nat) as [y|]; [|done]. injection Ex as ->. exists x. split; [done|].
  unfold set_time_alignment in E2. apply bind_ok in E2 as (m & _ & E2). apply mret_ok in E2 as <-. done.
Qed.
