(* ===== verification/MacUm.v ===== *)
(** * A UM bearer over transport blocks

    RLC of the gNB and of the UE with MAC between them: what a transport block does to the two ends of a bearer in
    unacknowledged mode. *)

From S2P Require Import Prelude RlcPdu RlcSdu TimeStat RlcEntity RlcRx RlcTm RlcUm RlcUmLink RlcUmSafe RlcAm RlcAmEntity RlcBearer.
From S2P Require Import Sdap WorkQueue F1Ids RlcApi RlcApiProps RlcApiUm Mac MacPdu MacBlock MacRlc MacProps.

Import Mac.

(** ** RLC with a guard *)

(** RLC that refuses requests for exactly two octets, which lose an SDU (see [um_two_byte_grant_loses_sdu]). *)
Definition no_two {St} (R : RlcMac St) : RlcMac St := {|
  Mac.rlc_data_req m lcid n x now := if n =? 2 then Err Undef else Mac.rlc_data_req m lcid n x now;
  rlc_data_ind := rlc_data_ind;
  rlc_status_ind := rlc_status_ind |}.

#[export] Instance no_two_laws {St} `{L : RlcMacLaws St} : @RlcMacLaws St (no_two _).
Proof. intros m lcid n x now len x' m' Hn Hx E. cbn in E. destruct (n =? 2); [done|]. by apply (data_req_bounds m lcid n x now len x' m'). Qed.

(** Where the guard does not stop it, the gNB does the same without. *)
Section Guard.

Context {St : Type} {R : RlcMac St}.

Lemma pull_guard lcid avail bufEnd now fuel : forall f f', @pull St (no_two R) fuel lcid avail bufEnd now f = Ok f' -> pull fuel lcid avail bufEnd now f = Ok f'.
Proof.
  induction fuel as [|fuel IH]; intros f f' H; cbn [pull] in *; [done|]. destruct (negb _); [done|]. destruct (slice _ _ _) as [x|]; [|done]. rewrite bind_Ok in *. cbn [Mac.rlc_data_req no_two] in H.
  destruct (_ =? 2); [done|]. destruct (Mac.rlc_data_req _ _ _ _ _) as [[[len x'] m]|]; [|done]. rewrite bind_Ok in *. destruct (blit _ _ _) as [tb|]; [|done]. rewrite bind_Ok in *.
  destruct (len =? 0); [done|]. destruct (blit tb _ _) as [tb'|]; [|done]. rewrite bind_Ok in *. by apply IH.
Qed.

Lemma pull_all_guard sc bufEnd now lcids : forall f lc r, @pull_all St (no_two R) sc bufEnd now lcids f lc = Ok r -> pull_all sc bufEnd now lcids f lc = Ok r.
Proof.
  induction lcids as [|c lcids IH]; intros f lc r H; cbn [pull_all] in *; [done|]. apply bind_ok in H as (n & En & H). rewrite En, bind_Ok. destruct (n =? 0); [by apply IH|].
  apply bind_ok in H as (f' & E & H). rewrite (pull_guard _ _ _ _ _ _ _ E), bind_Ok. apply bind_ok in H as (x & Ex & H). rewrite Ex, bind_Ok. apply bind_ok in H as (lc' & El & H). rewrite El, bind_Ok. by apply IH.
Qed.

Lemma fill_guard sc tag R1 noise TBS rbSize frame now m tb ds r : @fill_transport_block St (no_two R) sc tag R1 false noise TBS rbSize frame now m tb ds = Ok r ->
  fill_transport_block sc tag R1 false noise TBS rbSize frame now m tb ds = Ok r.
Proof.
  unfold fill_transport_block. destruct (nr_write_ce_dlsch_pdu _ _ _ _ _ _) as [[w b]|]; [|done]. rewrite !bind_Ok. destruct (negb _); [done|]. destruct (num_total_bytes sc >? 0); [|done].
  intros H. apply bind_ok in H as (r' & E & H). by rewrite (pull_all_guard _ _ _ _ _ _ _ E).
Qed.

End Guard.

(** ** The bearer *)

Lemma report_nonneg len e ql k : RlcUmLink.tx_inv len e ql k -> 0 <= tx_size_ (bstatus (Um.common e)).
Proof.
  intros T. rewrite (RlcUmLink.ti_bst _ _ _ _ T). pose proof (RlcUmLink.ti_queue _ _ _ _ T) as Q. destruct (Um.tx_list e) as [|s l]; [done|]. destruct ql as [|D ql]; [done|]. destruct Q as [(_ & _ & Z1 & Z2 & _) F].
  assert (Hh : forall x, 0 <= Um.header_size len x) by (intros x; unfold Um.header_size; repeat case_if; lia).
  assert (0 <= RlcUmLink.pending_pdus len l) by (clear -F Hh; induction F as [|x D' l ql (_ & _ & Z1 & Z2 & _) _ IH]; cbn; [lia|]; specialize (Hh x); lia).
  cbn. specialize (Hh s). lia.
Qed.

#[export] Instance deliver_inj : Inj (=) (=) DeliverSdu.
Proof. by intros x y [=]. Qed.

(** [mac_rlc_status_ind] reports the octets waiting. *)
Lemma status_ind_um m id lcid rb e e1 : has_um m id lcid rb e -> 0 <= id < 2 ^ 16 ->
  Um.nr_rlc_entity_um_set_time e (RlcApi.current_time m) = Ok e1 -> RlcEntity.calls (Um.common e1) = RlcEntity.calls (Um.common e) ->
  exists m', RlcApi.mac_rlc_status_ind m id lcid = Ok (tx_size_ (bstatus (Um.common e1)), m') /\ has_um m' id lcid rb e1 /\
    env m' = env m /\ RlcApi.r_out m' = RlcApi.r_out m.
Proof.
  intros H Hid T C. pose proof H as [_ _ (u & F & _ & _)]. unfold RlcApi.mac_rlc_status_ind, u16. rewrite (Z.mod_small id) by done.
  rewrite (get_known m id u F), (lcid_um _ _ _ _ _ _ H F), bind_Ok. cbn [op_set_time entity_ops dispatch_upd um_ops]. rewrite T, !bind_Ok.
  cbn [op_buffer_status entity_ops dispatch um_ops]. rewrite bind_Ok. destruct (has_um_commit m id lcid rb e e1 u H F) as (m1 & u1 & Ec & H1 & _ & E1 & R1).
  rewrite Ec, C, drop_all. cbn [RlcApi.run_calls]. rewrite bind_Ok. exists m1. split; [|done]. unfold RlcApi.total. cbn. by rewrite Z.add_0_l.
Qed.

Section Um.

Context (len id lcid rb id2 lcid2 id' : Z) (enb : bool).
Hypothesis Hlen : len_ok len.
Hypothesis Hids : 0 <= id < 2 ^ 16 /\ 0 <= id2 < 2 ^ 16.

(** [sent] are the SDUs that were given to the sender, [delivered] those that the receiver handed to PDCP. *)
Record rlc_link (mt mr : RlcApi.rlc_state) (sent delivered : list bytes) (umt umr : Um.nr_rlc_entity_um_t) : Prop := {
  lp_tx : has_um mt id lcid rb umt;
  lp_rx : has_um mr id2 lcid2 rb umr;
  lp_link : RlcUmLink.link_inv len (RlcUmLink.mk_link umt umr sent);
  lp_calls : RlcEntity.calls (Um.common umr) = DeliverSdu <$> delivered;
  lp_ind : RlcApi.r_out mr = (fun pdu => RlcApi.PdcpDataInd (data_ind enb id' rb pdu)) <$> delivered;
  lp_env : RlcApi.mgr_enb_flag mr = enb /\ pdcp_ue mr id2 id' }.

(** What an exchange delivers, as SDUs. *)
Lemma calls_grow lk delivered : RlcUmLink.link_inv len lk ->
  (DeliverSdu <$> delivered) `prefix_of` RlcEntity.calls (Um.common (RlcUmLink.l_rx lk)) ->
  exists l, RlcEntity.calls (Um.common (RlcUmLink.l_rx lk)) = DeliverSdu <$> (delivered ++ l).
Proof.
  intros (ql & k & dl & _ & _ & C & _) [x E]. rewrite C in *. apply fmap_app_inv in E as (l1 & l2 & E1 & E2 & ->).
  exists l2. apply (inj (fmap DeliverSdu)) in E1 as <-. done.
Qed.

(** A request of MAC at the sender, and the indication at the receiver. *)
Lemma rlc_exchange mt mr sent dl umt umr buf size now : rlc_link mt mr sent dl umt umr -> 0 <= size /\ (len = 12 -> size <> 2) -> zlen buf = size ->
  exists ret b mt' umt', RlcApi.mac_rlc_data_req mt id lcid size buf now = Ok (ret, b, mt') /\
    if ret =? 0 then rlc_link mt' mr sent dl umt' umr
    else exists mr' l umr', RlcApi.mac_rlc_data_ind mr id2 0 false lcid2 (take (Z.to_nat ret) b) ret = Ok mr' /\ rlc_link mt' mr' sent (dl ++ l) umt' umr'.
Proof.
  intros [L1 L2 L3 L4 L5 [L6 L7]] Hop Hbuf.
  destruct (link_time len umt umr _ (RlcApi.current_time mt) (RlcApi.current_time mr) Hlen L3) as (u1 & v1 & T1 & T2 & I1 & I2 & Cv & Cu & _).
  destruct (RlcUmLink.exchange_inv len _ buf size now Hlen I1 Hop Hbuf) as (k1 & E1 & J1 & _).
  destruct (RlcUmLink.exchange_inv len _ buf size now Hlen I2 Hop Hbuf) as (k2 & E2 & J2 & P2).
  unfold RlcUmLink.exchange in E1, E2. cbn [RlcUmLink.l_tx RlcUmLink.l_rx RlcUmLink.l_sent] in E1, E2, P2.
  apply bind_ok in E1 as ([[ret b] u2] & G & E1). rewrite G, bind_Ok in E2.
  destruct (data_req_um mt id lcid rb umt size buf now u1 ret b u2 L1 (proj1 Hids) T1 Cu G) as (m & Em & Hm & _ & _).
  exists ret, b, m, u2. split; [done|]. destruct (ret =? 0).
  { apply mret_ok in E1 as <-. by constructor. }
  apply bind_ok in E2 as (v2 & R2 & E2). apply mret_ok in E2 as <-. cbn [RlcUmLink.l_rx] in P2. rewrite Cv, L4 in P2.
  destruct (calls_grow _ dl J2 P2) as (l & Cl). cbn [RlcUmLink.l_rx] in Cl. rewrite fmap_app, <- L4 in Cl.
  destruct (data_ind_um mr id2 id' lcid2 rb umr (take (Z.to_nat ret) b) ret v1 v2 l L2 (proj2 Hids) L7 T2 R2 Cl) as (m' & Em' & Hm' & Ee & Eo).
  exists m', l, v2. split; [done|]. constructor; try done.
  - by rewrite Cl, L4, fmap_app.
  - rewrite Eo, L5, L6, fmap_app, <- list_fmap_compose. done.
  - split; [|by eapply pdcp_ue_env]. injection Ee. congruence.
Qed.

End Um.

(** ** A transport block *)

Section Block.

Context (len id lcid rb id2 id' : Z) (enb : bool).
Hypothesis Hlen : len_ok len.
Hypothesis Hids : 0 <= id < 2 ^ 16 /\ 0 <= id2 < 2 ^ 16.

#[local] Abbreviation linked := (rlc_link len id lcid rb id2 lcid id' enb).

(** The buffer report leaves the bearer as it is. *)
Lemma store_link sc mt mr sent dl umt umr : linked mt mr sent dl umt umr -> lc_config sc = [lcid] -> lcid < zlen (bytes_in_buffer sc) -> Forall (fun n => 0 <= n) (bytes_in_buffer sc) ->
  exists k l mt' umt', @nr_store_dlsch_buffer _ (rlc_mac id) sc mt = Ok (sc <| num_total_bytes := k |> <| bytes_in_buffer := l |>, mt') /\
    zlen l = zlen (bytes_in_buffer sc) /\ Forall (fun n => 0 <= n) l /\ linked mt' mr sent dl umt' umr.
Proof.
  intros L Hc Hl Hpos. pose proof L as [L1 L2 L3 L4 L5 L6]. pose proof (hu_lcid _ _ _ _ _ L1) as Hlc. unfold nr_store_dlsch_buffer. rewrite Hc. cbn [foldl]. rewrite bind_Ok. cbn [transm_interrupt eta_sched_ctrl setter].
  assert (Hsame : (lcid =? DL_SCH_LCID_DTCH) && transm_interrupt sc = true -> exists k l mt' umt', @Ok (sched_ctrl * RlcApi.rlc_state) (sc <| num_total_bytes := 0 |>, mt) = Ok (sc <| num_total_bytes := k |> <| bytes_in_buffer := l |>, mt') /\
    zlen l = zlen (bytes_in_buffer sc) /\ Forall (fun n => 0 <= n) l /\ linked mt' mr sent dl umt' umr).
  { intros _. exists 0, (bytes_in_buffer sc), mt, umt. split; [by destruct sc|done]. }
  case_if; [by apply Hsame|]. clear Hsame.
  destruct (link_time len umt umr _ (RlcApi.current_time mt) 0 Hlen L3) as (u1 & _ & T1 & _ & I1 & _ & _ & Cu & _).
  destruct (status_ind_um mt id lcid rb umt u1 L1 (proj1 Hids) T1 Cu) as (mt' & Es & Hm & _). cbn [rlc_status_ind rlc_mac]. rewrite Es, bind_Ok. cbn [bytes_in_buffer eta_sched_ctrl setter]. rewrite wr_ok, bind_Ok by lia.
  set (n := tx_size_ _). assert (Hn : 0 <= n) by (destruct I1 as (q & k & d & T & _); by apply (report_nonneg len _ q k)).
  exists (if n =? 0 then 0 else u32 (0 + n)), (<[Z.to_nat lcid := n]> (bytes_in_buffer sc)), mt', u1.
  split; [by destruct sc, (n =? 0)|]. split; [unfold zlen; by rewrite length_insert|]. split; [by apply Forall_insert|]. by constructor.
Qed.

(** What RLC of the gNB gives reaches RLC of the UE. *)
Lemma pulled_link chans now mt l mt' : @pulled _ (no_two (rlc_mac id)) chans now mt l mt' -> Forall (eq lcid) chans -> forall mr sent dl umt umr, linked mt mr sent dl umt umr ->
  exists mr' l' umt' umr', @deliver _ (rlc_mac id2) 0 l mr = Ok mr' /\ linked mt' mr' sent (dl ++ l') umt' umr'.
Proof.
  intros Hp Hc. induction Hp as [m|m c n x k x' m' l m'' Hin Hn Hx E Hk _ IH|m c n x x' m' l m'' Hin Hn Hx E _ IH]; intros mr sent dl umt umr L.
  - exists mr, [], umt, umr. by rewrite app_nil_r.
  - pose proof (proj1 (Forall_forall _ _) Hc c Hin) as <-. cbn [Mac.rlc_data_req no_two rlc_mac] in E. destruct (Z.eqb_spec n 2) as [|H2]; [done|].
    destruct (rlc_exchange len id lcid rb id2 lcid id' enb Hlen Hids m mr sent dl umt umr x n now L ltac:(done) Hx) as (ret & b & mt1 & umt1 & E' & J).
    rewrite E in E'. injection E' as <- <- <-. rewrite (proj2 (Z.eqb_neq k 0)) in J by lia. destruct J as (mr1 & l1 & umr1 & Ei & L1).
    destruct (rlc_mac_laws id m lcid n x now k x' m' Hn Hx E) as [Hx' Hk']. destruct (IH mr1 sent (dl ++ l1) umt1 umr1 L1) as (mr2 & l2 & umt2 & umr2 & Ed & L2).
    exists mr2, (l1 ++ l2), umt2, umr2. split; [|by rewrite app_assoc]. cbn [deliver fst snd]. replace (zlen (take (Z.to_nat k) x')) with k by (unfold zlen in *; rewrite length_take; lia).
    cbn [rlc_data_ind rlc_mac]. rewrite Ei, bind_Ok. exact Ed.
  - pose proof (proj1 (Forall_forall _ _) Hc c Hin) as <-. cbn [Mac.rlc_data_req no_two rlc_mac] in E. destruct (Z.eqb_spec n 2) as [|H2]; [done|].
    destruct (rlc_exchange len id lcid rb id2 lcid id' enb Hlen Hids m mr sent dl umt umr x n now L ltac:(done) Hx) as (ret & b & mt1 & umt1 & E' & J).
    rewrite E in E'. injection E' as <- <- <-. by apply (IH mr sent dl umt1 umr).
Qed.

Lemma no_rlc_failure chans now mt mr sent dl umt umr e : linked mt mr sent dl umt umr -> Forall (eq lcid) chans -> @rlc_fails _ (no_two (rlc_mac id)) chans now mt e -> e = Undef.
Proof.
  intros L Hc (l & m & c & n & x & Hp & Hin & Hn & Hx & E). destruct (pulled_link _ _ _ _ _ Hp Hc mr sent dl umt umr L) as (mr' & l' & umt' & umr' & _ & L').
  pose proof (proj1 (Forall_forall _ _) Hc c Hin) as <-. cbn [Mac.rlc_data_req no_two rlc_mac] in E. destruct (Z.eqb_spec n 2) as [|H2]; [by injection E|].
  destruct (rlc_exchange len id lcid rb id2 lcid id' enb Hlen Hids m mr' sent _ umt' umr' x n now L' ltac:(done) Hx) as (ret & b & mt1 & umt1 & E' & _). congruence.
Qed.

(** A block, from the gNB's RLC to the UE's. *)
Lemma block_link sc tag R1 noise TBS rbSize frame now mt tb ds frame' slot (u : ue_mac RlcApi.rlc_state) sent dl umt umr : linked mt (ue_rlc u) sent dl umt umr ->
  block_ok sc TBS tb ds -> Forall (eq lcid) (lc_config sc) -> im_is_scheduled (csi_im sc) = false -> zlen (encode_all (ce_list sc tag R1)) < TBS ->
  0 <= ta_update sc -> 0 <= tag < 4 -> ue_tag_Id u = tag -> 0 <= scs u < 5 -> two_step (ra u) = false \/ ra_state (ra u) <> nrRA_WAIT_MSGB ->
  @fill_transport_block _ (no_two (rlc_mac id)) sc tag R1 false noise TBS rbSize frame now mt tb ds <> Err Undef ->
  exists mt' tb' sc' ds' u' l' umt' umr', @fill_transport_block _ (rlc_mac id) sc tag R1 false noise TBS rbSize frame now mt tb ds = Ok (mt', tb', sc', ds') /\
    @nr_ue_process_mac_pdu _ (rlc_mac id2) 0 frame' slot (Some (take (Z.to_nat TBS) tb')) TBS u = Ok u' /\ linked mt' (ue_rlc u') sent (dl ++ l') umt' umr'.
Proof.
  intros L Hok Hc Him HT Hta Htag Hu Hs Hra Hno. pose proof (bk_len _ _ _ _ Hok) as Hb. pose proof (zlen_nonneg (encode_all (ce_list sc tag R1))).
  destruct (@fill_spec _ (no_two (rlc_mac id)) _ now sc tag R1 noise TBS rbSize frame mt tb ds Hok Him HT) as [(l & mt' & tb' & sc' & ds' & E & Hp & Hl & Hlen' & Ht & _)|(e & E & Hf)].
  2: { rewrite (no_rlc_failure _ _ _ _ _ _ _ _ _ L Hc Hf) in E. done. }
  destruct (pulled_link _ _ _ _ _ Hp Hc _ sent dl umt umr L) as (mr' & l' & umt' & umr' & Ed & L').
  assert (Ht1 : exists u1, (if ta_apply sc then set_time_alignment u (ta_update sc) adjustment_ta frame' slot else mret u) = Ok u1 /\ ue_rlc u1 = ue_rlc u).
  { destruct (ta_apply sc); [|by exists u]. unfold set_time_alignment. destruct (rd_ok nr_slots_per_frame (scs u) Hs) as (n & -> & _). rewrite bind_Ok. by eexists. }
  destruct Ht1 as (u1 & Eu & Er). exists mt', tb', sc', ds', (u1 <| ue_rlc := mr' |>), l', umt', umr'. split; [by apply fill_guard|]. split; [|exact L'].
  pose proof (@process_block _ (rlc_mac id2) 0 frame' slot sc tag R1 TBS l u tb' [] (bk_ce _ _ _ _ Hok) Hl Ht ltac:(lia) Hta Htag Hu Hra) as P. rewrite app_nil_r in P. rewrite P, Eu, bind_Ok, Er, Ed, bind_Ok. done.
Qed.

End Block.

(** ** Five octets left *)

Lemma um_set_time_idle len e q k now e1 : RlcUmLink.tx_inv len e q k -> Um.nr_rlc_entity_um_set_time e now = Ok e1 ->
  Um.tx_list e1 = Um.tx_list e /\ Um.tx_size e1 = Um.tx_size e /\ Um.common e1 = Um.common e /\ Um.tx_maxsize e1 = Um.tx_maxsize e /\ RlcUmLink.tx_inv len e1 q k.
Proof.
  intros T E. destruct (RlcUmLink.tx_set_time len e q k now T) as (e' & E' & _ & _ & T'). rewrite E in E'. injection E' as <-.
  unfold Um.nr_rlc_entity_um_set_time, Um.check_t_reassembly in E. cbn in E. rewrite (RlcUmLink.ti_idle _ _ _ _ T) in E. change (0 =? 0) with true in E. cbn [orb] in E. apply mret_ok in E as <-. done.
Qed.

(** [C31] When exactly five octets of a transport block are left, MAC asks RLC for two, and a bearer in unacknowledged mode with a
    12-bit SN loses the SDU at the head of its queue: nothing is put into the block, the SDU is off the list, and its bytes still
    count. *)
Theorem mac_five_octets_lose_sdu id lcid rb m e D q tb buf b n avail bufEnd now fuel : has_um m id lcid rb e -> 0 <= id < 2 ^ 16 ->
  RlcUmLink.tx_inv 12 e (D :: q) 0 -> 2 <= zlen D -> 2 <= avail -> bufEnd = buf + 5 -> 0 <= buf -> bufEnd <= zlen tb ->
  exists m' tb' e' s, @pull _ (rlc_mac id) (S fuel) lcid avail bufEnd now (mk_filling m tb buf b n) = Ok (mk_filling m' tb' buf b n) /\
    has_um m' id lcid rb e' /\ Um.tx_list e = s :: Um.tx_list e' /\ Um.tx_size e' = Um.tx_size e.
Proof.
  intros H Hid T HD Ha -> Hb Hl. destruct (RlcUmLink.tx_set_time 12 e _ _ (RlcApi.current_time m) T) as (e1 & Et & _). destruct (um_set_time_idle _ _ _ _ _ _ T Et) as (El & Es & Ec & _ & T1).
  cbn [pull f_buf f_tb f_rlc]. replace (buf + 5 - buf) with 5 by lia. change (negb (u64 5 >? 4)) with false. cbv iota. replace (Z.min avail (5 - 3)) with 2 by lia.
  rewrite slice_ok, bind_Ok by lia. set (x := take _ _). assert (Hx : zlen x = 2) by (unfold x, zlen in *; rewrite length_take, length_drop; lia).
  destruct (um_two_byte_grant_loses_sdu e1 D q x now T1 HD) as (e2 & s & G & Hs & Hz & _).
  destruct (data_req_um m id lcid rb e 2 x now e1 0 x e2 H Hid Et ltac:(by rewrite Ec) G) as (m' & Em & Hm & _). cbn [Mac.rlc_data_req rlc_mac]. rewrite Em, bind_Ok.
  rewrite blit_ok, bind_Ok by lia. exists m'. do 3 eexists. split; [reflexivity|]. split; [exact Hm|]. rewrite <- El, <- Es. done.
Qed.

Lemma demo_has_um : exists e, Um.new_nr_rlc_entity_um RLC_RX_MAXSIZE RLC_TX_MAXSIZE 35 12 = Ok e /\
  has_um (demo_rlc true 70) 70 4 2 e /\ has_um (demo_rlc false 7) 7 4 2 e.
Proof.
  eexists. split; [vm_compute; reflexivity|].
  split; (constructor; [lia|unfold Sdap.MAX_DRBS_PER_UE; lia|]); eexists; split_and!; vm_compute; reflexivity.
Qed.

(** The bearer of the example with its SDU of five octets. *)
Lemma mac_five_octets_lose_sdu_witness : exists e m' tb' e' s, has_um demo_queued 70 4 2 e /\
  @pull _ (rlc_mac 70) 1 4 6 15 0 (mk_filling demo_queued (replicate 20 0) 10 0 0) = Ok (mk_filling m' tb' 10 0 0) /\ Um.tx_list e = s :: Um.tx_list e' /\ Um.tx_size e' = Um.tx_size e.
Proof.
  destruct demo_has_um as (e & Ne & H & _).
  destruct (RlcUmLink.new_link 12 RLC_RX_MAXSIZE RLC_TX_MAXSIZE 35 (or_intror eq_refl) ltac:(done) ltac:(done)) as (e0 & Ne' & (q & k & dl & T & _ & _ & S) & Ha).
  rewrite Ne in Ne'. injection Ne' as <-. cbn in T, S. destruct dl; [|discriminate S]. destruct q; [|discriminate S]. destruct (RlcUmLink.queue_at_nil _ _ _ (RlcUmLink.ti_queue _ _ _ _ T)) as [_ ->].
  destruct (RlcUmLink.tx_set_time 12 e [] 0 (RlcApi.current_time (demo_rlc true 70)) T) as (e1 & Et & _). destruct (um_set_time_idle _ _ _ _ _ _ T Et) as (_ & Es & Ec & Ex & T1).
  destruct (RlcUmLink.recv_sdu_tx 12 e1 [] 0 [1; 2; 3; 4; 5] 0 0 T1) as (e2 & Er & _ & _ & T2); [done|].
  destruct (sdu_req_um (demo_rlc true 70) 70 4 2 e (mk_ctxt 0 true 0 70 0 false) 0 5 [1; 2; 3; 4; 5] 0 e1 e2 H eq_refl Et ltac:(by rewrite Ec) Er) as (m & Em & Hm & _).
  assert (Eq : demo_queued = m) by (unfold demo_queued; by rewrite Em).
  assert (Ha1 : Um.nr_rlc_entity_um_available_tx_space e1 = RLC_TX_MAXSIZE) by (rewrite <- Ha; unfold Um.nr_rlc_entity_um_available_tx_space; by rewrite Es, Ex).
  rewrite Ha1 in T2. rewrite Eq.
  destruct (mac_five_octets_lose_sdu 70 4 2 m e2 [1; 2; 3; 4; 5] [] (replicate 20 0) 10 0 0 6 15 0 0 Hm ltac:(done) T2 ltac:(done) ltac:(done) eq_refl ltac:(done) ltac:(done)) as (m' & tb' & e' & s & P & _ & P2 & P3).
  by exists e2, m', tb', e', s.
Defined.
