(* ===== verification/MacAir.v ===== *)
(** * A transport block over the air

    MAC of the gNB, the downlink shared channel and MAC of the UE: a transport block from RLC to RLC. *)

From S2P Require Import Prelude RlcPdu RlcSdu RlcEntity RlcBearer RlcApi Crc CrcProps Tbs Segmentation SegmentationProps.
From S2P Require Import RateMatch RateMatchProps Dlsch DlschTx DlschRx DlschLink DlschToy DlschProps.
From S2P Require Import Mac MacPdu MacBlock MacRlc MacProps.

Import Mac.

(** ** A block is not all zeros *)

Lemma pack_first w x l : 0 < w -> 0 < x < 2 ^ w -> 0 <= pack l -> pack ((w, x) :: l) <> 0.
Proof. intros Hw Hx Hl. cbn [pack]. rewrite Z.mod_small by lia. nia. Qed.

Lemma pack_nonneg l : Forall (fun e => 0 <= e.1) l -> 0 <= pack l.
Proof. induction 1 as [|[w x] l Hw _ IH]; [done|]. cbn [pack fst] in *. pose proof (Z.mod_pos_bound x (2 ^ w) ltac:(lia)). pose proof (Z.pow_nonneg 2 w). nia. Qed.

Lemma pack_lcid lcid l : 0 < lcid < 64 -> Forall (fun e => 0 <= e.1) l -> pack ((6, lcid) :: l) <> 0.
Proof. intros Hl Hn. apply pack_first; [lia|lia|by apply pack_nonneg]. Qed.

Lemma encode_first s : well_formed s -> exists h t, encode s = h :: t /\ h <> 0.
Proof.
  destruct s as [lcid ce|lcid ce|lcid d|n]; intros Hw; cbn [encode]; eexists _, _; (split; [reflexivity|]); apply pack_lcid; try (by repeat constructor).
  - cbn [well_formed] in Hw. unfold ce_sizes in Hw. repeat (apply elem_of_cons in Hw as [Hw|Hw]; [by injection Hw as -> _|]). by apply not_elem_of_nil in Hw.
  - destruct Hw as [Hw _]. unfold sized_ces in Hw. repeat (apply elem_of_cons in Hw as [->|Hw]; [done|]). by apply not_elem_of_nil in Hw.
  - destruct Hw as [Hw _]. lia.
Qed.

Lemma block_nonzero l : Forall well_formed l -> 0 < zlen (encode_all l) -> bool_decide (Forall (fun z => z = 0) (encode_all l)) = false.
Proof.
  intros Hw Hp. destruct Hw as [|s l Hs _]; [done|]. destruct (encode_first s Hs) as (h & t & E & Hh). apply bool_decide_eq_false_2. intros Hf.
  change (encode_all (s :: l)) with (encode s ++ encode_all l) in Hf. rewrite E in Hf. by apply Forall_inv in Hf.
Qed.

(** ** From RLC to RLC *)


(** A block of 20 octets on two resource blocks, with the coder of [DlschToy]. *)
Definition air_pdu : Dlsch.pdsch_pdu := Dlsch.mk_pdsch_pdu 20 2 2 12 4 0 1 1 2 0 0.
Definition air_v : Segmentation.seg_vars := Segmentation.mk_seg_vars 1 300 30 124.
Definition air_gnb (tb : bytes) : Dlsch.gnb_harq := Dlsch.mk_gnb_harq (tb ++ replicate 5 0) (replicate 40 0) [replicate 1056 0] 0 air_pdu.
Definition air_dlsch : Dlsch.ue_dlsch := Dlsch.mk_ue_dlsch 160 2 2 1 0 0 106 0 5 0.

(** The block that MAC fills, with the SDU of [demo_queued] in it. *)
Definition air_block : bytes :=
  match @fill_transport_block _ (rlc_mac 70) (demo_sched false 6) 1 0 false (fun _ => 0) 20 5 100 0 demo_queued (replicate 60 0) demo_stats with
  | Ok (_, tb, _, _) => take 20 tb
  | Err _ => []
  end.

Lemma air_params : DlschTx.dl_params air_pdu (Dlsch.dlsch_G air_pdu 0) air_v 0 176.
Proof.
  destruct (nr_segmentation_params demo_tables 176 2 (Segmentation.mk_seg_vars 0 0 0 0) ltac:(lia) ltac:(by right)) as (v & L & Kp & P & E & _).
  assert (Ev : v = air_v) by (vm_compute in E; injection E as <-; reflexivity). subst v.
  pose proof (sp_L _ _ _ _ _ P) as EL. pose proof (sp_Kp _ _ _ _ _ P) as EK. vm_compute in EL. subst L. vm_compute in EK. subst Kp.
  constructor.
  - cbn. lia.
  - by right.
  - exact P.
  - exists 22. reflexivity.
  - by left.
  - cbn. lia.
  - vm_compute. congruence.
  - vm_compute. split; congruence.
  - intros r Hr. assert (r = 0) as -> by (cbn in Hr; lia). constructor; try (vm_compute; split; congruence); try (vm_compute; congruence); by right.
Qed.

Lemma air_ready : dl_ready demo_tables (air_gnb air_block) air_block (replicate 600 0) air_v 0 176.
Proof.
  constructor.
  - constructor.
    + exists (replicate 5 0). split; [reflexivity|]. split; [vm_compute; congruence|]. vm_compute. repeat constructor; congruence.
    + vm_compute. reflexivity.
    + vm_compute. repeat split; congruence.
    + split; [vm_compute; congruence|]. apply zero_bytes. unfold is_byte. lia.
  - exact air_params.
  - intros v0. vm_compute. reflexivity.
  - vm_compute. congruence.
  - constructor; [|constructor]. apply zero_bytes. unfold is_byte. lia.
  - constructor; [|constructor]. vm_compute. congruence.
  - constructor; [|constructor]. right. vm_compute. reflexivity.
  - vm_compute. congruence.
Qed.

Lemma air_enough : toy_enough 2 30 124 116 (DlschRx.seg_positions (air_gnb air_block) air_v 0).
Proof.
  assert (Hb : forallb (fun i => negb (RateMatchProps.usable 124 116 i) || bool_decide (i ∈ DlschRx.seg_positions (air_gnb air_block) air_v 0)) (seqZ 0 300) = true) by (vm_compute; reflexivity).
  intros i Hi Hu. change (K_of 2 30) with 300 in Hi. rewrite forallb_forall in Hb. specialize (Hb i).
  rewrite Hu in Hb. cbn [negb orb] in Hb. eapply bool_decide_eq_true_1, Hb, list_elem_of_In, elem_of_seqZ. lia.
Qed.

Lemma air_rx_ready : @rx_ready demo_tables (toy_ldpc demo_tables) (toy_code demo_tables) (toy_decoder demo_tables demo_tables_fine) (air_gnb air_block) air_block air_v 10 air_dlsch demo_ue (replicate 30 0).
Proof.
  constructor.
  - constructor; try reflexivity; [by left|vm_compute; split; congruence].
  - lia.
  - intros r Hr. assert (r = 0) as -> by (cbn in Hr; lia). split; [vm_compute; reflexivity|exact air_enough].
  - reflexivity.
  - intros k Hk. assert (k = 0) as -> by (cbn in Hk; lia). split; eexists; (split; [reflexivity|]); vm_compute; congruence.
  - vm_compute. congruence.
  - split; [vm_compute; congruence|]. apply zero_bytes. unfold is_byte. lia.
Qed.

