(* ===== verification/Stack.v ===== *)
(** * The whole user plane: SDAP, PDCP and RLC of two nodes

    Two nodes with all their layers, the threads that empty the request queues, and the MAC
    layers of gNB and UE that exchange transport blocks.  An SDU enters SDAP of the sender; it passes the
    queue to RLC, is segmented into the grants MAC gives, reassembled, passes the queue to
    PDCP and leaves SDAP of the receiver. *)

From S2P Require Import Prelude RlcPdu RlcSdu TimeStat RlcEntity RlcRx RlcTm RlcUm RlcUmLink RlcAm RlcAmEntity RlcBearer.
From S2P Require Import Security Pdcp PdcpRx PdcpLink PdcpProps Sdap SdapProps WorkQueue F1Ids.
From S2P Require Import RlcApi RlcApiProps RlcApiUm PdcpApi PdcpApiProps.
From S2P Require Import Mac MacPdu MacBlock MacRlc MacUm.

#[local] Existing Instances Mac.eta_ue_mac Sdap.eta_world.

Section Stack.
Context {O : Openssl}.

Record node := mk_node { n_world : world; n_rlc : RlcApi.rlc_state }.

#[export] Instance eta_node : Eta node := fun n => mk_node (n_world n) (n_rlc n).

(** [s_req] and [s_ind] count what the threads have taken from the queues of the sender and of
    the receiver; [s_sent] are the SDUs given to SDAP; [s_ue] is MAC of the receiver, when that is a UE. *)
Record stack := mk_stack {
  s_tx : node; s_rx : node; s_req : nat; s_ind : nat; s_sent : list bytes; s_ue : Mac.ue_mac RlcApi.rlc_state }.

#[export] Instance eta_stack : Eta stack := fun s =>
  mk_stack (s_tx s) (s_rx s) (s_req s) (s_ind s) (s_sent s) (s_ue s).

(** A QoS flow and the identifiers of its bearer: context and PDU session at the sender,
    UE and logical channel of RLC at both ends. *)
Record path := mk_path {
  p_ctxt : protocol_ctxt_t; p_qfi : Z; p_rqi : bool; p_pdus : Z; p_ue : Z; p_lcid : Z; p_ue' : Z; p_lcid' : Z }.

(** What the scheduler of a gNB decides for a transport block: the control elements, the size, the place; and the
    buffer and the statistics that go with it. *)
Record dl_grant := mk_dl_grant {
  g_sc : Mac.sched_ctrl; g_tag : Z; g_R1 : Z; g_TBS : Z; g_rbSize : Z; g_frame : Z; g_slot : Z; g_tb : bytes; g_ds : Mac.dl_stats }.

(** A MAC layer that is not modelled gives RLC a grant and carries the PDU over ([Grant]), or the MAC layers of gNB and UE
    exchange a transport block ([Block]). *)
Inductive stack_op :=
| App (sdu : bytes)
| RlcThread (now : Z)
| Grant (size now : Z)
| Block (g : dl_grant) (now : Z)
| PdcpThread
| Clock (frame subframe : Z).

Definition upd_tx_rlc (st : stack) (m : RlcApi.rlc_state) : stack := st <| s_tx ::= fun n => n <| n_rlc := m |> |>.
Definition upd_rx_rlc (st : stack) (m : RlcApi.rlc_state) : stack := st <| s_rx ::= fun n => n <| n_rlc := m |> |>.

(** The initial transmission of a block at the gNB, from the buffer report on. *)
Definition fill_block (R : Mac.RlcMac RlcApi.rlc_state) (g : dl_grant) (now : Z) (m : RlcApi.rlc_state) : res (RlcApi.rlc_state * bytes) :=
  '(sc, m) ← Mac.nr_store_dlsch_buffer (g_sc g) m;
  '(m, tb, _, _) ← Mac.fill_transport_block sc (g_tag g) (g_R1 g) false (fun _ => 0) (g_TBS g) (g_rbSize g) (g_frame g) now m (g_tb g) (g_ds g);
  mret (m, take (Z.to_nat (g_TBS g)) tb).

Definition stack_step (p : path) (st : stack) (op : stack_op) : res stack :=
  match op with
  | App sdu =>
      '(_, w) ← Sdap.sdap_data_req (n_world (s_tx st)) (p_ctxt p) (rntiMaybeUEid (p_ctxt p)) false 0 Sdap.RLC_MUI_UNDEFINED
                  (zlen sdu) (Some sdu) (p_qfi p) (p_rqi p) (p_pdus p);
      mret (st <| s_tx ::= fun n => n <| n_world := w |> |> <| s_sent ::= fun l => l ++ [sdu] |>)
  | RlcThread now =>
      match p_out (Sdap.pdcp (n_world (s_tx st))) !! s_req st with
      | Some (RlcDataReq i) =>
          m ← RlcApi.rlc_data_req (n_rlc (s_tx st)) (rq_ctxt i) (rq_srb_flag i) (rq_rb_id i) (rq_mui i) (rq_sdu_size i)
                (rq_sdu i) now;
          mret ((upd_tx_rlc st m) <| s_req ::= S |>)
      | _ => mret st
      end
  | Grant size now =>
      '(ret, b, m) ← RlcApi.mac_rlc_data_req (n_rlc (s_tx st)) (p_ue p) (p_lcid p) size (replicate (Z.to_nat size) 0) now;
      let st := upd_tx_rlc st m in
      if ret =? 0 then mret st
      else
        m ← RlcApi.mac_rlc_data_ind (n_rlc (s_rx st)) (p_ue' p) 0 false (p_lcid' p) (take (Z.to_nat ret) b) ret;
        mret (upd_rx_rlc st m)
  | Block g now =>
      '(m, tb) ← fill_block (rlc_mac (p_ue p)) g now (n_rlc (s_tx st));
      u ← @Mac.nr_ue_process_mac_pdu _ (rlc_mac (p_ue' p)) 0 (g_frame g) (g_slot g) (Some tb) (g_TBS g)
            ((s_ue st) <| Mac.ue_rlc := n_rlc (s_rx st) |>);
      mret ((upd_rx_rlc (upd_tx_rlc st m) (Mac.ue_rlc u)) <| s_ue := u |>)
  | PdcpThread =>
      match RlcApi.r_out (n_rlc (s_rx st)) !! s_ind st with
      | Some (RlcApi.PdcpDataInd i) =>
          w ← do_pdcp_data_ind (n_world (s_rx st)) (pi_ctxt i) (pi_srb_flag i) (pi_rb_id i) (pi_size i) (pi_buffer i);
          mret (st <| s_rx ::= fun n => n <| n_world := w |> |> <| s_ind ::= S |>)
      | _ => mret st
      end
  | Clock f s =>
      mret (upd_rx_rlc (upd_tx_rlc st (RlcApi.nr_rlc_tick (n_rlc (s_tx st)) f s)) (RlcApi.nr_rlc_tick (n_rlc (s_rx st)) f s))
  end.

Fixpoint stack_run (p : path) (st : stack) (ops : list stack_op) : res stack :=
  match ops with
  | [] => mret st
  | op :: ops => st ← stack_step p st op; stack_run p st ops
  end.

(** The scheduler's values are in range, the bearer is the UE's only logical channel, the UE is not in the two-step random
    access, and filling the block never leaves RLC exactly two bytes. *)
Record block_step_ok (p : path) (st : stack) (g : dl_grant) (now : Z) : Prop := {
  bs_lcid : p_lcid' p = p_lcid p /\ Mac.lc_config (g_sc g) = [p_lcid p];
  bs_block : block_ok (g_sc g) (g_TBS g) (g_tb g) (g_ds g);
  bs_ces : Mac.im_is_scheduled (Mac.csi_im (g_sc g)) = false /\ zlen (encode_all (ce_list (g_sc g) (g_tag g) (g_R1 g))) < g_TBS g;
  bs_ta : 0 <= Mac.ta_update (g_sc g) /\ 0 <= g_tag g < 4 /\ Mac.ue_tag_Id (s_ue st) = g_tag g /\ 0 <= Mac.scs (s_ue st) < 5;
  bs_ra : Mac.two_step (Mac.ra (s_ue st)) = false \/ Mac.ra_state (Mac.ra (s_ue st)) <> Mac.nrRA_WAIT_MSGB;
  bs_two : fill_block (no_two (rlc_mac (p_ue p))) g now (n_rlc (s_tx st)) <> Err Undef }.

(** SDUs have a size SDAP accepts and there is a COUNT for them; the RLC buffer has room for
    what the thread hands over; no grant has two bytes (see [um_two_byte_grant_loses_sdu]). *)
Definition step_ok (p : path) (st : stack) (op : stack_op) : Prop :=
  match op with
  | App sdu => Forall is_byte sdu /\ 1 <= zlen sdu <= 8999 /\ Z.of_nat (length (s_sent st)) < 2 ^ 31
  | RlcThread _ =>
      forall i, p_out (Sdap.pdcp (n_world (s_tx st))) !! s_req st = Some (RlcDataReq i) ->
        exists n m, RlcApi.nr_rlc_get_available_tx_space (n_rlc (s_tx st)) (p_ue p) (p_lcid p) = Ok (n, m) /\ rq_sdu_size i <= n
  | Grant size _ => 0 <= size /\ size <> 2
  | Block g now => block_step_ok p st g now
  | PdcpThread | Clock _ _ => True
  end.

Fixpoint run_ok (p : path) (st : stack) (ops : list stack_op) : Prop :=
  match ops with
  | [] => True
  | op :: ops => step_ok p st op /\ forall st', stack_step p st op = Ok st' -> run_ok p st' ops
  end.

(** ** Start *)

(** The bearer is configured on both nodes and nothing has been sent. *)
Record stack_start (p : path) (len id' : Z) (q : Sdap.qfi2drb_t) (es er : Sdap.nr_sdap_entity_t) (tx rx : Pdcp.nr_pdcp_entity_t)
    (st : stack) : Prop := {
  ss_tx : sender_ok (n_world (s_tx st)) (p_ctxt p) (p_qfi p) (p_pdus p) q es (p_ue p) tx;
  ss_rx : receiver_ok (n_world (s_rx st)) (mk_ctxt 0 (RlcApi.mgr_enb_flag (n_rlc (s_rx st))) 0 id' 0 false) (Sdap.drb_id q) tx rx er;
  ss_count : Pdcp.tx_next tx = 0 /\ Pdcp.rx_deliv rx = 0;
  ss_um : exists e t, Um.new_nr_rlc_entity_um RLC_RX_MAXSIZE RLC_TX_MAXSIZE t len = Ok e /\
    has_um (n_rlc (s_tx st)) (p_ue p) (p_lcid p) (Sdap.drb_id q) e /\
    has_um (n_rlc (s_rx st)) (p_ue' p) (p_lcid' p) (Sdap.drb_id q) e;
  ss_ids : 0 <= p_ue p < 2 ^ 16 /\ 0 <= p_ue' p < 2 ^ 16 /\ pdcp_ue (n_rlc (s_rx st)) (p_ue' p) id';
  ss_empty : s_req st = 0%nat /\ s_ind st = 0%nat /\ s_sent st = [] /\ p_out (Sdap.pdcp (n_world (s_tx st))) = [] /\
    RlcApi.r_out (n_rlc (s_rx st)) = [] /\ Sdap.out (n_world (s_rx st)) = [] }.
End Stack.
