(* ===== verification/StackProps.v ===== *)
(** * The whole user plane: delivery

    The invariant of two connected stacks and what it gives: the receiver's SDAP hands up the
    SDUs given to the sender's SDAP, in order, each once, byte for byte. *)

From S2P Require Import Prelude RlcPdu RlcSdu TimeStat RlcEntity RlcRx RlcTm RlcUm RlcUmLink RlcAm RlcAmEntity RlcBearer.
From S2P Require Import Security Pdcp PdcpRx PdcpLink PdcpProps Sdap SdapProps WorkQueue F1Ids.
From S2P Require Import RlcApi RlcApiProps RlcApiUm PdcpApi PdcpApiProps.
From S2P Require Import Mac MacPdu MacBlock MacRlc MacUm Stack.

#[local] Existing Instances Mac.eta_ue_mac Sdap.eta_world Pdcp.eta_pdcp.

(** Every PDU of PDCP fits an RLC SDU. *)
Lemma encodes_size `{Openssl} e c sdu pdu : encodes e c sdu pdu -> 2 <= zlen sdu <= 9000 -> 0 < zlen pdu <= NR_SDU_MAX.
Proof.
  intros (sd & pt & tag & ct & -> & Hd & _ & _ & Hc & _ & _ & ->) Hs. rewrite !zlen_app in *. rewrite header_zlen, Hc.
  pose proof (header_size_pos e). pose proof (integrity_size_range e). pose proof (zlen_nonneg sd). pose proof (zlen_nonneg pt).
  unfold NR_SDU_MAX. lia.
Qed.

Section Delivery.
Context {O : Openssl} (p : path) (len id' : Z) (q : Sdap.qfi2drb_t) (es er : Sdap.nr_sdap_entity_t).
Context (tx0 : Pdcp.nr_pdcp_entity_t) (enb gnb : bool) (ps : Z).
Hypothesis Hlen : len_ok len.
Hypothesis Hids : 0 <= p_ue p < 2 ^ 16 /\ 0 <= p_ue' p < 2 ^ 16.

(** What the receiver hands up for an SDU. *)
Definition handed_up (sdu : bytes) : Sdap.sdap_out := if gnb then Sdap.GtpuDataReq id' ps sdu else Sdap.NasWrite sdu.

Definition receiver_ctxt : protocol_ctxt_t := mk_ctxt 0 enb 0 id' 0 false.

Definition req_of (pdu : bytes) : pdcp_out :=
  RlcDataReq (data_req (Pdcp.is_gnb tx0) (p_ue p) (Sdap.drb_id q) Sdap.RLC_MUI_UNDEFINED pdu).

Definition ind_of (pdu : bytes) : RlcApi.rlc_out := RlcApi.PdcpDataInd (data_ind enb id' (Sdap.drb_id q) pdu).

(** The PDUs of the SDUs sent, numbered from 0. *)
Definition pdus_of (sent pdus : list bytes) : Prop :=
  length pdus = length sent /\
  forall i sdu pdu, sent !! i = Some sdu -> pdus !! i = Some pdu ->
    encodes tx0 (Z.of_nat i) (framed tx0 (p_qfi p) (p_rqi p) sdu) pdu /\ 0 < zlen pdu <= NR_SDU_MAX.

Record sent_inv (st : stack) (pdus : list bytes) (tx : Pdcp.nr_pdcp_entity_t) : Prop := {
  st_tx : sender_ok (n_world (s_tx st)) (p_ctxt p) (p_qfi p) (p_pdus p) q es (p_ue p) tx;
  st_same : exists s, tx = tx0 <| Pdcp.tx_next := Z.of_nat (length (s_sent st)) |> <| Pdcp.stats := s |>;
  st_pdus : pdus_of (s_sent st) pdus;
  st_out : p_out (Sdap.pdcp (n_world (s_tx st))) = req_of <$> pdus;
  st_req : (s_req st <= length pdus)%nat;
  st_count : Z.of_nat (length (s_sent st)) <= 2 ^ 31 }.

Definition link_part (st : stack) (pdus delivered : list bytes) (umt umr : Um.nr_rlc_entity_um_t) : Prop :=
  rlc_link len (p_ue p) (p_lcid p) (Sdap.drb_id q) (p_ue' p) (p_lcid' p) id' enb (n_rlc (s_tx st)) (n_rlc (s_rx st)) (take (s_req st) pdus) delivered umt umr.

Record received_inv (st : stack) (delivered : list bytes) (rx : Pdcp.nr_pdcp_entity_t) : Prop := {
  rv_n : (s_ind st <= length delivered)%nat;
  rv_rx : receiver_ok (n_world (s_rx st)) receiver_ctxt (Sdap.drb_id q) tx0 rx er;
  rv_deliv : Pdcp.rx_deliv rx = Z.of_nat (s_ind st);
  rv_same : Pdcp.is_gnb rx = gnb /\ Pdcp.pdusession_id rx = ps;
  rv_up : Sdap.out (n_world (s_rx st)) = handed_up <$> take (s_ind st) (s_sent st) }.

Definition stack_inv (st : stack) : Prop :=
  exists pdus delivered tx rx umt umr,
    sent_inv st pdus tx /\ link_part st pdus delivered umt umr /\ received_inv st delivered rx.

(** What RLC delivered is a prefix of what it was given. *)
Lemma delivered_prefix st pdus delivered umt umr : link_part st pdus delivered umt umr ->
  delivered `prefix_of` pdus.
Proof.
  intros [_ _ (ql & k & dl & _ & _ & C & S) C' _ _]. cbn in C, S. rewrite C' in C.
  apply (inj (fmap DeliverSdu)) in C as ->.
  exists (ql ++ drop (s_req st) pdus). by rewrite app_assoc, <- S, take_drop.
Qed.

Lemma space_um m id lcid rb e n m' : has_um m id lcid rb e ->
  RlcApi.nr_rlc_get_available_tx_space m id lcid = Ok (n, m') -> n = Um.nr_rlc_entity_um_available_tx_space e.
Proof.
  intros H. pose proof H as [_ _ (u & F & _ & _)]. unfold RlcApi.nr_rlc_get_available_tx_space.
  rewrite (get_known m id u F), (lcid_um _ _ _ _ _ _ H F). mon. by intros [= <- _].
Qed.

(** ** The steps *)

Lemma app_step st sdu : stack_inv st -> step_ok p st (App sdu) ->
  exists st', stack_step p st (App sdu) = Ok st' /\ stack_inv st'.
Proof.
  intros (pdus & dl & tx & rx & umt & umr & [S (sx & E) [Pl Pe] Po Rq Ct] & L & [Rn Rx Rd Rs Ru]) (Hb & Hz & Hc).
  assert (Hn : Pdcp.tx_next tx = Z.of_nat (length (s_sent st))) by (by rewrite E).
  destruct (sdap_send _ _ 0 Sdap.RLC_MUI_UNDEFINED _ (p_rqi p) _ _ _ _ _ sdu S) as (w' & pdu & sy & R & Po' & En & S'); [lia|done|done|].
  assert (En' : encodes tx0 (Z.of_nat (length (s_sent st))) (framed tx0 (p_qfi p) (p_rqi p) sdu) pdu).
  { rewrite <- Hn, E in *. exact En. }
  assert (Hg : Pdcp.is_gnb tx = Pdcp.is_gnb tx0) by (by rewrite E).
  cbn [stack_step]. rewrite R. mon. eexists. split; [reflexivity|].
  pose proof (prefix_length _ _ (delivered_prefix _ _ _ _ _ L)) as Hl.
  exists (pdus ++ [pdu]), dl, (tx <| Pdcp.tx_next := Pdcp.tx_next tx + 1 |> <| Pdcp.stats := sy |>), rx, umt, umr. split_and!.
  - constructor; cbn; [done| | | |rewrite length_app; lia|rewrite length_app; cbn; lia].
    + exists sy. rewrite Hn, E, length_app. cbn. f_equal. lia.
    + split; [rewrite !length_app; cbn; lia|].
      intros i s x [[Hs Ls]|[Hs <-]]%lookup_snoc_Some [[Hx Lx]|[Hx <-]]%lookup_snoc_Some; [by apply Pe|lia|lia|].
      rewrite Hs. split; [done|]. eapply encodes_size; [exact En'|]. unfold framed. rewrite zlen_cons. lia.
    + by rewrite Po', Po, Hg, fmap_app.
  - destruct L as [L1 L2 L3 L4 L5 L6]. constructor; cbn; try done. by rewrite take_app_le.
  - constructor; cbn; try done. rewrite Ru, take_app_le by lia. done.
Qed.

Lemma rlc_step st now : stack_inv st -> step_ok p st (RlcThread now) ->
  exists st', stack_step p st (RlcThread now) = Ok st' /\ stack_inv st'.
Proof.
  intros (pdus & dl & tx & rx & umt & umr & S & L & V) Hs. cbn [stack_step]. cbn in Hs. rewrite (st_out _ _ _ S) in *.
  rewrite list_lookup_fmap in *. destruct (pdus !! s_req st) as [pdu|] eqn:Ep; cbn [fmap option_fmap option_map] in *;
    [|exists st; split; [done|by exists pdus, dl, tx, rx, umt, umr]].
  pose proof S as [_ _ [Pl Pe] _ _ _]. destruct (lookup_lt_is_Some_2 (s_sent st) (s_req st)) as [sdu Es];
    [apply lookup_lt_Some in Ep; lia|]. destruct (Pe _ _ _ Es Ep) as [_ Hz].
  destruct (Hs _ eq_refl) as (n & m0 & Hsp & Hfit). pose proof L as [L1 L2 L3 L4 L5 L6].
  apply (space_um _ _ _ _ _ _ _ L1) in Hsp as ->.
  destruct (link_time len umt umr _ (RlcApi.current_time (n_rlc (s_tx st))) 0 Hlen L3) as (u1 & _ & T1 & _ & I1 & _ & _ & C1 & Sp).
  destruct (RlcUmLink.link_step_inv len _ (RlcUmLink.Send pdu Sdap.RLC_MUI_UNDEFINED now) Hlen I1) as (lk & Ek & I2); [exact Hz|].
  cbn [RlcUmLink.link_step RlcUmLink.l_tx RlcUmLink.l_rx RlcUmLink.l_sent] in Ek. apply bind_ok in Ek as (u2 & R2 & Ek).
  apply mret_ok in Ek as <-.
  destruct (sdu_req_um (n_rlc (s_tx st)) (p_ue p) (p_lcid p) (Sdap.drb_id q) umt
    (mk_ctxt 0 (Pdcp.is_gnb tx0) 0 (p_ue p) 0 false) Sdap.RLC_MUI_UNDEFINED (zlen pdu) pdu now u1 u2 L1) as (m & Em & Hm & _ & _);
    [apply s32_small; lia|done|done|done|].
  unfold req_of at 1. cbn [rq_ctxt rq_srb_flag rq_rb_id rq_mui rq_sdu_size rq_sdu data_req]. rewrite Em. mon.
  eexists. split; [reflexivity|]. exists pdus, dl, tx, rx, u2, umr. split_and!.
  - destruct S. constructor; cbn; try done. by apply lookup_lt_Some in Ep.
  - constructor; cbn; try done. rewrite Sp in I2. rewrite (proj2 (Z.leb_le _ _)) in I2 by done.
    by rewrite (take_S_r _ _ _ Ep).
  - destruct V. by constructor.
Qed.

Lemma pdcp_step st : stack_inv st -> exists st', stack_step p st PdcpThread = Ok st' /\ stack_inv st'.
Proof.
  intros (pdus & dl & tx & rx & umt & umr & S & L & V). cbn [stack_step]. rewrite (lp_ind _ _ _ _ _ _ _ _ _ _ _ _ _ _ L).
  rewrite list_lookup_fmap. destruct (dl !! s_ind st) as [pdu|] eqn:Ed; cbn [fmap option_fmap option_map];
    [|exists st; split; [done|by exists pdus, dl, tx, rx, umt, umr]].
  pose proof (prefix_lookup_Some _ _ _ _ Ed (delivered_prefix _ _ _ _ _ L)) as Ep.
  pose proof S as [Hs _ [Pl Pe] _ _ Hc]. destruct (lookup_lt_is_Some_2 (s_sent st) (s_ind st)) as [sdu Es];
    [apply lookup_lt_Some in Ep; lia|]. destruct (Pe _ _ _ Es Ep) as [En _]. destruct V as [Rn Rx Rd [Rg Rp] Ru].
  rewrite <- Rd in En.
  destruct (sdap_receive _ _ _ (p_qfi p) (p_rqi p) _ _ _ sdu pdu Rx) as (w' & rx' & R & Ou & Rx' & Rd' & Rg' & Rp');
    [apply (sn_rule _ _ _ _ _ _ _ _ Hs)|done|apply lookup_lt_Some in Es; lia|].
  unfold ind_of. cbn [pi_ctxt pi_srb_flag pi_rb_id pi_size pi_buffer data_ind]. fold receiver_ctxt. rewrite R. mon.
  eexists. split; [reflexivity|]. exists pdus, dl, tx, rx', umt, umr. split_and!.
  - destruct S. by constructor.
  - destruct L. by constructor.
  - constructor; cbn; [by apply lookup_lt_Some in Ed|done|lia|by rewrite Rg', Rp'|].
    rewrite Ou, Ru, (take_S_r _ _ _ Es), fmap_app, Rg, Rp. done.
Qed.

(** Room for one SDU of the maximal size is enough for the thread. *)
Lemma room_ok st now n m : stack_inv st ->
  RlcApi.nr_rlc_get_available_tx_space (n_rlc (s_tx st)) (p_ue p) (p_lcid p) = Ok (n, m) -> NR_SDU_MAX <= n ->
  step_ok p st (RlcThread now).
Proof.
  intros (pdus & dl & tx & rx & umt & umr & S & _) Hs Hn i Hi. pose proof S as [_ _ [Pl Pe] Po _ _].
  rewrite Po, list_lookup_fmap in Hi. destruct (pdus !! s_req st) as [pdu|] eqn:Ep; [|done]. injection Hi as <-.
  destruct (lookup_lt_is_Some_2 (s_sent st) (s_req st)) as [sdu Es]; [apply lookup_lt_Some in Ep; lia|].
  destruct (Pe _ _ _ Es Ep) as [_ Hz]. exists n, m. split; [done|]. cbn. lia.
Qed.

Lemma grant_stack_step st size now : stack_inv st -> step_ok p st (Grant size now) ->
  exists st', stack_step p st (Grant size now) = Ok st' /\ stack_inv st'.
Proof.
  intros (pdus & dl & tx & rx & umt & umr & S & L & V) [Hs H2].
  destruct (rlc_exchange _ _ _ _ _ _ _ _ Hlen Hids _ _ _ _ _ _ (replicate (Z.to_nat size) 0) size now L ltac:(done) (RlcUmLink.zlen_grant size Hs)) as (ret & b & m & u2 & Em & J).
  cbn [stack_step]. rewrite Em. mon. destruct (ret =? 0).
  { eexists. split; [reflexivity|]. exists pdus, dl, tx, rx, u2, umr. split_and!; [|done|].
    - destruct S. by constructor.
    - destruct V. by constructor. }
  destruct J as (m' & l & v2 & Ei & L'). change (n_rlc (s_rx (upd_tx_rlc st m))) with (n_rlc (s_rx st)). rewrite Ei. mon. eexists. split; [reflexivity|].
  exists pdus, (dl ++ l), tx, rx, u2, v2. split_and!; [|done|].
  - destruct S. by constructor.
  - destruct V. constructor; cbn; try done. rewrite length_app. lia.
Qed.

Lemma block_stack_step st g now : stack_inv st -> step_ok p st (Block g now) ->
  exists st', stack_step p st (Block g now) = Ok st' /\ stack_inv st'.
Proof.
  intros (pdus & dl & tx & rx & umt & umr & S & L & V) [[Elc Hc] Hok [Him HT] (Hta & Htag & Hu & Hs) Hra H2].
  unfold link_part in L. rewrite Elc in L. pose proof (bk_lcs _ _ _ _ Hok) as Hlcs. rewrite Hc in Hlcs. apply Forall_singleton in Hlcs as (_ & Hl1 & Hl2).
  destruct (store_link len _ (p_lcid p) (Sdap.drb_id q) (p_ue' p) id' enb Hlen Hids (g_sc g) _ _ _ _ _ _ L Hc ltac:(lia) (bk_buffers _ _ _ _ Hok)) as (k & l & mt & u1 & Es & Hl & Hpos & L1).
  cbn [stack_step]. unfold fill_block in *. rewrite Es, bind_Ok. change (@Mac.nr_store_dlsch_buffer _ (no_two (rlc_mac (p_ue p)))) with (@Mac.nr_store_dlsch_buffer _ (rlc_mac (p_ue p))) in H2. rewrite Es, bind_Ok in H2.
  set (sc := (g_sc g) <| Mac.num_total_bytes := k |> <| Mac.bytes_in_buffer := l |>) in *.
  assert (Hok' : block_ok sc (g_TBS g) (g_tb g) (g_ds g)) by (destruct Hok as [O1 O2 O3 O4 O5]; constructor; [by destruct O1|done|done|cbn; by rewrite Hl|done]).
  set (u := (s_ue st) <| Mac.ue_rlc := n_rlc (s_rx st) |>).
  destruct (block_link len (p_ue p) (p_lcid p) (Sdap.drb_id q) (p_ue' p) id' enb Hlen Hids sc (g_tag g) (g_R1 g) (fun _ => 0) (g_TBS g) (g_rbSize g) (g_frame g) now mt (g_tb g) (g_ds g)
    (g_frame g) (g_slot g) u _ dl u1 umr L1 Hok') as (mt' & tb' & sc' & ds' & u' & l' & umt' & umr' & Ef & Ep & L'); try done.
  - change (Mac.lc_config sc) with (Mac.lc_config (g_sc g)). rewrite Hc. by constructor.
  - intros E. by rewrite E in H2.
  - rewrite Ef, !bind_Ok, Ep, bind_Ok. eexists. split; [reflexivity|]. exists pdus, (dl ++ l'), tx, rx, umt', umr'. split_and!.
    + destruct S. by constructor.
    + unfold link_part. cbn. by rewrite Elc.
    + destruct V. constructor; cbn; try done. rewrite length_app. lia.
Qed.

Lemma has_um_list m m' id lcid rb e : RlcApi.ue_list m' = RlcApi.ue_list m -> has_um m id lcid rb e -> has_um m' id lcid rb e.
Proof. intros E [A B C]. constructor; [done|done|by rewrite E]. Qed.

Lemma clock_step st f s : stack_inv st -> exists st', stack_step p st (Clock f s) = Ok st' /\ stack_inv st'.
Proof.
  intros (pdus & dl & tx & rx & umt & umr & S & L & V). eexists. split; [reflexivity|].
  exists pdus, dl, tx, rx, umt, umr. split_and!.
  - destruct S. by constructor.
  - destruct L as [L1 L2 L3 L4 L5 [L6 L7]]. constructor; cbn; try done.
    + by apply (has_um_list (n_rlc (s_tx st))), L1; apply tick_list.
    + by apply (has_um_list (n_rlc (s_rx st))), L2; apply tick_list.
    + unfold RlcApi.nr_rlc_tick. by case_if.
    + unfold RlcApi.nr_rlc_tick. by case_if.
  - destruct V. by constructor.
Qed.

Lemma stack_step_inv st op : stack_inv st -> step_ok p st op -> exists st', stack_step p st op = Ok st' /\ stack_inv st'.
Proof. destruct op; eauto using app_step, rlc_step, grant_stack_step, block_stack_step, pdcp_step, clock_step. Qed.

Lemma stack_run_inv ops st : stack_inv st -> run_ok p st ops -> exists st', stack_run p st ops = Ok st' /\ stack_inv st'.
Proof.
  revert st. induction ops as [|op ops IH]; intros st I H; [by exists st|]. destruct H as [Hs Hr].
  destruct (stack_step_inv st op I Hs) as (st1 & E & I1). cbn [stack_run]. rewrite E. mon. by apply IH; [|apply Hr].
Qed.

Lemma start_inv st rx : stack_start p len id' q es er tx0 rx st ->
  enb = RlcApi.mgr_enb_flag (n_rlc (s_rx st)) -> gnb = Pdcp.is_gnb rx -> ps = Pdcp.pdusession_id rx -> stack_inv st.
Proof.
  intros [T R [C1 C2] (e & t & N & U1 & U2) (_ & _ & I3) (E1 & E2 & E3 & E4 & E5 & E6)] H G1 G2.
  destruct (RlcUmLink.new_link len RLC_RX_MAXSIZE RLC_TX_MAXSIZE t Hlen) as (e' & N' & I & _); [done|done|].
  rewrite N in N'. injection N' as <-. pose proof I as (ql & k & dl & _ & _ & C & S). cbn in C, S.
  symmetry in S. apply app_eq_nil in S as [-> ->].
  exists [], [], tx0, rx, e, e. split_and!.
  - constructor; rewrite ?E1, ?E3, ?E4; try done.
    exists (Pdcp.stats tx0). change (Z.of_nat (length [])) with 0. rewrite <- C1. by destruct tx0.
  - constructor; rewrite ?E1; done.
  - constructor; rewrite ?E2, ?E3, ?E6; try done. unfold receiver_ctxt. by rewrite H.
Qed.

(** An empty buffer report means an empty queue. *)
Lemma report_empty e ql k : RlcUmLink.tx_inv len e ql k -> tx_size_ (bstatus (Um.common e)) = 0 -> ql = [].
Proof.
  intros T. rewrite (RlcUmLink.ti_bst _ _ _ _ T). pose proof (RlcUmLink.ti_queue _ _ _ _ T) as Q.
  destruct (Um.tx_list e) as [|s l], ql as [|D ql]; try done. destruct Q as [(_ & _ & Z1 & Z2 & _) F]. intros E. exfalso.
  assert (Hh : forall x, 0 <= Um.header_size len x) by (intros x; unfold Um.header_size; repeat case_if; lia).
  assert (0 <= RlcUmLink.pending_pdus len l).
  { clear -F Hh. induction F as [|x D' l ql (_ & _ & Z1 & Z2 & _) _ IH]; cbn; [lia|]. specialize (Hh x). lia. }
  cbn in E. specialize (Hh s). lia.
Qed.

(** Nothing left to do: everything sent has been handed up. *)
Lemma idle_complete st m : stack_inv st -> s_req st = length (p_out (Sdap.pdcp (n_world (s_tx st)))) ->
  RlcApi.mac_rlc_status_ind (n_rlc (s_tx st)) (p_ue p) (p_lcid p) = Ok (0, m) ->
  s_ind st = length (RlcApi.r_out (n_rlc (s_rx st))) -> s_ind st = length (s_sent st).
Proof.
  intros (pdus & dl & tx & rx & umt & umr & S & L & V) Hr Hs Hi. pose proof S as [_ _ [Pl _] Po _ _].
  pose proof L as [L1 _ L3 L4 L5 _]. rewrite Po, length_fmap in Hr. rewrite L5, length_fmap in Hi.
  destruct (link_time len umt umr _ (RlcApi.current_time (n_rlc (s_tx st))) 0 Hlen L3) as (u1 & _ & T1 & _ & I1 & _).
  pose proof L1 as [_ _ (u & F & _ & _)]. unfold RlcApi.mac_rlc_status_ind, u16 in Hs.
  rewrite (Z.mod_small (p_ue p)) in Hs by apply Hids. rewrite (get_known _ _ u F), (lcid_um _ _ _ _ _ _ L1 F), bind_Ok in Hs.
  cbn [op_set_time entity_ops dispatch_upd um_ops] in Hs. rewrite T1, !bind_Ok in Hs.
  cbn [op_buffer_status entity_ops dispatch um_ops] in Hs. apply bind_ok in Hs as (b & Eb & Hs). apply mret_ok in Eb as <-.
  apply bind_ok in Hs as (m' & _ & Hs). apply mret_ok in Hs. injection Hs as Et _.
  destruct I1 as (ql & k & dl' & T & _ & C & Sn). cbn in T, C, Sn.
  rewrite (report_empty u1 ql k T) in Sn by (unfold RlcApi.total in Et; cbn in Et; lia).
  rewrite L4 in C. apply (inj (fmap DeliverSdu)) in C as <-. rewrite Hr, firstn_all, app_nil_r in Sn. by rewrite Hi, <- Sn.
Qed.
End Delivery.

(** The SDUs a sequence of operations gives to SDAP. *)
Fixpoint sdus_of (ops : list stack_op) : list bytes :=
  match ops with
  | [] => []
  | App sdu :: ops => sdu :: sdus_of ops
  | _ :: ops => sdus_of ops
  end.

Lemma stack_step_sent `{Openssl} p st op st' : stack_step p st op = Ok st' -> s_sent st' = s_sent st ++ sdus_of [op].
Proof.
  destruct op; cbn [stack_step sdus_of]; rewrite ?app_nil_r; intros E.
  - apply bind_ok in E as ([b w] & _ & E). apply mret_ok in E as <-. done.
  - repeat (case_match; try (apply mret_ok in E as <-; done)). apply bind_ok in E as (m & _ & E). by apply mret_ok in E as <-.
  - apply bind_ok in E as ([[r b] m] & _ & E). case_if_in E; [by apply mret_ok in E as <-|].
    apply bind_ok in E as (m' & _ & E). by apply mret_ok in E as <-.
  - apply bind_ok in E as ([m tb] & _ & E). apply bind_ok in E as (u & _ & E). by apply mret_ok in E as <-.
  - repeat (case_match; try (apply mret_ok in E as <-; done)). apply bind_ok in E as (m & _ & E). by apply mret_ok in E as <-.
  - by apply mret_ok in E as <-.
Qed.

Lemma stack_run_sent `{Openssl} p ops st st' : stack_run p st ops = Ok st' -> s_sent st' = s_sent st ++ sdus_of ops.
Proof.
  revert st. induction ops as [|op ops IH]; intros st E; cbn [stack_run] in E; [apply mret_ok in E as <-; by rewrite app_nil_r|].
  apply bind_ok in E as (st1 & E1 & E2). rewrite (IH _ E2), (stack_step_sent _ _ _ _ E1), <- app_assoc. f_equal.
  by destruct op.
Qed.


(** ** Evaluation *)

#[local] Existing Instances toy_openssl toy_laws.

Definition demo_path : path := mk_path (mk_ctxt 0 true 0 7 0 false) 5 false 1 70 4 7 4.

Definition demo_stack (tx rx : Pdcp.nr_pdcp_entity_t) : stack :=
  mk_stack (mk_node (demo_node true tx) (demo_rlc true 70)) (mk_node (demo_node false rx) (demo_rlc false 7)) 0 0 [] demo_ue_mac.

(** A block of 20 octets with a timing advance command. *)
Definition demo_grant : dl_grant := mk_dl_grant (demo_sched false 0) 1 0 20 5 100 3 (replicate 60 0) demo_stats.

(** One SDU, cut by a grant of 4 bytes; the rest in a transport block. *)
Definition demo_first_ops : list stack_op := [App [1; 2; 3]; RlcThread 0; Grant 4 0; Clock 0 1].
Definition demo_stack_ops : list stack_op := demo_first_ops ++ [Block demo_grant 0; PdcpThread].

(** RLC of the gNB before the block. *)
Definition demo_rlc_before : res RlcApi.rlc_state :=
  tx ← Pdcp.new_nr_pdcp_entity Pdcp.NR_PDCP_DRB_AM true 2 1 true true 12 100 0 (demo_keys 2 2);
  rx ← Pdcp.new_nr_pdcp_entity Pdcp.NR_PDCP_DRB_AM false 2 1 true true 12 100 0 (demo_keys 2 2);
  st ← stack_run demo_path (demo_stack tx rx) demo_first_ops;
  mret (n_rlc (s_tx st)).

Lemma demo_block_fits m : demo_rlc_before = Ok m -> fill_block (no_two (rlc_mac 70)) demo_grant 0 m <> Err Undef.
Proof.
  assert (H : (match demo_rlc_before with Ok m => match fill_block (no_two (rlc_mac 70)) demo_grant 0 m with Err Undef => false | _ => true end | Err _ => false end) = true) by (vm_compute; reflexivity).
  intros E F. rewrite E, F in H. discriminate H.
Qed.

